(* ===== verification/_CoqProject ===== *)
-Q . S2P
Prelude.v
Worklist.v
Semver.v
Scope.v
ScopeRelation.v
ScopeSoundness.v
Hierarchy.v
Topology.v
Validation.v
Resolution.v
ResolutionState.v
Precedence.v
ResolutionSpec.v
Resolver.v
Compatibility.v
EconomicsModel.v
Ledger.v
Ranking.v
Generator.v
Allocation.v
StateError.v
EffectModel.v
EffectAdapter.v
EffectStore.v
EffectManager.v
EffectExample.v
EffectLogic.v
EffectFacts.v
EffectAuthorization.v
EffectProtocol.v
EffectSafety.v
EffectOutcome.v
Paths.v
CapabilityModel.v
CapabilityPolicy.v
CapabilityAuthority.v
Redaction.v
CapabilityStore.v
CapabilityToken.v
CapabilityBroker.v
CapabilityProxy.v
CapabilityAdmin.v
CapabilityLogic.v
CapabilityFacts.v
CapabilitySystem.v
CapabilitySafety.v
CapabilityOutcome.v
CapabilityExample.v
PlanModel.v
PlanValidity.v
PlanWellFormed.v
PlanPredicates.v
PlanDecision.v
PlanAdmission.v
PlanRevalidation.v
PlanExample.v
PlanStore.v
PlanRun.v
PlanRecovery.v
PlanRunFacts.v
PlanRunSound.v
PlanRunSteps.v
PlanRunSafety.v
PlanRunOutcome.v
PlanRunExample.v
RuntimeModel.v
RuntimePolicy.v
RuntimeGuide.v
RuntimeVerdict.v
RuntimeSound.v
RuntimeSafety.v
RuntimeContext.v
RuntimeSynthesis.v
RuntimeExample.v
TeamAuthority.v
TeamStore.v
TeamFacts.v
TeamSystem.v
TeamSafety.v
TeamExample.v
