(* ===== verification/Prelude.v ===== *)
(** * Verification of hardknock

    hardknock is a Rust program that lets coding agents learn from experiments
    in disposable copies of a repository ("Realities"). This library models the
    parts of src/src that decide something: which knowledge governs a context,
    which experiments a budget is spent on, how an external effect is staged,
    authorized, committed, reconciled and undone, what a Reality may do, what an
    agent is told to do next, and who may do what in a team. Definitions keep the names
    and the structure of the source; every definition that models code is listed with
    its lines in the manifest beside this library.

    ** Parts

    - Errors, integers, orders (this file): [Error] of error.rs as the error of
      [result]; a call that can panic returns a [run] ([Ret], [Panicked] or
      [OutOfFuel]); u64 and usize are integers with the saturating and checked
      operations written out; BTreeMap and BTreeSet are [gmap] and [gset] visited
      in key order; stable sorting by a key.
    - Third-party interfaces (Semver.v): semver and serde_json as classes of
      operations, their documented behaviour as classes of laws, and an
      executable instance on which the witnesses run.
    - Scopes (Scope.v, ScopeRelation.v, ScopeSoundness.v): hierarchy/scope.rs.
      Contexts, predicates, three-valued applicability, specificity; the
      relation of two scopes by per-key domains and version intervals.
    - Knowledge hierarchy (Hierarchy.v, Topology.v, Validation.v, Resolution.v,
      Compatibility.v): hierarchy/{model,validation,resolution,compatibility}.rs.
      The edge index and topological traversal, the validation report, the
      resolution stages (classification, dependency health, conflict discovery,
      supersession, exception, specialization, refinement, output) and the
      adapters from older applicability types. ResolutionState.v, Precedence.v
      and ResolutionSpec.v carry the lemmas of the stages, Resolver.v the
      theorems.
    - Experience economics (EconomicsModel.v, Ledger.v, Ranking.v, Generator.v,
      Allocation.v): economics/{model,engine}.rs and budget.rs. Ledgers with
      saturating counters, the strict budget policy, priority classes and
      dominance, the generator of opportunities from gaps, the allocator and
      its revision.
    - Effects (EffectModel.v, EffectAdapter.v, EffectStore.v, EffectManager.v):
      effects/{model,adapter,manager}.rs and store/effects.rs. The state is a
      [World]: the tables of migrations/011_effects.sql as finite maps, the
      external systems behind the adapters, and the number of clock and id
      draws. An operation is a function from a World to a result and a World
      (monad [eff] of StateError.v): what it did before it failed stays, except
      inside a [transaction], which rolls back. An adapter is a record of
      operations on the external state.
    - Capabilities (Paths.v, CapabilityModel.v, CapabilityPolicy.v, Redaction.v,
      CapabilityStore.v, CapabilityToken.v, CapabilityBroker.v, CapabilityProxy.v,
      CapabilityAdmin.v): capability/{model,policy,profiles,credential,token,
      proxy}.rs, store/capabilities.rs, the revocation of cli/capability.rs, the
      freezing of capability/container.rs, the two commands of cli.rs that use
      them and the authentication of bridge/transport.rs. Paths.v models the
      paths of std::path as lists of components. The state is a [CapWorld]: the
      tables of migrations/012_capabilities.sql, the secrets and published
      tokens, the files of the host and the number of draws; every statement may
      fail ([cap_fault]). The files of the host are a parameter with the operations
      of [HostFiles]; the copies of credentials made for an action, which are
      removed when it is over, its artifacts and the process in the container change
      them ([ProxyHost]; the workspace is mounted in the container, so the process
      may write to it).
    - Plans (Worklist.v, PlanModel.v, PlanValidity.v): plan/{model,validity}.rs,
      with the state claims of composition/model.rs and [condition_value] and
      [trusted_state] of composition/analysis.rs. Worklist.v holds the loops over
      a dependency graph. A plan is validated once into an index of what each step
      needs; an evaluation builds a report on the next step from the claims
      observed so far, one definition per part of the report, and concludes.
    - Runs of plans (PlanStore.v, PlanRun.v, PlanRecovery.v): store/plan.rs. The
      state is a [PlanWorld]: the tables of migrations/025_plan.sql as finite maps,
      the rest of the system, and the number of clock and id draws. Plans are saved
      and revised; runs are started, observed, assessed and advanced step by step;
      they are replanned onto a later revision, reconciled after a failure, and
      captured and resumed at checkpoints.
    - Runtime guidance (RuntimeModel.v, RuntimePolicy.v, RuntimeGuide.v,
      RuntimeContext.v): runtime/{model,policy,context}.rs, the retrieval of
      retrieval.rs, the selectors of lesson.rs and the quarantine of
      store/runtime.rs. [synthesize] builds a decision context from what the store
      answers to one request (a [StoreView]); [evaluate] goes through its stages in
      order, each of which may return the decision, and keeps the reasons and
      blockers collected on the way (monad [guide]). Texts of foreign values and
      the hash are the class [RuntimeTexts].
    - Team governance (TeamAuthority.v, TeamStore.v): team/{mod,governance}.rs,
      store/team.rs and, of store/team_governance.rs, governance documents, the
      capability check, role separation and the reassignment of roles. A team is
      validated, an assignment or a chain of delegations yields an authority, a
      request is checked against it. The state is a [TeamWorld]: the tables of
      migrations/026_team.sql and 029_team_governance.sql as finite maps, and the rest
      of the system. [attach_team_authority] notes on a decision context whether its
      team allows the action, which [evaluate] reads.

    The parts are layered: resolution calls scopes and topology; allocation
    calls ranking and the ledger; the effect manager calls the store, the
    registry and the adapters; the execution proxy calls the policy, the tokens,
    the broker and the redactor. The effect manager reaches the other
    subsystems of the program (the capability manifest, the knowledge and team
    checks, the recording of an Experience) only through the class [EffectHost], and the
    clock and id source through [EffectEnv]; [effect_verdict] of
    CapabilityProxy.v is the manifest's half of that host. The runs of plans reach
    the other subsystems (components, attestations, receipts, experiments,
    decisions, team bindings, authorizations, trajectories) through the class
    [PlanHost] and the hashes of stored values through [PlanHashes], whose law
    [PlanHashLaws] says that the hashes of different steps and of different
    commitment points differ. The teams reach plans, reviews, recovery handoffs and
    snapshots through the class [TeamHost].

    ** What the theorems show

    - Scopes: the relation of two scopes is sound for applicability and flips
      with its arguments; version requirements that reduce to an interval match
      exactly its versions; the applicability status is determined by the
      outcomes of the predicates.
    - Hierarchy: traversal and validation terminate, the traversal visits every
      node once after its predecessors and misses exactly what is on or behind a
      cycle, and the report is error-free exactly on well-formed hierarchies.
    - Resolution: it always returns, accounts for every node exactly once, gives
      authority only to healthy, applicable, evidence-backed nodes, decides
      every usable precedence edge, justifies every suppression and role, and
      does not depend on the order of the edges.
    - Economics: no sequence of ledger operations exceeds the budget; reserving,
      releasing and settling are exact; allocation is sound, greedy, within
      budget and independent of the input order; revisions conserve the budget;
      the generator and the policies do what their contracts say.
    - Effects: EffectLogic.v defines the invariant of the tables ([wf]), the
      relation [kept] of worlds, an abstract commit protocol and triples over
      them, and shows that the order of a plan respects its dependencies; EffectFacts.v proves a triple per operation; EffectProtocol.v makes
      the subsystem a transition system (any calls, failed or not, interleaved
      with changes of the surroundings) and proves that every reachable state is
      well-formed, that every run refines the protocol, and that closed effects
      stay closed. EffectSafety.v shows who can change the authoritative state
      and through which gate, assuming of an adapter only that its staging
      operations stage ([StagedAdapter]). EffectAuthorization.v binds an
      authorization to its scope, EffectOutcome.v
      relates the results of plans, cleanups and commits to the state they
      leave, and records two runs in which the program does not do what its
      documentation says. EffectExample.v is the concrete world of the
      witnesses.
    - Capabilities: CapabilityAuthority.v gives the policy a declarative
      specification ([granted]) and shows that it decides exactly that, that a
      narrower manifest grants less, that resolved paths stay in the workspace
      and that the built-in profiles stay in their sandbox; Redaction.v shows
      what redaction hides and bounds. CapabilityLogic.v lifts what every
      statement preserves to every operation ([stays], [Books]),
      CapabilityFacts.v proves the statements keep the tables well-formed
      ([wf], [kept]), CapabilitySystem.v makes the subsystem a transition system
      whose calls run one at a time. CapabilitySafety.v shows what stands behind
      an action and how it can change the files of the host, and that revoked tokens and frozen Realities are inert for good;
      CapabilityOutcome.v what revoking, issuing a token and issuing a
      credential achieve, and that a revocation that overlaps a freeze undoes
      it. CapabilityExample.v is the concrete world of the witnesses.
    - Plans: PlanWellFormed.v specifies the well-formed plans and shows that
      validation accepts exactly those; PlanPredicates.v shows when claims support
      a condition; PlanDecision.v gives the exact list of blockers of a report;
      PlanAdmission.v states when a step is admissible and shows that an
      evaluation always answers and lets exactly the admissible steps continue;
      PlanRevalidation.v shows what a changed assumption invalidates.
      PlanExample.v is the concrete plan of the witnesses.
    - Runs of plans: PlanRunFacts.v shows what the operations leave alone ([calm]) and states the invariant of the store ([store_wf]), how runs move
      ([run_advances]) and the step [sound] that keeps the one and is the other;
      PlanRunSound.v and PlanRunSteps.v prove that every operation is such a step, and
      what a completed step and a replanned run went through. PlanRunSafety.v makes
      the store a transition system (any calls, failed or not, and any change of the
      rest of the system): its books stay right, a step is only completed when it
      was earned (by evidence of the kind of the step; commit receipts may be old or
      shared), a run has a next step until all are completed, and a run replanned
      onto completed work is stranded. PlanRunOutcome.v shows what an observation
      may displace, what recovery counts as committed and what replanning keeps.
      PlanRunExample.v is the concrete system of the witnesses.
    - Runtime guidance: RuntimeVerdict.v states the policy as a list of rules, the
      first of which decides ([verdict]), and shows that every stage follows its
      rule ([follows]) and that some rule always applies; RuntimeSound.v shows what
      a decision carries. RuntimeSafety.v derives when exactly an agent is told to
      act, what blocks it for security, what stands behind a high-risk action, when
      a required approval is not asked for, and that the conservative profile acts
      least. RuntimeSynthesis.v goes from the store to the decision: what counts as
      support, which assurance is current (and where that departs from the freshness
      policy of certifications), which recoveries and reflexes have an
      effect, what the quarantine takes away. RuntimeExample.v holds the requests of
      the witnesses.
    - Team governance: TeamFacts.v specifies the chains of delegations that hold
      ([holds]) and the valid teams ([valid_team]). TeamSystem.v states the invariant of
      the store ([team_wf]) and how its tables grow ([team_grows]), makes it a transition
      system and proves that every call keeps the one and is the other. TeamSafety.v
      shows that delegated authority is exactly that of the chains, that a delegation
      amplifies nothing and ends for good, when attaching a team to a decision fails or
      panics, and what an agent that is told to act for a team is entitled to
      ([entitlement]), which joins the store of teams with the policy of the runtime
      guidance. TeamExample.v holds the team of the witnesses.

    ** Fuel

    Recursion that is not structural takes fuel, and running out of it is a
    value of its own ([OutOfFuel]), except in [order_loop], where it is the cycle
    error of the same loop, and in [lift_run], which turns it into an error; neither
    case is reached ([topological_order_correct], [redaction_hides_secrets]). The traversal of Topology.v gets one unit per node plus
    one, the health loop and the lineage of Resolution.v enough for every edge
    and node to enter their queues once, [order_loop] one unit per member of the
    plan, [delegated_inner] one per delegation allowed in a chain plus one.
    [order_items] gets one unit per item, [reach_loop] one per node and
    edge, [grow_loop] one per item plus one. Each has a theorem that this fuel is
    enough ([topological_order], [resolve_total], [topological_order_correct],
    [delegated_authority_exact], [order_items_spec], [reach_from], [grow_loop_spec]).

    ** Not modelled

    Creating, networking and discarding containers and git worktrees, how a child
    process is started, watched and stopped (what it returns, and that it may change
    the files of the host, is in [run_container]), the CLI, the MCP and bridge servers and the
    setup code are input and output. Mode bits of files and the file of the
    signing key are left to the host. The
    built-in effect adapters and the recording of an Experience
    (EffectManager::record_effect_experience) read and write files and child
    processes; they are parameters. Event metadata, JSON that no operation reads
    back, is left out. The stores other than the effect store are SQL around the
    transitions modelled with their component. Of store/plan.rs the listings, the
    context attached to a decision and the requests built for other subsystems
    are left out; of the runtime guidance the attaching of plans, operational
    knowledge and forecasts to a decision context, the records of decisions, scenarios
    and benchmarks; of the team governance reviews, handoffs, challenges,
    responsibilities, epistemic profiles and the knowledge view of a role. The
    predictive engine computes with floating-point numbers. The knowledge runtime
    cache, the epistemic policy, the causal engine and the economics store decide
    things too and are not modelled; what the modelled parts ask of them is a parameter. *)
From stdpp Require Export base list strings gmap sets sorting pretty.
From Stdlib Require Export ZArith Lia.
From Stdlib Require Import Orders.

(** * Errors and results *)

(** [crate::Error] of src/error.rs. A foreign error ([io::Error],
    [rusqlite::Error], [serde_json::Error]) is carried as its display text. *)
Inductive Error : Type :=
  | InvalidInput (message : string)
  | Intervention (message : string)
  | NotFound (message : string)
  | ExperimentFailed (id : string) (source : Error)
  | Git (message : string)
  | ProcessStart (program : string) (source : string)
  | RealityPreserved (id path : string) (source : Error)
  | Io (source : string)
  | Sqlite (source : string)
  | Json (source : string)
  | Cleanup (primary cleanup : Error).

Fixpoint exit_code (e : Error) : Z :=
  match e with
  | Intervention _ => 5
  | RealityPreserved _ _ source => exit_code source
  | ExperimentFailed _ source => exit_code source
  | _ => 2
  end%Z.

(** The [Display] texts. *)
Fixpoint error_text (e : Error) : string :=
  match e with
  | InvalidInput m | Intervention m | NotFound m => m
  | ExperimentFailed id source =>
      "Experiment " +:+ id +:+ " failed (partial evidence retained): " +:+ error_text source
  | Git m => "Git operation failed: " +:+ m
  | ProcessStart program source =>
      "Could not start '" +:+ program +:+ "': " +:+ source +:+
      ". Check the executable or --agent-command."
  | RealityPreserved id path source =>
      error_text source +:+ "; Reality " +:+ id +:+ " retained at " +:+ path +:+ " for inspection"
  | Io m => "Filesystem/process error: " +:+ m
  | Sqlite m => "SQLite error: " +:+ m
  | Json m => "JSON error: " +:+ m
  | Cleanup primary cleanup =>
      error_text primary +:+ "; additionally, cleanup failed: " +:+ error_text cleanup
  end.

(** [std::result::Result<T, crate::Error>]. *)
Inductive result (A : Type) : Type :=
  | Ok (a : A)
  | Err (e : Error).
Arguments Ok {A} a.
Arguments Err {A} e.

#[export] Instance result_ret : MRet result := fun A a => Ok a.
#[export] Instance result_bind : MBind result := fun A B f r =>
  match r with Ok a => f a | Err e => Err e end.

Definition is_ok {A} (r : result A) : bool :=
  match r with Ok _ => true | Err _ => false end.

(** [Option::ok_or_else]. *)
Definition ok_or {A} (o : option A) (e : Error) : result A :=
  match o with Some a => Ok a | None => Err e end.

Lemma result_bind_Ok {A B} (r : result A) (f : A -> result B) b :
  (r ≫= f) = Ok b -> exists a, r = Ok a /\ f a = Ok b.
Proof. destruct r as [a|]; [by exists a|done]. Qed.

Lemma ok_or_Ok {A} (o : option A) e a : ok_or o e = Ok a -> o = Some a.
Proof. destruct o; [by intros [= ->]|done]. Qed.

(** The outcome of Rust code that may panic (an out-of-range index, an
    arithmetic overflow) or whose loops are run with fuel. *)
Inductive run (A : Type) : Type :=
  | Ret (a : A)
  | Panicked
  | OutOfFuel.
Arguments Ret {A} a.
Arguments Panicked {A}.
Arguments OutOfFuel {A}.

#[export] Instance run_ret : MRet run := fun A a => Ret a.
#[export] Instance run_bind : MBind run := fun A B f r =>
  match r with Ret a => f a | Panicked => Panicked | OutOfFuel => OutOfFuel end.

(** [map[&key]] of a Rust map: panics when the key is missing. *)
Definition index_or_panic {A} (o : option A) : run A :=
  match o with Some a => Ret a | None => Panicked end.

Fixpoint run_filter {A} (f : A -> run bool) (l : list A) : run (list A) :=
  match l with
  | [] => Ret []
  | x :: l' =>
      b ← f x;
      rest ← run_filter f l';
      Ret (if (b : bool) then x :: rest else rest)
  end.

Fixpoint run_foldl {A S} (f : S -> A -> run S) (s : S) (l : list A) : run S :=
  match l with
  | [] => Ret s
  | x :: l' => s' ← f s x; run_foldl f s' l'
  end.

Fixpoint run_map {A B} (f : A -> run B) (l : list A) : run (list B) :=
  match l with
  | [] => Ret []
  | x :: l' => y ← f x; ys ← run_map f l'; Ret (y :: ys)
  end.

Lemma run_filter_pure {A} (f : A -> run bool) (g : A -> bool) (l : list A) :
  Forall (fun x => f x = Ret (g x)) l ->
  run_filter f l = Ret (List.filter g l).
Proof.
  induction 1 as [|x l Hx _ IH]; [done|]; cbn.
  rewrite Hx; cbn. rewrite IH; cbn. by destruct (g x).
Qed.

Lemma run_map_pure {A B} (f : A -> run B) (g : A -> B) (l : list A) :
  Forall (fun x => f x = Ret (g x)) l -> run_map f l = Ret (map g l).
Proof.
  induction 1 as [|x l Hx _ IH]; [done|]; cbn.
  rewrite Hx; cbn. by rewrite IH.
Qed.

Lemma run_foldl_ext {A S} (f g : S -> A -> run S) (s : S) (l : list A) :
  (forall s x, x ∈ l -> f s x = g s x) -> run_foldl f s l = run_foldl g s l.
Proof.
  revert s. induction l as [|x l IH]; intros s Hfg; cbn; [done|].
  rewrite Hfg by set_solver. destruct (g s x) as [s'| |]; [|done..]. cbn.
  apply IH. intros s2 y Hy. apply Hfg. set_solver.
Qed.

(** An invariant of a loop body that never panics is an invariant of the
    loop, and the loop returns. *)
Lemma run_foldl_inv {A S} (I : S -> Prop) (f : S -> A -> run S) (s : S) (l : list A) :
  (forall s x, x ∈ l -> I s -> exists s', f s x = Ret s' /\ I s') ->
  I s -> exists s', run_foldl f s l = Ret s' /\ I s'.
Proof.
  revert s. induction l as [|x l IH]; intros s Hstep Hs; cbn; [by exists s|].
  destruct (Hstep s x) as (s1 & -> & Hs1); [set_solver|done|]; cbn.
  apply IH; [|done]. intros s2 y Hy Hs2. apply Hstep; [set_solver|done].
Qed.

(** The same with an invariant on the part of the list already visited. *)
Lemma run_foldl_prefix {A S} (I : list A -> S -> Prop) (f : S -> A -> run S) (s : S) (l : list A) :
  (forall l1 x s, x ∈ l -> I l1 s -> exists s', f s x = Ret s' /\ I (l1 ++ [x]) s') ->
  I [] s -> exists s', run_foldl f s l = Ret s' /\ I l s'.
Proof.
  intros Hstep Hs.
  assert (Hg : forall l2 l1 s, (forall x, x ∈ l2 -> x ∈ l) -> I l1 s ->
    exists s', run_foldl f s l2 = Ret s' /\ I (l1 ++ l2) s').
  { induction l2 as [|x l2 IH]; intros l1 s1 Hl Hi; cbn.
    { exists s1. by rewrite app_nil_r. }
    destruct (Hstep l1 x s1) as (s2 & -> & Hi2); [set_solver|done|]; cbn.
    destruct (IH (l1 ++ [x]) s2) as (s3 & Hr & Hi3); [set_solver|done|].
    exists s3. split; [done|]. by rewrite <- app_assoc in Hi3. }
  by apply (Hg l []).
Qed.

(** [m?] where [m] may also panic. *)
Definition and_then {A B} (m : run (result A)) (f : A -> run (result B)) : run (result B) :=
  match m with
  | Ret (Ok a) => f a
  | Ret (Err e) => Ret (Err e)
  | Panicked => Panicked
  | OutOfFuel => OutOfFuel
  end.

Lemma and_then_Ok {A B} (m : run (result A)) (f : A -> run (result B)) b :
  and_then m f = Ret (Ok b) -> exists a, m = Ret (Ok a) /\ f a = Ret (Ok b).
Proof. destruct m as [[a|]| |]; [by exists a|done..]. Qed.

(** A loop whose body may return early with [?]. *)
Fixpoint result_foldl {A S} (f : S -> A -> result S) (s : S) (l : list A) : result S :=
  match l with
  | [] => Ok s
  | x :: l' => s' ← f s x; result_foldl f s' l'
  end.

Lemma result_foldl_prefix {A S} (I : list A -> S -> Prop) (f : S -> A -> result S) (s s' : S)
    (l : list A) :
  (forall l1 x l2 s s', l = l1 ++ x :: l2 -> I l1 s -> f s x = Ok s' -> I (l1 ++ [x]) s') ->
  I [] s -> result_foldl f s l = Ok s' -> I l s'.
Proof.
  intros Hstep Hs.
  assert (Hg : forall l2 l1 s, l = l1 ++ l2 -> I l1 s -> result_foldl f s l2 = Ok s' -> I l s').
  { induction l2 as [|x l2 IH]; intros l1 s1 Hl Hi; cbn.
    { intros [= <-]. by rewrite Hl, app_nil_r. }
    destruct (f s1 x) as [s2|] eqn:Hf; [|done]; cbn. apply (IH (l1 ++ [x])).
    - by rewrite <- app_assoc.
    - by eapply Hstep. }
  by apply (Hg l []).
Qed.

Lemma result_foldl_Err {A S} (f : S -> A -> result S) (s : S) (l : list A) (e : Error) :
  result_foldl f s l = Err e -> exists x s', x ∈ l /\ f s' x = Err e.
Proof.
  revert s. induction l as [|x l IH]; intros s; cbn; [done|].
  destruct (f s x) as [s1|e1] eqn:Hf; cbn.
  - intros (y & s2 & ? & ?)%IH. exists y, s2. set_solver.
  - intros [= ->]. exists x, s. set_solver.
Qed.

(** * Machine integers *)

Definition U64_MAX : Z := 2 ^ 64 - 1.
Definition USIZE_MAX : Z := 2 ^ 64 - 1.
Definition I64_MIN : Z := - 2 ^ 63.
Definition I64_MAX : Z := 2 ^ 63 - 1.

(** [u64] and [usize] (on a 64-bit target) hold the same values. *)
Definition is_u64 (z : Z) : Prop := (0 <= z <= U64_MAX)%Z.
Definition is_i64 (z : Z) : Prop := (I64_MIN <= z <= I64_MAX)%Z.

Definition saturating_add (a b : Z) : Z := Z.min (a + b) U64_MAX.
Definition saturating_sub (a b : Z) : Z := Z.max (a - b) 0.
(** [u64::checked_add(1)]. *)
Definition checked_succ (a : Z) : option Z :=
  if decide (a < U64_MAX)%Z then Some (a + 1)%Z else None.

#[export] Instance is_u64_dec z : Decision (is_u64 z).
Proof. unfold is_u64; apply _. Defined.
#[export] Instance is_i64_dec z : Decision (is_i64 z).
Proof. unfold is_i64; apply _. Defined.

Create HintDb machine.
Lemma u64_max_pos : (0 < U64_MAX)%Z.
Proof. reflexivity. Qed.
Lemma is_u64_saturating_add a b : is_u64 a -> is_u64 b -> is_u64 (saturating_add a b).
Proof. pose proof u64_max_pos. unfold is_u64, saturating_add; lia. Qed.
Lemma is_u64_saturating_sub a b : is_u64 a -> is_u64 b -> is_u64 (saturating_sub a b).
Proof. unfold is_u64, saturating_sub; lia. Qed.
#[export] Hint Resolve is_u64_saturating_add is_u64_saturating_sub : machine.

(** * Derived orders *)

(** Rust's [Ord]: a three-way comparison with the laws of a total order. *)
Class Ord (A : Type) := ord_cmp : A -> A -> comparison.
Class OrdLaws (A : Type) `{Ord A} := {
  ord_eq : forall x y, ord_cmp x y = Eq <-> x = y;
  ord_flip : forall x y, ord_cmp y x = CompOpp (ord_cmp x y);
  ord_lt_trans : forall x y z,
    ord_cmp x y = Lt -> ord_cmp y z = Lt -> ord_cmp x z = Lt;
}.

Definition ord_le {A} `{Ord A} (x y : A) : Prop := ord_cmp x y <> Gt.
#[export] Instance ord_le_dec {A} `{Ord A} : RelDecision (ord_le (A := A)).
Proof. intros x y. unfold ord_le. destruct (ord_cmp x y); [left|left|right]; congruence. Defined.

Section ord.
Context {A : Type} `{OrdLaws A}.

Lemma ord_refl (x : A) : ord_cmp x x = Eq.
Proof. by apply ord_eq. Qed.

Lemma ord_le_lt_eq (x y : A) : ord_le x y <-> ord_cmp x y = Lt \/ x = y.
Proof.
    unfold ord_le. rewrite <- ord_eq.
    destruct (ord_cmp x y); intuition congruence.
Qed.

#[export] Instance ord_le_preorder : PreOrder (ord_le (A := A)).
Proof.
    split.
    - intros x. apply ord_le_lt_eq. by right.
    - intros x y z. rewrite !ord_le_lt_eq.
      intros [Hxy|<-] [Hyz|<-]; auto. left. by eapply ord_lt_trans.
Qed.

#[export] Instance ord_le_antisymm : AntiSymm (=) (ord_le (A := A)).
Proof.
    intros x y. rewrite !ord_le_lt_eq. intros [Hxy|?] [Hyx|?]; try done.
    rewrite ord_flip, Hxy in Hyx. done.
Qed.

#[export] Instance ord_le_total : Total (ord_le (A := A)).
Proof.
    intros x y. unfold ord_le. rewrite (ord_flip x y).
    destruct (ord_cmp x y); [by left|by left|by right].
Qed.
End ord.

#[export] Instance string_ord : Ord string := String.compare.
#[export] Instance string_ord_laws : OrdLaws string.
Proof.
  split; unfold ord_cmp, string_ord.
  - intros x y. split; [apply String.compare_eq_iff|]. intros ->. assert (H := String.compare_antisym y y). by destruct (String.compare y y).
  - intros x y. apply String.compare_antisym.
  - intros x y z Hxy Hyz.
    assert (Hxz : String.le x z).
    { transitivity y; unfold String.le, String.leb; [by rewrite Hxy|by rewrite Hyz]. }
    destruct (String.compare x z) eqn:Hc; [|done|].
    + apply String.compare_eq_iff in Hc as ->.
      rewrite String.compare_antisym, Hxy in Hyz. done.
    + unfold String.le, String.leb in Hxz. by rewrite Hc in Hxz.
Qed.

#[export] Instance Z_ord : Ord Z := Z.compare.
#[export] Instance Z_ord_laws : OrdLaws Z.
Proof.
  split; unfold ord_cmp, Z_ord.
  - apply Z.compare_eq_iff.
  - intros x y. apply Z.compare_antisym.
  - intros x y z. rewrite !Z.compare_lt_iff. lia.
Qed.

(** The derived order of a tuple compares its components left to right. *)
#[export] Instance prod_ord {A B} `{Ord A, Ord B} : Ord (A * B) := fun p q =>
  match ord_cmp p.1 q.1 with Eq => ord_cmp p.2 q.2 | c => c end.
#[export] Instance prod_ord_laws {A B} `{OrdLaws A, OrdLaws B} : OrdLaws (A * B).
Proof.
  split; unfold ord_cmp, prod_ord.
  - intros [a b] [a' b']; cbn. destruct (ord_cmp a a') eqn:E.
    + apply ord_eq in E as ->. rewrite ord_eq. naive_solver.
    + split; [done|]. intros [= -> ->]. by rewrite ord_refl in E.
    + split; [done|]. intros [= -> ->]. by rewrite ord_refl in E.
  - intros [a b] [a' b']; cbn. rewrite (ord_flip a a').
    destruct (ord_cmp a a'); cbn; [apply ord_flip|done|done].
  - intros [a b] [a' b'] [a'' b'']; cbn. intros H1' H2'.
    destruct (ord_cmp a a') eqn:E1; try done;
    destruct (ord_cmp a' a'') eqn:E2; try done.
    + apply ord_eq in E1 as ->. rewrite E2. by eapply ord_lt_trans.
    + apply ord_eq in E1 as ->. by rewrite E2.
    + apply ord_eq in E2 as ->. by rewrite E1.
    + by rewrite (ord_lt_trans _ _ _ E1 E2).
Qed.

(** [std::cmp::Reverse]. *)
Record Reverse (A : Type) := mkReverse { unreverse : A }.
Arguments mkReverse {A} unreverse.
Arguments unreverse {A} _.
#[export] Instance reverse_ord {A} `{Ord A} : Ord (Reverse A) :=
  fun x y => ord_cmp (unreverse y) (unreverse x).
#[export] Instance reverse_ord_laws {A} `{OrdLaws A} : OrdLaws (Reverse A).
Proof.
  split; unfold ord_cmp, reverse_ord.
  - intros [x] [y]; cbn. rewrite ord_eq. naive_solver.
  - intros [x] [y]; cbn. apply ord_flip.
  - intros [x] [y] [z]; cbn. intros. by eapply ord_lt_trans.
Qed.

(** The order of the keys: the derived [Ord] of a field-less enum (its
    discriminants) and of a struct (the tuple of its fields). *)
Definition key_ord {A K} `{Ord K} (f : A -> K) : Ord A := fun x y => ord_cmp (f x) (f y).
Lemma key_ord_laws {A K} `{OrdLaws K} (f : A -> K) :
  Inj (=) (=) f -> @OrdLaws A (key_ord f).
Proof.
  intros Hinj. split; unfold ord_cmp, key_ord.
  - intros x y. rewrite ord_eq. split; [apply Hinj|congruence].
  - intros x y. apply ord_flip.
  - intros x y z. apply ord_lt_trans.
Qed.

(** * Stable sorting *)

(** [slice::sort_by_key]: a stable merge sort on the keys. *)
Definition sort_by_key {A K} `{Ord K} (f : A -> K) (l : list A) : list A :=
  merge_sort (fun x y => ord_le (f x) (f y)) l.

Section sorting.
Context {A K : Type} `{OrdLaws K} (f : A -> K).

Lemma sort_by_key_perm (l : list A) : sort_by_key f l ≡ₚ l.
Proof. apply merge_sort_Permutation. Qed.

#[local] Instance key_total : Total (fun x y : A => ord_le (f x) (f y)).
Proof. intros x y. apply (total ord_le). Qed.
#[local] Instance key_trans : Transitive (fun x y : A => ord_le (f x) (f y)).
Proof. intros x y z ??. by etrans. Qed.

Lemma sort_by_key_sorted (l : list A) :
    StronglySorted (fun x y => ord_le (f x) (f y)) (sort_by_key f l).
Proof. apply (StronglySorted_merge_sort _). Qed.

Lemma elem_of_sort_by_key (l : list A) x : x ∈ sort_by_key f l <-> x ∈ l.
Proof. by rewrite sort_by_key_perm. Qed.

  (** Sorting by a key that identifies the elements forgets the input order. *)
Lemma sort_by_key_unique (l l' : list A) :
    (forall x y, x ∈ l -> y ∈ l -> f x = f y -> x = y) ->
    l ≡ₚ l' -> sort_by_key f l = sort_by_key f l'.
Proof.
    intros Hinj Hp.
    apply (StronglySorted_unique_strong (fun x y => ord_le (f x) (f y))).
    - intros x y Hx Hy Hxy Hyx. apply Hinj.
      + by rewrite elem_of_sort_by_key in Hx.
      + rewrite elem_of_sort_by_key in Hy. by rewrite Hp.
      + by apply (anti_symm ord_le).
    - apply sort_by_key_sorted.
    - apply sort_by_key_sorted.
    - by rewrite !sort_by_key_perm.
Qed.
End sorting.

(** * Ordered maps and sets *)

(** A [BTreeMap]/[BTreeSet] is a [gmap]/[gset] visited in key order. *)
Definition btree_set {K} `{Countable K, !Ord K} (s : gset K) : list K :=
  sort_by_key id (elements s).
Definition btree_map {K V} `{Countable K, !Ord K} (m : gmap K V) : list (K * V) :=
  sort_by_key fst (map_to_list m).
Definition btree_keys {K V} `{Countable K, !Ord K} (m : gmap K V) : list K :=
  fst <$> btree_map m.
(** [BTreeSet::pop_first]. *)
Definition pop_first {K} `{Countable K, !Ord K} (s : gset K) : option (K * gset K) :=
  match btree_set s with
  | [] => None
  | x :: _ => Some (x, s ∖ {[x]})
  end.

Section btree.
Context {K : Type} `{Countable K} `{!Ord K, !OrdLaws K}.

Lemma btree_set_perm (s : gset K) : btree_set s ≡ₚ elements s.
Proof. apply sort_by_key_perm. Qed.
Lemma elem_of_btree_set (s : gset K) x : x ∈ btree_set s <-> x ∈ s.
Proof. by rewrite btree_set_perm, elem_of_elements. Qed.
Lemma NoDup_btree_set (s : gset K) : NoDup (btree_set s).
Proof. rewrite btree_set_perm. apply NoDup_elements. Qed.
Lemma length_btree_set (s : gset K) : length (btree_set s) = size s.
Proof. by rewrite btree_set_perm. Qed.

Lemma btree_map_perm {V} (m : gmap K V) : btree_map m ≡ₚ map_to_list m.
Proof. apply sort_by_key_perm. Qed.
Lemma elem_of_btree_map {V} (m : gmap K V) k v : (k, v) ∈ btree_map m <-> m !! k = Some v.
Proof. by rewrite btree_map_perm, elem_of_map_to_list. Qed.
Lemma btree_keys_perm {V} (m : gmap K V) : btree_keys m ≡ₚ elements (dom m).
Proof.
    unfold btree_keys. rewrite btree_map_perm.
    apply NoDup_Permutation; [apply NoDup_fst_map_to_list|apply NoDup_elements|].
    intros k. rewrite elem_of_elements, elem_of_dom, list_elem_of_fmap. split.
    - intros ([k' v] & -> & Hv%elem_of_map_to_list). by exists v.
    - intros [v Hv]. exists (k, v). by rewrite elem_of_map_to_list.
Qed.
Lemma NoDup_btree_keys {V} (m : gmap K V) : NoDup (btree_keys m).
Proof. rewrite btree_keys_perm. apply NoDup_elements. Qed.
Lemma elem_of_btree_keys {V} (m : gmap K V) k : k ∈ btree_keys m <-> is_Some (m !! k).
Proof. by rewrite btree_keys_perm, elem_of_elements, elem_of_dom. Qed.

Lemma btree_set_sorted (s : gset K) : StronglySorted ord_le (btree_set s).
Proof. apply (sort_by_key_sorted id). Qed.

Lemma pop_first_Some (s s' : gset K) x :
    pop_first s = Some (x, s') -> x ∈ s /\ s' = s ∖ {[x]}.
Proof.
    unfold pop_first. destruct (btree_set s) as [|y l] eqn:E; [done|].
    intros [= <- <-]. split; [|done].
    apply elem_of_btree_set. rewrite E. set_solver.
Qed.
Lemma pop_first_None (s : gset K) : pop_first s = None -> s = ∅.
Proof.
    unfold pop_first. destruct (btree_set s) as [|y l] eqn:E; [|done].
    intros _. apply set_eq. intros z. rewrite <- elem_of_btree_set, E. set_solver.
Qed.
End btree.

(** * Counting and lists *)

(** Number of elements of a list that satisfy a boolean test. *)
Definition countb {A} (f : A -> bool) (l : list A) : nat := length (List.filter f l).
Arguments countb : simpl never.

Lemma countb_nil {A} (f : A -> bool) : countb f [] = 0.
Proof. done. Qed.
Lemma countb_cons {A} (f : A -> bool) x l :
  countb f (x :: l) = (if f x then 1 else 0) + countb f l.
Proof. unfold countb; cbn. by destruct (f x). Qed.
Lemma countb_app {A} (f : A -> bool) l1 l2 : countb f (l1 ++ l2) = countb f l1 + countb f l2.
Proof. unfold countb. by rewrite List.filter_app, length_app. Qed.
Lemma countb_le {A} (f : A -> bool) l : countb f l <= length l.
Proof. apply List.filter_length_le. Qed.
Lemma countb_mono {A} (f g : A -> bool) l :
  (forall x, x ∈ l -> f x = true -> g x = true) -> countb f l <= countb g l.
Proof.
  induction l as [|x l IH]; intros Hfg; [done|]. rewrite !countb_cons.
  specialize (IH (fun y Hy => Hfg y (list_elem_of_further _ _ _ Hy))).
  specialize (Hfg x (list_elem_of_here _ _)). destruct (f x), (g x); try lia.
Qed.
Lemma countb_perm {A} (f : A -> bool) l1 l2 : l1 ≡ₚ l2 -> countb f l1 = countb f l2.
Proof. induction 1; rewrite ?countb_cons; lia. Qed.
Lemma countb_ext {A} (f g : A -> bool) l :
  (forall x, x ∈ l -> f x = g x) -> countb f l = countb g l.
Proof.
  induction l as [|x l IH]; intros Hfg; [done|].
  rewrite !countb_cons, Hfg, IH; [done| |]; set_solver.
Qed.
Lemma countb_pos {A} (f : A -> bool) l x : x ∈ l -> f x = true -> 0 < countb f l.
Proof.
  induction l as [|y l IH]; [set_solver|].
  intros [->|Hx]%elem_of_cons Hf; rewrite countb_cons; [rewrite Hf; lia|].
  specialize (IH Hx Hf). lia.
Qed.
Lemma countb_zero {A} (f : A -> bool) l x : countb f l = 0 -> x ∈ l -> f x = false.
Proof.
  intros Hz Hx. destruct (f x) eqn:Hf; [|done].
  pose proof (countb_pos f l x Hx Hf). lia.
Qed.

Lemma countb_pos_inv {A} (f : A -> bool) l : 0 < countb f l -> exists x, x ∈ l /\ f x = true.
Proof.
  induction l as [|x l IH]; [rewrite countb_nil; lia|]. rewrite countb_cons. destruct (f x) eqn:Hf.
  - intros _. exists x. set_solver.
  - intros (y & Hy & Hfy)%IH. exists y. set_solver.
Qed.
Lemma countb_filter {A} (f g : A -> bool) l :
  countb f (List.filter g l) = countb (fun x => g x && f x) l.
Proof.
  induction l as [|x l IH]; [done|]. rewrite countb_cons; cbn [List.filter].
  destruct (g x); cbn [andb]; [by rewrite countb_cons, IH|done].
Qed.
(** Two disjoint tests count like their disjunction. *)
Lemma countb_plus {A} (f g : A -> bool) l :
  (forall x, x ∈ l -> f x && g x = false) ->
  countb f l + countb g l = countb (fun x => f x || g x) l.
Proof.
  induction l as [|x l IH]; intros Hd; [done|]. rewrite !countb_cons.
  specialize (Hd x) as Hx. rewrite <- IH by set_solver.
  destruct (f x), (g x); cbn in *; try lia. set_solver.
Qed.

Lemma elem_of_list_filter_bool {A} (f : A -> bool) (l : list A) x :
  x ∈ List.filter f l <-> f x = true /\ x ∈ l.
Proof. rewrite !list_elem_of_In, List.filter_In. tauto. Qed.

(** Nothing in [l] maps into [{[x]} ∪ s]. *)
Lemma Forall_fresh {A K} `{Countable K} (f : A -> K) (x : K) (s : gset K) (l : list A) :
  Forall (fun a => f a ∉ {[x]} ∪ s) l <-> Forall (fun a => f a ∉ s) l /\ (x ∉ f <$> l).
Proof. rewrite !Forall_forall, list_elem_of_fmap. set_solver. Qed.

(** A set emptied of one member. *)
Lemma elements_remove {K} `{Countable K} (s : gset K) x :
  x ∈ s -> elements s ≡ₚ x :: elements (s ∖ {[x]}).
Proof.
  intros Hx. rewrite (union_difference_L {[x]} s) at 1 by set_solver.
  by rewrite elements_union_singleton by set_solver.
Qed.

(** * Automation shared by the components *)

(** Discharge the match or conditional in the goal. *)
Ltac case_match_eq :=
  match goal with
  | |- context [match ?x with _ => _ end] => destruct x eqn:?
  end.

(** Reduce a hypothesis about a monadic computation that returned. *)
Ltac run_inv H :=
  repeat match type of H with
  | mbind _ ?m = _ => destruct m eqn:?; cbn in H; try discriminate H
  | (match ?m with _ => _ end) = _ => destruct m eqn:?; cbn in H; try discriminate H
  end.
