(* ===== verification/Worklist.v ===== *)
(** The loops over a dependency graph that several parts of the program write out:
    repeatedly choosing the first item whose dependencies are done, and collecting
    what can be reached from an item. Both are shown to end, with an order of the
    items exactly when the dependencies have no cycle, and with the reachable
    items. *)
From S2P Require Import Prelude.

(** * Orders *)

(** [x] comes before [y]. *)
Definition earlier (order : list string) (x y : string) : Prop :=
  exists i j, order !! i = Some x /\ order !! j = Some y /\ i < j.

Lemma earlier_app order order' x y : earlier order x y -> earlier (order ++ order') x y.
Proof. intros (i & j & Hi & Hj & Hij). exists i, j. split_and!; [by apply lookup_app_l_Some..|done]. Qed.
Lemma earlier_snoc order x y : x ∈ order -> earlier (order ++ [y]) x y.
Proof.
  intros [i Hi]%list_elem_of_lookup. exists i, (length order). split_and!.
  - by apply lookup_app_l_Some.
  - by rewrite lookup_app_r, Nat.sub_diag by lia.
  - by eapply lookup_lt_Some.
Qed.
Lemma earlier_trans order x y z : NoDup order -> earlier order x y -> earlier order y z -> earlier order x z.
Proof.
  intros Hn (i & j & Hi & Hj & Hij) (j' & k & Hj' & Hk & Hjk).
  rewrite (NoDup_lookup _ _ _ _ Hn Hj Hj') in Hij. exists i, k. split_and!; [done..|lia].
Qed.
Lemma earlier_irreflexive order x : NoDup order -> ~ earlier order x x.
Proof. intros Hn (i & j & Hi & Hj & Hij). rewrite (NoDup_lookup _ _ _ _ Hn Hi Hj) in Hij. lia. Qed.

(** A nonempty finite set in which everything has a predecessor has a cycle. *)
Lemma blocked_set_cycle (Q : string -> string -> Prop) `{!Transitive Q} (s : gset string) :
  s <> ∅ -> (forall y, y ∈ s -> exists x, x ∈ s /\ Q x y) -> exists x, Q x x.
Proof.
  induction (set_wf s) as [s _ IH]. intros Hs Hb. destruct (set_choose_L s Hs) as [x Hx].
  destruct (Hb x Hx) as (u & Hu & Hux). destruct (decide (u = x)) as [->|Hne]; [eauto|].
  apply (IH (s ∖ {[x]})).
  - by apply subset_difference_elem_of.
  - intros He. assert (Hd : u ∈ s ∖ {[x]}) by (clear -Hu Hne; set_solver). rewrite He in Hd.
    by apply not_elem_of_empty in Hd.
  - intros y Hy. destruct (Hb y) as (z & Hz & Hzy); [set_solver|].
    destruct (decide (z = x)) as [->|Hzx]; [|exists z; set_solver].
    exists u. split; [set_solver|]. by transitivity x.
Qed.

(** * Ordering items by their dependencies *)

Section ordering.
Context {A : Type} (key : A -> string) (deps : A -> list string).

(** Not done, and all its dependencies are. *)
Definition item_ready (done : gset string) (a : A) : bool :=
  negb (bool_decide (key a ∈ done)) && forallb (fun d => bool_decide (d ∈ done)) (deps a).

(** [while done.len() < total { done.insert(items.find(ready)?) }], with the order in
    which items are done; a turn per item suffices. *)
Fixpoint order_items (fuel total : nat) (items : list A) (done : gset string) (order : list string) :
    option (list string) :=
  if decide (size done < total) then
    match fuel with
    | O => None
    | S fuel' =>
        a ← List.find (item_ready done) items;
        order_items fuel' total items ({[key a]} ∪ done) (order ++ [key a])
    end
  else Some order.

Context (items : list A).
Definition before (d x : string) : Prop := exists a, a ∈ items /\ key a = x /\ d ∈ deps a.
Definition items_acyclic : Prop := forall x, ~ tc before x x.

(** Every key once, after everything it depends on. *)
Definition items_order (order : list string) : Prop :=
  NoDup order /\ (forall x, x ∈ order <-> x ∈ key <$> items) /\ (forall d x, before d x -> earlier order d x).

Lemma items_order_acyclic order : items_order order -> items_acyclic.
Proof.
  intros (Hn & _ & He) x Hx.
  assert (forall y z, tc before y z -> earlier order y z) as Htc.
  { induction 1 as [y z Hyz|y z u Hyz _ IH]; [by apply He|]. eapply earlier_trans; [done|by apply He|done]. }
  by eapply earlier_irreflexive, Htc.
Qed.

Lemma item_ready_spec done a : item_ready done a = true <-> key a ∉ done /\ forall d, d ∈ deps a -> d ∈ done.
Proof.
  unfold item_ready. rewrite andb_true_iff, negb_true_iff, bool_decide_eq_false, forallb_forall.
  setoid_rewrite bool_decide_eq_true. by setoid_rewrite <- list_elem_of_In.
Qed.

Context (Hkeys : NoDup (key <$> items)) (Hdeps : forall a d, a ∈ items -> d ∈ deps a -> d ∈ key <$> items).

Lemma key_inj a b : a ∈ items -> b ∈ items -> key a = key b -> a = b.
Proof.
  intros [i Hi]%list_elem_of_lookup [j Hj]%list_elem_of_lookup Hk.
  assert (i = j) as ->; [|congruence].
  apply (NoDup_lookup _ _ _ (key a) Hkeys); rewrite list_lookup_fmap; [by rewrite Hi|by rewrite Hj; cbn; rewrite Hk].
Qed.

Record ordering_inv (done : gset string) (order : list string) : Prop := {
  oi_nodup : NoDup order;
  oi_done : forall x, x ∈ done <-> x ∈ order;
  oi_keys : forall x, x ∈ order -> x ∈ key <$> items;
  oi_earlier : forall d x, before d x -> x ∈ order -> earlier order d x;
}.

Lemma ordering_inv_step done order a : ordering_inv done order -> a ∈ items -> item_ready done a = true ->
  ordering_inv ({[key a]} ∪ done) (order ++ [key a]).
Proof.
  intros [Hn Hd Hk He] Ha [Hnew Hready]%item_ready_spec. split.
  - apply NoDup_app. split_and!; [done| |apply NoDup_singleton].
    intros x Hx ->%list_elem_of_singleton. by apply Hnew, Hd.
  - set_solver.
  - intros x. rewrite elem_of_app, list_elem_of_singleton. intros [?| ->]; [by apply Hk|].
    by apply list_elem_of_fmap_2.
  - intros d x Hb. rewrite elem_of_app, list_elem_of_singleton. intros [Hx| ->]; [by apply earlier_app, He|].
    destruct Hb as (b & Hb & Hkb & Hin). rewrite (key_inj b a Hb Ha Hkb) in Hin.
    apply earlier_snoc, Hd. by apply Hready.
Qed.

Lemma ordering_stuck done order : ordering_inv done order -> size done < length items ->
  List.find (item_ready done) items = None -> ~ items_acyclic.
Proof.
  intros [Hn Hd Hk He] Hlt Hnone Hac.
  set (s := (list_to_set (key <$> items) : gset string) ∖ done).
  destruct (blocked_set_cycle (tc before) s) as [x Hx]; [| |by apply (Hac x)].
  - intros Hs. assert (Hsub : (list_to_set (key <$> items) : gset string) ⊆ done) by (unfold s in Hs; set_solver).
    apply subseteq_size in Hsub. rewrite size_list_to_set in Hsub by done. rewrite length_fmap in Hsub. lia.
  - intros y Hy. assert (y ∈ key <$> items /\ y ∉ done) as [(a & -> & Ha)%list_elem_of_fmap Hnd]
      by (unfold s in Hy; set_solver).
    pose proof (List.find_none _ _ Hnone a (proj1 (list_elem_of_In _ _) Ha)) as Hr.
    unfold item_ready in Hr. rewrite bool_decide_eq_false_2 in Hr by done. cbn in Hr.
    assert (exists d, d ∈ deps a /\ d ∉ done) as (d & Hin & Hnot).
    { apply not_true_iff_false in Hr. rewrite forallb_forall in Hr.
      destruct (decide (Exists (fun d => d ∉ done) (deps a))) as [(d & ? & ?)%Exists_exists|Hex]; [eauto|].
      destruct Hr. intros d Hin%list_elem_of_In. apply bool_decide_eq_true.
      destruct (decide (d ∈ done)) as [|Hnot]; [done|]. destruct Hex. apply Exists_exists. eauto. }
    exists d. split.
    + unfold s. apply elem_of_difference. split; [|done]. apply elem_of_list_to_set. by eapply Hdeps.
    + apply tc_once. by exists a.
Qed.

Lemma order_items_inv fuel : forall done order, ordering_inv done order -> length items - size done <= fuel ->
  match order_items fuel (length items) items done order with
  | Some order' => items_order order'
  | None => ~ items_acyclic
  end.
Proof.
  induction fuel as [|fuel IH]; intros done order Hi Hf; cbn [order_items]; case_decide as Hlt.
  1: lia.
  2: destruct (List.find _ _) as [a|] eqn:Hx; cbn; [|by eapply ordering_stuck].
  2: { apply List.find_some in Hx as [Ha%list_elem_of_In Hr]. apply IH; [by apply ordering_inv_step|].
    apply item_ready_spec in Hr as [Hnew _]. rewrite size_union by set_solver. rewrite size_singleton. lia. }
  all: destruct Hi as [Hn Hd Hk He].
  all: assert (Hperm : forall x, x ∈ order <-> x ∈ key <$> items).
  1, 3: intros x; split; [by apply Hk|]; intros Hx; apply Hd;
    assert (Hsub : done ⊆ (list_to_set (key <$> items) : gset string)) by set_solver;
    assert (Heq : done ≡ list_to_set (key <$> items))
      by (apply set_subseteq_size_equiv; [done|]; rewrite size_list_to_set by done; rewrite length_fmap; lia);
    apply Heq; by apply elem_of_list_to_set.
  all: split_and!; [done|done|]; intros d x Hb; apply He; [done|]; apply Hperm;
    destruct Hb as (a & Ha & <- & _); by apply list_elem_of_fmap_2.
Qed.

(** The loop orders the items exactly when their dependencies have no cycle. *)
Lemma order_items_spec :
  match order_items (length items) (length items) items ∅ [] with
  | Some order => items_order order /\ items_acyclic
  | None => ~ items_acyclic
  end.
Proof.
  pose proof (order_items_inv (length items) ∅ []) as H.
  destruct (order_items _ _ _ _ _) as [order|].
  - assert (items_order order) as Ho; [|split; [done|by eapply items_order_acyclic]].
    apply H; [|lia]. split; [apply NoDup_nil_2|set_solver..].
  - apply H; [|lia]. split; [apply NoDup_nil_2|set_solver..].
Qed.
End ordering.

(** * What can be reached *)

Section reach.
Context (succ : string -> list string).
Definition edge (x y : string) : Prop := y ∈ succ x.

(** [while let Some(id) = pending.pop() { if visited.insert(id) { pending.extend(succ(id)) } }];
    the top of the stack is the head of [pending]. *)
Fixpoint reach_loop (fuel : nat) (pending : list string) (visited : gset string) : run (gset string) :=
  match pending with
  | [] => Ret visited
  | x :: rest =>
      match fuel with
      | O => OutOfFuel
      | S fuel' =>
          if decide (x ∈ visited) then reach_loop fuel' rest visited
          else reach_loop fuel' (reverse (succ x) ++ rest) ({[x]} ∪ visited)
      end
  end.

(** What the nodes not yet visited can still push. *)
Definition unvisited_edges (nodes : list string) (visited : gset string) : nat :=
  sum_list (length ∘ succ <$> List.filter (fun x => negb (bool_decide (x ∈ visited))) nodes).

Lemma unvisited_edges_visit nodes visited x : NoDup nodes -> x ∉ visited -> (x ∉ nodes -> succ x = []) ->
  unvisited_edges nodes ({[x]} ∪ visited) + length (succ x) <= unvisited_edges nodes visited.
Proof.
  intros Hn Hx Hout. destruct (decide (x ∈ nodes)) as [Hin|Hin].
  - clear Hout. induction Hn as [|y nodes Hy Hn IH]; [by apply not_elem_of_nil in Hin|].
    unfold unvisited_edges in *. cbn [List.filter]. destruct (decide (y = x)) as [->|Hyx].
    + rewrite (bool_decide_eq_true_2 (x ∈ {[x]} ∪ visited)), (bool_decide_eq_false_2 (x ∈ visited)) by set_solver.
      cbn. rewrite (Nat.add_comm (length (succ x))). apply Nat.add_le_mono_r.
      rewrite (filter_ext_in _ (fun z => negb (bool_decide (z ∈ visited)))); [done|].
      intros z Hz%list_elem_of_In. f_equal. apply bool_decide_ext. set_solver.
    + assert (x ∈ nodes) as Hin' by set_solver. specialize (IH Hin').
      rewrite (bool_decide_ext (y ∈ {[x]} ∪ visited) (y ∈ visited)) by set_solver.
      destruct (bool_decide _); cbn; lia.
  - rewrite (Hout Hin). cbn. rewrite Nat.add_0_r. unfold unvisited_edges.
    rewrite (filter_ext_in _ (fun z => negb (bool_decide (z ∈ visited)))); [done|].
    intros z Hz%list_elem_of_In. f_equal. apply bool_decide_ext. set_solver.
Qed.

Context (nodes : list string) (Hnodes : NoDup nodes) (Hout : forall x, x ∉ nodes -> succ x = []).

(** The loop ends, with what is reachable from the stack and from what was visited. *)
Lemma reach_loop_spec fuel : forall pending visited,
  length pending + unvisited_edges nodes visited <= fuel ->
  (forall x y, x ∈ visited -> edge x y -> y ∈ visited \/ y ∈ pending) ->
  exists s, reach_loop fuel pending visited = Ret s /\ visited ⊆ s /\ (forall x, x ∈ pending -> x ∈ s) /\
    (forall x y, x ∈ s -> edge x y -> y ∈ s) /\
    (forall x, x ∈ s -> x ∈ visited \/ exists y, y ∈ pending /\ rtc edge y x).
Proof.
  induction fuel as [|fuel IH]; intros [|x rest] visited Hf Hc; cbn [reach_loop length] in *;
    try (exists visited; set_solver); [lia|].
  case_decide as Hx.
  - destruct (IH rest visited) as (s & -> & Hs & Hp & Hcl & Hr); [lia|set_solver|].
    exists s. split_and!; [done|done|set_solver|done|]. intros y [?|(z & Hz & Hzy)]%Hr; [by left|]. right. set_solver.
  - destruct (IH (reverse (succ x) ++ rest) ({[x]} ∪ visited)) as (s & -> & Hs & Hp & Hcl & Hr).
    + pose proof (unvisited_edges_visit nodes visited x Hnodes Hx (Hout x)).
      rewrite length_app, length_reverse. lia.
    + intros y z. rewrite elem_of_union, elem_of_singleton. rewrite elem_of_app, elem_of_reverse.
      intros [->|Hy] Hyz; [by right; left|]. destruct (Hc y z Hy Hyz); set_solver.
    + exists s. split_and!; [done|set_solver| |done|].
      * intros y [->|Hy]%elem_of_cons; [set_solver|]. apply Hp. set_solver.
      * intros y [Hy|(z & [Hz|Hz]%elem_of_app & Hzy)]%Hr.
        -- apply elem_of_union in Hy as [->%elem_of_singleton|Hy]; [|by left]. right. exists x. split; [by left|apply rtc_refl].
        -- right. exists x. split; [by left|]. rewrite elem_of_reverse in Hz. exact (rtc_l _ x z y Hz Hzy).
        -- right. exists z. split; [by right|done].
Qed.

(** From one node: exactly what is reachable from it. *)
Lemma reach_from fuel x : S (sum_list (length ∘ succ <$> nodes)) <= fuel ->
  exists s, reach_loop fuel [x] ∅ = Ret s /\ forall y, y ∈ s <-> rtc edge x y.
Proof.
  intros Hf. destruct (reach_loop_spec fuel [x] ∅) as (s & -> & _ & Hp & Hcl & Hr); [|set_solver|].
  { unfold unvisited_edges. rewrite (filter_ext_in _ (fun _ => true)), List.filter_true; [done|].
    intros y _. by rewrite bool_decide_eq_false_2 by set_solver. }
  exists s. split; [done|]. intros y. split.
  - intros [Hy|(z & ->%list_elem_of_singleton & Hz)]%Hr; [set_solver|done].
  - intros Hxy. assert (x ∈ s) as Hx by (apply Hp; set_solver). clear Hf Hr Hp.
    induction Hxy as [|x z y Hxz _ IH]; [done|]. by apply IH, (Hcl x).
Qed.
End reach.

(** * Growing a set until nothing more enters *)

Section growing.
Context {A : Type} (key : A -> string) (enters : gset string -> A -> bool) (items : list A).

Definition grow_pass (s : gset string) : gset string :=
  foldl (fun s a => if enters s a then {[key a]} ∪ s else s) s items.

(** [loop { let old = s.len(); for a in items {..}; if old == s.len() { break } }]. *)
Fixpoint grow_loop (fuel : nat) (s : gset string) : run (gset string) :=
  match fuel with
  | O => OutOfFuel
  | S fuel' => let s' := grow_pass s in if decide (size s = size s') then Ret s' else grow_loop fuel' s'
  end.

Definition grown (s : gset string) : Prop := forall a, a ∈ items -> enters s a = true -> key a ∈ s.

(** What holds of the first set and of everything that enters holds of the result. *)
Lemma grow_loop_ind (P : string -> Prop) fuel s s' :
  (forall s a, (forall x, x ∈ s -> P x) -> a ∈ items -> enters s a = true -> P (key a)) ->
  (forall x, x ∈ s -> P x) -> grow_loop fuel s = Ret s' -> forall x, x ∈ s' -> P x.
Proof.
  intros Hstep. assert (forall s, (forall x, x ∈ s -> P x) -> forall x, x ∈ grow_pass s -> P x) as Hpass.
  { intros t Ht. unfold grow_pass. clear s s'. assert (items ⊆ items) as Hsub by done. revert t Ht Hsub.
    generalize items at 1 3. intros l. induction l as [|a l IH]; intros t Ht Hsub; cbn [foldl]; [done|].
    apply IH; [|set_solver]. destruct (enters t a) eqn:He; [|done].
    intros x [->%elem_of_singleton|Hx]%elem_of_union; [|by apply Ht]. apply (Hstep t); [done|set_solver|done]. }
  revert s. induction fuel as [|fuel IH]; intros s Hs; cbn [grow_loop]; [done|].
  case_decide; [intros [= <-]; by apply Hpass|]. by apply IH, Hpass.
Qed.

Context (Hmono : forall s s' a, s ⊆ s' -> enters s a = true -> enters s' a = true).

Lemma foldl_grow l s : s ⊆ foldl (fun s a => if enters s a then {[key a]} ∪ s else s) s l.
Proof.
  revert s. induction l as [|a l IH]; intros s; cbn; [done|]. etrans; [|apply IH]. destruct (enters s a); set_solver.
Qed.
Lemma grow_pass_subseteq s : s ⊆ grow_pass s.
Proof. apply foldl_grow. Qed.
Lemma grow_pass_least s t : s ⊆ t -> grown t -> grow_pass s ⊆ t.
Proof.
  intros Hs Ht. unfold grow_pass. unfold grown in Ht. revert s Hs. generalize (fun a => proj2 (iff_refl (a ∈ items))).
  induction items as [|a l IH]; intros _ s Hs; cbn; [done|]. apply IH; [set_solver|done|].
  destruct (enters s a) eqn:He; [|done]. apply (Hmono s t a Hs) in He. apply Ht in He; set_solver.
Qed.
Lemma foldl_enters l s s' a : s ⊆ s' -> a ∈ l -> enters s a = true ->
  key a ∈ foldl (fun s a => if enters s a then {[key a]} ∪ s else s) s' l.
Proof.
  revert s'. induction l as [|b l IH]; intros s' Hs; [by intros ?%not_elem_of_nil|]. cbn.
  intros [<-|Ha]%elem_of_cons He; [|apply IH; [destruct (enters s' b); set_solver|done..]].
  rewrite (Hmono s s' a Hs He). apply foldl_grow. set_solver.
Qed.
Lemma grow_pass_stable s : grow_pass s ⊆ s -> grown s.
Proof. intros Hs a Ha He. by apply Hs, (foldl_enters items s s a). Qed.
Lemma grow_pass_bound s (t : gset string) : s ⊆ t -> (forall a, a ∈ items -> key a ∈ t) -> grow_pass s ⊆ t.
Proof. intros Hs Ht. apply grow_pass_least; [done|]. intros a Ha _. by apply Ht. Qed.

(** The loop ends with the least grown set that contains the first one. *)
Lemma grow_loop_spec fuel : forall s t, s ⊆ t -> (forall a, a ∈ items -> key a ∈ t) -> size t - size s < fuel ->
  exists s', grow_loop fuel s = Ret s' /\ s ⊆ s' /\ grown s' /\ (forall u, s ⊆ u -> grown u -> s' ⊆ u).
Proof.
  induction fuel as [|fuel IH]; intros s t Hst Ht Hf; [lia|]. cbn [grow_loop].
  pose proof (grow_pass_subseteq s) as Hp. pose proof (subseteq_size _ _ Hp) as Hsz.
  case_decide as Hd.
  - assert (grow_pass s = s) as ->.
    { symmetry. apply leibniz_equiv, set_subseteq_size_equiv; [done|lia]. }
    exists s. split_and!; [done|done| |done]. apply grow_pass_stable.
    apply set_subseteq_size_equiv in Hp; [|lia]. by rewrite <- Hp.
  - pose proof (grow_pass_bound s t Hst Ht) as Hb. pose proof (subseteq_size _ _ Hb).
    destruct (IH (grow_pass s) t) as (s' & -> & Hs' & Hg & Hl); [done|done|lia|].
    exists s'. split_and!; [done|set_solver|done|]. intros u Hu Hgu. apply Hl; [by apply grow_pass_least|done].
Qed.
End growing.
