(* ===== verification/Semver.v ===== *)
(** The interface of the third-party crates the knowledge hierarchy calls:
    [semver] (version requirements) and [serde_json] (the [Value] type and the
    serializer). Neither is source of this repository, so each is a class of
    operations; the [..Laws] classes state the documented behaviour the
    hierarchy relies on. A small executable instance at the end shows that the
    laws can hold; witnesses run on it. *)
From Stdlib Require Import Ascii.
From S2P Require Import Prelude.

(** * Releases *)

(** [semver::Version::new(major, minor, patch)]: a version without
    pre-release and build metadata. Components are [u64]. *)
Record Release := mkRelease { major : Z; minor : Z; patch : Z }.

#[export] Instance release_eq_dec : EqDecision Release.
Proof. solve_decision. Defined.

(** The derived order of [Version], on releases: by major, minor, patch. *)
Definition release_key (r : Release) : Z * (Z * Z) := (major r, (minor r, patch r)).
#[export] Instance release_ord : Ord Release := key_ord release_key.
#[export] Instance release_ord_laws : OrdLaws Release.
Proof.
  apply key_ord_laws. intros [a b c] [a' b' c']. unfold release_key; cbn. congruence.
Qed.

Definition release_le (a b : Release) : bool := bool_decide (ord_le a b).

(** * Requirements *)

(** [semver::Op]; the enum is [#[non_exhaustive]], [OpOther] stands for an
    operator this version of the crate does not name. *)
Inductive Op := OpExact | OpGreater | OpGreaterEq | OpLess | OpLessEq
  | OpTilde | OpCaret | OpWildcard | OpOther.

(** [semver::Comparator]; of the pre-release field the code only asks
    whether it is empty. *)
Record Comparator := mkComparator {
  c_op : Op;
  c_major : Z;
  c_minor : option Z;
  c_patch : option Z;
  c_pre_is_empty : bool;
}.

(** What the crate documents for a comparator without pre-release, on the
    release part of a version: comparison on the components that are given. *)
Definition exact_admits (c : Comparator) (v : Release) : Prop :=
  major v = c_major c /\ (forall m, c_minor c = Some m -> minor v = m) /\
  (forall p, c_patch c = Some p -> patch v = p).

Definition greater_admits (c : Comparator) (v : Release) : Prop :=
  (major v > c_major c)%Z \/
  major v = c_major c /\ exists m, c_minor c = Some m /\
    ((minor v > m)%Z \/
     minor v = m /\ exists p, c_patch c = Some p /\ (patch v > p)%Z).

Definition less_admits (c : Comparator) (v : Release) : Prop :=
  (major v < c_major c)%Z \/
  major v = c_major c /\ exists m, c_minor c = Some m /\
    ((minor v < m)%Z \/
     minor v = m /\ exists p, c_patch c = Some p /\ (patch v < p)%Z).

Definition tilde_admits (c : Comparator) (v : Release) : Prop :=
  major v = c_major c /\ (forall m, c_minor c = Some m -> minor v = m) /\
  (forall p, c_patch c = Some p -> (patch v >= p)%Z).

Definition caret_admits (c : Comparator) (v : Release) : Prop :=
  major v = c_major c /\
  match c_minor c with
  | None => True
  | Some m =>
      match c_patch c with
      | None => if decide (0 < c_major c)%Z then (minor v >= m)%Z else minor v = m
      | Some p =>
          if decide (0 < c_major c)%Z then
            (minor v > m)%Z \/ minor v = m /\ (patch v >= p)%Z
          else if decide (0 < m)%Z then minor v = m /\ (patch v >= p)%Z
          else minor v = m /\ patch v = p
      end
  end.

Definition comparator_admits (c : Comparator) (v : Release) : Prop :=
  match c_op c with
  | OpExact | OpWildcard => exact_admits c v
  | OpGreater => greater_admits c v
  | OpGreaterEq => exact_admits c v \/ greater_admits c v
  | OpLess => less_admits c v
  | OpLessEq => exact_admits c v \/ less_admits c v
  | OpTilde => tilde_admits c v
  | OpCaret => caret_admits c v
  | OpOther => False
  end.

(** Well-formedness the parser guarantees: [u64] components, and no patch
    without a minor. *)
Definition comparator_wf (c : Comparator) : Prop :=
  is_u64 (c_major c) /\
  (forall m, c_minor c = Some m -> is_u64 m) /\
  (forall p, c_patch c = Some p -> is_u64 p /\ is_Some (c_minor c)).

Definition release_wf (v : Release) : Prop :=
  is_u64 (major v) /\ is_u64 (minor v) /\ is_u64 (patch v).

(** * The crates *)

Class SemverCrate := {
  Version : Type;
  VersionReq : Type;
  version_parse : string -> option Version;
  req_parse : string -> option VersionReq;
  req_matches : VersionReq -> Version -> bool;
  req_comparators : VersionReq -> list Comparator;
  version_release : Version -> Release;
  version_pre_is_empty : Version -> bool;
}.

Class SemverLaws `{SemverCrate} := {
  (** A requirement whose comparators carry no pre-release matches exactly the
      versions without pre-release that every comparator admits. *)
  req_matches_stable : forall r v,
    Forall (fun c => c_pre_is_empty c = true /\ c_op c <> OpOther) (req_comparators r) ->
    req_matches r v = true <->
    version_pre_is_empty v = true /\
    Forall (fun c => comparator_admits c (version_release v)) (req_comparators r);
  req_comparators_wf : forall s r,
    req_parse s = Some r -> Forall comparator_wf (req_comparators r);
  version_parse_wf : forall s v,
    version_parse s = Some v -> release_wf (version_release v);
}.

(** [serde_json::Value], seen through the enum's public constructors: numbers
    by their [as_i64], objects as their entries in iteration order. *)
Inductive ValueView (V : Type) :=
  | VNull
  | VBool (b : bool)
  | VNumber (as_i64 : option Z)
  | VString (s : string)
  | VArray (items : list V)
  | VObject (entries : list (string * V)).
Arguments VNull {V}.
Arguments VBool {V} b.
Arguments VNumber {V} as_i64.
Arguments VString {V} s.
Arguments VArray {V} items.
Arguments VObject {V} entries.

Class SerdeJson := {
  Value : Type;
  value_eq_dec :: EqDecision Value;
  value_view : Value -> ValueView Value;
}.

(** * A sample instance *)

(** Single-digit releases ["a.b.c"] and the requirements ["*"], ["=a.b.c"],
    [">=a.b.c"], ["<a.b.c"] and ["^a.b.c"]: enough to run the hierarchy on and
    to show that [SemverLaws] is satisfiable. *)
Module Sample.

Definition digit (a : Ascii.ascii) : option Z :=
  let n := Z.of_nat (Ascii.nat_of_ascii a) in
  if decide (48 <= n <= 57)%Z then Some (n - 48)%Z else None.

Definition parse_release (s : string) : option Release :=
  match s with
  | String a (String d1 (String b (String d2 (String c EmptyString)))) =>
      if decide (d1 = "."%char /\ d2 = "."%char) then
        x ← digit a; y ← digit b; z ← digit c; Some (mkRelease x y z)
      else None
  | _ => None
  end.

Definition full (o : Op) (r : Release) : Comparator :=
  mkComparator o (major r) (Some (minor r)) (Some (patch r)) true.

Definition parse_req (s : string) : option (list Comparator) :=
  match s with
  | String "*" EmptyString => Some []
  | String "=" t => r ← parse_release t; Some [full OpExact r]
  | String ">" (String "=" t) => r ← parse_release t; Some [full OpGreaterEq r]
  | String "<" t => r ← parse_release t; Some [full OpLess r]
  | String "^" t => r ← parse_release t; Some [full OpCaret r]
  | _ => None
  end.

Lemma option_forall_dec {A} (P : A -> Prop) (o : option A) :
  (forall a, Decision (P a)) -> Decision (forall a, o = Some a -> P a).
Proof.
  intros HP. destruct o as [a|]; [|by left].
  destruct (HP a); [left; naive_solver|right; naive_solver].
Defined.
Lemma option_exists_dec {A} (P : A -> Prop) (o : option A) :
  (forall a, Decision (P a)) -> Decision (exists a, o = Some a /\ P a).
Proof.
  intros HP. destruct o as [a|]; [|right; naive_solver].
  destruct (HP a); [left; eauto|right; naive_solver].
Defined.
#[export] Instance Zgt_dec (a b : Z) : Decision (a > b)%Z.
Proof. destruct (decide (b < a)%Z); [left|right]; lia. Defined.
#[export] Instance Zge_dec (a b : Z) : Decision (a >= b)%Z.
Proof. destruct (decide (b <= a)%Z); [left|right]; lia. Defined.
#[export] Instance admits_dec c v : Decision (comparator_admits c v).
Proof.
  unfold comparator_admits, exact_admits, greater_admits, less_admits,
    tilde_admits, caret_admits.
  destruct (c_op c); repeat first
    [ apply or_dec | apply and_dec | apply option_forall_dec; intros
    | apply option_exists_dec; intros
    | match goal with |- Decision (match ?x with _ => _ end) => destruct x end
    | apply _ ].
Defined.

#[export] Instance crate : SemverCrate := {|
  Version := Release;
  VersionReq := list Comparator;
  version_parse := parse_release;
  req_parse := parse_req;
  req_matches := fun r v => bool_decide (Forall (fun c => comparator_admits c v) r);
  req_comparators := fun r => r;
  version_release := fun v => v;
  version_pre_is_empty := fun _ => true;
|}.

Lemma digit_u64 a z : digit a = Some z -> is_u64 z.
Proof.
  unfold digit. case_decide; [|done]. intros [= <-].
  unfold is_u64, U64_MAX. lia.
Qed.

Lemma parse_release_wf s v : parse_release s = Some v -> release_wf v.
Proof.
  unfold parse_release. intros H. repeat case_match; try done.
  apply bind_Some in H as (x & Hx & H). apply bind_Some in H as (y & Hy & H).
  apply bind_Some in H as (z & Hz & [= <-]).
  split_and!; cbn; eauto using digit_u64.
Qed.

Lemma full_wf o s r : parse_release s = Some r -> Forall comparator_wf [full o r].
Proof.
  intros (?&?&?)%parse_release_wf. constructor; [|constructor].
  split_and!; cbn; [done|naive_solver|].
  intros p [= <-]. split; [done|by eexists].
Qed.

#[export] Instance laws : SemverLaws.
Proof.
  split.
  - intros r v _. cbn. rewrite bool_decide_eq_true. tauto.
  - cbn. unfold parse_req. intros s r H. repeat case_match; simplify_eq; try done;
      apply bind_Some in H as (x & Hx & [= <-]); by eapply full_wf.
  - cbn. apply parse_release_wf.
Qed.

#[export] Instance json : SerdeJson := {| Value := string; value_view := VString |}.

Example parse_caret : req_parse "^1.2.3" = Some [full OpCaret (mkRelease 1 2 3)].
Proof. reflexivity. Qed.
Example caret_matches :
  option_map (req_matches [full OpCaret (mkRelease 1 2 3)]) (version_parse "1.4.0") = Some true /\
  option_map (req_matches [full OpCaret (mkRelease 1 2 3)]) (version_parse "2.0.0") = Some false.
Proof. split; vm_compute; reflexivity. Qed.

End Sample.
