(* ===== verification/Scope.v ===== *)
(** Scopes, contexts and applicability (src/hierarchy/scope.rs, first half):
    the predicates of a knowledge scope, their three-valued evaluation in a
    context, and the specificity measure. *)
From S2P Require Import Prelude Semver.

(** * Data *)

Inductive ScopeValue :=
  | SString (s : string)
  | SInteger (n : Z)
  | SBoolean (b : bool)
  | SVersion (v : string).

#[export] Instance scope_value_eq_dec : EqDecision ScopeValue.
Proof. solve_decision. Defined.
#[export] Instance scope_value_countable : Countable ScopeValue.
Proof.
  refine (inj_countable'
    (fun v => match v with
      | SString s => inl (inl s) | SInteger n => inl (inr n)
      | SBoolean b => inr (inl b) | SVersion s => inr (inr s) end)
    (fun x => match x with
      | inl (inl s) => SString s | inl (inr n) => SInteger n
      | inr (inl b) => SBoolean b | inr (inr s) => SVersion s end) _).
  by intros [].
Defined.

Module ApplicabilityStatus.
Inductive t := Applicable | Inapplicable | PartiallyKnown | Unknown.
#[global] Instance eq_dec : EqDecision t.
Proof. solve_decision. Defined.
End ApplicabilityStatus.

Section data.
Context `{SerdeJson}.

Inductive ScopePredicate :=
  | Equals (key : string) (value : ScopeValue)
  | NotEquals (key : string) (value : ScopeValue)
  | In_ (key : string) (values : list ScopeValue)
  | Exists_ (key : string)
  | Bool_ (key : string) (expected : bool)
  | IntegerRange (key : string) (min max : option Z)
  | VersionRange (key : string) (requirement : string)
  | Custom (kind : string) (payload : Value).

#[export] Instance scope_predicate_eq_dec : EqDecision ScopePredicate.
Proof. solve_decision. Defined.

Record KnowledgeScope := mkScope { predicates : list ScopePredicate }.

#[export] Instance knowledge_scope_eq_dec : EqDecision KnowledgeScope.
Proof. solve_decision. Defined.

Record KnowledgeApplicability := mkApplicability {
  status : ApplicabilityStatus.t;
  matched : list ScopePredicate;
  failed : list ScopePredicate;
  unknown : list ScopePredicate;
}.

(** [ScopePredicate::key]. *)
Definition predicate_key (p : ScopePredicate) : option string :=
  match p with
  | Equals k _ | NotEquals k _ | In_ k _ | Exists_ k | Bool_ k _
  | IntegerRange k _ _ | VersionRange k _ => Some k
  | Custom _ _ => None
  end.
End data.

Record KnowledgeContext := mkContext { values : gmap string ScopeValue }.

(** * Contexts from JSON *)

(** The typed deserialization [serde_json::from_value::<KnowledgeContext>] is
    derived code; it is a parameter. *)
Section from_json.
Context `{SerdeJson}.
Context (typed_context : Value -> result KnowledgeContext).

Definition view_get (v : Value) (key : string) : option Value :=
  match value_view v with
  | VObject entries => snd <$> List.find (fun e => bool_decide (e.1 = key)) entries
  | _ => None
  end.
Definition view_is_object (v : Value) : bool :=
  match value_view v with VObject _ => true | _ => false end.

Definition value_from_json (key : string) (v : Value) : result ScopeValue :=
  match value_view v with
  | VString s => Ok (SString s)
  | VBool b => Ok (SBoolean b)
  | VNumber (Some n) => Ok (SInteger n)
  | _ => Err (InvalidInput ("Context " +:+ key +:+ " requires a string, integer, or boolean"))
  end.

(** [iter().map(..).collect::<Result<BTreeMap>>()]: stops at the first error;
    a later entry overwrites an earlier one of the same key. *)
Fixpoint collect_context (entries : list (string * Value))
    (acc : gmap string ScopeValue) : result (gmap string ScopeValue) :=
  match entries with
  | [] => Ok acc
  | (key, v) :: rest => s ← value_from_json key v; collect_context rest (<[key := s]> acc)
  end.

Definition context_from_json (v : Value) : result KnowledgeContext :=
  if bool_decide (option_map view_is_object (view_get v "values") = Some true)
  then typed_context v
  else match value_view v with
    | VObject entries => m ← collect_context entries ∅; Ok (mkContext m)
    | _ => Err (InvalidInput "Context must be an object")
    end.
End from_json.

(** * Evaluation *)

(** [serde_json::to_string] of a predicate orders the result lists. *)
Class PredicateJson `{SerdeJson} := predicate_to_string : ScopePredicate -> string.

Section evaluate.
Context `{SemverCrate} `{PredicateJson}.

(** [ScopePredicate::matches]: [None] when the predicate cannot be decided. *)
Definition matches (p : ScopePredicate) (value : ScopeValue) : option bool :=
  match p with
  | Equals _ expected => Some (bool_decide (value = expected))
  | NotEquals _ expected => Some (bool_decide (value <> expected))
  | In_ _ values => Some (bool_decide (value ∈ values))
  | Exists_ _ => Some true
  | Bool_ _ expected => Some (bool_decide (value = SBoolean expected))
  | IntegerRange _ min max =>
      match min, max with
      | Some a, Some b => if decide (a > b)%Z then None else
          Some match value with
               | SInteger v => bool_decide (a <= v <= b)%Z
               | _ => false
               end
      | _, _ =>
          Some match value with
               | SInteger v =>
                   match min with Some m => bool_decide (m <= v)%Z | None => true end &&
                   match max with Some m => bool_decide (v <= m)%Z | None => true end
               | _ => false
               end
      end
  | VersionRange _ requirement =>
      req ← req_parse requirement;
      match value with
      | SVersion v | SString v => ver ← version_parse v; Some (req_matches req ver)
      | _ => Some false
      end
  | Custom _ _ => None
  end.

(** The outcome of one predicate: its key looked up, then matched. *)
Definition outcome (ctx : KnowledgeContext) (p : ScopePredicate) : option bool :=
  k ← predicate_key p; v ← values ctx !! k; matches p v.

(** [Vec::dedup]: drops an element equal to the one kept before it. *)
Fixpoint dedup {A} `{EqDecision A} (l : list A) : list A :=
  match l with
  | [] => []
  | x :: l' =>
      match l' with
      | [] => [x]
      | y :: _ => if decide (x = y) then dedup l' else x :: dedup l'
      end
  end.

(** The loop body: sort the predicate into one of the three lists. *)
Definition evaluate_step (ctx : KnowledgeContext)
    (r : KnowledgeApplicability) (p : ScopePredicate) : KnowledgeApplicability :=
  match outcome ctx p with
  | Some true => mkApplicability (status r) (matched r ++ [p]) (failed r) (unknown r)
  | Some false => mkApplicability (status r) (matched r) (failed r ++ [p]) (unknown r)
  | None => mkApplicability (status r) (matched r) (failed r) (unknown r ++ [p])
  end.

Definition evaluate_status (r : KnowledgeApplicability) : ApplicabilityStatus.t :=
  match failed r, unknown r, matched r with
  | _ :: _, _, _ => ApplicabilityStatus.Inapplicable
  | [], [], _ => ApplicabilityStatus.Applicable
  | [], _ :: _, [] => ApplicabilityStatus.Unknown
  | [], _ :: _, _ :: _ => ApplicabilityStatus.PartiallyKnown
  end.

(** [DeterministicApplicabilityEvaluator::evaluate]. *)
Definition evaluate (scope : KnowledgeScope) (ctx : KnowledgeContext) : KnowledgeApplicability :=
  let sorted := dedup (sort_by_key predicate_to_string (predicates scope)) in
  let r := foldl (evaluate_step ctx)
             (mkApplicability ApplicabilityStatus.Applicable [] [] []) sorted in
  mkApplicability (evaluate_status r) (matched r) (failed r) (unknown r).

(** * Specificity *)

Record ScopeSpecificity := mkSpecificity {
  exact_predicates : nat;
  bounded_predicates : nat;
  existence_predicates : nat;
}.

Definition predicate_rank (p : ScopePredicate) : nat :=
  match p with
  | Equals _ _ | Bool_ _ _ => 3
  | In_ _ _ | IntegerRange _ _ _ | VersionRange _ _ | NotEquals _ _ => 2
  | Exists_ _ => 1
  | Custom _ _ => 0
  end.

(** [dimensions.entry(key).or_insert(0)], raised to the rank. *)
Definition dimension_step (dims : gmap string nat) (p : ScopePredicate) : gmap string nat :=
  match predicate_key p with
  | Some k => <[k := Nat.max (default 0 (dims !! k)) (predicate_rank p)]> dims
  | None => dims
  end.

Definition dimensions (scope : KnowledgeScope) : gmap string nat :=
  foldl dimension_step ∅ (predicates scope).

Definition count_rank (dims : gmap string nat) (r : nat) : nat :=
  countb (fun kv => Nat.eqb kv.2 r) (map_to_list dims).

Definition specificity (scope : KnowledgeScope) : ScopeSpecificity :=
  let dims := dimensions scope in
  mkSpecificity (count_rank dims 3) (count_rank dims 2) (count_rank dims 1).
End evaluate.

(** * Properties *)

Section properties.
Context `{SemverCrate} `{PredicateJson}.
Implicit Types (s : KnowledgeScope) (ctx : KnowledgeContext) (p : ScopePredicate).

Lemma elem_of_dedup {A} `{EqDecision A} (l : list A) x : x ∈ dedup l <-> x ∈ l.
Proof.
  induction l as [|y l IH]; [done|]. cbn. destruct l as [|z l]; [done|].
  case_decide as E; [subst z|]; rewrite ?elem_of_cons, IH; set_solver.
Qed.

(** Dropping adjacent copies from a list whose equal elements are adjacent
    leaves no copy at all. *)
Lemma NoDup_dedup {A K} `{EqDecision A, OrdLaws K} (f : A -> K) (l : list A) :
  StronglySorted (fun x y => ord_le (f x) (f y)) l -> Inj (=) (=) f -> NoDup (dedup l).
Proof.
  intros Hs Hf. induction Hs as [|x l Hs IH Hx]; [constructor|].
  cbn. destruct l as [|y l]; [apply NoDup_singleton|].
  case_decide as E; [done|]. apply NoDup_cons. split; [|done].
  rewrite elem_of_dedup. intros Hin.
  apply E, Hf, (anti_symm ord_le).
  - by apply Forall_inv in Hx.
  - apply elem_of_cons in Hin as [<-|Hin]; [done|].
    apply StronglySorted_inv in Hs as [_ Hy].
    by eapply Forall_forall in Hy.
Qed.

(** The predicates of a scope, in the order [evaluate] visits them. *)
Definition canonical (s : KnowledgeScope) : list ScopePredicate :=
  dedup (sort_by_key predicate_to_string (predicates s)).

Lemma elem_of_canonical s p : p ∈ canonical s <-> p ∈ predicates s.
Proof. unfold canonical. by rewrite elem_of_dedup, elem_of_sort_by_key. Qed.

Definition has_outcome (ctx : KnowledgeContext) (o : option bool) (p : ScopePredicate) : bool :=
  bool_decide (outcome ctx p = o).

Lemma evaluate_step_lists ctx l r :
  let r' := foldl (evaluate_step ctx) r l in
  matched r' = matched r ++ List.filter (has_outcome ctx (Some true)) l /\
  failed r' = failed r ++ List.filter (has_outcome ctx (Some false)) l /\
  unknown r' = unknown r ++ List.filter (has_outcome ctx None) l.
Proof.
  revert r. induction l as [|p l IH]; intros r; cbn; [by rewrite !app_nil_r|].
  destruct (IH (evaluate_step ctx r p)) as (-> & -> & ->).
  unfold evaluate_step, has_outcome.
  destruct (outcome ctx p) as [[]|]; cbn; by rewrite <- ?app_assoc.
Qed.

Lemma evaluate_matched s ctx :
  matched (evaluate s ctx) = List.filter (has_outcome ctx (Some true)) (canonical s).
Proof. apply (proj1 (evaluate_step_lists ctx (canonical s) (mkApplicability ApplicabilityStatus.Applicable [] [] []))). Qed.
Lemma evaluate_failed s ctx :
  failed (evaluate s ctx) = List.filter (has_outcome ctx (Some false)) (canonical s).
Proof. apply (proj1 (proj2 (evaluate_step_lists ctx (canonical s) (mkApplicability ApplicabilityStatus.Applicable [] [] [])))). Qed.
Lemma evaluate_unknown s ctx :
  unknown (evaluate s ctx) = List.filter (has_outcome ctx None) (canonical s).
Proof. apply (proj2 (proj2 (evaluate_step_lists ctx (canonical s) (mkApplicability ApplicabilityStatus.Applicable [] [] [])))). Qed.
Lemma evaluate_status_eq s ctx :
  status (evaluate s ctx) = evaluate_status (evaluate s ctx).
Proof. done. Qed.

Lemma elem_of_outcome_list ctx o s p :
  p ∈ List.filter (has_outcome ctx o) (canonical s) <-> p ∈ predicates s /\ outcome ctx p = o.
Proof.
  rewrite elem_of_list_filter_bool, elem_of_canonical.
  unfold has_outcome. rewrite bool_decide_eq_true. tauto.
Qed.

Lemma list_nonempty_iff {A} (l : list A) : l <> [] <-> exists x, x ∈ l.
Proof. destruct l; [set_solver|]. split; [|done]. intros _. eexists; left. Qed.

Lemma evaluate_status_cases s ctx :
  match status (evaluate s ctx) with
  | ApplicabilityStatus.Inapplicable =>
      exists p, p ∈ predicates s /\ outcome ctx p = Some false
  | ApplicabilityStatus.Applicable =>
      forall p, p ∈ predicates s -> outcome ctx p = Some true
  | ApplicabilityStatus.PartiallyKnown =>
      (forall p, p ∈ predicates s -> outcome ctx p <> Some false) /\
      (exists p, p ∈ predicates s /\ outcome ctx p = Some true) /\
      (exists p, p ∈ predicates s /\ outcome ctx p = None)
  | ApplicabilityStatus.Unknown =>
      predicates s <> [] /\ forall p, p ∈ predicates s -> outcome ctx p = None
  end.
Proof.
  rewrite evaluate_status_eq. unfold evaluate_status.
  rewrite evaluate_failed, evaluate_unknown, evaluate_matched.
  destruct (List.filter (has_outcome ctx (Some false)) _) as [|f fs] eqn:Ef.
  2: { exists f. apply elem_of_outcome_list. rewrite Ef. left. }
  assert (Hf : forall p, p ∈ predicates s -> outcome ctx p <> Some false).
  { intros p Hp Ho. assert (Hin : p ∈ @nil ScopePredicate); [|set_solver].
    rewrite <- Ef. by apply elem_of_outcome_list. }
  destruct (List.filter (has_outcome ctx None) _) as [|u us] eqn:Eu.
  - intros p Hp. specialize (Hf p Hp). destruct (outcome ctx p) as [[]|] eqn:Ho; try done.
    assert (Hin : p ∈ @nil ScopePredicate); [|set_solver].
    rewrite <- Eu. by apply elem_of_outcome_list.
  - assert (Hu : u ∈ predicates s /\ outcome ctx u = None).
    { apply elem_of_outcome_list. rewrite Eu. left. }
    destruct (List.filter (has_outcome ctx (Some true)) _) as [|t ts] eqn:Et.
    + split; [apply list_nonempty_iff; naive_solver|].
      intros p Hp. specialize (Hf p Hp). destruct (outcome ctx p) as [[]|] eqn:Ho; try done.
      assert (Hin : p ∈ @nil ScopePredicate); [|set_solver].
      rewrite <- Et. by apply elem_of_outcome_list.
    + split_and!; [done| |naive_solver].
      exists t. apply elem_of_outcome_list. rewrite Et. left.
Qed.

Lemma evaluate_applicable s ctx :
  status (evaluate s ctx) = ApplicabilityStatus.Applicable <->
  forall p, p ∈ predicates s -> outcome ctx p = Some true.
Proof.
  pose proof (evaluate_status_cases s ctx) as Hs.
  destruct (status _); (split; [done|]) || (split; [discriminate|]); intros Hall.
  - done.
  - destruct Hs as (p & Hp & Ho). rewrite Hall in Ho; done.
  - destruct Hs as (_ & _ & p & Hp & Ho). rewrite Hall in Ho; done.
  - destruct Hs as [Hne Ho]. apply list_nonempty_iff in Hne as (p & Hp).
    specialize (Ho p Hp). rewrite Hall in Ho; done.
Qed.

(** The conjunction of a scope is evaluated in three-valued logic: a scope
    is inapplicable exactly when one predicate is known false, applicable
    exactly when all are known true (so the empty scope is universal),
    partially known when some are true and some undecided, and unknown when
    none is decided. *)
Theorem evaluate_status_correct s ctx :
  (status (evaluate s ctx) = ApplicabilityStatus.Inapplicable <->
    exists p, p ∈ predicates s /\ outcome ctx p = Some false) /\
  (status (evaluate s ctx) = ApplicabilityStatus.Applicable <->
    forall p, p ∈ predicates s -> outcome ctx p = Some true) /\
  (status (evaluate s ctx) = ApplicabilityStatus.PartiallyKnown <->
    (forall p, p ∈ predicates s -> outcome ctx p <> Some false) /\
    (exists p, p ∈ predicates s /\ outcome ctx p = Some true) /\
    (exists p, p ∈ predicates s /\ outcome ctx p = None)) /\
  (status (evaluate s ctx) = ApplicabilityStatus.Unknown <->
    predicates s <> [] /\ forall p, p ∈ predicates s -> outcome ctx p = None).
Proof.
  pose proof (evaluate_status_cases s ctx) as Hs.
  pose proof (list_nonempty_iff (predicates s)) as Hne.
  destruct (status _); split_and!; (split; [done|]) || (split; [discriminate|]); intros Hq;
    try done; exfalso; destruct_and?; firstorder congruence.
Qed.

Lemma StronglySorted_dedup {A} `{EqDecision A} (R : relation A) (l : list A) :
  StronglySorted R l -> StronglySorted R (dedup l).
Proof.
  intros Hs. induction Hs as [|x l Hs IH Hx]; [constructor|].
  cbn. destruct l as [|y l]; [repeat constructor|].
  case_decide; [done|]. constructor; [done|].
  apply Forall_forall. intros z. rewrite elem_of_dedup. revert z. by apply Forall_forall.
Qed.

(** Two lists with the same members are put in the same canonical form. *)
Lemma canonical_ext s1 s2 :
  Inj (=) (=) predicate_to_string ->
  (forall p, p ∈ predicates s1 <-> p ∈ predicates s2) -> canonical s1 = canonical s2.
Proof.
  intros Hinj Hm.
  apply (StronglySorted_unique_strong
    (fun p q => ord_le (predicate_to_string p) (predicate_to_string q))).
  - intros p q _ _ ??. by apply Hinj, (anti_symm ord_le).
  - apply StronglySorted_dedup, sort_by_key_sorted.
  - apply StronglySorted_dedup, sort_by_key_sorted.
  - apply NoDup_Permutation.
    + apply (NoDup_dedup predicate_to_string); [apply sort_by_key_sorted|done].
    + apply (NoDup_dedup predicate_to_string); [apply sort_by_key_sorted|done].
    + intros p. by rewrite !elem_of_canonical.
Qed.

(** The evaluation of a scope depends only on the set of its predicates:
    repeating or reordering them changes neither the status nor the order in
    which matched, failed and unknown predicates are reported. *)
Theorem evaluate_set_determined s1 s2 ctx :
  Inj (=) (=) predicate_to_string ->
  (forall p, p ∈ predicates s1 <-> p ∈ predicates s2) ->
  evaluate s1 ctx = evaluate s2 ctx.
Proof.
  intros Hinj Hm. unfold evaluate. fold (canonical s1) (canonical s2).
  by rewrite (canonical_ext s1 s2 Hinj Hm).
Qed.

(** The rank of a dimension: the best rank of a predicate on its key. *)
Lemma dimension_lookup ps dims k :
  foldl dimension_step dims ps !! k =
  foldl (fun r p => if bool_decide (predicate_key p = Some k)
                    then Some (Nat.max (default 0 r) (predicate_rank p)) else r)
        (dims !! k) ps.
Proof.
  revert dims. induction ps as [|p ps IH]; intros dims; [done|]. cbn. rewrite IH. f_equal.
  unfold dimension_step. destruct (predicate_key p) as [k'|]; cbn.
  - case_bool_decide as Hk; [injection Hk as ->; apply lookup_insert_eq|].
    apply lookup_insert_ne. congruence.
  - done.
Qed.

Definition rank_bound (ps : list ScopePredicate) (k : string) (o : option nat) (base : option nat) : Prop :=
  match o with
  | None => base = None /\ forall p, p ∈ ps -> predicate_key p <> Some k
  | Some r =>
      (forall b, base = Some b -> b <= r) /\
      (forall p, p ∈ ps -> predicate_key p = Some k -> predicate_rank p <= r) /\
      (base = Some r \/ exists p, p ∈ ps /\ predicate_key p = Some k /\ predicate_rank p = r)
  end.

Lemma rank_bound_foldl ps k base :
  rank_bound ps k
    (foldl (fun r p => if bool_decide (predicate_key p = Some k)
                       then Some (Nat.max (default 0 r) (predicate_rank p)) else r) base ps)
    base.
Proof.
  revert base. induction ps as [|p ps IH]; intros base; cbn.
  { destruct base; cbn; [|set_solver]. split_and!; [naive_solver|set_solver|by left]. }
  case_bool_decide as Hk.
  - specialize (IH (Some (default 0 base `max` predicate_rank p))).
    destruct (foldl _ _ ps) as [r|]; cbn in *; [|naive_solver].
    destruct IH as (Hb & Hp & Hr). specialize (Hb _ eq_refl). split_and!.
    + intros b ->. cbn in Hb. lia.
    + intros q [->|Hq]%elem_of_cons Hqk; [lia|eauto].
    + destruct Hr as [[= Hr]|(q & Hq & Hqk & Hqr)].
      * destruct (decide (predicate_rank p = r)) as [Hpr|Hpr].
        { right. exists p. split_and!; [left|done|done]. }
        destruct base as [b|]; cbn in Hr; [left; f_equal; lia|lia].
      * right. exists q. split_and!; [by right|done|done].
  - specialize (IH base). destruct (foldl _ _ ps) as [r|]; cbn in *.
    + destruct IH as (Hb & Hp & Hr). split_and!; [done| |].
      * intros q [->|Hq]%elem_of_cons Hqk; [done|eauto].
      * destruct Hr as [Hr|(q & Hq & Hqk & Hqr)]; [by left|].
        right. exists q. split_and!; [by right|done|done].
    + destruct IH as [-> IH]. split; [done|].
      intros q [->|Hq]%elem_of_cons; eauto.
Qed.

Lemma rank_bound_unique ps1 ps2 k o1 o2 :
  (forall p, p ∈ ps1 <-> p ∈ ps2) ->
  rank_bound ps1 k o1 None -> rank_bound ps2 k o2 None -> o1 = o2.
Proof.
  intros Hm. destruct o1 as [r1|], o2 as [r2|]; cbn; [..|done].
  - intros (_ & Hle1 & [?|(p & Hp & Hpk & <-)]) (_ & Hle2 & [?|(q & Hq & Hqk & <-)]); try done.
    f_equal. apply Nat.le_antisymm; [apply Hle2|apply Hle1]; by try apply Hm.
  - intros (_ & _ & [?|(p & Hp & Hpk & _)]) (_ & Hno); [done|]. destruct (Hno p); naive_solver.
  - intros (_ & Hno) (_ & _ & [?|(p & Hp & Hpk & _)]); [done|]. destruct (Hno p); naive_solver.
Qed.

(** Specificity counts dimensions, not predicates: it depends only on the
    set of predicates, so repeating or reordering them never makes a scope
    look more specific. *)
Theorem specificity_set_determined s1 s2 :
  (forall p, p ∈ predicates s1 <-> p ∈ predicates s2) -> specificity s1 = specificity s2.
Proof.
  intros Hm. unfold specificity. enough (Hd : dimensions s1 = dimensions s2) by by rewrite Hd.
  apply map_eq. intros k. unfold dimensions. rewrite !dimension_lookup, !lookup_empty.
  eapply rank_bound_unique; [exact Hm|apply rank_bound_foldl|apply rank_bound_foldl].
Qed.

End properties.

(** * Witnesses *)

Module ScopeExamples.
Import Semver.Sample.

(** A sample serializer: any injective one will do. *)
#[local] Instance sample_countable : Countable (ScopePredicate (H := json)).
Proof.
  refine (inj_countable'
    (fun p => match p with
      | Equals k v => inl (inl (inl (k, v)))
      | NotEquals k v => inl (inl (inr (k, v)))
      | In_ k vs => inl (inr (inl (k, vs)))
      | Exists_ k => inl (inr (inr k))
      | Bool_ k b => inr (inl (inl (k, b)))
      | IntegerRange k a b => inr (inl (inr (k, a, b)))
      | VersionRange k r => inr (inr (inl (k, r)))
      | Custom k v => inr (inr (inr (k, v : string)))
      end)
    (fun x => match x with
      | inl (inl (inl (k, v))) => Equals k v
      | inl (inl (inr (k, v))) => NotEquals k v
      | inl (inr (inl (k, vs))) => In_ k vs
      | inl (inr (inr k)) => Exists_ k
      | inr (inl (inl (k, b))) => Bool_ k b
      | inr (inl (inr (k, a, b))) => IntegerRange k a b
      | inr (inr (inl (k, r))) => VersionRange k r
      | inr (inr (inr (k, v))) => Custom k (v : Value (SerdeJson := json))
      end) _).
  by intros [].
Defined.
#[export] Instance sample_json : PredicateJson := fun p => pretty (Npos (encode p)).
Lemma sample_json_inj : Inj (=) (=) (predicate_to_string (PredicateJson := sample_json)).
Proof.
  intros p q Hpq. unfold predicate_to_string, sample_json in Hpq.
  apply (inj pretty) in Hpq. injection Hpq as Hpq. by apply (inj encode).
Defined.

Definition provider_x : ScopePredicate (H := json) := Equals "provider" (SString "x").
Definition api_range : ScopePredicate (H := json) := VersionRange "api" "^1.2.3".
Definition token : ScopePredicate (H := json) := Bool_ "token_valid" true.
Definition sample_context : KnowledgeContext :=
  mkContext {[ "provider" := SString "x"; "api" := SVersion "1.4.0" ]}.

Example evaluate_sample :
  status (evaluate (mkScope [provider_x; api_range]) sample_context) = ApplicabilityStatus.Applicable /\
  status (evaluate (mkScope [provider_x; token]) sample_context) = ApplicabilityStatus.PartiallyKnown /\
  status (evaluate (mkScope [token]) sample_context) = ApplicabilityStatus.Unknown /\
  status (evaluate (mkScope []) sample_context) = ApplicabilityStatus.Applicable.
Proof. vm_compute. done. Qed.

Lemma evaluate_set_determined_witness :
  evaluate (mkScope [token; provider_x; token]) sample_context =
  evaluate (mkScope [provider_x; token]) sample_context.
Proof.
  apply evaluate_set_determined; [apply sample_json_inj|].
  intros p. cbn. set_solver.
Defined.

Lemma specificity_set_determined_witness :
  specificity (mkScope [token; provider_x; token]) = specificity (mkScope [provider_x; token]) /\
  specificity (mkScope [provider_x; token]) = mkSpecificity 2 0 0.
Proof.
  split; [|vm_compute; reflexivity].
  apply specificity_set_determined. intros p. cbn. set_solver.
Defined.
End ScopeExamples.
