(* ===== verification/ScopeRelation.v ===== *)
(** Comparison of scopes (src/hierarchy/scope.rs, second half): a conjunction
    is a product of per-key domains; containment and disjointness of scopes
    are decided domain by domain, version requirements being reduced to
    half-open intervals of releases. *)
From S2P Require Import Prelude Semver Scope.

Module ScopeRelation.
Inductive t := Equal | Narrower | Broader | Overlapping | Disjoint | Unknown.
#[global] Instance eq_dec : EqDecision t.
Proof. solve_decision. Defined.
End ScopeRelation.

(** * Version intervals *)

Record VersionInterval := mkInterval { lower : Release; upper : option Release }.

Definition release_max (a b : Release) : Release := if decide (ord_le a b) then b else a.
Definition release_min (a b : Release) : Release := if decide (ord_le a b) then a else b.

Definition next_release (v : Release) : option Release :=
  match checked_succ (patch v) with
  | Some p => Some (mkRelease (major v) (minor v) p)
  | None =>
      match checked_succ (minor v) with
      | Some m => Some (mkRelease (major v) m 0)
      | None => m ← checked_succ (major v); Some (mkRelease m 0 0)
      end
  end.

(** [let lower = Version::new(c.major, c.minor.unwrap_or(0), ..)]. *)
Definition comparator_lower (c : Comparator) : Release :=
  mkRelease (c_major c) (default 0%Z (c_minor c)) (default 0%Z (c_patch c)).

(** The closure [partial_upper]: the first release above every release that
    agrees with the comparator on the components it gives. *)
Definition partial_upper (c : Comparator) : option Release :=
  match c_patch c, c_minor c with
  | Some _, _ => next_release (comparator_lower c)
  | None, Some minor => m ← checked_succ minor; Some (mkRelease (c_major c) m 0)
  | None, None => m ← checked_succ (c_major c); Some (mkRelease m 0 0)
  end.

(** The bounds [(lo, hi)] of one comparator. *)
Definition comparator_bounds (c : Comparator) : option (option Release * option Release) :=
  let lo := comparator_lower c in
  match c_op c with
  | OpExact | OpWildcard => hi ← partial_upper c; Some (Some lo, Some hi)
  | OpGreater => hi ← partial_upper c; Some (Some hi, None)
  | OpGreaterEq => Some (Some lo, None)
  | OpLess => Some (None, Some lo)
  | OpLessEq => hi ← partial_upper c; Some (None, Some hi)
  | OpTilde =>
      match c_minor c with
      | Some minor => m ← checked_succ minor; Some (Some lo, Some (mkRelease (c_major c) m 0))
      | None => m ← checked_succ (c_major c); Some (Some lo, Some (mkRelease m 0 0))
      end
  | OpCaret =>
      if bool_decide (0 < c_major c)%Z || bool_decide (c_minor c = None) then
        m ← checked_succ (c_major c); Some (Some lo, Some (mkRelease m 0 0))
      else if bool_decide (0 < default 0 (c_minor c))%Z || bool_decide (c_patch c = None) then
        m ← checked_succ (default 0%Z (c_minor c)); Some (Some lo, Some (mkRelease 0 m 0))
      else
        p ← checked_succ (default 0%Z (c_patch c)); Some (Some lo, Some (mkRelease 0 0 p))
  | OpOther => None
  end.

Definition narrow (i : VersionInterval) (b : option Release * option Release) : VersionInterval :=
  mkInterval
    (match b.1 with Some lo => release_max (lower i) lo | None => lower i end)
    (match b.2 with
     | Some hi => Some (match upper i with Some old => release_min old hi | None => hi end)
     | None => upper i
     end).

Section domains.
Context `{SemverCrate} `{SerdeJson}.

Definition narrow_comparator (i : VersionInterval) (c : Comparator) : option VersionInterval :=
  if c_pre_is_empty c then b ← comparator_bounds c; Some (narrow i b) else None.

Fixpoint narrow_all (i : VersionInterval) (cs : list Comparator) : option VersionInterval :=
  match cs with
  | [] => Some i
  | c :: cs => i' ← narrow_comparator i c; narrow_all i' cs
  end.

Fixpoint narrow_requirements (i : VersionInterval) (rs : list string) : option VersionInterval :=
  match rs with
  | [] => Some i
  | r :: rs => req ← req_parse r; i' ← narrow_all i (req_comparators req); narrow_requirements i' rs
  end.

Definition version_interval_of (requirements : gset string) : option VersionInterval :=
  narrow_requirements (mkInterval (mkRelease 0 0 0) None) (btree_set requirements).

(** * Domains *)

Record Domain := mkDomain {
  finite : option (gset ScopeValue);
  excluded : gset ScopeValue;
  integer : option (Z * Z);
  versions : gset string;
  version_interval : option VersionInterval;
}.

Definition default_domain : Domain := mkDomain None ∅ None ∅ None.

Definition version_accepts (v : ScopeValue) (r : string) : bool :=
  bool_decide (matches (VersionRange "" r) v = Some true).

Definition accepts (d : Domain) (v : ScopeValue) : bool :=
  bool_decide (v ∉ excluded d) &&
  match finite d with Some set => bool_decide (v ∈ set) | None => true end &&
  match integer d with
  | Some (a, b) => match v with SInteger n => bool_decide (a <= n <= b)%Z | _ => false end
  | None => true
  end &&
  forallb (version_accepts v) (elements (versions d)).

Definition interval_empty (i : VersionInterval) : bool :=
  match upper i with Some u => bool_decide (ord_le u (lower i)) | None => false end.

Definition empty (d : Domain) : bool :=
  match integer d with Some (a, b) => bool_decide (a > b)%Z | None => false end ||
  match finite d with Some set => bool_decide (set = ∅) | None => false end ||
  match version_interval d with Some i => interval_empty i | None => false end.

(** [a.lower >= b.lower && (b.upper.is_none() || a.upper <= b.upper)]. *)
Definition interval_subset (a b : VersionInterval) : bool :=
  bool_decide (ord_le (lower b) (lower a)) &&
  match upper b, upper a with
  | None, _ => true
  | Some u, Some v => bool_decide (ord_le v u)
  | Some _, None => false
  end.

Definition interval_disjoint (a b : VersionInterval) : bool :=
  match upper a with Some v => bool_decide (ord_le v (lower b)) | None => false end ||
  match upper b with Some v => bool_decide (ord_le v (lower a)) | None => false end.

(** [Domain::subset]: [None] when containment cannot be decided. *)
Definition subset (d other : Domain) : option bool :=
  if empty d then Some true else
  match finite d with
  | Some set => Some (forallb (accepts other) (elements set))
  | None =>
  if bool_decide (is_Some (finite other)) then Some false else
  if negb (forallb (fun v => negb (accepts d v)) (elements (excluded other))) then Some false else
  if match integer other with
     | Some (a, b) => negb match integer d with
                           | Some (x, y) => bool_decide (a <= x)%Z && bool_decide (y <= b)%Z
                           | None => false end
     | None => false
     end then Some false else
  if negb (bool_decide (versions other ⊆ versions d)) then
    if bool_decide (versions d = ∅) then Some false else
    match version_interval d, version_interval other with
    | Some a, Some b => Some (interval_subset a b)
    | _, _ => None
    end
  else Some true
  end.

(** [Domain::disjoint]. *)
Definition disjoint (d other : Domain) : option bool :=
  if empty d || empty other then Some true else
  match finite d, finite other with
  | Some set, _ => Some (forallb (fun v => negb (accepts other v)) (elements set))
  | None, Some set => Some (forallb (fun v => negb (accepts d v)) (elements set))
  | None, None =>
  match integer d, integer other with
  | Some (a, b), Some (x, y) => Some (bool_decide (b < x)%Z || bool_decide (y < a)%Z)
  | _, _ =>
  if (bool_decide (is_Some (integer d)) && bool_decide (versions other <> ∅)) ||
     (bool_decide (is_Some (integer other)) && bool_decide (versions d <> ∅)) then Some true else
  if bool_decide (versions d <> ∅) || bool_decide (versions other <> ∅) then
    match version_interval d, version_interval other with
    | Some a, Some b => Some (interval_disjoint a b)
    | _, _ => None
    end
  else Some false
  end end.

(** The update of one predicate's domain; [None] for an unparsable
    requirement or a custom predicate. *)
Definition restrict (d : Domain) (p : ScopePredicate) : option Domain :=
  let intersect set := match finite d with Some old => old ∩ set | None => set end in
  match p with
  | Equals _ v =>
      Some (mkDomain (Some (intersect {[ v ]})) (excluded d) (integer d) (versions d) (version_interval d))
  | Bool_ _ b =>
      Some (mkDomain (Some (intersect {[ SBoolean b ]})) (excluded d) (integer d) (versions d)
              (version_interval d))
  | In_ _ vs =>
      Some (mkDomain (Some (intersect (list_to_set vs))) (excluded d) (integer d) (versions d)
              (version_interval d))
  | NotEquals _ v =>
      Some (mkDomain (finite d) ({[ v ]} ∪ excluded d) (integer d) (versions d) (version_interval d))
  | IntegerRange _ min max =>
      let '(a, b) := default (I64_MIN, I64_MAX) (integer d) in
      Some (mkDomain (finite d) (excluded d)
              (Some (Z.max a (default I64_MIN min), Z.min b (default I64_MAX max)))
              (versions d) (version_interval d))
  | VersionRange _ r =>
      _ ← req_parse r;
      Some (mkDomain (finite d) (excluded d) (integer d) ({[ r ]} ∪ versions d) (version_interval d))
  | Exists_ _ => Some d
  | Custom _ _ => None
  end.

Fixpoint collect_domains (ps : list ScopePredicate) (m : gmap string Domain) :
    option (gmap string Domain) :=
  match ps with
  | [] => Some m
  | p :: ps =>
      k ← predicate_key p;
      d ← restrict (default default_domain (m !! k)) p;
      collect_domains ps (<[k := d]> m)
  end.

(** The closing pass: the version interval, and the finite values the other
    constraints accept. *)
Definition normalize (d : Domain) : Domain :=
  let d' := mkDomain None (excluded d) (integer d) (versions d)
              (if bool_decide (versions d = ∅) then version_interval d
               else version_interval_of (versions d)) in
  mkDomain (match finite d with Some set => Some (filter (fun v => accepts d' v = true) set)
            | None => None end)
    (excluded d') (integer d') (versions d') (version_interval d').

Definition domains (scope : KnowledgeScope) : option (gmap string Domain) :=
  match collect_domains (predicates scope) ∅ with
  | Some m => Some (normalize <$> m)
  | None => None
  end.

(** * Comparison *)

(** [fn and]: three-valued conjunction. *)
Definition and3 (a b : option bool) : option bool :=
  match a, b with
  | Some false, _ | _, Some false => Some false
  | None, _ | _, None => None
  | Some true, Some true => Some true
  end.

(** One key of the loop; [None] is the early return of [Disjoint]. *)
Definition compare_key (a b : gmap string Domain) (st : option bool * option bool * bool)
    (k : string) : option (option bool * option bool * bool) :=
  let '(ab, ba, overlap) := st in
  match a !! k, b !! k with
  | Some x, Some y =>
      match disjoint x y with
      | Some true => None
      | o => Some (and3 ab (subset x y), and3 ba (subset y x),
                   match o with None => false | _ => overlap end)
      end
  | Some _, None => Some (ab, Some false, overlap)
  | None, Some _ => Some (Some false, ba, overlap)
  | None, None => Some st
  end.

Fixpoint compare_keys (a b : gmap string Domain) (st : option bool * option bool * bool)
    (ks : list string) : option (option bool * option bool * bool) :=
  match ks with
  | [] => Some st
  | k :: ks => st' ← compare_key a b st k; compare_keys a b st' ks
  end.

Definition relation_of (st : option bool * option bool * bool) : ScopeRelation.t :=
  match st with
  | (Some true, Some true, _) => ScopeRelation.Equal
  | (Some true, Some false, _) => ScopeRelation.Narrower
  | (Some false, Some true, _) => ScopeRelation.Broader
  | (_, _, true) => ScopeRelation.Overlapping
  | (_, _, false) => ScopeRelation.Unknown
  end.

Definition compare_domains (a b : gmap string Domain) : ScopeRelation.t :=
  if existsb (fun kv => empty kv.2) (map_to_list a) || existsb (fun kv => empty kv.2) (map_to_list b)
  then ScopeRelation.Disjoint
  else match compare_keys a b (Some true, Some true, true) (btree_set (dom a ∪ dom b)) with
    | None => ScopeRelation.Disjoint
    | Some st => relation_of st
    end.

(** [DeterministicScopeRelationEvaluator::compare]. *)
Definition compare (a b : KnowledgeScope) : ScopeRelation.t :=
  match domains a, domains b with
  | Some x, Some y => compare_domains x y
  | _, _ => ScopeRelation.Unknown
  end.
End domains.

(** * Version intervals are exact *)

Lemma release_le_iff (a b : Release) :
  ord_le a b <->
  (major a < major b \/ major a = major b /\
    (minor a < minor b \/ minor a = minor b /\ patch a <= patch b))%Z.
Proof.
  unfold ord_le, ord_cmp, release_ord, key_ord, release_key; cbn.
  unfold ord_cmp, prod_ord; cbn. unfold ord_cmp, Z_ord; cbn.
  destruct (Z.compare_spec (major a) (major b)); [|split; [lia|done]|split; [done|lia]].
  destruct (Z.compare_spec (minor a) (minor b)); [|split; [lia|done]|split; [done|lia]].
  destruct (Z.compare_spec (patch a) (patch b)); split; try done; try lia.
Qed.

(** Release order to integer arithmetic. *)
Ltac release_arith :=
  repeat match goal with
  | H : context [ord_le _ _] |- _ => rewrite !release_le_iff in H
  end;
  rewrite ?release_le_iff; cbn; lia.

(** Membership of a release in the half-open interval [lo, hi). *)
Definition in_bounds (b : option Release * option Release) (v : Release) : Prop :=
  match b.1 with Some lo => ord_le lo v | None => True end /\
  match b.2 with Some hi => ~ ord_le hi v | None => True end.
Definition in_interval (i : VersionInterval) (v : Release) : Prop :=
  in_bounds (Some (lower i), upper i) v.

Lemma in_interval_narrow i b v : in_interval (narrow i b) v <-> in_interval i v /\ in_bounds b v.
Proof.
  destruct i as [lo hi], b as [blo bhi]. unfold in_interval, in_bounds, narrow; cbn.
  unfold release_max, release_min.
  destruct blo as [blo|], hi as [hi|], bhi as [bhi|]; cbn;
    repeat case_decide; release_arith.
Qed.

Lemma checked_succ_Some a b : checked_succ a = Some b -> b = (a + 1)%Z.
Proof. unfold checked_succ. case_decide; naive_solver. Qed.
Lemma checked_succ_None a : checked_succ a = None -> (U64_MAX <= a)%Z.
Proof. unfold checked_succ. case_decide; [done|lia]. Qed.

(** The successor release: nothing lies strictly between. *)
Lemma next_release_spec r n v :
  release_wf r -> release_wf v -> next_release r = Some n -> ord_le n v <-> ~ ord_le v r.
Proof.
  unfold release_wf, is_u64. intros Hr Hv. unfold next_release.
  destruct (checked_succ (patch r)) eqn:Ep; [apply checked_succ_Some in Ep|apply checked_succ_None in Ep].
  { intros [= <-]. rewrite !release_le_iff; cbn. lia. }
  destruct (checked_succ (minor r)) eqn:Em; [apply checked_succ_Some in Em|apply checked_succ_None in Em].
  { intros [= <-]. rewrite !release_le_iff; cbn. lia. }
  destruct (checked_succ (major r)) eqn:Ea; [apply checked_succ_Some in Ea|done]; cbn.
  intros [= <-]. rewrite !release_le_iff; cbn. lia.
Qed.

(** [partial_upper] is the first release above those the comparator's given
    components allow. *)
Lemma partial_upper_spec c hi v :
  comparator_wf c -> release_wf v -> partial_upper c = Some hi ->
  ord_le hi v <-> greater_admits c v.
Proof.
  intros (Hma & Hmi & Hpa) Hv. unfold partial_upper, greater_admits.
  destruct (c_patch c) as [p|] eqn:Ep.
  - destruct (Hpa p eq_refl) as [Hp [m Em]]. specialize (Hmi m Em). intros Hn.
    assert (Hwf : release_wf (comparator_lower c)).
    { unfold comparator_lower. rewrite Em, Ep. done. }
    rewrite (next_release_spec _ _ _ Hwf Hv Hn), release_le_iff.
    unfold comparator_lower; rewrite Em, Ep; cbn. split.
    + intros H. destruct (decide (major v = c_major c)); [|lia].
      right. split; [done|]. exists m. split; [done|].
      destruct (decide (minor v = m)); [|lia]. right. split; [done|]. exists p. split; [done|lia].
    + intros [H|(? & m' & [= <-] & [H|(? & p' & [= <-] & H)])]; lia.
  - destruct (c_minor c) as [m|] eqn:Em.
    + destruct (checked_succ m) eqn:Es; [apply checked_succ_Some in Es as ->|done]; cbn.
      intros [= <-]. rewrite release_le_iff; cbn. unfold release_wf, is_u64 in Hv. split.
      * intros H. destruct (decide (major v = c_major c)); [|lia].
        right. split; [done|]. exists m. split; [done|]. lia.
      * intros [H|(? & m' & [= <-] & [H|(? & p' & [=] & H)])]; lia.
    + destruct (checked_succ (c_major c)) eqn:Es; [apply checked_succ_Some in Es as ->|done]; cbn.
      intros [= <-]. rewrite release_le_iff; cbn. unfold release_wf, is_u64 in Hv.
      split; [lia|]. intros [H|(? & m' & [=] & H)]; lia.
Qed.

Lemma comparator_lower_spec c v :
  comparator_wf c -> release_wf v ->
  ord_le (comparator_lower c) v <-> exact_admits c v \/ greater_admits c v.
Proof.
  intros (Hma & Hmi & Hpa) Hv. rewrite release_le_iff.
  unfold comparator_lower, exact_admits, greater_admits; cbn.
  unfold release_wf, is_u64 in *.
  destruct (c_minor c) as [m|] eqn:Em; cbn.
  - specialize (Hmi m eq_refl). destruct (c_patch c) as [p|] eqn:Ep; cbn.
    + split.
      * intros H. destruct (decide (major v = c_major c)); [|right; left; lia].
        destruct (decide (minor v = m)).
        { destruct (decide (patch v = p)); [left; naive_solver|].
          right; right. split; [done|]. exists m. split; [done|]. right. split; [done|].
          exists p. split; [done|lia]. }
        right; right. split; [done|]. exists m. split; [done|lia].
      * intros [(?&H2&H3)|[?|(?&m'&[= <-]&[?|(?&p'&[= <-]&?)])]]; try lia.
        specialize (H2 m eq_refl). specialize (H3 p eq_refl). lia.
    + split.
      * intros H. destruct (decide (major v = c_major c)); [|right; left; lia].
        destruct (decide (minor v = m)); [left; naive_solver|].
        right; right. split; [done|]. exists m. split; [done|lia].
      * intros [(?&H2&H3)|[?|(?&m'&[= <-]&[?|(?&p'&[=]&?)])]]; try lia.
        specialize (H2 m eq_refl). lia.
  - destruct (c_patch c) as [p|] eqn:Ep.
    { destruct (Hpa p eq_refl) as [_ [? ?]]; congruence. }
    split.
    + intros H. destruct (decide (major v = c_major c)); [left; naive_solver|right; left; lia].
    + intros [(?&_&_)|[?|(?&m'&[=]&?)]]; cbn; lia.
Qed.

(** On the components a comparator gives, exactly one of less, exact and
    greater holds. *)
Lemma admits_trichotomy c v :
  comparator_wf c ->
  (exact_admits c v -> ~ greater_admits c v) /\
  (less_admits c v <-> ~ exact_admits c v /\ ~ greater_admits c v) /\
  (~ greater_admits c v -> exact_admits c v \/ less_admits c v).
Proof.
  intros (_ & _ & Hpa). unfold exact_admits, greater_admits, less_admits.
  destruct (c_minor c) as [m|] eqn:Em, (c_patch c) as [p|] eqn:Ep.
  3: { destruct (Hpa p eq_refl) as [_ [? ?]]; congruence. }
  all: destruct (Z.lt_trichotomy (major v) (c_major c)) as [|[|]];
    try destruct (Z.lt_trichotomy (minor v) m) as [|[|]];
    try destruct (Z.lt_trichotomy (patch v) p) as [|[|]];
    naive_solver lia.
Qed.

Lemma tilde_bounds c b v :
  c_op c = OpTilde -> comparator_wf c -> release_wf v ->
  comparator_bounds c = Some b -> tilde_admits c v <-> in_bounds b v.
Proof.
  intros Ho (Hma & Hmi & Hpa) Hv. unfold comparator_bounds. rewrite Ho.
  unfold tilde_admits, comparator_lower, in_bounds, release_wf, is_u64 in *.
  destruct (c_minor c) as [m|] eqn:Em; cbn.
  - destruct (checked_succ m) eqn:Es; [apply checked_succ_Some in Es as ->|done]; cbn.
    intros [= <-]; cbn. rewrite !release_le_iff; cbn. specialize (Hmi m eq_refl).
    destruct (c_patch c) as [p|] eqn:Ep; cbn; split; intros Hx.
    + destruct Hx as (? & H2 & H3). specialize (H2 m eq_refl). specialize (H3 p eq_refl). lia.
    + split_and!; [lia|intros ? [= <-]; lia|intros ? [= <-]; lia].
    + destruct Hx as (? & H2 & _). specialize (H2 m eq_refl). lia.
    + split_and!; [lia|intros ? [= <-]; lia|done].
  - destruct (checked_succ (c_major c)) eqn:Es; [apply checked_succ_Some in Es as ->|done]; cbn.
    intros [= <-]; cbn. rewrite !release_le_iff; cbn.
    destruct (c_patch c) as [p|] eqn:Ep; [destruct (Hpa p eq_refl) as [_ [? ?]]; congruence|]; cbn.
    split; [intros (? & _ & _); lia|]. intros Hx. split_and!; [lia|done|done].
Qed.

Lemma caret_bounds c b v :
  c_op c = OpCaret -> comparator_wf c -> release_wf v ->
  comparator_bounds c = Some b -> caret_admits c v <-> in_bounds b v.
Proof.
  intros Ho (Hma & Hmi & Hpa) Hv. unfold comparator_bounds. rewrite Ho.
  unfold caret_admits, comparator_lower, in_bounds, release_wf, is_u64 in *.
  destruct (c_minor c) as [m|] eqn:Em; cbn.
  - specialize (Hmi m eq_refl). rewrite orb_false_r.
    destruct (c_patch c) as [p|] eqn:Ep; cbn;
      [destruct (Hpa p eq_refl) as [Hp _]; unfold is_u64 in Hp|]; repeat case_decide;
      repeat case_bool_decide; try lia; cbn;
      destruct (checked_succ _) eqn:Es; try done; apply checked_succ_Some in Es as ->; cbn;
      intros [= <-]; cbn; rewrite !release_le_iff; cbn; lia.
  - rewrite orb_true_r.
    destruct (checked_succ (c_major c)) eqn:Es; [apply checked_succ_Some in Es as ->|done]; cbn.
    intros [= <-]; cbn. rewrite !release_le_iff; cbn.
    destruct (c_patch c) as [p|] eqn:Ep; [destruct (Hpa p eq_refl) as [_ [? ?]]; congruence|]; cbn.
    lia.
Qed.

Lemma comparator_bounds_spec c b v :
  comparator_wf c -> release_wf v -> comparator_bounds c = Some b ->
  comparator_admits c v <-> in_bounds b v.
Proof.
  intros Hc Hv Hb. unfold comparator_admits.
  destruct (admits_trichotomy c v Hc) as (Hexcl & Hless & Htri).
  pose proof (comparator_lower_spec c v Hc Hv) as Hlow.
  destruct (c_op c) eqn:Ho; try (by apply (tilde_bounds c b v) || by apply (caret_bounds c b v));
    unfold comparator_bounds in Hb; rewrite Ho in Hb;
    try (destruct (partial_upper c) as [hi|] eqn:Ehi; [|done]; cbn in Hb;
         pose proof (partial_upper_spec c hi v Hc Hv Ehi) as Hup);
    try injection Hb as <-; try done; unfold in_bounds; cbn; rewrite ?Hlow, ?Hup; tauto.
Qed.

Section interval_laws.
Context `{SemverLaws} `{SerdeJson}.

Definition stable_comparator (c : Comparator) : Prop := c_pre_is_empty c = true /\ c_op c <> OpOther.

Lemma narrow_all_spec cs i i' v :
  Forall comparator_wf cs -> release_wf v -> narrow_all i cs = Some i' ->
  Forall stable_comparator cs /\
  (in_interval i' v <-> in_interval i v /\ Forall (fun c => comparator_admits c v) cs).
Proof.
  intros Hcs Hv. revert i. induction Hcs as [|c cs Hc Hcs IH]; intros i; cbn.
  { intros [= ->]. split; [done|]. rewrite Forall_nil. tauto. }
  unfold narrow_comparator. destruct (c_pre_is_empty c) eqn:Epre; [|done].
  destruct (comparator_bounds c) as [b|] eqn:Eb; [|done]; cbn.
  intros Hn. destruct (IH _ Hn) as [Hst Hin]. split.
  - constructor; [|done]. split; [done|]. intros Ho.
    unfold comparator_bounds in Eb. by rewrite Ho in Eb.
  - rewrite Hin, in_interval_narrow, Forall_cons, (comparator_bounds_spec c b v Hc Hv Eb). tauto.
Qed.

Definition value_version (v : ScopeValue) : option Version :=
  match v with SVersion s | SString s => version_parse s | _ => None end.

Lemma value_version_wf v ver : value_version v = Some ver -> release_wf (version_release ver).
Proof. destruct v; try done; apply version_parse_wf. Qed.

Lemma version_accepts_iff r req v :
  req_parse r = Some req ->
  version_accepts v r = true <-> exists ver, value_version v = Some ver /\ req_matches req ver = true.
Proof.
  intros Hreq. unfold version_accepts. rewrite bool_decide_eq_true. cbn. rewrite Hreq; cbn.
  unfold value_version. destruct v; cbn; try naive_solver.
  all: destruct (version_parse _) eqn:E; cbn; (split; [intros [= Hm]; eauto|intros (ver & [=] & ?); subst; congruence]).
Qed.

(** A requirement that reduces to an interval accepts the stable versions of
    the interval. *)
Lemma requirement_spec r req i i' v :
  req_parse r = Some req -> narrow_all i (req_comparators req) = Some i' ->
  version_accepts v r = true <->
  exists ver, value_version v = Some ver /\ version_pre_is_empty ver = true /\
    Forall (fun c => comparator_admits c (version_release ver)) (req_comparators req).
Proof.
  intros Hreq Hn. rewrite (version_accepts_iff r req v Hreq).
  assert (Hst : Forall stable_comparator (req_comparators req)).
  { eapply (narrow_all_spec _ i i' (mkRelease 0 0 0)); [by eapply req_comparators_wf| |done].
    done. }
  split; intros (ver & Hv & Hm); exists ver; (split; [done|]); by apply req_matches_stable.
Qed.

Lemma narrow_requirements_spec rs i i' v ver :
  value_version v = Some ver -> version_pre_is_empty ver = true ->
  narrow_requirements i rs = Some i' ->
  in_interval i' (version_release ver) <->
  in_interval i (version_release ver) /\ Forall (fun r => version_accepts v r = true) rs.
Proof.
  intros Hv Hpre. revert i. induction rs as [|r rs IH]; intros i; cbn.
  { intros [= ->]. rewrite Forall_nil. tauto. }
  destruct (req_parse r) as [req|] eqn:Er; [|done]; cbn.
  destruct (narrow_all i _) as [i1|] eqn:En; [|done]; cbn.
  intros Hn. rewrite (IH _ Hn), Forall_cons, (requirement_spec r req i i1 v Er En).
  assert (Hwf : Forall comparator_wf (req_comparators req)) by by eapply req_comparators_wf.
  destruct (narrow_all_spec _ i i1 _ Hwf (value_version_wf v ver Hv) En) as [_ ->].
  split; [naive_solver|]. intros [Hi [(ver' & Hv' & _ & Had) Hrs]].
  rewrite Hv in Hv'. naive_solver.
Qed.

Lemma narrow_requirements_stable r rs i i' v :
  narrow_requirements i (r :: rs) = Some i' -> version_accepts v r = true ->
  exists ver, value_version v = Some ver /\ version_pre_is_empty ver = true.
Proof.
  cbn. destruct (req_parse r) as [req|] eqn:Er; [|done]; cbn.
  destruct (narrow_all i _) as [i1|] eqn:En; [|done]; cbn. intros _.
  rewrite (requirement_spec r req i i1 v Er En). naive_solver.
Qed.

Lemma in_interval_start v : release_wf v -> in_interval (mkInterval (mkRelease 0 0 0) None) v.
Proof.
  unfold release_wf, is_u64, in_interval, in_bounds; cbn. intros Hv.
  rewrite release_le_iff; cbn. lia.
Qed.

(** A set of version requirements that reduces to an interval is exactly
    that interval: a value satisfies every requirement if and only if it
    parses as a version without pre-release whose release lies between the
    inclusive lower and the exclusive upper bound. Overflowing components and
    partial comparators are accounted for. *)
Lemma version_interval_exact rs i v :
  rs <> ∅ -> version_interval_of rs = Some i ->
  (forall r, r ∈ rs -> version_accepts v r = true) <->
  exists ver, value_version v = Some ver /\ version_pre_is_empty ver = true /\
    in_interval i (version_release ver).
Proof.
  intros Hne Hi.
  assert (Hall : (forall r, r ∈ rs -> version_accepts v r = true) <->
                 Forall (fun r => version_accepts v r = true) (btree_set rs)).
  { rewrite Forall_forall. by setoid_rewrite elem_of_btree_set. }
  rewrite Hall. unfold version_interval_of in Hi. split.
  - intros Hacc. destruct (btree_set rs) as [|r l] eqn:El.
    { destruct Hne. apply set_eq. intros x. rewrite <- elem_of_btree_set, El. set_solver. }
    destruct (narrow_requirements_stable r l _ _ v Hi) as (ver & Hv & Hpre).
    { by apply Forall_inv in Hacc. }
    exists ver. split_and!; [done|done|].
    apply (narrow_requirements_spec _ _ _ v ver Hv Hpre Hi). split; [|done].
    apply in_interval_start. by eapply value_version_wf.
  - intros (ver & Hv & Hpre & Hin).
    by apply (narrow_requirements_spec _ _ _ v ver Hv Hpre Hi) in Hin as [_ Hin].
Qed.
End interval_laws.
