(* ===== verification/ScopeSoundness.v ===== *)
(** Soundness of scope comparison: a domain accepts exactly the values its
    predicates accept, and the relation [compare] reports holds between the
    sets of contexts in which the scopes apply. *)
From S2P Require Import Prelude Semver Scope ScopeRelation.

(** * Domains are the values that satisfy their predicates *)

Section domain_laws.
Context `{SemverLaws} `{SerdeJson}.

(** Values of contexts hold 64-bit integers. *)
Definition value_wf (v : ScopeValue) : Prop :=
  match v with SInteger n => is_i64 n | _ => True end.

Lemma accepts_iff d v :
  accepts d v = true <->
  (v ∉ excluded d) /\
  (forall set, finite d = Some set -> v ∈ set) /\
  (forall a b, integer d = Some (a, b) -> exists n, v = SInteger n /\ (a <= n <= b)%Z) /\
  (forall r, r ∈ versions d -> version_accepts v r = true).
Proof.
  unfold accepts. rewrite !andb_true_iff, bool_decide_eq_true, forallb_forall.
  assert (Hr : (forall x, List.In x (elements (versions d)) -> version_accepts v x = true) <->
               (forall r, r ∈ versions d -> version_accepts v r = true)).
  { setoid_rewrite <- list_elem_of_In. by setoid_rewrite elem_of_elements. }
  rewrite Hr. clear Hr.
  assert (Hf : match finite d with Some set => bool_decide (v ∈ set) | None => true end = true <->
               (forall set, finite d = Some set -> v ∈ set)).
  { destruct (finite d); [rewrite bool_decide_eq_true|]; naive_solver. }
  rewrite Hf. clear Hf.
  assert (Hi : match integer d with
    | Some (a, b) => match v with SInteger n => bool_decide (a <= n <= b)%Z | _ => false end
    | None => true end = true <->
    (forall a b, integer d = Some (a, b) -> exists n, v = SInteger n /\ (a <= n <= b)%Z)).
  { destruct (integer d) as [[a b]|]; [|naive_solver].
    destruct v; try rewrite bool_decide_eq_true; naive_solver. }
  rewrite Hi. tauto.
Qed.

(** The predicate's own test, on a value. *)
Definition satisfies (p : ScopePredicate) (v : ScopeValue) : Prop := matches p v = Some true.

Lemma satisfies_integer_range k min max v :
  satisfies (IntegerRange k min max) v <->
  exists n, v = SInteger n /\ (forall m, min = Some m -> (m <= n)%Z) /\
            (forall m, max = Some m -> (n <= m)%Z).
Proof.
  unfold satisfies; cbn. destruct v as [s|n|b|s].
  2: { assert (Hr : (exists m, SInteger n = SInteger m /\ (forall a, min = Some a -> (a <= m)%Z) /\
                     (forall b, max = Some b -> (m <= b)%Z)) <->
                    (forall a, min = Some a -> (a <= n)%Z) /\ (forall b, max = Some b -> (n <= b)%Z))
         by naive_solver.
       rewrite Hr. clear Hr. destruct min as [a|], max as [b|]; cbn; [case_decide|..];
         repeat case_bool_decide; cbn;
         (split; [intros [=]; split; intros ? [= <-]; lia|]);
         intros [Ha Hb]; try specialize (Ha _ eq_refl); try specialize (Hb _ eq_refl); done || lia. }
  all: destruct min, max; cbn; [case_decide|..]; cbn; naive_solver.
Qed.

Lemma accepts_default v : accepts default_domain v = true.
Proof. apply accepts_iff. split_and!; cbn; set_solver. Qed.

Lemma accepts_intersect d set v :
  accepts (mkDomain (Some match finite d with Some old => old ∩ set | None => set end)
             (excluded d) (integer d) (versions d) (version_interval d)) v = true <->
  accepts d v = true /\ v ∈ set.
Proof.
  rewrite !accepts_iff; cbn. split.
  - intros (? & Hf & ? & ?). specialize (Hf _ eq_refl). destruct (finite d) as [old|].
    + apply elem_of_intersection in Hf as [Ho Hs]. split_and!; try done. by intros ? [= <-].
    + by split_and!.
  - intros ((? & Hf & ? & ?) & Hs). split_and!; try done. intros ? [= <-].
    destruct (finite d) as [old|]; [|done]. apply elem_of_intersection. auto.
Qed.

Lemma satisfies_bool (b : bool) : Some b = Some true <-> b = true.
Proof. naive_solver. Qed.

Lemma restrict_spec d d' p v :
  value_wf v -> restrict d p = Some d' ->
  accepts d' v = true <-> accepts d v = true /\ satisfies p v.
Proof.
  intros Hv. unfold restrict.
  destruct p as [k x|k x|k xs|k|k b|k min max|k r|k pl].
  - intros [= <-]. unfold satisfies; cbn [matches].
    rewrite accepts_intersect, satisfies_bool, bool_decide_eq_true. set_solver.
  - intros [= <-]. unfold satisfies; cbn [matches].
    rewrite satisfies_bool, bool_decide_eq_true, !accepts_iff; cbn. set_solver.
  - intros [= <-]. unfold satisfies; cbn [matches].
    rewrite accepts_intersect, satisfies_bool, bool_decide_eq_true. set_solver.
  - intros [= <-]. unfold satisfies; cbn. tauto.
  - intros [= <-]. unfold satisfies; cbn [matches].
    rewrite accepts_intersect, satisfies_bool, bool_decide_eq_true. set_solver.
  - rewrite (satisfies_integer_range k min max v), !accepts_iff. unfold value_wf, is_i64 in Hv.
    destruct (integer d) as [[a b]|] eqn:Ei; cbn; intros [= <-]; cbn.
    + split.
      * intros (? & ? & Hi & ?). destruct (Hi _ _ eq_refl) as (n & -> & Hn). split_and!; try done.
        { intros ? ? [= <- <-]. exists n. split; [done|]. lia. }
        exists n. split_and!; [done| |]; intros m ->; cbn in Hn; lia.
      * intros ((? & ? & Hi & ?) & n & -> & Hmin & Hmax). split_and!; try done.
        intros ? ? [= <- <-]. exists n. split; [done|].
        destruct (Hi _ _ eq_refl) as (n' & [= <-] & Hn').
        destruct min as [mi|], max as [ma|]; cbn;
          try specialize (Hmin _ eq_refl); try specialize (Hmax _ eq_refl); lia.
    + split.
      * intros (? & ? & Hi & ?). destruct (Hi _ _ eq_refl) as (n & -> & Hn). split_and!; try done.
        exists n. split_and!; [done| |]; intros m ->; cbn in Hn; lia.
      * intros ((? & ? & Hi & ?) & n & -> & Hmin & Hmax). split_and!; try done.
        intros ? ? [= <- <-]. exists n. split; [done|].
        destruct min as [mi|], max as [ma|]; cbn;
          try specialize (Hmin _ eq_refl); try specialize (Hmax _ eq_refl); lia.
  - destruct (req_parse r) eqn:Er; [|done]; cbn. intros [= <-]; cbn.
    assert (Hs : satisfies (VersionRange k r) v <-> version_accepts v r = true).
    { unfold version_accepts. by rewrite bool_decide_eq_true. }
    rewrite Hs, !accepts_iff; cbn. set_solver.
  - done.
Qed.

Definition accepts_opt (o : option Domain) (v : ScopeValue) : Prop :=
  match o with Some d => accepts d v = true | None => True end.

Lemma collect_domains_spec ps m m' :
  collect_domains ps m = Some m' ->
  (forall p, p ∈ ps -> is_Some (predicate_key p)) /\
  forall k,
    (is_Some (m' !! k) <-> is_Some (m !! k) \/ exists p, p ∈ ps /\ predicate_key p = Some k) /\
    forall v, value_wf v ->
      accepts_opt (m' !! k) v <->
      accepts_opt (m !! k) v /\ forall p, p ∈ ps -> predicate_key p = Some k -> satisfies p v.
Proof.
  revert m. induction ps as [|p ps IH]; intros m; cbn; [naive_solver set_solver|].
  destruct (predicate_key p) as [k0|] eqn:Ek; [|done]; cbn.
  destruct (restrict _ p) as [d|] eqn:Er; [|done]; cbn.
  intros [Hkeys Hk]%IH. split; [set_solver|]. intros k. specialize (Hk k) as [Hdom Hacc]. split.
  - rewrite Hdom. destruct (decide (k = k0)) as [->|Hne].
    + rewrite lookup_insert_eq. split; [|eauto]. intros _. right. exists p. set_solver.
    + rewrite lookup_insert_ne by done. set_solver.
  - intros v Hv. rewrite (Hacc v Hv). destruct (decide (k = k0)) as [->|Hne].
    + rewrite lookup_insert_eq. cbn. rewrite (restrict_spec _ _ _ v Hv Er).
      assert (Hd : accepts (default default_domain (m !! k0)) v = true <-> accepts_opt (m !! k0) v).
      { destruct (m !! k0); cbn; [done|]. pose proof (accepts_default v). tauto. }
      rewrite Hd. set_solver.
    + rewrite lookup_insert_ne by done. set_solver.
Qed.

(** The invariant the closing pass establishes. *)
Definition domain_ok (d : Domain) : Prop :=
  (forall set v, finite d = Some set -> v ∈ set -> accepts d v = true) /\
  (forall i, version_interval d = Some i ->
     versions d <> ∅ /\ version_interval_of (versions d) = Some i).

Lemma collect_domains_interval ps m m' :
  (forall k d, m !! k = Some d -> version_interval d = None) ->
  collect_domains ps m = Some m' -> forall k d, m' !! k = Some d -> version_interval d = None.
Proof.
  revert m. induction ps as [|p ps IH]; intros m Hm; cbn; [naive_solver|].
  destruct (predicate_key p) as [k0|] eqn:Ek; [|done]; cbn.
  destruct (restrict _ p) as [d|] eqn:Er; [|done]; cbn.
  apply IH. intros k d'. destruct (decide (k = k0)) as [->|Hne].
  - rewrite lookup_insert_eq. intros [= <-].
    assert (Hd : version_interval (default default_domain (m !! k0)) = None).
    { destruct (m !! k0) eqn:E; cbn; eauto. }
    revert Er. unfold restrict. destruct p; cbn; try (intros [= <-]; done).
    all: try (destruct (integer _) as [[]|]; cbn; intros [= <-]; done).
    destruct (req_parse _); cbn; [|done]. intros [= <-]; done.
  - rewrite lookup_insert_ne by done. apply Hm.
Qed.

Lemma accepts_normalize d v : accepts (normalize d) v = true <-> accepts d v = true.
Proof.
  rewrite !accepts_iff. unfold normalize; cbn. destruct (finite d) as [set|]; cbn; [|tauto].
  split; intros (Hx & Hf & Hi & Hr); split_and!; try done.
  - intros ? [= <-]. specialize (Hf _ eq_refl). apply elem_of_filter in Hf. tauto.
  - intros ? [= <-]. apply elem_of_filter. split; [|by apply Hf].
    apply accepts_iff. split_and!; try done.
Qed.

Lemma normalize_ok d : version_interval d = None -> domain_ok (normalize d).
Proof.
  intros Hd. split.
  - intros set v Hf Hv. unfold normalize in Hf; cbn in Hf.
    destruct (finite d) as [s|] eqn:Ef; [|done]. injection Hf as <-.
    pose proof Hv as [Hacc Hin]%elem_of_filter. apply accepts_normalize, accepts_iff.
    apply accepts_iff in Hacc as (?&_&?&?). rewrite Ef. split_and!; try done.
    by intros ? [= <-].
  - intros i. unfold normalize; cbn. case_bool_decide; [by rewrite Hd|done].
Qed.

(** The domains of a scope: one per constrained key, each normalized, and
    together equivalent to the conjunction of the scope's predicates. *)
Lemma domains_spec s m :
  domains s = Some m ->
  (forall p, p ∈ predicates s -> is_Some (predicate_key p)) /\
  (forall k d, m !! k = Some d -> domain_ok d) /\
  forall k,
    (is_Some (m !! k) <-> exists p, p ∈ predicates s /\ predicate_key p = Some k) /\
    forall v, value_wf v ->
      accepts_opt (m !! k) v <->
      forall p, p ∈ predicates s -> predicate_key p = Some k -> satisfies p v.
Proof.
  unfold domains. destruct (collect_domains _ ∅) as [m0|] eqn:E; [|done]. intros [= <-].
  destruct (collect_domains_spec _ _ _ E) as [Hkeys Hk]. split_and!; [done| |].
  - intros k d. rewrite lookup_fmap. intros (d0 & Hd0 & ->)%fmap_Some.
    apply normalize_ok. eapply collect_domains_interval; [|exact E|exact Hd0]. by intros ? ? ?%lookup_empty_Some.
  - intros k. specialize (Hk k) as [Hdom Hacc]. rewrite lookup_fmap, fmap_is_Some, Hdom.
    rewrite lookup_empty in *. split; [naive_solver|]. intros v Hv. specialize (Hacc v Hv).
    destruct (m0 !! k); cbn in *; rewrite ?accepts_normalize; naive_solver.
Qed.
End domain_laws.

Section compare_laws.
Context `{SemverLaws} `{PredicateJson}.

(** The version of an accepted value lies in the domain's interval. *)
Lemma accepts_interval d i v :
  domain_ok d -> version_interval d = Some i ->
  (forall r, r ∈ versions d -> version_accepts v r = true) <->
  exists ver, value_version v = Some ver /\ version_pre_is_empty ver = true /\
    in_interval i (version_release ver).
Proof.
  intros [_ Hok] Hi. destruct (Hok i Hi) as [Hne Hof]. by apply version_interval_exact.
Qed.

Lemma empty_accepts d v : domain_ok d -> empty d = true -> accepts d v = false.
Proof.
  intros Hok He. apply not_true_iff_false. intros Ha.
  pose proof Ha as (_ & Hf & Hi & Hr)%accepts_iff. unfold empty in He.
  apply orb_true_iff in He as [[He|He]%orb_true_iff|He].
  - destruct (integer d) as [[a b]|]; [|done]. apply bool_decide_eq_true in He.
    destruct (Hi _ _ eq_refl) as (n & _ & ?). lia.
  - destruct (finite d) as [set|]; [|done]. apply bool_decide_eq_true in He as ->.
    specialize (Hf _ eq_refl). set_solver.
  - destruct (version_interval d) as [i|] eqn:Ei; [|done].
    apply (accepts_interval d i v Hok Ei) in Hr as (ver & _ & _ & Hin).
    unfold interval_empty in He. unfold in_interval, in_bounds in Hin; cbn in Hin.
    destruct (upper i) as [u|]; [|done]. apply bool_decide_eq_true in He.
    destruct Hin as [Hlo Hhi]. apply Hhi. by etrans.
Qed.

Lemma forallb_elements (s : gset ScopeValue) f :
  forallb f (elements s) = true <-> forall v, v ∈ s -> f v = true.
Proof.
  rewrite forallb_forall. setoid_rewrite <- list_elem_of_In. by setoid_rewrite elem_of_elements.
Qed.

Lemma interval_subset_spec a b r :
  interval_subset a b = true -> in_interval a r -> in_interval b r.
Proof.
  unfold interval_subset, in_interval, in_bounds; cbn.
  intros [Hlo Hup]%andb_true_iff [Hl Hu]. apply bool_decide_eq_true in Hlo. split; [by etrans|].
  destruct (upper b) as [u|]; [|done]. destruct (upper a) as [w|]; [|done].
  apply bool_decide_eq_true in Hup. intros Hb. apply Hu. by etrans.
Qed.

(** A reported containment holds. *)
Lemma subset_sound d d' v :
  domain_ok d -> domain_ok d' -> subset d d' = Some true ->
  accepts d v = true -> accepts d' v = true.
Proof.
  intros Hok Hok' Hs Ha. unfold subset in Hs.
  destruct (empty d) eqn:He; [by rewrite (empty_accepts d v Hok He) in Ha|].
  pose proof Ha as (Hx & Hf & Hi & Hr)%accepts_iff.
  destruct (finite d) as [set|] eqn:Ef.
  { apply satisfies_bool in Hs. rewrite forallb_elements in Hs. by apply Hs, Hf. }
  case_bool_decide as Hfin; [done|].
  destruct (negb (forallb _ _)) eqn:Eex; [done|]. apply negb_false_iff in Eex.
  rewrite forallb_elements in Eex.
  destruct (match integer d' with Some _ => _ | None => _ end) eqn:Ei; [done|].
  apply accepts_iff. split_and!.
  - intros Hv. specialize (Eex v Hv). by rewrite Ha in Eex.
  - intros set Hset. destruct Hfin. by eexists.
  - intros a b Hab. rewrite Hab in Ei. apply negb_false_iff in Ei.
    destruct (integer d) as [[x y]|] eqn:Exy; [|done].
    destruct (Hi x y eq_refl) as (n & -> & Hn). exists n. split; [done|].
    apply andb_true_iff in Ei as [?%bool_decide_eq_true ?%bool_decide_eq_true]. lia.
  - destruct (bool_decide (versions d' ⊆ versions d)) eqn:Ev; cbn in Hs.
    { apply bool_decide_eq_true in Ev. auto. }
    case_bool_decide; [done|].
    destruct (version_interval d) as [ia|] eqn:Ea; [|done].
    destruct (version_interval d') as [ib|] eqn:Eb; [|done]. apply satisfies_bool in Hs.
    apply (accepts_interval d' ib v Hok' Eb).
    apply (accepts_interval d ia v Hok Ea) in Hr as (ver & ? & ? & ?).
    exists ver. split_and!; eauto using interval_subset_spec.
Qed.

Lemma version_accepts_not_integer n r : version_accepts (SInteger n) r = false.
Proof. unfold version_accepts; cbn. destruct (req_parse r); reflexivity. Qed.

Lemma interval_disjoint_spec a b r :
  interval_disjoint a b = true -> in_interval a r -> in_interval b r -> False.
Proof.
  unfold interval_disjoint, in_interval, in_bounds; cbn. intros Hd [Hla Hua] [Hlb Hub].
  apply orb_true_iff in Hd as [Hd|Hd].
  - destruct (upper a); [|done]. apply bool_decide_eq_true in Hd. apply Hua. by etrans.
  - destruct (upper b); [|done]. apply bool_decide_eq_true in Hd. apply Hub. by etrans.
Qed.

(** No value satisfies both an integer range and a version requirement. *)
Lemma integer_version_conflict v (ab : Z * Z) (rs : gset string) :
  (forall a b, Some ab = Some (a, b) -> exists n, v = SInteger n /\ (a <= n <= b)%Z) ->
  (forall r, r ∈ rs -> version_accepts v r = true) -> bool_decide (rs <> ∅) = false.
Proof.
  intros Hi Hr. apply bool_decide_eq_false. intros [r Hr1]%set_choose_L.
  destruct ab as [a b]. destruct (Hi a b eq_refl) as (n & -> & _).
  specialize (Hr r Hr1). by rewrite version_accepts_not_integer in Hr.
Qed.

(** A reported disjointness holds. *)
Lemma disjoint_sound d d' v :
  domain_ok d -> domain_ok d' -> disjoint d d' = Some true ->
  accepts d v = true -> accepts d' v = false.
Proof.
  intros Hok Hok' Hd Ha. apply not_true_iff_false. intros Ha'. unfold disjoint in Hd.
  destruct (empty d) eqn:He; [by rewrite (empty_accepts d v Hok He) in Ha|].
  destruct (empty d') eqn:He'; [by rewrite (empty_accepts d' v Hok' He') in Ha'|]. cbn in Hd.
  pose proof Ha as (_ & Hf & Hi & Hr)%accepts_iff.
  pose proof Ha' as (_ & Hf' & Hi' & Hr')%accepts_iff.
  destruct (finite d) as [set|] eqn:Ef.
  { apply satisfies_bool in Hd. rewrite forallb_elements in Hd.
    specialize (Hd v (Hf _ eq_refl)). by rewrite Ha' in Hd. }
  destruct (finite d') as [set|] eqn:Ef'.
  { apply satisfies_bool in Hd. rewrite forallb_elements in Hd.
    specialize (Hd v (Hf' _ eq_refl)). by rewrite Ha in Hd. }
  destruct (integer d) as [[a b]|] eqn:Eab, (integer d') as [[x y]|] eqn:Exy.
  { apply satisfies_bool, orb_true_iff in Hd.
    destruct (Hi a b eq_refl) as (n & -> & Hn), (Hi' x y eq_refl) as (n' & [= <-] & Hn').
    destruct Hd as [Hd%bool_decide_eq_true|Hd%bool_decide_eq_true]; lia. }
  all: cbn in Hd.
  - rewrite (integer_version_conflict v _ _ Hi Hr), (integer_version_conflict v _ _ Hi Hr') in Hd.
    done.
  - rewrite (integer_version_conflict v _ _ Hi' Hr), (integer_version_conflict v _ _ Hi' Hr') in Hd.
    done.
  - destruct (_ || _); [|done].
    destruct (version_interval d) as [ia|] eqn:Ea; [|done].
    destruct (version_interval d') as [ib|] eqn:Eb; [|done]. apply satisfies_bool in Hd.
    apply (accepts_interval d ia v Hok Ea) in Hr as (ver & Hv & _ & Hin).
    apply (accepts_interval d' ib v Hok' Eb) in Hr' as (ver' & Hv' & _ & Hin').
    rewrite Hv in Hv'. injection Hv' as <-. by eapply interval_disjoint_spec.
Qed.

(** A scope applies in a context when the evaluator says [Applicable]. *)
Definition applies (s : KnowledgeScope) (ctx : KnowledgeContext) : Prop :=
  status (evaluate s ctx) = ApplicabilityStatus.Applicable.
Definition context_wf (ctx : KnowledgeContext) : Prop :=
  forall k v, values ctx !! k = Some v -> value_wf v.

Lemma outcome_true ctx p k :
  predicate_key p = Some k ->
  outcome ctx p = Some true <-> exists v, values ctx !! k = Some v /\ satisfies p v.
Proof.
  intros Hk. unfold outcome. rewrite Hk; cbn. unfold satisfies.
  destruct (values ctx !! k); cbn; naive_solver.
Qed.

Lemma applies_domains s m ctx :
  domains s = Some m -> context_wf ctx ->
  applies s ctx <->
  forall k d, m !! k = Some d -> exists v, values ctx !! k = Some v /\ accepts d v = true.
Proof.
  intros (Hkeys & _ & Hm)%domains_spec Hctx. unfold applies. rewrite evaluate_applicable. split.
  - intros Hall k d Hd. destruct (Hm k) as [Hdom Hacc].
    destruct (proj1 Hdom) as (p & Hp & Hpk); [by eexists|].
    pose proof (Hall p Hp) as (v & Hv & _)%(outcome_true ctx p k Hpk).
    exists v. split; [done|]. specialize (Hacc v (Hctx k v Hv)).
    rewrite Hd in Hacc; cbn in Hacc. apply Hacc. intros q Hq Hqk.
    pose proof (Hall q Hq) as (v' & Hv' & Hs)%(outcome_true ctx q k Hqk). naive_solver.
  - intros Hall p Hp. destruct (Hkeys p Hp) as [k Hk]. destruct (Hm k) as [Hdom Hacc].
    destruct (proj2 Hdom) as [d Hd]; [eauto|]. destruct (Hall k d Hd) as (v & Hv & Ha).
    apply (outcome_true ctx p k Hk). exists v. split; [done|].
    specialize (Hacc v (Hctx k v Hv)). rewrite Hd in Hacc. by apply Hacc.
Qed.

(** What the loop over the keys has established when it ends. *)
Lemma compare_keys_spec a b ks st :
  match compare_keys a b st ks with
  | None => exists k x y, a !! k = Some x /\ b !! k = Some y /\ disjoint x y = Some true
  | Some st' =>
      (st'.1.1 = Some true -> st.1.1 = Some true /\ forall k y, k ∈ ks -> b !! k = Some y ->
         exists x, a !! k = Some x /\ subset x y = Some true) /\
      (st'.1.2 = Some true -> st.1.2 = Some true /\ forall k x, k ∈ ks -> a !! k = Some x ->
         exists y, b !! k = Some y /\ subset y x = Some true)
  end.
Proof.
  revert st. induction ks as [|k ks IH]; intros [[ab ba] ov]; cbn [compare_keys].
  { cbn. split; (split; [done|set_solver]). }
  assert (Hand : forall o1 o2, and3 o1 o2 = Some true -> o1 = Some true /\ o2 = Some true).
  { intros [[]|] [[]|]; done. }
  unfold compare_key. destruct (a !! k) as [x|] eqn:Ea, (b !! k) as [y|] eqn:Eb.
  - destruct (disjoint x y) as [[]|] eqn:Ed; cbn [mbind option_bind];
      [by exists k, x, y|..];
      (match goal with |- context [compare_keys a b ?s ks] => specialize (IH s) end);
      (destruct (compare_keys a b _ ks); [|done]); cbn in *; destruct IH as [IHa IHb];
      (split; intros Ht; [destruct (IHa Ht) as [[-> Hs]%Hand Hks]|destruct (IHb Ht) as [[-> Hs]%Hand Hks]]);
      (split; [done|]); intros k' z [->|Hk']%elem_of_cons Hz; naive_solver.
  - specialize (IH (ab, Some false, ov)). cbn [mbind option_bind].
    destruct (compare_keys a b _ ks); [|done]. cbn in *. destruct IH as [IHa IHb]. split.
    + intros Ht. destruct (IHa Ht) as [-> Hks]. split; [done|].
      intros k' z [->|Hk']%elem_of_cons Hz; naive_solver.
    + intros Ht. by destruct (IHb Ht).
  - specialize (IH (Some false, ba, ov)). cbn [mbind option_bind].
    destruct (compare_keys a b _ ks); [|done]. cbn in *. destruct IH as [IHa IHb]. split.
    + intros Ht. by destruct (IHa Ht).
    + intros Ht. destruct (IHb Ht) as [-> Hks]. split; [done|].
      intros k' z [->|Hk']%elem_of_cons Hz; naive_solver.
  - specialize (IH (ab, ba, ov)). cbn [mbind option_bind].
    destruct (compare_keys a b _ ks); [|done]. cbn in *. destruct IH as [IHa IHb]. split.
    + intros Ht. destruct (IHa Ht) as [-> Hks]. split; [done|].
      intros k' z [->|Hk']%elem_of_cons Hz; naive_solver.
    + intros Ht. destruct (IHb Ht) as [-> Hks]. split; [done|].
      intros k' z [->|Hk']%elem_of_cons Hz; naive_solver.
Qed.

Definition domains_apply (m : gmap string Domain) (ctx : KnowledgeContext) : Prop :=
  forall k d, m !! k = Some d -> exists v, values ctx !! k = Some v /\ accepts d v = true.

Lemma keys_contained a b ctx :
  (forall k d, a !! k = Some d -> domain_ok d) -> (forall k d, b !! k = Some d -> domain_ok d) ->
  (forall k y, k ∈ btree_set (dom a ∪ dom b) -> b !! k = Some y ->
     exists x, a !! k = Some x /\ subset x y = Some true) ->
  domains_apply a ctx -> domains_apply b ctx.
Proof.
  intros Hoa Hob Hsub Ha k y Hy.
  destruct (Hsub k y) as (x & Hx & Hs); [|done|].
  { apply elem_of_btree_set, elem_of_union_r, elem_of_dom. by eexists. }
  destruct (Ha k x Hx) as (v & Hv & Hacc). exists v. split; [done|].
  by apply (subset_sound x y v (Hoa k x Hx) (Hob k y Hy) Hs).
Qed.

Lemma existsb_empty (m : gmap string Domain) ctx :
  (forall k d, m !! k = Some d -> domain_ok d) ->
  existsb (fun kv => empty kv.2) (map_to_list m) = true -> ~ domains_apply m ctx.
Proof.
  intros Hok ([k d] & Hin & He)%existsb_exists Hm. cbn in He.
  apply list_elem_of_In, elem_of_map_to_list in Hin.
  destruct (Hm k d Hin) as (v & _ & Ha). rewrite (empty_accepts d v (Hok k d Hin) He) in Ha. done.
Qed.

Definition relation_holds (r : ScopeRelation.t) (A B : Prop) : Prop :=
  match r with
  | ScopeRelation.Equal => A <-> B
  | ScopeRelation.Narrower => A -> B
  | ScopeRelation.Broader => B -> A
  | ScopeRelation.Disjoint => ~ (A /\ B)
  | ScopeRelation.Overlapping | ScopeRelation.Unknown => True
  end.

Lemma compare_domains_sound a b ctx :
  (forall k d, a !! k = Some d -> domain_ok d) -> (forall k d, b !! k = Some d -> domain_ok d) ->
  relation_holds (compare_domains a b) (domains_apply a ctx) (domains_apply b ctx).
Proof.
  intros Hoa Hob. unfold compare_domains.
  destruct (existsb _ (map_to_list a)) eqn:Ea; cbn.
  { intros [Ha _]. by apply (existsb_empty a ctx Hoa). }
  destruct (existsb _ (map_to_list b)) eqn:Eb; cbn.
  { intros [_ Hb]. by apply (existsb_empty b ctx Hob). }
  pose proof (compare_keys_spec a b (btree_set (dom a ∪ dom b)) (Some true, Some true, true)) as Hk.
  destruct (compare_keys _ _ _ _) as [[[ab ba] ov]|].
  - destruct Hk as [Hab Hba]. cbn in Hab, Hba.
    assert (Hle : ab = Some true -> domains_apply a ctx -> domains_apply b ctx).
    { intros [_ Hs]%Hab. by apply (keys_contained a b). }
    assert (Hge : ba = Some true -> domains_apply b ctx -> domains_apply a ctx).
    { intros [_ Hs]%Hba. apply (keys_contained b a); [done|done|].
      intros k y. rewrite (union_comm_L (dom b)). apply Hs. }
    destruct ab as [[]|], ba as [[]|], ov; cbn; auto; tauto.
  - destruct Hk as (k & x & y & Hx & Hy & Hd). intros [Ha Hb].
    destruct (Ha k x Hx) as (v & Hv & Hacc), (Hb k y Hy) as (v' & Hv' & Hacc').
    assert (v' = v) as -> by congruence.
    rewrite (disjoint_sound x y v (Hoa k x Hx) (Hob k y Hy) Hd Hacc) in Hacc'. done.
Qed.

Lemma compare_relation a b ctx :
  context_wf ctx -> relation_holds (compare a b) (applies a ctx) (applies b ctx).
Proof.
  intros Hctx. unfold compare.
  destruct (domains a) as [ma|] eqn:Ea; [|done]. destruct (domains b) as [mb|] eqn:Eb; [|done].
  pose proof (applies_domains a ma ctx Ea Hctx) as Ha.
  pose proof (applies_domains b mb ctx Eb Hctx) as Hb.
  assert (Hc : relation_holds (compare_domains ma mb) (domains_apply ma ctx) (domains_apply mb ctx)).
  { apply compare_domains_sound; [by apply (domains_spec a)|by apply (domains_spec b)]. }
  fold (domains_apply ma ctx) in Ha. fold (domains_apply mb ctx) in Hb.
  destruct (compare_domains ma mb); cbn in *; tauto.
Qed.

(** * Symmetry *)

Definition flip_relation (r : ScopeRelation.t) : ScopeRelation.t :=
  match r with
  | ScopeRelation.Narrower => ScopeRelation.Broader
  | ScopeRelation.Broader => ScopeRelation.Narrower
  | r => r
  end.

Lemma finite_disjoint_flip d d' set set' :
  domain_ok d' -> finite d = Some set -> finite d' = Some set' ->
  forallb (fun v => negb (accepts d' v)) (elements set) = true ->
  forallb (fun v => negb (accepts d v)) (elements set') = true.
Proof.
  intros [Hok' _] Hf Hf' Hd. rewrite forallb_elements in *. intros v Hv.
  destruct (accepts d v) eqn:Ha; [|done].
  pose proof Ha as (_ & Hin & _)%accepts_iff. specialize (Hd v (Hin set Hf)).
  by rewrite (Hok' set' v Hf' Hv) in Hd.
Qed.

Lemma interval_disjoint_comm a b : interval_disjoint a b = interval_disjoint b a.
Proof. unfold interval_disjoint. apply orb_comm. Qed.

Lemma disjoint_comm d d' : domain_ok d -> domain_ok d' -> disjoint d d' = disjoint d' d.
Proof.
  intros Hok Hok'. unfold disjoint. rewrite (orb_comm (empty d')). destruct (_ || _); [done|].
  destruct (finite d) as [set|] eqn:Ef, (finite d') as [set'|] eqn:Ef'; [|done|done|].
  { f_equal. apply eq_true_iff_eq.
    split; [by apply (finite_disjoint_flip d d')|by apply (finite_disjoint_flip d' d)]. }
  destruct (integer d) as [[a b]|], (integer d') as [[x y]|]; cbn; rewrite ?orb_false_r.
  - f_equal. apply orb_comm.
  - destruct (bool_decide (versions d' <> ∅)), (bool_decide (versions d <> ∅)); cbn; try done.
    destruct (version_interval d), (version_interval d'); cbn; by rewrite 1?interval_disjoint_comm.
  - destruct (bool_decide (versions d' <> ∅)), (bool_decide (versions d <> ∅)); cbn; try done.
    destruct (version_interval d), (version_interval d'); cbn; by rewrite 1?interval_disjoint_comm.
  - rewrite (orb_comm (bool_decide (versions d' <> ∅))). destruct (_ || _); [|done].
    destruct (version_interval d), (version_interval d'); by rewrite 1?interval_disjoint_comm.
Qed.

Definition swap_state (st : option bool * option bool * bool) : option bool * option bool * bool :=
  (st.1.2, st.1.1, st.2).

Lemma compare_keys_flip a b ks st :
  (forall k d, a !! k = Some d -> domain_ok d) -> (forall k d, b !! k = Some d -> domain_ok d) ->
  compare_keys b a (swap_state st) ks = swap_state <$> compare_keys a b st ks.
Proof.
  intros Ha Hb. revert st. induction ks as [|k ks IH]; intros st; [done|].
  cbn [compare_keys].
  assert (Hk : compare_key b a (swap_state st) k = swap_state <$> compare_key a b st k).
  { destruct st as [[ab ba] ov]. unfold compare_key, swap_state; cbn.
    destruct (a !! k) as [x|] eqn:Ex, (b !! k) as [y|] eqn:Ey; try done.
    rewrite (disjoint_comm y x) by eauto. by destruct (disjoint x y) as [[]|]. }
  rewrite Hk. destruct (compare_key a b st k) as [st'|]; [|done]. cbn. apply IH.
Qed.

(** Comparison is antisymmetric in its arguments: exchanging the scopes
    exchanges narrower with broader and leaves every other verdict as it is. *)
Theorem compare_flip a b : compare b a = flip_relation (compare a b).
Proof.
  unfold compare. destruct (domains a) as [ma|] eqn:Ea, (domains b) as [mb|] eqn:Eb; try done.
  unfold compare_domains. rewrite (orb_comm (existsb _ (map_to_list mb))).
  destruct (_ || _); [done|]. rewrite (union_comm_L (dom mb)).
  change (Some true, Some true, true) with (swap_state (Some true, Some true, true)) at 1.
  destruct (domains_spec a ma Ea) as (_ & Hoa & _), (domains_spec b mb Eb) as (_ & Hob & _).
  rewrite (compare_keys_flip ma mb) by done.
  destruct (compare_keys _ _ _ _) as [[[[[]|] [[]|]] []]|]; done.
Qed.

(** C24. The verdict of [compare] is sound for applicability: whatever context
    the evaluator is given, equal scopes apply together, a narrower scope
    applies only where the broader one does, and disjoint scopes never apply
    together. *)
Theorem compare_sound a b ctx :
  context_wf ctx ->
  (compare a b = ScopeRelation.Equal -> applies a ctx <-> applies b ctx) /\
  (compare a b = ScopeRelation.Narrower -> applies a ctx -> applies b ctx) /\
  (compare a b = ScopeRelation.Broader -> applies b ctx -> applies a ctx) /\
  (compare a b = ScopeRelation.Disjoint -> ~ (applies a ctx /\ applies b ctx)).
Proof.
  intros Hctx. pose proof (compare_relation a b ctx Hctx) as Hr.
  split_and!; intros Hc; rewrite Hc in Hr; exact Hr.
Qed.

(** Version requirements reduce to intervals exactly: when the reduction
    succeeds, a version string matches all the requirements if and only if it
    carries no pre-release and its release lies between the inclusive lower
    and the exclusive upper bound. *)
Theorem version_requirements_interval rs i key text ver :
  rs <> ∅ -> version_interval_of rs = Some i -> version_parse text = Some ver ->
  (forall r, r ∈ rs -> matches (VersionRange key r) (SVersion text) = Some true) <->
  version_pre_is_empty ver = true /\ ord_le (lower i) (version_release ver) /\
  (forall u, upper i = Some u -> ~ ord_le u (version_release ver)).
Proof.
  intros Hne Hi Hver. pose proof (version_interval_exact rs i (SVersion text) Hne Hi) as Hx.
  unfold version_accepts in Hx. setoid_rewrite bool_decide_eq_true in Hx.
  transitivity (forall r, r ∈ rs -> matches (VersionRange "" r) (SVersion text) = Some true); [done|].
  rewrite Hx. cbn. unfold in_interval, in_bounds; cbn. split.
  - intros (ver' & Hv' & ? & ? & Hu). rewrite Hver in Hv'. injection Hv' as <-.
    split_and!; [done|done|]. intros u Hup. by rewrite Hup in Hu.
  - intros (? & ? & Hu). exists ver. split_and!; [done|done|done|].
    destruct (upper i); [by apply Hu|done].
Qed.
End compare_laws.

(** * Witnesses *)

Module ScopeSoundnessExamples.
Import Semver.Sample Scope.ScopeExamples.

Definition api_exact : ScopePredicate (H := json) := VersionRange "api" "=1.4.0".
Definition child_scope : KnowledgeScope := mkScope [provider_x; api_exact].
Definition parent_scope : KnowledgeScope := mkScope [api_range].
Definition old_api : KnowledgeScope (H := json) := mkScope [VersionRange "api" "<1.0.0"].

Example compare_examples :
  compare child_scope parent_scope = ScopeRelation.Narrower /\
  compare old_api parent_scope = ScopeRelation.Disjoint /\
  compare parent_scope parent_scope = ScopeRelation.Equal.
Proof. vm_compute. done. Qed.

Lemma compare_sound_witness :
  applies child_scope sample_context /\ applies parent_scope sample_context.
Proof.
  assert (Hwf : context_wf sample_context); cycle 1.
  { destruct (compare_sound child_scope parent_scope sample_context Hwf) as (_ & Hn & _).
    assert (Hc : applies child_scope sample_context) by (vm_compute; reflexivity).
    split; [exact Hc|]. apply Hn; [vm_compute; reflexivity|exact Hc]. }
  intros k v. unfold sample_context; cbn [values].
  by intros [[<- <-]|[_ [<- <-]%lookup_singleton_Some]]%lookup_insert_Some.
Defined.

Lemma version_requirements_interval_witness :
  matches (H0 := json) (VersionRange "api" "^1.2.3") (SVersion "1.4.0") = Some true.
Proof.
  apply (version_requirements_interval {[ "^1.2.3" ]}
    (mkInterval (mkRelease 1 2 3) (Some (mkRelease 2 0 0))) "api" "1.4.0"
    (mkRelease 1 4 0 : Version (SemverCrate := crate))).
  - apply non_empty_singleton_L.
  - vm_compute. reflexivity.
  - reflexivity.
  - split_and!; [reflexivity|vm_compute; discriminate|].
    intros u [= <-] Hle. vm_compute in Hle. by apply Hle.
  - by apply elem_of_singleton.
Defined.

Lemma compare_flip_witness :
  compare child_scope parent_scope = flip_relation (compare parent_scope child_scope) /\
  compare child_scope parent_scope = ScopeRelation.Narrower.
Proof.
  split; [|vm_compute; reflexivity].
  pose proof (compare_flip parent_scope child_scope) as Hf. exact Hf.
Defined.
End ScopeSoundnessExamples.
