(* ===== verification/Hierarchy.v ===== *)
(** Data of the knowledge hierarchy: src/hierarchy/model.rs and the types it
    borrows from src/abstraction/model.rs, src/epistemic/model.rs and
    src/lesson.rs. Identifiers are their strings ordered bytewise; timestamps
    are integers. *)
From S2P Require Import Prelude Semver Scope.

(** * Borrowed types *)

Module AbstractKnowledgeKind.
Inductive t := AbstractLesson | AbstractSkill | AbstractConstraint | AbstractAntiPattern
  | AbstractRecovery.
#[global] Instance eq_dec : EqDecision t.
Proof. solve_decision. Defined.
End AbstractKnowledgeKind.

Module KnowledgeArtifactKind.
Inductive t := Lesson | Skill | Constraint | AntiPattern | Recovery | CausalMechanism
  | FailureTrajectory | AbstractKnowledge (kind : AbstractKnowledgeKind.t).
#[global] Instance eq_dec : EqDecision t.
Proof. solve_decision. Defined.
End KnowledgeArtifactKind.

Record KnowledgeArtifactRef := mkArtifact {
  artifact_kind : KnowledgeArtifactKind.t;
  artifact_id : string;
  artifact_revision : Z;
}.

Module KnowledgeMaturity.
Inductive t := Candidate | TransferTestable | Supported | Validated | Contradicted
  | Overgeneralized | Stale | Retired.
#[global] Instance eq_dec : EqDecision t.
Proof. solve_decision. Defined.
End KnowledgeMaturity.

(** [AbstractionFreshnessStatus], imported as [FreshnessStatus]. *)
Module FreshnessStatus.
Inductive t := Unknown | Fresh | PartiallyStale | Stale | Contradicted.
#[global] Instance eq_dec : EqDecision t.
Proof. solve_decision. Defined.
End FreshnessStatus.

(** [ExperienceActivationState], imported as [KnowledgeActivationState]. *)
Module KnowledgeActivationState.
Inductive t := Active | Advisory | Quarantined | Disabled.
#[global] Instance eq_dec : EqDecision t.
Proof. solve_decision. Defined.
End KnowledgeActivationState.

Record EvidenceRef := mkEvidence { evidence_kind : string; evidence_id : string }.

Record ContextSelector := mkSelector {
  sel_repository : option string;
  sel_required_markers : list string;
  sel_tags : list string;
  sel_os : option string;
  sel_arch : option string;
}.

Module KnowledgeOrigin.
Inductive t := Local | FederatedAdvisory | CandidateProvider.
End KnowledgeOrigin.

Record KnowledgeProvenance := mkProvenance {
  source_artifacts : list KnowledgeArtifactRef;
  source_contexts : list ContextSelector;
  prov_evidence : list EvidenceRef;
  root_origins : list string;
  prov_origin : KnowledgeOrigin.t;
  prov_generator : string;
  prov_created_at : Z;
}.

(** * The hierarchy *)

Module KnowledgeHierarchyRelation.
Inductive t := Specializes | Refines | Excepts | Supersedes | DependsOn.
#[global] Instance eq_dec : EqDecision t.
Proof. solve_decision. Defined.
Definition discriminant (r : t) : Z :=
  match r with
  | Specializes => 0 | Refines => 1 | Excepts => 2 | Supersedes => 3 | DependsOn => 4
  end.
#[global] Instance relation_ord : Ord t := key_ord discriminant.
#[global] Instance relation_ord_laws : OrdLaws t.
Proof. apply key_ord_laws. by intros [] []. Qed.
End KnowledgeHierarchyRelation.

Record KnowledgeHierarchyEdge := mkEdge {
  edge_id : string;
  edge_parent : string;
  edge_child : string;
  edge_relation : KnowledgeHierarchyRelation.t;
  edge_evidence : list EvidenceRef;
  edge_created_at : Z;
}.

Section hierarchy.
Context `{SerdeJson}.

Record KnowledgeHierarchyNode := mkNode {
  node_id : string;
  node_artifact : KnowledgeArtifactRef;
  node_scope : KnowledgeScope;
  node_maturity : KnowledgeMaturity.t;
  node_freshness : FreshnessStatus.t;
  node_activation : KnowledgeActivationState.t;
  node_provenance : KnowledgeProvenance;
}.

Record KnowledgeHierarchy := mkHierarchy {
  hierarchy_id : string;
  hierarchy_name : string;
  root_nodes : list string;
  nodes : gmap string KnowledgeHierarchyNode;
  edges : list KnowledgeHierarchyEdge;
  hierarchy_revision : Z;
  hierarchy_created_at : Z;
  hierarchy_updated_at : Z;
}.
End hierarchy.

Record KnowledgeResolutionPolicy := mkPolicy {
  minimum_primary_maturity : KnowledgeMaturity.t;
  allow_stale_advisory : bool;
  allow_candidate_advisory : bool;
  stale_exception_can_override : bool;
}.

Definition default_policy : KnowledgeResolutionPolicy :=
  mkPolicy KnowledgeMaturity.Validated true true false.

(** * Results of a resolution *)

Module AppliedKnowledgeRole.
Inductive t := Primary | Refinement | Exception | SupportingContext.
#[global] Instance eq_dec : EqDecision t.
Proof. solve_decision. Defined.
End AppliedKnowledgeRole.

Module SuppressionReason.
Inductive t := ExplicitException | MoreSpecificSpecialization | Superseded | StaleOverride
  | Contradicted | Inactive | Inapplicable.
#[global] Instance eq_dec : EqDecision t.
Proof. solve_decision. Defined.
End SuppressionReason.

Module UnknownKnowledgeReason.
Inductive t := MissingContext | UnsupportedPredicate | IncompleteScopeMatch | FreshnessUnknown
  | EvidenceStateUnknown.
#[global] Instance eq_dec : EqDecision t.
Proof. solve_decision. Defined.
End UnknownKnowledgeReason.

Module KnowledgeConflictKind.
Inductive t := CompetingExceptions | CompetingSpecializations | ContradictoryGuidance
  | AmbiguousSupersession | ScopeOverlap.
#[global] Instance eq_dec : EqDecision t.
Proof. solve_decision. Defined.
End KnowledgeConflictKind.

Module ResolutionAction.
Inductive t := CandidateFound | ScopeMatched | ScopeRejected | ScopeUnknown | LifecycleRejected
  | Applied | AppliedAsRefinement | AppliedAsException | Suppressed | Superseded | ConflictRaised.
#[global] Instance eq_dec : EqDecision t.
Proof. solve_decision. Defined.
End ResolutionAction.

Section effective.
Context `{SerdeJson}.

Record AppliedKnowledge := mkApplied {
  app_artifact : KnowledgeArtifactRef;
  app_node : string;
  app_role : AppliedKnowledgeRole.t;
  app_applicability : KnowledgeApplicability;
  app_lineage : list string;
}.

Record SuppressedKnowledge := mkSuppressed {
  sup_artifact : KnowledgeArtifactRef;
  sup_node : string;
  sup_reason : SuppressionReason.t;
  suppressed_by : option string;
}.

Record UnknownKnowledge := mkUnknown {
  unk_artifact : KnowledgeArtifactRef;
  unk_node : string;
  unk_reason : UnknownKnowledgeReason.t;
}.

Record KnowledgeConflict := mkConflict {
  conf_artifacts : list KnowledgeArtifactRef;
  conf_nodes : list string;
  conf_kind : KnowledgeConflictKind.t;
  conf_reason : string;
}.

Record KnowledgeResolutionStep := mkStep {
  step_sequence : Z;
  step_node : string;
  step_action : ResolutionAction.t;
  step_reason : string;
}.

Record EffectiveKnowledge := mkEffective {
  eff_applied : list AppliedKnowledge;
  eff_advisory : list AppliedKnowledge;
  eff_suppressed : list SuppressedKnowledge;
  eff_unknown : list UnknownKnowledge;
  eff_conflicts : list KnowledgeConflict;
  eff_trace : list KnowledgeResolutionStep;
}.

Definition empty_effective : EffectiveKnowledge := mkEffective [] [] [] [] [] [].
End effective.
