(* ===== verification/Topology.v ===== *)
(** The ordered edge index and the topological traversal of
    src/hierarchy/validation.rs ([KnowledgeHierarchyIndex]). *)
From S2P Require Import Prelude Semver Scope Hierarchy.

(** * The index *)

Definition edge_key (e : KnowledgeHierarchyEdge) :=
  (edge_parent e, (edge_child e, (edge_relation e, edge_id e))).

(** [entry(key).or_default().push(e)]. *)
Definition push_edge (key : KnowledgeHierarchyEdge -> string)
    (m : gmap string (list KnowledgeHierarchyEdge)) (e : KnowledgeHierarchyEdge) :
    gmap string (list KnowledgeHierarchyEdge) :=
  <[key e := default [] (m !! key e) ++ [e]]> m.

Record KnowledgeHierarchyIndex := mkIndex {
  children : gmap string (list KnowledgeHierarchyEdge);
  parents : gmap string (list KnowledgeHierarchyEdge);
}.

Section topology.
Context `{SerdeJson}.
Implicit Types (h : KnowledgeHierarchy) (e : KnowledgeHierarchyEdge).

Definition sorted_edges h : list KnowledgeHierarchyEdge := sort_by_key edge_key (edges h).

(** [KnowledgeHierarchyIndex::new]. *)
Definition index_new h : KnowledgeHierarchyIndex :=
  mkIndex (foldl (push_edge edge_parent) ∅ (sorted_edges h))
          (foldl (push_edge edge_child) ∅ (sorted_edges h)).

Definition children_of (ix : KnowledgeHierarchyIndex) (id : string) : list KnowledgeHierarchyEdge :=
  default [] (children ix !! id).
Definition parents_of (ix : KnowledgeHierarchyIndex) (id : string) : list KnowledgeHierarchyEdge :=
  default [] (parents ix !! id).

Definition contains_node h (id : string) : bool := bool_decide (is_Some (nodes h !! id)).

(** * The traversal *)

Section traversal.
Context (h : KnowledgeHierarchy) (ix : KnowledgeHierarchyIndex).
Context (select : KnowledgeHierarchyRelation.t -> bool).

(** One edge of the counting loop: the child gains a pending predecessor. *)
Definition count_edge (counts : gmap string Z) e : gmap string Z :=
  if select (edge_relation e) && contains_node h (edge_parent e) then
    match counts !! edge_child e with
    | Some n => <[edge_child e := (n + 1)%Z]> counts
    | None => counts
    end
  else counts.

Definition initial_counts : gmap string Z :=
  foldl count_edge ((fun _ => 0%Z) <$> nodes h) (edges h).

Definition initial_ready (counts : gmap string Z) : gset string :=
  dom (filter (fun kv => kv.2 = 0%Z) counts).

(** One outgoing edge of a visited node; [*n -= 1] on [usize] panics at zero. *)
Definition release_edge (st : gmap string Z * gset string) e : run (gmap string Z * gset string) :=
  let '(counts, ready) := st in
  if select (edge_relation e) then
    match counts !! edge_child e with
    | Some n =>
        if decide (n = 0)%Z then Panicked
        else Ret (<[edge_child e := (n - 1)%Z]> counts,
                  if decide (n - 1 = 0)%Z then {[ edge_child e ]} ∪ ready else ready)
    | None => Ret st
    end
  else Ret st.

Fixpoint visit_ready (fuel : nat) (counts : gmap string Z) (ready : gset string)
    (order : list string) : run (list string) :=
  match fuel with
  | 0 => OutOfFuel
  | S fuel =>
      match pop_first ready with
      | None => Ret order
      | Some (id, ready) =>
          st ← run_foldl release_edge (counts, ready) (children_of ix id);
          visit_ready fuel st.1 st.2 (order ++ [id])
      end
  end.

(** [KnowledgeHierarchyIndex::topological]. Every pass of the loop appends a
    new node, so one more pass than there are nodes is enough fuel. *)
Definition topological : run (list string) :=
  visit_ready (S (size (nodes h))) initial_counts (initial_ready initial_counts) [].
End traversal.
End topology.

(** * The index lists the edges of each node *)

Section index_laws.
Context `{SerdeJson}.

Lemma push_edges_lookup key es m id :
  default [] (foldl (push_edge key) m es !! id) =
  default [] (m !! id) ++ List.filter (fun e => bool_decide (key e = id)) es.
Proof.
  revert m. induction es as [|e es IH]; intros m; cbn; [by rewrite app_nil_r|].
  rewrite IH. unfold push_edge. case_bool_decide as Hk.
  - subst id. rewrite lookup_insert_eq; cbn. by rewrite <- app_assoc.
  - by rewrite lookup_insert_ne.
Qed.

Lemma children_of_new h id :
  children_of (index_new h) id = List.filter (fun e => bool_decide (edge_parent e = id)) (sorted_edges h).
Proof. unfold children_of, index_new; cbn. by rewrite push_edges_lookup, lookup_empty. Qed.
Lemma parents_of_new h id :
  parents_of (index_new h) id = List.filter (fun e => bool_decide (edge_child e = id)) (sorted_edges h).
Proof. unfold parents_of, index_new; cbn. by rewrite push_edges_lookup, lookup_empty. Qed.

Lemma sorted_edges_perm (h : KnowledgeHierarchy) : sorted_edges h ≡ₚ edges h.
Proof. apply sort_by_key_perm. Qed.

Lemma elem_of_children h id e :
  e ∈ children_of (index_new h) id <-> e ∈ edges h /\ edge_parent e = id.
Proof.
  rewrite children_of_new, elem_of_list_filter_bool, bool_decide_eq_true, sorted_edges_perm. tauto.
Qed.
Lemma elem_of_parents h id e :
  e ∈ parents_of (index_new h) id <-> e ∈ edges h /\ edge_child e = id.
Proof.
  rewrite parents_of_new, elem_of_list_filter_bool, bool_decide_eq_true, sorted_edges_perm. tauto.
Qed.

Lemma contains_node_iff (h : KnowledgeHierarchy) id : contains_node h id = true <-> is_Some (nodes h !! id).
Proof. unfold contains_node. apply bool_decide_eq_true. Qed.
End index_laws.

(** * The traversal is Kahn's algorithm *)

Section traversal_laws.
Context `{SerdeJson}.
Context (h : KnowledgeHierarchy) (select : KnowledgeHierarchyRelation.t -> bool).
Let ix := index_new h.

(** The selected edges between nodes of the hierarchy. *)
Definition live_edge (e : KnowledgeHierarchyEdge) : bool :=
  select (edge_relation e) && contains_node h (edge_parent e) && contains_node h (edge_child e).

Definition precedes (x y : string) : Prop :=
  exists e, e ∈ edges h /\ live_edge e = true /\ edge_parent e = x /\ edge_child e = y.

(** Number of selected edges into [x] from nodes outside [done]. *)
Definition pending (visited : list string) (x : string) : nat :=
  countb (fun e => live_edge e && bool_decide (edge_child e = x) &&
                   bool_decide (edge_parent e ∉ visited)) (edges h).

(** Number of edges of [es] that lead to [x]. *)
Definition incoming (es : list KnowledgeHierarchyEdge) (x : string) : nat :=
  countb (fun e => live_edge e && bool_decide (edge_child e = x)) es.

#[local] Arguments pending : simpl never.
#[local] Arguments incoming : simpl never.

Lemma pending_nil_cons e es x :
  countb (fun e => live_edge e && bool_decide (edge_child e = x) &&
                   bool_decide (edge_parent e ∉ [])) (e :: es) =
  (if live_edge e && bool_decide (edge_child e = x) then 1 else 0) +
  countb (fun e => live_edge e && bool_decide (edge_child e = x) &&
                   bool_decide (edge_parent e ∉ [])) es.
Proof.
  rewrite countb_cons, (bool_decide_eq_true_2 (edge_parent e ∉ [])) by set_solver.
  by rewrite andb_true_r.
Qed.

Lemma count_edge_dom counts e y :
  is_Some (count_edge h select counts e !! y) <-> is_Some (counts !! y).
Proof.
  unfold count_edge. destruct (_ && _); [|done].
  destruct (counts !! edge_child e) as [n|] eqn:En; [|done].
  rewrite lookup_insert_is_Some'. split; [|tauto]. intros [<-|?]; [by eexists|done].
Qed.

Lemma count_edges_lookup es counts x :
  (forall y, is_Some (counts !! y) <-> contains_node h y = true) ->
  foldl (count_edge h select) counts es !! x =
  (fun n => n + Z.of_nat (countb (fun e => live_edge e && bool_decide (edge_child e = x) &&
     bool_decide (edge_parent e ∉ [])) es))%Z <$> counts !! x.
Proof.
  revert counts. induction es as [|e es IH]; intros c Hc; cbn [foldl].
  { destruct (c !! x); cbn; [|done]. rewrite countb_nil. f_equal; lia. }
  rewrite IH by (intros y; by rewrite count_edge_dom). rewrite pending_nil_cons.
  unfold count_edge, live_edge.
  destruct (select _ && contains_node h (edge_parent e)); cbn; [|done].
  destruct (c !! edge_child e) as [n|] eqn:En.
  - rewrite (proj1 (Hc (edge_child e))) by by eexists. cbn. case_bool_decide as Hx.
    + subst x. rewrite lookup_insert_eq, En; cbn. f_equal; lia.
    + by rewrite lookup_insert_ne.
  - case_bool_decide as Hx; [subst x; by rewrite En|]. by rewrite andb_false_r.
Qed.

Lemma initial_counts_lookup x :
  initial_counts h select !! x =
  if contains_node h x then Some (Z.of_nat (pending [] x)) else None.
Proof.
  unfold initial_counts, pending. rewrite count_edges_lookup.
  - rewrite lookup_fmap. unfold contains_node.
    by destruct (nodes h !! x).
  - intros y. rewrite lookup_fmap, fmap_is_Some. by rewrite contains_node_iff.
Qed.

(** Visiting [id] discounts the edges that leave it. *)
Lemma pending_snoc visited id x : id ∉ visited ->
  pending visited x = pending (visited ++ [id]) x + incoming (children_of ix id) x.
Proof.
  intros Hid. unfold pending, incoming, ix. rewrite children_of_new, countb_filter.
  rewrite (countb_perm _ (sorted_edges h) (edges h)) by apply sorted_edges_perm.
  rewrite countb_plus by (intros e _; repeat case_bool_decide; destruct (live_edge e); set_solver).
  apply countb_ext. intros e _. destruct (live_edge e); cbn; [|by rewrite andb_false_r].
  repeat case_bool_decide; set_solver.
Qed.

Lemma pending_pos visited x :
  0 < pending visited x <-> exists y, precedes y x /\ y ∉ visited.
Proof.
  split.
  - intros Hp. destruct (countb_pos_inv _ _ Hp) as (e & He & Hf).
    apply andb_prop in Hf as [[Hl Hc%bool_decide_eq_true]%andb_prop Hv%bool_decide_eq_true].
    exists (edge_parent e). split; [by exists e|done].
  - intros (y & (e & He & Hl & <- & <-) & Hv). apply (countb_pos _ _ e); [done|].
    rewrite Hl. by rewrite !bool_decide_eq_true_2.
Qed.

(** Every node of the order comes after all its predecessors. *)
Definition predecessors_first (order : list string) : Prop :=
  forall l1 x l2, order = l1 ++ x :: l2 -> forall y, precedes y x -> y ∈ l1.

(** State of the traversal between two visits. *)
Record traversal_inv (counts : gmap string Z) (ready : gset string) (order : list string) := {
  inv_counts : forall x,
    counts !! x = if contains_node h x then Some (Z.of_nat (pending order x)) else None;
  inv_ready : forall x,
    x ∈ ready <-> contains_node h x = true /\ pending order x = 0 /\ x ∉ order;
  inv_nodup : NoDup order;
  inv_nodes : forall x, x ∈ order -> contains_node h x = true;
  inv_before : predecessors_first order;
}.

(** State of the loop over the outgoing edges of [id], [es] being left. *)
Record release_inv (visited : list string) (id : string) (es : list KnowledgeHierarchyEdge)
    (st : gmap string Z * gset string) : Prop := {
  rel_counts : forall x, st.1 !! x =
    if contains_node h x then Some (Z.of_nat (pending (visited ++ [id]) x + incoming es x))
    else None;
  rel_ready : forall x, x ∈ st.2 <->
    contains_node h x = true /\ pending (visited ++ [id]) x + incoming es x = 0 /\
    x ∉ visited ++ [id];
}.

Lemma incoming_cons e es x :
  incoming (e :: es) x =
  (if live_edge e && bool_decide (edge_child e = x) then 1 else 0) + incoming es x.
Proof. unfold incoming. by rewrite countb_cons. Qed.

Lemma release_edge_inv visited id e es st :
  edge_parent e = id -> contains_node h id = true ->
  (forall x, x ∈ visited ++ [id] -> incoming (e :: es) x = 0) ->
  release_inv visited id (e :: es) st ->
  exists st', release_edge select st e = Ret st' /\ release_inv visited id es st'.
Proof.
  intros Hp Hid Hdone [Hc Hr]. destruct st as [counts ready]; cbn in *.
  assert (Hlive : live_edge e = select (edge_relation e) && contains_node h (edge_child e)).
  { unfold live_edge. rewrite Hp, Hid. by rewrite andb_true_r. }
  assert (Hskip : live_edge e = false -> release_inv visited id es (counts, ready)).
  { intros Hl. split; intros x; cbn.
    - rewrite Hc, incoming_cons, Hl. done.
    - rewrite Hr, incoming_cons, Hl. done. }
  destruct (select (edge_relation e)); [|by eexists; split; [done|apply Hskip]].
  rewrite (Hc (edge_child e)). destruct (contains_node h (edge_child e)) eqn:Hn; cbn in Hlive;
    [|by eexists; split; [done|apply Hskip]].
  assert (Hin : forall x, incoming (e :: es) x =
    (if decide (edge_child e = x) then 1 else 0) + incoming es x).
  { intros x. rewrite incoming_cons, Hlive. by repeat case_decide; rewrite ?bool_decide_eq_true_2,
      ?bool_decide_eq_false_2 by done. }
  rewrite Hin, (decide_True (P := edge_child e = edge_child e)) by done.
  rewrite decide_False by lia.
  eexists; split; [done|]. split; intros x; cbn.
  - destruct (decide (edge_child e = x)) as [<-|Hx].
    + rewrite lookup_insert_eq, Hn. f_equal. lia.
    + rewrite lookup_insert_ne, Hc, Hin, decide_False by done. done.
  - destruct (decide (edge_child e = x)) as [<-|Hx].
    + assert (Hnew : edge_child e ∉ visited ++ [id]).
      { intros Hold. specialize (Hdone _ Hold). rewrite Hin, decide_True in Hdone by done. lia. }
      case_decide.
      * split; [|set_solver]. intros _. repeat split; [done|lia|done].
      * rewrite Hr, Hin, decide_True by done. split; [lia|]. lia.
    + assert (Hiff : x ∈ ready <-> x ∈ (if decide (Z.of_nat (pending (visited ++ [id]) (edge_child e) +
          (1 + incoming es (edge_child e))) - 1 = 0)%Z then {[edge_child e]} ∪ ready else ready))
        by (case_decide; set_solver).
      rewrite <- Hiff, Hr, Hin, decide_False by done. done.
Qed.

Lemma release_edges_inv visited id es st :
  Forall (fun e => edge_parent e = id) es -> contains_node h id = true ->
  (forall x, x ∈ visited ++ [id] -> incoming es x = 0) ->
  release_inv visited id es st ->
  exists st', run_foldl (release_edge select) st es = Ret st' /\ release_inv visited id [] st'.
Proof.
  revert st. induction es as [|e es IH]; intros st Hes Hid Hdone Hst; [by exists st|].
  apply Forall_cons in Hes as [He Hes].
  destruct (release_edge_inv _ _ _ _ _ He Hid Hdone Hst) as (st' & Hrun & Hst').
  cbn. rewrite Hrun; cbn. apply IH; [done|done| |done].
  intros x Hx. specialize (Hdone x Hx). rewrite incoming_cons in Hdone. lia.
Qed.

Lemma predecessors_first_snoc order id :
  predecessors_first order -> pending order id = 0 -> predecessors_first (order ++ [id]).
Proof.
  intros Hb Hz l1 x l2 Heq y Hy. destruct l2 as [|z l2 _] using rev_ind.
  - apply app_inj_tail in Heq as [<- <-]. destruct (decide (y ∈ order)); [done|].
    assert (0 < pending order id) by (apply pending_pos; by exists y). lia.
  - rewrite app_comm_cons, app_assoc in Heq. apply app_inj_tail in Heq as [Heq _].
    by eapply Hb.
Qed.

(** One visit. *)
Lemma visit_step counts ready order id ready' :
  traversal_inv counts ready order -> pop_first ready = Some (id, ready') ->
  exists st, run_foldl (release_edge select) (counts, ready') (children_of ix id) = Ret st /\
    traversal_inv st.1 st.2 (order ++ [id]).
Proof.
  intros [Hc Hr Hnd Hn Hb] [Hid ->]%pop_first_Some.
  apply Hr in Hid as (Hnode & Hzero & Hnew).
  assert (Hpend : forall x, pending order x = pending (order ++ [id]) x + incoming (children_of ix id) x)
    by (intros x; by apply pending_snoc).
  destruct (release_edges_inv order id (children_of ix id) (counts, ready ∖ {[id]}))
    as (st & Hrun & [Hc' Hr']); [|done| | |].
  - apply Forall_forall. intros e He. unfold ix in He. by apply elem_of_children in He as [_ ?].
  - intros x [Hx|Hx]%elem_of_app.
    + specialize (Hpend x).
      assert (pending order x = 0); [|lia].
      apply list_elem_of_split in Hx as (l1 & l2 & ->).
      destruct (pending _ x) eqn:Ep; [done|].
      assert (Hp : 0 < pending (l1 ++ x :: l2) x) by lia.
      apply pending_pos in Hp as (y & Hy & Hyn). specialize (Hb _ _ _ eq_refl y Hy). set_solver.
    + apply list_elem_of_singleton in Hx as ->. specialize (Hpend id). lia.
  - split; intros x; cbn; rewrite <- Hpend; [apply Hc|].
    rewrite elem_of_difference, Hr. set_solver.
  - exists st. split; [done|]. split.
    + intros x. rewrite Hc'. unfold incoming; cbn. by rewrite Nat.add_0_r.
    + intros x. rewrite Hr'. unfold incoming; cbn. by rewrite Nat.add_0_r.
    + apply NoDup_app. split; [done|]. split; [set_solver|apply NoDup_singleton].
    + set_solver.
    + by apply predecessors_first_snoc.
Qed.

Lemma visited_bound counts ready order :
  traversal_inv counts ready order -> length order <= size (nodes h).
Proof.
  intros [_ _ Hnd Hn _]. rewrite <- (size_list_to_set (C := gset string) order) by done.
  rewrite <- (size_dom (D := gset string)). apply subseteq_size. intros x Hx%elem_of_list_to_set.
  apply elem_of_dom, contains_node_iff, Hn, Hx.
Qed.

Lemma visit_ready_returns fuel counts ready order :
  traversal_inv counts ready order -> size (nodes h) < fuel + length order ->
  exists counts' order', visit_ready ix select fuel counts ready order = Ret order' /\
    traversal_inv counts' ∅ order'.
Proof.
  revert counts ready order. induction fuel as [|fuel IH]; intros counts ready order Hinv Hfuel.
  { apply visited_bound in Hinv. lia. }
  cbn. destruct (pop_first ready) as [[id ready']|] eqn:Hpop.
  - destruct (visit_step _ _ _ _ _ Hinv Hpop) as (st & -> & Hinv'). cbn.
    apply IH; [done|]. rewrite length_app; cbn. lia.
  - apply pop_first_None in Hpop as ->. by exists counts, order.
Qed.

Lemma initial_inv : traversal_inv (initial_counts h select)
  (initial_ready (initial_counts h select)) [].
Proof.
  split; [intros x; apply initial_counts_lookup| |apply NoDup_nil_2|set_solver|by intros [] ? ? ?].
  intros x. unfold initial_ready. rewrite elem_of_dom.
  unfold is_Some. setoid_rewrite map_lookup_filter_Some. rewrite initial_counts_lookup.
  destruct (contains_node h x).
  - split.
    + intros (n & [= <-] & Hn). cbn in Hn. split; [done|]. split; [lia|set_solver].
    + intros (_ & Hz & _). eexists. split; [done|]. cbn. lia.
  - split; [by intros (n & ? & _)|]. by intros [? _].
Qed.

Lemma topological_returns : exists counts order,
  topological h ix select = Ret order /\ traversal_inv counts ∅ order.
Proof.
  unfold topological. destruct (visit_ready_returns (S (size (nodes h))) _ _ _ initial_inv)
    as (counts & order & Hrun & Hinv); [cbn; lia|]. by exists counts, order.
Qed.

Definition acyclic : Prop := forall x, ~ tc precedes x x.

Lemma precedes_nodes x y : precedes x y -> contains_node h x = true /\ contains_node h y = true.
Proof.
  intros (e & _ & Hl & <- & <-). unfold live_edge in Hl.
  by apply andb_prop in Hl as [[_ ?]%andb_prop ?].
Qed.

Lemma tc_precedes_nodes x y : tc precedes x y -> contains_node h x = true.
Proof. by intros [? ? [? _]%precedes_nodes|? ? ? [? _]%precedes_nodes]. Qed.

Lemma tc_predecessors_first order x y : predecessors_first order -> tc precedes y x ->
  forall l1 l2, order = l1 ++ x :: l2 -> y ∈ l1.
Proof.
  intros Hb. induction 1 as [y x Hyx|y z x Hyz _ IH]; intros l1 l2 Ho; [by eapply Hb|].
  specialize (IH _ _ Ho). apply list_elem_of_split in IH as (a & b & ->).
  rewrite <- app_assoc in Ho; cbn in Ho. specialize (Hb _ _ _ Ho _ Hyz). set_solver.
Qed.

(** A node the traversal misses has a predecessor it misses too. *)
Lemma unvisited_predecessor counts order x :
  traversal_inv counts ∅ order -> contains_node h x = true -> x ∉ order ->
  exists y, precedes y x /\ (y ∉ order) /\ contains_node h y = true.
Proof.
  intros [_ Hr _ _ _] Hx Hn. destruct (decide (pending order x = 0)) as [Hz|Hz].
  - by specialize (proj2 (Hr x) (conj Hx (conj Hz Hn))).
  - assert (0 < pending order x) as (y & Hy & Hyn)%pending_pos by lia.
    exists y. apply precedes_nodes in Hy as Hc. tauto.
Qed.

(** A node none of whose ancestors lies on a cycle is visited. *)
Lemma visits_wellfounded counts order x :
  traversal_inv counts ∅ order -> contains_node h x = true ->
  (forall y, rtc precedes y x -> ~ tc precedes y y) -> x ∈ order.
Proof.
  intros Hinv Hx Hac. destruct (decide (x ∈ order)) as [|Hn]; [done|exfalso].
  set (R := fun a b => precedes b a /\ rtc precedes a x).
  assert (Htc : forall a b, tc R a b -> tc precedes b a /\ rtc precedes a x).
  { induction 1 as [a b [Hab Ha]|a b c [Hab Ha] _ [IH _]]; [by split; [apply tc_once|]|].
    split; [|done]. eapply tc_r; [exact IH|exact Hab]. }
  assert (Hsn : sn R x).
  { apply tc_finite_sn; [intros a Ha%Htc; by eapply Hac, Ha; apply Ha|].
    exists (elements (dom (nodes h))). intros a [Ha _]%Htc. apply elem_of_elements, elem_of_dom.
    apply contains_node_iff. by eapply tc_precedes_nodes. }
  assert (Hxx : rtc precedes x x) by done.
  assert (Hall : forall z, sn R z -> rtc precedes z x -> contains_node h z = true -> z ∉ order -> False).
  { induction 1 as [z _ IH]. intros Hzx Hz Hzn.
    destruct (unvisited_predecessor _ _ _ Hinv Hz Hzn) as (y & Hy & Hyn & Hyc).
    apply (IH y); [by split|by eapply rtc_l|done|done]. }
  by apply (Hall x).
Qed.

Lemma acyclic_visits_all counts order x :
  traversal_inv counts ∅ order -> acyclic -> contains_node h x = true -> x ∈ order.
Proof. intros Hinv Hac Hx. eapply visits_wellfounded; [done|done|]. intros y _. apply Hac. Qed.

Lemma full_order order : NoDup order -> (forall x, x ∈ order -> contains_node h x = true) ->
  length order = size (nodes h) <-> (forall x, contains_node h x = true -> x ∈ order).
Proof.
  intros Hnd Hn. rewrite <- (size_list_to_set (C := gset string) order) by done.
  rewrite <- (size_dom (D := gset string)).
  assert (Hsub : list_to_set (C := gset string) order ⊆ dom (nodes h)).
  { intros x Hx%elem_of_list_to_set. apply elem_of_dom, contains_node_iff, Hn, Hx. }
  split.
  - intros Hs x Hx%contains_node_iff%elem_of_dom.
    apply (elem_of_list_to_set (C := gset string)).
    rewrite (set_subseteq_size_eq _ _ Hsub) by lia. done.
  - intros Hall. f_equal. apply (anti_symm (⊆)); [done|].
    intros x Hx%elem_of_dom%contains_node_iff. apply elem_of_list_to_set. by apply Hall.
Qed.

Lemma topological_spec : exists order,
  topological h ix select = Ret order /\ NoDup order /\
  (forall x, x ∈ order -> contains_node h x = true) /\ predecessors_first order /\
  (length order = size (nodes h) <-> acyclic).
Proof.
  destruct topological_returns as (counts & order & Hrun & Hinv).
  exists order. pose proof Hinv as [_ _ Hnd Hn Hb]. split_and!; [done..|].
  rewrite full_order by done. split; [|by eauto using acyclic_visits_all].
  intros Hall x Hx. pose proof (Hall x (tc_precedes_nodes _ _ Hx)) as Hxo.
  apply list_elem_of_split in Hxo as (l1 & l2 & Ho).
  pose proof (tc_predecessors_first _ _ _ Hb Hx _ _ Ho). subst order.
  apply NoDup_app in Hnd as (_ & Hd & _). set_solver.
Qed.

(** The visited nodes are those with no cycle among their ancestors. *)
Lemma topological_members order : topological h ix select = Ret order ->
  forall x, x ∈ order <->
    contains_node h x = true /\ forall y, rtc precedes y x -> ~ tc precedes y y.
Proof.
  intros Ho. destruct topological_returns as (counts & order' & Ho' & Hinv).
  rewrite Ho in Ho'. injection Ho' as <-. pose proof Hinv as [_ _ Hnd Hn Hb]. intros x.
  split; [|intros []; by eapply visits_wellfounded].
  intros Hx. split; [by apply Hn|]. intros y Hyx Hyy.
  assert (Hy : y ∈ order).
  { clear Hyy. induction Hyx as [|y z x Hyz _ IH]; [done|]. specialize (IH Hx).
    apply list_elem_of_split in IH as (l1 & l2 & Heq). specialize (Hb _ _ _ Heq _ Hyz). set_solver. }
  apply list_elem_of_split in Hy as (l1 & l2 & Heq).
  pose proof (tc_predecessors_first _ _ _ Hb Hyy _ _ Heq). subst order.
  apply NoDup_app in Hnd as (_ & Hd & _). set_solver.
Qed.

(** C3. The traversal always returns: the counters never underflow and the
    loop ends. It visits every node at most once, each after all its selected
    predecessors, and misses exactly the nodes that lie on a cycle or behind
    one; so it visits all nodes if and only if there is no cycle. *)
Theorem topological_order : exists order,
  topological h ix select = Ret order /\ NoDup order /\ predecessors_first order /\
  (forall x, x ∈ order <->
    contains_node h x = true /\ forall y, rtc precedes y x -> ~ tc precedes y y) /\
  (length order = size (nodes h) <-> acyclic).
Proof.
  destruct topological_spec as (order & Ho & Hnd & _ & Hb & Hac). exists order.
  split_and!; [done..|by apply topological_members|done].
Qed.
End traversal_laws.
