(* ===== verification/Validation.v ===== *)
(** Structural validation of src/hierarchy/validation.rs: the report that
    [validate_hierarchy] builds and what a report without errors guarantees. *)
From S2P Require Import Prelude Semver Scope ScopeRelation Hierarchy Topology.

(** * The report *)

Module HierarchyValidationIssueKind.
Inductive t := Cycle | SelfReference | MissingNode | InvalidSpecializationScope
  | InvalidExceptionScope | SupersessionCycle | IncompatibleArtifactKinds | OrphanedReference
  | UnknownScopeRelationship.
#[global] Instance eq_dec : EqDecision t.
Proof. solve_decision. Defined.
End HierarchyValidationIssueKind.
Import HierarchyValidationIssueKind.

Record HierarchyValidationIssue := mkIssue {
  issue_kind : HierarchyValidationIssueKind.t;
  issue_message : string;
  issue_nodes : list string;
}.

(** [valid] is the emptiness of [errors]; it is set last. *)
Record KnowledgeHierarchyValidationReport := mkReport {
  valid : bool;
  errors : list HierarchyValidationIssue;
  warnings : list HierarchyValidationIssue;
}.

(** The closure [issue] of [validate_hierarchy]. *)
Definition issue (r : KnowledgeHierarchyValidationReport) (kind : HierarchyValidationIssueKind.t)
    (message : string) (ns : list string) (warning : bool) : KnowledgeHierarchyValidationReport :=
  let item := mkIssue kind message ns in
  if warning then mkReport (valid r) (errors r) (warnings r ++ [item])
  else mkReport (valid r) (errors r ++ [item]) (warnings r).

Definition concrete (kind : KnowledgeArtifactKind.t) : KnowledgeArtifactKind.t :=
  match kind with
  | KnowledgeArtifactKind.AbstractKnowledge k =>
      match k with
      | AbstractKnowledgeKind.AbstractLesson => KnowledgeArtifactKind.Lesson
      | AbstractKnowledgeKind.AbstractSkill => KnowledgeArtifactKind.Skill
      | AbstractKnowledgeKind.AbstractConstraint => KnowledgeArtifactKind.Constraint
      | AbstractKnowledgeKind.AbstractAntiPattern => KnowledgeArtifactKind.AntiPattern
      | AbstractKnowledgeKind.AbstractRecovery => KnowledgeArtifactKind.Recovery
      end
  | k => k
  end.

#[export] Instance relation_countable : Countable KnowledgeHierarchyRelation.t :=
  inj_countable' KnowledgeHierarchyRelation.discriminant
    (fun z => match z with
     | 0 => KnowledgeHierarchyRelation.Specializes | 1 => KnowledgeHierarchyRelation.Refines
     | 2 => KnowledgeHierarchyRelation.Excepts | 3 => KnowledgeHierarchyRelation.Supersedes
     | _ => KnowledgeHierarchyRelation.DependsOn end%Z) ltac:(by intros []).

(** * The checks *)

Section validation.
Context `{SemverCrate} `{SerdeJson}.
Implicit Types (h : KnowledgeHierarchy) (e : KnowledgeHierarchyEdge).
Implicit Types (r : KnowledgeHierarchyValidationReport).

Definition validate_node r (kn : string * KnowledgeHierarchyNode) :
    KnowledgeHierarchyValidationReport :=
  let '(key, node) := kn in
  let r := if decide (key = node_id node) then r
           else issue r OrphanedReference "Node map key differs from node identity"
                  [key; node_id node] false in
  if decide (artifact_id (node_artifact node) = "") then
    issue r OrphanedReference "Artifact requires identity and positive revision" [key] false
  else if decide (artifact_revision (node_artifact node) = 0%Z) then
    issue r OrphanedReference "Artifact requires identity and positive revision" [key] false
  else r.

Definition validate_root h (st : KnowledgeHierarchyValidationReport * gset string) (root : string) :
    KnowledgeHierarchyValidationReport * gset string :=
  let '(r, roots) := st in
  let r := if contains_node h root then r
           else issue r MissingNode "Root not found" [root] false in
  let r := if decide (root ∈ roots)
           then issue r OrphanedReference "Duplicate root" [root] false else r in
  (r, {[root]} ∪ roots).

(** The scope checks of an edge whose endpoints exist, by relation. *)
Definition validate_scopes r e (parent child : KnowledgeHierarchyNode) :
    KnowledgeHierarchyValidationReport :=
  let ids := [edge_parent e; edge_child e] in
  let relation := compare (node_scope child) (node_scope parent) in
  match edge_relation e, relation with
  | KnowledgeHierarchyRelation.Specializes,
    (ScopeRelation.Broader | ScopeRelation.Disjoint | ScopeRelation.Overlapping) =>
      issue r InvalidSpecializationScope "Specialization must be contained in parent scope" ids false
  | KnowledgeHierarchyRelation.Excepts,
    (ScopeRelation.Disjoint | ScopeRelation.Broader | ScopeRelation.Overlapping) =>
      issue r InvalidExceptionScope "Exception must be contained in parent scope" ids false
  | _, ScopeRelation.Unknown =>
      issue r UnknownScopeRelationship "Cannot prove scope relationship; edge cannot override" ids true
  | KnowledgeHierarchyRelation.Supersedes, ScopeRelation.Disjoint =>
      issue r UnknownScopeRelationship "Supersession scopes do not overlap" ids true
  | _, _ => r
  end.

(** The edge identities and relationships met so far. *)
Definition EdgeSets : Type :=
  gset string * gset (string * (string * KnowledgeHierarchyRelation.t)).

(** [!edge_ids.insert(id) || !relations.insert(..)]: the relationship is not
    recorded when the identity is a duplicate. *)
Definition insert_edge (seen : EdgeSets) e : bool * EdgeSets :=
  let '(ids, relations) := seen in
  let key := (edge_parent e, (edge_child e, edge_relation e)) in
  if decide (edge_id e ∈ ids) then (true, (ids, relations))
  else (bool_decide (key ∈ relations), ({[edge_id e]} ∪ ids, {[key]} ∪ relations)).

Definition validate_edge h (st : KnowledgeHierarchyValidationReport * EdgeSets) e :
    KnowledgeHierarchyValidationReport * EdgeSets :=
  let '(r, seen) := st in
  let ids := [edge_parent e; edge_child e] in
  let '(duplicate, seen) := insert_edge seen e in
  let r := if (duplicate : bool)
           then issue r OrphanedReference "Duplicate edge identity or relationship" ids false else r in
  let r := if decide (edge_parent e = edge_child e)
           then issue r SelfReference "Self relationship is invalid" ids false else r in
  match nodes h !! edge_parent e, nodes h !! edge_child e with
  | Some parent, Some child =>
      if decide (edge_relation e = KnowledgeHierarchyRelation.DependsOn) then (r, seen) else
      let r := if decide (concrete (artifact_kind (node_artifact parent)) =
                          concrete (artifact_kind (node_artifact child))) then r
               else issue r IncompatibleArtifactKinds
                      "Cross-kind precedence is not modeled; use DependsOn" ids false in
      (validate_scopes r e parent child, seen)
  | _, _ => (issue r MissingNode "Edge endpoint not found" ids false, seen)
  end.

Definition not_depends_on (rel : KnowledgeHierarchyRelation.t) : bool :=
  bool_decide (rel <> KnowledgeHierarchyRelation.DependsOn).
Definition is_supersedes (rel : KnowledgeHierarchyRelation.t) : bool :=
  bool_decide (rel = KnowledgeHierarchyRelation.Supersedes).
Definition is_depends_on (rel : KnowledgeHierarchyRelation.t) : bool :=
  bool_decide (rel = KnowledgeHierarchyRelation.DependsOn).

(** A node has an incoming precedence edge exactly when it is not a root. *)
Definition validate_root_status (ix : KnowledgeHierarchyIndex) (roots : gset string) r
    (id : string) : KnowledgeHierarchyValidationReport :=
  let has_incoming := existsb (fun e => not_depends_on (edge_relation e)) (parents_of ix id) in
  if Bool.eqb has_incoming (bool_decide (id ∈ roots)) then
    issue r OrphanedReference
      "Roots must exactly identify nodes without incoming precedence edges" [id] false
  else r.

Definition validate_cycles h (ix : KnowledgeHierarchyIndex) r
    (check : HierarchyValidationIssueKind.t * (KnowledgeHierarchyRelation.t -> bool)) :
    run KnowledgeHierarchyValidationReport :=
  let '(kind, select) := check in
  order ← topological h ix select;
  if decide (length order = size (nodes h)) then Ret r else
  Ret (issue r kind "Cycle in precedence graph"
         (List.filter (fun id => bool_decide (id ∉ order)) (btree_keys (nodes h))) false).

Definition cycle_checks : list (HierarchyValidationIssueKind.t * (KnowledgeHierarchyRelation.t -> bool)) :=
  [(SupersessionCycle, is_supersedes); (Cycle, not_depends_on)].

(** The edges in the order of [index.children.values()]. *)
Definition indexed_edges (ix : KnowledgeHierarchyIndex) : list KnowledgeHierarchyEdge :=
  concat (snd <$> btree_map (children ix)).

Definition validate_hierarchy h : run KnowledgeHierarchyValidationReport :=
  let ix := index_new h in
  let r := foldl validate_node (mkReport true [] []) (btree_map (nodes h)) in
  let '(r, roots) := foldl (validate_root h) (r, ∅) (root_nodes h) in
  let '(r, _) := foldl (validate_edge h) (r, (∅, ∅)) (indexed_edges ix) in
  let r := foldl (validate_root_status ix roots) r (btree_keys (nodes h)) in
  r ← run_foldl (validate_cycles h ix) r cycle_checks;
  health ← topological h ix is_depends_on;
  let r := if decide (length health = size (nodes h)) then r else
           issue r Cycle "Cyclic health dependencies are not independently supported" [] true in
  Ret (mkReport (bool_decide (errors r = [])) (errors r) (warnings r)).
End validation.

(** * Errors accumulate *)

Section accumulation.
Context `{SemverCrate} `{SerdeJson}.
Implicit Types (h : KnowledgeHierarchy) (e : KnowledgeHierarchyEdge).
Implicit Types (r : KnowledgeHierarchyValidationReport).

Lemma issue_error r kind message ns : errors (issue r kind message ns false) = [] <-> False.
Proof. cbn. split; [|done]. by intros [_ ?]%app_eq_nil. Qed.
Lemma issue_warning r kind message ns :
  errors (issue r kind message ns true) = [] <-> errors r = [].
Proof. done. Qed.

(** A check that adds an error exactly when [P] fails. *)
Lemma foldl_errors {A} (f : KnowledgeHierarchyValidationReport -> A -> _) (P : A -> Prop) r l :
  (forall r x, errors (f r x) = [] <-> errors r = [] /\ P x) ->
  errors (foldl f r l) = [] <-> errors r = [] /\ Forall P l.
Proof.
  intros Hf. revert r. induction l as [|x l IH]; intros r; cbn; [rewrite Forall_nil; tauto|].
  rewrite IH, Hf, Forall_cons. tauto.
Qed.

Ltac issue_cases :=
  repeat case_decide; rewrite ?issue_error, ?issue_warning; naive_solver.

Definition node_ok (kn : string * KnowledgeHierarchyNode) : Prop :=
  kn.1 = node_id kn.2 /\ artifact_id (node_artifact kn.2) <> "" /\
  artifact_revision (node_artifact kn.2) <> 0%Z.

Lemma validate_node_errors r kn :
  errors (validate_node r kn) = [] <-> errors r = [] /\ node_ok kn.
Proof. destruct kn as [key node]. unfold validate_node, node_ok; cbn -[issue]. issue_cases. Qed.

Lemma validate_roots_errors h l r roots :
  let '(r', roots') := foldl (validate_root h) (r, roots) l in
  roots' = list_to_set l ∪ roots /\
  (errors r' = [] <->
   errors r = [] /\ Forall (fun id => contains_node h id = true) l /\ NoDup l /\
   Forall (fun id => id ∉ roots) l).
Proof.
  revert r roots. induction l as [|x l IH]; intros r roots; cbn -[issue].
  { split; [set_solver|]. rewrite !Forall_nil. pose proof (NoDup_nil_2 (A := string)). tauto. }
  match goal with |- context [foldl _ (?r1, ?roots1) l] => specialize (IH r1 roots1); set (r' := r1) in * end.
  destruct (foldl _ _ l) as [r'' roots'']. destruct IH as [-> IH].
  split; [set_solver|]. rewrite IH, !Forall_cons, NoDup_cons.
  assert (Hr : errors r' = [] <-> errors r = [] /\ contains_node h x = true /\ x ∉ roots).
  { subst r'. destruct (contains_node h x); issue_cases. }
  rewrite Hr. rewrite !Forall_forall. set_solver.
Qed.

(** What the scope checks demand of a precedence edge. *)
Definition scopes_ok e (parent child : KnowledgeHierarchyNode) : Prop :=
  edge_relation e = KnowledgeHierarchyRelation.Specializes \/
  edge_relation e = KnowledgeHierarchyRelation.Excepts ->
  compare (node_scope child) (node_scope parent) ∈
    [ScopeRelation.Equal; ScopeRelation.Narrower; ScopeRelation.Unknown].

Lemma validate_scopes_errors r e parent child :
  errors (validate_scopes r e parent child) = [] <-> errors r = [] /\ scopes_ok e parent child.
Proof.
  unfold validate_scopes, scopes_ok.
  destruct (edge_relation e), (compare _ _);
    rewrite ?issue_error, ?issue_warning; set_solver.
Qed.

Definition edge_ok h e : Prop :=
  edge_parent e <> edge_child e /\
  exists parent child, nodes h !! edge_parent e = Some parent /\
    nodes h !! edge_child e = Some child /\
    (edge_relation e <> KnowledgeHierarchyRelation.DependsOn ->
     concrete (artifact_kind (node_artifact parent)) =
     concrete (artifact_kind (node_artifact child)) /\ scopes_ok e parent child).

Definition relation_key e : string * (string * KnowledgeHierarchyRelation.t) :=
  (edge_parent e, (edge_child e, edge_relation e)).

Lemma validate_edge_errors h r ids rels e :
  let '(r', seen') := validate_edge h (r, (ids, rels)) e in
  (errors r' = [] <-> errors r = [] /\ (edge_id e ∉ ids) /\ (relation_key e ∉ rels) /\ edge_ok h e) /\
  (errors r' = [] -> seen' = ({[edge_id e]} ∪ ids, {[relation_key e]} ∪ rels)).
Proof.
  unfold validate_edge, insert_edge, edge_ok. fold (relation_key e).
  destruct (decide (edge_id e ∈ ids)) as [Hid|Hid].
  { destruct (nodes h !! edge_parent e), (nodes h !! edge_child e);
      repeat case_decide; rewrite ?validate_scopes_errors, ?issue_error; naive_solver. }
  case_bool_decide as Hrel;
    destruct (nodes h !! edge_parent e) as [parent|], (nodes h !! edge_child e) as [child|];
    repeat case_decide; rewrite ?validate_scopes_errors, ?issue_error; naive_solver.
Qed.

Lemma validate_edges_errors h es r ids rels :
  errors (foldl (validate_edge h) (r, (ids, rels)) es).1 = [] <->
  errors r = [] /\ Forall (edge_ok h) es /\ NoDup (edge_id <$> es) /\ NoDup (relation_key <$> es) /\
  Forall (fun e => edge_id e ∉ ids) es /\ Forall (fun e => relation_key e ∉ rels) es.
Proof.
  revert r ids rels. induction es as [|e es IH]; intros r ids rels; cbn [foldl].
  { cbn. rewrite !Forall_nil. pose proof (NoDup_nil_2 (A := string)). intuition apply NoDup_nil_2. }
  pose proof (validate_edge_errors h r ids rels e) as He.
  destruct (validate_edge h (r, (ids, rels)) e) as [r' [ids' rels']]. destruct He as [He Hseen].
  rewrite IH, He, !Forall_cons, !fmap_cons, !NoDup_cons.
  assert (Hs : errors r' = [] ->
    (Forall (fun e => edge_id e ∉ ids') es <->
     Forall (fun e => edge_id e ∉ ids) es /\ (edge_id e ∉ edge_id <$> es)) /\
    (Forall (fun e => relation_key e ∉ rels') es <->
     Forall (fun e => relation_key e ∉ rels) es /\ (relation_key e ∉ relation_key <$> es))).
  { intros Hr. specialize (Hseen Hr). injection Hseen as -> ->. by rewrite !Forall_fresh. }
  rewrite He in Hs. tauto.
Qed.

Lemma not_depends_on_iff rel :
  not_depends_on rel = true <-> rel <> KnowledgeHierarchyRelation.DependsOn.
Proof. apply bool_decide_eq_true. Qed.

Lemma validate_root_status_errors ix roots r id :
  errors (validate_root_status ix roots r id) = [] <->
  errors r = [] /\ (id ∈ roots <->
    ~ exists e, e ∈ parents_of ix id /\ edge_relation e <> KnowledgeHierarchyRelation.DependsOn).
Proof.
  unfold validate_root_status.
  assert (Hin : existsb (fun e => not_depends_on (edge_relation e)) (parents_of ix id) = true <->
    exists e, e ∈ parents_of ix id /\ edge_relation e <> KnowledgeHierarchyRelation.DependsOn).
  { rewrite existsb_exists. setoid_rewrite <- list_elem_of_In.
    by setoid_rewrite not_depends_on_iff. }
  rewrite <- Hin. destruct (existsb _ _); case_bool_decide; cbn -[issue];
    rewrite ?issue_error; intuition congruence.
Qed.

Lemma validate_cycles_errors h ix kind select r : ix = index_new h ->
  exists r', validate_cycles h ix r (kind, select) = Ret r' /\
    (errors r' = [] <-> errors r = [] /\ acyclic h select).
Proof.
  intros ->. destruct (topological_spec h select) as (order & Ho & _ & _ & _ & Hac).
  unfold validate_cycles. rewrite Ho; cbn -[issue].
  case_decide; (eexists; split; [done|]); rewrite ?issue_error; tauto.
Qed.

(** * The indexed edges are the edges *)

Lemma push_edge_perm key (m : gmap string (list KnowledgeHierarchyEdge)) e :
  concat (snd <$> map_to_list (push_edge key m e)) ≡ₚ concat (snd <$> map_to_list m) ++ [e].
Proof.
  unfold push_edge. destruct (m !! key e) as [l|] eqn:El; cbn.
  - rewrite <- (insert_delete_eq m), map_to_list_insert by by rewrite lookup_delete_eq.
    rewrite <- (map_to_list_delete m _ _ El); cbn.
    rewrite <- !app_assoc. apply Permutation_app_head, Permutation_app_comm.
  - rewrite map_to_list_insert by done. cbn. apply Permutation_cons_append.
Qed.

Lemma push_edges_perm key es m :
  concat (snd <$> map_to_list (foldl (push_edge key) m es)) ≡ₚ concat (snd <$> map_to_list m) ++ es.
Proof.
  revert m. induction es as [|e es IH]; intros m; cbn; [by rewrite app_nil_r|].
  rewrite IH, push_edge_perm. by rewrite <- app_assoc.
Qed.

Lemma indexed_edges_perm h : indexed_edges (index_new h) ≡ₚ edges h.
Proof.
  unfold indexed_edges, index_new; cbn.
  assert (Hc : forall (l l' : list (string * list KnowledgeHierarchyEdge)),
    l ≡ₚ l' -> concat (snd <$> l) ≡ₚ concat (snd <$> l')) by (intros l l' ->; done).
  rewrite (Hc _ _ (btree_map_perm _)), push_edges_perm, map_to_list_empty; cbn.
  apply sorted_edges_perm.
Qed.
End accumulation.

(** * A report without errors *)

(** What a valid hierarchy guarantees; each field is one check. *)
Record hierarchy_wf `{SemverCrate} `{SerdeJson} (h : KnowledgeHierarchy) : Prop := {
  wf_nodes : forall key node, nodes h !! key = Some node -> node_ok (key, node);
  wf_roots_nodup : NoDup (root_nodes h);
  wf_roots_nodes : forall id, id ∈ root_nodes h -> contains_node h id = true;
  wf_edges : forall e, e ∈ edges h -> edge_ok h e;
  wf_edge_ids : NoDup (edge_id <$> edges h);
  wf_relations : NoDup (relation_key <$> edges h);
  (** The roots are the nodes without incoming precedence edge. *)
  wf_roots : forall id, contains_node h id = true ->
    id ∈ root_nodes h <->
    ~ exists e, e ∈ edges h /\ edge_child e = id /\
                edge_relation e <> KnowledgeHierarchyRelation.DependsOn;
  wf_acyclic : acyclic h not_depends_on;
}.

Section wellformed.
Context `{SemverCrate} `{SerdeJson}.
Implicit Types (h : KnowledgeHierarchy).

Lemma tc_precedes_mono h (s1 s2 : KnowledgeHierarchyRelation.t -> bool) x y :
  (forall rel, s1 rel = true -> s2 rel = true) ->
  tc (precedes h s1) x y -> tc (precedes h s2) x y.
Proof.
  intros Hs. assert (Hp : forall a b, precedes h s1 a b -> precedes h s2 a b).
  { intros a b (e & He & Hl & Ha & Hb). exists e. split_and!; [done| |done|done].
    unfold live_edge in *. apply andb_prop in Hl as [[Hl Hpa]%andb_prop Hch].
    by rewrite (Hs _ Hl), Hpa, Hch. }
  induction 1; eauto using tc_once, tc_l.
Qed.

(** Supersession cycles are precedence cycles. *)
Lemma acyclic_supersedes h : acyclic h not_depends_on -> acyclic h is_supersedes.
Proof.
  intros Hac x Hx. apply (Hac x). revert Hx. apply tc_precedes_mono.
  intros []; cbn; done.
Qed.

(** Well-formedness as the lists the checks visit. *)
Lemma root_status_wf h : let ix := index_new h in
  Forall (fun id => id ∈ list_to_set (C := gset string) (root_nodes h) ∪ ∅ <->
    ~ exists e, e ∈ parents_of ix id /\ edge_relation e <> KnowledgeHierarchyRelation.DependsOn)
    (btree_keys (nodes h)) <->
  forall id, contains_node h id = true ->
    id ∈ root_nodes h <->
    ~ exists e, e ∈ edges h /\ edge_child e = id /\
                edge_relation e <> KnowledgeHierarchyRelation.DependsOn.
Proof.
  intros ix. rewrite Forall_forall.
  assert (Hex : forall id,
    (exists e, e ∈ parents_of ix id /\ edge_relation e <> KnowledgeHierarchyRelation.DependsOn) <->
    (exists e, e ∈ edges h /\ edge_child e = id /\
                edge_relation e <> KnowledgeHierarchyRelation.DependsOn)).
  { intros id. unfold ix. setoid_rewrite elem_of_parents. naive_solver. }
  setoid_rewrite Hex. setoid_rewrite elem_of_btree_keys. setoid_rewrite contains_node_iff.
  setoid_rewrite elem_of_union. setoid_rewrite elem_of_list_to_set. set_solver.
Qed.

Lemma hierarchy_wf_checks h : let ix := index_new h in
  acyclic h not_depends_on ->
  hierarchy_wf h <->
  Forall node_ok (btree_map (nodes h)) /\
  (Forall (fun id => contains_node h id = true) (root_nodes h) /\ NoDup (root_nodes h)) /\
  (Forall (edge_ok h) (indexed_edges ix) /\ NoDup (edge_id <$> indexed_edges ix) /\
   NoDup (relation_key <$> indexed_edges ix)) /\
  Forall (fun id => id ∈ list_to_set (C := gset string) (root_nodes h) ∪ ∅ <->
    ~ exists e, e ∈ parents_of ix id /\ edge_relation e <> KnowledgeHierarchyRelation.DependsOn)
    (btree_keys (nodes h)).
Proof.
  intros ix Hac. unfold ix at 4. rewrite root_status_wf. unfold ix.
  pose proof (indexed_edges_perm h) as Hp. rewrite (Forall_forall (edge_ok h)).
  assert (He : (forall e, e ∈ indexed_edges (index_new h) -> edge_ok h e) <->
               forall e, e ∈ edges h -> edge_ok h e) by (by setoid_rewrite Hp).
  assert (Hi : NoDup (edge_id <$> indexed_edges (index_new h)) <-> NoDup (edge_id <$> edges h))
    by (by rewrite Hp).
  assert (Hk : NoDup (relation_key <$> indexed_edges (index_new h)) <->
               NoDup (relation_key <$> edges h)) by (by rewrite Hp).
  rewrite He, Hi, Hk, (Forall_forall node_ok), (Forall_forall (fun id => contains_node h id = true)).
  clear He Hi Hk Hp.
  assert (Hn : (forall x, x ∈ btree_map (nodes h) -> node_ok x) <->
               forall key node, nodes h !! key = Some node -> node_ok (key, node)).
  { split; [intros Hx key node Hk; by apply Hx, elem_of_btree_map|].
    intros Hx [key node] Hk%elem_of_btree_map. by apply Hx. }
  rewrite Hn. split; [by intros []|]. intros (? & (? & ?) & (? & ? & ?) & ?). by split.
Qed.

(** The checks before the traversals. *)
Lemma validate_static_errors h : 
  let ix := index_new h in
  let r := foldl validate_node (mkReport true [] []) (btree_map (nodes h)) in
  let '(r, roots) := foldl (validate_root h) (r, ∅) (root_nodes h) in
  let '(r, _) := foldl (validate_edge h) (r, (∅, ∅)) (indexed_edges ix) in
  let r := foldl (validate_root_status ix roots) r (btree_keys (nodes h)) in
  acyclic h not_depends_on ->
  errors r = [] <-> hierarchy_wf h.
Proof.
  intros ix r. pose proof (foldl_errors _ _ (mkReport true [] []) (btree_map (nodes h))
    validate_node_errors) as Hnodes. fold r in Hnodes.
  pose proof (validate_roots_errors h (root_nodes h) r ∅) as Hroots.
  destruct (foldl (validate_root h) _ _) as [r1 roots]. destruct Hroots as [-> Hroots].
  pose proof (validate_edges_errors h (indexed_edges ix) r1 ∅ ∅) as Hedges.
  destruct (foldl (validate_edge h) _ _) as [r2 seen]. cbn [fst] in Hedges. cbv zeta.
  intros Hac. rewrite (foldl_errors _ _ _ _ (validate_root_status_errors ix _)).
  rewrite (hierarchy_wf_checks h Hac), Hedges, Hroots, Hnodes.
  assert (Hfresh : forall {A K} `{Countable K} (f : A -> K) l, Forall (fun x => f x ∉ (∅ : gset K)) l).
  { intros. apply Forall_forall. set_solver. }
  pose proof (Hfresh _ _ _ _ id (root_nodes h)). pose proof (Hfresh _ _ _ _ edge_id (indexed_edges ix)).
  pose proof (Hfresh _ _ _ _ relation_key (indexed_edges ix)). cbn in *. tauto.
Qed.

Lemma validate_hierarchy_spec h : exists r,
  validate_hierarchy h = Ret r /\ (valid r = true <-> hierarchy_wf h).
Proof.
  pose proof (validate_static_errors h) as Hst. cbv zeta in Hst. unfold validate_hierarchy.
  destruct (foldl (validate_root h) _ _) as [r1 roots].
  destruct (foldl (validate_edge h) _ _) as [r2 seen].
  set (r3 := foldl _ r2 _) in *. cbn [run_foldl cycle_checks].
  destruct (validate_cycles_errors h _ SupersessionCycle is_supersedes r3 eq_refl) as (r4 & -> & H4).
  cbn [mbind run_bind].
  destruct (validate_cycles_errors h _ Cycle not_depends_on r4 eq_refl) as (r5 & -> & H5).
  destruct (topological_spec h is_depends_on) as (health & Hh & _). cbn [mbind run_bind].
  rewrite Hh. eexists. split; [done|]. cbn [valid]. rewrite bool_decide_eq_true.
  assert (He : errors (if decide (length health = size (nodes h)) then r5 else
    issue r5 Cycle "Cyclic health dependencies are not independently supported" [] true) = errors r5)
    by (by case_decide).
  rewrite He, H5, H4. split.
  - intros [[Hr _] Hac]. by apply Hst.
  - intros Hwf. pose proof (wf_acyclic h Hwf) as Hac. pose proof (acyclic_supersedes h Hac).
    by rewrite Hst.
Qed.

(** C15. Validation always returns (no arithmetic panic, every loop ends), and
    its verdict is exact: a hierarchy is valid if and only if its node keys are
    the node identities, every artifact has an identity and a revision, edge
    identities and relationships are unique, every edge joins two distinct
    nodes, a precedence edge joins artifacts of one concrete kind,
    specializations and exceptions are not known to leave their parent's scope,
    the roots are exactly the nodes without incoming precedence edge, each
    listed once, and the precedence graph has no cycle. *)
Theorem validate_hierarchy_correct h : exists r,
  validate_hierarchy h = Ret r /\ (valid r = true <-> hierarchy_wf h).
Proof. apply validate_hierarchy_spec. Qed.
End wellformed.
