(* ===== verification/Resolution.v ===== *)
(** Knowledge resolution (src/hierarchy/resolution.rs): which nodes of a valid
    hierarchy govern a context, which only advise, and why the others do not. *)
From S2P Require Import Prelude Semver Scope ScopeRelation Hierarchy Topology Validation.

(** * Texts *)

Definition quote : string := String (Ascii.ascii_of_nat 34) EmptyString.
(** [{:?}] of [Option<KnowledgeNodeId>]. Identifiers are a prefix and a UUID,
    so their debug form needs no escape. *)
Definition debug_by (by_ : option string) : string :=
  match by_ with
  | None => "None"
  | Some id => "Some(KnowledgeNodeId(" +:+ quote +:+ id +:+ quote +:+ "))"
  end.
Definition debug_suppression (r : SuppressionReason.t) : string :=
  match r with
  | SuppressionReason.ExplicitException => "ExplicitException"
  | SuppressionReason.MoreSpecificSpecialization => "MoreSpecificSpecialization"
  | SuppressionReason.Superseded => "Superseded"
  | SuppressionReason.StaleOverride => "StaleOverride"
  | SuppressionReason.Contradicted => "Contradicted"
  | SuppressionReason.Inactive => "Inactive"
  | SuppressionReason.Inapplicable => "Inapplicable"
  end.
Definition debug_unknown (r : UnknownKnowledgeReason.t) : string :=
  match r with
  | UnknownKnowledgeReason.MissingContext => "MissingContext"
  | UnknownKnowledgeReason.UnsupportedPredicate => "UnsupportedPredicate"
  | UnknownKnowledgeReason.IncompleteScopeMatch => "IncompleteScopeMatch"
  | UnknownKnowledgeReason.FreshnessUnknown => "FreshnessUnknown"
  | UnknownKnowledgeReason.EvidenceStateUnknown => "EvidenceStateUnknown"
  end.
Definition debug_role (r : AppliedKnowledgeRole.t) : string :=
  match r with
  | AppliedKnowledgeRole.Primary => "Primary"
  | AppliedKnowledgeRole.Refinement => "Refinement"
  | AppliedKnowledgeRole.Exception => "Exception"
  | AppliedKnowledgeRole.SupportingContext => "SupportingContext"
  end.
Definition debug_relation (r : KnowledgeHierarchyRelation.t) : string :=
  match r with
  | KnowledgeHierarchyRelation.Specializes => "Specializes"
  | KnowledgeHierarchyRelation.Refines => "Refines"
  | KnowledgeHierarchyRelation.Excepts => "Excepts"
  | KnowledgeHierarchyRelation.Supersedes => "Supersedes"
  | KnowledgeHierarchyRelation.DependsOn => "DependsOn"
  end.

Definition maturity_rank (m : KnowledgeMaturity.t) : option Z :=
  match m with
  | KnowledgeMaturity.Candidate => Some 0
  | KnowledgeMaturity.TransferTestable => Some 1
  | KnowledgeMaturity.Supported => Some 2
  | KnowledgeMaturity.Validated => Some 3
  | _ => None
  end%Z.

(** [serde_json::to_string] of a report, for the message of the error. *)
Class ReportJson := report_to_string : KnowledgeHierarchyValidationReport -> result string.

Section output.
Context `{SerdeJson}.
Implicit Types (out : EffectiveKnowledge) (n : KnowledgeHierarchyNode).

Definition step out (id : string) (action : ResolutionAction.t) (reason : string) :
    EffectiveKnowledge :=
  let sequence := (Z.of_nat (length (eff_trace out)) + 1)%Z in
  mkEffective (eff_applied out) (eff_advisory out) (eff_suppressed out) (eff_unknown out)
    (eff_conflicts out) (eff_trace out ++ [mkStep sequence id action reason]).

Definition push_applied out (a : AppliedKnowledge) : EffectiveKnowledge :=
  mkEffective (eff_applied out ++ [a]) (eff_advisory out) (eff_suppressed out) (eff_unknown out)
    (eff_conflicts out) (eff_trace out).
Definition push_advisory out (a : AppliedKnowledge) : EffectiveKnowledge :=
  mkEffective (eff_applied out) (eff_advisory out ++ [a]) (eff_suppressed out) (eff_unknown out)
    (eff_conflicts out) (eff_trace out).
Definition push_suppressed out (s : SuppressedKnowledge) : EffectiveKnowledge :=
  mkEffective (eff_applied out) (eff_advisory out) (eff_suppressed out ++ [s]) (eff_unknown out)
    (eff_conflicts out) (eff_trace out).
Definition push_unknown out (u : UnknownKnowledge) : EffectiveKnowledge :=
  mkEffective (eff_applied out) (eff_advisory out) (eff_suppressed out) (eff_unknown out ++ [u])
    (eff_conflicts out) (eff_trace out).
Definition push_conflict out (c : KnowledgeConflict) : EffectiveKnowledge :=
  mkEffective (eff_applied out) (eff_advisory out) (eff_suppressed out) (eff_unknown out)
    (eff_conflicts out ++ [c]) (eff_trace out).

Definition suppress out n (reason : SuppressionReason.t) (by_ : option string) :
    EffectiveKnowledge :=
  push_suppressed
    (step out (node_id n)
       (if decide (reason = SuppressionReason.Superseded) then ResolutionAction.Superseded
        else ResolutionAction.Suppressed)
       (debug_suppression reason +:+ "; suppressor=" +:+ debug_by by_))
    (mkSuppressed (node_artifact n) (node_id n) reason by_).

Definition mark_unknown out n (reason : UnknownKnowledgeReason.t) : EffectiveKnowledge :=
  push_unknown
    (step out (node_id n) ResolutionAction.LifecycleRejected
       (debug_unknown reason +:+ "; cannot override known guidance"))
    (mkUnknown (node_artifact n) (node_id n) reason).

Definition applied n (a : KnowledgeApplicability) (role : AppliedKnowledgeRole.t)
    (lineage : list string) : AppliedKnowledge :=
  mkApplied (node_artifact n) (node_id n) role a lineage.
End output.

(** * Applicability and lifecycle *)

Section classification.
Context `{SemverCrate} `{PredicateJson}.
Implicit Types (out : EffectiveKnowledge) (n : KnowledgeHierarchyNode).

Definition is_custom (p : ScopePredicate) : bool :=
  match p with Custom _ _ => true | _ => false end.

Definition unknown_reason (a : KnowledgeApplicability) : UnknownKnowledgeReason.t :=
  if existsb is_custom (Scope.unknown a) then UnknownKnowledgeReason.UnsupportedPredicate
  else match matched a with
    | _ :: _ => UnknownKnowledgeReason.IncompleteScopeMatch
    | [] => UnknownKnowledgeReason.MissingContext
    end.

Definition is_fresh n : bool :=
  bool_decide (node_freshness n = FreshnessStatus.Fresh) &&
  bool_decide (node_maturity n <> KnowledgeMaturity.Stale).
Definition is_mature (threshold : Z) n : bool :=
  match maturity_rank (node_maturity n) with
  | Some rank => bool_decide (threshold <= rank)%Z
  | None => false
  end.
Definition is_supported n : bool :=
  match prov_evidence (node_provenance n) with [] => false | _ => true end.

(** An applicable node that is not eligible for precedence. *)
Definition demote (policy : KnowledgeResolutionPolicy) (threshold : Z) out n
    (a : KnowledgeApplicability) : EffectiveKnowledge :=
  if negb (is_supported n) then mark_unknown out n UnknownKnowledgeReason.EvidenceStateUnknown
  else if (is_fresh n || allow_stale_advisory policy) &&
          (is_mature threshold n || allow_candidate_advisory policy ||
           bool_decide (node_maturity n = KnowledgeMaturity.Stale)) then
    push_advisory out (applied n a AppliedKnowledgeRole.SupportingContext [])
  else suppress out n
         (if is_fresh n then SuppressionReason.Inactive else SuppressionReason.StaleOverride) None.

(** An applicable node by its lifecycle; the flag says it became eligible. *)
Definition classify_applicable (policy : KnowledgeResolutionPolicy) (threshold : Z) out
    (id : string) n (a : KnowledgeApplicability) : EffectiveKnowledge * bool :=
  if bool_decide (node_freshness n = FreshnessStatus.Contradicted) ||
     bool_decide (node_maturity n = KnowledgeMaturity.Contradicted) then
    (suppress out n SuppressionReason.Contradicted None, false)
  else if bool_decide (node_activation n = KnowledgeActivationState.Disabled) ||
          bool_decide (node_activation n = KnowledgeActivationState.Quarantined) ||
          bool_decide (node_maturity n = KnowledgeMaturity.Retired) ||
          bool_decide (node_maturity n = KnowledgeMaturity.Overgeneralized) then
    (suppress out n SuppressionReason.Inactive None, false)
  else if bool_decide (node_freshness n = FreshnessStatus.Unknown) then
    (mark_unknown out n UnknownKnowledgeReason.FreshnessUnknown, false)
  else if bool_decide (node_activation n = KnowledgeActivationState.Active) &&
          is_fresh n && is_mature threshold n && is_supported n then
    (step out id ResolutionAction.ScopeMatched
       "Active, fresh, sufficiently mature, evidence-backed, non-contradicted", true)
  else
    (demote policy threshold
       (step out id ResolutionAction.LifecycleRejected "Not eligible for authoritative precedence")
       n a, false).

(** The node loop: applicability first, lifecycle next. *)
Definition classify (context : KnowledgeContext) (policy : KnowledgeResolutionPolicy)
    (threshold : Z) (st : EffectiveKnowledge * gmap string KnowledgeApplicability * gset string)
    (kn : string * KnowledgeHierarchyNode) :
    EffectiveKnowledge * gmap string KnowledgeApplicability * gset string :=
  let '(out, scopes, eligible) := st in
  let '(id, n) := kn in
  let out := step out id ResolutionAction.CandidateFound
    ("Candidate " +:+ artifact_id (node_artifact n) +:+ " revision " +:+
     pretty (artifact_revision (node_artifact n))) in
  let a := evaluate (node_scope n) context in
  let scopes := <[id := a]> scopes in
  match status a with
  | ApplicabilityStatus.Inapplicable =>
      let out := step out id ResolutionAction.ScopeRejected
        "At least one required predicate failed" in
      (suppress out n SuppressionReason.Inapplicable None, scopes, eligible)
  | ApplicabilityStatus.Unknown | ApplicabilityStatus.PartiallyKnown =>
      let out := step out id ResolutionAction.ScopeUnknown
        "Incomplete applicability cannot override known parent guidance" in
      (push_unknown out (mkUnknown (node_artifact n) id (unknown_reason a)), scopes, eligible)
  | ApplicabilityStatus.Applicable =>
      let out := step out id ResolutionAction.ScopeMatched "All required predicates matched" in
      let '(out, ok) := classify_applicable policy threshold out id n a in
      (out, scopes, if (ok : bool) then {[id]} ∪ eligible else eligible)
  end.
End classification.

(** * Dependency health *)

Section precedence.
Context `{SemverCrate} `{PredicateJson} `{!ReportJson}.
Context (h : KnowledgeHierarchy) (ix : KnowledgeHierarchyIndex).
Implicit Types (out : EffectiveKnowledge) (e : KnowledgeHierarchyEdge).

(** [h.nodes[id]]. *)
Definition node_at (id : string) : run KnowledgeHierarchyNode := index_or_panic (nodes h !! id).

(** The propagation of missing health along the dependency edges. *)
Fixpoint health_loop (fuel : nat) out (eligible unhealthy : gset string) (queue : list string) :
    run (EffectiveKnowledge * gset string) :=
  match fuel with
  | 0 => OutOfFuel
  | S fuel =>
      match queue with
      | [] => Ret (out, eligible)
      | id :: queue =>
          if decide (id ∈ unhealthy) then health_loop fuel out eligible unhealthy queue else
          let dependents :=
            edge_child <$> List.filter (fun e => is_depends_on (edge_relation e)) (children_of ix id) in
          if decide (id ∈ eligible) then
            n ← node_at id;
            health_loop fuel (mark_unknown out n UnknownKnowledgeReason.EvidenceStateUnknown)
              (eligible ∖ {[id]}) ({[id]} ∪ unhealthy) (queue ++ dependents)
          else health_loop fuel out eligible ({[id]} ∪ unhealthy) (queue ++ dependents)
      end
  end.

(** The unhealthy seeds: ineligible nodes and nodes on or behind a cycle. *)
Definition health_seeds (eligible : gset string) (health_order : list string) : list string :=
  List.filter (fun id => negb (bool_decide (id ∈ eligible)) || negb (bool_decide (id ∈ health_order)))
    (btree_keys (nodes h)).

(** Every pass takes one entry of the queue, which receives every node and
    every edge at most once. *)
Definition health_fuel : nat := S (size (nodes h) + length (edges h)).

Definition propagate_health out (eligible : gset string) : run (EffectiveKnowledge * gset string) :=
  health_order ← topological h ix is_depends_on;
  health_loop health_fuel out eligible ∅ (health_seeds eligible health_order).

(** * Precedence *)

(** Only proven, evidence-backed relationships can change precedence. *)
Definition usable e : run bool :=
  if decide (edge_relation e = KnowledgeHierarchyRelation.DependsOn) then Ret false
  else if decide (edge_evidence e = []) then Ret false
  else
    child ← node_at (edge_child e);
    parent ← node_at (edge_parent e);
    let relation := compare (node_scope child) (node_scope parent) in
    Ret match edge_relation e with
      | KnowledgeHierarchyRelation.Specializes | KnowledgeHierarchyRelation.Excepts =>
          bool_decide (relation = ScopeRelation.Equal) || bool_decide (relation = ScopeRelation.Narrower)
      | _ =>
          negb (bool_decide (relation = ScopeRelation.Unknown) ||
                bool_decide (relation = ScopeRelation.Disjoint))
      end.

(** [.filter(cond).filter(usable).collect()]. *)
Definition usable_edges (parent : string) (cond : KnowledgeHierarchyEdge -> bool) :
    run (list KnowledgeHierarchyEdge) :=
  run_filter (fun e => if cond e then usable e else Ret false) (children_of ix parent).

(** Evidence of the resolution so far. *)
Record Precedence := mkPrecedence {
  p_out : EffectiveKnowledge;
  p_eligible : gset string;
  p_roles : gmap string AppliedKnowledgeRole.t;
  p_conflicted : gset string;
}.

Definition conflict_kind (rel : KnowledgeHierarchyRelation.t) : KnowledgeConflictKind.t :=
  match rel with
  | KnowledgeHierarchyRelation.Supersedes => KnowledgeConflictKind.AmbiguousSupersession
  | KnowledgeHierarchyRelation.Excepts => KnowledgeConflictKind.CompetingExceptions
  | _ => KnowledgeConflictKind.CompetingSpecializations
  end.

(** A competing sibling is conflicted and becomes supporting context. *)
Definition mark_conflicted (st : Precedence) (id : string) : Precedence :=
  mkPrecedence
    (step (p_out st) id ResolutionAction.ConflictRaised
       "Competing applicable siblings; parent retained and no arbitrary winner")
    (p_eligible st)
    (<[id := AppliedKnowledgeRole.SupportingContext]> (p_roles st))
    ({[id]} ∪ p_conflicted st).

Definition discover_parent (rel : KnowledgeHierarchyRelation.t) (st : Precedence)
    (parent : string) : run Precedence :=
  if negb (bool_decide (parent ∈ p_eligible st)) then Ret st else
  siblings ← usable_edges parent (fun e =>
    bool_decide (edge_relation e = rel) && bool_decide (edge_child e ∈ p_eligible st));
  if decide (length siblings <= 1) then Ret st else
  let ids := edge_child <$> siblings in
  let st := foldl mark_conflicted st ids in
  ns ← run_map node_at ids;
  let conflict := mkConflict (node_artifact <$> ns) ids (conflict_kind rel)
    ("Multiple eligible " +:+ debug_relation rel +:+ " children of " +:+ parent +:+
     "; explicit precedence required") in
  Ret (mkPrecedence (push_conflict (p_out st) conflict) (p_eligible st) (p_roles st)
         (p_conflicted st)).

Definition conflict_relations (rel : KnowledgeHierarchyRelation.t) :
    list KnowledgeHierarchyRelation.t :=
  match rel with
  | KnowledgeHierarchyRelation.Supersedes => [KnowledgeHierarchyRelation.Supersedes]
  | KnowledgeHierarchyRelation.Excepts =>
      [KnowledgeHierarchyRelation.Excepts; KnowledgeHierarchyRelation.Specializes]
  | _ => []
  end.

Definition discover (order : list string) (st : Precedence) (rel : KnowledgeHierarchyRelation.t) :
    run Precedence :=
  run_foldl (discover_parent rel) st order.

(** One winning edge below [parent] in the phase of [rel]. *)
Definition apply_edge (rel : KnowledgeHierarchyRelation.t) (parent : string)
    (st : Precedence * gmap string string) e : run (Precedence * gmap string string) :=
  let '(p, replacements) := st in
  match rel with
  | KnowledgeHierarchyRelation.Supersedes | KnowledgeHierarchyRelation.Excepts =>
      let suppressor := default (edge_child e) (replacements !! edge_child e) in
      n ← node_at parent;
      let reason := if decide (rel = KnowledgeHierarchyRelation.Supersedes)
                    then SuppressionReason.Superseded else SuppressionReason.ExplicitException in
      let roles := if decide (rel = KnowledgeHierarchyRelation.Excepts)
                   then <[edge_child e := AppliedKnowledgeRole.Exception]> (p_roles p)
                   else p_roles p in
      Ret (mkPrecedence (suppress (p_out p) n reason (Some suppressor))
             (p_eligible p ∖ {[parent]}) roles (p_conflicted p),
           <[parent := suppressor]> replacements)
  | KnowledgeHierarchyRelation.Specializes =>
      Ret (mkPrecedence (p_out p) (p_eligible p)
             (<[parent := AppliedKnowledgeRole.SupportingContext]> (p_roles p)) (p_conflicted p),
           replacements)
  | KnowledgeHierarchyRelation.Refines =>
      role ← index_or_panic (p_roles p !! edge_child e);
      if decide (role = AppliedKnowledgeRole.Primary) then
        Ret (mkPrecedence (p_out p) (p_eligible p)
               (<[edge_child e := AppliedKnowledgeRole.Refinement]> (p_roles p)) (p_conflicted p),
             replacements)
      else Ret st
  | KnowledgeHierarchyRelation.DependsOn => Ret st
  end.

(** The edges that win below a parent: unambiguous children that are eligible,
    or were so at the start of a supersession phase and have been replaced. *)
Definition winning (rel : KnowledgeHierarchyRelation.t) (phase_eligible : gset string)
    (p : Precedence) (replacements : gmap string string) e : bool :=
  bool_decide (edge_relation e = rel) &&
  negb (bool_decide (edge_child e ∈ p_conflicted p)) &&
  (bool_decide (edge_child e ∈ p_eligible p) ||
   (bool_decide (rel = KnowledgeHierarchyRelation.Supersedes) &&
    bool_decide (edge_child e ∈ phase_eligible) &&
    bool_decide (is_Some (replacements !! edge_child e)))).

Definition apply_parent (rel : KnowledgeHierarchyRelation.t) (phase_eligible : gset string)
    (st : Precedence * gmap string string) (parent : string) :
    run (Precedence * gmap string string) :=
  let '(p, replacements) := st in
  if negb (bool_decide (parent ∈ p_eligible p)) then Ret st else
  es ← usable_edges parent (winning rel phase_eligible p replacements);
  run_foldl (apply_edge rel parent) st es.

(** One phase: discover the conflicts, then apply the winners in reverse
    topological order. *)
Definition phase (order : list string) (st : Precedence) (rel : KnowledgeHierarchyRelation.t) :
    run Precedence :=
  st ← run_foldl (discover order) st (conflict_relations rel);
  res ← run_foldl (apply_parent rel (p_eligible st)) (st, ∅) (rev order);
  Ret res.1.

Definition phases : list KnowledgeHierarchyRelation.t :=
  [KnowledgeHierarchyRelation.Supersedes; KnowledgeHierarchyRelation.Excepts;
   KnowledgeHierarchyRelation.Specializes; KnowledgeHierarchyRelation.Refines].

(** * Output *)

(** The precedence edges into a node. *)
Definition lineage_parents (id : string) : list string :=
  edge_parent <$> List.filter (fun e => not_depends_on (edge_relation e)) (parents_of ix id).

(** [ancestors.insert(p)] and, if new, [pending.push(p)]; the stack's top is
    the head of the list. *)
Definition lineage_push (st : gset string * list string) (p : string) : gset string * list string :=
  if decide (p ∈ st.1) then st else ({[p]} ∪ st.1, p :: st.2).

Fixpoint lineage_loop (fuel : nat) (ancestors : gset string) (pending : list string) :
    run (gset string) :=
  match fuel with
  | 0 => OutOfFuel
  | S fuel =>
      match pending with
      | [] => Ret ancestors
      | current :: pending =>
          let '(ancestors, pending) :=
            foldl lineage_push (ancestors, pending) (lineage_parents current) in
          lineage_loop fuel ancestors pending
      end
  end.

(** The first pass takes the node itself, every other pass a new ancestor. *)
Definition lineage (id : string) : run (list string) :=
  ancestors ← lineage_loop (S (S (length (edges h)))) ∅ [id];
  Ret (btree_set ancestors).

Definition applied_action (role : AppliedKnowledgeRole.t) : ResolutionAction.t :=
  match role with
  | AppliedKnowledgeRole.Refinement => ResolutionAction.AppliedAsRefinement
  | AppliedKnowledgeRole.Exception => ResolutionAction.AppliedAsException
  | _ => ResolutionAction.Applied
  end.

Definition materialize (scopes : gmap string KnowledgeApplicability)
    (roles : gmap string AppliedKnowledgeRole.t) out (id : string) : run EffectiveKnowledge :=
  ancestors ← lineage id;
  role ← index_or_panic (roles !! id);
  let out := step out id (applied_action role) ("Final role: " +:+ debug_role role) in
  n ← node_at id;
  a ← index_or_panic (scopes !! id);
  Ret (push_applied out (applied n a role ancestors)).

Definition sort_output out : EffectiveKnowledge :=
  mkEffective (eff_applied out) (sort_by_key app_node (eff_advisory out))
    (sort_by_key sup_node (eff_suppressed out)) (sort_by_key unk_node (eff_unknown out))
    (eff_conflicts out) (eff_trace out).
End precedence.

Section resolve.
Context `{SemverCrate} `{PredicateJson} `{!ReportJson}.

(** The part of [resolve] after its guards. *)
Definition resolve_valid (h : KnowledgeHierarchy) (context : KnowledgeContext)
    (policy : KnowledgeResolutionPolicy) (threshold : Z) : run EffectiveKnowledge :=
  let ix := index_new h in
  order ← topological h ix not_depends_on;
  let '(out, scopes, eligible) :=
    foldl (classify context policy threshold) (empty_effective, ∅, ∅) (btree_map (nodes h)) in
  healthy ← propagate_health h ix out eligible;
  let '(out, eligible) := healthy in
  let roles := gset_to_gmap AppliedKnowledgeRole.Primary eligible in
  st ← run_foldl (phase h ix order) (mkPrecedence out eligible roles ∅) phases;
  out ← run_foldl (materialize h ix scopes (p_roles st)) (p_out st) (btree_set (p_eligible st));
  Ret (sort_output out).

(** [DeterministicKnowledgeResolver::resolve]. *)
Definition resolve (h : KnowledgeHierarchy) (context : KnowledgeContext)
    (policy : KnowledgeResolutionPolicy) : run (result EffectiveKnowledge) :=
  validation ← validate_hierarchy h;
  if negb (valid validation) then
    Ret (text ← report_to_string validation;
         Err (InvalidInput ("Invalid knowledge hierarchy: " +:+ text)))
  else match maturity_rank (minimum_primary_maturity policy) with
    | None => Ret (Err (InvalidInput "Minimum maturity must be a support stage, not a terminal state"))
    | Some threshold =>
        if stale_exception_can_override policy then
          Ret (Err (InvalidInput "Stale exception overrides are prohibited in Pass 1"))
        else out ← resolve_valid h context policy threshold; Ret (Ok out)
    end.
End resolve.
