(* ===== verification/ResolutionState.v ===== *)
(** Lemmas on the operations of Resolution.v, one group per stage: the output
    bookkeeping, the classification of the nodes and the dependency health. *)
From S2P Require Import Prelude Semver Scope ScopeRelation Hierarchy Topology Validation Resolution.

(** * Bookkeeping *)

Section bookkeeping.
Context `{SerdeJson}.
Implicit Types (out : EffectiveKnowledge) (n : KnowledgeHierarchyNode).

(** The nodes an output accounts for, one occurrence per entry. *)
Definition accounted out : list string :=
  (app_node <$> eff_applied out) ++ (app_node <$> eff_advisory out) ++
  (sup_node <$> eff_suppressed out) ++ (unk_node <$> eff_unknown out).

(** The trace is numbered from one without gaps. *)
Definition trace_numbered out : Prop :=
  step_sequence <$> eff_trace out = Z.of_nat <$> seq 1 (length (eff_trace out)).

Lemma accounted_step out id a r : accounted (step out id a r) = accounted out.
Proof. done. Qed.
Ltac accounted_push :=
  unfold accounted; cbn; rewrite fmap_app; cbn;
  repeat (rewrite <- app_assoc; cbn); by rewrite <- ?Permutation_middle, ?app_nil_r.

Lemma accounted_push_applied out a : accounted (push_applied out a) ≡ₚ app_node a :: accounted out.
Proof. accounted_push. Qed.
Lemma accounted_push_advisory out a : accounted (push_advisory out a) ≡ₚ app_node a :: accounted out.
Proof. accounted_push. Qed.
Lemma accounted_push_suppressed out s :
  accounted (push_suppressed out s) ≡ₚ sup_node s :: accounted out.
Proof. accounted_push. Qed.
Lemma accounted_push_unknown out u : accounted (push_unknown out u) ≡ₚ unk_node u :: accounted out.
Proof. accounted_push. Qed.
Lemma accounted_push_conflict out c : accounted (push_conflict out c) = accounted out.
Proof. done. Qed.
Lemma accounted_suppress out n r b : accounted (suppress out n r b) ≡ₚ node_id n :: accounted out.
Proof. unfold suppress. by rewrite accounted_push_suppressed. Qed.
Lemma accounted_mark_unknown out n r : accounted (mark_unknown out n r) ≡ₚ node_id n :: accounted out.
Proof. unfold mark_unknown. by rewrite accounted_push_unknown. Qed.

Lemma trace_numbered_step out id a r : trace_numbered out -> trace_numbered (step out id a r).
Proof.
  unfold trace_numbered, step; cbn. intros Ht.
  rewrite length_app, fmap_app, Ht; cbn. rewrite Nat.add_1_r, seq_S, fmap_app; cbn.
  do 2 f_equal. lia.
Qed.
Lemma trace_numbered_suppress out n r b : trace_numbered out -> trace_numbered (suppress out n r b).
Proof. apply trace_numbered_step. Qed.
Lemma trace_numbered_mark_unknown out n r : trace_numbered out -> trace_numbered (mark_unknown out n r).
Proof. apply trace_numbered_step. Qed.
End bookkeeping.

Create HintDb resolution.
#[export] Hint Resolve trace_numbered_step trace_numbered_suppress trace_numbered_mark_unknown : resolution.

(** * Classification *)

Section classification_laws.
Context `{SemverCrate} `{PredicateJson}.
Context (context : KnowledgeContext) (policy : KnowledgeResolutionPolicy) (threshold : Z).
Implicit Types (out : EffectiveKnowledge) (n : KnowledgeHierarchyNode).

(** The nodes that may take precedence: applicable in the context, active,
    fresh, mature enough, backed by evidence. *)
Definition authoritative n : Prop :=
  status (evaluate (node_scope n) context) = ApplicabilityStatus.Applicable /\
  node_activation n = KnowledgeActivationState.Active /\
  node_freshness n = FreshnessStatus.Fresh /\
  (exists rank, maturity_rank (node_maturity n) = Some rank /\ (threshold <= rank)%Z) /\
  prov_evidence (node_provenance n) <> [].

Lemma is_mature_iff n : is_mature threshold n = true <->
  exists rank, maturity_rank (node_maturity n) = Some rank /\ (threshold <= rank)%Z.
Proof.
  unfold is_mature. destruct (maturity_rank _) as [rank|].
  - rewrite bool_decide_eq_true. naive_solver.
  - naive_solver.
Qed.
Lemma is_supported_iff n : is_supported n = true <-> prov_evidence (node_provenance n) <> [].
Proof. unfold is_supported. by destruct (prov_evidence _). Qed.

(** The lifecycle test of an applicable node is exactly [authoritative]. *)
Lemma classify_applicable_authoritative out id n a :
  status (evaluate (node_scope n) context) = ApplicabilityStatus.Applicable ->
  (classify_applicable policy threshold out id n a).2 = true <-> authoritative n.
Proof.
  intros Ha. unfold classify_applicable, authoritative.
  rewrite <- is_mature_iff, <- is_supported_iff. split.
  - destruct (_ || _); [done|]. destruct (_ || _); [done|]. destruct (bool_decide _); [done|].
    destruct (_ && _) eqn:Ht; [|done]. intros _. unfold is_fresh in Ht.
    rewrite !andb_true_iff, !bool_decide_eq_true in Ht. tauto.
  - intros (_ & Hact & Hf & Hm & Hs). unfold is_fresh. rewrite Hact, Hf, Hm, Hs; cbn.
    apply is_mature_iff in Hm as (rank & Hm & _). by destruct (node_maturity n).
Qed.

(** Out of authority, a node is filed once, under its identity. *)
Lemma classify_applicable_accounted out id n a :
  let '(out', ok) := classify_applicable policy threshold out id n a in
  accounted out' ≡ₚ if (ok : bool) then accounted out else node_id n :: accounted out.
Proof.
  unfold classify_applicable, demote.
  repeat match goal with |- context [if ?b then _ else _] => destruct b end;
    rewrite ?accounted_suppress, ?accounted_mark_unknown, ?accounted_push_advisory; done.
Qed.
Lemma classify_applicable_trace out id n a :
  trace_numbered out -> trace_numbered (classify_applicable policy threshold out id n a).1.
Proof.
  intros Ht. unfold classify_applicable, demote, push_advisory.
  repeat match goal with |- context [if ?b then _ else _] => destruct b end; cbn;
    eauto with resolution.
  all: exact (trace_numbered_step _ _ _ _ Ht).
Qed.

(** Nothing is suppressed by another node before precedence is resolved. *)
Definition no_precedence out : Prop :=
  eff_applied out = [] /\ eff_conflicts out = [] /\
  Forall (fun s => suppressed_by s = None) (eff_suppressed out).

Lemma no_precedence_suppress out n r : no_precedence out -> no_precedence (suppress out n r None).
Proof.
  intros (? & ? & ?). split_and!; [done..|]. cbn. apply Forall_app. split; [done|].
  by apply Forall_singleton.
Qed.
Lemma classify_applicable_no_precedence out id n a :
  no_precedence out -> no_precedence (classify_applicable policy threshold out id n a).1.
Proof.
  intros Ht. unfold classify_applicable, demote.
  repeat match goal with |- context [if ?b then _ else _] => destruct b end; cbn;
    by try apply no_precedence_suppress.
Qed.

(** State of the node loop after the nodes [done_]. *)
Record classified (l : list (string * KnowledgeHierarchyNode))
    (st : EffectiveKnowledge * gmap string KnowledgeApplicability * gset string) : Prop := {
  cl_eligible : forall id, id ∈ st.2 <-> exists n, (id, n) ∈ l /\ authoritative n;
  cl_scopes : forall id n, (id, n) ∈ l -> st.1.2 !! id = Some (evaluate (node_scope n) context);
  cl_accounted : elements st.2 ++ accounted st.1.1 ≡ₚ l.*1;
  cl_trace : trace_numbered st.1.1;
  cl_none : no_precedence st.1.1;
}.

Lemma no_precedence_filed out s :
  no_precedence out -> suppressed_by s = None -> no_precedence (push_suppressed out s).
Proof.
  intros (? & ? & ?) Hs. split_and!; [done..|]. cbn. apply Forall_app. split; [done|].
  by apply Forall_singleton.
Qed.

(** One node: the flag of its eligibility, its filing and its scope. *)
Lemma classify_node st id n : node_id n = id ->
  exists ok : bool,
    (ok = true <-> authoritative n) /\
    (classify context policy threshold st (id, n)).2 = (if ok then {[id]} ∪ st.2 else st.2) /\
    (classify context policy threshold st (id, n)).1.2 =
      <[id := evaluate (node_scope n) context]> st.1.2 /\
    accounted (classify context policy threshold st (id, n)).1.1 ≡ₚ
      (if ok then accounted st.1.1 else id :: accounted st.1.1) /\
    (trace_numbered st.1.1 -> trace_numbered (classify context policy threshold st (id, n)).1.1) /\
    (no_precedence st.1.1 -> no_precedence (classify context policy threshold st (id, n)).1.1).
Proof.
  intros Hid. destruct st as [[out scopes] eligible]. unfold classify.
  set (out1 := step out id ResolutionAction.CandidateFound _).
  assert (Hno : status (evaluate (node_scope n) context) <> ApplicabilityStatus.Applicable ->
    false = true <-> authoritative n) by (unfold authoritative; naive_solver).
  destruct (status (evaluate (node_scope n) context)) eqn:Ha.
  - set (out2 := step out1 _ _ _).
    pose proof (classify_applicable_authoritative out2 id n (evaluate (node_scope n) context) Ha) as Hok.
    pose proof (classify_applicable_accounted out2 id n (evaluate (node_scope n) context)) as Hacc.
    pose proof (classify_applicable_trace out2 id n (evaluate (node_scope n) context)) as Htr.
    pose proof (classify_applicable_no_precedence out2 id n (evaluate (node_scope n) context)) as Hnp.
    destruct (classify_applicable _ _ _ _ _ _) as [out' ok]. rewrite Hid in Hacc.
    exists ok. split_and!; cbn in *; [done|done|done|done| |done].
    eauto with resolution.
  - exists false. split_and!; [by apply Hno|done|done| | |]; cbn [fst snd].
    + by rewrite accounted_suppress, Hid.
    + eauto with resolution.
    + intros ?. by apply no_precedence_suppress.
  - exists false. split_and!; [by apply Hno|done|done| | |done]; cbn [fst snd].
    + by rewrite accounted_push_unknown.
    + intros Ht. by do 2 apply trace_numbered_step.
  - exists false. split_and!; [by apply Hno|done|done| | |done]; cbn [fst snd].
    + by rewrite accounted_push_unknown.
    + intros Ht. by do 2 apply trace_numbered_step.
Qed.

Lemma classify_step l st id n :
  classified l st -> id ∉ l.*1 -> node_id n = id ->
  classified (l ++ [(id, n)]) (classify context policy threshold st (id, n)).
Proof.
  intros [He Hs Hacc Ht Hn] Hnew Hid.
  assert (Hfresh : forall n', (id, n') ∉ l).
  { intros n' Hin. apply Hnew, list_elem_of_fmap. by exists (id, n'). }
  destruct (classify_node st id n Hid) as (ok & Hok & Hel & Hsc & Hac & Htr & Hnp).
  split; [| | |by apply Htr|by apply Hnp].
  - intros x. rewrite Hel. setoid_rewrite elem_of_app. setoid_rewrite list_elem_of_singleton.
    destruct ok; [rewrite elem_of_union, elem_of_singleton|]; rewrite He.
    + split; [|naive_solver]. intros [->|(m & ? & ?)]; [exists n|exists m]; naive_solver.
    + split; [naive_solver|]. intros (m & [Hin|[= -> ->]] & Hm); [naive_solver|].
      apply Hok in Hm. done.
  - intros x m [Hin|[= -> ->]%list_elem_of_singleton]%elem_of_app; rewrite Hsc.
    + rewrite lookup_insert_ne; [by apply Hs|]. intros ->. by apply (Hfresh m).
    + by rewrite lookup_insert_eq.
  - rewrite fmap_app; cbn. rewrite <- Hacc, Hel, Hac. destruct ok.
    + rewrite elements_union_singleton; [|rewrite He; naive_solver].
      cbn. by rewrite <- Permutation_cons_append.
    + rewrite <- Permutation_cons_append. by rewrite <- Permutation_middle.
Qed.

Lemma classify_all l : NoDup l.*1 -> Forall (fun kn => node_id kn.2 = kn.1) l ->
  classified l (foldl (classify context policy threshold) (empty_effective, ∅, ∅) l).
Proof.
  induction l as [|[id n] l IH] using rev_ind; intros Hnd Hids.
  - split; [set_solver|set_solver| |done|by split_and!]. cbn. rewrite elements_empty. done.
  - rewrite fmap_app in Hnd. apply NoDup_app in Hnd as (Hnd & Hd & _).
    apply Forall_app in Hids as [Hids Hid]. apply Forall_inv in Hid; cbn in Hid. rewrite foldl_app.
    apply classify_step; [by apply IH| |done]. intros Hin. by apply (Hd id Hin), list_elem_of_singleton.
Qed.
End classification_laws.

(** * Dependency health *)

Section health.
Context `{SemverCrate} `{PredicateJson}.
Context (h : KnowledgeHierarchy) (Hwf : hierarchy_wf h).
Let ix := index_new h.
Implicit Types (out : EffectiveKnowledge).

Lemma node_at_wf id : contains_node h id = true ->
  exists n, nodes h !! id = Some n /\ node_at h id = Ret n /\ node_id n = id.
Proof.
  intros [n Hn]%contains_node_iff. exists n. unfold node_at. rewrite Hn. split_and!; [done..|].
  by destruct (wf_nodes h Hwf id n Hn).
Qed.

Lemma edge_nodes e : e ∈ edges h ->
  contains_node h (edge_parent e) = true /\ contains_node h (edge_child e) = true.
Proof.
  intros He. destruct (wf_edges h Hwf e He) as (_ & p & c & Hp & Hc & _).
  split; apply contains_node_iff; by eexists.
Qed.

(** [x] is a prerequisite of [y]. *)
Definition prerequisite (x y : string) : Prop := precedes h is_depends_on x y.

Lemma prerequisite_iff x y : prerequisite x y <->
  exists e, e ∈ edges h /\ edge_relation e = KnowledgeHierarchyRelation.DependsOn /\
            edge_parent e = x /\ edge_child e = y.
Proof.
  unfold prerequisite, precedes, live_edge. split.
  - intros (e & He & Hl & Hx & Hy). exists e. apply andb_prop in Hl as [[Hl _]%andb_prop _].
    by apply bool_decide_eq_true in Hl.
  - intros (e & He & Hr & Hx & Hy). exists e. destruct (edge_nodes e He) as [-> ->].
    unfold is_depends_on. by rewrite bool_decide_eq_true_2.
Qed.

Definition dependents (id : string) : list string :=
  edge_child <$> List.filter (fun e => is_depends_on (edge_relation e)) (children_of ix id).

Lemma elem_of_dependents id y : y ∈ dependents id <-> prerequisite id y.
Proof.
  unfold dependents, ix. rewrite prerequisite_iff, list_elem_of_fmap.
  setoid_rewrite elem_of_list_filter_bool. setoid_rewrite elem_of_children.
  unfold is_depends_on. split.
  - intros (e & -> & Hr%bool_decide_eq_true & He & <-). by exists e.
  - intros (e & He & Hr & <- & <-). exists e. by rewrite bool_decide_eq_true_2.
Qed.

(** Edges whose dependents are still to be queued. *)
Definition unqueued (unhealthy : gset string) : nat :=
  countb (fun e => is_depends_on (edge_relation e) && bool_decide (edge_parent e ∉ unhealthy)) (edges h).

Lemma unqueued_insert unhealthy id : id ∉ unhealthy ->
  unqueued unhealthy = unqueued ({[id]} ∪ unhealthy) + length (dependents id).
Proof.
  intros Hid. unfold unqueued, dependents, ix. rewrite length_fmap, children_of_new.
  change (length (List.filter ?f ?l)) with (countb f l). rewrite countb_filter.
  rewrite (countb_perm _ (sorted_edges h) (edges h)) by apply sorted_edges_perm.
  rewrite countb_plus by (intros e _; repeat case_bool_decide; destruct (is_depends_on _); set_solver).
  apply countb_ext. intros e _. destruct (is_depends_on (edge_relation e)); cbn; [|by rewrite andb_false_r].
  repeat case_bool_decide; set_solver.
Qed.

(** State of the propagation from [seeds], [E0] being the eligible nodes
    before it. *)
Record propagating (E0 : gset string) (seeds : list string) out
    (eligible unhealthy : gset string) (queue : list string) : Prop := {
  pr_reached : forall x, x ∈ unhealthy \/ x ∈ queue -> exists s, s ∈ seeds /\ rtc prerequisite s x;
  pr_closed : forall x y, x ∈ unhealthy -> prerequisite x y -> y ∈ unhealthy \/ y ∈ queue;
  pr_seeds : forall s, s ∈ seeds -> s ∈ unhealthy \/ s ∈ queue;
  pr_eligible : eligible = E0 ∖ unhealthy;
  pr_accounted : elements eligible ++ accounted out ≡ₚ btree_keys (nodes h);
  pr_trace : trace_numbered out;
  pr_none : no_precedence out;
}.

Lemma propagating_visit E0 seeds out out' eligible unhealthy id queue :
  propagating E0 seeds out eligible unhealthy (id :: queue) -> id ∉ unhealthy ->
  elements (eligible ∖ {[id]}) ++ accounted out' ≡ₚ elements eligible ++ accounted out ->
  trace_numbered out' -> no_precedence out' ->
  propagating E0 seeds out' (eligible ∖ {[id]}) ({[id]} ∪ unhealthy) (queue ++ dependents id).
Proof.
  intros [Hr Hc Hs -> Ha Ht Hn] Hid Hacc Ht' Hn'. split; [| | | | |done|done].
  - intros x Hx. destruct (decide (x ∈ dependents id)) as [Hd|Hd].
    + apply elem_of_dependents in Hd. destruct (Hr id) as (s & Hss & Hsx); [set_solver|].
      exists s. split; [done|]. by eapply rtc_r.
    + apply Hr. set_solver.
  - intros x y [->%elem_of_singleton|Hx]%elem_of_union Hxy.
    + right. apply elem_of_app. right. by apply elem_of_dependents.
    + destruct (Hc x y Hx Hxy); set_solver.
  - intros s Hss. destruct (Hs s Hss); set_solver.
  - set_solver.
  - by rewrite Hacc.
Qed.

Lemma propagating_skip E0 seeds out eligible unhealthy id queue :
  propagating E0 seeds out eligible unhealthy (id :: queue) -> id ∈ unhealthy ->
  propagating E0 seeds out eligible unhealthy queue.
Proof.
  intros [Hr Hc Hs He Ha Ht Hn] Hid. split; [set_solver| | |done..].
  - intros x y Hx Hxy. destruct (Hc x y Hx Hxy); set_solver.
  - intros s Hss. destruct (Hs s Hss); set_solver.
Qed.

Lemma health_loop_returns fuel E0 seeds out eligible unhealthy queue :
  (forall x, x ∈ E0 -> contains_node h x = true) ->
  propagating E0 seeds out eligible unhealthy queue ->
  length queue + unqueued unhealthy < fuel ->
  exists out' eligible' unhealthy',
    health_loop h ix fuel out eligible unhealthy queue = Ret (out', eligible') /\
    propagating E0 seeds out' eligible' unhealthy' [].
Proof.
  intros HE. revert out eligible unhealthy queue.
  induction fuel as [|fuel IH]; intros out eligible unhealthy queue Hp Hf; [lia|]. cbn.
  destruct queue as [|id queue]; [by exists out, eligible, unhealthy|]. cbn in Hf.
  case_decide as Hid; [by apply IH; [eapply propagating_skip|lia]|].
  rewrite (unqueued_insert _ _ Hid) in Hf. fold (dependents id).
  assert (Hfuel : length (queue ++ dependents id) + unqueued ({[id]} ∪ unhealthy) < fuel)
    by (rewrite length_app; lia).
  pose proof Hp as [_ _ _ Hel Ha Ht Hn]. case_decide as Hin.
  - destruct (node_at_wf id) as (n & _ & -> & Hnid); [apply HE; set_solver|]. cbn.
    apply IH; [|done]. eapply propagating_visit; eauto with resolution.
    rewrite accounted_mark_unknown, Hnid, (elements_remove eligible id Hin).
    by rewrite <- Permutation_middle.
  - assert (Heq : eligible = eligible ∖ {[id]}) by set_solver.
    apply IH; [|done]. rewrite Heq. eapply propagating_visit; eauto. by rewrite <- Heq.
Qed.

(** The nodes of [E0] whose transitive prerequisites are in [E0] too, none of
    them depending on itself. *)
Definition healthy (E0 : gset string) (x : string) : Prop :=
  forall y, rtc prerequisite y x -> y ∈ E0 /\ ~ tc prerequisite y y.

Lemma length_seeds E0 order : length (health_seeds h E0 order) <= size (nodes h).
Proof.
  unfold health_seeds. etransitivity; [apply List.filter_length_le|].
  rewrite (Permutation_length (btree_keys_perm (nodes h))). by rewrite <- size_dom.
Qed.

Lemma rtc_node s x : contains_node h x = true -> rtc prerequisite s x -> contains_node h s = true.
Proof. intros Hx Hr. destruct Hr as [|y z w Hp _]; [done|]. by apply precedes_nodes in Hp as [? _]. Qed.

Lemma propagated_closed E0 seeds out eligible unhealthy :
  propagating E0 seeds out eligible unhealthy [] ->
  forall x, x ∈ unhealthy <-> exists s, s ∈ seeds /\ rtc prerequisite s x.
Proof.
  intros [Hr Hc Hs _ _ _ _] x. split; [intros Hx; apply Hr; by left|].
  intros (s & Hss & Hsx). assert (Hsu : s ∈ unhealthy) by (destruct (Hs s Hss); set_solver).
  clear Hss. induction Hsx as [|s z x Hsz _ IH]; [done|]. apply IH.
  destruct (Hc s z Hsu Hsz); set_solver.
Qed.

(** What survives the seeds: the healthy nodes. *)
Lemma healthy_unreached E0 order x :
  (forall x, x ∈ E0 -> contains_node h x = true) ->
  topological h ix is_depends_on = Ret order -> x ∈ E0 ->
  healthy E0 x <-> ~ exists s, s ∈ health_seeds h E0 order /\ rtc prerequisite s x.
Proof.
  intros HE Ho Hx. pose proof (topological_members h is_depends_on order Ho) as Hmem.
  assert (Hseed : forall s, s ∈ health_seeds h E0 order <->
    contains_node h s = true /\ (s ∉ E0 \/ s ∉ order)).
  { intros s. unfold health_seeds. rewrite elem_of_list_filter_bool, elem_of_btree_keys.
    rewrite orb_true_iff, !negb_true_iff, !bool_decide_eq_false, contains_node_iff. tauto. }
  setoid_rewrite Hseed. split.
  - intros Hh (s & [Hn Hs] & Hsx). destruct (Hh s Hsx) as [HsE _].
    destruct Hs as [?|Hs]; [done|]. apply Hs, Hmem. split; [done|].
    intros y Hy. apply Hh. by etrans.
  - intros Hno y Hyx. pose proof (rtc_node _ _ (HE x Hx) Hyx) as Hy.
    destruct (decide (y ∈ E0)) as [HyE|HyE]; [|by destruct Hno; exists y; auto].
    split; [done|]. destruct (decide (y ∈ order)) as [Hyo|Hyo]; [|by destruct Hno; exists y; auto].
    apply Hmem in Hyo as [_ Hyo]. by apply Hyo.
Qed.

Lemma propagate_health_spec E0 out :
  (forall x, x ∈ E0 -> contains_node h x = true) ->
  elements E0 ++ accounted out ≡ₚ btree_keys (nodes h) -> trace_numbered out -> no_precedence out ->
  exists out' eligible',
    propagate_health h ix out E0 = Ret (out', eligible') /\
    (forall x, x ∈ eligible' <-> x ∈ E0 /\ healthy E0 x) /\
    elements eligible' ++ accounted out' ≡ₚ btree_keys (nodes h) /\
    trace_numbered out' /\ no_precedence out'.
Proof.
  intros HE Ha Ht Hn. unfold propagate_health.
  destruct (topological_spec h is_depends_on) as (order & Ho & _). fold ix in Ho. rewrite Ho; cbn.
  set (seeds := health_seeds h E0 order).
  destruct (health_loop_returns (health_fuel h) E0 seeds out E0 ∅ seeds HE)
    as (out' & eligible' & unhealthy & Hrun & Hp).
  { split; [intros x [?|?]; [set_solver|by exists x]|set_solver|by right|set_solver|done..]. }
  { unfold health_fuel. pose proof (length_seeds E0 order) as Hl. fold seeds in Hl.
    pose proof (countb_le _ _ : unqueued ∅ <= length (edges h)). lia. }
  pose proof (propagated_closed _ _ _ _ _ Hp) as Hu. destruct Hp as [_ _ _ -> Ha' Ht' Hn'].
  exists out', (E0 ∖ unhealthy). split_and!; [done| |done..].
  intros x. rewrite elem_of_difference, Hu. split; intros [Hx Hh]; (split; [done|]);
    by apply (healthy_unreached E0 order x).
Qed.
End health.
