(* ===== verification/Precedence.v ===== *)
(** The precedence phases of Resolution.v: conflict discovery, supersession,
    exception, specialization and refinement. *)
From S2P Require Import Prelude Semver Scope ScopeRelation Hierarchy Topology Validation.
From S2P Require Import Resolution ResolutionState.

Section precedence_laws.
Context `{SemverCrate} `{PredicateJson}.
Context (h : KnowledgeHierarchy) (Hwf : hierarchy_wf h).
(** The nodes that are authoritative and healthy when precedence starts. *)
Context (E0 : gset string) (HE0 : forall x, x ∈ E0 -> contains_node h x = true).
Let ix := index_new h.
Implicit Types (e : KnowledgeHierarchyEdge) (p : Precedence).

(** * Usable edges *)

(** The edges with evidence whose scopes are proven to be compatible. *)
Definition usable_edge e : bool :=
  not_depends_on (edge_relation e) && negb (bool_decide (edge_evidence e = [])) &&
  match nodes h !! edge_child e, nodes h !! edge_parent e with
  | Some child, Some parent =>
      let relation := compare (node_scope child) (node_scope parent) in
      match edge_relation e with
      | KnowledgeHierarchyRelation.Specializes | KnowledgeHierarchyRelation.Excepts =>
          bool_decide (relation = ScopeRelation.Equal) || bool_decide (relation = ScopeRelation.Narrower)
      | _ =>
          negb (bool_decide (relation = ScopeRelation.Unknown) ||
                bool_decide (relation = ScopeRelation.Disjoint))
      end
  | _, _ => false
  end.

Lemma usable_returns e : e ∈ edges h -> usable h e = Ret (usable_edge e).
Proof.
  intros He. destruct (edge_nodes h Hwf e He) as [Hp Hc].
  destruct (node_at_wf h Hwf _ Hp) as (np & Ep & Rp & _), (node_at_wf h Hwf _ Hc) as (nc & Ec & Rc & _).
  unfold usable, usable_edge, not_depends_on. rewrite Rp, Rc, Ep, Ec.
  destruct (decide (edge_relation e = KnowledgeHierarchyRelation.DependsOn)) as [Hr|Hr].
  { by rewrite bool_decide_eq_false_2 by tauto. }
  rewrite bool_decide_eq_true_2 by done.
  case_decide; [by rewrite bool_decide_eq_true_2|by rewrite bool_decide_eq_false_2].
Qed.

(** The usable edges below [parent] that pass [cond]. *)
Definition below (parent : string) (cond : KnowledgeHierarchyEdge -> bool) :
    list KnowledgeHierarchyEdge :=
  List.filter (fun e => cond e && usable_edge e) (children_of ix parent).

Lemma usable_edges_returns parent cond : usable_edges h ix parent cond = Ret (below parent cond).
Proof.
  unfold usable_edges, below. apply run_filter_pure, Forall_forall. intros e He.
  apply elem_of_children in He as [He _]. destruct (cond e); [by apply usable_returns|done].
Qed.

Lemma elem_of_below parent cond e :
  e ∈ below parent cond <->
  e ∈ edges h /\ edge_parent e = parent /\ cond e = true /\ usable_edge e = true.
Proof.
  unfold below, ix. rewrite elem_of_list_filter_bool, elem_of_children, andb_true_iff. tauto.
Qed.

Lemma length_below_mono parent (c1 c2 : KnowledgeHierarchyEdge -> bool) :
  (forall e, c1 e = true -> c2 e = true) -> length (below parent c1) <= length (below parent c2).
Proof.
  intros Hc. unfold below. change (length (List.filter ?f ?l)) with (countb f l).
  apply countb_mono. intros e _ [Hc1 Hu]%andb_prop. by rewrite (Hc e Hc1), Hu.
Qed.

(** [x] is overridden by [y] through one usable edge. *)
Definition overrides (rel : KnowledgeHierarchyRelation.t) (x y : string) : Prop :=
  exists e, e ∈ edges h /\ edge_relation e = rel /\ usable_edge e = true /\
            edge_parent e = x /\ edge_child e = y.

(** * Invariant *)

(** Why a node holds its role; [C] is the set of conflicted nodes. *)
Definition role_ok (C : gset string) (x : string) (role : AppliedKnowledgeRole.t) : Prop :=
  match role with
  | AppliedKnowledgeRole.Primary => True
  | AppliedKnowledgeRole.Refinement => exists y, y ∈ E0 /\ overrides KnowledgeHierarchyRelation.Refines y x
  | AppliedKnowledgeRole.Exception => exists y, y ∈ E0 /\ overrides KnowledgeHierarchyRelation.Excepts y x
  | AppliedKnowledgeRole.SupportingContext =>
      x ∈ C \/ exists y, y ∈ E0 /\ overrides KnowledgeHierarchyRelation.Specializes x y
  end.

(** A node suppressed by another one: both had authority, and a chain of
    usable edges of the phase leads from the one to the other. *)
Definition suppression_ok (s : SuppressedKnowledge) : Prop :=
  forall b, suppressed_by s = Some b ->
  sup_node s ∈ E0 /\ b ∈ E0 /\
  (sup_reason s = SuppressionReason.Superseded /\
     tc (overrides KnowledgeHierarchyRelation.Supersedes) (sup_node s) b \/
   sup_reason s = SuppressionReason.ExplicitException /\
     tc (overrides KnowledgeHierarchyRelation.Excepts) (sup_node s) b).

Record precedence_inv p : Prop := {
  pi_eligible : p_eligible p ⊆ E0;
  pi_conflicted : p_conflicted p ⊆ E0;
  pi_roles : forall x, x ∈ E0 -> is_Some (p_roles p !! x);
  pi_roles_ok : forall x r, p_roles p !! x = Some r -> role_ok (p_conflicted p) x r;
  pi_support : forall x, x ∈ p_conflicted p ->
    p_roles p !! x = Some AppliedKnowledgeRole.SupportingContext;
  pi_conflicts : forall x, x ∈ p_conflicted p <->
    exists c, c ∈ eff_conflicts (p_out p) /\ x ∈ conf_nodes c;
  pi_accounted : elements (p_eligible p) ++ accounted (p_out p) ≡ₚ btree_keys (nodes h);
  pi_trace : trace_numbered (p_out p);
  pi_applied : eff_applied (p_out p) = [];
  pi_suppressed : Forall suppression_ok (eff_suppressed (p_out p));
}.

Lemma role_ok_mono C C' x r : C ⊆ C' -> role_ok C x r -> role_ok C' x r.
Proof. intros HC. destruct r; cbn; [done..|]. intros [?|?]; [left; by apply HC|by right]. Qed.

(** * Conflict discovery *)

(** The eligible usable children of [parent] by [rel]. *)
Definition competitors (rel : KnowledgeHierarchyRelation.t) (E : gset string) (parent : string) :
    list KnowledgeHierarchyEdge :=
  below parent (fun e => bool_decide (edge_relation e = rel) && bool_decide (edge_child e ∈ E)).

(** Several competitors below [parent] are all conflicted. *)
Definition settled (rel : KnowledgeHierarchyRelation.t) (E C : gset string) (parent : string) : Prop :=
  parent ∈ E -> 1 < length (competitors rel E parent) ->
  forall e, e ∈ competitors rel E parent -> edge_child e ∈ C.

Lemma mark_conflicted_all ids p :
  p_eligible (foldl mark_conflicted p ids) = p_eligible p /\
  p_conflicted (foldl mark_conflicted p ids) = list_to_set ids ∪ p_conflicted p /\
  (forall x, p_roles (foldl mark_conflicted p ids) !! x =
    if decide (x ∈ ids) then Some AppliedKnowledgeRole.SupportingContext else p_roles p !! x) /\
  (trace_numbered (p_out p) -> trace_numbered (p_out (foldl mark_conflicted p ids))) /\
  accounted (p_out (foldl mark_conflicted p ids)) = accounted (p_out p) /\
  eff_applied (p_out (foldl mark_conflicted p ids)) = eff_applied (p_out p) /\
  eff_suppressed (p_out (foldl mark_conflicted p ids)) = eff_suppressed (p_out p) /\
  eff_conflicts (p_out (foldl mark_conflicted p ids)) = eff_conflicts (p_out p).
Proof.
  revert p. induction ids as [|id ids IH]; intros p; cbn [foldl].
  { split_and!; try done. set_solver. }
  destruct (IH (mark_conflicted p id)) as (-> & -> & Hr & Ht & -> & -> & -> & ->).
  split_and!; try done; [set_solver| |].
  - intros x. rewrite Hr. cbn. destruct (decide (x ∈ ids)); [by rewrite decide_True by set_solver|].
    destruct (decide (x = id)) as [->|].
    + by rewrite lookup_insert_eq, decide_True by set_solver.
    + by rewrite lookup_insert_ne, decide_False by set_solver.
  - intros Hp. apply Ht. by apply trace_numbered_step.
Qed.

(** Only conflicts were found: eligibility and other entries stand. *)
Definition discovered p p' : Prop :=
  p_eligible p' = p_eligible p /\ p_conflicted p ⊆ p_conflicted p'.

Lemma settled_mono rel E C C' parent : C ⊆ C' -> settled rel E C parent -> settled rel E C' parent.
Proof. unfold settled. set_solver. Qed.

Lemma nodes_at ids : (forall id, id ∈ ids -> contains_node h id = true) ->
  exists ns, run_map (node_at h) ids = Ret ns.
Proof.
  induction ids as [|id ids IH]; intros Hn; cbn; [by eexists|].
  destruct (node_at_wf h Hwf id) as (n & _ & -> & _); [set_solver|].
  destruct IH as (ns & ->); [set_solver|]. by eexists.
Qed.

(** The entry of a conflict keeps the invariant. *)
Lemma conflict_inv p ids c :
  precedence_inv p -> conf_nodes c = ids -> (forall x, x ∈ ids -> x ∈ E0) ->
  let st := foldl mark_conflicted p ids in
  precedence_inv (mkPrecedence (push_conflict (p_out st) c) (p_eligible st) (p_roles st)
                    (p_conflicted st)).
Proof.
  intros [He Hc Hr Hro Hs Hcf Ha Ht Hap Hsu] Hids Hin st. subst st.
  destruct (mark_conflicted_all ids p) as (Hel & Hco & Hrl & Htr & Hac & Happ & Hsup & Hcfl).
  split; cbn [p_out p_eligible p_roles p_conflicted]; rewrite ?Hel, ?Hco, ?accounted_push_conflict, ?Hac;
    [done|set_solver| | | | |done|by apply Htr|by cbn; rewrite Happ|by cbn; rewrite Hsup].
  - intros x Hx. rewrite Hrl. case_decide; [by eexists|by apply Hr].
  - intros x r. rewrite Hrl. case_decide; [intros [= <-]; left; set_solver|].
    intros Hx. apply (role_ok_mono (p_conflicted p)); [set_solver|by apply Hro].
  - intros x Hx. rewrite Hrl. case_decide; [done|]. apply Hs. set_solver.
  - intros x. cbn. rewrite Hcfl, elem_of_union, elem_of_list_to_set, Hcf. setoid_rewrite elem_of_app.
    setoid_rewrite list_elem_of_singleton. naive_solver.
Qed.

Lemma discover_parent_spec rel p parent : precedence_inv p ->
  exists p', discover_parent h ix rel p parent = Ret p' /\ precedence_inv p' /\ discovered p p' /\
    settled rel (p_eligible p) (p_conflicted p') parent.
Proof.
  intros Hp. unfold discover_parent. case_bool_decide as Hpar; cbn;
    [|by exists p; split_and!; [done..|intros ?]].
  rewrite usable_edges_returns; cbn. fold (competitors rel (p_eligible p) parent).
  case_decide as Hlen; [exists p; split_and!; [done..|]; intros ? ?; lia|].
  set (ids := edge_child <$> competitors rel (p_eligible p) parent).
  assert (Hids : forall x, x ∈ ids -> x ∈ E0).
  { intros x (e & -> & He)%list_elem_of_fmap. apply elem_of_below in He as (_ & _ & He & _).
    apply andb_prop in He as [_ He%bool_decide_eq_true]. by apply (pi_eligible p Hp). }
  destruct (nodes_at ids) as (ns & ->); [by intros x Hx; apply HE0, Hids|]. cbn.
  eexists. split; [done|]. split; [by apply conflict_inv|].
  destruct (mark_conflicted_all ids p) as (Hel & Hco & _).
  split; [split; cbn; [done|rewrite Hco; set_solver]|].
  intros _ _ e He. cbn. rewrite Hco. apply elem_of_union. left. apply elem_of_list_to_set.
  unfold ids. apply list_elem_of_fmap. by exists e.
Qed.

Lemma discover_spec rel order p : precedence_inv p ->
  exists p', discover h ix order p rel = Ret p' /\ precedence_inv p' /\ discovered p p' /\
    forall parent, parent ∈ order -> settled rel (p_eligible p) (p_conflicted p') parent.
Proof.
  intros Hp. unfold discover.
  destruct (run_foldl_prefix (fun visited p' => precedence_inv p' /\ discovered p p' /\
    forall parent, parent ∈ visited -> settled rel (p_eligible p) (p_conflicted p') parent)
    (discover_parent h ix rel) p order) as (p' & Hr & ? & ? & ?); [| |by exists p'].
  - intros l1 parent q _ (Hq & [Hel Hco] & Hset).
    destruct (discover_parent_spec rel q parent Hq) as (q' & Hr & Hq' & [Hel' Hco'] & Hset').
    exists q'. split; [done|]. split; [done|]. split; [split; [congruence|set_solver]|].
    rewrite Hel in Hset'. intros y [Hy| ->%list_elem_of_singleton]%elem_of_app; [|done].
    eapply settled_mono; [exact Hco'|by apply Hset].
  - split; [done|]. split; [by split|]. set_solver.
Qed.

(** After discovery every relation of the phase is settled. *)
Lemma discover_phase_spec order rel p : precedence_inv p ->
  exists p', run_foldl (discover h ix order) p (conflict_relations rel) = Ret p' /\
    precedence_inv p' /\ discovered p p' /\
    forall r parent, r ∈ conflict_relations rel -> parent ∈ order ->
      settled r (p_eligible p) (p_conflicted p') parent.
Proof.
  intros Hp.
  destruct (run_foldl_prefix (fun visited p' => precedence_inv p' /\ discovered p p' /\
    forall r parent, r ∈ visited -> parent ∈ order ->
      settled r (p_eligible p) (p_conflicted p') parent)
    (discover h ix order) p (conflict_relations rel)) as (p' & Hr & ? & ? & ?); [| |by exists p'].
  - intros l1 r q _ (Hq & [Hel Hco] & Hset).
    destruct (discover_spec r order q Hq) as (q' & Hr & Hq' & [Hel' Hco'] & Hset').
    exists q'. split; [done|]. split; [done|]. split; [split; [congruence|set_solver]|].
    rewrite Hel in Hset'. intros r' y [Hy| ->%list_elem_of_singleton]%elem_of_app Hyo; [|by apply Hset'].
    eapply settled_mono; [exact Hco'|by apply Hset].
  - split; [done|]. split; [by split|]. set_solver.
Qed.

(** * Applying a phase *)

Definition overriding (rel : KnowledgeHierarchyRelation.t) : Prop :=
  rel = KnowledgeHierarchyRelation.Supersedes \/ rel = KnowledgeHierarchyRelation.Excepts.

(** A usable edge between two eligible nodes that has had its effect. *)
Definition decided (rel : KnowledgeHierarchyRelation.t) p e : Prop :=
  edge_relation e = rel -> usable_edge e = true ->
  edge_parent e ∈ p_eligible p -> edge_child e ∈ p_eligible p ->
  edge_child e ∈ p_conflicted p \/ rel = KnowledgeHierarchyRelation.Refines \/
  (rel = KnowledgeHierarchyRelation.Specializes /\
   p_roles p !! edge_parent e = Some AppliedKnowledgeRole.SupportingContext).

Record evolves (rel : KnowledgeHierarchyRelation.t) p p' : Prop := {
  ev_eligible : p_eligible p' ⊆ p_eligible p;
  ev_conflicted : p_conflicted p ⊆ p_conflicted p';
  ev_support : ~ overriding rel -> forall x,
    p_roles p !! x = Some AppliedKnowledgeRole.SupportingContext ->
    p_roles p' !! x = Some AppliedKnowledgeRole.SupportingContext;
}.

Lemma evolves_refl rel p : evolves rel p p.
Proof. by split. Qed.
Lemma evolves_trans rel p1 p2 p3 : evolves rel p1 p2 -> evolves rel p2 p3 -> evolves rel p1 p3.
Proof. intros [? ? Hs] [? ? Hs']. split; [set_solver|set_solver|]. intros Hr x Hx. by apply Hs', Hs. Qed.

Lemma decided_evolves rel rel' p p' e :
  evolves rel' p p' -> (overriding rel' -> overriding rel) -> decided rel p e -> decided rel p' e.
Proof.
  intros [He Hc Hs] Hov Hd Hr Hu Hp Hch. destruct (Hd Hr Hu) as [?|[?|[-> Hx]]]; [set_solver..| |].
  - by right; left.
  - right; right. split; [done|]. apply Hs; [|done]. intros [?|?]%Hov; congruence.
Qed.

Definition replacements_ok (rel : KnowledgeHierarchyRelation.t) (reps : gmap string string) : Prop :=
  forall x s, reps !! x = Some s -> s ∈ E0 /\ tc (overrides rel) x s.

(** Changing the role of a node. *)
Definition set_role p (x : string) (role : AppliedKnowledgeRole.t) : Precedence :=
  mkPrecedence (p_out p) (p_eligible p) (<[x := role]> (p_roles p)) (p_conflicted p).

Lemma set_role_inv p x role :
  precedence_inv p -> role_ok (p_conflicted p) x role ->
  (x ∈ p_conflicted p -> role = AppliedKnowledgeRole.SupportingContext) ->
  precedence_inv (set_role p x role).
Proof.
  intros [He Hc Hr Hro Hs Hcf Ha Ht Hap Hsu] Hok Hsc.
  split; cbn [set_role p_out p_eligible p_roles p_conflicted]; try done.
  - intros y Hy. destruct (decide (y = x)) as [->|]; [by rewrite lookup_insert_eq; eexists|].
    rewrite lookup_insert_ne by done. by apply Hr.
  - intros y r. destruct (decide (y = x)) as [->|].
    + rewrite lookup_insert_eq. by intros [= <-].
    + rewrite lookup_insert_ne by done. apply Hro.
  - intros y Hy. destruct (decide (y = x)) as [->|].
    + rewrite lookup_insert_eq. by rewrite Hsc.
    + rewrite lookup_insert_ne by done. by apply Hs.
Qed.

(** An eligible node is suppressed by another one. *)
Definition replace_node p n (reason : SuppressionReason.t) (sup : string) : Precedence :=
  mkPrecedence (suppress (p_out p) n reason (Some sup)) (p_eligible p ∖ {[node_id n]}) (p_roles p)
    (p_conflicted p).

Lemma replace_node_inv p n reason sup :
  precedence_inv p -> node_id n ∈ p_eligible p ->
  suppression_ok (mkSuppressed (node_artifact n) (node_id n) reason (Some sup)) ->
  precedence_inv (replace_node p n reason sup).
Proof.
  intros [He Hc Hr Hro Hs Hcf Ha Ht Hap Hsu] Hn Hok.
  split; cbn [replace_node p_out p_eligible p_roles p_conflicted]; try done.
  - set_solver.
  - rewrite accounted_suppress, <- Ha, (elements_remove _ _ Hn). by rewrite <- Permutation_middle.
  - by apply trace_numbered_suppress.
  - cbn. apply Forall_app. split; [done|]. by apply Forall_singleton.
Qed.

(** One override: the parent leaves the eligible nodes. *)
Lemma apply_override rel p reps e :
  overriding rel -> precedence_inv p -> replacements_ok rel reps ->
  e ∈ edges h -> edge_relation e = rel -> usable_edge e = true ->
  edge_parent e ∈ p_eligible p -> edge_child e ∈ E0 -> edge_child e ∉ p_conflicted p ->
  exists p' reps', apply_edge h rel (edge_parent e) (p, reps) e = Ret (p', reps') /\
    precedence_inv p' /\ replacements_ok rel reps' /\
    p_eligible p' = p_eligible p ∖ {[edge_parent e]} /\ p_conflicted p' = p_conflicted p.
Proof.
  intros Hov Hp Hreps Hin Hrel Hu Hpar Hch Hnc.
  set (sup := default (edge_child e) (reps !! edge_child e)).
  assert (Hone : overrides rel (edge_parent e) (edge_child e)) by (by exists e).
  assert (Hsup : sup ∈ E0 /\ tc (overrides rel) (edge_parent e) sup).
  { unfold sup. destruct (reps !! edge_child e) as [s|] eqn:Es; cbn.
    - destruct (Hreps _ _ Es) as [? ?]. split; [done|]. by eapply tc_l.
    - split; [done|]. by apply tc_once. }
  destruct (edge_nodes h Hwf e Hin) as [Hpn _].
  destruct (node_at_wf h Hwf _ Hpn) as (n & _ & Hn & Hid).
  assert (Hreps' : replacements_ok rel (<[edge_parent e := sup]> reps)).
  { intros x s. destruct (decide (x = edge_parent e)) as [->|Hx].
    - rewrite lookup_insert_eq. by intros [= <-].
    - rewrite lookup_insert_ne by done. apply Hreps. }
  pose proof (pi_eligible p Hp _ Hpar) as HparE. rewrite <- Hid in *.
  unfold apply_edge. rewrite Hn. destruct Hov as [Ho|Ho]; rewrite Ho in *; cbn.
  - exists (replace_node p n SuppressionReason.Superseded sup), (<[node_id n := sup]> reps).
    split_and!; try done. apply replace_node_inv; [done|done|].
    intros b [= <-]. cbn. split_and!; [done|apply Hsup|left; split; [done|apply Hsup]].
  - exists (set_role (replace_node p n SuppressionReason.ExplicitException sup) (edge_child e)
              AppliedKnowledgeRole.Exception), (<[node_id n := sup]> reps).
    split_and!; try done. apply set_role_inv; [|by exists (node_id n)|done].
    apply replace_node_inv; [done|done|].
    intros b [= <-]. cbn. split_and!; [done|apply Hsup|right; split; [done|apply Hsup]].
Qed.

Lemma winning_iff rel PE p reps e : winning rel PE p reps e = true <->
  edge_relation e = rel /\ (edge_child e ∉ p_conflicted p) /\
  (edge_child e ∈ p_eligible p \/
   (rel = KnowledgeHierarchyRelation.Supersedes /\ edge_child e ∈ PE /\
    is_Some (reps !! edge_child e))).
Proof.
  unfold winning.
  rewrite !andb_true_iff, orb_true_iff, !andb_true_iff, negb_true_iff, bool_decide_eq_false,
    !bool_decide_eq_true. tauto.
Qed.

(** At most one edge wins below a parent once the phase is settled. *)
Lemma winning_unique rel PE p reps parent :
  settled rel PE (p_conflicted p) parent -> p_eligible p ⊆ PE -> parent ∈ PE ->
  length (below parent (winning rel PE p reps)) <= 1.
Proof.
  intros Hset Hsub Hpar. set (es := below parent (winning rel PE p reps)).
  destruct (decide (length es <= 1)) as [|Hlen]; [done|exfalso].
  assert (Hmono : length es <= length (competitors rel PE parent)).
  { apply length_below_mono. intros e (Hr & _ & Hc)%winning_iff.
    rewrite !bool_decide_eq_true_2; [done| |done]. destruct Hc as [?|(_ & ? & _)]; set_solver. }
  destruct es as [|e es'] eqn:Ees; [cbn in Hlen; lia|].
  assert (He : e ∈ es) by (rewrite Ees; set_solver).
  apply elem_of_below in He as (Hin & Hp & Hw & Hu). apply winning_iff in Hw as (Hr & Hnc & Hc).
  apply Hnc, (Hset Hpar); [cbn in *; lia|]. apply elem_of_below. split_and!; [done|done| |done].
  rewrite !bool_decide_eq_true_2; [done| |done]. destruct Hc as [?|(_ & ? & _)]; set_solver.
Qed.

(** What the phase of [rel] establishes at one parent. *)
Definition decided_at (rel : KnowledgeHierarchyRelation.t) p (parent : string) : Prop :=
  forall e, e ∈ edges h -> edge_parent e = parent -> decided rel p e.

Lemma apply_parent_overriding rel PE p reps parent :
  overriding rel -> precedence_inv p -> replacements_ok rel reps ->
  p_eligible p ⊆ PE -> PE ⊆ E0 -> settled rel PE (p_conflicted p) parent ->
  exists p' reps', apply_parent h ix rel PE (p, reps) parent = Ret (p', reps') /\
    precedence_inv p' /\ replacements_ok rel reps' /\ evolves rel p p' /\
    p_conflicted p' = p_conflicted p /\ decided_at rel p' parent.
Proof.
  intros Hov Hp Hreps Hsub HPE Hset. unfold apply_parent. case_bool_decide as Hpar; cbn [negb].
  2: { exists p, reps. split_and!; try done. intros e _ <- ???. done. }
  rewrite usable_edges_returns; cbn [mbind run_bind].
  pose proof (winning_unique rel PE p reps parent Hset Hsub (Hsub _ Hpar)) as Hlen.
  destruct (below parent (winning rel PE p reps)) as [|e [|e2 es]] eqn:Ees; cbn in Hlen; [| |lia].
  - exists p, reps. split_and!; try done. intros e He <- Hr Hu _ Hc. left.
    destruct (decide (edge_child e ∈ p_conflicted p)) as [|Hnc]; [done|exfalso].
    assert (Hb : e ∈ below (edge_parent e) (winning rel PE p reps)); [|rewrite Ees in Hb; set_solver].
    apply elem_of_below. split_and!; [done|done| |done]. apply winning_iff. auto.
  - assert (Hb : e ∈ below parent (winning rel PE p reps)) by (rewrite Ees; set_solver).
    apply elem_of_below in Hb as (Hin & <- & (Hr & Hnc & Hc)%winning_iff & Hu).
    assert (HcE : edge_child e ∈ E0) by (destruct Hc as [?|(_ & ? & _)]; set_solver).
    destruct (apply_override rel p reps e Hov Hp Hreps Hin Hr Hu Hpar HcE Hnc)
      as (p' & reps' & Hrun & Hp' & Hreps' & Hel & Hco).
    exists p', reps'. cbn [run_foldl]. rewrite Hrun. split_and!; try done.
    + split; [rewrite Hel; set_solver|by rewrite Hco|done].
    + intros e' _ Hpe _ _ Hin'. rewrite Hel, Hpe in Hin'. set_solver.
Qed.

Lemma apply_parent_specializes PE p reps parent :
  precedence_inv p ->
  exists p' reps',
    apply_parent h ix KnowledgeHierarchyRelation.Specializes PE (p, reps) parent = Ret (p', reps') /\
    precedence_inv p' /\ evolves KnowledgeHierarchyRelation.Specializes p p' /\
    p_conflicted p' = p_conflicted p /\ decided_at KnowledgeHierarchyRelation.Specializes p' parent.
Proof.
  intros Hp. unfold apply_parent. case_bool_decide as Hpar; cbn [negb].
  2: { exists p, reps. split_and!; try done. intros e _ <- ???. done. }
  rewrite usable_edges_returns; cbn [mbind run_bind].
  set (W := winning _ PE p reps).
  set (marked p' := p_roles p' !! parent = Some AppliedKnowledgeRole.SupportingContext).
  destruct (run_foldl_prefix (fun visited st => precedence_inv st.1 /\
    evolves KnowledgeHierarchyRelation.Specializes p st.1 /\ p_eligible st.1 = p_eligible p /\
    p_conflicted st.1 = p_conflicted p /\ (visited <> [] -> marked st.1))
    (apply_edge h KnowledgeHierarchyRelation.Specializes parent) (p, reps) (below parent W))
    as ([p' reps'] & Hrun & Hp' & Hev & Hel & Hco & Hm); [| |].
  - intros visited e [q rq] He (Hq & Hev & Hel & Hco & _). eexists. split; [done|]. cbn.
    apply elem_of_below in He as (Hin & Hpe & (Hr & Hnc & Hc)%winning_iff & Hu).
    split_and!; [|split|done|done|intros _; apply lookup_insert_eq].
    + apply (set_role_inv q); [done| |done]. right. exists (edge_child e). split; [|by exists e].
      destruct Hc as [?|[? _]]; [|done]. by apply (pi_eligible p Hp).
    + by rewrite <- Hel.
    + cbn. set_solver.
    + intros _ x Hx. cbn. destruct (decide (x = parent)) as [->|]; [by rewrite lookup_insert_eq|].
      rewrite lookup_insert_ne by done. by apply (ev_support _ _ _ Hev); [intros [?|?]|].
  - split_and!; done.
  - exists p', reps'. cbn in *. split_and!; try done.
    intros e He Hpe Hr Hu _ Hch. rewrite Hel in Hch. rewrite Hco.
    destruct (decide (edge_child e ∈ p_conflicted p)) as [|Hnc]; [by left|]. right; right.
    split; [done|]. rewrite Hpe. apply Hm. intros Hnil.
    assert (Hb : e ∈ below parent W); [|rewrite Hnil in Hb; set_solver].
    apply elem_of_below. split_and!; [done|done| |done]. apply winning_iff. auto.
Qed.

Lemma apply_parent_refines PE p reps parent :
  precedence_inv p ->
  exists p' reps',
    apply_parent h ix KnowledgeHierarchyRelation.Refines PE (p, reps) parent = Ret (p', reps') /\
    precedence_inv p' /\ evolves KnowledgeHierarchyRelation.Refines p p' /\
    p_conflicted p' = p_conflicted p.
Proof.
  intros Hp. unfold apply_parent. case_bool_decide as Hpar; cbn [negb]; [|by exists p, reps].
  rewrite usable_edges_returns; cbn [mbind run_bind].
  destruct (run_foldl_inv (fun st => precedence_inv st.1 /\
    evolves KnowledgeHierarchyRelation.Refines p st.1 /\ p_eligible st.1 = p_eligible p /\
    p_conflicted st.1 = p_conflicted p) (apply_edge h KnowledgeHierarchyRelation.Refines parent) (p, reps)
    (below parent (winning KnowledgeHierarchyRelation.Refines PE p reps)))
    as ([p' reps'] & Hrun & Hp' & Hev & _ & Hco); [|done|by exists p', reps'].
  intros [q rq] e He (Hq & Hev & Hel & Hco). cbn in *.
  apply elem_of_below in He as (Hin & Hpe & (Hr & Hnc & Hc)%winning_iff & Hu).
  assert (HcE : edge_child e ∈ E0).
  { destruct Hc as [?|[? _]]; [|done]. by apply (pi_eligible p Hp). }
  destruct (pi_roles q Hq _ HcE) as [role Hrole]. rewrite Hrole; cbn.
  case_decide as Hprim; [subst role|by eexists]. eexists. split; [done|]. cbn.
  split_and!; [|split|done|done]; cbn.
  - apply (set_role_inv q); [done| |].
    + exists parent. split; [by apply (pi_eligible p Hp)|]. by exists e.
    + intros Hconf. apply (pi_support q Hq) in Hconf. congruence.
  - by rewrite <- Hel.
  - set_solver.
  - intros _ x Hx. pose proof (ev_support _ _ _ Hev ltac:(by intros [?|?]) x Hx) as Hx'.
    destruct (decide (x = edge_child e)) as [->|]; [congruence|]. by rewrite lookup_insert_ne.
Qed.

Lemma elem_of_rev (l : list string) x : x ∈ rev l <-> x ∈ l.
Proof. rewrite !list_elem_of_In. symmetry. apply in_rev. Qed.

(** The edges of the phase have had their effect at the visited parents. *)
Lemma apply_all rel order p :
  rel <> KnowledgeHierarchyRelation.DependsOn -> precedence_inv p ->
  (overriding rel -> forall parent, parent ∈ order ->
    settled rel (p_eligible p) (p_conflicted p) parent) ->
  exists p' reps, run_foldl (apply_parent h ix rel (p_eligible p)) (p, ∅) order = Ret (p', reps) /\
    precedence_inv p' /\ evolves rel p p' /\
    forall parent, parent ∈ order -> decided_at rel p' parent.
Proof.
  intros Hdep Hp Hset.
  destruct (run_foldl_prefix (fun visited st => precedence_inv st.1 /\ evolves rel p st.1 /\
    p_conflicted st.1 = p_conflicted p /\ (overriding rel -> replacements_ok rel st.2) /\
    forall parent, parent ∈ visited -> decided_at rel st.1 parent)
    (apply_parent h ix rel (p_eligible p)) (p, ∅) order)
    as ([p' reps] & Hrun & ? & ? & _ & _ & ?); [| |by exists p', reps].
  - intros visited parent [q reps] Hpar (Hq & Hev & Hco & Hreps & Hdone). cbn in *.
    assert (Hnext : exists q' reps', apply_parent h ix rel (p_eligible p) (q, reps) parent = Ret (q', reps') /\
      precedence_inv q' /\ evolves rel q q' /\ p_conflicted q' = p_conflicted q /\
      (overriding rel -> replacements_ok rel reps') /\ decided_at rel q' parent).
    { assert (Hcases : rel = KnowledgeHierarchyRelation.Specializes \/
        rel = KnowledgeHierarchyRelation.Refines \/ overriding rel)
        by (unfold overriding; destruct rel; tauto).
      destruct Hcases as [-> | [-> | Hov]].
      - destruct (apply_parent_specializes (p_eligible p) q reps parent Hq) as (q' & r' & ? & ? & ? & ? & ?).
        exists q', r'. split_and!; try done. by intros [?|?].
      - destruct (apply_parent_refines (p_eligible p) q reps parent Hq) as (q' & r' & ? & ? & ? & ?).
        exists q', r'. split_and!; try done; [by intros [?|?]|]. intros e _ _ _ _ _ _. by right; left.
      - destruct (apply_parent_overriding rel (p_eligible p) q reps parent Hov Hq (Hreps Hov)
          (ev_eligible _ _ _ Hev) (pi_eligible p Hp)) as (q' & r' & ? & ? & ? & ? & ? & ?).
        { rewrite Hco. by apply Hset. }
        by exists q', r'. }
    destruct Hnext as (q' & reps' & Hrun & Hq' & Hev' & Hco' & Hreps' & Hd).
    exists (q', reps'). split; [done|]. cbn. split_and!; [done|by eapply evolves_trans|congruence|done|].
    intros y [Hy| ->%list_elem_of_singleton]%elem_of_app; [|done].
    intros e He Hpe. eapply decided_evolves; [exact Hev'|done|by apply (Hdone y Hy)].
  - cbn. split_and!; [done|apply evolves_refl|done|by intros _ ? ?|set_solver].
Qed.

Lemma phase_spec rel order p :
  rel <> KnowledgeHierarchyRelation.DependsOn -> precedence_inv p ->
  (forall x, contains_node h x = true -> x ∈ order) ->
  exists p', phase h ix order p rel = Ret p' /\ precedence_inv p' /\ evolves rel p p' /\
    forall e, e ∈ edges h -> decided rel p' e.
Proof.
  intros Hdep Hp Hall. unfold phase.
  assert (Hdisc : exists p1, run_foldl (discover h ix order) p (conflict_relations rel) = Ret p1 /\
    precedence_inv p1 /\ evolves rel p p1 /\
    (overriding rel -> forall parent, parent ∈ rev order ->
      settled rel (p_eligible p1) (p_conflicted p1) parent)).
  { destruct (discover_phase_spec order rel p Hp) as (p1 & Hr & Hp1 & [Hel Hco] & Hset).
    exists p1. split_and!; [done|done| |].
    - split; [by rewrite Hel|done|]. intros Hnov x Hx. destruct rel; cbn in Hr; try (by injection Hr as <-).
      + destruct Hnov; by right.
      + destruct Hnov; by left.
    - intros Hov parent Hpar. rewrite Hel. apply Hset; [destruct Hov as [-> | ->]; set_solver|].
      by rewrite elem_of_rev in Hpar. }
  destruct Hdisc as (p1 & -> & Hp1 & Hev1 & Hset). cbn [mbind run_bind].
  destruct (apply_all rel (rev order) p1 Hdep Hp1 Hset) as (p2 & reps & -> & Hp2 & Hev2 & Hd).
  exists p2. split_and!; [done|done|by eapply evolves_trans|].
  intros e He. apply (Hd (edge_parent e)); [|done|done].
  destruct (edge_nodes h Hwf e He) as [Hpn _].
  rewrite elem_of_rev. by apply Hall.
Qed.

(** All four phases. *)
Lemma phases_spec order p :
  precedence_inv p -> (forall x, contains_node h x = true -> x ∈ order) ->
  exists p', run_foldl (phase h ix order) p phases = Ret p' /\ precedence_inv p' /\
    p_eligible p' ⊆ p_eligible p /\
    forall rel e, e ∈ edges h -> rel <> KnowledgeHierarchyRelation.DependsOn -> decided rel p' e.
Proof.
  intros Hp Hall. cbn [phases run_foldl].
  destruct (phase_spec KnowledgeHierarchyRelation.Supersedes order p) as (p1 & -> & Hp1 & Hev1 & Hd1);
    [done..|]. cbn [mbind run_bind].
  destruct (phase_spec KnowledgeHierarchyRelation.Excepts order p1) as (p2 & -> & Hp2 & Hev2 & Hd2);
    [done..|]. cbn [mbind run_bind].
  destruct (phase_spec KnowledgeHierarchyRelation.Specializes order p2) as (p3 & -> & Hp3 & Hev3 & Hd3);
    [done..|]. cbn [mbind run_bind].
  destruct (phase_spec KnowledgeHierarchyRelation.Refines order p3) as (p4 & -> & Hp4 & Hev4 & Hd4);
    [done..|]. cbn [mbind run_bind].
  exists p4. split_and!; [done|done| |].
  { destruct Hev1, Hev2, Hev3, Hev4. set_solver. }
  assert (Hn3 : ~ overriding KnowledgeHierarchyRelation.Specializes) by by intros [?|?].
  assert (Hn4 : ~ overriding KnowledgeHierarchyRelation.Refines) by by intros [?|?].
  intros [] e He Hdep; [| | | |done].
  - eapply decided_evolves; [exact Hev4|done|by apply Hd3].
  - by apply Hd4.
  - eapply decided_evolves; [exact Hev4|done|]. eapply decided_evolves; [exact Hev3|done|by apply Hd2].
  - eapply decided_evolves; [exact Hev4|done|]. eapply decided_evolves; [exact Hev3|done|].
    eapply decided_evolves; [exact Hev2|intros _; by left|by apply Hd1].
Qed.
End precedence_laws.
