(* ===== verification/ResolutionSpec.v ===== *)
(** What [resolve] of src/hierarchy/resolution.rs guarantees: termination
    without panic, authority, accounting, precedence and determinism. *)
From S2P Require Import Prelude Semver Scope ScopeRelation Hierarchy Topology Validation.
From S2P Require Import Resolution ResolutionState Precedence.

(** * Lineage *)

Section lineage.
Context `{SemverCrate} `{PredicateJson}.
Context (h : KnowledgeHierarchy) (Hwf : hierarchy_wf h).
Let ix := index_new h.

(** [x] is above [y] through a precedence edge. *)
Definition above (x y : string) : Prop := precedes h not_depends_on x y.

Lemma elem_of_lineage_parents id y : y ∈ lineage_parents ix id <-> above y id.
Proof.
  unfold lineage_parents, above, precedes, live_edge, ix. rewrite list_elem_of_fmap.
  setoid_rewrite elem_of_list_filter_bool. setoid_rewrite elem_of_parents. split.
  - intros (e & -> & Hr & He & Hc). exists e. destruct (edge_nodes h Hwf e He) as [-> ->].
    by rewrite Hr.
  - intros (e & He & Hl & Hp & Hc). exists e.
    apply andb_prop in Hl as [[Hl _]%andb_prop _]. by rewrite Hl.
Qed.

(** The ancestors that are still to be met. *)
Definition unmet (ancestors : gset string) : nat :=
  size (list_to_set (C := gset string) (edge_parent <$> edges h) ∖ ancestors).

Lemma above_parent x y : above x y -> x ∈ list_to_set (C := gset string) (edge_parent <$> edges h).
Proof.
  intros (e & He & _ & <- & _). apply elem_of_list_to_set, list_elem_of_fmap. by exists e.
Qed.

Lemma unmet_insert ancestors p :
  p ∈ list_to_set (C := gset string) (edge_parent <$> edges h) -> p ∉ ancestors ->
  unmet ancestors = S (unmet ({[p]} ∪ ancestors)).
Proof.
  intros Hp Hn. unfold unmet. set (P := list_to_set _) in *.
  replace (P ∖ ancestors) with ({[p]} ∪ P ∖ ({[p]} ∪ ancestors)).
  - rewrite size_union by set_solver. by rewrite size_singleton.
  - apply set_eq. intros x. destruct (decide (x = p)); set_solver.
Qed.

Lemma lineage_push_all ps ancestors pending :
  (forall p, p ∈ ps -> p ∈ list_to_set (C := gset string) (edge_parent <$> edges h)) ->
  let st := foldl lineage_push (ancestors, pending) ps in
  st.1 = list_to_set ps ∪ ancestors /\
  (forall x, x ∈ st.2 <-> x ∈ pending \/ (x ∈ ps /\ x ∉ ancestors)) /\
  length st.2 + unmet st.1 = length pending + unmet ancestors.
Proof.
  revert ancestors pending. induction ps as [|p ps IH]; intros ancestors pending Hps; cbn [foldl].
  { cbn. split_and!; [set_solver|set_solver|done]. }
  unfold lineage_push at 2 4 6 8; cbn [fst snd]. case_decide as Hp.
  - destruct (IH ancestors pending) as (-> & Hx & Hl); [set_solver|]. split_and!; [set_solver| |done].
    intros x. rewrite Hx. set_solver.
  - destruct (IH ({[p]} ∪ ancestors) (p :: pending)) as (-> & Hx & Hl); [set_solver|].
    split_and!; [set_solver| |].
    + intros x. rewrite Hx. destruct (decide (x = p)) as [->|]; set_solver.
    + rewrite Hl, (unmet_insert ancestors p); [cbn; lia|set_solver|done].
Qed.

Record climbing (id : string) (ancestors : gset string) (pending : list string) : Prop := {
  cb_above : forall y, y ∈ ancestors -> tc above y id;
  cb_pending : forall y, y ∈ pending -> y = id \/ y ∈ ancestors;
  cb_closed : forall x y, x = id \/ x ∈ ancestors -> x ∉ pending -> above y x -> y ∈ ancestors;
}.

Lemma lineage_loop_returns fuel id ancestors pending :
  climbing id ancestors pending -> length pending + unmet ancestors < fuel ->
  exists ancestors', lineage_loop ix fuel ancestors pending = Ret ancestors' /\
    climbing id ancestors' [].
Proof.
  revert ancestors pending. induction fuel as [|fuel IH]; intros ancestors pending Hc Hf; [lia|].
  cbn [lineage_loop]. destruct pending as [|x pending]; [by exists ancestors|].
  destruct (lineage_push_all (lineage_parents ix x) ancestors pending) as (Ha & Hp & Hl).
  { intros p Hp%elem_of_lineage_parents. by eapply above_parent. }
  destruct (foldl lineage_push _ _) as [anc' pend']. cbn [fst snd] in *. subst anc'.
  apply IH; [|cbn in Hf; lia]. destruct Hc as [Hab Hpe Hcl].
  assert (Hx : x = id \/ x ∈ ancestors) by (apply Hpe; set_solver).
  split.
  - intros y [Hy%elem_of_list_to_set%elem_of_lineage_parents|Hy]%elem_of_union; [|by apply Hab].
    destruct Hx as [->|Hx]; [by apply tc_once|]. eapply tc_l; [exact Hy|by apply Hab].
  - intros y [Hy|[Hy _]]%Hp; [|set_solver]. destruct (Hpe y); [set_solver..|]. set_solver.
  - intros z y Hz Hzp Hyz. apply elem_of_union. destruct (decide (z = x)) as [->|Hzx].
    + left. by apply elem_of_list_to_set, elem_of_lineage_parents.
    + right. apply (Hcl z y); [|set_solver|done].
      destruct Hz as [?|[Hz|?]%elem_of_union]; [by left| |by right].
      destruct (decide (z ∈ ancestors)); [by right|]. destruct Hzp. apply Hp. right. set_solver.
Qed.

(** The lineage of a node is the sorted set of its precedence ancestors. *)
Lemma lineage_returns id : exists l, lineage h ix id = Ret l /\
  (forall y, y ∈ l <-> tc above y id) /\ NoDup l /\ StronglySorted ord_le l.
Proof.
  unfold lineage. destruct (lineage_loop_returns (S (S (length (edges h)))) id ∅ [id])
    as (anc & -> & Hc).
  { split; [set_solver|set_solver|]. intros x y [->|?] ?; set_solver. }
  { unfold unmet. rewrite difference_empty_L.
    assert (Hs : forall l : list string, size (list_to_set (C := gset string) l) <= length l).
    { induction l as [|x l IHl]; cbn; [by rewrite size_empty|].
      rewrite size_union_alt. etransitivity; [apply Nat.add_le_mono_l, subseteq_size, subseteq_difference_l; reflexivity|].
      rewrite size_singleton. lia. }
    specialize (Hs (edge_parent <$> edges h)). rewrite length_fmap in Hs. cbn. lia. }
  exists (btree_set anc). cbn. split; [done|]. split_and!; [|apply NoDup_btree_set|apply btree_set_sorted].
  intros y. rewrite elem_of_btree_set. destruct Hc as [Hab _ Hcl]. split; [apply Hab|].
  intros Hy. assert (Hgo : forall x, x = id \/ x ∈ anc -> tc above y x -> y ∈ anc).
  { clear Hy. intros x Hx Hyx. revert Hx. induction Hyx as [y x Hyx|y z x Hyz _ IH]; intros Hx.
    - apply (Hcl x); [done|set_solver|done].
    - apply (Hcl z); [by right; apply IH|set_solver|done]. }
  by apply (Hgo id); [left|].
Qed.
End lineage.

(** * Output *)

Section output_laws.
Context `{SemverCrate} `{PredicateJson}.
Context (h : KnowledgeHierarchy) (Hwf : hierarchy_wf h) (context : KnowledgeContext).
Let ix := index_new h.
Implicit Types (out : EffectiveKnowledge).

(** The entry of an applied node reports the node as it is. *)
Definition entry_ok (roles : gmap string AppliedKnowledgeRole.t) (id : string) (a : AppliedKnowledge) :
    Prop :=
  app_node a = id /\ roles !! id = Some (app_role a) /\
  (exists n, nodes h !! id = Some n /\ app_artifact a = node_artifact n /\
     app_applicability a = evaluate (node_scope n) context) /\
  (forall y, y ∈ app_lineage a <-> tc (above h) y id) /\ NoDup (app_lineage a) /\
  StronglySorted ord_le (app_lineage a).

(** Everything but the applied nodes and the trace. *)
Definition same_verdicts out out' : Prop :=
  eff_advisory out' = eff_advisory out /\ eff_suppressed out' = eff_suppressed out /\
  eff_unknown out' = eff_unknown out /\ eff_conflicts out' = eff_conflicts out.

Lemma materialize_returns scopes roles out id n :
  nodes h !! id = Some n -> scopes !! id = Some (evaluate (node_scope n) context) ->
  is_Some (roles !! id) ->
  exists out' a, materialize h ix scopes roles out id = Ret out' /\
    eff_applied out' = eff_applied out ++ [a] /\ entry_ok roles id a /\ same_verdicts out out' /\
    (trace_numbered out -> trace_numbered out').
Proof.
  intros Hn Hs [role Hr]. unfold materialize.
  destruct (lineage_returns h Hwf id) as (l & Hl & Hmem & Hnd & Hsort). fold ix in Hl. rewrite Hl; cbn [mbind run_bind].
  rewrite Hr; cbn [mbind run_bind index_or_panic]. unfold node_at. rewrite Hn, Hs; cbn [mbind run_bind index_or_panic].
  eexists _, (applied n (evaluate (node_scope n) context) role l). split; [done|].
  destruct (wf_nodes h Hwf id n Hn) as [Hid _]. split; [done|]. split.
  - unfold entry_ok; cbn in *. split_and!; try done. by exists n.
  - split; [by split_and!|]. apply trace_numbered_step.
Qed.

Lemma materialize_all scopes roles ids out :
  (forall id, id ∈ ids -> is_Some (roles !! id) /\ exists n, nodes h !! id = Some n /\
     scopes !! id = Some (evaluate (node_scope n) context)) ->
  exists out' entries, run_foldl (materialize h ix scopes roles) out ids = Ret out' /\
    eff_applied out' = eff_applied out ++ entries /\ Forall2 (entry_ok roles) ids entries /\
    same_verdicts out out' /\ (trace_numbered out -> trace_numbered out').
Proof.
  revert out. induction ids as [|id ids IH]; intros out Hids; cbn [run_foldl].
  { exists out, []. rewrite app_nil_r. by split_and!. }
  destruct (Hids id) as (Hr & n & Hn & Hs); [set_solver|].
  destruct (materialize_returns scopes roles out id n Hn Hs Hr)
    as (out1 & a & -> & Ha & He & (H1a & H1s & H1u & H1c) & Ht). cbn [mbind run_bind].
  destruct (IH out1) as (out2 & entries & Hrun & Ha2 & He2 & (H2a & H2s & H2u & H2c) & Ht2);
    [set_solver|].
  exists out2, (a :: entries). split; [done|]. rewrite Ha2, Ha, <- app_assoc.
  split; [done|]. split; [by constructor|]. split; [split_and!; congruence|tauto].
Qed.

Lemma entries_nodes roles ids entries :
  Forall2 (entry_ok roles) ids entries -> app_node <$> entries = ids.
Proof. induction 1 as [|id a ids entries [Hid _] _ IH]; cbn; [done|]. by rewrite Hid, IH. Qed.

Lemma accounted_sort out : accounted (sort_output out) ≡ₚ accounted out.
Proof.
  unfold accounted, sort_output; cbn.
  by rewrite (sort_by_key_perm app_node), (sort_by_key_perm sup_node), (sort_by_key_perm unk_node).
Qed.
End output_laws.

(** * The resolution of a valid hierarchy *)

Section resolve_laws.
Context `{SemverCrate} `{PredicateJson} `{!ReportJson}.
Context (h : KnowledgeHierarchy) (context : KnowledgeContext).

(** The nodes allowed to govern: they and all their transitive prerequisites
    have authority in the context, and none of these depends on itself. *)
Definition governs (threshold : Z) (x : string) : Prop :=
  forall y, rtc (prerequisite h) y x ->
    (exists n, nodes h !! y = Some n /\ authoritative context threshold n) /\
    ~ tc (prerequisite h) y y.

Definition conflicted_nodes (out : EffectiveKnowledge) : list string :=
  mjoin (conf_nodes <$> eff_conflicts out).

(** The guarantees of [resolve_valid], collected. *)
Record resolution (threshold : Z) (out : EffectiveKnowledge) : Prop := {
  rs_governing : exists E0 : gset string,
    (forall x, x ∈ E0 <-> governs threshold x) /\
    (forall a, a ∈ eff_applied out ->
      app_node a ∈ E0 /\ role_ok h E0 (list_to_set (conflicted_nodes out)) (app_node a) (app_role a)) /\
    Forall (suppression_ok h E0) (eff_suppressed out);
  rs_entries : forall a, a ∈ eff_applied out -> exists roles, entry_ok h context roles (app_node a) a;
  rs_accounted : accounted out ≡ₚ btree_keys (nodes h);
  rs_trace : trace_numbered out;
  rs_decided : forall a b e, a ∈ eff_applied out -> b ∈ eff_applied out ->
    e ∈ edges h -> usable_edge h e = true -> edge_parent e = app_node a -> edge_child e = app_node b ->
    edge_relation e <> KnowledgeHierarchyRelation.DependsOn ->
    edge_child e ∈ conflicted_nodes out \/
    edge_relation e = KnowledgeHierarchyRelation.Refines \/
    (edge_relation e = KnowledgeHierarchyRelation.Specializes /\
     app_role a = AppliedKnowledgeRole.SupportingContext);
  rs_conflicted : forall a, a ∈ eff_applied out -> app_node a ∈ conflicted_nodes out ->
    app_role a = AppliedKnowledgeRole.SupportingContext;
  rs_sorted : StronglySorted ord_le (app_node <$> eff_applied out) /\
    StronglySorted ord_le (app_node <$> eff_advisory out) /\
    StronglySorted ord_le (sup_node <$> eff_suppressed out) /\
    StronglySorted ord_le (unk_node <$> eff_unknown out);
}.

(** Classification and health give the governing nodes. *)
Lemma governing_returns policy threshold : hierarchy_wf h ->
  let '(out, scopes, eligible) :=
    foldl (classify context policy threshold) (empty_effective, ∅, ∅) (btree_map (nodes h)) in
  exists out' E0, propagate_health h (index_new h) out eligible = Ret (out', E0) /\
    (forall x, x ∈ E0 <-> governs threshold x) /\
    (forall id n, nodes h !! id = Some n -> scopes !! id = Some (evaluate (node_scope n) context)) /\
    elements E0 ++ accounted out' ≡ₚ btree_keys (nodes h) /\ trace_numbered out' /\ no_precedence out'.
Proof.
  intros Hwf. pose proof (classify_all context policy threshold (btree_map (nodes h))) as Hc.
  destruct (foldl _ _ _) as [[out scopes] E1]. destruct Hc as [He Hs Ha Ht Hn].
  { apply NoDup_btree_keys. }
  { apply Forall_forall. intros [id n] Hin%elem_of_btree_map. by destruct (wf_nodes h Hwf id n Hin). }
  cbn [fst snd] in *. setoid_rewrite elem_of_btree_map in He. setoid_rewrite elem_of_btree_map in Hs.
  destruct (propagate_health_spec h Hwf E1 out) as (out' & E0 & Hrun & HE0 & Ha' & Ht' & Hn');
    [|done|done|done|].
  { intros x (n & Hx & _)%He. apply contains_node_iff. by eexists. }
  exists out', E0. split_and!; try done.
  intros x. rewrite HE0. unfold healthy, governs. setoid_rewrite He. split.
  - intros [_ Hy]. exact Hy.
  - intros Hy. split; [|done]. by apply (Hy x).
Qed.

Lemma initial_precedence out E0 :
  elements E0 ++ accounted out ≡ₚ btree_keys (nodes h) -> trace_numbered out -> no_precedence out ->
  precedence_inv h E0 (mkPrecedence out E0 (gset_to_gmap AppliedKnowledgeRole.Primary E0) ∅).
Proof.
  intros Ha Ht (Happ & Hconf & Hsup). split; cbn; try done.
  - intros x Hx. exists AppliedKnowledgeRole.Primary. by apply lookup_gset_to_gmap_Some.
  - intros x r [_ <-]%lookup_gset_to_gmap_Some. done.
  - intros x. rewrite Hconf. set_solver.
  - eapply Forall_impl; [exact Hsup|]. intros s Hs b Hb. congruence.
Qed.

Lemma governs_node threshold x : governs threshold x -> contains_node h x = true.
Proof. intros Hg. destruct (Hg x) as [(n & Hn & _) _]; [done|]. apply contains_node_iff. by eexists. Qed.

Lemma sorted_fmap {A} (f : A -> string) (l : list A) :
  StronglySorted (fun x y => ord_le (f x) (f y)) l -> StronglySorted ord_le (f <$> l).
Proof.
  induction 1 as [|x l _ IH Hx]; cbn; [constructor|]. constructor; [done|].
  by apply Forall_fmap.
Qed.

(** Output of the last stage from the state after the phases. *)
Lemma materialized_resolution threshold E0 p out entries :
  (forall x, x ∈ E0 <-> governs threshold x) -> precedence_inv h E0 p ->
  (forall rel e, e ∈ edges h -> rel <> KnowledgeHierarchyRelation.DependsOn -> decided h rel p e) ->
  eff_applied out = entries ->
  Forall2 (entry_ok h context (p_roles p)) (btree_set (p_eligible p)) entries ->
  same_verdicts (p_out p) out -> trace_numbered out ->
  resolution threshold (sort_output out).
Proof.
  intros HE Hp Hdec Happ Hent (Hadv & Hsup & Hunk & Hconf) Ht.
  pose proof (entries_nodes _ _ _ _ _ Hent) as Hids.
  assert (Hent' : forall a, a ∈ entries -> app_node a ∈ p_eligible p /\
    entry_ok h context (p_roles p) (app_node a) a).
  { intros a (i & Hi)%list_elem_of_lookup_1. apply Forall2_lookup_r with (i := i) (y := a) in Hent as (id & Hid & Ha); [|done].
    pose proof (proj1 Ha) as <-. split; [|done]. apply elem_of_btree_set.
    by eapply list_elem_of_lookup_2. }
  assert (Hcn : forall x, x ∈ conflicted_nodes (sort_output out) <-> x ∈ p_conflicted p).
  { intros x. unfold conflicted_nodes; cbn. rewrite Hconf, (pi_conflicts _ _ p Hp).
    rewrite list_elem_of_join. setoid_rewrite list_elem_of_fmap. naive_solver. }
  split; cbn [sort_output eff_applied eff_suppressed]; rewrite ?Happ.
  - exists E0. split; [done|]. split.
    + intros a Ha. destruct (Hent' a Ha) as (Hel & _ & Hr & _). split; [by apply Hp|].
      apply (role_ok_mono h E0 (p_conflicted p)); [|exact (pi_roles_ok h E0 p Hp _ _ Hr)].
      intros x Hx. by apply elem_of_list_to_set, Hcn.
    + rewrite Hsup. apply Forall_forall. intros s Hs%elem_of_sort_by_key.
      by eapply Forall_forall; [apply pi_suppressed|].
  - intros a Ha. exists (p_roles p). by apply Hent'.
  - rewrite accounted_sort, <- (pi_accounted _ _ p Hp).
    unfold accounted. rewrite Happ, Hids, Hadv, Hsup, Hunk, (pi_applied _ _ p Hp); cbn.
    by rewrite btree_set_perm.
  - exact Ht.
  - intros a b e Ha Hb He Hu Hpa Hpb Hr. rewrite Hcn.
    destruct (Hent' a Ha) as (Hela & _ & Hra & _), (Hent' b Hb) as (Helb & _).
    destruct (Hdec (edge_relation e) e He Hr eq_refl Hu) as [?|[?|[? Hx]]];
      [by rewrite Hpa|by rewrite Hpb|by left|by right; left|].
    right; right. split; [done|]. rewrite Hpa, Hra in Hx. by injection Hx.
  - intros a Ha Hc%Hcn. destruct (Hent' a Ha) as (_ & _ & Hra & _).
    apply (pi_support _ _ p Hp) in Hc. congruence.
  - cbn. rewrite Hids. split; [apply btree_set_sorted|].
    split_and!; apply sorted_fmap, sort_by_key_sorted.
Qed.

Lemma resolve_valid_returns policy threshold : hierarchy_wf h ->
  exists out, resolve_valid h context policy threshold = Ret out /\ resolution threshold out.
Proof.
  intros Hwf. unfold resolve_valid.
  destruct (topological_spec h not_depends_on) as (order & Ho & Hnd & Hon & _ & Hac).
  rewrite Ho; cbn [mbind run_bind].
  pose proof (governing_returns policy threshold Hwf) as Hg.
  destruct (foldl _ _ (btree_map (nodes h))) as [[out scopes] E1].
  destruct Hg as (out1 & E0 & -> & HE & Hsc & Ha & Ht & Hnp). cbn [mbind run_bind].
  assert (HE0 : forall x, x ∈ E0 -> contains_node h x = true) by (intros x Hx; by eapply governs_node, HE).
  destruct (phases_spec h Hwf E0 HE0 order _ (initial_precedence out1 E0 Ha Ht Hnp))
    as (p & -> & Hp & Hsub & Hdec).
  { apply full_order; [done|done|]. apply Hac, Hwf. }
  cbn [mbind run_bind].
  destruct (materialize_all h Hwf context scopes (p_roles p) (btree_set (p_eligible p)) (p_out p))
    as (out2 & entries & -> & Happ & Hent & Hsame & Htr).
  { intros id Hid%elem_of_btree_set. apply (pi_eligible _ _ p Hp) in Hid.
    split; [by apply (pi_roles _ _ p Hp)|]. destruct (proj1 (HE id) Hid id) as [(n & Hn & _) _]; [done|].
    exists n. split; [done|by apply Hsc]. }
  eexists. split; [done|]. eapply (materialized_resolution threshold E0 p out2 entries); try done.
  - by rewrite Happ, (pi_applied _ _ p Hp).
  - apply Htr, Hp.
Qed.
End resolve_laws.
