(* ===== verification/Resolver.v ===== *)
(** The theorems about [DeterministicKnowledgeResolver::resolve], with a
    concrete hierarchy on which they are exercised. *)
From S2P Require Import Prelude Semver Scope ScopeRelation Hierarchy Topology Validation.
From S2P Require Import Resolution ResolutionState Precedence ResolutionSpec.

(** * The order of the edges is immaterial *)

Section reorder.
Context `{SemverCrate} `{PredicateJson} `{!ReportJson}.
Context (h : KnowledgeHierarchy) (es : list KnowledgeHierarchyEdge).
Context (Hperm : es ≡ₚ edges h) (Hids : NoDup (edge_id <$> edges h)).

Definition reorder : KnowledgeHierarchy :=
  mkHierarchy (hierarchy_id h) (hierarchy_name h) (root_nodes h) (nodes h) es
    (hierarchy_revision h) (hierarchy_created_at h) (hierarchy_updated_at h).

Lemma edge_key_inj x y : x ∈ edges h -> y ∈ edges h -> edge_key x = edge_key y -> x = y.
Proof.
  intros Hx Hy [= _ _ _ Hid]. apply list_elem_of_lookup_1 in Hx as [i Hi], Hy as [j Hj].
  assert (i = j) as ->; [|congruence].
  eapply (NoDup_lookup (edge_id <$> edges h) i j (edge_id x)); [done| |].
  - by rewrite list_lookup_fmap, Hi.
  - rewrite list_lookup_fmap, Hj. cbn. by rewrite Hid.
Qed.

Lemma index_reorder : index_new reorder = index_new h.
Proof.
  unfold index_new, sorted_edges. cbn [reorder edges].
  by rewrite (sort_by_key_unique edge_key (edges h) es edge_key_inj (symmetry Hperm)).
Qed.

Lemma counts_reorder select : initial_counts reorder select = initial_counts h select.
Proof.
  apply map_eq. intros x. rewrite !initial_counts_lookup.
  change (contains_node reorder x) with (contains_node h x). destruct (contains_node h x); [|done].
  do 2 f_equal. unfold pending. by apply countb_perm.
Qed.

Lemma topological_reorder select :
  topological reorder (index_new h) select = topological h (index_new h) select.
Proof. unfold topological. by rewrite counts_reorder. Qed.

Lemma validate_reorder : validate_hierarchy reorder = validate_hierarchy h.
Proof.
  unfold validate_hierarchy. rewrite index_reorder, topological_reorder.
  change (foldl (validate_root reorder)) with (foldl (validate_root h)).
  change (foldl (validate_edge reorder)) with (foldl (validate_edge h)). cbn [reorder nodes root_nodes].
  destruct (foldl (validate_root h) _ _) as [r1 roots].
  destruct (foldl (validate_edge h) _ _) as [r2 seen].
  erewrite run_foldl_ext; [reflexivity|]. intros r [kind select] _.
  unfold validate_cycles. by rewrite topological_reorder.
Qed.

Lemma resolve_valid_reorder context policy threshold :
  resolve_valid reorder context policy threshold = resolve_valid h context policy threshold.
Proof.
  unfold resolve_valid. rewrite index_reorder, topological_reorder. cbn [reorder nodes].
  destruct (topological h _ _) as [order| |]; [|reflexivity..]. cbn [mbind run_bind].
  destruct (foldl _ _ _) as [[out scopes] E1].
  assert (Hh : propagate_health reorder (index_new h) out E1 = propagate_health h (index_new h) out E1).
  { unfold propagate_health, health_fuel. rewrite topological_reorder. cbn [reorder edges].
    by rewrite (Permutation_length Hperm). }
  rewrite Hh; clear Hh. destruct (propagate_health h _ _ _) as [[out1 E0]| |]; [|reflexivity..]. cbn [mbind run_bind].
  change (run_foldl (phase reorder (index_new h) order)) with (run_foldl (phase h (index_new h) order)).
  destruct (run_foldl (phase h _ order) _ _) as [p| |]; [|reflexivity..]. cbn [mbind run_bind].
  erewrite run_foldl_ext; [reflexivity|]. intros out2 id _. unfold materialize, lineage.
  cbn [reorder edges]. by rewrite (Permutation_length Hperm).
Qed.

Lemma resolve_reorder context policy : resolve reorder context policy = resolve h context policy.
Proof.
  unfold resolve. rewrite validate_reorder. destruct (validate_hierarchy h) as [v| |]; [|done..].
  cbn [mbind run_bind]. destruct (negb _); [done|]. destruct (maturity_rank _); [|done].
  destruct (stale_exception_can_override _); [done|]. by rewrite resolve_valid_reorder.
Qed.
End reorder.

(** * The theorems *)

Section theorems.
Context `{SemverCrate} `{PredicateJson} `{!ReportJson}.
Implicit Types (h : KnowledgeHierarchy) (context : KnowledgeContext)
  (policy : KnowledgeResolutionPolicy) (out : EffectiveKnowledge).

Lemma resolve_cases h context policy : exists res, resolve h context policy = Ret res /\
  (is_ok res = true <->
   hierarchy_wf h /\ is_Some (maturity_rank (minimum_primary_maturity policy)) /\
   stale_exception_can_override policy = false) /\
  (forall out, res = Ok out -> exists threshold,
     maturity_rank (minimum_primary_maturity policy) = Some threshold /\
     hierarchy_wf h /\ resolution h context threshold out).
Proof.
  unfold resolve. destruct (validate_hierarchy_spec h) as (v & -> & Hv). cbn [mbind run_bind].
  destruct (valid v) eqn:Ev; cbn [negb].
  2: { eexists. split; [done|]. destruct (report_to_string v); cbn; split; try done.
       all: split; [done|]; intros [Hwf%Hv _]; congruence. }
  pose proof (proj1 Hv eq_refl) as Hwf. destruct (maturity_rank _) as [threshold|] eqn:Em.
  2: { eexists. split; [done|]. split; [|done]. cbn. split; [done|]. by intros (_ & [? ?] & _). }
  destruct (stale_exception_can_override policy) eqn:Es.
  { eexists. split; [done|]. split; [|done]. cbn. split; [done|]. by intros (_ & _ & ?). }
  destruct (resolve_valid_returns h context policy threshold Hwf) as (out & -> & Hout). cbn.
  eexists. split; [done|]. split; [split; [|done]; intros _; split_and!; [done|by eexists|done]|].
  intros out' [= <-]. by exists threshold.
Qed.

Lemma resolve_resolution h context policy out : resolve h context policy = Ret (Ok out) ->
  exists threshold, maturity_rank (minimum_primary_maturity policy) = Some threshold /\
    hierarchy_wf h /\ resolution h context threshold out.
Proof.
  intros Hr. destruct (resolve_cases h context policy) as (res & Hres & _ & Hok).
  rewrite Hr in Hres. injection Hres as <-. by apply Hok.
Qed.

(** C19. Resolution always returns: no index is out of range and every loop
    ends. It succeeds exactly on valid hierarchies under a policy whose minimum
    maturity is a support stage and that does not let stale exceptions
    override; in every other case it is an error. *)
Theorem resolve_total h context policy : exists res, resolve h context policy = Ret res /\
  (is_ok res = true <->
   hierarchy_wf h /\ is_Some (maturity_rank (minimum_primary_maturity policy)) /\
   stale_exception_can_override policy = false).
Proof. destruct (resolve_cases h context policy) as (res & ? & ? & _). by exists res. Qed.

(** C1. Authority: an applied node, and every node it transitively depends on,
    is applicable in the context, active, fresh, at least as mature as the
    policy demands and backed by evidence, and none depends on itself. *)
Theorem resolve_authority h context policy out a :
  resolve h context policy = Ret (Ok out) -> a ∈ eff_applied out ->
  exists threshold, maturity_rank (minimum_primary_maturity policy) = Some threshold /\
    governs h context threshold (app_node a).
Proof.
  intros (threshold & Hm & _ & Hres)%resolve_resolution Ha. exists threshold. split; [done|].
  destruct (rs_governing _ _ _ _ Hres) as (E0 & HE & Happ & _). by apply HE, Happ.
Qed.

(** Accounting: every node of the hierarchy appears exactly once among the
    applied, advisory, suppressed and unknown nodes; each list is sorted by
    node. *)
Theorem resolve_accounts_for_every_node h context policy out :
  resolve h context policy = Ret (Ok out) ->
  accounted out ≡ₚ btree_keys (nodes h) /\
  StronglySorted ord_le (app_node <$> eff_applied out) /\
  StronglySorted ord_le (app_node <$> eff_advisory out) /\
  StronglySorted ord_le (sup_node <$> eff_suppressed out) /\
  StronglySorted ord_le (unk_node <$> eff_unknown out).
Proof.
  intros (threshold & _ & _ & Hres)%resolve_resolution.
  split; [by eapply rs_accounted|by eapply rs_sorted].
Qed.

(** Precedence is decided: when a usable edge joins two applied nodes,
    either its child was reported in a conflict, or the edge is a refinement
    (both apply), or it is a specialization and the parent only supports. In
    particular no node stays applied beside an unconflicted superseder or
    exception. *)
Theorem resolve_precedence_decided h context policy out a b e :
  resolve h context policy = Ret (Ok out) ->
  a ∈ eff_applied out -> b ∈ eff_applied out -> e ∈ edges h -> usable_edge h e = true ->
  edge_parent e = app_node a -> edge_child e = app_node b ->
  edge_relation e <> KnowledgeHierarchyRelation.DependsOn ->
  edge_child e ∈ conflicted_nodes out \/
  edge_relation e = KnowledgeHierarchyRelation.Refines \/
  (edge_relation e = KnowledgeHierarchyRelation.Specializes /\
   app_role a = AppliedKnowledgeRole.SupportingContext).
Proof. intros (threshold & _ & _ & Hres)%resolve_resolution. by eapply rs_decided. Qed.

(** No suppression without authority: a node suppressed by another one was
    itself entitled to govern, so was its suppressor, and a chain of usable
    supersessions (or exceptions, by the reason) leads from it to the
    suppressor. *)
Theorem resolve_suppression_justified h context policy out s by_ :
  resolve h context policy = Ret (Ok out) -> s ∈ eff_suppressed out -> suppressed_by s = Some by_ ->
  exists threshold, maturity_rank (minimum_primary_maturity policy) = Some threshold /\
    governs h context threshold (sup_node s) /\ governs h context threshold by_ /\
    (sup_reason s = SuppressionReason.Superseded /\
       tc (overrides h KnowledgeHierarchyRelation.Supersedes) (sup_node s) by_ \/
     sup_reason s = SuppressionReason.ExplicitException /\
       tc (overrides h KnowledgeHierarchyRelation.Excepts) (sup_node s) by_).
Proof.
  intros (threshold & Hm & _ & Hres)%resolve_resolution Hs Hb. exists threshold. split; [done|].
  destruct (rs_governing _ _ _ _ Hres) as (E0 & HE & _ & Hsup).
  destruct (proj1 (Forall_forall _ _) Hsup s Hs by_ Hb) as (Hn & Hby & Hr).
  split_and!; [by apply HE|by apply HE|done].
Qed.

(** Roles are justified: an exception (a refinement) has a usable edge of
    that kind from a node entitled to govern, supporting context is either
    conflicted or has a usable specialization, and a node reported in a
    conflict never applies in any other role. The entry carries the node's
    artifact, its applicability and its sorted set of precedence ancestors. *)
Theorem resolve_roles h context policy out a :
  resolve h context policy = Ret (Ok out) -> a ∈ eff_applied out ->
  (exists threshold (E0 : gset string), (forall x, x ∈ E0 <-> governs h context threshold x) /\
     role_ok h E0 (list_to_set (conflicted_nodes out)) (app_node a) (app_role a)) /\
  (app_node a ∈ conflicted_nodes out -> app_role a = AppliedKnowledgeRole.SupportingContext) /\
  (exists n, nodes h !! app_node a = Some n /\ app_artifact a = node_artifact n /\
     app_applicability a = evaluate (node_scope n) context) /\
  (forall y, y ∈ app_lineage a <-> tc (above h) y (app_node a)) /\
  NoDup (app_lineage a) /\ StronglySorted ord_le (app_lineage a).
Proof.
  intros (threshold & _ & _ & Hres)%resolve_resolution Ha.
  destruct (rs_governing _ _ _ _ Hres) as (E0 & HE & Happ & _).
  destruct (rs_entries _ _ _ _ Hres a Ha) as (roles & _ & _ & Hn & Hl).
  split; [exists threshold, E0; split; [done|by apply Happ]|].
  split; [by eapply rs_conflicted|]. done.
Qed.

(** The trace is numbered from one, without gaps. *)
Theorem resolve_trace_numbered h context policy out :
  resolve h context policy = Ret (Ok out) ->
  step_sequence <$> eff_trace out = Z.of_nat <$> seq 1 (length (eff_trace out)).
Proof. intros (threshold & _ & _ & Hres)%resolve_resolution. apply (rs_trace _ _ _ _ Hres). Qed.

(** Edge order in the input is immaterial: any permutation of the edges
    gives the same outcome, trace included. *)
Theorem resolve_edge_order h es context policy :
  es ≡ₚ edges h -> NoDup (edge_id <$> edges h) ->
  resolve (reorder h es) context policy = resolve h context policy.
Proof. intros Hperm Hids. by apply resolve_reorder. Qed.
End theorems.

(** * Witnesses *)

Module ResolverExamples.
Import Semver.Sample Scope.ScopeExamples.

#[local] Instance sample_report : ReportJson := fun _ => Ok EmptyString.

Definition evidence : list EvidenceRef := [mkEvidence "experiment" "e1"].
Definition provenance : KnowledgeProvenance :=
  mkProvenance [] [] evidence [] KnowledgeOrigin.Local "reviewer" 0.
Definition make_node (id : string) (scope : list (ScopePredicate (H := json)))
    (freshness : FreshnessStatus.t) : string * KnowledgeHierarchyNode (H := json) :=
  (id, mkNode id (mkArtifact KnowledgeArtifactKind.Lesson id 1) (mkScope scope)
         KnowledgeMaturity.Validated freshness KnowledgeActivationState.Active provenance).

Definition make_edge (id parent child : string) (rel : KnowledgeHierarchyRelation.t) :
    KnowledgeHierarchyEdge := mkEdge id parent child rel evidence 0.

(** [general] is specialized by [special]; [old] is superseded by [new]; two
    exceptions [left] and [right] compete under [ruled]; [stale] only advises
    and takes [dependent] down with it; [other] does not apply. *)
Definition sample_edges : list KnowledgeHierarchyEdge :=
  [make_edge "e1" "general" "special" KnowledgeHierarchyRelation.Specializes;
   make_edge "e2" "old" "new" KnowledgeHierarchyRelation.Supersedes;
   make_edge "e3" "ruled" "left" KnowledgeHierarchyRelation.Excepts;
   make_edge "e4" "ruled" "right" KnowledgeHierarchyRelation.Excepts;
   make_edge "e5" "stale" "dependent" KnowledgeHierarchyRelation.DependsOn].

Definition sample_hierarchy : KnowledgeHierarchy (H := json) :=
  mkHierarchy "h" "sample"
    ["general"; "old"; "ruled"; "stale"; "dependent"; "other"]
    (list_to_map
       [make_node "general" [provider_x] FreshnessStatus.Fresh;
        make_node "special" [provider_x; api_range] FreshnessStatus.Fresh;
        make_node "old" [provider_x] FreshnessStatus.Fresh;
        make_node "new" [provider_x] FreshnessStatus.Fresh;
        make_node "ruled" [provider_x] FreshnessStatus.Fresh;
        make_node "left" [provider_x; api_range] FreshnessStatus.Fresh;
        make_node "right" [provider_x] FreshnessStatus.Fresh;
        make_node "stale" [provider_x] FreshnessStatus.Stale;
        make_node "dependent" [provider_x] FreshnessStatus.Fresh;
        make_node "other" [Equals "provider" (SString "y")] FreshnessStatus.Fresh])
    sample_edges 1 0 0.

Definition sample_output : EffectiveKnowledge (H := json) :=
  match resolve sample_hierarchy sample_context default_policy with
  | Ret (Ok out) => out
  | _ => empty_effective
  end.

Example sample_valid : match validate_hierarchy sample_hierarchy with
  | Ret r => (valid r, length (errors r), length (warnings r)) = (true, 0, 0)
  | _ => False end.
Proof. vm_compute. reflexivity. Qed.

Lemma sample_resolves :
  resolve sample_hierarchy sample_context default_policy = Ret (Ok sample_output).
Proof. vm_compute. reflexivity. Qed.

Definition summary (out : EffectiveKnowledge (H := json)) :=
  ((fun a => (app_node a, app_role a)) <$> eff_applied out,
   app_node <$> eff_advisory out,
   (fun s => (sup_node s, sup_reason s, suppressed_by s)) <$> eff_suppressed out,
   (fun u => (unk_node u, unk_reason u)) <$> eff_unknown out,
   conf_nodes <$> eff_conflicts out).

Example sample_summary : summary sample_output =
  ([("general", AppliedKnowledgeRole.SupportingContext);
    ("left", AppliedKnowledgeRole.SupportingContext);
    ("new", AppliedKnowledgeRole.Primary);
    ("right", AppliedKnowledgeRole.SupportingContext);
    ("ruled", AppliedKnowledgeRole.Primary);
    ("special", AppliedKnowledgeRole.Primary)],
   ["stale"],
   [("old", SuppressionReason.Superseded, Some "new");
    ("other", SuppressionReason.Inapplicable, None)],
   [("dependent", UnknownKnowledgeReason.EvidenceStateUnknown)],
   [["left"; "right"]]).
Proof. vm_compute. reflexivity. Qed.

(** Entry [i] of a list of the output. *)
Definition applied_at (i : nat) : AppliedKnowledge (H := json) :=
  default (mkApplied (mkArtifact KnowledgeArtifactKind.Lesson EmptyString 0) EmptyString
             AppliedKnowledgeRole.Primary (mkApplicability ApplicabilityStatus.Unknown [] [] []) [])
    (eff_applied sample_output !! i).
Definition suppressed_at (i : nat) : SuppressedKnowledge :=
  default (mkSuppressed (mkArtifact KnowledgeArtifactKind.Lesson EmptyString 0) EmptyString
             SuppressionReason.Inactive None) (eff_suppressed sample_output !! i).

Lemma applied_at_in i : i < 6 -> applied_at i ∈ eff_applied sample_output.
Proof.
  intros Hi. apply (list_elem_of_lookup_2 _ i). unfold applied_at.
  destruct (eff_applied sample_output !! i) eqn:E; [done|].
  apply lookup_ge_None in E. assert (Hl : length (eff_applied sample_output) = 6) by (vm_compute; reflexivity).
  lia.
Qed.

Lemma resolve_authority_witness : exists threshold,
  maturity_rank (minimum_primary_maturity default_policy) = Some threshold /\
  governs sample_hierarchy sample_context threshold (app_node (applied_at 5)).
Proof.
  apply (resolve_authority sample_hierarchy sample_context default_policy sample_output (applied_at 5)).
  - exact sample_resolves.
  - apply applied_at_in. lia.
Defined.

Lemma resolve_accounts_for_every_node_witness :
  accounted sample_output ≡ₚ btree_keys (nodes sample_hierarchy) /\
  length (accounted sample_output) = 10.
Proof.
  split; [|vm_compute; reflexivity].
  destruct (resolve_accounts_for_every_node sample_hierarchy sample_context default_policy
    sample_output sample_resolves) as [Hacc _].
  exact Hacc.
Defined.

Definition sample_edge : KnowledgeHierarchyEdge :=
  make_edge "e1" "general" "special" KnowledgeHierarchyRelation.Specializes.

Lemma resolve_precedence_decided_witness :
  edge_child sample_edge ∈ conflicted_nodes sample_output \/
  edge_relation sample_edge = KnowledgeHierarchyRelation.Refines \/
  (edge_relation sample_edge = KnowledgeHierarchyRelation.Specializes /\
   app_role (applied_at 0) = AppliedKnowledgeRole.SupportingContext).
Proof.
  apply (resolve_precedence_decided sample_hierarchy sample_context default_policy sample_output
    (applied_at 0) (applied_at 5)).
  - exact sample_resolves.
  - apply applied_at_in. lia.
  - apply applied_at_in. lia.
  - apply (list_elem_of_lookup_2 _ 0). reflexivity.
  - vm_compute. reflexivity.
  - vm_compute. reflexivity.
  - vm_compute. reflexivity.
  - discriminate.
Defined.

Lemma resolve_suppression_justified_witness : exists threshold,
  maturity_rank (minimum_primary_maturity default_policy) = Some threshold /\
  governs sample_hierarchy sample_context threshold (sup_node (suppressed_at 0)) /\
  governs sample_hierarchy sample_context threshold "new".
Proof.
  destruct (resolve_suppression_justified sample_hierarchy sample_context default_policy sample_output
    (suppressed_at 0) "new") as (threshold & Hm & Hs & Hb & _).
  - exact sample_resolves.
  - apply (list_elem_of_lookup_2 _ 0). vm_compute. reflexivity.
  - vm_compute. reflexivity.
  - exists threshold. split; [exact Hm|]. split; [exact Hs|exact Hb].
Defined.

Lemma resolve_roles_witness :
  app_role (applied_at 1) = AppliedKnowledgeRole.SupportingContext.
Proof.
  destruct (resolve_roles sample_hierarchy sample_context default_policy sample_output (applied_at 1))
    as (_ & Hrole & _).
  - exact sample_resolves.
  - apply applied_at_in. lia.
  - apply Hrole. apply (list_elem_of_lookup_2 _ 0). vm_compute. reflexivity.
Defined.

Lemma resolve_trace_numbered_witness :
  step_sequence <$> eff_trace sample_output =
  Z.of_nat <$> seq 1 (length (eff_trace sample_output)).
Proof.
  apply (resolve_trace_numbered sample_hierarchy sample_context default_policy).
  exact sample_resolves.
Defined.

Lemma resolve_edge_order_witness :
  resolve (reorder sample_hierarchy (rev sample_edges)) sample_context default_policy =
  Ret (Ok sample_output).
Proof.
  etransitivity; [|exact sample_resolves].
  apply (resolve_edge_order sample_hierarchy (rev sample_edges) sample_context default_policy).
  - symmetry. apply Permutation_rev.
  - apply NoDup_ListNoDup. repeat constructor; cbn; intuition congruence.
Defined.
End ResolverExamples.
