(* ===== verification/Compatibility.v ===== *)
(** The loss-aware adapters of src/hierarchy/compatibility.rs: applicability
    predicates, context selectors, specializations and exceptions projected
    onto scopes, nodes and edges of the hierarchy. *)
From S2P Require Import Prelude Semver Scope ScopeSoundness Hierarchy.

(** * Borrowed types (src/abstraction/model.rs) *)

Inductive VariableValue :=
  | Text (s : string)
  | Boolean (b : bool)
  | Integer (n : Z)
  | Set_ (values : list string)
  | UnknownValue.

Module PredicateOperator.
Inductive t := Equals | NotEquals | Present | Absent | Contains.
#[global] Instance eq_dec : EqDecision t.
Proof. solve_decision. Defined.
End PredicateOperator.

Module ContextVariableKind.
Inductive t := Environment | Resource | SoftwareVersion | DependencyVersion | ActionSemantics
  | Idempotency | Reversibility | Externality | Concurrency | Tool | AgentRuntime | FailureMode
  | Custom (name : string).
End ContextVariableKind.

Record ApplicabilityClause := mkClause {
  clause_variable : ContextVariableKind.t;
  clause_name : string;
  clause_operator : PredicateOperator.t;
  clause_value : option VariableValue;
  clause_rationale : string;
}.

Record ApplicabilityPredicate := mkAllOf { all_of : list ApplicabilityClause }.

(** The references to transfer evidence are carried as identifiers. *)
Record GeneralizationBoundary := mkBoundary {
  included : list ApplicabilityClause;
  excluded_clauses : list ApplicabilityClause;
  unknown_clauses : list ApplicabilityClause;
  boundary_evidence : list string;
}.

Record AbstractKnowledgeRef := mkAbstractRef { abs_id : string; abs_revision : Z }.

(** The fields of [AbstractKnowledge] the adapters read. *)
Record AbstractKnowledge := mkAbstract {
  ak_id : string;
  ak_revision : Z;
  ak_kind : AbstractKnowledgeKind.t;
  ak_applicability : ApplicabilityPredicate;
  ak_boundary : GeneralizationBoundary;
  ak_maturity : KnowledgeMaturity.t;
  ak_provenance : KnowledgeProvenance;
}.

Record KnowledgeSpecialization := mkSpecialization {
  spec_parent : AbstractKnowledgeRef;
  spec_child : AbstractKnowledgeRef;
  additional_scope : ApplicabilityPredicate;
  spec_evidence : list EvidenceRef;
  spec_created_at : Z;
}.

(** The fields of [KnowledgeException] the adapters read. *)
Record KnowledgeException := mkException {
  exc_id : string;
  exc_parent : AbstractKnowledgeRef;
  exc_context : ContextSelector;
  exc_applicability : ApplicabilityPredicate;
  exc_evidence : list EvidenceRef;
  exc_created_at : Z;
}.

(** The JSON payloads that preserve what has no counterpart in a scope. *)
Class AdapterJson `{SerdeJson} := {
  clause_to_value : ApplicabilityClause -> Value;
  boundary_to_value : GeneralizationBoundary -> Value;
  selector_sets_to_value : list string -> list string -> Value;
}.

(** * The adapters *)

Section adapters.
Context `{AdapterJson}.

Definition clause_scope_value (v : option VariableValue) : option ScopeValue :=
  match v with
  | Some (Text s) => Some (SString s)
  | Some (Integer n) => Some (SInteger n)
  | Some (Boolean b) => Some (SBoolean b)
  | _ => None
  end.

Definition clause_predicate (c : ApplicabilityClause) : ScopePredicate :=
  match clause_operator c, clause_scope_value (clause_value c) with
  | PredicateOperator.Equals, Some v => Equals (clause_name c) v
  | PredicateOperator.NotEquals, Some v => NotEquals (clause_name c) v
  | PredicateOperator.Present, _ => Exists_ (clause_name c)
  | _, _ => Custom "v017_applicability_clause" (clause_to_value c)
  end.

(** [From<&ApplicabilityPredicate> for KnowledgeScope]. *)
Definition scope_of_applicability (source : ApplicabilityPredicate) : KnowledgeScope :=
  mkScope (map clause_predicate (all_of source)).

(** [From<&ContextSelector> for KnowledgeScope]. *)
Definition scope_of_selector (source : ContextSelector) : KnowledgeScope :=
  let field '(key, value) :=
    match value with Some v => [Equals key (SString v)] | None => [] end in
  mkScope
    (concat (map field [("os", sel_os source); ("arch", sel_arch source);
                        ("repository", sel_repository source)]) ++
     match sel_tags source, sel_required_markers source with
     | [], [] => []
     | tags, markers => [Custom "v017_selector_sets" (selector_sets_to_value tags markers)]
     end).

(** [KnowledgeArtifactRef::abstract_knowledge]. *)
Definition abstract_knowledge (k : AbstractKnowledge) : KnowledgeArtifactRef :=
  mkArtifact (KnowledgeArtifactKind.AbstractKnowledge (ak_kind k)) (ak_id k) (ak_revision k).

(** [scope.predicates.extend(more)]. *)
Definition extend (s more : KnowledgeScope) : KnowledgeScope :=
  mkScope (predicates s ++ predicates more).

Definition with_scope (n : KnowledgeHierarchyNode) (s : KnowledgeScope) : KnowledgeHierarchyNode :=
  mkNode (node_id n) (node_artifact n) s (node_maturity n) (node_freshness n) (node_activation n)
    (node_provenance n).

(** [KnowledgeHierarchyNode::from_abstract]. *)
Definition from_abstract (id : string) (k : AbstractKnowledge) (freshness : FreshnessStatus.t)
    (activation : KnowledgeActivationState.t) : KnowledgeHierarchyNode :=
  let boundary := ak_boundary k in
  let scope := extend (scope_of_applicability (ak_applicability k))
                 (scope_of_applicability (mkAllOf (included boundary))) in
  let scope := match excluded_clauses boundary, unknown_clauses boundary with
    | [], [] => scope
    | _, _ => extend scope (mkScope [Custom "v017_generalization_boundary" (boundary_to_value boundary)])
    end in
  mkNode id (abstract_knowledge k) scope (ak_maturity k) freshness activation (ak_provenance k).

Definition same_artifact (a : KnowledgeArtifactRef) (r : AbstractKnowledgeRef) : bool :=
  bool_decide (artifact_id a = abs_id r) && bool_decide (artifact_revision a = abs_revision r).

(** [KnowledgeHierarchyEdge::from_specialization]: the new edge and the child,
    which is updated in place. *)
Definition from_specialization (id : string) (source : KnowledgeSpecialization)
    (parent child : KnowledgeHierarchyNode) : result (KnowledgeHierarchyEdge * KnowledgeHierarchyNode) :=
  if negb (same_artifact (node_artifact parent) (spec_parent source)) ||
     negb (same_artifact (node_artifact child) (spec_child source)) then
    Err (InvalidInput "Specialization artifact revisions do not match")
  else
    Ok (mkEdge id (node_id parent) (node_id child) KnowledgeHierarchyRelation.Specializes
          (spec_evidence source) (spec_created_at source),
        with_scope child (extend (node_scope child) (scope_of_applicability (additional_scope source)))).

(** [KnowledgeHierarchyEdge::from_exception]. *)
Definition from_exception (id : string) (source : KnowledgeException)
    (parent child : KnowledgeHierarchyNode) : result (KnowledgeHierarchyEdge * KnowledgeHierarchyNode) :=
  if negb (same_artifact (node_artifact parent) (exc_parent source)) then
    Err (InvalidInput "Exception parent revision does not match")
  else
    Ok (mkEdge id (node_id parent) (node_id child) KnowledgeHierarchyRelation.Excepts
          (exc_evidence source) (exc_created_at source),
        with_scope child
          (extend (extend (node_scope child) (scope_of_applicability (exc_applicability source)))
             (scope_of_selector (exc_context source)))).
End adapters.

(** * The projections are loss-aware *)

Section adapter_laws.
Context `{SemverCrate} `{PredicateJson} `{!AdapterJson}.
Implicit Types (c : ApplicabilityClause) (ctx : KnowledgeContext) (n : KnowledgeHierarchyNode).

(** What a clause asks of a context, when a scope can express it. *)
Definition clause_holds ctx c : Prop :=
  match clause_operator c, clause_scope_value (clause_value c) with
  | PredicateOperator.Equals, Some v => values ctx !! clause_name c = Some v
  | PredicateOperator.NotEquals, Some v => exists w, values ctx !! clause_name c = Some w /\ w <> v
  | PredicateOperator.Present, _ => is_Some (values ctx !! clause_name c)
  | _, _ => False
  end.

Lemma clause_predicate_spec ctx c :
  outcome ctx (clause_predicate c) = Some true <-> clause_holds ctx c.
Proof.
  unfold clause_predicate, clause_holds, outcome.
  destruct (clause_operator c), (clause_scope_value (clause_value c)); cbn; try done;
    destruct (values ctx !! clause_name c) as [w|] eqn:E; cbn; rewrite ?E; cbn;
    try (rewrite (inj_iff Some), ?bool_decide_eq_true); naive_solver.
Qed.

Lemma applies_forall s ctx :
  applies s ctx <-> forall p, p ∈ predicates s -> outcome ctx p = Some true.
Proof. unfold applies. rewrite evaluate_applicable. by rewrite ?Forall_forall. Qed.

Lemma applies_extend s more ctx : applies (extend s more) ctx <-> applies s ctx /\ applies more ctx.
Proof. rewrite !applies_forall. cbn. set_solver. Qed.

Lemma applies_applicability source ctx :
  applies (scope_of_applicability source) ctx <-> Forall (clause_holds ctx) (all_of source).
Proof.
  rewrite applies_forall, Forall_forall. cbn. setoid_rewrite list_elem_of_In. setoid_rewrite in_map_iff.
  setoid_rewrite <- clause_predicate_spec. naive_solver.
Qed.

Lemma applies_custom kind payload ctx : ~ applies (mkScope [Custom kind payload]) ctx.
Proof. rewrite applies_forall. cbn. intros Hp. by specialize (Hp _ (list_elem_of_here _ _)). Qed.

(** What a selector asks of a context; sets cannot be expressed. *)
Definition selector_holds ctx (s : ContextSelector) : Prop :=
  (forall v, sel_os s = Some v -> values ctx !! "os" = Some (SString v)) /\
  (forall v, sel_arch s = Some v -> values ctx !! "arch" = Some (SString v)) /\
  (forall v, sel_repository s = Some v -> values ctx !! "repository" = Some (SString v)) /\
  sel_tags s = [] /\ sel_required_markers s = [].

Lemma outcome_equals ctx key v :
  outcome ctx (Equals key v) = Some true <-> values ctx !! key = Some v.
Proof.
  unfold outcome; cbn. destruct (values ctx !! key) as [w|]; cbn; [|done].
  rewrite !(inj_iff Some), bool_decide_eq_true. done.
Qed.

Lemma applies_app l1 l2 ctx :
  applies (mkScope (l1 ++ l2)) ctx <-> applies (mkScope l1) ctx /\ applies (mkScope l2) ctx.
Proof. apply (applies_extend (mkScope l1) (mkScope l2)). Qed.

Lemma applies_field key o ctx :
  applies (mkScope match o with Some v => [Equals key (SString v)] | None => [] end) ctx <->
  forall v, o = Some v -> values ctx !! key = Some (SString v).
Proof.
  rewrite applies_forall. setoid_rewrite <- outcome_equals. destruct o as [v|]; cbn.
  - setoid_rewrite list_elem_of_singleton. naive_solver.
  - split; [done|]. intros _ p Hp. by apply not_elem_of_nil in Hp.
Qed.

Lemma applies_selector s ctx : applies (scope_of_selector s) ctx <-> selector_holds ctx s.
Proof.
  unfold scope_of_selector, selector_holds.
  set (sets := match sel_tags s, sel_required_markers s with [], [] => [] | _, _ => _ end).
  assert (Hsets : applies (mkScope sets) ctx <-> sel_tags s = [] /\ sel_required_markers s = []).
  { subst sets. destruct (sel_tags s), (sel_required_markers s).
    - rewrite applies_forall. cbn. split; [done|]. intros _ p Hp. by apply not_elem_of_nil in Hp.
    - split; [by intros ?%applies_custom|by intros [? ?]].
    - split; [by intros ?%applies_custom|by intros [? ?]].
    - split; [by intros ?%applies_custom|by intros [? ?]]. }
  rewrite <- Hsets. cbn [map concat]. rewrite app_nil_r, !applies_app, !applies_field. tauto.
Qed.

(** A node made from abstract knowledge applies exactly where every
    applicability clause and every included clause holds, and nowhere when the
    knowledge has excluded or unknown clauses: what a scope cannot express is
    never silently dropped. *)
Theorem from_abstract_scope id k freshness activation ctx :
  applies (node_scope (from_abstract id k freshness activation)) ctx <->
  Forall (clause_holds ctx) (all_of (ak_applicability k)) /\
  Forall (clause_holds ctx) (included (ak_boundary k)) /\
  excluded_clauses (ak_boundary k) = [] /\ unknown_clauses (ak_boundary k) = [].
Proof.
  unfold from_abstract; cbn [node_scope].
  destruct (excluded_clauses _), (unknown_clauses _);
    rewrite ?applies_extend, !applies_applicability; cbn [all_of];
    try (pose proof (applies_custom "v017_generalization_boundary" (boundary_to_value (ak_boundary k)) ctx));
    naive_solver.
Qed.

Lemma same_artifact_iff a r :
  same_artifact a r = true <-> artifact_id a = abs_id r /\ artifact_revision a = abs_revision r.
Proof. unfold same_artifact. by rewrite andb_true_iff, !bool_decide_eq_true. Qed.

(** Projecting a specialization or an exception succeeds exactly when the
    artifact revisions match. The edge then links the two nodes with the
    source's evidence, and the child, otherwise unchanged, applies exactly where
    it did and the added scope holds: a projected child never widens. *)
Theorem projection_narrows_child id source parent child edge child' ctx :
  from_specialization id source parent child = Ok (edge, child') ->
  (artifact_id (node_artifact parent) = abs_id (spec_parent source) /\
   artifact_revision (node_artifact parent) = abs_revision (spec_parent source) /\
   artifact_id (node_artifact child) = abs_id (spec_child source) /\
   artifact_revision (node_artifact child) = abs_revision (spec_child source)) /\
  edge = mkEdge id (node_id parent) (node_id child) KnowledgeHierarchyRelation.Specializes
           (spec_evidence source) (spec_created_at source) /\
  child = with_scope child' (node_scope child) /\
  (applies (node_scope child') ctx <->
   applies (node_scope child) ctx /\ Forall (clause_holds ctx) (all_of (additional_scope source))).
Proof.
  unfold from_specialization.
  destruct (same_artifact (node_artifact parent) _) eqn:Ep, (same_artifact (node_artifact child) _) eqn:Ec;
    cbn; try done.
  apply same_artifact_iff in Ep as [? ?], Ec as [? ?]. intros [= <- <-].
  split_and!; [done..|by destruct child|]. cbn. by rewrite applies_extend, applies_applicability.
Qed.

(** The same for an exception, whose child takes over both the exception's
    clauses and its context selector. *)
Theorem exception_narrows_child id source parent child edge child' ctx :
  from_exception id source parent child = Ok (edge, child') ->
  (artifact_id (node_artifact parent) = abs_id (exc_parent source) /\
   artifact_revision (node_artifact parent) = abs_revision (exc_parent source)) /\
  edge = mkEdge id (node_id parent) (node_id child) KnowledgeHierarchyRelation.Excepts
           (exc_evidence source) (exc_created_at source) /\
  child = with_scope child' (node_scope child) /\
  (applies (node_scope child') ctx <->
   applies (node_scope child) ctx /\ Forall (clause_holds ctx) (all_of (exc_applicability source)) /\
   selector_holds ctx (exc_context source)).
Proof.
  unfold from_exception. destruct (same_artifact (node_artifact parent) _) eqn:Ep; cbn; [|done].
  apply same_artifact_iff in Ep as [? ?]. intros [= <- <-].
  split_and!; [done..|by destruct child|]. cbn.
  rewrite !applies_extend, applies_applicability, applies_selector. tauto.
Qed.
End adapter_laws.

(** * Witnesses *)

Module CompatibilityExamples.
Import Semver.Sample Scope.ScopeExamples.

#[local] Instance sample_adapter : AdapterJson (H := json) := {|
  clause_to_value := fun c => clause_name c;
  boundary_to_value := fun _ => "boundary";
  selector_sets_to_value := fun _ _ => "sets";
|}.

Definition sample_node (id : string) : KnowledgeHierarchyNode (H := json) :=
  mkNode id (mkArtifact KnowledgeArtifactKind.Lesson id 1) (mkScope [provider_x])
    KnowledgeMaturity.Validated FreshnessStatus.Fresh KnowledgeActivationState.Active
    (mkProvenance [] [] [] [] KnowledgeOrigin.Local "reviewer" 0).

Definition region_clause : ApplicabilityClause :=
  mkClause ContextVariableKind.Environment "region" PredicateOperator.Equals (Some (Text "eu")) EmptyString.

Definition sample_specialization : KnowledgeSpecialization :=
  mkSpecialization (mkAbstractRef "general" 1) (mkAbstractRef "special" 1) (mkAllOf [region_clause]) [] 0.
Definition sample_exception : KnowledgeException :=
  mkException "x" (mkAbstractRef "general" 1) (mkSelector None [] [] (Some "linux") None)
    (mkAllOf [region_clause]) [] 0.

Definition eu_context : KnowledgeContext :=
  mkContext {[ "provider" := SString "x"; "region" := SString "eu"; "os" := SString "linux" ]}.

Lemma projection_narrows_child_witness : exists edge child',
  from_specialization "e" sample_specialization (sample_node "general") (sample_node "special") =
    Ok (edge, child') /\
  (applies (node_scope child') eu_context <->
   applies (node_scope (sample_node "special")) eu_context /\ Forall (clause_holds eu_context) [region_clause]).
Proof.
  eexists _, _. split; [reflexivity|].
  edestruct (projection_narrows_child "e" sample_specialization (sample_node "general")
    (sample_node "special")) as (_ & _ & _ & Hx); [reflexivity|exact Hx].
Defined.

Lemma exception_narrows_child_witness : exists edge child',
  from_exception "e" sample_exception (sample_node "general") (sample_node "special") =
    Ok (edge, child') /\
  (applies (node_scope child') eu_context <->
   applies (node_scope (sample_node "special")) eu_context /\
   Forall (clause_holds eu_context) [region_clause] /\
   selector_holds eu_context (exc_context sample_exception)).
Proof.
  eexists _, _. split; [reflexivity|].
  edestruct (exception_narrows_child "e" sample_exception (sample_node "general")
    (sample_node "special")) as (_ & _ & _ & Hx); [reflexivity|exact Hx].
Defined.

Example projected_applies :
  match from_exception "e" sample_exception (sample_node "general") (sample_node "special") with
  | Ok (_, child') => status (evaluate (node_scope child') eu_context) = ApplicabilityStatus.Applicable
  | Err _ => False
  end.
Proof. vm_compute. reflexivity. Qed.
End CompatibilityExamples.
