(* ===== verification/EconomicsModel.v ===== *)
(** Data of the experience economics: src/economics/model.rs, src/budget.rs and
    the enums they borrow from the curriculum, capability, effects and
    experimentation modules. Counters are the values of [usize] and [u64];
    durations are nanoseconds; timestamps are integers. *)
From S2P Require Import Prelude.

(** * Borrowed types *)

(** src/effects/model.rs *)
Module EffectRisk.
Inductive t := ReadOnly | Low | Medium | High | Critical.
#[global] Instance eq_dec : EqDecision t.
Proof. solve_decision. Defined.
Definition discriminant (x : t) : Z :=
  match x with ReadOnly => 0 | Low => 1 | Medium => 2 | High => 3 | Critical => 4 end%Z.
#[global] Instance ord : Ord t := key_ord discriminant.
#[global] Instance ord_laws : OrdLaws t.
Proof. apply key_ord_laws. by intros [] []. Qed.
End EffectRisk.

(** src/curriculum/model.rs *)
Module Severity.
Inductive t := Informational | Low | Medium | High | Critical.
#[global] Instance eq_dec : EqDecision t.
Proof. solve_decision. Defined.
Definition discriminant (x : t) : Z :=
  match x with Informational => 0 | Low => 1 | Medium => 2 | High => 3 | Critical => 4 end%Z.
#[global] Instance ord : Ord t := key_ord discriminant.
#[global] Instance ord_laws : OrdLaws t.
Proof. apply key_ord_laws. by intros [] []. Qed.
End Severity.

Module TrialSafety.
Inductive t := Safe | RequiresIsolation | RequiresApproval | Unsupported.
#[global] Instance eq_dec : EqDecision t.
Proof. solve_decision. Defined.
End TrialSafety.

Module CurriculumGoalKind.
Inductive t := TestRoleBoundary | TestDelegationBoundary | TestCrossAgentHandoff |
  ChallengeSharedExperience | TestTeamRecovery | ValidatePlan | ValidateCheckpoint |
  ValidateCommitmentGate | ValidatePlanRecovery | ReduceUnnecessaryReplans | ValidateComposition |
  FindInteractionFailure | ValidateSequenceInvariant | ValidateCompositionRecovery |
  ChallengeOrderingConstraint | MinimizeCompositionAuthority | ResolveKnowledgeConflict |
  ValidateException | ValidateSpecialization | ResolveScopeOverlap | RevalidateKnowledgeOverride |
  ValidateSkill | DiscoverFailureBoundary | TestRecovery | ValidateReflex |
  ExploreUnknownCondition | RevalidateOldExperience | ResolveContradiction | MinimizeCapability |
  SatisfyAssuranceRequirement | ChallengeInvariant | IncreaseEvidenceDiversity |
  ChallengeDominantClaim | ResolveCausalContradiction | DiscriminateHypotheses |
  DiscoverEarlyWarning | ValidateEarlyWarning | ValidateForecast | ImproveForecastCalibration |
  ReduceForecastFalsePositives | ValidatePreventiveIntervention | ChallengeAbstraction |
  FindGeneralizationBoundary | ValidateTransfer | ReduceFalseConstraintRate.
#[global] Instance eq_dec : EqDecision t.
Proof. solve_decision. Defined.
End CurriculumGoalKind.

(** src/experimentation/model.rs *)
Module ExperimentIntent.
Inductive t := ResolveUncertainty | CompareStrategies | ValidateHypothesis | TestLesson |
  ValidateRecovery | MapBoundary | ReproduceFederatedExperience | ValidateTransfer.
#[global] Instance eq_dec : EqDecision t.
Proof. solve_decision. Defined.
End ExperimentIntent.

(** src/capability/model.rs *)
Module IsolationLevel.
Inductive t := None_ | Cooperative | Process | Container | StrongSandbox.
#[global] Instance eq_dec : EqDecision t.
Proof. solve_decision. Defined.
End IsolationLevel.

Record RealityRequirements := mkRequirements {
  filesystem_isolation : IsolationLevel.t;
  process_isolation : IsolationLevel.t;
  network_isolation : IsolationLevel.t;
  credential_isolation : IsolationLevel.t;
  effect_gating : bool;
}.

Record FailureSignatureRef := mkSignature { signature : string }.
Record FederatedObjectRef := mkFederated { fed_node_id : string; fed_object_id : string }.

(** * Values and estimates *)

Module ValueBand.
Inductive t := None_ | Low | Medium | High | Critical.
#[global] Instance eq_dec : EqDecision t.
Proof. solve_decision. Defined.
Definition discriminant (x : t) : Z :=
  match x with None_ => 0 | Low => 1 | Medium => 2 | High => 3 | Critical => 4 end%Z.
#[global] Instance ord : Ord t := key_ord discriminant.
#[global] Instance ord_laws : OrdLaws t.
Proof. apply key_ord_laws. by intros [] []. Qed.
End ValueBand.

Record ExperienceValueVector := mkValue {
  risk_reduction : ValueBand.t;
  learning_value : ValueBand.t;
  reuse_potential : ValueBand.t;
  decision_relevance : ValueBand.t;
  evidence_gap : ValueBand.t;
  novelty : ValueBand.t;
}.
#[export] Instance value_vector_eq_dec : EqDecision ExperienceValueVector.
Proof. solve_decision. Defined.

Module ExposureBand.
Inductive t := Rare | Occasional | Frequent | VeryFrequent | Unknown.
#[global] Instance eq_dec : EqDecision t.
Proof. solve_decision. Defined.
End ExposureBand.

Module MitigationGap.
Inductive t := None_ | Partial | Significant | Unmitigated | Unknown.
#[global] Instance eq_dec : EqDecision t.
Proof. solve_decision. Defined.
End MitigationGap.

Record RiskReductionEstimate := mkRiskReduction {
  failure_severity : Severity.t;
  occurrence_exposure : ExposureBand.t;
  mitigation_gap : MitigationGap.t;
  risk_rationale : list string;
}.

Module LearningOutcomeClass.
Inductive t := Strengthen | Contradict | NarrowScope | Validate | Retire | DiscoverFailureBoundary
  | DiscoverRecovery | ChangeRuntimeDecision | ChangeAssurance | NoMaterialChange.
#[global] Instance eq_dec : EqDecision t.
Proof. solve_decision. Defined.
End LearningOutcomeClass.

Record LearningValueEstimate := mkLearning {
  learning_band : ValueBand.t;
  possible_outcomes : list LearningOutcomeClass.t;
  decision_changing_outcomes : Z;
  learning_rationale : list string;
}.

Module RuntimeUseBand.
Inductive t := None_ | Low | Medium | High | Unknown.
#[global] Instance eq_dec : EqDecision t.
Proof. solve_decision. Defined.
End RuntimeUseBand.

Record DecisionRelevance := mkRelevance {
  affected_decisions : Z;
  affected_task_families : Z;
  current_runtime_use : RuntimeUseBand.t;
  likely_decision_change : ValueBand.t;
}.

Module ReusePotential.
Inductive t := OneOff | Narrow | Reusable | Broad | Unknown.
#[global] Instance eq_dec : EqDecision t.
Proof. solve_decision. Defined.
End ReusePotential.

Module EvidenceNovelty.
Inductive t := Duplicate | Replication | ContextExtension | MechanismChallenge | NewFailureClass |
  Unknown.
#[global] Instance eq_dec : EqDecision t.
Proof. solve_decision. Defined.
End EvidenceNovelty.

Module ComputeCostBand.
Inductive t := Negligible | Low | Medium | High.
#[global] Instance eq_dec : EqDecision t.
Proof. solve_decision. Defined.
End ComputeCostBand.

Module AttentionCostBand.
Inductive t := None_ | Low | Medium | High.
#[global] Instance eq_dec : EqDecision t.
Proof. solve_decision. Defined.
End AttentionCostBand.

Module ResourceCostBand.
Inductive t := None_ | Low | Medium | High.
#[global] Instance eq_dec : EqDecision t.
Proof. solve_decision. Defined.
End ResourceCostBand.

Record ExperimentCost := mkCost {
  cost_trials : Z;
  cost_agent_runs : Z;
  estimated_duration : option Z;
  compute : ComputeCostBand.t;
  human_attention : AttentionCostBand.t;
  staging_resources : ResourceCostBand.t;
  cost_effect_risk : EffectRisk.t;
}.
Definition default_cost : ExperimentCost :=
  mkCost 1 0 None ComputeCostBand.Negligible AttentionCostBand.None_ ResourceCostBand.None_
    EffectRisk.ReadOnly.

(** [compute_units], a float no operation reads, is left out. *)
Record ActualExperimentCost := mkActual {
  actual_trials : Z;
  actual_agent_runs : Z;
  actual_duration : Z;
  approvals_requested : Z;
}.

Record OpportunityRisk := mkRisk {
  trial_safety : TrialSafety.t;
  risk_effect : EffectRisk.t;
  isolation_required : RealityRequirements;
  approval_required : bool;
}.

(** * Opportunities *)

Module ExperienceOpportunityKind.
Inductive t := IncreaseTeamEvidenceDiversity | ValidateDelegationBoundary |
  ChallengeTeamCommonModeRisk | ValidateRoleSeparation | ValidatePlan | ValidateComposition |
  InvestigateInteractionFailure | ValidateSequenceInvariant | ValidateCompositionRecovery |
  ReduceCompositionAuthority | ValidateLesson | RevalidateStaleExperience | ResolveContradiction |
  ValidateRecovery | HardenSkill | ExploreOperatingEnvelope | ValidateReflex |
  ReduceReflexFalsePositives | ChallengeCausalHypothesis | DiscriminateCausalHypotheses |
  IncreaseEvidenceDiversity | ReproduceFederatedExperience | ReproduceRemoteKnowledge |
  ChallengeRemoteContradiction | ValidateCrossEnvironmentTransfer |
  RevalidateAfterRemoteRevocation | ValidateEarlyWarning | ValidatePreventiveIntervention |
  InvestigateForecastMiss | ReduceForecastFalsePositives | MinimizeCapability |
  ResolveRuntimeUnknown | CloseAssuranceGap | ValidateAbstraction | ChallengeAbstraction |
  ValidateTransfer | ReduceKnowledgeFragmentation | Custom (name : string).
#[global] Instance eq_dec : EqDecision t.
Proof. solve_decision. Defined.
End ExperienceOpportunityKind.

Module ExperienceOpportunityTarget.
Inductive t := Skill (id : string) | Lesson (id : string) | Reflex (id : string) | Recovery (id :
  string) | CausalHypothesis (id : string) | EarlyWarning (id : string) | FailureSignature (s :
  FailureSignatureRef) | AssuranceGap (s : string) | RuntimeGap (s : string) | FederatedObject (o
  : FederatedObjectRef) | Tool (id : string) | TaskFamily (id : string) | AbstractKnowledge (id :
  string).
End ExperienceOpportunityTarget.

Module OpportunityReason.
Inductive t := CriticalFailureUnmitigated | RepeatedFailure | HighUsageSkillGap |
  RuntimeAbstention | RuntimeUnknown | EvidenceStale | EvidenceContradicted | LargeBlastRadius |
  AssuranceBlocked | RecoveryMissing | ReflexNoisy | ForecastMiss | ForecastNoisy |
  CausalMechanismUnknown | LowEvidenceDiversity | FederatedEvidenceUnreproduced |
  CapabilityOverprovisioned | OperatingEnvelopeUnknown | EvidenceSaturated | FalseConstraintRisk |
  HighReuseKnowledgeFragmentation | NegativeTransferObserved | Custom (name : string).
#[global] Instance eq_dec : EqDecision t.
Proof. solve_decision. Defined.
End OpportunityReason.

Module ExperienceOpportunityStatus.
Inductive t := Candidate | Eligible | Selected | Running | Completed | Deferred | Saturated |
  Blocked | Invalidated.
#[global] Instance eq_dec : EqDecision t.
Proof. solve_decision. Defined.
End ExperienceOpportunityStatus.

Module EvidenceSaturation.
Inductive t := Sparse | Developing | Mature | Saturated | Contradicted.
#[global] Instance eq_dec : EqDecision t.
Proof. solve_decision. Defined.
End EvidenceSaturation.

Module MarginalValueReason.
Inductive t := FirstEvidence | FirstCounterfactual | FirstTransfer | FirstContextExtension |
  ResolvesContradiction | AddsDiversity | Replication | RepeatedEquivalentReplication | Saturated.
#[global] Instance eq_dec : EqDecision t.
Proof. solve_decision. Defined.
End MarginalValueReason.

Record MarginalEvidenceValue := mkMarginal {
  marginal_band : ValueBand.t;
  marginal_reason : MarginalValueReason.t;
}.

Record EvidenceSummary := mkSummary {
  observations : Z;
  equivalent_replications : Z;
  distinct_contexts : Z;
  counterfactuals : Z;
  diversity_domains : Z;
  contradictions : Z;
  fresh : bool;
}.

Record ExperienceOpportunity := mkOpportunity {
  opp_id : string;
  opp_kind : ExperienceOpportunityKind.t;
  opp_target : ExperienceOpportunityTarget.t;
  rationale : list OpportunityReason.t;
  opp_value : ExperienceValueVector;
  estimated_cost : ExperimentCost;
  opp_risk : OpportunityRisk;
  dependencies : list string;
  opp_status : ExperienceOpportunityStatus.t;
  opp_created_at : Z;
  opp_risk_reduction : RiskReductionEstimate;
  opp_learning : LearningValueEstimate;
  opp_relevance : DecisionRelevance;
  opp_reuse : ReusePotential.t;
  opp_novelty : EvidenceNovelty.t;
  opp_saturation : EvidenceSaturation.t;
  marginal_value : MarginalEvidenceValue;
  opp_generator_version : string;
}.

Record ExperienceGap := mkGap {
  gap_kind : ExperienceOpportunityKind.t;
  gap_target : ExperienceOpportunityTarget.t;
  gap_reasons : list OpportunityReason.t;
  gap_severity : Severity.t;
  gap_exposure : ExposureBand.t;
  gap_mitigation : MitigationGap.t;
  gap_learning : LearningValueEstimate;
  gap_relevance : DecisionRelevance;
  gap_reuse : ReusePotential.t;
  gap_novelty : EvidenceNovelty.t;
  gap_evidence : EvidenceSummary;
  gap_cost : ExperimentCost;
  gap_risk : OpportunityRisk;
  gap_dependencies : list string;
}.

Module ExperiencePortfolioObjective.
Inductive t := Balanced | Resilience | Assurance | Research | Efficiency.
#[global] Instance eq_dec : EqDecision t.
Proof. solve_decision. Defined.
End ExperiencePortfolioObjective.

Record ExperiencePlanningContext := mkPlanning {
  gaps : list ExperienceGap;
  completed_dependencies : gset string;
  objective : ExperiencePortfolioObjective.t;
  now : Z;
}.

(** * Budgets, ledgers and portfolios *)

(** [ExperienceBudget] of src/budget.rs. *)
Record ExperienceBudget := mkBudget {
  max_realities : Z;
  max_agent_runs : Z;
  max_duration_ms : option Z;
  max_commands_per_reality : option Z;
  max_curriculum_trials : option Z;
  max_parallel_trials : option Z;
  max_human_approvals : option Z;
  allowed_effect_risk : EffectRisk.t;
}.

Record BudgetUsage := mkUsage {
  u_trials : Z;
  u_agent_runs : Z;
  u_duration_ms : Z;
  u_approvals : Z;
}.

Record ExperienceBudgetLedger := mkLedger {
  ledger_id : string;
  ledger_budget : ExperienceBudget;
  reserved : BudgetUsage;
  consumed : BudgetUsage;
  remaining : BudgetUsage;
}.

Module EvidencePortfolioCategory.
Inductive t := Validation | Revalidation | Challenge | Discovery | Hardening | Prevention |
  Efficiency.
#[global] Instance eq_dec : EqDecision t.
Proof. solve_decision. Defined.
End EvidencePortfolioCategory.

Inductive SelectionReason :=
  | PriorityClass (class : string)
  | HigherRiskReduction | HigherDecisionRelevance | HigherLearningValue | HigherReusePotential
  | HigherNovelty | LowerCost | CriticalBudgetReserved | FitsRemainingBudget.

Inductive DeferralReason :=
  | BudgetInsufficient | LowerMarginalValue | EvidenceSaturated | DependencyNotSatisfied
  | UnsafeToExperiment | MissingRealityCapability | HumanApprovalUnavailable
  | HigherPriorityRiskExists | DuplicateOpportunity | StaleOpportunity
  | DominatedByOpportunity (id : string).

Inductive DominanceStatus := NonDominated | DominatedBy (id : string) | Incomparable.

Record PortfolioSelection := mkSelection {
  sel_opportunity : string;
  sel_priority : Z;
  sel_category : EvidencePortfolioCategory.t;
  sel_reasons : list SelectionReason;
  reserved_cost : ExperimentCost;
}.

Record PortfolioDeferral := mkDeferral {
  def_opportunity : string;
  def_reasons : list DeferralReason;
}.

Module PortfolioRevisionReason.
Inductive t := NewEvidence | Contradiction | OpportunityCompleted | OpportunityInvalidated |
  BudgetChanged | RuntimeExposureChanged | ForecastMiss | AssuranceChanged.
#[global] Instance eq_dec : EqDecision t.
Proof. solve_decision. Defined.
End PortfolioRevisionReason.

Record ExperienceAllocationPolicyRef := mkPolicyRef { policy_id : string; policy_version : string }.

Record PortfolioPolicyVersions := mkVersions {
  v_opportunity_generator : string;
  v_allocation_policy : string;
  v_saturation_policy : string;
  v_cost_estimator : string;
}.

Record ExperiencePortfolio := mkPortfolio {
  portfolio_id : string;
  portfolio_opportunities : list string;
  selected : list PortfolioSelection;
  deferred : list PortfolioDeferral;
  portfolio_budget : ExperienceBudget;
  portfolio_ledger : ExperienceBudgetLedger;
  portfolio_policy : ExperienceAllocationPolicyRef;
  portfolio_objective : ExperiencePortfolioObjective.t;
  policy_versions : PortfolioPolicyVersions;
  portfolio_created_at : Z;
  portfolio_revision : Z;
  revision_reason : option PortfolioRevisionReason.t;
}.

Inductive ExecutableLearningPlan :=
  | Curriculum (target : ExperienceOpportunityTarget.t) (goal : CurriculumGoalKind.t)
  | Experiment (target : ExperienceOpportunityTarget.t) (intent : ExperimentIntent.t)
  | CausalInvestigation (id : string)
  | FederationReproduction (object : FederatedObjectRef)
  | CapabilityCurriculum (tool : string).

Module StopDecision.
Inductive t := Continue | StopSatisfied | StopSaturated | StopContradicted | StopUnsafe |
  StopBudget.
#[global] Instance eq_dec : EqDecision t.
Proof. solve_decision. Defined.
End StopDecision.
