(* ===== verification/Ledger.v ===== *)
(** Budgets and ledgers: src/budget.rs and [ExperienceBudgetLedger] of
    src/economics/engine.rs, with their saturating arithmetic. *)
From S2P Require Import Prelude EconomicsModel.

(** * Budgets *)

Definition max_trials (b : ExperienceBudget) : Z :=
  default (max_realities b) (max_curriculum_trials b).

Definition default_budget : ExperienceBudget :=
  mkBudget 3 3 (Some 300000%Z) None None None (Some 0%Z) EffectRisk.Low.

(** * The strict budget policy *)

Inductive CandidateExecution (EffectRequest : Type) :=
  | Shell (commands : list string)
  | AgentTask (prompt : string)
  | EffectPlan (effects : list EffectRequest) (simulation : list string).
Arguments Shell {EffectRequest} commands.
Arguments AgentTask {EffectRequest} prompt.
Arguments EffectPlan {EffectRequest} effects simulation.

Record ExperienceUsage := mkExperienceUsage {
  eu_realities : Z;
  eu_agent_runs : Z;
  eu_duration_ms : Z;
  eu_commands : Z;
  eu_tool_calls : option Z;
}.

Inductive BudgetDecision :=
  | Approved
  | Reduced (b : ExperienceBudget)
  | Rejected (reason : string).

Section strict.
Context {EffectRequest : Type}.

(** The fields of an experiment request the policy reads. *)
Record ExperimentRequest := mkRequest {
  candidates : list (CandidateExecution EffectRequest);
  checks : list string;
  request_budget : ExperienceBudget;
}.

Definition usize_len {A} (l : list A) : Z := Z.of_nat (length l).

Definition is_agent (c : CandidateExecution EffectRequest) : bool :=
  match c with AgentTask _ => true | _ => false end.

Definition exceeds_commands (limit : Z) (checks : list string)
    (c : CandidateExecution EffectRequest) : bool :=
  match c with
  | Shell commands => bool_decide (limit < saturating_add (usize_len commands) (usize_len checks))%Z
  | AgentTask _ => true
  | EffectPlan effects simulation =>
      bool_decide (limit < saturating_add (saturating_add (usize_len effects) (usize_len simulation))
                             (usize_len checks))%Z
  end.

(** [StrictBudgetPolicy::evaluate]. *)
Definition strict_evaluate (r : ExperimentRequest) (usage : ExperienceUsage) : BudgetDecision :=
  let b := request_budget r in
  let agents := Z.of_nat (countb is_agent (candidates r)) in
  if decide (saturating_sub (max_realities b) (eu_realities usage) < usize_len (candidates r))%Z then
    Rejected "Requested candidates exceed the remaining Reality budget"
  else if decide (saturating_sub (max_agent_runs b) (eu_agent_runs usage) < agents)%Z then
    Rejected "Requested candidates exceed the remaining agent-run budget"
  else if match max_duration_ms b with
          | Some limit => bool_decide (limit <= eu_duration_ms usage)%Z | None => false end then
    Rejected "Experiment duration budget exhausted"
  else if match max_commands_per_reality b with
          | Some limit => existsb (exceeds_commands limit (checks r)) (candidates r)
          | None => false end then
    Rejected "Command cap exceeded or unenforceable for an AgentTask; bound native runs by duration and agent-run count"
  else Approved.
End strict.
Arguments ExperimentRequest EffectRequest : clear implicits.

(** * Usage arithmetic *)

Definition usage_map2 (f : Z -> Z -> Z) (a b : BudgetUsage) : BudgetUsage :=
  mkUsage (f (u_trials a) (u_trials b)) (f (u_agent_runs a) (u_agent_runs b))
    (f (u_duration_ms a) (u_duration_ms b)) (f (u_approvals a) (u_approvals b)).
Definition zero_usage : BudgetUsage := mkUsage 0 0 0 0.
Definition add_usage : BudgetUsage -> BudgetUsage -> BudgetUsage := usage_map2 saturating_add.
Definition subtract_usage : BudgetUsage -> BudgetUsage -> BudgetUsage := usage_map2 saturating_sub.

(** [u64::try_from(d.as_millis()).unwrap_or(u64::MAX)] of nanoseconds. *)
Definition millis (d : Z) : Z := Z.min (d / 1000000) U64_MAX.
Definition duration_ms (d : option Z) : Z := match d with Some d => millis d | None => 0 end.

Definition from_cost (cost : ExperimentCost) (approvals : Z) : BudgetUsage :=
  mkUsage (cost_trials cost) (cost_agent_runs cost) (duration_ms (estimated_duration cost)) approvals.
Definition from_actual (a : ActualExperimentCost) : BudgetUsage :=
  mkUsage (actual_trials a) (actual_agent_runs a) (millis (actual_duration a)) (approvals_requested a).

(** * The ledger *)

Definition ledger_new (id : string) (b : ExperienceBudget) : ExperienceBudgetLedger :=
  mkLedger id b zero_usage zero_usage
    (mkUsage (max_trials b) (max_agent_runs b) (default U64_MAX (max_duration_ms b))
       (default USIZE_MAX (max_human_approvals b))).

Definition can_reserve (l : ExperienceBudgetLedger) (cost : ExperimentCost) (approvals : Z) : bool :=
  let usage := from_cost cost approvals in
  bool_decide (u_trials usage <= u_trials (remaining l))%Z &&
  bool_decide (u_agent_runs usage <= u_agent_runs (remaining l))%Z &&
  bool_decide (u_duration_ms usage <= u_duration_ms (remaining l))%Z &&
  bool_decide (u_approvals usage <= u_approvals (remaining l))%Z &&
  bool_decide (ord_le (cost_effect_risk cost) (allowed_effect_risk (ledger_budget l))).

Definition reserve (l : ExperienceBudgetLedger) (cost : ExperimentCost) (approvals : Z) :
    result ExperienceBudgetLedger :=
  if negb (can_reserve l cost approvals) then
    Err (Intervention "Experience opportunity exceeds remaining acquisition budget")
  else
    let usage := from_cost cost approvals in
    Ok (mkLedger (ledger_id l) (ledger_budget l) (add_usage (reserved l) usage) (consumed l)
          (subtract_usage (remaining l) usage)).

Definition cap_remaining (l : ExperienceBudgetLedger) : ExperienceBudgetLedger :=
  let b := ledger_budget l in
  let c := consumed l in
  let r := remaining l in
  mkLedger (ledger_id l) b (reserved l) c
    (mkUsage
       (Z.min (u_trials r) (saturating_sub (max_trials b) (u_trials c)))
       (Z.min (u_agent_runs r) (saturating_sub (max_agent_runs b) (u_agent_runs c)))
       (match max_duration_ms b with
        | Some limit => Z.min (u_duration_ms r) (saturating_sub limit (u_duration_ms c))
        | None => u_duration_ms r end)
       (match max_human_approvals b with
        | Some limit => Z.min (u_approvals r) (saturating_sub limit (u_approvals c))
        | None => u_approvals r end)).

Definition release (l : ExperienceBudgetLedger) (cost : ExperimentCost) (approvals : Z) :
    ExperienceBudgetLedger :=
  let usage := from_cost cost approvals in
  cap_remaining (mkLedger (ledger_id l) (ledger_budget l) (subtract_usage (reserved l) usage)
                   (consumed l) (add_usage (remaining l) usage)).

Definition consume (l : ExperienceBudgetLedger) (cost : ExperimentCost) (approval_reserved : Z)
    (actual : ActualExperimentCost) : ExperienceBudgetLedger :=
  let l := release l cost approval_reserved in
  let usage := from_actual actual in
  mkLedger (ledger_id l) (ledger_budget l) (reserved l) (add_usage (consumed l) usage)
    (subtract_usage (remaining l) usage).

(** * Well-formed values *)

Definition usage_wf (u : BudgetUsage) : Prop :=
  is_u64 (u_trials u) /\ is_u64 (u_agent_runs u) /\ is_u64 (u_duration_ms u) /\ is_u64 (u_approvals u).
Definition cost_wf (c : ExperimentCost) : Prop :=
  is_u64 (cost_trials c) /\ is_u64 (cost_agent_runs c) /\
  (forall d, estimated_duration c = Some d -> (0 <= d)%Z).
Definition actual_wf (a : ActualExperimentCost) : Prop :=
  is_u64 (actual_trials a) /\ is_u64 (actual_agent_runs a) /\ (0 <= actual_duration a)%Z /\
  is_u64 (approvals_requested a).
Definition budget_wf (b : ExperienceBudget) : Prop :=
  is_u64 (max_realities b) /\ is_u64 (max_agent_runs b) /\
  (forall n, max_duration_ms b = Some n -> is_u64 n) /\
  (forall n, max_curriculum_trials b = Some n -> is_u64 n) /\
  (forall n, max_human_approvals b = Some n -> is_u64 n).

(** Componentwise order. *)
Definition usage_le (a b : BudgetUsage) : Prop :=
  (u_trials a <= u_trials b)%Z /\ (u_agent_runs a <= u_agent_runs b)%Z /\
  (u_duration_ms a <= u_duration_ms b)%Z /\ (u_approvals a <= u_approvals b)%Z.

(** What a limit leaves after [c]; an absent limit leaves everything. *)
Definition left_of (limit : option Z) (c : Z) : Z :=
  match limit with Some n => saturating_sub n c | None => U64_MAX end.
Definition cap (b : ExperienceBudget) (c : BudgetUsage) : BudgetUsage :=
  mkUsage (saturating_sub (max_trials b) (u_trials c))
    (saturating_sub (max_agent_runs b) (u_agent_runs c))
    (left_of (max_duration_ms b) (u_duration_ms c))
    (left_of (max_human_approvals b) (u_approvals c)).

(** The ledger invariant: nothing remains that the budget does not leave after
    consumption, and the reservations can be added back without saturating. *)
Record ledger_ok (l : ExperienceBudgetLedger) : Prop := {
  lo_budget : budget_wf (ledger_budget l);
  lo_reserved : usage_wf (reserved l);
  lo_consumed : usage_wf (consumed l);
  lo_remaining : usage_wf (remaining l);
  lo_capped : usage_le (remaining l) (cap (ledger_budget l) (consumed l));
  lo_room : usage_le (usage_map2 Z.add (reserved l) (remaining l))
              (mkUsage U64_MAX U64_MAX U64_MAX U64_MAX);
}.

Ltac usage_lia :=
  cbn in *; unfold left_of, is_u64, saturating_add, saturating_sub, USIZE_MAX in *;
  pose proof u64_max_pos; repeat split; lia.

Lemma millis_u64 d : (0 <= d)%Z -> is_u64 (millis d).
Proof. intros Hd. unfold millis. pose proof (Z.div_pos d 1000000 Hd eq_refl). usage_lia. Qed.

Lemma from_cost_wf c a : cost_wf c -> is_u64 a -> usage_wf (from_cost c a).
Proof.
  intros (? & ? & Hd) ?. split_and!; [done|done| |done]. cbn. unfold duration_ms.
  destruct (estimated_duration c) as [d|]; [by apply millis_u64, Hd|usage_lia].
Qed.
Lemma from_actual_wf a : actual_wf a -> usage_wf (from_actual a).
Proof. intros (? & ? & ? & ?). split_and!; [done|done|by apply millis_u64|done]. Qed.

Lemma max_trials_u64 b : budget_wf b -> is_u64 (max_trials b).
Proof.
  intros (? & _ & _ & Hc & _). unfold max_trials.
  destruct (max_curriculum_trials b); [by apply Hc|done].
Qed.
Lemma left_of_u64 o c : (forall n, o = Some n -> is_u64 n) -> is_u64 c -> is_u64 (left_of o c).
Proof.
  intros Ho Hc. destruct o as [n|]; cbn; [|usage_lia].
  apply is_u64_saturating_sub; [by apply Ho|done].
Qed.

(** The invariant, one dimension at a time: [lim] is the limit if there is
    one, [s], [c] and [r] what is reserved, consumed and remaining. *)
Definition dim_ok (lim : option Z) (s c r : Z) : Prop :=
  is_u64 s /\ is_u64 c /\ is_u64 r /\ (forall n, lim = Some n -> is_u64 n) /\
  (r <= left_of lim c)%Z /\ (s + r <= U64_MAX)%Z.

Lemma dim_new lim : (forall n, lim = Some n -> is_u64 n) ->
  dim_ok lim 0 0 (default U64_MAX lim).
Proof.
  intros Hl. unfold dim_ok. destruct lim as [n|]; cbn; [specialize (Hl n eq_refl)|];
    (split_and!; [usage_lia|usage_lia|usage_lia|naive_solver|usage_lia|usage_lia]).
Qed.
Lemma dim_reserve lim s c r u : dim_ok lim s c r -> is_u64 u -> (u <= r)%Z ->
  dim_ok lim (saturating_add s u) c (saturating_sub r u).
Proof. intros (? & ? & ? & ? & ? & ?) ? ?. split_and!; try done; usage_lia. Qed.
Lemma dim_release lim s c r u : dim_ok lim s c r -> is_u64 u ->
  dim_ok lim (saturating_sub s u) c
    (match lim with Some n => Z.min (saturating_add r u) (saturating_sub n c)
     | None => saturating_add r u end).
Proof.
  intros (? & ? & ? & Hl & ? & ?) ?. destruct lim as [n|]; cbn in *;
    [specialize (Hl n eq_refl)|]; (split_and!; [usage_lia|usage_lia|usage_lia|naive_solver|usage_lia|usage_lia]).
Qed.
Lemma dim_consume lim s c r a : dim_ok lim s c r -> is_u64 a ->
  dim_ok lim s (saturating_add c a) (saturating_sub r a).
Proof.
  intros (? & ? & ? & Hl & ? & ?) ?. destruct lim as [n|]; cbn in *;
    [specialize (Hl n eq_refl)|]; (split_and!; [usage_lia|usage_lia|usage_lia|naive_solver|usage_lia|usage_lia]).
Qed.

(** The ledger invariant is the invariant of its four dimensions. *)
Lemma ledger_ok_dims l : ledger_ok l <->
  budget_wf (ledger_budget l) /\
  dim_ok (Some (max_trials (ledger_budget l))) (u_trials (reserved l)) (u_trials (consumed l))
    (u_trials (remaining l)) /\
  dim_ok (Some (max_agent_runs (ledger_budget l))) (u_agent_runs (reserved l))
    (u_agent_runs (consumed l)) (u_agent_runs (remaining l)) /\
  dim_ok (max_duration_ms (ledger_budget l)) (u_duration_ms (reserved l))
    (u_duration_ms (consumed l)) (u_duration_ms (remaining l)) /\
  dim_ok (max_human_approvals (ledger_budget l)) (u_approvals (reserved l))
    (u_approvals (consumed l)) (u_approvals (remaining l)).
Proof.
  split.
  - intros [Hb (?&?&?&?) (?&?&?&?) (?&?&?&?) (?&?&?&?) (?&?&?&?)]. cbn in *.
    pose proof (max_trials_u64 _ Hb). destruct Hb as (?&?&?&?&?).
    unfold dim_ok. split_and!; try done; by intros n [= <-].
  - unfold dim_ok. intros (Hb & H1 & H2 & H3 & H4). destruct_and!. split; [done|..];
      repeat split; cbn in *; done || usage_lia.
Qed.

Lemma ledger_new_ok id b : budget_wf b -> ledger_ok (ledger_new id b).
Proof.
  intros Hb. apply ledger_ok_dims. cbn. split; [done|]. pose proof (max_trials_u64 b Hb) as Ht.
  destruct Hb as (? & Ha & Hd & _ & Hh).
  split_and!; [apply (dim_new (Some _))|apply (dim_new (Some _))|by apply dim_new|by apply dim_new];
    by intros n [= <-].
Qed.

Lemma can_reserve_iff l cost a : can_reserve l cost a = true <->
  usage_le (from_cost cost a) (remaining l) /\
  ord_le (cost_effect_risk cost) (allowed_effect_risk (ledger_budget l)).
Proof. unfold can_reserve, usage_le. rewrite !andb_true_iff, !bool_decide_eq_true. tauto. Qed.

Lemma reserve_Ok l cost a l' : reserve l cost a = Ok l' <->
  (usage_le (from_cost cost a) (remaining l) /\
   ord_le (cost_effect_risk cost) (allowed_effect_risk (ledger_budget l))) /\
  l' = mkLedger (ledger_id l) (ledger_budget l) (add_usage (reserved l) (from_cost cost a))
         (consumed l) (subtract_usage (remaining l) (from_cost cost a)).
Proof.
  unfold reserve. rewrite <- can_reserve_iff. destruct (can_reserve l cost a); cbn; [|naive_solver].
  split; [intros [= <-]; done|by intros [_ ->]].
Qed.

Lemma reserve_ok l cost a l' : ledger_ok l -> cost_wf cost -> is_u64 a ->
  reserve l cost a = Ok l' -> ledger_ok l'.
Proof.
  intros (Hb & H1 & H2 & H3 & H4)%ledger_ok_dims Hc Ha [[Hle _] ->]%reserve_Ok.
  destruct (from_cost_wf cost a Hc Ha) as (?&?&?&?), Hle as (?&?&?&?).
  apply ledger_ok_dims. cbn. split_and!; by apply dim_reserve || done.
Qed.

Lemma release_ok l cost a : ledger_ok l -> cost_wf cost -> is_u64 a -> ledger_ok (release l cost a).
Proof.
  intros (Hb & H1 & H2 & H3 & H4)%ledger_ok_dims Hc Ha.
  destruct (from_cost_wf cost a Hc Ha) as (?&?&?&?).
  apply ledger_ok_dims. cbn. split_and!; [done|by apply (dim_release (Some _))|by apply (dim_release (Some _))|..];
    by apply dim_release.
Qed.

Lemma consume_ok l cost a actual : ledger_ok l -> cost_wf cost -> is_u64 a -> actual_wf actual ->
  ledger_ok (consume l cost a actual).
Proof.
  intros Hl Hc Ha Hact. pose proof (release_ok l cost a Hl Hc Ha) as Hr.
  apply ledger_ok_dims in Hr as (Hb & H1 & H2 & H3 & H4).
  destruct (from_actual_wf actual Hact) as (?&?&?&?).
  apply ledger_ok_dims. unfold consume. cbn in *.
  split_and!; [done|by apply (dim_consume (Some _))|by apply (dim_consume (Some _))|..];
    by apply dim_consume.
Qed.

(** * Reachable ledgers *)

Inductive ledger_step : ExperienceBudgetLedger -> ExperienceBudgetLedger -> Prop :=
  | step_reserve l cost a l' :
      cost_wf cost -> is_u64 a -> reserve l cost a = Ok l' -> ledger_step l l'
  | step_release l cost a : cost_wf cost -> is_u64 a -> ledger_step l (release l cost a)
  | step_consume l cost a actual :
      cost_wf cost -> is_u64 a -> actual_wf actual -> ledger_step l (consume l cost a actual).

Lemma ledger_step_ok l l' : ledger_step l l' -> ledger_ok l ->
  ledger_ok l' /\ ledger_budget l' = ledger_budget l.
Proof.
  intros Hs Hl. destruct Hs as [l cost a l' Hc Ha Hr|l cost a Hc Ha|l cost a actual Hc Ha Hact].
  - split; [by eapply reserve_ok|]. by apply reserve_Ok in Hr as [_ ->].
  - split; [by apply release_ok|done].
  - split; [by apply consume_ok|done].
Qed.

Lemma ledger_reachable l l' : rtc ledger_step l l' -> ledger_ok l ->
  ledger_ok l' /\ ledger_budget l' = ledger_budget l.
Proof.
  induction 1 as [l|l1 l2 l3 Hs _ IH]; intros Hl; [done|].
  destruct (ledger_step_ok _ _ Hs Hl) as [H2 Hb]. destruct (IH H2) as [H3 Hb3].
  split; [done|congruence].
Qed.

(** C17. Whatever sequence of reservations, releases and consumptions a ledger
    goes through, overruns and releases of what was never reserved included:
    every counter stays a machine integer, and in each dimension the budget
    limits, no more remains than the limit less the consumption so far. *)
Theorem ledger_never_exceeds_budget id b l :
  budget_wf b -> rtc ledger_step (ledger_new id b) l ->
  usage_wf (reserved l) /\ usage_wf (consumed l) /\ usage_wf (remaining l) /\
  usage_le (remaining l) (cap b (consumed l)).
Proof.
  intros Hb Hr. destruct (ledger_reachable _ _ Hr (ledger_new_ok id b Hb)) as [[_ ? ? ? Hc _] Hbud].
  cbn in Hbud. rewrite Hbud in Hc. done.
Qed.

(** A reservation moves the usage exactly, without saturating. *)
Definition moved (u : BudgetUsage) (l l' : ExperienceBudgetLedger) : Prop :=
  reserved l' = usage_map2 Z.add (reserved l) u /\ remaining l' = usage_map2 Z.sub (remaining l) u /\
  consumed l' = consumed l /\ ledger_budget l' = ledger_budget l /\ ledger_id l' = ledger_id l.

Lemma dim_reserve_exact lim s c r u : dim_ok lim s c r -> is_u64 u -> (u <= r)%Z ->
  saturating_add s u = (s + u)%Z /\ saturating_sub r u = (r - u)%Z.
Proof. intros (? & ? & ? & ? & ? & ?) ? ?. split; usage_lia. Qed.

Lemma reserve_moves l cost a l' : ledger_ok l -> cost_wf cost -> is_u64 a ->
  reserve l cost a = Ok l' -> moved (from_cost cost a) l l'.
Proof.
  intros (Hb & H1 & H2 & H3 & H4)%ledger_ok_dims Hc Ha [[Hle _] ->]%reserve_Ok.
  destruct (from_cost_wf cost a Hc Ha) as (U1&U2&U3&U4), Hle as (L1&L2&L3&L4).
  destruct (dim_reserve_exact _ _ _ _ _ H1 U1 L1), (dim_reserve_exact _ _ _ _ _ H2 U2 L2),
    (dim_reserve_exact _ _ _ _ _ H3 U3 L3), (dim_reserve_exact _ _ _ _ _ H4 U4 L4).
  unfold moved, add_usage, subtract_usage, usage_map2; cbn in *. split_and!; congruence.
Qed.

(** A reservation succeeds exactly when the estimate fits what remains in
    every dimension and its effect risk is allowed; it then moves the usage from
    remaining to reserved exactly. Otherwise the ledger asks for intervention. *)
Theorem reserve_exact l cost a : ledger_ok l -> cost_wf cost -> is_u64 a ->
  match reserve l cost a with
  | Ok l' => usage_le (from_cost cost a) (remaining l) /\
             ord_le (cost_effect_risk cost) (allowed_effect_risk (ledger_budget l)) /\
             moved (from_cost cost a) l l'
  | Err e => ~ (usage_le (from_cost cost a) (remaining l) /\
                ord_le (cost_effect_risk cost) (allowed_effect_risk (ledger_budget l))) /\
             exit_code e = 5%Z
  end.
Proof.
  intros Hl Hc Ha. destruct (reserve l cost a) as [l'|e] eqn:Hr.
  - pose proof (reserve_moves l cost a l' Hl Hc Ha Hr). apply reserve_Ok in Hr as [[? ?] _]. done.
  - unfold reserve in Hr. rewrite <- can_reserve_iff. destruct (can_reserve l cost a); [done|].
    injection Hr as <-. done.
Qed.

Lemma usage_eq (u v : BudgetUsage) : u_trials u = u_trials v -> u_agent_runs u = u_agent_runs v ->
  u_duration_ms u = u_duration_ms v -> u_approvals u = u_approvals v -> u = v.
Proof. destruct u, v; cbn. by intros -> -> -> ->. Qed.

Lemma dim_round_trip lim s c r u : dim_ok lim s c r -> is_u64 u -> (u <= r)%Z ->
  saturating_sub (s + u) u = s /\
  match lim with Some n => Z.min (saturating_add (r - u) u) (saturating_sub n c)
  | None => saturating_add (r - u) u end = r.
Proof.
  intros (? & ? & ? & Hl & ? & ?) ? ?. destruct lim as [n|]; cbn in *;
    [specialize (Hl n eq_refl)|]; split; usage_lia.
Qed.

(** Releasing a reservation that was just made restores the ledger. *)
Theorem reserve_release_round_trip l cost a l' : ledger_ok l -> cost_wf cost -> is_u64 a ->
  reserve l cost a = Ok l' -> release l' cost a = l.
Proof.
  intros Hl Hc Ha Hr. destruct (reserve_moves l cost a l' Hl Hc Ha Hr) as (Hs & Hm & Hco & Hb & Hi).
  apply reserve_Ok in Hr as [[(L1&L2&L3&L4) _] _].
  destruct (from_cost_wf cost a Hc Ha) as (U1&U2&U3&U4).
  apply ledger_ok_dims in Hl as (_ & H1 & H2 & H3 & H4).
  pose proof (dim_round_trip _ _ _ _ _ H1 U1 L1) as [S1 R1].
  pose proof (dim_round_trip _ _ _ _ _ H2 U2 L2) as [S2_ R2].
  pose proof (dim_round_trip _ _ _ _ _ H3 U3 L3) as [S3 R3].
  pose proof (dim_round_trip _ _ _ _ _ H4 U4 L4) as [S4 R4].
  unfold release, cap_remaining. rewrite Hs, Hm, Hco, Hb, Hi. cbn.
  destruct l as [id b rs cs rm]; cbn in *. f_equal; apply usage_eq; cbn; done.
Qed.

Lemma existsb_false_iff {A} (f : A -> bool) l : existsb f l = false <-> forall x, x ∈ l -> f x = false.
Proof.
  rewrite <- not_true_iff_false, existsb_exists. setoid_rewrite <- list_elem_of_In. split.
  - intros Hn x Hx. destruct (f x) eqn:E; [|done]. destruct Hn. by exists x.
  - intros Hf (x & Hx & Ht). by rewrite Hf in Ht.
Qed.

(** The strict policy approves a request exactly when the candidates and
    the agent runs fit what the budget leaves, the duration is not used up and,
    under a command cap, no candidate is an agent task and every candidate's
    commands and checks stay within the cap; it never reduces a request. *)
Theorem strict_policy_exact {EffectRequest} (r : ExperimentRequest EffectRequest) usage :
  let b := request_budget r in
  (strict_evaluate r usage = Approved <->
   (usize_len (candidates r) <= saturating_sub (max_realities b) (eu_realities usage))%Z /\
   (Z.of_nat (countb is_agent (candidates r)) <=
      saturating_sub (max_agent_runs b) (eu_agent_runs usage))%Z /\
   (forall limit, max_duration_ms b = Some limit -> (eu_duration_ms usage < limit)%Z) /\
   (forall limit c, max_commands_per_reality b = Some limit -> c ∈ candidates r ->
      exceeds_commands limit (checks r) c = false)) /\
  (forall b', strict_evaluate r usage <> Reduced b').
Proof.
  intros b. unfold strict_evaluate. fold b.
  set (dur := match max_duration_ms b with
    Some limit => bool_decide (limit <= eu_duration_ms usage)%Z | None => false end).
  set (cmd := match max_commands_per_reality b with
    Some limit => existsb (exceeds_commands limit (checks r)) (candidates r) | None => false end).
  assert (Hdur : dur = false <->
    forall limit, max_duration_ms b = Some limit -> (eu_duration_ms usage < limit)%Z).
  { subst dur. destruct (max_duration_ms b) as [limit|]; [|done].
    rewrite bool_decide_eq_false. split; [intros ? ? [= <-]; lia|]. intros Hl. specialize (Hl limit eq_refl). lia. }
  assert (Hcmd : cmd = false <-> forall limit c, max_commands_per_reality b = Some limit ->
    c ∈ candidates r -> exceeds_commands limit (checks r) c = false).
  { subst cmd. destruct (max_commands_per_reality b) as [limit|]; [|done].
    rewrite existsb_false_iff. naive_solver. }
  split; [|intros b'; by repeat case_match].
  rewrite <- Hdur, <- Hcmd. clear Hdur Hcmd.
  case_decide; [split; [done|]; lia|]. case_decide; [split; [done|]; lia|].
  destruct dur, cmd; (split; [done || (intros _; split_and!; done || lia)|naive_solver]).
Qed.

(** * Settling a completed selection *)

(** The ledger part of [complete_opportunity_and_replan] of
    src/store/economics.rs: the completed selection is consumed, then every
    other reservation of the portfolio is released. *)
Definition settle (l : ExperienceBudgetLedger) (done_ : ExperimentCost * Z)
    (actual : ActualExperimentCost) (others : list (ExperimentCost * Z)) : ExperienceBudgetLedger :=
  foldl (fun l o => release l o.1 o.2) (consume l done_.1 done_.2 actual) others.

Definition usage_sum (us : list BudgetUsage) : BudgetUsage := foldr (usage_map2 Z.add) zero_usage us.
Definition costs_usage (os : list (ExperimentCost * Z)) : list BudgetUsage :=
  (fun o => from_cost o.1 o.2) <$> os.

(** One dimension of releasing the other reservations. *)
Definition dim_release_to (lim : option Z) (c : Z) (st : Z * Z) (u : Z) : Z * Z :=
  (saturating_sub st.1 u,
   match lim with Some n => Z.min (saturating_add st.2 u) (saturating_sub n c)
   | None => saturating_add st.2 u end).

Lemma dim_release_all n c s r us :
  is_u64 n -> is_u64 c -> (0 <= r)%Z -> (r <= saturating_sub n c)%Z ->
  Forall is_u64 us -> s = foldr Z.add 0%Z us -> (saturating_sub n c <= r + s)%Z ->
  foldl (dim_release_to (Some n) c) (s, r) us = (0%Z, saturating_sub n c).
Proof.
  intros Hn Hc. revert s r. induction us as [|u us IH]; intros s r Hr0 Hr Hus -> Hs; cbn [foldr foldl] in *.
  { f_equal. lia. }
  apply Forall_cons in Hus as [Hu Hus].
  assert (Hpos : (0 <= foldr Z.add 0 us)%Z).
  { clear -Hus. induction Hus as [|x l Hx _ IHl]; cbn; [lia|]. unfold is_u64 in Hx. lia. }
  unfold dim_release_to at 2; cbn [fst snd]. apply IH; [usage_lia|usage_lia|done|usage_lia|usage_lia].
Qed.

Lemma dim_release_all_reserved lim c s r us : Forall is_u64 us -> s = foldr Z.add 0%Z us ->
  (foldl (dim_release_to lim c) (s, r) us).1 = 0%Z.
Proof.
  revert s r. induction us as [|u us IH]; intros s r Hus ->; cbn [foldr foldl]; [done|].
  apply Forall_cons in Hus as [Hu Hus]. apply IH; [done|]. cbn.
  assert (Hpos : (0 <= foldr Z.add 0 us)%Z).
  { clear -Hus. induction Hus as [|x l Hx _ IHl]; cbn; [lia|]. unfold is_u64 in Hx. lia. }
  usage_lia.
Qed.

(** One dimension of a settlement: [u] was reserved for the completed
    selection, [a] is what it really used, [us] are the other reservations. *)
Lemma dim_settle n s c r u a us :
  dim_ok (Some n) s c r -> (s + r)%Z = saturating_sub n c -> is_u64 u -> is_u64 a ->
  Forall is_u64 us -> s = (u + foldr Z.add 0 us)%Z ->
  foldl (dim_release_to (Some n) (saturating_add c a))
    (saturating_sub s u, saturating_sub (Z.min (saturating_add r u) (saturating_sub n c)) a) us
  = (0%Z, saturating_sub n (saturating_add c a)).
Proof.
  intros (? & ? & ? & Hl & ? & ?) Hsum Hu Ha Hus Hs. specialize (Hl n eq_refl).
  assert (Hpos : (0 <= foldr Z.add 0 us)%Z).
  { clear -Hus. induction Hus as [|x l Hx _ IHl]; cbn; [lia|]. unfold is_u64 in Hx. lia. }
  apply dim_release_all; try done; usage_lia.
Qed.

(** The four dimensions of a budget, their counter and their limit. *)
Inductive dimension := Trials | AgentRuns | DurationMs | Approvals.
Definition amount (d : dimension) : BudgetUsage -> Z :=
  match d with
  | Trials => u_trials | AgentRuns => u_agent_runs
  | DurationMs => u_duration_ms | Approvals => u_approvals
  end.
Definition limit (d : dimension) (b : ExperienceBudget) : option Z :=
  match d with
  | Trials => Some (max_trials b) | AgentRuns => Some (max_agent_runs b)
  | DurationMs => max_duration_ms b | Approvals => max_human_approvals b
  end.

(** In every limited dimension, reserved and remaining make up exactly what the
    limit leaves after consumption. *)
Definition conserved (l : ExperienceBudgetLedger) : Prop :=
  forall d n, limit d (ledger_budget l) = Some n ->
    (amount d (reserved l) + amount d (remaining l) = saturating_sub n (amount d (consumed l)))%Z.

Lemma ledger_ok_dim l d : ledger_ok l ->
  dim_ok (limit d (ledger_budget l)) (amount d (reserved l)) (amount d (consumed l))
    (amount d (remaining l)).
Proof. intros (_ & ? & ? & ? & ?)%ledger_ok_dims. by destruct d. Qed.

Lemma amount_wf d u : usage_wf u -> is_u64 (amount d u).
Proof. intros (? & ? & ? & ?). by destruct d. Qed.
Lemma amount_map2 d f u v : amount d (usage_map2 f u v) = f (amount d u) (amount d v).
Proof. by destruct d. Qed.
Lemma amount_eq u v : (forall d, amount d u = amount d v) -> u = v.
Proof.
  intros H. apply usage_eq; [apply (H Trials)|apply (H AgentRuns)|apply (H DurationMs)|apply (H Approvals)].
Qed.
Lemma amount_sum d us : amount d (usage_sum us) = foldr Z.add 0%Z (amount d <$> us).
Proof.
  induction us as [|u us IH]; [by destruct d|].
  cbn [usage_sum foldr fmap list_fmap]. rewrite amount_map2. by f_equal.
Qed.

Lemma usage_sum_app us vs : usage_sum (us ++ vs) = usage_map2 Z.add (usage_sum us) (usage_sum vs).
Proof.
  apply amount_eq. intros d. rewrite amount_map2, !amount_sum, fmap_app.
  induction (amount d <$> us) as [|x l IH]; cbn; [lia|]. rewrite IH. lia.
Qed.

(** A reservation leaves no room that was not there before. *)
Lemma can_reserve_anti l cost a l' cost' a' :
  usage_wf (from_cost cost a) -> ledger_ok l -> reserve l cost a = Ok l' ->
  can_reserve l' cost' a' = true -> can_reserve l cost' a' = true.
Proof.
  intros (?&?&?&?) [_ _ _ (?&?&?&?) _ _] [_ ->]%reserve_Ok. rewrite !can_reserve_iff.
  unfold usage_le. cbn. intros [(?&?&?&?) ?]. split; [|done]. split_and!; usage_lia.
Qed.

(** Releasing acts on each dimension separately. *)
Lemma release_dim d l o :
  (amount d (reserved (release l o.1 o.2)), amount d (remaining (release l o.1 o.2))) =
  dim_release_to (limit d (ledger_budget l)) (amount d (consumed l))
    (amount d (reserved l), amount d (remaining l)) (amount d (from_cost o.1 o.2)).
Proof. by destruct d. Qed.

Lemma foldl_release_dim d others l :
  let l' := foldl (fun l o => release l o.1 o.2) l others in
  (amount d (reserved l'), amount d (remaining l')) =
  foldl (dim_release_to (limit d (ledger_budget l)) (amount d (consumed l)))
    (amount d (reserved l), amount d (remaining l)) (amount d <$> costs_usage others).
Proof.
  revert l. induction others as [|o others IH]; intros l; [done|].
  cbn [foldl costs_usage fmap list_fmap]. cbv zeta in IH. rewrite (IH (release l o.1 o.2)).
  f_equal. apply release_dim.
Qed.

Lemma foldl_release_frame others l : let l' := foldl (fun l o => release l o.1 o.2) l others in
  consumed l' = consumed l /\ ledger_budget l' = ledger_budget l /\ ledger_id l' = ledger_id l.
Proof.
  revert l. induction others as [|o others IH]; intros l; [done|]. apply (IH (release l o.1 o.2)).
Qed.

Lemma foldl_release_ok others l : ledger_ok l ->
  Forall (fun o => cost_wf o.1 /\ is_u64 o.2) others ->
  ledger_ok (foldl (fun l o => release l o.1 o.2) l others).
Proof.
  revert l. induction others as [|o others IH]; intros l Hl; cbn; [done|].
  intros [[??] ?]%Forall_cons. apply IH; [by apply release_ok|done].
Qed.

Lemma costs_usage_wf others : Forall (fun o => cost_wf o.1 /\ is_u64 o.2) others ->
  Forall usage_wf (costs_usage others).
Proof.
  intros H. apply Forall_fmap. eapply Forall_impl; [done|]. intros o [? ?]. by apply from_cost_wf.
Qed.

Lemma ledger_new_conserved id b : budget_wf b -> conserved (ledger_new id b).
Proof.
  intros Hb d n. pose proof (max_trials_u64 b Hb). destruct Hb as (? & ? & Hd & _ & Hh).
  destruct d; cbn; [intros [= <-]..|intros E; rewrite E; cbn|intros E; rewrite E; cbn];
    try specialize (Hd n E); try specialize (Hh n E); usage_lia.
Qed.

Lemma reserve_conserved l cost a l' : ledger_ok l -> cost_wf cost -> is_u64 a ->
  reserve l cost a = Ok l' -> conserved l -> conserved l'.
Proof.
  intros Hl Hc Ha Hr Hcons d n. destruct (reserve_moves l cost a l' Hl Hc Ha Hr) as (-> & -> & -> & -> & _).
  intros Hn. specialize (Hcons d n Hn). rewrite !amount_map2. lia.
Qed.

(** Settling a completed selection - consume it at its real cost, even an
    overrun, then release every other reservation - leaves nothing reserved and,
    in every limited dimension, exactly what the limit leaves after
    consumption. *)
Theorem settle_exact l cost a actual others :
  ledger_ok l -> conserved l -> cost_wf cost -> is_u64 a -> actual_wf actual ->
  Forall (fun o => cost_wf o.1 /\ is_u64 o.2) others ->
  reserved l = usage_sum (from_cost cost a :: costs_usage others) ->
  let l' := settle l (cost, a) actual others in
  ledger_ok l' /\ conserved l' /\ reserved l' = zero_usage /\
  ledger_budget l' = ledger_budget l /\
  consumed l' = add_usage (consumed l) (from_actual actual).
Proof.
  intros Hl Hcons Hc Ha Hact Ho Hres l'.
  set (l1 := consume l cost a actual).
  pose proof (consume_ok l cost a actual Hl Hc Ha Hact) as Hl1. fold l1 in Hl1.
  destruct (foldl_release_frame others l1) as (Hfc & Hfb & _).
  change (foldl _ l1 others) with l' in *.
  assert (Hus : forall d, Forall is_u64 (amount d <$> costs_usage others)).
  { intros d. apply Forall_fmap. eapply Forall_impl; [by apply costs_usage_wf|].
    intros u. apply amount_wf. }
  assert (Hs : forall d, amount d (reserved l) =
    (amount d (from_cost cost a) + foldr Z.add 0 (amount d <$> costs_usage others))%Z).
  { intros d. rewrite Hres, amount_sum. done. }
  pose proof (fun d => amount_wf d _ (from_cost_wf cost a Hc Ha)) as Hu.
  pose proof (fun d => amount_wf d _ (from_actual_wf actual Hact)) as Hav.
  assert (Hr1 : forall d, amount d (reserved l1) =
    saturating_sub (amount d (reserved l)) (amount d (from_cost cost a))) by (by intros []).
  split_and!; [by apply foldl_release_ok| | |done|done].
  - intros d n. rewrite Hfb, Hfc. intros Hn. change (ledger_budget l1) with (ledger_budget l) in Hn.
    pose proof (foldl_release_dim d others l1) as D. cbv zeta in D.
    pose proof (ledger_ok_dim l d Hl) as Hd. rewrite Hn in Hd.
    assert (Hc1 : amount d (consumed l1) =
      saturating_add (amount d (consumed l)) (amount d (from_actual actual))) by (by destruct d).
    assert (Hm1 : amount d (remaining l1) = saturating_sub (Z.min (saturating_add
      (amount d (remaining l)) (amount d (from_cost cost a)))
      (saturating_sub n (amount d (consumed l)))) (amount d (from_actual actual))).
    { destruct d; cbn in Hn |- *; simplify_eq; rewrite ?Hn; done. }
    change (ledger_budget l1) with (ledger_budget l) in D. rewrite Hn, Hr1, Hm1, Hc1 in D.
    pose proof (dim_settle n _ _ _ _ _ _ Hd (Hcons d n Hn) (Hu d) (Hav d) (Hus d) (Hs d)) as E.
    rewrite E in D. rewrite Hc1. change (foldl _ l1 others) with l' in D. by injection D as -> ->.
  - apply amount_eq. intros d. pose proof (f_equal fst (foldl_release_dim d others l1)) as D.
    cbn [fst] in D. change (foldl (fun l o => release l o.1 o.2) l1 others) with l' in D. rewrite D, dim_release_all_reserved; [by destruct d|done|].
    rewrite Hr1, Hs. assert (0 <= foldr Z.add 0 (amount d <$> costs_usage others))%Z.
    { clear -Hus. induction (Hus d) as [|x us Hx _ IH]; cbn; [lia|]. unfold is_u64 in Hx. lia. }
    specialize (Hu d). usage_lia.
Qed.

(** * Examples *)

Module LedgerExamples.

Definition budget : ExperienceBudget :=
  mkBudget 5 2 (Some 60000%Z) None (Some 4%Z) None (Some 1%Z) EffectRisk.Medium.
Definition cost : ExperimentCost :=
  mkCost 2 1 (Some 3500000000%Z) ComputeCostBand.Low AttentionCostBand.Low ResourceCostBand.None_
    EffectRisk.Low.
Definition overrun : ActualExperimentCost := mkActual 3 2 90000000000 0.
Definition fresh_ledger : ExperienceBudgetLedger := ledger_new "ledger-1" budget.
Definition once : ExperienceBudgetLedger :=
  mkLedger "ledger-1" budget (mkUsage 2 1 3500 1) zero_usage (mkUsage 2 1 56500 0).
Definition twice : ExperienceBudgetLedger :=
  mkLedger "ledger-1" budget (mkUsage 4 2 7000 1) zero_usage (mkUsage 0 0 53000 0).

Example reserve_once : reserve fresh_ledger cost 1 = Ok once.
Proof. reflexivity. Qed.
Example reserve_twice : reserve once cost 0 = Ok twice.
Proof. reflexivity. Qed.
Example third_reservation_refused :
  reserve twice cost 0 = Err (Intervention "Experience opportunity exceeds remaining acquisition budget").
Proof. reflexivity. Qed.

Lemma small_u64 n : bool_decide (is_u64 n) = true -> is_u64 n.
Proof. apply bool_decide_eq_true. Qed.
Lemma budget_is_wf : budget_wf budget.
Proof.
  split_and!; [by apply small_u64|by apply small_u64|..]; intros n; cbn; intros [= <-]; by apply small_u64.
Qed.
Lemma cost_is_wf : cost_wf cost.
Proof. split_and!; [by apply small_u64..|]. cbn. by intros d [= <-]. Qed.
Lemma fresh_ok : ledger_ok fresh_ledger.
Proof. apply ledger_new_ok, budget_is_wf. Qed.
Lemma overrun_wf : actual_wf overrun.
Proof. split_and!; [by apply small_u64|by apply small_u64|done|by apply small_u64]. Qed.
Lemma twice_ok : ledger_ok twice.
Proof.
  eapply (reserve_ok once cost 0); [|apply cost_is_wf|by apply small_u64|done].
  eapply (reserve_ok fresh_ledger cost 1); [apply fresh_ok|apply cost_is_wf|by apply small_u64|done].
Qed.
Lemma twice_conserved : conserved twice.
Proof. intros [] n; cbn; intros [= <-]; done. Qed.

Lemma never_exceeds_witness :
  usage_le (remaining twice) (cap budget (consumed twice)).
Proof.
  apply (ledger_never_exceeds_budget "ledger-1" budget twice); [apply budget_is_wf|].
  eapply rtc_l; [apply (step_reserve fresh_ledger cost 1 once)|eapply rtc_l;
    [apply (step_reserve once cost 0 twice)|apply rtc_refl]];
    first [apply cost_is_wf | by apply small_u64 | reflexivity].
Defined.

Lemma reserve_exact_witness :
  match reserve fresh_ledger cost 1 with
  | Ok l' => usage_le (from_cost cost 1) (remaining fresh_ledger) /\
             ord_le (cost_effect_risk cost) (allowed_effect_risk (ledger_budget fresh_ledger)) /\
             moved (from_cost cost 1) fresh_ledger l'
  | Err e => ~ (usage_le (from_cost cost 1) (remaining fresh_ledger) /\
                ord_le (cost_effect_risk cost) (allowed_effect_risk (ledger_budget fresh_ledger))) /\
             exit_code e = 5%Z
  end.
Proof. apply (reserve_exact fresh_ledger cost 1); [apply fresh_ok|apply cost_is_wf|by apply small_u64]. Defined.

Lemma round_trip_witness : release once cost 1 = fresh_ledger.
Proof.
  apply (reserve_release_round_trip fresh_ledger cost 1 once);
    [apply fresh_ok|apply cost_is_wf|by apply small_u64|reflexivity].
Defined.

(** The first selection overruns every estimate; the second is released. *)
Lemma settle_witness :
  let l' := settle twice (cost, 1%Z) overrun [(cost, 0%Z)] in
  ledger_ok l' /\ conserved l' /\ reserved l' = zero_usage /\
  ledger_budget l' = budget /\ consumed l' = mkUsage 3 2 90000 0.
Proof.
  apply (settle_exact twice cost 1 overrun [(cost, 0%Z)]);
    [apply twice_ok|apply twice_conserved|apply cost_is_wf|by apply small_u64|apply overrun_wf| |reflexivity].
  apply Forall_singleton. split; [apply cost_is_wf|by apply small_u64].
Defined.
Example settled_after_overrun :
  remaining (settle twice (cost, 1%Z) overrun [(cost, 0%Z)]) = mkUsage 1 0 0 1.
Proof. reflexivity. Qed.

End LedgerExamples.
