(* ===== verification/Ranking.v ===== *)
(** How opportunities are compared: the priority classes, the lexicographic rank
    key, the portfolio category and the dominance test of
    src/economics/engine.rs. *)
From S2P Require Import Prelude EconomicsModel.

Definition exposure_rank (x : ExposureBand.t) : Z :=
  match x with
  | ExposureBand.Unknown => 0
  | ExposureBand.Rare => 1
  | ExposureBand.Occasional => 2
  | ExposureBand.Frequent => 3
  | ExposureBand.VeryFrequent => 4
  end.

Definition reuse_rank (x : ReusePotential.t) : Z :=
  match x with
  | ReusePotential.Unknown => 0
  | ReusePotential.OneOff => 1
  | ReusePotential.Narrow => 2
  | ReusePotential.Reusable => 3
  | ReusePotential.Broad => 4
  end.

Definition novelty_rank (x : EvidenceNovelty.t) : Z :=
  match x with
  | EvidenceNovelty.Unknown => 0
  | EvidenceNovelty.Duplicate => 1
  | EvidenceNovelty.Replication => 2
  | EvidenceNovelty.ContextExtension => 3
  | EvidenceNovelty.MechanismChallenge => 4
  | EvidenceNovelty.NewFailureClass => 5
  end.

(** * Priority classes *)

Definition has (o : ExperienceOpportunity) (r : OpportunityReason.t) : bool :=
  bool_decide (r ∈ rationale o).

(** The guard of class 0. *)
Definition critical_unmitigated (o : ExperienceOpportunity) : bool :=
  bool_decide (failure_severity (opp_risk_reduction o) = Severity.Critical) &&
  match mitigation_gap (opp_risk_reduction o) with
  | MitigationGap.Significant | MitigationGap.Unmitigated => true
  | _ => false
  end.

(** The guard of class 1. *)
Definition contradicted (o : ExperienceOpportunity) : bool :=
  has o OpportunityReason.EvidenceContradicted ||
  bool_decide (opp_saturation o = EvidenceSaturation.Contradicted).

Definition priority_class (o : ExperienceOpportunity) (obj : ExperiencePortfolioObjective.t) : Z :=
  if critical_unmitigated o then 0
  else if contradicted o then 1
  else if
    (bool_decide (obj = ExperiencePortfolioObjective.Assurance) &&
       has o OpportunityReason.AssuranceBlocked) ||
    (bool_decide (obj = ExperiencePortfolioObjective.Efficiency) &&
       has o OpportunityReason.CapabilityOverprovisioned) ||
    (match opp_kind o with
     | ExperienceOpportunityKind.DiscriminateCausalHypotheses => true | _ => false end &&
       has o OpportunityReason.CausalMechanismUnknown) then 2
  else if has o OpportunityReason.RepeatedFailure || has o OpportunityReason.RecoveryMissing ||
          has o OpportunityReason.ForecastMiss then 2
  else if has o OpportunityReason.EvidenceStale then 3
  else if has o OpportunityReason.RuntimeAbstention || has o OpportunityReason.RuntimeUnknown then 4
  else if has o OpportunityReason.AssuranceBlocked then 5
  else if has o OpportunityReason.CausalMechanismUnknown ||
          has o OpportunityReason.LowEvidenceDiversity then
    if bool_decide (obj = ExperiencePortfolioObjective.Research) then 3 else 6
  else if has o OpportunityReason.CapabilityOverprovisioned then 7
  else 8.

(** * The rank key *)

Definition OpportunityRankKey : Type :=
  Z * Reverse ValueBand.t * Reverse Z * Reverse Z * Reverse ValueBand.t * Reverse Z * Reverse Z *
  Z * Z * string.

Definition rank_key (obj : ExperiencePortfolioObjective.t) (o : ExperienceOpportunity) :
    OpportunityRankKey :=
  (priority_class o obj,
   mkReverse (risk_reduction (opp_value o)),
   mkReverse (affected_decisions (opp_relevance o)),
   mkReverse (exposure_rank (occurrence_exposure (opp_risk_reduction o))),
   mkReverse (learning_value (opp_value o)),
   mkReverse (reuse_rank (opp_reuse o)),
   mkReverse (novelty_rank (opp_novelty o)),
   cost_trials (estimated_cost o),
   cost_agent_runs (estimated_cost o),
   opp_id o).

Definition rank (obj : ExperiencePortfolioObjective.t) (l : list ExperienceOpportunity) :
    list ExperienceOpportunity := sort_by_key (rank_key obj) l.

(** * Portfolio categories *)

Definition portfolio_category (k : ExperienceOpportunityKind.t) : EvidencePortfolioCategory.t :=
  match k with
  | ExperienceOpportunityKind.IncreaseTeamEvidenceDiversity
  | ExperienceOpportunityKind.ChallengeTeamCommonModeRisk => EvidencePortfolioCategory.Discovery
  | ExperienceOpportunityKind.ValidateDelegationBoundary
  | ExperienceOpportunityKind.ValidateRoleSeparation => EvidencePortfolioCategory.Validation
  | ExperienceOpportunityKind.ValidatePlan
  | ExperienceOpportunityKind.ValidateComposition
  | ExperienceOpportunityKind.InvestigateInteractionFailure
  | ExperienceOpportunityKind.ValidateSequenceInvariant
  | ExperienceOpportunityKind.ValidateCompositionRecovery
  | ExperienceOpportunityKind.ReduceCompositionAuthority => EvidencePortfolioCategory.Validation
  | ExperienceOpportunityKind.RevalidateStaleExperience => EvidencePortfolioCategory.Revalidation
  | ExperienceOpportunityKind.ResolveContradiction
  | ExperienceOpportunityKind.ChallengeRemoteContradiction
  | ExperienceOpportunityKind.ChallengeCausalHypothesis
  | ExperienceOpportunityKind.DiscriminateCausalHypotheses
  | ExperienceOpportunityKind.ChallengeAbstraction
  | ExperienceOpportunityKind.ReduceReflexFalsePositives
  | ExperienceOpportunityKind.ReduceForecastFalsePositives => EvidencePortfolioCategory.Challenge
  | ExperienceOpportunityKind.ExploreOperatingEnvelope
  | ExperienceOpportunityKind.InvestigateForecastMiss
  | ExperienceOpportunityKind.ResolveRuntimeUnknown
  | ExperienceOpportunityKind.IncreaseEvidenceDiversity
  | ExperienceOpportunityKind.ReduceKnowledgeFragmentation => EvidencePortfolioCategory.Discovery
  | ExperienceOpportunityKind.HardenSkill => EvidencePortfolioCategory.Hardening
  | ExperienceOpportunityKind.ValidateEarlyWarning
  | ExperienceOpportunityKind.ValidatePreventiveIntervention => EvidencePortfolioCategory.Prevention
  | ExperienceOpportunityKind.MinimizeCapability => EvidencePortfolioCategory.Efficiency
  | ExperienceOpportunityKind.ValidateLesson
  | ExperienceOpportunityKind.ValidateRecovery
  | ExperienceOpportunityKind.ValidateReflex
  | ExperienceOpportunityKind.ReproduceFederatedExperience
  | ExperienceOpportunityKind.ReproduceRemoteKnowledge
  | ExperienceOpportunityKind.ValidateCrossEnvironmentTransfer
  | ExperienceOpportunityKind.RevalidateAfterRemoteRevocation
  | ExperienceOpportunityKind.CloseAssuranceGap
  | ExperienceOpportunityKind.ValidateAbstraction
  | ExperienceOpportunityKind.ValidateTransfer
  | ExperienceOpportunityKind.Custom _ => EvidencePortfolioCategory.Validation
  end.

(** * Dominance *)

Definition ge_band (x y : ValueBand.t) : bool := bool_decide (ord_le y x).

(** The two conjunctions [dominance] spells out for each direction. *)
Definition no_worse (x y : ExperienceOpportunity) : bool :=
  let a := opp_value x in
  let b := opp_value y in
  ge_band (risk_reduction a) (risk_reduction b) &&
  ge_band (learning_value a) (learning_value b) &&
  ge_band (reuse_potential a) (reuse_potential b) &&
  ge_band (decision_relevance a) (decision_relevance b) &&
  ge_band (evidence_gap a) (evidence_gap b) &&
  ge_band (novelty a) (novelty b) &&
  bool_decide (cost_trials (estimated_cost x) <= cost_trials (estimated_cost y))%Z &&
  bool_decide (cost_agent_runs (estimated_cost x) <= cost_agent_runs (estimated_cost y))%Z.

Definition better (x y : ExperienceOpportunity) : bool :=
  negb (bool_decide (opp_value x = opp_value y)) ||
  bool_decide (cost_trials (estimated_cost x) < cost_trials (estimated_cost y))%Z ||
  bool_decide (cost_agent_runs (estimated_cost x) < cost_agent_runs (estimated_cost y))%Z.

Definition dominance (candidate other : ExperienceOpportunity) : DominanceStatus :=
  if no_worse candidate other && better candidate other then NonDominated
  else if no_worse other candidate && better other candidate then DominatedBy (opp_id other)
  else Incomparable.

(** * Pareto dominance *)

(** The specification: [x] is at least as good as [y] in each of the six value
    bands and costs no more trials and agent runs. *)
Definition at_least_as_good (x y : ExperienceOpportunity) : Prop :=
  Forall (fun band => ord_le (band (opp_value y)) (band (opp_value x)))
    [risk_reduction; learning_value; reuse_potential; decision_relevance; evidence_gap; novelty] /\
  Forall (fun amount => amount (estimated_cost x) <= amount (estimated_cost y))%Z
    [cost_trials; cost_agent_runs].
Definition dominates : relation ExperienceOpportunity := strict at_least_as_good.

Ltac all_bands :=
  repeat match goal with H : Forall _ (_ :: _) |- _ => apply Forall_cons in H as [? H] end.

#[export] Instance at_least_as_good_preorder : PreOrder at_least_as_good.
Proof.
  split.
  - intros x. split; rewrite !Forall_cons; split_and!; by apply Forall_nil_2 || reflexivity.
  - intros x y z [Hb1 Hc1] [Hb2 Hc2]. all_bands. split; rewrite !Forall_cons; split_and!; try by apply Forall_nil_2.
    all: by etrans.
Qed.
#[export] Instance dominates_strict_order : StrictOrder dominates.
Proof. unfold dominates. apply _. Qed.

Lemma no_worse_iff x y : no_worse x y = true <-> at_least_as_good x y.
Proof.
  unfold no_worse, ge_band, at_least_as_good.
  rewrite !andb_true_iff, !bool_decide_eq_true, !Forall_cons, !Forall_nil. tauto.
Qed.

(** Mutual weak dominance is equality of the compared figures. *)
Lemma mutual_as_good x y : at_least_as_good x y -> at_least_as_good y x ->
  opp_value x = opp_value y /\
  cost_trials (estimated_cost x) = cost_trials (estimated_cost y) /\
  cost_agent_runs (estimated_cost x) = cost_agent_runs (estimated_cost y).
Proof.
  intros [Hb1 Hc1] [Hb2 Hc2]. all_bands.
  split_and!; [|lia|lia]. destruct (opp_value x), (opp_value y); cbn in *.
  f_equal; by apply (anti_symm ord_le).
Qed.

Lemma no_worse_better x y : no_worse x y && better x y = true <-> dominates x y.
Proof.
  rewrite andb_true_iff, no_worse_iff. unfold dominates, strict, better.
  rewrite !orb_true_iff, negb_true_iff, bool_decide_eq_false, !bool_decide_eq_true. split.
  - intros [Hg Hb]. split; [done|]. intros Hr. pose proof (mutual_as_good x y Hg Hr). intuition lia.
  - intros [Hg Hn]. split; [done|].
    destruct (decide (opp_value x = opp_value y)) as [Hv|]; [|by left; left].
    destruct (decide (cost_trials (estimated_cost x) < cost_trials (estimated_cost y))%Z);
      [by left; right|].
    destruct (decide (cost_agent_runs (estimated_cost x) < cost_agent_runs (estimated_cost y))%Z);
      [by right|].
    destruct Hn. destruct Hg as [_ Hc]. all_bands.
    split; rewrite ?Hv, !Forall_cons; split_and!; by apply Forall_nil_2 || reflexivity || lia.
Qed.

(** Dominance is Pareto dominance: the test answers that the candidate is
    dominated, naming the other opportunity, exactly when the other one strictly
    dominates it, and non-dominated exactly when it dominates the other; and
    strict dominance is a strict partial order, so the two never hold at once. *)
Theorem dominance_pareto x y :
  (forall id, dominance x y = DominatedBy id <-> dominates y x /\ id = opp_id y) /\
  (dominance x y = NonDominated <-> dominates x y) /\
  (dominates x y -> ~ dominates y x) /\
  (forall z, dominates x y -> dominates y z -> dominates x z).
Proof.
  unfold dominance. pose proof (no_worse_better x y) as H1. pose proof (no_worse_better y x) as H2.
  assert (Hasym : dominates x y -> ~ dominates y x).
  { intros Hxy Hyx. apply (irreflexivity dominates x). by transitivity y. }
  split; [|split; [|split; [done|intros z; apply transitivity]]].
  - intros id. destruct (no_worse x y && better x y) eqn:E1; [|destruct (no_worse y x && better y x) eqn:E2]; naive_solver.
  - destruct (no_worse x y && better x y) eqn:E1; [|destruct (no_worse y x && better y x) eqn:E2]; naive_solver.
Qed.

Lemma dominance_dominated x y id :
  dominance x y = DominatedBy id -> dominates y x /\ id = opp_id y.
Proof.
  unfold dominance. pose proof (no_worse_better y x) as H.
  destruct (no_worse x y && better x y); [done|].
  destruct (no_worse y x && better y x); [|done]. intros [= <-]. tauto.
Qed.

Lemma dominance_by x y : dominates y x -> dominance x y = DominatedBy (opp_id y).
Proof.
  intros Hyx. unfold dominance.
  destruct (no_worse x y && better x y) eqn:E.
  - apply no_worse_better in E. destruct (irreflexivity dominates x). by transitivity y.
  - by rewrite (proj2 (no_worse_better y x) Hyx).
Qed.

(** * The classes and the objective *)

Ltac decide_objective :=
  repeat match goal with
  | |- context [bool_decide (?a = ?b :> ExperiencePortfolioObjective.t)] =>
      let v := eval vm_compute in (bool_decide (a = b)) in change (bool_decide (a = b)) with v
  end.

Lemma priority_class_range o obj : (0 <= priority_class o obj <= 8)%Z.
Proof. unfold priority_class. repeat case_match; lia. Qed.

Lemma priority_class_zero o obj : priority_class o obj = 0%Z <-> critical_unmitigated o = true.
Proof. unfold priority_class. split; repeat case_match; done. Qed.

(** A portfolio objective can only promote an opportunity, and never past a
    critical unmitigated failure or a contradiction: against the balanced
    objective the class never grows, and classes 0 and 1 are the same under
    every objective. *)
Theorem objective_only_promotes o obj :
  let c := priority_class o obj in
  let balanced := priority_class o ExperiencePortfolioObjective.Balanced in
  (0 <= c <= balanced)%Z /\ (balanced <= 8)%Z /\
  (forall n, (n < 2)%Z -> c = n <-> balanced = n) /\
  (c = 0%Z <-> failure_severity (opp_risk_reduction o) = Severity.Critical /\
     mitigation_gap (opp_risk_reduction o) ∈ [MitigationGap.Significant; MitigationGap.Unmitigated]).
Proof.
  intros c balanced.
  split_and!; [apply priority_class_range| |apply priority_class_range| |].
  - unfold c, balanced, priority_class.
    set (causal := match opp_kind o with
      ExperienceOpportunityKind.DiscriminateCausalHypotheses => true | _ => false end && _).
    destruct obj, causal, (has o OpportunityReason.AssuranceBlocked),
      (has o OpportunityReason.CapabilityOverprovisioned);
      decide_objective; cbn; repeat case_match; lia.
  - intros n Hn. unfold c, balanced, priority_class.
    destruct (critical_unmitigated o); [done|]. destruct (contradicted o); [done|].
    split; repeat case_match; lia.
  - unfold c. rewrite priority_class_zero. unfold critical_unmitigated.
    rewrite andb_true_iff, bool_decide_eq_true.
    destruct (mitigation_gap _); split; intros [? ?]; split; try done; set_solver.
Qed.

(** * The ranking *)

Lemma rank_perm obj l : rank obj l ≡ₚ l.
Proof. apply sort_by_key_perm. Qed.
Lemma elem_of_rank obj l o : o ∈ rank obj l <-> o ∈ l.
Proof. by rewrite rank_perm. Qed.

Lemma rank_key_id obj x y : rank_key obj x = rank_key obj y -> opp_id x = opp_id y.
Proof. unfold rank_key. intros [=]. done. Qed.

Lemma NoDup_ids_inj (l : list ExperienceOpportunity) x y :
  NoDup (opp_id <$> l) -> x ∈ l -> y ∈ l -> opp_id x = opp_id y -> x = y.
Proof.
  intros Hnd (i & Hi)%list_elem_of_lookup_1 (j & Hj)%list_elem_of_lookup_1 He.
  assert (i = j) as ->; [|congruence].
  eapply NoDup_lookup; [done|rewrite list_lookup_fmap, Hi; done|].
  rewrite list_lookup_fmap, Hj. cbn. by rewrite He.
Qed.

(** With distinct ids the ranking forgets the order of its input. *)
Lemma rank_unique obj l l' : NoDup (opp_id <$> l) -> l ≡ₚ l' -> rank obj l = rank obj l'.
Proof.
  intros Hnd Hp. apply sort_by_key_unique; [|done].
  intros x y Hx Hy ?%rank_key_id. by eapply NoDup_ids_inj.
Qed.

Lemma StronglySorted_weaken {A} (R S : relation A) l :
  (forall x y, R x y -> S x y) -> StronglySorted R l -> StronglySorted S l.
Proof.
  intros HRS. induction 1 as [|x l _ IH Hx]; constructor; [done|].
  eapply Forall_impl; [done|]. naive_solver.
Qed.

Lemma StronglySorted_sublist {A} (R : relation A) l k :
  k `sublist_of` l -> StronglySorted R l -> StronglySorted R k.
Proof.
  induction 1 as [|x k l Hk IH|x k l Hk IH]; intros Hs; [done|inversion Hs; subst|inversion Hs; subst; auto].
  constructor; [auto|]. rewrite Forall_forall in *. intros y Hy.
  match goal with H : forall y, y ∈ l -> _ |- _ => apply H end. by eapply elem_of_sublist.
Qed.

Lemma ord_le_fst {A B} `{OrdLaws A, Ord B} (p q : A * B) : ord_le p q -> ord_le p.1 q.1.
Proof.
  unfold ord_le. destruct p as [a b], q as [a' b']. unfold ord_cmp at 1, prod_ord. cbn.
  by destruct (ord_cmp a a').
Qed.

Lemma rank_class_sorted obj l :
  StronglySorted (fun x y => priority_class x obj <= priority_class y obj)%Z (rank obj l).
Proof.
  eapply StronglySorted_weaken; [|apply sort_by_key_sorted].
  intros x y Hxy. do 9 apply ord_le_fst in Hxy. done.
Qed.
