(* ===== verification/Generator.v ===== *)
(** From gaps to opportunities: the saturation policy, the marginal value, the
    deterministic generator, the compiler and the stop policy of
    src/economics/engine.rs, with the [FromStr] of the identifiers of
    src/core.rs. The serializer, the hash and the UUID parser are parameters. *)
From S2P Require Import Prelude EconomicsModel.

Definition OPPORTUNITY_GENERATOR_VERSION : string := "deterministic-opportunity-generator-v1".

(** * Saturation and marginal value *)

Definition assess (e : EvidenceSummary) : EvidenceSaturation.t :=
  if decide (0 < contradictions e)%Z then EvidenceSaturation.Contradicted
  else if decide (observations e = 0)%Z then EvidenceSaturation.Sparse
  else if bool_decide (2 <= counterfactuals e)%Z && bool_decide (2 <= distinct_contexts e)%Z &&
          bool_decide (2 <= diversity_domains e)%Z &&
          bool_decide (4 <= equivalent_replications e)%Z then EvidenceSaturation.Saturated
  else if bool_decide (0 < counterfactuals e)%Z && bool_decide (0 < distinct_contexts e)%Z &&
          bool_decide (2 <= equivalent_replications e)%Z then EvidenceSaturation.Mature
  else EvidenceSaturation.Developing.

(** The [unreachable!] of the last arm panics. *)
Definition marginal_value_of (s : EvidenceSaturation.t) (e : EvidenceSummary) :
    run MarginalEvidenceValue :=
  if decide (s = EvidenceSaturation.Contradicted) then
    Ret (mkMarginal ValueBand.Critical MarginalValueReason.ResolvesContradiction)
  else if negb (fresh e) && bool_decide (0 < observations e)%Z then
    Ret (mkMarginal ValueBand.High MarginalValueReason.FirstContextExtension)
  else
    match s with
    | EvidenceSaturation.Sparse => Ret (mkMarginal ValueBand.High MarginalValueReason.FirstEvidence)
    | EvidenceSaturation.Developing =>
        if decide (counterfactuals e = 0)%Z then
          Ret (mkMarginal ValueBand.High MarginalValueReason.FirstCounterfactual)
        else Ret (mkMarginal ValueBand.Medium MarginalValueReason.Replication)
    | EvidenceSaturation.Mature =>
        Ret (mkMarginal ValueBand.Low MarginalValueReason.RepeatedEquivalentReplication)
    | EvidenceSaturation.Saturated =>
        Ret (mkMarginal ValueBand.None_ MarginalValueReason.Saturated)
    | EvidenceSaturation.Contradicted => Panicked
    end.

Definition severity_value (s : Severity.t) : ValueBand.t :=
  match s with
  | Severity.Informational => ValueBand.None_
  | Severity.Low => ValueBand.Low
  | Severity.Medium => ValueBand.Medium
  | Severity.High => ValueBand.High
  | Severity.Critical => ValueBand.Critical
  end.

Definition exposure_value (x : ExposureBand.t) : ValueBand.t :=
  match x with
  | ExposureBand.Rare => ValueBand.Low
  | ExposureBand.Occasional => ValueBand.Medium
  | ExposureBand.Frequent => ValueBand.High
  | ExposureBand.VeryFrequent => ValueBand.Critical
  | ExposureBand.Unknown => ValueBand.None_
  end.

Definition reuse_value (x : ReusePotential.t) : ValueBand.t :=
  match x with
  | ReusePotential.OneOff => ValueBand.Low
  | ReusePotential.Narrow => ValueBand.Medium
  | ReusePotential.Reusable => ValueBand.High
  | ReusePotential.Broad => ValueBand.Critical
  | ReusePotential.Unknown => ValueBand.None_
  end.

Definition novelty_value (x : EvidenceNovelty.t) : ValueBand.t :=
  match x with
  | EvidenceNovelty.Duplicate => ValueBand.None_
  | EvidenceNovelty.Replication => ValueBand.Low
  | EvidenceNovelty.ContextExtension => ValueBand.Medium
  | EvidenceNovelty.MechanismChallenge => ValueBand.High
  | EvidenceNovelty.NewFailureClass => ValueBand.Critical
  | EvidenceNovelty.Unknown => ValueBand.None_
  end.

Definition evidence_gap_value (e : EvidenceSummary) (s : EvidenceSaturation.t) : ValueBand.t :=
  if decide (0 < contradictions e)%Z then ValueBand.Critical
  else match s with
  | EvidenceSaturation.Sparse => ValueBand.High
  | EvidenceSaturation.Developing => ValueBand.Medium
  | EvidenceSaturation.Mature => ValueBand.Low
  | EvidenceSaturation.Saturated => ValueBand.None_
  | EvidenceSaturation.Contradicted => ValueBand.Critical
  end.

(** [Ord::max] keeps its second argument when the two are equal. *)
Definition max_band (x y : ValueBand.t) : ValueBand.t := if decide (ord_le x y) then y else x.

(** The [Debug] names of the rationale. *)
Definition debug_exposure (x : ExposureBand.t) : string :=
  match x with
  | ExposureBand.Rare => "Rare"
  | ExposureBand.Occasional => "Occasional"
  | ExposureBand.Frequent => "Frequent"
  | ExposureBand.VeryFrequent => "VeryFrequent"
  | ExposureBand.Unknown => "Unknown"
  end.
Definition debug_mitigation (x : MitigationGap.t) : string :=
  match x with
  | MitigationGap.None_ => "None"
  | MitigationGap.Partial => "Partial"
  | MitigationGap.Significant => "Significant"
  | MitigationGap.Unmitigated => "Unmitigated"
  | MitigationGap.Unknown => "Unknown"
  end.

(** * Identifiers *)

Definition hex_digit (n : Z) : Ascii.ascii :=
  if decide (n < 10)%Z then Ascii.ascii_of_nat (48 + Z.to_nat n) else Ascii.ascii_of_nat (87 + Z.to_nat n).
(** [{:02x}] of a byte. *)
Definition hex2 (b : Z) : string :=
  String (hex_digit (Z.shiftr b 4)) (String (hex_digit (Z.land b 15)) EmptyString).

Fixpoint strip_prefix (p s : string) : option string :=
  match p, s with
  | EmptyString, _ => Some s
  | String a p', String b s' => if decide (a = b) then strip_prefix p' s' else None
  | String _ _, EmptyString => None
  end.

Definition byte_at (bytes : list Z) (i : nat) : Z := nth i bytes 0%Z.

(** The version-4 layout given to the first sixteen bytes of the digest. *)
Definition uuid_bytes (d : list Z) : list Z :=
  [byte_at d 0; byte_at d 1; byte_at d 2; byte_at d 3; byte_at d 4; byte_at d 5;
   Z.lor (Z.land (byte_at d 6) 15) 64; byte_at d 7; Z.lor (Z.land (byte_at d 8) 63) 128;
   byte_at d 9; byte_at d 10; byte_at d 11; byte_at d 12; byte_at d 13; byte_at d 14; byte_at d 15].

Definition uuid_text (b : list Z) : string :=
  match b with
  | [b0; b1; b2; b3; b4; b5; b6; b7; b8; b9; b10; b11; b12; b13; b14; b15] =>
      hex2 b0 +:+ hex2 b1 +:+ hex2 b2 +:+ hex2 b3 +:+ "-" +:+ hex2 b4 +:+ hex2 b5 +:+ "-" +:+
      hex2 b6 +:+ hex2 b7 +:+ "-" +:+ hex2 b8 +:+ hex2 b9 +:+ "-" +:+
      hex2 b10 +:+ hex2 b11 +:+ hex2 b12 +:+ hex2 b13 +:+ hex2 b14 +:+ hex2 b15
  | _ => EmptyString
  end.

(** What the generator asks of its libraries: [serde_json::to_vec] of the hashed
    part of a gap, [blake3::hash], and [Uuid::parse_str] followed by the UUID's
    display. *)
Record identity_ops := mkIdentity {
  to_vec : ExperienceOpportunityKind.t * ExperienceOpportunityTarget.t * list OpportunityReason.t ->
           result (list Z);
  blake3_hash : list Z -> list Z;
  parse_uuid : string -> option string;
}.

(** [blake3] returns bytes and a UUID in its canonical text parses to itself. *)
Class IdentityLaws (ops : identity_ops) : Prop := {
  blake3_bytes : forall v i, (0 <= byte_at (blake3_hash ops v) i < 256)%Z;
  parse_canonical : forall b, length b = 16%nat -> Forall (fun x => 0 <= x < 256)%Z b ->
    parse_uuid ops (uuid_text b) = Some (uuid_text b);
}.

Section generator.
Context (ops : identity_ops).

(** [FromStr] of the identifiers. *)
Definition identifier_from_str (prefix value : string) : result string :=
  match strip_prefix prefix value ≫= parse_uuid ops with
  | Some uuid =>
      if decide (value = prefix +:+ uuid) then Ok value
      else Err (InvalidInput ("Expected " +:+ prefix +:+ "<canonical UUID>"))
  | None => Err (InvalidInput ("Expected " +:+ prefix +:+ "<canonical UUID>"))
  end.

Definition stable_opportunity_id (g : ExperienceGap) : result string :=
  v ← to_vec ops (gap_kind g, gap_target g, gap_reasons g);
  identifier_from_str "opportunity-"
    ("opportunity-" +:+ uuid_text (uuid_bytes (blake3_hash ops v))).

(** * The generator *)

Definition opportunity_of (now_ : Z) (g : ExperienceGap) (id : string) : run ExperienceOpportunity :=
  let saturation := assess (gap_evidence g) in
  marginal ← marginal_value_of saturation (gap_evidence g);
  let estimate := mkRiskReduction (gap_severity g) (gap_exposure g) (gap_mitigation g)
    [debug_exposure (gap_exposure g) +:+ " exposure with " +:+
     debug_mitigation (gap_mitigation g) +:+ " mitigation"] in
  let reasons :=
    if bool_decide (saturation = EvidenceSaturation.Saturated) &&
       negb (bool_decide (OpportunityReason.EvidenceSaturated ∈ gap_reasons g))
    then gap_reasons g ++ [OpportunityReason.EvidenceSaturated] else gap_reasons g in
  Ret (mkOpportunity id (gap_kind g) (gap_target g) reasons
    (mkValue (severity_value (gap_severity g)) (learning_band (gap_learning g))
       (reuse_value (gap_reuse g))
       (max_band (likely_decision_change (gap_relevance g)) (exposure_value (gap_exposure g)))
       (evidence_gap_value (gap_evidence g) saturation) (novelty_value (gap_novelty g)))
    (gap_cost g) (gap_risk g) (gap_dependencies g)
    (if bool_decide (saturation = EvidenceSaturation.Saturated) && fresh (gap_evidence g)
     then ExperienceOpportunityStatus.Saturated else ExperienceOpportunityStatus.Eligible)
    now_ estimate (gap_learning g) (gap_relevance g) (gap_reuse g) (gap_novelty g) saturation
    marginal OPPORTUNITY_GENERATOR_VERSION).

(** The loop over the gaps: the opportunities so far and the ids seen. *)
Fixpoint generate_loop (now_ : Z) (gs : list ExperienceGap)
    (out : list ExperienceOpportunity) (seen : gset string) :
    run (result (list ExperienceOpportunity)) :=
  match gs with
  | [] => Ret (Ok out)
  | g :: gs' =>
      match stable_opportunity_id g with
      | Err e => Ret (Err e)
      | Ok id =>
          if decide (id ∈ seen) then generate_loop now_ gs' out seen
          else
            o ← opportunity_of now_ g id;
            generate_loop now_ gs' (out ++ [o]) ({[id]} ∪ seen)
      end
  end.

Definition generate (c : ExperiencePlanningContext) : run (result (list ExperienceOpportunity)) :=
  r ← generate_loop (now c) (gaps c) [] ∅;
  Ret (out ← r; Ok (sort_by_key opp_id out)).
End generator.

(** * The compiler *)

Definition compile (o : ExperienceOpportunity) : result ExecutableLearningPlan :=
  let target := opp_target o in
  Ok match opp_kind o, opp_target o with
  | ExperienceOpportunityKind.ChallengeCausalHypothesis,
    ExperienceOpportunityTarget.CausalHypothesis id
  | ExperienceOpportunityKind.DiscriminateCausalHypotheses,
    ExperienceOpportunityTarget.CausalHypothesis id => CausalInvestigation id
  | ExperienceOpportunityKind.ReproduceFederatedExperience,
    ExperienceOpportunityTarget.FederatedObject object
  | ExperienceOpportunityKind.ReproduceRemoteKnowledge,
    ExperienceOpportunityTarget.FederatedObject object
  | ExperienceOpportunityKind.ChallengeRemoteContradiction,
    ExperienceOpportunityTarget.FederatedObject object
  | ExperienceOpportunityKind.ValidateCrossEnvironmentTransfer,
    ExperienceOpportunityTarget.FederatedObject object
  | ExperienceOpportunityKind.RevalidateAfterRemoteRevocation,
    ExperienceOpportunityTarget.FederatedObject object => FederationReproduction object
  | ExperienceOpportunityKind.MinimizeCapability, ExperienceOpportunityTarget.Tool tool =>
      CapabilityCurriculum tool
  | ExperienceOpportunityKind.ValidateRecovery, _ =>
      Experiment target ExperimentIntent.ValidateRecovery
  | ExperienceOpportunityKind.ExploreOperatingEnvelope, _ =>
      Experiment target ExperimentIntent.MapBoundary
  | ExperienceOpportunityKind.ValidateLesson, _ =>
      Curriculum target CurriculumGoalKind.ValidateSkill
  | ExperienceOpportunityKind.HardenSkill, _ =>
      Curriculum target CurriculumGoalKind.ValidateSkill
  | ExperienceOpportunityKind.ValidateReflex, _
  | ExperienceOpportunityKind.ReduceReflexFalsePositives, _ =>
      Curriculum target CurriculumGoalKind.ValidateReflex
  | ExperienceOpportunityKind.RevalidateStaleExperience, _ =>
      Curriculum target CurriculumGoalKind.RevalidateOldExperience
  | ExperienceOpportunityKind.IncreaseEvidenceDiversity, _ =>
      Curriculum target CurriculumGoalKind.IncreaseEvidenceDiversity
  | ExperienceOpportunityKind.CloseAssuranceGap, _ =>
      Curriculum target CurriculumGoalKind.SatisfyAssuranceRequirement
  | ExperienceOpportunityKind.ValidateEarlyWarning, _ =>
      Curriculum target CurriculumGoalKind.ValidateEarlyWarning
  | ExperienceOpportunityKind.ValidatePreventiveIntervention, _ =>
      Curriculum target CurriculumGoalKind.ValidatePreventiveIntervention
  | ExperienceOpportunityKind.InvestigateForecastMiss, _ =>
      Curriculum target CurriculumGoalKind.DiscoverEarlyWarning
  | ExperienceOpportunityKind.ReduceForecastFalsePositives, _ =>
      Curriculum target CurriculumGoalKind.ReduceForecastFalsePositives
  | ExperienceOpportunityKind.ResolveContradiction, _ =>
      Curriculum target CurriculumGoalKind.ResolveContradiction
  | ExperienceOpportunityKind.ValidateAbstraction, _
  | ExperienceOpportunityKind.ValidateTransfer, _ =>
      Experiment target ExperimentIntent.ValidateTransfer
  | ExperienceOpportunityKind.ChallengeAbstraction, _ =>
      Curriculum target CurriculumGoalKind.ChallengeAbstraction
  | ExperienceOpportunityKind.ReduceKnowledgeFragmentation, _ =>
      Curriculum target CurriculumGoalKind.FindGeneralizationBoundary
  | _, _ => Experiment target ExperimentIntent.ResolveUncertainty
  end.

(** * The stop policy *)

Definition should_stop (o : ExperienceOpportunity) (evidence : list string) : StopDecision.t :=
  if decide (trial_safety (opp_risk o) = TrialSafety.Unsupported) then StopDecision.StopUnsafe
  else if decide (opp_saturation o = EvidenceSaturation.Contradicted) then
    StopDecision.StopContradicted
  else if decide (opp_saturation o = EvidenceSaturation.Saturated) then StopDecision.StopSaturated
  else if decide ("objective_satisfied" ∈ evidence) then StopDecision.StopSatisfied
  else StopDecision.Continue.

Definition default_opportunity_risk : OpportunityRisk :=
  mkRisk TrialSafety.Safe EffectRisk.ReadOnly
    (mkRequirements IsolationLevel.None_ IsolationLevel.None_ IsolationLevel.None_
       IsolationLevel.None_ false) false.

(** * More evidence is worth less *)

Definition maturity (s : EvidenceSaturation.t) : Z :=
  match s with
  | EvidenceSaturation.Sparse => 0
  | EvidenceSaturation.Developing => 1
  | EvidenceSaturation.Mature => 2
  | EvidenceSaturation.Saturated => 3
  | EvidenceSaturation.Contradicted => 4
  end.

(** [e'] holds at least the evidence of [e] in every counter. *)
Definition evidence_le (e e' : EvidenceSummary) : Prop :=
  Forall (fun counter => counter e <= counter e')%Z
    [observations; equivalent_replications; distinct_contexts; counterfactuals; diversity_domains;
     contradictions].
Definition summary_wf (e : EvidenceSummary) : Prop :=
  Forall (fun counter => is_u64 (counter e))
    [observations; equivalent_replications; distinct_contexts; counterfactuals; diversity_domains;
     contradictions].

(** When each saturation level is reached. *)
Definition saturated_counts (e : EvidenceSummary) : Prop :=
  (2 <= counterfactuals e /\ 2 <= distinct_contexts e /\ 2 <= diversity_domains e /\
   4 <= equivalent_replications e)%Z.
Definition mature_counts (e : EvidenceSummary) : Prop :=
  (0 < counterfactuals e /\ 0 < distinct_contexts e /\ 2 <= equivalent_replications e)%Z.
Variant assess_spec (e : EvidenceSummary) : EvidenceSaturation.t -> Prop :=
  | assess_contradicted :
      (0 < contradictions e)%Z -> assess_spec e EvidenceSaturation.Contradicted
  | assess_sparse : (contradictions e <= 0)%Z -> observations e = 0%Z ->
      assess_spec e EvidenceSaturation.Sparse
  | assess_saturated : (contradictions e <= 0)%Z -> observations e <> 0%Z -> saturated_counts e ->
      assess_spec e EvidenceSaturation.Saturated
  | assess_mature : (contradictions e <= 0)%Z -> observations e <> 0%Z -> ~ saturated_counts e ->
      mature_counts e -> assess_spec e EvidenceSaturation.Mature
  | assess_developing : (contradictions e <= 0)%Z -> observations e <> 0%Z ->
      ~ saturated_counts e -> ~ mature_counts e -> assess_spec e EvidenceSaturation.Developing.

Lemma assessP e : assess_spec e (assess e).
Proof.
  unfold assess. case_decide as Hc; [by constructor|].
  case_decide as Ho; [by constructor; [lia|]|].
  destruct (_ && _) eqn:Hs; rewrite <- not_true_iff_false in * || idtac.
  - rewrite !andb_true_iff, !bool_decide_eq_true in Hs. constructor; [lia|done|].
    unfold saturated_counts. tauto.
  - rewrite !andb_true_iff, !bool_decide_eq_true in Hs.
    destruct (bool_decide (0 < _)%Z && _ && _) eqn:Hm; [|rewrite <- not_true_iff_false in Hm];
      rewrite !andb_true_iff, !bool_decide_eq_true in Hm; constructor; unfold saturated_counts,
      mature_counts; done || lia || tauto.
Qed.

Lemma marginal_value_returns s e : exists m, marginal_value_of s e = Ret m.
Proof.
  unfold marginal_value_of. case_decide; [eauto|].
  destruct (negb (fresh e) && _); [eauto|]. destruct s; [eauto|case_decide; eauto|eauto|eauto|done].
Qed.

Ltac counters :=
  repeat match goal with H : Forall _ (_ :: _) |- _ => apply Forall_cons in H as [? H] end;
  cbv beta in *; unfold is_u64 in *.

(** Evidence matures and its marginal value diminishes: adding evidence
    never lowers the saturation level; and while the evidence stays fresh and uncontradicted it
    never raises the band of the next experiment's marginal value. The
    valuation never reaches its unreachable arm. *)
Theorem evidence_diminishing e e' :
  summary_wf e -> evidence_le e e' ->
  (maturity (assess e) <= maturity (assess e'))%Z /\
  exists m m', marginal_value_of (assess e) e = Ret m /\ marginal_value_of (assess e') e' = Ret m' /\
    (fresh e = true -> fresh e' = true -> contradictions e' = 0%Z ->
       ord_le (marginal_band m') (marginal_band m)).
Proof.
  unfold summary_wf, evidence_le. intros Hwf Hle. counters. split.
  - destruct (assessP e), (assessP e'); unfold saturated_counts, mature_counts in *; cbn; lia.
  - destruct (marginal_value_returns (assess e) e) as [m Hm],
      (marginal_value_returns (assess e') e') as [m' Hm'].
    exists m, m'. split_and!; [done..|]. intros Hf Hf' Hc. revert Hm Hm'.
    unfold marginal_value_of. rewrite Hf, Hf'. cbn.
    destruct (assessP e), (assessP e'); cbn; repeat case_decide; try lia; intros [= <-] [= <-]; try done;
      exfalso; unfold saturated_counts, mature_counts in *; lia.
Qed.

(** * What the generator returns *)

Lemma strip_prefix_app p s : strip_prefix p (p +:+ s) = Some s.
Proof.
  induction p as [|a p IH]; [done|]. change (String a p +:+ s) with (String a (p +:+ s)).
  cbn [strip_prefix]. by rewrite decide_True.
Qed.

Section laws.
Context (ops : identity_ops) `{!IdentityLaws ops}.

Lemma byte_land_lor x n k : (0 <= n <= 8)%Z -> (0 <= k < 256)%Z ->
  (0 <= Z.lor (Z.land x (Z.ones n)) k < 256)%Z.
Proof.
  intros Hn8 Hk. assert (Hl : (0 <= Z.land x (Z.ones n) < 2 ^ 8)%Z).
  { rewrite Z.land_ones by lia. pose proof (Z.mod_pos_bound x (2 ^ n)).
    pose proof (Z.pow_le_mono_r 2 n 8). lia. }
  set (y := Z.land x (Z.ones n)) in *.
  split; [apply Z.lor_nonneg; lia|].
  destruct (decide (Z.lor y k = 0)%Z) as [->|Hn]; [lia|].
  change 256%Z with (2 ^ 8)%Z. apply Z.log2_lt_pow2.
  - pose proof (proj2 (Z.lor_nonneg y k)). lia.
  - rewrite Z.log2_lor by lia. apply Z.max_lub_lt.
    + destruct (decide (y = 0)%Z) as [->|]; [done|]. apply Z.log2_lt_pow2; lia.
    + destruct (decide (k = 0)%Z) as [->|]; [done|]. apply Z.log2_lt_pow2; lia.
Qed.

(** The id of a gap that serializes; it never fails to parse. *)
Definition id_of (v : list Z) : string :=
  "opportunity-" +:+ uuid_text (uuid_bytes (blake3_hash ops v)).

Lemma stable_opportunity_id_eq g : stable_opportunity_id ops g =
  (v ← to_vec ops (gap_kind g, gap_target g, gap_reasons g); Ok (id_of v)).
Proof.
  unfold stable_opportunity_id, identifier_from_str, id_of. destruct (to_vec ops _) as [v|e]; [|done].
  cbn [mbind result_bind]. rewrite strip_prefix_app. cbn [mbind option_bind].
  pose proof (blake3_bytes v) as Hb.
  rewrite parse_canonical; [by rewrite decide_True|done|].
  unfold uuid_bytes. rewrite !Forall_cons, Forall_nil.
  split_and!; first [apply Hb|done|apply (byte_land_lor _ 4); lia|apply (byte_land_lor _ 6); lia].
Qed.

Lemma opportunity_of_returns now_ g id :
  exists o, opportunity_of now_ g id = Ret o /\ opp_id o = id.
Proof.
  unfold opportunity_of. destruct (marginal_value_returns (assess (gap_evidence g)) (gap_evidence g)) as [m ->].
  by eexists.
Qed.

(** [o] is the opportunity of the first gap of [gs] that has its id. *)
Definition first_of (now_ : Z) (gs : list ExperienceGap) (o : ExperienceOpportunity) : Prop :=
  exists l1 g l2, gs = l1 ++ g :: l2 /\ stable_opportunity_id ops g = Ok (opp_id o) /\
    opportunity_of now_ g (opp_id o) = Ret o /\
    Forall (fun g' => stable_opportunity_id ops g' <> Ok (opp_id o)) l1.

(** The state of the loop after the gaps [pre]. *)
Record loop_ok (now_ : Z) (pre : list ExperienceGap) (out : list ExperienceOpportunity)
    (seen : gset string) : Prop := {
  gl_seen : forall id, id ∈ seen <-> id ∈ opp_id <$> out;
  gl_distinct : NoDup (opp_id <$> out);
  gl_covered : forall g, g ∈ pre -> exists o, o ∈ out /\ stable_opportunity_id ops g = Ok (opp_id o);
  gl_first : forall o, o ∈ out -> first_of now_ pre o;
}.

Lemma first_of_app now_ pre g o : first_of now_ pre o -> first_of now_ (pre ++ [g]) o.
Proof.
  intros (l1 & g' & l2 & -> & ? & ? & ?). exists l1, g', (l2 ++ [g]). by rewrite <- app_assoc.
Qed.

Lemma loop_skip now_ pre out seen g id : loop_ok now_ pre out seen ->
  stable_opportunity_id ops g = Ok id -> id ∈ seen -> loop_ok now_ (pre ++ [g]) out seen.
Proof.
  intros [Hs Hd Hc Hf] Hg Hin. split; [done|done| |].
  - intros g' [Hg'| ->%list_elem_of_singleton]%elem_of_app; [by apply Hc|].
    apply Hs, list_elem_of_fmap in Hin as (o & -> & Ho). by exists o.
  - intros o Ho. by apply first_of_app, Hf.
Qed.

Lemma loop_push now_ pre out seen g o : loop_ok now_ pre out seen ->
  stable_opportunity_id ops g = Ok (opp_id o) -> opp_id o ∉ seen ->
  opportunity_of now_ g (opp_id o) = Ret o ->
  loop_ok now_ (pre ++ [g]) (out ++ [o]) ({[opp_id o]} ∪ seen).
Proof.
  intros [Hs Hd Hc Hf] Hg Hin Ho. rewrite Hs in Hin. split.
  - intros id. rewrite fmap_app, elem_of_app, <- Hs. cbn. set_solver.
  - rewrite fmap_app. apply NoDup_app. split_and!; [done| |apply NoDup_singleton].
    intros id Hid ->%list_elem_of_singleton. done.
  - intros g' [Hg'| ->%list_elem_of_singleton]%elem_of_app.
    + destruct (Hc g' Hg') as (o' & ? & ?). exists o'. set_solver.
    + exists o. set_solver.
  - intros o' [Ho'| ->%list_elem_of_singleton]%elem_of_app; [by apply first_of_app, Hf|].
    exists pre, g, []. split_and!; [done..|]. apply Forall_forall. intros g' Hg' He.
    destruct (Hc g' Hg') as (o' & Ho' & He'). rewrite He in He'. injection He' as He'.
    apply Hin. rewrite He'. by apply list_elem_of_fmap_2.
Qed.

Lemma generate_loop_spec now_ gs pre out seen : loop_ok now_ pre out seen ->
  (exists out' seen', generate_loop ops now_ gs out seen = Ret (Ok out') /\
     loop_ok now_ (pre ++ gs) out' seen') \/
  (exists g e, g ∈ gs /\ generate_loop ops now_ gs out seen = Ret (Err e) /\
     to_vec ops (gap_kind g, gap_target g, gap_reasons g) = Err e).
Proof.
  revert pre out seen. induction gs as [|g gs IH]; intros pre out seen Hok; cbn [generate_loop].
  { left. exists out, seen. by rewrite app_nil_r. }
  pose proof (stable_opportunity_id_eq g) as Hid.
  destruct (to_vec ops _) as [v|e] eqn:Hv; cbn in Hid; rewrite Hid; [|right; exists g, e; set_solver].
  assert (Hnext : forall out seen, loop_ok now_ (pre ++ [g]) out seen ->
    (exists out' seen', generate_loop ops now_ gs out seen = Ret (Ok out') /\
       loop_ok now_ (pre ++ g :: gs) out' seen') \/
    (exists g' e, g' ∈ g :: gs /\ generate_loop ops now_ gs out seen = Ret (Err e) /\
       to_vec ops (gap_kind g', gap_target g', gap_reasons g') = Err e)).
  { intros out1 seen1 Hok1. destruct (IH _ _ _ Hok1) as [(o' & s' & ? & Hl)|(g' & e & ? & ? & ?)].
    - left. exists o', s'. by rewrite <- app_assoc in Hl.
    - right. exists g', e. set_solver. }
  case_decide as Hin; [by apply Hnext; eapply loop_skip|].
  destruct (opportunity_of_returns now_ g (id_of v)) as (o & Ho & Hio). rewrite Ho. cbn [mbind run_bind].
  rewrite <- Hio in *. apply Hnext. by apply loop_push.
Qed.

(** Sorting distinct keys gives strictly ascending keys. *)
Lemma sorted_distinct_strict (l : list ExperienceOpportunity) :
  NoDup (opp_id <$> l) -> StronglySorted (fun x y => ord_le (opp_id x) (opp_id y)) l ->
  StronglySorted (fun x y => ord_cmp (opp_id x) (opp_id y) = Lt) l.
Proof.
  intros Hnd Hs. induction Hs as [|x l _ IH Hx]; constructor; cbn in Hnd; apply NoDup_cons in Hnd as [Hn Hnd].
  - by apply IH.
  - rewrite Forall_forall in Hx |- *. intros y Hy.
    destruct (proj1 (ord_le_lt_eq _ _) (Hx y Hy)) as [|He]; [done|].
    destruct Hn. rewrite He. by apply list_elem_of_fmap_2.
Qed.

(** The generator is total and deterministic: it fails only when a gap
    cannot be serialized, and otherwise returns the opportunities in strictly
    ascending id order - so without duplicates - one for every id of a gap, each
    built from the first gap of the context with that id. *)
Theorem generate_correct c :
  match generate ops c with
  | Ret (Ok out) =>
      StronglySorted (fun x y => ord_cmp (opp_id x) (opp_id y) = Lt) out /\
      (forall g, g ∈ gaps c -> exists o, o ∈ out /\ stable_opportunity_id ops g = Ok (opp_id o)) /\
      (forall o, o ∈ out -> first_of (now c) (gaps c) o)
  | Ret (Err e) => exists g, g ∈ gaps c /\
      to_vec ops (gap_kind g, gap_target g, gap_reasons g) = Err e
  | Panicked | OutOfFuel => False
  end.
Proof.
  unfold generate.
  assert (H0 : loop_ok (now c) [] [] ∅) by (split; [set_solver|apply NoDup_nil_2|set_solver|set_solver]).
  destruct (generate_loop_spec (now c) (gaps c) [] [] ∅ H0)
    as [(out & seen & -> & [_ Hd Hc Hf])|(g & e & Hg & -> & He)]; cbn [mbind run_bind result_bind];
    [|by exists g].
  split_and!.
  - apply sorted_distinct_strict; [|apply (sort_by_key_sorted opp_id)].
    by rewrite (sort_by_key_perm opp_id).
  - intros g Hg. destruct (Hc g Hg) as (o & Ho & ?). exists o.
    by rewrite (elem_of_sort_by_key opp_id).
  - intros o. rewrite (elem_of_sort_by_key opp_id). apply Hf.
Qed.
End laws.

(** * What the compiler and the stop policy promise *)

(** What a plan is about. *)
Definition plan_target (p : ExecutableLearningPlan) : ExperienceOpportunityTarget.t :=
  match p with
  | Curriculum t _ | Experiment t _ => t
  | CausalInvestigation id => ExperienceOpportunityTarget.CausalHypothesis id
  | FederationReproduction o => ExperienceOpportunityTarget.FederatedObject o
  | CapabilityCurriculum tool => ExperienceOpportunityTarget.Tool tool
  end.

(** Every opportunity compiles, to a plan about exactly its target; the
    dedicated engines are used only for their own kind of target. *)
Theorem compile_keeps_target o : exists p,
  compile o = Ok p /\ plan_target p = opp_target o /\
  (forall id, p = CausalInvestigation id ->
     opp_kind o ∈ [ExperienceOpportunityKind.ChallengeCausalHypothesis;
                   ExperienceOpportunityKind.DiscriminateCausalHypotheses]) /\
  (forall tool, p = CapabilityCurriculum tool ->
     opp_kind o = ExperienceOpportunityKind.MinimizeCapability).
Proof.
  eexists. split; [reflexivity|].
  destruct (opp_kind o), (opp_target o); cbn; split_and!; (done || intros ? ?; set_solver).
Qed.

(** Stopping is final and explained: once the policy stops, more evidence
    never changes its verdict; it continues exactly while the trial is supported,
    the evidence is neither contradicted nor saturated, and the objective is not
    reported satisfied; and it never reports an exhausted budget. *)
Theorem stop_policy_final o evidence :
  (should_stop o evidence = StopDecision.Continue <->
     trial_safety (opp_risk o) <> TrialSafety.Unsupported /\
     opp_saturation o ∉ [EvidenceSaturation.Contradicted; EvidenceSaturation.Saturated] /\
     "objective_satisfied" ∉ evidence) /\
  (should_stop o evidence <> StopDecision.Continue ->
     forall more, should_stop o (evidence ++ more) = should_stop o evidence) /\
  should_stop o evidence <> StopDecision.StopBudget.
Proof.
  unfold should_stop.
  destruct (decide (trial_safety _ = _)) as [Hu|Hu]; [split; [split; [done|tauto]|done]|].
  destruct (decide (opp_saturation o = EvidenceSaturation.Contradicted)) as [Hc|Hc];
    [split; [split; [done|intros (_ & Hn & _); set_solver]|done]|].
  destruct (decide (opp_saturation o = EvidenceSaturation.Saturated)) as [Hs|Hs];
    [split; [split; [done|intros (_ & Hn & _); set_solver]|done]|].
  destruct (decide (_ ∈ evidence)) as [He|He]; split.
  - split; [done|tauto].
  - split; [|done]. intros _ more. rewrite decide_True; [done|]. set_solver.
  - split; [|done]. intros _. split_and!; [done|set_solver|done].
  - done.
Qed.

(** * Examples *)

Module GeneratorExamples.

(** A serializer that lists the kind's tag and a checksum-like hash. *)
Definition ops : identity_ops := {|
  to_vec := fun '(_, target, reasons) =>
    match target with
    | ExperienceOpportunityTarget.RuntimeGap s =>
        Ok [Z.of_nat (String.length s); Z.of_nat (length reasons)]
    | _ => Ok [0%Z]
    end;
  blake3_hash := fun v => (fun x => (x mod 256)%Z) <$> v;
  parse_uuid := Some;
|}.

#[export] Instance ops_laws : IdentityLaws ops.
Proof.
  split; [|done]. intros v i. unfold byte_at. cbn [blake3_hash ops].
  destruct (nth_in_or_default i ((fun x => (x mod 256)%Z) <$> v) 0%Z) as [Hin| ->]; [|lia].
  apply list_elem_of_In, list_elem_of_fmap in Hin as (x & -> & _). by apply Z.mod_pos_bound.
Qed.

Definition some_evidence : EvidenceSummary := mkSummary 3 2 1 1 1 0 true.
Definition more_evidence : EvidenceSummary := mkSummary 9 4 2 2 2 0 true.
Definition gap (s : string) (e : EvidenceSummary) : ExperienceGap :=
  mkGap ExperienceOpportunityKind.ResolveRuntimeUnknown (ExperienceOpportunityTarget.RuntimeGap s)
    [OpportunityReason.RuntimeUnknown] Severity.High ExposureBand.Frequent MitigationGap.Partial
    (mkLearning ValueBand.Medium [] 1 []) (mkRelevance 2 1 RuntimeUseBand.Low ValueBand.Low)
    ReusePotential.Reusable EvidenceNovelty.ContextExtension e default_cost default_opportunity_risk
    [].
Definition context : ExperiencePlanningContext :=
  mkPlanning [gap "deploy" some_evidence; gap "db" more_evidence; gap "deploy" more_evidence] ∅
    ExperiencePortfolioObjective.Balanced 1700000000.

Definition outcome : option (list (string * ExperienceOpportunityStatus.t)) :=
  match generate ops context with
  | Ret (Ok out) => Some (map (fun o => (opp_id o, opp_status o)) out)
  | _ => None
  end.
Example generated :
  outcome =
  Some [("opportunity-02010000-0000-4000-8000-000000000000", ExperienceOpportunityStatus.Saturated);
           ("opportunity-06010000-0000-4000-8000-000000000000", ExperienceOpportunityStatus.Eligible)].
Proof. vm_compute. reflexivity. Qed.

Lemma diminishing_witness :
  (maturity (assess some_evidence) <= maturity (assess more_evidence))%Z /\
  exists m m', marginal_value_of (assess some_evidence) some_evidence = Ret m /\
    marginal_value_of (assess more_evidence) more_evidence = Ret m' /\
    (fresh some_evidence = true -> fresh more_evidence = true ->
     contradictions more_evidence = 0%Z -> ord_le (marginal_band m') (marginal_band m)).
Proof.
  apply (evidence_diminishing some_evidence more_evidence); unfold summary_wf, evidence_le, is_u64, U64_MAX;
    repeat (apply Forall_cons_2; [cbn; lia|]); apply Forall_nil_2.
Defined.

Lemma generate_witness :
  match generate ops context with
  | Ret (Ok out) =>
      StronglySorted (fun x y => ord_cmp (opp_id x) (opp_id y) = Lt) out /\
      (forall g, g ∈ gaps context ->
         exists o, o ∈ out /\ stable_opportunity_id ops g = Ok (opp_id o)) /\
      (forall o, o ∈ out -> first_of ops (now context) (gaps context) o)
  | Ret (Err e) => exists g, g ∈ gaps context /\
      to_vec ops (gap_kind g, gap_target g, gap_reasons g) = Err e
  | Panicked | OutOfFuel => False
  end.
Proof. apply (generate_correct ops context). Defined.

End GeneratorExamples.
