(* ===== verification/Allocation.v ===== *)
(** The portfolio allocator: [DeterministicExperienceAllocationPolicy] of
    src/economics/engine.rs, [allocate] and [replan]. The JSON text of a target
    and the freshly drawn ids are parameters. *)
From S2P Require Import Prelude EconomicsModel Ledger Ranking Generator.

Definition ALLOCATION_POLICY_VERSION : string := "lexicographic-experience-allocation-v1".
Definition SATURATION_POLICY_VERSION : string := "contextual-saturation-v1".
Definition COST_ESTIMATOR_VERSION : string := "explicit-cost-estimator-v1".

(** The ids one allocation draws with [::new()]. *)
Record fresh_ids := mkFresh {
  fresh_ledger_id : string;
  fresh_portfolio_id : string;
  fresh_policy_id : string;
}.

(** * Dominated opportunities *)

Section dominated.
Context (obj : ExperiencePortfolioObjective.t) (opps : list ExperienceOpportunity).

Definition same_class (x y : ExperienceOpportunity) : bool :=
  bool_decide (priority_class x obj = priority_class y obj).

(** [find_map] over the other opportunities of the same class. *)
Fixpoint find_dominator (candidate : ExperienceOpportunity) (others : list ExperienceOpportunity) :
    option string :=
  match others with
  | [] => None
  | other :: others' =>
      if negb (bool_decide (opp_id other = opp_id candidate)) && same_class other candidate then
        match dominance candidate other with
        | DominatedBy id => Some id
        | NonDominated | Incomparable => find_dominator candidate others'
        end
      else find_dominator candidate others'
  end.

Definition dominated : gmap string string :=
  foldl (fun m c => match find_dominator c opps with
                    | Some id => <[opp_id c := id]> m
                    | None => m end) ∅ opps.
End dominated.

(** * The allocation loop *)

Record alloc_state := mkAlloc {
  as_ledger : ExperienceBudgetLedger;
  as_selected : list PortfolioSelection;
  as_deferred : list PortfolioDeferral;
  as_targets : gset string;
}.

Section allocate.
Context (target_to_string : ExperienceOpportunityTarget.t -> result string).
Context (budget : ExperienceBudget) (ctx : ExperiencePlanningContext).
Context (opps : list ExperienceOpportunity).

Definition evidence_saturated (o : ExperienceOpportunity) : bool :=
  bool_decide (opp_status o = ExperienceOpportunityStatus.Saturated) ||
  (bool_decide (opp_saturation o = EvidenceSaturation.Saturated) &&
   negb (has o OpportunityReason.EvidenceStale)).

Definition unsafe_to_experiment (o : ExperienceOpportunity) : bool :=
  bool_decide (trial_safety (opp_risk o) = TrialSafety.Unsupported) ||
  negb (bool_decide (ord_le (risk_effect (opp_risk o)) (allowed_effect_risk budget))).

Definition dependency_missing (o : ExperienceOpportunity) : bool :=
  existsb (fun id => negb (bool_decide (id ∈ completed_dependencies ctx))) (dependencies o).

Definition approval_unavailable (o : ExperienceOpportunity) : bool :=
  approval_required (opp_risk o) && bool_decide (max_human_approvals budget = Some 0%Z).

Definition low_value (o : ExperienceOpportunity) : bool :=
  bool_decide (ord_le (marginal_band (marginal_value o)) ValueBand.Low) &&
  bool_decide (ord_le (failure_severity (opp_risk_reduction o)) Severity.Low) &&
  match occurrence_exposure (opp_risk_reduction o) with
  | ExposureBand.Rare | ExposureBand.Unknown => true
  | _ => false
  end.

(** [usize::from(approval_required)]. *)
Definition approvals_of (o : ExperienceOpportunity) : Z :=
  if approval_required (opp_risk o) then 1 else 0.

(** A selected opportunity of class 0. *)
Definition class_zero_selected (sel : list PortfolioSelection) : bool :=
  existsb (fun item =>
    existsb (fun o => bool_decide (opp_id o = sel_opportunity item) &&
                      bool_decide (priority_class o (objective ctx) = 0%Z)) opps) sel.

(** [push] under a condition. *)
Definition push_if (b : bool) (r : DeferralReason) (l : list DeferralReason) : list DeferralReason :=
  if b then l ++ [r] else l.
Definition is_nil {A} (l : list A) : bool := match l with [] => true | _ => false end.

(** The reasons the loop body collects against an opportunity. *)
Definition deferral_reasons (s : alloc_state) (key : string) (o : ExperienceOpportunity) :
    list DeferralReason :=
  let r := match dominated (objective ctx) opps !! opp_id o with
           | Some d => [DominatedByOpportunity d] | None => [] end in
  let r := push_if (bool_decide (key ∈ as_targets s)) DuplicateOpportunity r in
  let r := push_if (evidence_saturated o) EvidenceSaturated r in
  let r := push_if (bool_decide (opp_status o = ExperienceOpportunityStatus.Invalidated))
             StaleOpportunity r in
  let r := push_if (unsafe_to_experiment o) UnsafeToExperiment r in
  let r := push_if (dependency_missing o) DependencyNotSatisfied r in
  let r := push_if (approval_unavailable o) HumanApprovalUnavailable r in
  let r := push_if (is_nil r && low_value o) LowerMarginalValue r in
  if is_nil r && negb (can_reserve (as_ledger s) (estimated_cost o) (approvals_of o)) then
    push_if (class_zero_selected (as_selected s)) HigherPriorityRiskExists (r ++ [BudgetInsufficient])
  else r.

Definition selection_reasons (o : ExperienceOpportunity) : list SelectionReason :=
  let class := priority_class o (objective ctx) in
  [PriorityClass ("class-" +:+ pretty class); HigherRiskReduction; HigherDecisionRelevance;
   HigherLearningValue; HigherReusePotential; FitsRemainingBudget] ++
  (if decide (class = 0%Z) then [CriticalBudgetReserved] else []).

Definition selection_of (o : ExperienceOpportunity) (priority : Z) : PortfolioSelection :=
  mkSelection (opp_id o) priority (portfolio_category (opp_kind o)) (selection_reasons o)
    (estimated_cost o).

(** The body of the loop over the ranked opportunities. *)
Definition alloc_step (s : alloc_state) (o : ExperienceOpportunity) : result alloc_state :=
  key ← target_to_string (opp_target o);
  let reasons := deferral_reasons s key o in
  let targets := {[key]} ∪ as_targets s in
  if negb (is_nil reasons) then
    Ok (mkAlloc (as_ledger s) (as_selected s) (as_deferred s ++ [mkDeferral (opp_id o) reasons])
          targets)
  else
    ledger ← reserve (as_ledger s) (estimated_cost o) (approvals_of o);
    Ok (mkAlloc ledger (as_selected s ++ [selection_of o (usize_len (as_selected s) + 1)%Z])
          (as_deferred s) targets).

Definition alloc_init (ids : fresh_ids) : alloc_state :=
  mkAlloc (ledger_new (fresh_ledger_id ids) budget) [] [] ∅.

Definition allocate (ids : fresh_ids) : result ExperiencePortfolio :=
  if decide (max_parallel_trials budget = Some 0%Z) then
    Err (InvalidInput "Experience budget must allow at least one parallel trial")
  else
    s ← result_foldl alloc_step (alloc_init ids) (rank (objective ctx) opps);
    Ok (mkPortfolio (fresh_portfolio_id ids) (opp_id <$> opps) (as_selected s) (as_deferred s)
          budget (as_ledger s)
          (mkPolicyRef (fresh_policy_id ids) ALLOCATION_POLICY_VERSION)
          (objective ctx)
          (mkVersions OPPORTUNITY_GENERATOR_VERSION ALLOCATION_POLICY_VERSION
             SATURATION_POLICY_VERSION COST_ESTIMATOR_VERSION)
          (now ctx) 1 None).
End allocate.

(** * Replanning *)

(** The budget the allocation of a revision runs on. *)
Definition remaining_budget (p : ExperiencePortfolio) : ExperienceBudget :=
  let b := portfolio_budget p in
  let r := remaining (portfolio_ledger p) in
  mkBudget (u_trials r) (u_agent_runs r) (Some (u_duration_ms r)) (max_commands_per_reality b)
    (Some (u_trials r)) (max_parallel_trials b) (Some (u_approvals r)) (allowed_effect_risk b).

Definition replan (target_to_string : ExperienceOpportunityTarget.t -> result string)
    (previous : ExperiencePortfolio) (opps : list ExperienceOpportunity)
    (ctx : ExperiencePlanningContext) (reason : PortfolioRevisionReason.t) (ids : fresh_ids) :
    result ExperiencePortfolio :=
  revised ← allocate target_to_string (remaining_budget previous) ctx opps ids;
  let l := portfolio_ledger revised in
  Ok (mkPortfolio (portfolio_id previous) (portfolio_opportunities revised) (selected revised)
        (deferred revised) (portfolio_budget previous)
        (mkLedger (ledger_id l) (portfolio_budget previous) (reserved l)
           (consumed (portfolio_ledger previous)) (remaining l))
        (portfolio_policy revised) (portfolio_objective revised) (policy_versions revised)
        (portfolio_created_at revised) (saturating_add (portfolio_revision previous) 1)
        (Some reason)).

(** * Dominated opportunities, as a relation *)

Section dominated_facts.
Context (obj : ExperiencePortfolioObjective.t).

(** [o] strictly dominates [c] from within its class. *)
Definition dominates_in_class (o c : ExperienceOpportunity) : Prop :=
  opp_id o <> opp_id c /\ priority_class o obj = priority_class c obj /\ dominates o c.

Lemma find_dominator_Some c others d : find_dominator obj c others = Some d ->
  exists o, o ∈ others /\ dominates_in_class o c /\ d = opp_id o.
Proof.
  induction others as [|o others IH]; cbn [find_dominator]; [done|].
  assert (Hrec : find_dominator obj c others = Some d ->
    exists o', o' ∈ o :: others /\ dominates_in_class o' c /\ d = opp_id o').
  { intros (o' & ? & ?)%IH. exists o'. split; [by apply list_elem_of_further|done]. }
  destruct (negb _ && _) eqn:Hg; [|done].
  apply andb_true_iff in Hg as [Hid Hc].
  apply negb_true_iff, bool_decide_eq_false in Hid. apply bool_decide_eq_true in Hc.
  destruct (dominance c o) as [|id|] eqn:Hd; [done| |done].
  intros [= <-]. apply dominance_dominated in Hd as [Hd ->].
  exists o. split; [apply list_elem_of_here|done].
Qed.

Lemma find_dominator_None c others o : find_dominator obj c others = None -> o ∈ others ->
  ~ dominates_in_class o c.
Proof.
  induction others as [|o' others IH]; cbn [find_dominator]; [set_solver|].
  intros Hn Ho (Hid & Hc & Hd). apply elem_of_cons in Ho as [->|Ho].
  - rewrite (bool_decide_eq_false_2 _ Hid) in Hn. unfold same_class in Hn.
    rewrite (bool_decide_eq_true_2 _ Hc) in Hn. cbn in Hn.
    apply (dominance_by c o') in Hd. by rewrite Hd in Hn.
  - apply IH; [|done|done]. by destruct (negb _ && _); [destruct (dominance c o')|].
Qed.

Definition collect_dominator (opps : list ExperienceOpportunity) (m : gmap string string)
    (c : ExperienceOpportunity) : gmap string string :=
  match find_dominator obj c opps with Some id => <[opp_id c := id]> m | None => m end.

Lemma collect_lookup opps id d cs m :
  foldl (collect_dominator opps) m cs !! id = Some d ->
  m !! id = Some d \/ exists c, c ∈ cs /\ opp_id c = id /\ find_dominator obj c opps = Some d.
Proof.
  revert m. induction cs as [|c cs IH]; intros m; cbn [foldl]; [by left|].
  intros [Hm|(c' & ? & ? & ?)]%IH; [|right; exists c'; split; [by apply list_elem_of_further|done]].
  unfold collect_dominator in Hm. destruct (find_dominator obj c opps) as [d'|] eqn:Hf; [|by left].
  apply lookup_insert_Some in Hm as [[? ?]|[_ ?]]; [|by left].
  right. exists c. subst. split; [apply list_elem_of_here|done].
Qed.

Lemma collect_some opps id cs m :
  is_Some (m !! id) \/
    (exists c, c ∈ cs /\ opp_id c = id /\ is_Some (find_dominator obj c opps)) ->
  is_Some (foldl (collect_dominator opps) m cs !! id).
Proof.
  revert m. induction cs as [|c cs IH]; intros m; cbn [foldl].
  { intros [?|(c & Hc & _)]; [done|]. by apply elem_of_nil in Hc. }
  intros Hor. apply IH. unfold collect_dominator.
  destruct (decide (opp_id c = id)) as [<-|Hne].
  - destruct (find_dominator obj c opps) as [d|] eqn:Hf; [left; by rewrite lookup_insert_eq|].
    destruct Hor as [?|(c' & [->|Hc]%elem_of_cons & He & Hs)]; [by left| |].
    + rewrite Hf in Hs. by destruct Hs.
    + right. by exists c'.
  - destruct Hor as [Hm|(c' & [->|Hc]%elem_of_cons & He & Hs)]; [left|done|right; by exists c'].
    destruct (find_dominator obj c opps); [|done]. by rewrite lookup_insert_ne.
Qed.

Lemma dominated_Some opps id d : dominated obj opps !! id = Some d ->
  exists c o, c ∈ opps /\ opp_id c = id /\ o ∈ opps /\ dominates_in_class o c /\ d = opp_id o.
Proof.
  intros [Hm|(c & Hc & He & (o & Ho & Hd & ->)%find_dominator_Some)]%(collect_lookup opps id d opps ∅);
    [by rewrite lookup_empty in Hm|by exists c, o].
Qed.

(** Whether an id is dominated does not depend on the order of the input. *)
Lemma dominated_is_Some opps id :
  is_Some (dominated obj opps !! id) <->
  exists c o, c ∈ opps /\ opp_id c = id /\ o ∈ opps /\ dominates_in_class o c.
Proof.
  split.
  - intros [d (c & o & ? & ? & ? & ? & _)%dominated_Some]. by exists c, o.
  - intros (c & o & Hc & He & Ho & Hd). apply (collect_some opps id opps ∅). right.
    exists c. split_and!; [done..|]. destruct (find_dominator obj c opps) eqn:Hf; [done|].
    by destruct (find_dominator_None c opps o Hf Ho).
Qed.
End dominated_facts.

(** * What an allocation does with each opportunity *)

Section allocation_facts.
Context (target_to_string : ExperienceOpportunityTarget.t -> result string).
Context (budget : ExperienceBudget) (ctx : ExperiencePlanningContext).
Context (opps : list ExperienceOpportunity).

(** What makes an opportunity eligible, apart from its target and the budget. *)
Record admissible (o : ExperienceOpportunity) : Prop := {
  ad_undominated : forall c other, c ∈ opps -> opp_id c = opp_id o -> other ∈ opps ->
    ~ dominates_in_class (objective ctx) other c;
  ad_status : opp_status o ∉ [ExperienceOpportunityStatus.Saturated; ExperienceOpportunityStatus.Invalidated];
  ad_evidence : opp_saturation o = EvidenceSaturation.Saturated ->
    OpportunityReason.EvidenceStale ∈ rationale o;
  ad_safety : trial_safety (opp_risk o) <> TrialSafety.Unsupported;
  ad_effects : ord_le (risk_effect (opp_risk o)) (allowed_effect_risk budget);
  ad_dependencies : forall id, id ∈ dependencies o -> id ∈ completed_dependencies ctx;
  ad_approval : approval_required (opp_risk o) = true -> max_human_approvals budget <> Some 0%Z;
  ad_worth : low_value o = false;
}.

Lemma is_nil_push_if b r l : is_nil (push_if b r l) = negb b && is_nil l.
Proof. destruct b, l; done. Qed.

(** The test of the loop body, as one conjunction. *)
Lemma is_nil_reasons s key o :
  is_nil (deferral_reasons budget ctx opps s key o) =
  negb (bool_decide (is_Some (dominated (objective ctx) opps !! opp_id o))) &&
  negb (bool_decide (key ∈ as_targets s)) && negb (evidence_saturated o) &&
  negb (bool_decide (opp_status o = ExperienceOpportunityStatus.Invalidated)) &&
  negb (unsafe_to_experiment budget o) && negb (dependency_missing ctx o) &&
  negb (approval_unavailable budget o) && negb (low_value o) &&
  can_reserve (as_ledger s) (estimated_cost o) (approvals_of o).
Proof.
  unfold deferral_reasons.
  destruct (dominated (objective ctx) opps !! opp_id o) as [d|]; cbn;
    destruct (bool_decide (key ∈ as_targets s)), (evidence_saturated o),
      (bool_decide (opp_status o = ExperienceOpportunityStatus.Invalidated)),
      (unsafe_to_experiment budget o), (dependency_missing ctx o), (approval_unavailable budget o);
    cbn; try done;
    destruct (low_value o), (can_reserve (as_ledger s) (estimated_cost o) (approvals_of o)); cbn; try done;
    by destruct (class_zero_selected _ _ _).
Qed.

Lemma existsb_negb_in (P : string -> bool) l :
  existsb (fun x => negb (P x)) l = false <-> forall x, x ∈ l -> P x = true.
Proof.
  rewrite existsb_false_iff. split; intros H x Hx; specialize (H x Hx).
  - by apply negb_false_iff.
  - by apply negb_false_iff.
Qed.

Lemma no_reasons_iff s key o :
  is_nil (deferral_reasons budget ctx opps s key o) = true <->
  admissible o /\ key ∉ as_targets s /\
  can_reserve (as_ledger s) (estimated_cost o) (approvals_of o) = true.
Proof.
  rewrite is_nil_reasons, !andb_true_iff, !negb_true_iff, !bool_decide_eq_false.
  unfold evidence_saturated, unsafe_to_experiment, dependency_missing, approval_unavailable, has.
  rewrite !orb_false_iff, !andb_false_iff, !negb_false_iff, !bool_decide_eq_false, !bool_decide_eq_true,
    existsb_negb_in, dominated_is_Some.
  split.
  - intros ((((((((Hd & Hk) & Hs & He) & Hi) & Hu & Hr) & Hdep) & Ha) & Hl) & Hc).
    split; [|done]. split; try done.
    + intros c other ? ? ? ?. apply Hd. by exists c, other.
    + set_solver.
    + intros Hsat. by destruct He.
    + intros id Hid. specialize (Hdep id Hid). by apply bool_decide_eq_true in Hdep.
    + intros Ht. destruct Ha as [Ha|Ha]; [congruence|done].
  - intros ([Hd Hst He Hu Hr Hdep Ha Hl] & Hk & Hc).
    split_and!; try done; try (intros E; apply Hst; rewrite E; set_solver).
    + intros (c & o' & ? & ? & ? & ?). by apply (Hd c o').
    + destruct (decide (opp_saturation o = EvidenceSaturation.Saturated)); [right; auto|by left].
    + intros id Hid. apply bool_decide_eq_true. auto.
    + destruct (approval_required (opp_risk o)); [right; auto|by left].
Qed.

(** One pass through the loop body. *)
Variant step_spec (s : alloc_state) (o : ExperienceOpportunity) : result alloc_state -> Prop :=
  | step_fails e : target_to_string (opp_target o) = Err e -> step_spec s o (Err e)
  | step_defers key reasons :
      target_to_string (opp_target o) = Ok key -> reasons <> [] ->
      reasons = deferral_reasons budget ctx opps s key o ->
      ~ (admissible o /\ key ∉ as_targets s /\
         can_reserve (as_ledger s) (estimated_cost o) (approvals_of o) = true) ->
      step_spec s o (Ok (mkAlloc (as_ledger s) (as_selected s)
        (as_deferred s ++ [mkDeferral (opp_id o) reasons]) ({[key]} ∪ as_targets s)))
  | step_selects key ledger :
      target_to_string (opp_target o) = Ok key -> admissible o -> key ∉ as_targets s ->
      reserve (as_ledger s) (estimated_cost o) (approvals_of o) = Ok ledger ->
      step_spec s o (Ok (mkAlloc ledger
        (as_selected s ++ [selection_of ctx o (usize_len (as_selected s) + 1)%Z])
        (as_deferred s) ({[key]} ∪ as_targets s))).

Lemma alloc_stepP s o : step_spec s o (alloc_step target_to_string budget ctx opps s o).
Proof.
  unfold alloc_step. destruct (target_to_string (opp_target o)) as [key|e] eqn:Hk;
    [|by apply step_fails]. cbn [mbind result_bind].
  pose proof (no_reasons_iff s key o) as Hiff.
  destruct (is_nil (deferral_reasons budget ctx opps s key o)) eqn:Hn; cbn [negb].
  - destruct (proj1 Hiff eq_refl) as (? & ? & Hc). unfold reserve. rewrite Hc. cbn.
    apply step_selects; [done..|]. unfold reserve. by rewrite Hc.
  - eapply step_defers; [done| |done|].
    + intros E. by rewrite E in Hn.
    + intros Ha. apply Hiff in Ha. done.
Qed.

(** ** The loop *)

(** The state after the ranked prefix [pre], [chosen] being the opportunities
    selected from it in order. *)
Record loop_inv (pre : list ExperienceOpportunity) (s : alloc_state)
    (chosen : list ExperienceOpportunity) : Prop := {
  li_sublist : chosen `sublist_of` pre;
  li_selected : as_selected s = imap (fun i o => selection_of ctx o (Z.of_nat i + 1)) chosen;
  li_partition : (opp_id <$> chosen) ++ (def_opportunity <$> as_deferred s) ≡ₚ opp_id <$> pre;
  li_explained : Forall (fun d => def_reasons d <> []) (as_deferred s);
  li_admissible : Forall admissible chosen;
  li_keys : exists keys, Forall2 (fun o k => target_to_string (opp_target o) = Ok k) chosen keys /\
    NoDup keys /\ forall k, k ∈ keys -> k ∈ as_targets s;
}.

Lemma loop_inv_defer pre s chosen o key reasons : loop_inv pre s chosen -> reasons <> [] ->
  loop_inv (pre ++ [o]) (mkAlloc (as_ledger s) (as_selected s)
    (as_deferred s ++ [mkDeferral (opp_id o) reasons]) ({[key]} ∪ as_targets s)) chosen.
Proof.
  intros [Hsub Hsel Hp He Ha (keys & Hk & Hnd & Hin)] Hr. split; cbn; try done.
  - by apply sublist_inserts_r.
  - rewrite !fmap_app, app_assoc, Hp. done.
  - apply Forall_app. split; [done|]. by apply Forall_singleton.
  - exists keys. set_solver.
Qed.

Lemma loop_inv_select pre s chosen o key ledger : loop_inv pre s chosen ->
  target_to_string (opp_target o) = Ok key -> admissible o -> key ∉ as_targets s ->
  loop_inv (pre ++ [o]) (mkAlloc ledger
    (as_selected s ++ [selection_of ctx o (usize_len (as_selected s) + 1)%Z])
    (as_deferred s) ({[key]} ∪ as_targets s)) (chosen ++ [o]).
Proof.
  intros [Hsub Hsel Hp He Ha (keys & Hk & Hnd & Hin)] Hkey Hadm Hfresh. split; cbn; try done.
  - by apply sublist_app.
  - rewrite imap_app, Hsel. cbn. unfold usize_len. rewrite length_imap, Nat.add_0_r. done.
  - rewrite !fmap_app, <- Hp. cbn. rewrite <- !app_assoc. apply Permutation_app_head.
    apply Permutation_app_comm.
  - apply Forall_app. split; [done|]. by apply Forall_singleton.
  - exists (keys ++ [key]). split_and!.
    + apply Forall2_app; [done|]. by constructor.
    + apply NoDup_app. split_and!; [done| |apply NoDup_singleton].
      intros k Hk' ->%list_elem_of_singleton. auto.
    + set_solver.
Qed.

Lemma loop_inv_init ids : loop_inv [] (alloc_init budget ids) [].
Proof.
  split; cbn; try done. exists []. split_and!; [done|apply NoDup_nil_2|]. intros k Hk. by apply elem_of_nil in Hk.
Qed.

Lemma alloc_loop ids s ranked :
  result_foldl (alloc_step target_to_string budget ctx opps) (alloc_init budget ids) ranked = Ok s ->
  exists chosen, loop_inv ranked s chosen.
Proof.
  apply (result_foldl_prefix (fun pre s => exists chosen, loop_inv pre s chosen)).
  - intros l1 o l2 s1 s2 _ [chosen Hi]. destruct (alloc_stepP s1 o); [done|intros [= <-]..].
    + exists chosen. by apply loop_inv_defer.
    + eexists. by apply loop_inv_select.
  - eexists. apply loop_inv_init.
Qed.

(** C13. Every allocation is sound: the selections are opportunities of the input
    in rank order, numbered from one; each one is undominated in its class, not
    saturated or invalidated, safe, allowed by its effect risk, with its
    dependencies completed, its approval obtainable and its value not low; no two
    share a target. Selected and deferred together are exactly the input, and
    every deferral gives a reason. Allocation fails only on a zero parallelism
    or a target without a JSON text. *)
Theorem allocate_sound ids :
  match allocate target_to_string budget ctx opps ids with
  | Ok p => exists chosen,
      chosen `sublist_of` rank (objective ctx) opps /\
      selected p = imap (fun i o => selection_of ctx o (Z.of_nat i + 1)) chosen /\
      Forall admissible chosen /\
      NoDup (target_to_string ∘ opp_target <$> chosen) /\
      (opp_id <$> chosen) ++ (def_opportunity <$> deferred p) ≡ₚ opp_id <$> opps /\
      Forall (fun d => def_reasons d <> []) (deferred p)
  | Err e =>
      (max_parallel_trials budget = Some 0%Z /\ exit_code e = 2%Z) \/
      exists o, o ∈ opps /\ target_to_string (opp_target o) = Err e
  end.
Proof.
  unfold allocate. case_decide as Hpar; [by left|].
  destruct (result_foldl _ _ _) as [s|e] eqn:Hf; cbn [mbind result_bind].
  - apply alloc_loop in Hf as (chosen & [Hsub Hsel Hp He Ha (keys & Hk & Hnd & _)]).
    exists chosen. split_and!; cbn; try done.
    + assert (E : target_to_string ∘ opp_target <$> chosen = Ok <$> keys).
      { clear -Hk. induction Hk as [|o k os ks Hok _ IH]; [done|]. rewrite !fmap_cons, IH.
        unfold compose. by rewrite Hok. }
      rewrite E. apply NoDup_fmap_2; [|done]. by intros ?? [=].
    + by rewrite Hp, rank_perm.
  - right. apply result_foldl_Err in Hf as (o & s & Ho & He). exists o.
    rewrite elem_of_rank in Ho. split; [done|].
    pose proof (alloc_stepP s o) as Hs. rewrite He in Hs. by inversion Hs.
Qed.

(** ** The ledger of an allocation *)

Definition costs_wf : Prop := Forall (fun o => cost_wf (estimated_cost o)) opps.
Definition reservations (chosen : list ExperienceOpportunity) : list BudgetUsage :=
  costs_usage ((fun o => (estimated_cost o, approvals_of o)) <$> chosen).

Lemma approvals_u64 o : is_u64 (approvals_of o).
Proof. unfold approvals_of. unfold is_u64, U64_MAX. destruct (approval_required _); lia. Qed.

Record ledger_inv (s : alloc_state) (chosen : list ExperienceOpportunity) : Prop := {
  ai_ok : ledger_ok (as_ledger s);
  ai_conserved : conserved (as_ledger s);
  ai_budget : ledger_budget (as_ledger s) = budget;
  ai_consumed : consumed (as_ledger s) = zero_usage;
  ai_reserved : reserved (as_ledger s) = usage_sum (reservations chosen);
  ai_risk : Forall (fun o => ord_le (cost_effect_risk (estimated_cost o)) (allowed_effect_risk budget)) chosen;
}.

Lemma ledger_inv_select s chosen o key ledger sel : cost_wf (estimated_cost o) ->
  ledger_inv s chosen -> reserve (as_ledger s) (estimated_cost o) (approvals_of o) = Ok ledger ->
  ledger_inv (mkAlloc ledger sel (as_deferred s) key) (chosen ++ [o]).
Proof.
  intros Hc [Hok Hcons Hb Hz Hr Hrisk] Hres. pose proof (approvals_u64 o) as Ha.
  destruct (reserve_moves _ _ _ _ Hok Hc Ha Hres) as (Hr' & _ & Hz' & Hb' & _).
  split; cbn; [by eapply reserve_ok|by eapply reserve_conserved|congruence|congruence| |].
  - rewrite Hr', Hr. unfold reservations, costs_usage. rewrite !fmap_app, usage_sum_app.
    f_equal. apply amount_eq. intros []; cbn; lia.
  - apply Forall_app. split; [done|]. apply Forall_singleton.
    apply reserve_Ok in Hres as [[_ Hle] _]. by rewrite Hb in Hle.
Qed.

Lemma alloc_loop_ledger ids s : budget_wf budget -> costs_wf ->
  result_foldl (alloc_step target_to_string budget ctx opps) (alloc_init budget ids)
    (rank (objective ctx) opps) = Ok s ->
  exists chosen, loop_inv (rank (objective ctx) opps) s chosen /\ ledger_inv s chosen.
Proof.
  intros Hb Hcosts. apply (result_foldl_prefix (fun pre s => exists chosen, loop_inv pre s chosen /\
    ledger_inv s chosen)).
  - intros l1 o l2 s1 s2 Hl (chosen & Hi & Hli). assert (Ho : cost_wf (estimated_cost o)).
    { apply (Forall_forall (fun o => cost_wf (estimated_cost o)) opps); [done|].
      apply (elem_of_rank (objective ctx)). rewrite Hl. set_solver. }
    destruct (alloc_stepP s1 o); [done|intros [= <-]..].
    + exists chosen. split; [by apply loop_inv_defer|]. by destruct Hli.
    + eexists. split; [by apply loop_inv_select|by apply ledger_inv_select].
  - exists []. split; [apply loop_inv_init|].
    split; cbn; [by apply ledger_new_ok|by apply ledger_new_conserved|done..|by apply Forall_nil_2].
Qed.

(** No allocation overspends: the ledger of the portfolio reserves exactly
    the sum of the selected estimates and approvals, in every limited dimension
    reserved and remaining add up to the limit - so the sum is within it -
    nothing is consumed, and no selection's effect risk exceeds the allowed one. *)
Theorem allocate_within_budget ids p : budget_wf budget -> costs_wf ->
  allocate target_to_string budget ctx opps ids = Ok p ->
  let l := portfolio_ledger p in
  ledger_ok l /\ consumed l = zero_usage /\
  (exists chosen, chosen `sublist_of` rank (objective ctx) opps /\
     reserved_cost <$> selected p = estimated_cost <$> chosen /\
     reserved l = usage_sum (reservations chosen)) /\
  (forall d n, limit d budget = Some n ->
     (amount d (reserved l) + amount d (remaining l) = n /\ 0 <= amount d (reserved l) <= n)%Z) /\
  Forall (fun s => ord_le (cost_effect_risk (reserved_cost s)) (allowed_effect_risk budget)) (selected p).
Proof.
  intros Hb Hc. unfold allocate. case_decide; [done|].
  destruct (result_foldl _ _ _) as [s|] eqn:Hf; cbn [mbind result_bind]; [|done]. intros [= <-]. cbn.
  apply alloc_loop_ledger in Hf as (chosen & Hi & [Hok Hcons Hbud Hz Hr Hrisk]); [|done..].
  assert (Hcost : reserved_cost <$> as_selected s = estimated_cost <$> chosen).
  { rewrite (li_selected _ _ _ Hi), fmap_imap. apply imap_const. }
  split_and!; [done|done|exists chosen; by split_and!; [apply (li_sublist _ _ _ Hi)|..]| |].
  - intros d n Hn. pose proof (ledger_ok_dim _ d Hok) as (? & ? & ? & Hl & _ & _).
    rewrite Hbud in Hl. specialize (Hl n Hn). specialize (Hcons d n). rewrite Hbud, Hz in Hcons.
    specialize (Hcons Hn). destruct d; cbn in *; usage_lia.
  - assert (Hall : Forall (fun c => ord_le (cost_effect_risk c) (allowed_effect_risk budget))
      (reserved_cost <$> as_selected s)) by (rewrite Hcost; by apply Forall_fmap).
    rewrite Forall_fmap in Hall. exact Hall.
Qed.

(** ** The allocation is greedy *)

(** No other opportunity shares the target of [o]. *)
Definition own_target (o : ExperienceOpportunity) : Prop :=
  forall o', o' ∈ opps -> target_to_string (opp_target o') = target_to_string (opp_target o) -> o' = o.

(** Every admissible opportunity of the prefix with a target of its own is
    chosen or does not fit. *)
Record greedy_inv (pre : list ExperienceOpportunity) (s : alloc_state)
    (chosen : list ExperienceOpportunity) : Prop := {
  gi_targets : forall k, k ∈ as_targets s -> exists o, o ∈ pre /\ target_to_string (opp_target o) = Ok k;
  gi_greedy : forall o, o ∈ pre -> admissible o -> own_target o ->
    o ∈ chosen \/ can_reserve (as_ledger s) (estimated_cost o) (approvals_of o) = false;
}.

Lemma greedy_targets pre s chosen o key : greedy_inv pre s chosen ->
  target_to_string (opp_target o) = Ok key ->
  forall k, k ∈ {[key]} ∪ as_targets s ->
    exists o', o' ∈ pre ++ [o] /\ target_to_string (opp_target o') = Ok k.
Proof.
  intros [Ht _] Hk k [->%elem_of_singleton|Hin]%elem_of_union.
  - exists o. split; [set_solver|done].
  - destruct (Ht k Hin) as (o' & ? & ?). exists o'. split; [set_solver|done].
Qed.

Lemma greedy_step pre o post s s' chosen : NoDup (opp_id <$> opps) ->
  rank (objective ctx) opps = pre ++ o :: post -> costs_wf ->
  loop_inv pre s chosen -> ledger_inv s chosen -> greedy_inv pre s chosen ->
  alloc_step target_to_string budget ctx opps s o = Ok s' ->
  exists chosen', loop_inv (pre ++ [o]) s' chosen' /\ ledger_inv s' chosen' /\
    greedy_inv (pre ++ [o]) s' chosen'.
Proof.
  intros Hnd Hl Hcosts Hi Hli Hg Hstep.
  assert (Hin : forall x, x ∈ pre ++ o :: post -> x ∈ opps).
  { intros x. rewrite <- Hl. apply elem_of_rank. }
  assert (Ho : cost_wf (estimated_cost o)).
  { apply (Forall_forall (fun o => cost_wf (estimated_cost o)) opps); [done|]. apply Hin. set_solver. }
  assert (Hfresh : o ∉ pre).
  { assert (Hn : NoDup (pre ++ o :: post)).
    { rewrite <- Hl, rank_perm. by eapply NoDup_fmap_1. }
    apply NoDup_app in Hn as (_ & Hd & _). intros Hx. apply (Hd o Hx). set_solver. }
  revert Hstep. destruct (alloc_stepP s o) as [|key reasons Hk Hne _ Hno|key ledger Hk Hadm Hkey Hres];
    [done|intros [= <-]..].
  - exists chosen. split_and!; [by apply loop_inv_defer|by destruct Hli|].
    split; cbn; [by eapply greedy_targets|].
    intros x [Hx| ->%list_elem_of_singleton]%elem_of_app Hax Hown; [by eapply gi_greedy|].
    right. apply not_true_iff_false. intros Hc. apply Hno. split_and!; [done| |done].
    intros Hkt. destruct (gi_targets _ _ _ Hg key Hkt) as (o' & Ho' & Hk').
    apply Hfresh. rewrite <- (Hown o'); [done| |congruence]. apply Hin. set_solver.
  - exists (chosen ++ [o]). split_and!; [by apply loop_inv_select|by apply ledger_inv_select|].
    split; cbn; [by eapply greedy_targets|].
    intros x [Hx| ->%list_elem_of_singleton]%elem_of_app Hax Hown; [|set_solver].
    destruct (gi_greedy _ _ _ Hg x Hx Hax Hown) as [?|Hc]; [set_solver|right].
    apply not_true_iff_false. intros Hc'. apply not_true_iff_false in Hc. apply Hc.
    eapply can_reserve_anti; [|by destruct Hli|exact Hres|exact Hc'].
    apply from_cost_wf; [done|apply approvals_u64].
Qed.

(** The allocation is greedy by priority: the selections are ordered by
    priority class, and an opportunity that is admissible and alone on its
    target is left out only when it does not fit what the portfolio leaves of
    the budget. *)
Theorem allocate_greedy ids p : budget_wf budget -> costs_wf -> NoDup (opp_id <$> opps) ->
  allocate target_to_string budget ctx opps ids = Ok p ->
  exists chosen,
    sel_opportunity <$> selected p = opp_id <$> chosen /\
    StronglySorted (fun x y => priority_class x (objective ctx) <= priority_class y (objective ctx))%Z
      chosen /\
    forall o, o ∈ opps -> admissible o -> own_target o ->
      o ∈ chosen \/
      can_reserve (portfolio_ledger p) (estimated_cost o) (approvals_of o) = false.
Proof.
  intros Hb Hc Hnd. unfold allocate. case_decide; [done|].
  destruct (result_foldl _ _ _) as [s|] eqn:Hf; cbn [mbind result_bind]; [|done]. intros [= <-]. cbn.
  apply (result_foldl_prefix (fun pre s => exists chosen, loop_inv pre s chosen /\
    ledger_inv s chosen /\ greedy_inv pre s chosen)) in Hf as (chosen & Hi & _ & Hg).
  - exists chosen. split_and!.
    + rewrite (li_selected _ _ _ Hi), fmap_imap. apply imap_const.
    + eapply StronglySorted_sublist; [apply (li_sublist _ _ _ Hi)|apply rank_class_sorted].
    + intros o Ho. apply (gi_greedy _ _ _ Hg). by apply elem_of_rank.
  - intros l1 o l2 s1 s2 Hl (chosen & ? & ? & ?) Hs. by eapply greedy_step.
  - exists []. split_and!; [apply loop_inv_init| |split; cbn; set_solver].
    split; cbn; [by apply ledger_new_ok|by apply ledger_new_conserved|done..|by apply Forall_nil_2].
Qed.
End allocation_facts.

(** * The order of the input does not matter *)

(** A reason without the name of the dominator. *)
Definition blur (r : DeferralReason) : DeferralReason :=
  match r with DominatedByOpportunity _ => DominatedByOpportunity "" | _ => r end.
Definition blur_deferral (d : PortfolioDeferral) : PortfolioDeferral :=
  mkDeferral (def_opportunity d) (blur <$> def_reasons d).

Section order.
Context (target_to_string : ExperienceOpportunityTarget.t -> result string).
Context (budget : ExperienceBudget) (ctx : ExperiencePlanningContext).
Context (opps opps' : list ExperienceOpportunity) (Hperm : opps ≡ₚ opps').

Lemma existsb_perm {A} (f : A -> bool) l l' : l ≡ₚ l' -> existsb f l = existsb f l'.
Proof.
  induction 1 as [|x l l' _ IH|x y l|]; cbn; [done|by rewrite IH| |congruence].
  by rewrite !orb_assoc, (orb_comm (f y)).
Qed.

Lemma class_zero_perm sel : class_zero_selected ctx opps sel = class_zero_selected ctx opps' sel.
Proof.
  unfold class_zero_selected. induction sel as [|i sel IH]; cbn; [done|].
  rewrite IH. f_equal. by apply existsb_perm.
Qed.

Lemma dominated_perm id :
  is_Some (dominated (objective ctx) opps !! id) <-> is_Some (dominated (objective ctx) opps' !! id).
Proof. rewrite !dominated_is_Some. by setoid_rewrite Hperm. Qed.

(** Two loop states that differ at most in the dominators they name. *)
Definition alike (s s' : alloc_state) : Prop :=
  as_ledger s = as_ledger s' /\ as_selected s = as_selected s' /\ as_targets s = as_targets s' /\
  blur_deferral <$> as_deferred s = blur_deferral <$> as_deferred s'.

Lemma deferral_reasons_alike s s' key o : alike s s' ->
  blur <$> deferral_reasons budget ctx opps s key o = blur <$> deferral_reasons budget ctx opps' s' key o.
Proof.
  intros (Hl & Hs & Ht & _). pose proof (dominated_perm (opp_id o)) as Hd.
  unfold deferral_reasons. rewrite <- Hl, <- Hs, <- Ht, <- class_zero_perm.
  destruct (dominated (objective ctx) opps !! opp_id o) as [d|],
    (dominated (objective ctx) opps' !! opp_id o) as [d'|]; [|by destruct (proj1 Hd ltac:(done))|
      by destruct (proj2 Hd ltac:(done))|done].
  destruct (bool_decide (key ∈ as_targets s)), (evidence_saturated o),
    (bool_decide (opp_status o = ExperienceOpportunityStatus.Invalidated)),
    (unsafe_to_experiment budget o), (dependency_missing ctx o), (approval_unavailable budget o);
    reflexivity.
Qed.

Lemma is_nil_fmap {A B} (f : A -> B) l : is_nil (f <$> l) = is_nil l.
Proof. by destruct l. Qed.

Lemma alloc_step_alike s s' o : alike s s' ->
  match alloc_step target_to_string budget ctx opps s o,
        alloc_step target_to_string budget ctx opps' s' o with
  | Ok t, Ok t' => alike t t'
  | Err e, Err e' => e = e'
  | _, _ => False
  end.
Proof.
  intros Ha. unfold alloc_step. destruct (target_to_string _) as [key|]; cbn [mbind result_bind]; [|done].
  pose proof (deferral_reasons_alike s s' key o Ha) as Hr.
  assert (Hnil : is_nil (deferral_reasons budget ctx opps s key o) =
    is_nil (deferral_reasons budget ctx opps' s' key o)).
  { rewrite <- (is_nil_fmap blur), Hr. apply is_nil_fmap. }
  rewrite <- Hnil. destruct Ha as (Hl & Hs & Ht & Hd). rewrite <- Hl, <- Hs, <- Ht.
  destruct (is_nil _); cbn [negb].
  - destruct (reserve _ _ _) as [l|]; cbn; done.
  - repeat split; cbn; try done. rewrite !fmap_app, Hd. cbn. unfold blur_deferral at 2 4; cbn.
    by rewrite Hr.
Qed.

Lemma alloc_loop_alike ranked s s' : alike s s' ->
  match result_foldl (alloc_step target_to_string budget ctx opps) s ranked,
        result_foldl (alloc_step target_to_string budget ctx opps') s' ranked with
  | Ok t, Ok t' => alike t t'
  | Err e, Err e' => e = e'
  | _, _ => False
  end.
Proof.
  revert s s'. induction ranked as [|o ranked IH]; intros s s' Ha; cbn [result_foldl]; [done|].
  pose proof (alloc_step_alike s s' o Ha) as Hs.
  destruct (alloc_step _ _ _ opps s o) as [t|e], (alloc_step _ _ _ opps' s' o) as [t'|e'];
    cbn [mbind result_bind]; try done. by apply IH.
Qed.

(** Allocation does not depend on the order of its input: for distinct ids,
    two permutations fail alike or select the same opportunities with the same
    priorities, categories and reasons, reserve the same ledger, and defer the
    same opportunities for the same reasons up to which dominator is named. *)
Theorem allocate_order_independent ids : NoDup (opp_id <$> opps) ->
  match allocate target_to_string budget ctx opps ids,
        allocate target_to_string budget ctx opps' ids with
  | Ok p, Ok p' =>
      selected p = selected p' /\ portfolio_ledger p = portfolio_ledger p' /\
      blur_deferral <$> deferred p = blur_deferral <$> deferred p'
  | Err e, Err e' => e = e'
  | _, _ => False
  end.
Proof.
  intros Hnd. unfold allocate. rewrite (rank_unique (objective ctx) opps opps' Hnd Hperm).
  case_decide; [done|].
  pose proof (alloc_loop_alike (rank (objective ctx) opps') (alloc_init budget ids) (alloc_init budget ids)) as Hl.
  destruct (result_foldl _ _ _) as [t|e], (result_foldl (alloc_step _ _ _ opps') _ _) as [t'|e'];
    cbn [mbind result_bind] in *; destruct Hl; try done; naive_solver.
Qed.
End order.

(** * Replanning conserves the budget *)

(** The budget of a revision limits every dimension to what remained. *)
Lemma remaining_budget_limit p d :
  limit d (remaining_budget p) = Some (amount d (remaining (portfolio_ledger p))).
Proof. by destruct d. Qed.

Lemma remaining_budget_wf p : usage_wf (remaining (portfolio_ledger p)) ->
  budget_wf (remaining_budget p).
Proof. intros (? & ? & ? & ?). split_and!; cbn; try done; by intros n [= <-]. Qed.

(** A portfolio whose ledger is the one of its budget and balances. *)
Record portfolio_ok (p : ExperiencePortfolio) : Prop := {
  po_budget : ledger_budget (portfolio_ledger p) = portfolio_budget p;
  po_ledger : ledger_ok (portfolio_ledger p);
  po_conserved : conserved (portfolio_ledger p);
}.

(** Putting an allocation made on what remained back under the whole budget. *)
Lemma rebase_ok (l0 l : ExperienceBudgetLedger) : ledger_ok l0 -> conserved l0 ->
  reserved l0 = zero_usage -> ledger_ok l -> consumed l = zero_usage ->
  (forall d, amount d (reserved l) + amount d (remaining l) = amount d (remaining l0))%Z ->
  let l' := mkLedger (ledger_id l) (ledger_budget l0) (reserved l) (consumed l0) (remaining l) in
  ledger_ok l' /\ conserved l'.
Proof.
  intros Hl0 Hc0 Hz Hl Hzl Hsum l'. split.
  - assert (Hd : forall d, dim_ok (limit d (ledger_budget l0)) (amount d (reserved l))
      (amount d (consumed l0)) (amount d (remaining l))).
    { intros d. pose proof (ledger_ok_dim l0 d Hl0) as (? & ? & ? & ? & ? & ?).
      pose proof (ledger_ok_dim l d Hl) as (? & ? & ? & _ & _ & ?). specialize (Hsum d).
      split_and!; try done. unfold is_u64 in *. lia. }
    apply ledger_ok_dims. split; [apply (lo_budget _ Hl0)|].
    split_and!; [apply (Hd Trials)|apply (Hd AgentRuns)|apply (Hd DurationMs)|apply (Hd Approvals)].
  - intros d n Hn. cbn in Hn |- *. rewrite (Hsum d), <- (Hc0 d n Hn), Hz. destruct d; cbn; lia.
Qed.

Section replan_facts.
Context (target_to_string : ExperienceOpportunityTarget.t -> result string).

Lemma replan_Ok previous opps ctx reason ids p :
  replan target_to_string previous opps ctx reason ids = Ok p ->
  exists q, allocate target_to_string (remaining_budget previous) ctx opps ids = Ok q /\
    p = mkPortfolio (portfolio_id previous) (portfolio_opportunities q) (selected q)
        (deferred q) (portfolio_budget previous)
        (mkLedger (ledger_id (portfolio_ledger q)) (portfolio_budget previous)
           (reserved (portfolio_ledger q)) (consumed (portfolio_ledger previous))
           (remaining (portfolio_ledger q)))
        (portfolio_policy q) (portfolio_objective q) (policy_versions q)
        (portfolio_created_at q) (saturating_add (portfolio_revision previous) 1) (Some reason).
Proof.
  unfold replan. destruct (allocate _ _ _ _ _) as [q|]; cbn; [|done]. intros [= <-]. by exists q.
Qed.

(** A revision of a settled portfolio keeps its books: the identity and the
    budget are those of the previous revision and the number is the next one;
    what was consumed stays consumed; what is reserved now is the sum of the new
    selections, and in every limited dimension reserved, remaining and consumed
    still balance against the original budget. *)
Theorem replan_conserves previous opps ctx reason ids p :
  portfolio_ok previous -> reserved (portfolio_ledger previous) = zero_usage ->
  costs_wf opps -> is_u64 (portfolio_revision previous) ->
  replan target_to_string previous opps ctx reason ids = Ok p ->
  portfolio_ok p /\
  portfolio_id p = portfolio_id previous /\ portfolio_budget p = portfolio_budget previous /\
  portfolio_revision p = Z.min (portfolio_revision previous + 1) U64_MAX /\
  revision_reason p = Some reason /\
  consumed (portfolio_ledger p) = consumed (portfolio_ledger previous) /\
  (exists chosen, chosen `sublist_of` rank (objective ctx) opps /\
     sel_opportunity <$> selected p = opp_id <$> chosen /\
     reserved (portfolio_ledger p) = usage_sum (reservations chosen)) /\
  (forall d, amount d (reserved (portfolio_ledger p)) + amount d (remaining (portfolio_ledger p)) =
     amount d (remaining (portfolio_ledger previous)))%Z.
Proof.
  intros [Hb Hok Hcons] Hz Hc Hrev (q & Hq & ->)%replan_Ok.
  pose proof (remaining_budget_wf previous (lo_remaining _ Hok)) as Hwf.
  assert (Hloop : exists s chosen, portfolio_ledger q = as_ledger s /\ selected q = as_selected s /\
    loop_inv target_to_string (remaining_budget previous) ctx opps (rank (objective ctx) opps) s chosen /\
    ledger_inv (remaining_budget previous) s chosen).
  { revert Hq. unfold allocate. case_decide; [done|].
    destruct (result_foldl _ _ _) as [s|] eqn:Hf; cbn [mbind result_bind]; [|done]. intros [= <-].
    apply alloc_loop_ledger in Hf as (chosen & ? & ?); [by exists s, chosen|done..]. }
  destruct Hloop as (s & chosen & Hl & Hs & Hi & [Hok' Hcons' Hbud Hzero Hr _]).
  assert (Hsum : forall d, (amount d (reserved (as_ledger s)) + amount d (remaining (as_ledger s)) =
    amount d (remaining (portfolio_ledger previous)))%Z).
  { intros d. pose proof (remaining_budget_limit previous d) as Hn.
    specialize (Hcons' d _ ltac:(by rewrite Hbud)). rewrite Hcons', Hzero.
    pose proof (amount_wf d _ (lo_remaining _ Hok)). destruct d; cbn in *; usage_lia. }
  destruct (rebase_ok (portfolio_ledger previous) (as_ledger s)) as [Hok2 Hcons2]; [done..|].
  rewrite Hb in Hok2, Hcons2. cbn. rewrite Hl, Hs.
  split; [by split|]. split_and!; [done..| |done].
  exists chosen. split_and!; [apply (li_sublist _ _ _ _ _ _ _ Hi)| |done].
  rewrite (li_selected _ _ _ _ _ _ _ Hi), fmap_imap. apply imap_const.
Qed.
End replan_facts.

(** * Examples *)

Module AllocationExamples.

Definition text (t : ExperienceOpportunityTarget.t) : result string :=
  match t with
  | ExperienceOpportunityTarget.Skill id => Ok ("skill:" +:+ id)
  | ExperienceOpportunityTarget.RuntimeGap s => Ok ("runtime_gap:" +:+ s)
  | _ => Err (Json "unsupported target")
  end.

(** An opportunity from what the examples vary. *)
Definition opportunity (id : string) (target : ExperienceOpportunityTarget.t) (sev : Severity.t)
    (mit : MitigationGap.t) (trials : Z) (deps : list string) : ExperienceOpportunity :=
  mkOpportunity id ExperienceOpportunityKind.HardenSkill target [OpportunityReason.RepeatedFailure]
    (mkValue ValueBand.High ValueBand.Medium ValueBand.Medium ValueBand.Medium ValueBand.High
       ValueBand.Low)
    (mkCost trials 0 (Some 1000000000%Z) ComputeCostBand.Low AttentionCostBand.None_
       ResourceCostBand.None_ EffectRisk.Low)
    (mkRisk TrialSafety.Safe EffectRisk.Low (isolation_required default_opportunity_risk) false)
    deps ExperienceOpportunityStatus.Eligible 0
    (mkRiskReduction sev ExposureBand.Frequent mit [])
    (mkLearning ValueBand.Medium [] 1 []) (mkRelevance 1 1 RuntimeUseBand.Low ValueBand.Medium)
    ReusePotential.Reusable EvidenceNovelty.Replication EvidenceSaturation.Developing
    (mkMarginal ValueBand.Medium MarginalValueReason.Replication) OPPORTUNITY_GENERATOR_VERSION.

Definition skill := ExperienceOpportunityTarget.Skill.
Definition critical : ExperienceOpportunity :=
  opportunity "opportunity-c" (skill "deploy") Severity.Critical MitigationGap.Unmitigated 3 [].
Definition small : ExperienceOpportunity :=
  opportunity "opportunity-b" (skill "lint") Severity.Low MitigationGap.Partial 1 [].
Definition large : ExperienceOpportunity :=
  opportunity "opportunity-a" (ExperienceOpportunityTarget.RuntimeGap "db") Severity.Low
    MitigationGap.Partial 2 [].
Definition ctx : ExperiencePlanningContext :=
  mkPlanning [] ∅ ExperiencePortfolioObjective.Balanced 1700000000.
Definition ids : fresh_ids := mkFresh "budget-ledger-1" "portfolio-1" "policy-1".
Definition budget : ExperienceBudget := LedgerExamples.budget.
Definition input : list ExperienceOpportunity := [large; small; critical].

(** The ids of an outcome, selected and deferred. *)
Definition summary (r : result ExperiencePortfolio) :
    option (list (string * Z) * list (string * list DeferralReason)) :=
  match r with
  | Ok p => Some (map (fun s => (sel_opportunity s, sel_priority s)) (selected p),
                  map (fun d => (def_opportunity d, def_reasons d)) (deferred p))
  | Err _ => None
  end.

(** The three-trial critical investigation goes first and the dominated one is
    left out, whatever its cost. *)
Example critical_first : summary (allocate text budget ctx input ids) =
  Some ([("opportunity-c", 1); ("opportunity-b", 2)]%Z,
        [("opportunity-a", [DominatedByOpportunity "opportunity-b"])]).
Proof. vm_compute. reflexivity. Qed.

(** A target is taken even by an opportunity that is itself deferred: [blocked]
    waits for a dependency, and the eligible [ready] on the same target, which
    fits the budget, is deferred as its duplicate. Nothing is selected. *)
Definition blocked : ExperienceOpportunity :=
  opportunity "opportunity-x" (skill "deploy") Severity.Critical MitigationGap.Unmitigated 1
    ["opportunity-z"].
Definition ready : ExperienceOpportunity :=
  opportunity "opportunity-y" (skill "deploy") Severity.High MitigationGap.Partial 1 [].
Example duplicate_of_a_deferral : summary (allocate text budget ctx [blocked; ready] ids) =
  Some ([], [("opportunity-x", [DependencyNotSatisfied]);
             ("opportunity-y", [DuplicateOpportunity])]).
Proof. vm_compute. reflexivity. Qed.

Lemma input_costs : costs_wf input.
Proof.
  repeat apply Forall_cons_2; try apply Forall_nil_2; unfold cost_wf, is_u64, U64_MAX; cbn;
    (split_and!; [lia..|]); intros d [= <-]; lia.
Qed.
Lemma input_distinct : NoDup (opp_id <$> input).
Proof. apply (bool_decide_unpack _). by vm_compute. Qed.

(** The portfolio allocated for [input], and the one left when both selections
    are settled. *)
Definition default_portfolio : ExperiencePortfolio :=
  mkPortfolio "" [] [] [] budget (ledger_new "" budget) (mkPolicyRef "" "")
    ExperiencePortfolioObjective.Balanced (mkVersions "" "" "" "") 0 1 None.
Definition allocated : ExperiencePortfolio :=
  match allocate text budget ctx input ids with Ok p => p | Err _ => default_portfolio end.
Definition settled_ledger : ExperienceBudgetLedger :=
  settle (portfolio_ledger allocated) (estimated_cost critical, 0%Z) LedgerExamples.overrun
    [(estimated_cost small, 0%Z)].
Definition settled : ExperiencePortfolio :=
  mkPortfolio (portfolio_id allocated) (portfolio_opportunities allocated) (selected allocated)
    (deferred allocated) budget settled_ledger (portfolio_policy allocated)
    (portfolio_objective allocated) (policy_versions allocated) 0 1 None.
Definition revised : ExperiencePortfolio :=
  match replan text settled [large; small] ctx PortfolioRevisionReason.OpportunityCompleted ids with
  | Ok p => p | Err _ => default_portfolio end.

Lemma allocated_eq : allocate text budget ctx input ids = Ok allocated.
Proof. vm_compute. reflexivity. Qed.

Lemma within_budget_witness : let l := portfolio_ledger allocated in
  ledger_ok l /\ consumed l = zero_usage /\
  (exists chosen, chosen `sublist_of` rank (objective ctx) input /\
     reserved_cost <$> selected allocated = estimated_cost <$> chosen /\
     reserved l = usage_sum (reservations chosen)) /\
  (forall d n, limit d budget = Some n ->
     (amount d (reserved l) + amount d (remaining l) = n /\ 0 <= amount d (reserved l) <= n)%Z) /\
  Forall (fun s => ord_le (cost_effect_risk (reserved_cost s)) (allowed_effect_risk budget))
    (selected allocated).
Proof.
  apply (allocate_within_budget text budget ctx input ids allocated);
    [apply LedgerExamples.budget_is_wf|apply input_costs|apply allocated_eq].
Defined.

Lemma greedy_witness : exists chosen,
  sel_opportunity <$> selected allocated = opp_id <$> chosen /\
  StronglySorted (fun x y => priority_class x (objective ctx) <= priority_class y (objective ctx))%Z
    chosen /\
  forall o, o ∈ input -> admissible budget ctx input o -> own_target text input o ->
    o ∈ chosen \/
    can_reserve (portfolio_ledger allocated) (estimated_cost o) (approvals_of o) = false.
Proof.
  apply (allocate_greedy text budget ctx input ids allocated);
    [apply LedgerExamples.budget_is_wf|apply input_costs|apply input_distinct|apply allocated_eq].
Defined.

Lemma order_witness :
  match allocate text budget ctx input ids,
        allocate text budget ctx [critical; small; large] ids with
  | Ok p, Ok p' =>
      selected p = selected p' /\ portfolio_ledger p = portfolio_ledger p' /\
      blur_deferral <$> deferred p = blur_deferral <$> deferred p'
  | Err e, Err e' => e = e'
  | _, _ => False
  end.
Proof.
  apply (allocate_order_independent text budget ctx input [critical; small; large]);
    [|apply input_distinct].
  unfold input. rewrite (Permutation_swap small large), (Permutation_swap critical large).
  apply Permutation_sym. rewrite (Permutation_swap small critical). apply perm_skip, Permutation_refl.
Defined.

Lemma settled_ledger_eq : settled_ledger =
  mkLedger "budget-ledger-1" budget zero_usage (mkUsage 3 2 90000 0) (mkUsage 1 0 0 1).
Proof. vm_compute. reflexivity. Qed.
Lemma settled_ok : portfolio_ok settled.
Proof.
  split; cbn [settled portfolio_ledger portfolio_budget]; rewrite settled_ledger_eq; [done| |].
  - split; [apply LedgerExamples.budget_is_wf|..]; unfold usage_wf, usage_le, is_u64, U64_MAX; cbn;
      unfold saturating_sub; lia.
  - intros [] n [= <-]; done.
Qed.
Lemma revised_eq :
  replan text settled [large; small] ctx PortfolioRevisionReason.OpportunityCompleted ids = Ok revised.
Proof. vm_compute. reflexivity. Qed.
(** One trial is left after the overrun but no time: nothing fits. *)
Example revised_summary : summary (Ok revised) =
  Some ([], [("opportunity-b", [BudgetInsufficient]);
             ("opportunity-a", [DominatedByOpportunity "opportunity-b"])]).
Proof. vm_compute. reflexivity. Qed.

Lemma replan_witness :
  portfolio_ok revised /\ portfolio_id revised = portfolio_id settled /\
  portfolio_budget revised = portfolio_budget settled /\
  portfolio_revision revised = Z.min (portfolio_revision settled + 1) U64_MAX /\
  revision_reason revised = Some PortfolioRevisionReason.OpportunityCompleted /\
  consumed (portfolio_ledger revised) = consumed (portfolio_ledger settled) /\
  (exists chosen, chosen `sublist_of` rank (objective ctx) [large; small] /\
     sel_opportunity <$> selected revised = opp_id <$> chosen /\
     reserved (portfolio_ledger revised) = usage_sum (reservations chosen)) /\
  (forall d, amount d (reserved (portfolio_ledger revised)) +
     amount d (remaining (portfolio_ledger revised)) =
     amount d (remaining (portfolio_ledger settled)))%Z.
Proof.
  apply (replan_conserves text settled [large; small] ctx
    PortfolioRevisionReason.OpportunityCompleted ids revised);
    [apply settled_ok| | |by apply LedgerExamples.small_u64|apply revised_eq].
  - cbn [settled portfolio_ledger]. by rewrite settled_ledger_eq.
  - repeat apply Forall_cons_2; try apply Forall_nil_2; unfold cost_wf, is_u64, U64_MAX; cbn;
      (split_and!; [lia..|]); intros d [= <-]; lia.
Defined.
End AllocationExamples.
