(* ===== verification/StateError.v ===== *)
(** The monad of the operations that read and change a persistent state: an
    operation may fail, and what it did to the state before failing stays. *)
From S2P Require Import Prelude.

Section monad.
Context {S : Type}.

Definition eff (A : Type) : Type := S -> result A * S.
#[global] Instance eff_ret : MRet eff := fun A a w => (Ok a, w).
#[global] Instance eff_bind : MBind eff := fun A B f m w =>
  match m w with (Ok a, w') => f a w' | (Err e, w') => (Err e, w') end.

Definition fail {A} (e : Error) : eff A := fun w => (Err e, w).
Definition lift {A} (r : result A) : eff A := fun w => (r, w).
Definition ask {A} (f : S -> A) : eff A := fun w => (Ok (f w), w).
(** A read that may fail. *)
Definition fetch {A} (f : S -> result A) : eff A := fun w => (f w, w).
Definition modify (f : S -> S) : eff unit := fun w => (Ok tt, f w).
(** [match m { Err(error) => h(error), ok => ok }]. *)
Definition attempt {A} (m : eff A) : eff (result A) := fun w =>
  match m w with (r, w') => (Ok r, w') end.

(** [for x in l]. *)
Fixpoint eff_iter {A} (f : A -> eff unit) (l : list A) : eff unit :=
  match l with
  | [] => mret tt
  | x :: l' => f x ≫= fun _ => eff_iter f l'
  end.
(** [iter().map(..).collect::<Result<Vec<_>>>()]. *)
Fixpoint eff_map {A B} (f : A -> eff B) (l : list A) : eff (list B) :=
  match l with
  | [] => mret []
  | x :: l' => y ← f x; ys ← eff_map f l'; mret (y :: ys)
  end.

(** * A computation that returned *)

Lemma bind_Ok {A B} (m : eff A) (f : A -> eff B) w b w' :
  (m ≫= f) w = (Ok b, w') -> exists a w1, m w = (Ok a, w1) /\ f a w1 = (Ok b, w').
Proof. unfold mbind, eff_bind. destruct (m w) as [[a|e] w1]; [eauto|done]. Qed.

Lemma fetch_Ok {A} (f : S -> result A) w a w' : fetch f w = (Ok a, w') -> f w = Ok a /\ w' = w.
Proof. unfold fetch. intros [= -> ->]. done. Qed.
End monad.
Arguments eff S A : clear implicits.
