(* ===== verification/EffectModel.v ===== *)
(** Data of the effect subsystem: src/effects/model.rs. A JSON value
    ([serde_json::Value]) is an abstract type [Value]; an instant is a number of
    nanoseconds; an id is its text. *)
From S2P Require Import Prelude EconomicsModel.

(** * Enums *)

Module EffectKind.
Inductive t := Filesystem | Process | Database | HttpApi | CloudResource | Message | Deployment | Custom.
#[global] Instance eq_dec : EqDecision t.
Proof. solve_decision. Defined.
End EffectKind.

Module EffectLifecycle.
Inductive t := Proposed | Classified | Virtualized | Prepared | Rejected | Committed | Discarded |
  Failed | Compensated | Unknown.
#[global] Instance eq_dec : EqDecision t.
Proof. solve_decision. Defined.

(** [EffectLifecycle::allows]. *)
Definition allows (x next : t) : bool :=
  match x, next with
  | Proposed, (Classified | Rejected | Failed | Discarded)
  | Classified, (Virtualized | Prepared | Rejected | Failed | Discarded)
  | Virtualized, (Prepared | Failed | Discarded)
  | Prepared, (Committed | Failed | Discarded | Unknown)
  | Unknown, (Committed | Failed)
  | Committed, Compensated
  | Failed, Discarded => true
  | _, _ => false
  end.

(** The [Debug] names. *)
Definition debug (x : t) : string :=
  match x with
  | Proposed => "Proposed" | Classified => "Classified" | Virtualized => "Virtualized"
  | Prepared => "Prepared" | Rejected => "Rejected" | Committed => "Committed"
  | Discarded => "Discarded" | Failed => "Failed" | Compensated => "Compensated"
  | Unknown => "Unknown"
  end.
End EffectLifecycle.

Module ReversibilityClass.
Inductive t := NaturallyReversible | Compensatable | Shadowable | Deferrable | Irreversible | Unknown.
#[global] Instance eq_dec : EqDecision t.
Proof. solve_decision. Defined.
End ReversibilityClass.

Module IdempotencyClass.
Inductive t := Idempotent | IdempotentWithKey | NonIdempotent | Unknown.
#[global] Instance eq_dec : EqDecision t.
Proof. solve_decision. Defined.
End IdempotencyClass.

Module IsolationRequirement.
Inductive t := RealityLocal | Staged | Shadow | ProviderTransaction | Unsupported.
#[global] Instance eq_dec : EqDecision t.
Proof. solve_decision. Defined.
End IsolationRequirement.

Module ExternalityClass.
Inductive t := RealityLocal | HostLocal | ExternalSystem | HumanVisible | Financial | Unknown.
#[global] Instance eq_dec : EqDecision t.
Proof. solve_decision. Defined.
End ExternalityClass.

Module CommitStrategy.
Inductive t := Direct | DeferredDispatch | ShadowPromote | ReserveCommit | Compensating | Unsupported.
#[global] Instance eq_dec : EqDecision t.
Proof. solve_decision. Defined.
End CommitStrategy.

Module EffectFault.
Inductive t := None_ | PrepareFailure | CommitFailureBeforeMutation | ResponseLossAfterMutation |
  ResponseLossWithReconciliationFailure | ReservationExpiry | DiscardFailure | CompensationFailure |
  ReconciliationFailure.
#[global] Instance eq_dec : EqDecision t.
Proof. solve_decision. Defined.
End EffectFault.

Module EffectEventType.
Inductive t := Proposed | Classified | Virtualized | Prepared | CommitAuthorized | CommitRejected |
  Committed | Discarded | CommitFailed | CompensationStarted | Compensated | CompensationFailed |
  Unknown | Reconciled | CleanupFailed.
#[global] Instance eq_dec : EqDecision t.
Proof. solve_decision. Defined.
End EffectEventType.

Module CompensationStatus.
Inductive t := Successful | Partial | Failed | Unsupported.
#[global] Instance eq_dec : EqDecision t.
Proof. solve_decision. Defined.
End CompensationStatus.

Module EffectDecision.
Inductive t := AllowDirect | RequirePrepare | RequireApproval | RequireShadow | Reject.
#[global] Instance eq_dec : EqDecision t.
Proof. solve_decision. Defined.
End EffectDecision.

Module CommitAuthority.
Inductive t := User | Policy | Ci | ExternalApprovalSystem.
#[global] Instance eq_dec : EqDecision t.
Proof. solve_decision. Defined.
End CommitAuthority.

Module CommitGateDecision.
Inductive t := Allow | RequireApproval | Reprepare | Reject.
#[global] Instance eq_dec : EqDecision t.
Proof. solve_decision. Defined.
End CommitGateDecision.

Module EffectAtomicity.
Inductive t := SingleEffect | BestEffortGroup | CompensatingGroup | AtomicProviderTransaction.
#[global] Instance eq_dec : EqDecision t.
Proof. solve_decision. Defined.
End EffectAtomicity.

Module CommitGroupOutcome.
Inductive t := FullyCommitted | NotCommitted | PartiallyCommitted | Unknown | FullyCompensated |
  PartiallyCompensated.
#[global] Instance eq_dec : EqDecision t.
Proof. solve_decision. Defined.
End CommitGroupOutcome.

(** src/capability/model.rs *)
Module EffectCapabilityStage.
Inductive t := Propose | Prepare | Commit.
#[global] Instance eq_dec : EqDecision t.
Proof. solve_decision. Defined.
End EffectCapabilityStage.

(** * Records without JSON *)

Record EffectClassification := mkClassification {
  reversibility : ReversibilityClass.t;
  idempotency : IdempotencyClass.t;
  isolation_requirement : IsolationRequirement.t;
  externality : ExternalityClass.t;
  class_risk : EffectRisk.t;
  commit_strategy : CommitStrategy.t;
}.

Record ActionRef := mkAction { action_id : string; action_kind : string }.
Record EffectTarget := mkTarget { uri : string }.

Inductive EffectOperation :=
  | Read | Create | Update | Delete | Post | Dispatch | Promote | Custom (name : string).

Record EffectAdapterCapabilities := mkAdapterCaps {
  cap_simulation : bool;
  cap_prepare : bool;
  cap_commit : bool;
  cap_discard : bool;
  cap_compensate : bool;
  cap_reconciliation : bool;
  idempotency_keys : bool;
  shadow_resources : bool;
}.

Record EffectCapabilityGrant := mkGrant {
  may_observe : bool;
  may_propose : bool;
  may_prepare : bool;
  may_commit : bool;
  may_compensate : bool;
}.

Record EffectContext := mkContext {
  actor_name : string;
  is_agent_actor : bool;
  capabilities : EffectCapabilityGrant;
}.

Record EffectLedger := mkEffectLedger {
  el_id : string;
  el_reality : option string;
  el_created_at : Z;
}.

Record CommitAuthorization := mkAuthorization {
  auth_id : string;
  authority : CommitAuthority.t;
  auth_effect_ids : list string;
  granted_at : Z;
  auth_expires_at : option Z;
  auth_scope_hash : string;
}.

(** [sequence] and the kind of event; the metadata, JSON no operation reads
    back, is left out. *)
Record EffectEvent := mkEvent {
  ev_id : string;
  ev_effect : string;
  ev_sequence : Z;
  ev_type : EffectEventType.t;
  ev_timestamp : Z;
  ev_evidence : list string;
}.

Record EffectDependency := mkDependency { dep_before : string; dep_after : string }.

Record EffectPlan := mkPlan {
  plan_id : string;
  plan_effects : list string;
  plan_dependencies : list EffectDependency;
  atomicity : EffectAtomicity.t;
  plan_created_at : Z;
}.

(** * Records with JSON *)

Section json.
Context {Value : Type}.

Record EffectRequest := mkEffectRequest {
  req_session_id : string;
  req_reality_id : option string;
  req_action : ActionRef;
  req_kind : EffectKind.t;
  req_target : EffectTarget;
  req_operation : EffectOperation;
  req_payload : Value;
  req_adapter : option string;
  req_evidence : list string;
  req_fault : EffectFault.t;
}.

Record Effect := mkEffect {
  eff_id : string;
  eff_ledger : string;
  session_id : string;
  reality_id : option string;
  source_action : ActionRef;
  eff_kind : EffectKind.t;
  eff_target : EffectTarget;
  operation : EffectOperation;
  payload : Value;
  classification : option EffectClassification;
  lifecycle : EffectLifecycle.t;
  eff_adapter : string;
  idempotency_key : string;
  eff_evidence : list string;
  fault : EffectFault.t;
  eff_created_at : Z;
}.

(** [effect.lifecycle = next] and [effect.classification = Some(c)]. *)
Definition set_lifecycle (next : EffectLifecycle.t) (e : Effect) : Effect :=
  mkEffect (eff_id e) (eff_ledger e) (session_id e) (reality_id e) (source_action e) (eff_kind e)
    (eff_target e) (operation e) (payload e) (classification e) next (eff_adapter e)
    (idempotency_key e) (eff_evidence e) (fault e) (eff_created_at e).
Definition set_classification (c : EffectClassification) (e : Effect) : Effect :=
  mkEffect (eff_id e) (eff_ledger e) (session_id e) (reality_id e) (source_action e) (eff_kind e)
    (eff_target e) (operation e) (payload e) (Some c) (lifecycle e) (eff_adapter e)
    (idempotency_key e) (eff_evidence e) (fault e) (eff_created_at e).
(** Leaving the Reality for a ledger of its own. *)
Definition set_detached (ledger : string) (e : Effect) : Effect :=
  mkEffect (eff_id e) ledger (session_id e) None (source_action e) (eff_kind e)
    (eff_target e) (operation e) (payload e) (classification e) (lifecycle e) (eff_adapter e)
    (idempotency_key e) (eff_evidence e) (fault e) (eff_created_at e).

Record EffectPreview := mkPreview {
  preview_summary : string;
  preview_current : Value;
  preview_prepared : Value;
}.

Record ExternalStateSnapshot := mkSnapshot {
  snap_id : string;
  snap_effect : string;
  snap_adapter : string;
  snap_target : EffectTarget;
  snap_version : option string;
  fingerprint : string;
  snap_state : Value;
  captured_at : Z;
}.

Record PreparedEffect := mkPrepared {
  prep_id : string;
  prep_effect : string;
  prep_adapter : string;
  preparation_token : string;
  prep_expires_at : option Z;
  preview : EffectPreview;
  before : ExternalStateSnapshot;
  prep_scope_hash : string;
  prep_evidence : list string;
}.

Record CommitReceipt := mkReceipt {
  receipt_id : string;
  receipt_effect : string;
  receipt_adapter : string;
  committed_at : Z;
  external_reference : option string;
  receipt_key : option string;
  result_hash : option string;
  receipt_metadata : Value;
}.

Record CompensationReceipt := mkCompensation {
  comp_id : string;
  original_receipt : string;
  compensated_at : Z;
  comp_status : CompensationStatus.t;
  comp_metadata : Value;
}.

Inductive AdapterCommitOutcome :=
  | AdapterCommitted (receipt : CommitReceipt)
  | AdapterNotCommitted (reason : string)
  | AdapterUnknown (reason : string).

Inductive ReconciliationResult :=
  | ReconciledCommitted (receipt : CommitReceipt)
  | ReconciledNotCommitted
  | StillUnknown (reason : string).

Inductive CommitOutcome :=
  | CommittedOutcome (receipt : CommitReceipt)
  | RejectedOutcome (reason : string) (reprepare : bool)
  | UnknownOutcome (reason : string).

Record EffectGroupResult := mkGroup {
  group_id : string;
  group_plan : string;
  commit_outcome : CommitGroupOutcome.t;
  outcome : CommitGroupOutcome.t;
  committed : list CommitReceipt;
  failed_effect : option string;
  compensation : list CompensationReceipt;
  manual_intervention_required : bool;
  group_created_at : Z;
}.

Record ReconciliationAttempt := mkAttempt {
  attempt_id : string;
  attempt_effect : string;
  attempted_at : Z;
  attempt_result : ReconciliationResult;
}.

(** [PreparedEffect::expired]. *)
Definition expired (p : PreparedEffect) (now : Z) : bool :=
  match prep_expires_at p with Some expiry => bool_decide (expiry <= now)%Z | None => false end.
End json.
Arguments EffectRequest Value : clear implicits.
Arguments Effect Value : clear implicits.
Arguments EffectPreview Value : clear implicits.
Arguments ExternalStateSnapshot Value : clear implicits.
Arguments PreparedEffect Value : clear implicits.
Arguments CommitReceipt Value : clear implicits.
Arguments CompensationReceipt Value : clear implicits.
Arguments AdapterCommitOutcome Value : clear implicits.
Arguments ReconciliationResult Value : clear implicits.
Arguments CommitOutcome Value : clear implicits.
Arguments EffectGroupResult Value : clear implicits.
Arguments ReconciliationAttempt Value : clear implicits.

(** * Text *)

(** [str::trim] leaves nothing: every character of the UTF-8 text has the
    Unicode White_Space property. *)
Fixpoint blank (s : string) : bool :=
  match s with
  | EmptyString => true
  | String a rest =>
      let n := Ascii.nat_of_ascii a in
      if (9 <=? n) && (n <=? 13) || (n =? 32) then blank rest
      else match rest with
      | String b rest' =>
          let m := Ascii.nat_of_ascii b in
          if n =? 194 then if (m =? 133) || (m =? 160) then blank rest' else false
          else match rest' with
          | String c rest'' =>
              let k := Ascii.nat_of_ascii c in
              if ((n =? 225) && (m =? 154) && (k =? 128)) ||
                 ((n =? 226) && (m =? 128) && ((128 <=? k) && (k <=? 138) || (k =? 168) || (k =? 169) || (k =? 175))) ||
                 ((n =? 226) && (m =? 129) && (k =? 159)) ||
                 ((n =? 227) && (m =? 128) && (k =? 128)) then blank rest'' else false
          | EmptyString => false
          end
      | EmptyString => false
      end
  end.

(** [contains(['\0', '\n', '\r'])]. *)
Fixpoint has_control (s : string) : bool :=
  match s with
  | EmptyString => false
  | String a rest =>
      let n := Ascii.nat_of_ascii a in (n =? 0) || (n =? 10) || (n =? 13) || has_control rest
  end.

(** The text before the first occurrence of [://]. *)
Fixpoint scheme_of (s : string) : option string :=
  match s with
  | EmptyString => None
  | String a rest =>
      if String.prefix "://" s then Some EmptyString else String a <$> scheme_of rest
  end.
Definition scheme (t : EffectTarget) : option string := scheme_of (uri t).

(** * Requests, scopes and authorizations *)

(** What the subsystem asks of its libraries: the length of a serialized JSON
    value, and the hexadecimal [blake3] of the serialized scope of an effect and
    of a sorted list of scopes. *)
Class EffectLibs (Value : Type) := {
  json_len : Value -> result Z;
  hash_scope : string * string * EffectKind.t * EffectTarget * EffectOperation * Value * string ->
               result string;
  hash_scopes : list (string * string) -> result string;
}.

Section scope.
Context {Value : Type} `{!EffectLibs Value}.

(** [EffectRequest::validate]. *)
Definition request_validate (r : EffectRequest Value) : result unit :=
  if blank (req_session_id r) || bool_decide (256 < String.length (req_session_id r)) ||
     blank (action_id (req_action r)) || bool_decide (256 < String.length (action_id (req_action r)))
  then Err (InvalidInput "Effect session/action identifiers must be nonempty and bounded")
  else if bool_decide (2048 < String.length (uri (req_target r))) ||
          has_control (uri (req_target r)) || negb (bool_decide (is_Some (scheme (req_target r))))
  then Err (InvalidInput "Effect target must be a bounded single-line scheme URI")
  else
    n ← json_len (req_payload r);
    if bool_decide (262144 < n)%Z || bool_decide (128 < length (req_evidence r))
    then Err (InvalidInput "Effect payload or evidence exceeded its bound")
    else Ok tt.

(** [Effect::from_request], with the fresh id and the instant. *)
Definition from_request (r : EffectRequest Value) (ledger adapter id : string) (now : Z) :
    Effect Value :=
  mkEffect id ledger (req_session_id r) (req_reality_id r) (req_action r) (req_kind r) (req_target r)
    (req_operation r) (req_payload r) None EffectLifecycle.Proposed adapter ("hk-effect:" +:+ id)
    (req_evidence r) (req_fault r) now.

(** [Effect::scope_hash]. *)
Definition scope_hash (e : Effect Value) : result string :=
  hash_scope (eff_id e, eff_adapter e, eff_kind e, eff_target e, operation e, payload e,
              idempotency_key e).

(** [collect::<Result<Vec<_>>>]. *)
Fixpoint result_map {A B} (f : A -> result B) (l : list A) : result (list B) :=
  match l with
  | [] => Ok []
  | x :: l' => y ← f x; ys ← result_map f l'; Ok (y :: ys)
  end.

(** The sorted scopes an authorization hashes. *)
Definition authorization_scopes (effects : list (Effect Value)) : result (list (string * string)) :=
  scopes ← result_map (fun e => h ← scope_hash e; Ok (eff_id e, h)) effects;
  Ok (sort_by_key id scopes).

(** [CommitAuthorization::for_effects]. *)
Definition for_effects (a : CommitAuthority.t) (effects : list (Effect Value)) (id : string)
    (granted expiry_base : Z) : result CommitAuthorization :=
  scopes ← authorization_scopes effects;
  h ← hash_scopes scopes;
  Ok (mkAuthorization id a (eff_id <$> effects) granted (Some (expiry_base + 900000000000)%Z) h).

(** [CommitAuthorization::validate]. *)
Definition authorization_validate (a : CommitAuthorization) (effects : list (Effect Value)) (now : Z) :
    result unit :=
  if match auth_expires_at a with Some expiry => bool_decide (expiry <= now)%Z | None => false end
  then Err (Intervention "Commit authorization expired")
  else
    expected ← for_effects (authority a) effects "" now now;
    if negb (bool_decide ((list_to_set (auth_effect_ids a) : gset string) =
                          list_to_set (eff_id <$> effects))) ||
       negb (bool_decide (auth_scope_hash a = auth_scope_hash expected))
    then Err (Intervention "Commit authorization is not bound to the current effect scope")
    else Ok tt.
End scope.
