(* ===== verification/EffectAdapter.v ===== *)
(** Adapters and the decisions around them: src/effects/adapter.rs. An adapter is
    a record of operations on an external state [X]; the registry, the effect
    policy and the commit gate are the source's. *)
From S2P Require Import Prelude EconomicsModel EffectModel.

Section adapter.
Context {Value X : Type} `{!EffectLibs Value}.
#[local] Abbreviation Effect := (Effect Value).
#[local] Abbreviation EffectRequest := (EffectRequest Value).
#[local] Abbreviation PreparedEffect := (PreparedEffect Value).
#[local] Abbreviation ExternalStateSnapshot := (ExternalStateSnapshot Value).
#[local] Abbreviation CommitReceipt := (CommitReceipt Value).

(** [trait EffectAdapter]. *)
Record EffectAdapter := mkAdapter {
  ad_name : string;
  ad_schemes : list string;
  ad_capabilities : EffectAdapterCapabilities;
  ad_classify : EffectRequest -> result EffectClassification;
  ad_observe : Effect -> X -> result ExternalStateSnapshot * X;
  ad_prepare : Effect -> X -> result PreparedEffect * X;
  ad_commit : Effect -> PreparedEffect -> X -> result (AdapterCommitOutcome Value) * X;
  ad_discard : Effect -> PreparedEffect -> X -> result unit * X;
  ad_compensate : Effect -> CommitReceipt -> X -> result (CompensationReceipt Value) * X;
  ad_reconcile : Effect -> X -> result (ReconciliationResult Value) * X;
}.

(** * The registry *)

Record EffectAdapterRegistry := mkRegistry {
  adapters : gmap string EffectAdapter;
  schemes : gmap string string;
}.
Definition registry_new : EffectAdapterRegistry := mkRegistry ∅ ∅.

(** The loop of [register] over the schemes: the map is updated before the test. *)
Fixpoint register_schemes (name : string) (l : list string) (m : gmap string string) :
    result unit * gmap string string :=
  match l with
  | [] => (Ok tt, m)
  | s :: l' =>
      match m !! s with
      | Some _ => (Err (InvalidInput ("Effect target scheme " +:+ s +:+ " has multiple adapters")),
                   <[s := name]> m)
      | None => register_schemes name l' (<[s := name]> m)
      end
  end.

Definition register (r : EffectAdapterRegistry) (a : EffectAdapter) :
    result unit * EffectAdapterRegistry :=
  let name := ad_name a in
  match adapters r !! name with
  | Some _ => (Err (InvalidInput ("Effect adapter " +:+ name +:+ " is already registered")), r)
  | None =>
      match register_schemes name (ad_schemes a) (schemes r) with
      | (Err e, m) => (Err e, mkRegistry (adapters r) m)
      | (Ok _, m) => (Ok tt, mkRegistry (<[name := a]> (adapters r)) m)
      end
  end.

Definition registry_get (r : EffectAdapterRegistry) (name : string) : result EffectAdapter :=
  ok_or (adapters r !! name) (NotFound ("Effect adapter " +:+ name +:+ " not found")).

Definition select_request (r : EffectAdapterRegistry) (q : EffectRequest) : result EffectAdapter :=
  let name := match req_adapter q with
              | Some n => Some n
              | None => scheme (req_target q) ≫= fun s => schemes r !! s end in
  n ← ok_or name (InvalidInput "No adapter supports this effect target");
  registry_get r n.

Definition select_effect (r : EffectAdapterRegistry) (e : Effect) : result EffectAdapter :=
  registry_get r (eff_adapter e).

(** * The policy and the gate *)

(** [DefaultEffectPolicy::evaluate]. *)
Definition policy_evaluate (e : Effect) (c : EffectContext) : EffectDecision.t :=
  match classification e with
  | None => EffectDecision.Reject
  | Some k =>
      if negb (may_propose (capabilities c)) then EffectDecision.Reject
      else if match externality k with
              | ExternalityClass.Financial | ExternalityClass.Unknown => true | _ => false end ||
              bool_decide (commit_strategy k = CommitStrategy.Unsupported)
      then EffectDecision.Reject
      else if bool_decide (isolation_requirement k = IsolationRequirement.Shadow)
      then EffectDecision.RequireShadow
      else if bool_decide (externality k = ExternalityClass.HumanVisible) ||
              bool_decide (ord_le EffectRisk.Medium (class_risk k)) ||
              negb (may_commit (capabilities c)) || is_agent_actor c
      then EffectDecision.RequireApproval
      else if bool_decide (class_risk k = EffectRisk.ReadOnly) then EffectDecision.AllowDirect
      else EffectDecision.RequirePrepare
  end.

(** [DeterministicCommitGate::evaluate]; a scope that cannot be hashed counts as
    the empty text. *)
Definition gate_evaluate (e : Effect) (p : PreparedEffect) (current : ExternalStateSnapshot)
    (now : Z) : CommitGateDecision.t :=
  let hash := match scope_hash e with Ok h => h | Err _ => EmptyString end in
  if expired p now || negb (bool_decide (prep_scope_hash p = hash)) ||
     negb (bool_decide (fingerprint current = fingerprint (before p))) ||
     negb (bool_decide (snap_version current = snap_version (before p)))
  then CommitGateDecision.Reprepare
  else if match classification e with
          | Some k => bool_decide (externality k = ExternalityClass.Financial) ||
                      bool_decide (commit_strategy k = CommitStrategy.Unsupported)
          | None => false end
  then CommitGateDecision.Reject
  else CommitGateDecision.Allow.

(** The gate opens exactly on an unexpired preparation of the current scope whose
    observed state is still the prepared one, for a supported classification. *)
Lemma gate_allow_iff e p current now :
  gate_evaluate e p current now = CommitGateDecision.Allow <->
  expired p now = false /\
  prep_scope_hash p = match scope_hash e with Ok h => h | Err _ => EmptyString end /\
  fingerprint current = fingerprint (before p) /\ snap_version current = snap_version (before p) /\
  (forall k, classification e = Some k ->
     externality k <> ExternalityClass.Financial /\ commit_strategy k <> CommitStrategy.Unsupported).
Proof.
  unfold gate_evaluate. destruct (_ || _) eqn:Hr.
  - split; [done|]. intros (He & Hs & Hf & Hv & _). rewrite He, Hs, Hf, Hv in Hr.
    by rewrite !bool_decide_eq_true_2 in Hr by done.
  - apply orb_false_iff in Hr as [[[He Hs]%orb_false_iff Hf]%orb_false_iff Hv].
    apply negb_false_iff, bool_decide_eq_true in Hs, Hf, Hv.
    destruct (classification e) as [k|].
    + destruct (_ || _) eqn:Hk; (split; [intros Hd|intros (_ & _ & _ & _ & Hc)]); try done.
      * specialize (Hc k eq_refl) as [??]. rewrite !bool_decide_eq_false_2 in Hk by done. done.
      * apply orb_false_iff in Hk as [Hk1 Hk2]. rewrite bool_decide_eq_false in Hk1, Hk2.
        split_and!; try done. by intros ? [= <-].
    + split; [intros _; split_and!; try done; by intros ? [=]|done].
Qed.

Lemma gate_never_approval e p current now :
  gate_evaluate e p current now <> CommitGateDecision.RequireApproval.
Proof. unfold gate_evaluate. by repeat case_match. Qed.
End adapter.
Arguments EffectAdapter Value X : clear implicits.
Arguments EffectAdapterRegistry Value X : clear implicits.
