(* ===== verification/EffectStore.v ===== *)
(** The persistent state of the effect subsystem and its transactions:
    src/store/effects.rs over the tables of migrations/011_effects.sql. A table
    is a finite map by its key; a statement that violates a key fails; a
    transaction that fails leaves the tables as they were. *)
From S2P Require Import Prelude StateError EconomicsModel EffectModel.

Section store.
Context {Value Actor X : Type} `{!EffectLibs Value}.
#[local] Abbreviation Effect := (Effect Value).
#[local] Abbreviation PreparedEffect := (PreparedEffect Value).
#[local] Abbreviation ExternalStateSnapshot := (ExternalStateSnapshot Value).
#[local] Abbreviation CommitReceipt := (CommitReceipt Value).
#[local] Abbreviation CompensationReceipt := (CompensationReceipt Value).
#[local] Abbreviation EffectGroupResult := (EffectGroupResult Value).
#[local] Abbreviation ReconciliationAttempt := (ReconciliationAttempt Value).

(** The fields of a Reality the subsystem reads and writes. *)
Record Reality := mkReality {
  effect_ledger : option string;
  reality_discarded : bool;
  provider : string;
  frozen : bool;
}.

(** The tables, the external systems behind the adapters, and the number of
    clock and id draws so far. *)
Record World := mkWorld {
  w_realities : gmap string Reality;
  w_ledgers : gmap string EffectLedger;
  w_effects : gmap string Effect;
  w_events : gmap string (list EffectEvent);
  w_prepared : gmap string PreparedEffect;
  w_snapshots : gmap string (string * string * ExternalStateSnapshot);
  w_authorizations : gmap string CommitAuthorization;
  w_receipts : gmap string CommitReceipt;
  w_actors : gmap string Actor;
  w_compensations : gmap string CompensationReceipt;
  w_attempts : gmap string ReconciliationAttempt;
  w_plans : gmap string EffectPlan;
  w_groups : gmap string EffectGroupResult;
  w_external : X;
  w_ticks : nat;
}.

(** Field updates. *)
Definition with_realities (m : gmap string Reality) (w : World) : World :=
  mkWorld m (w_ledgers w) (w_effects w) (w_events w) (w_prepared w) (w_snapshots w)
    (w_authorizations w) (w_receipts w) (w_actors w) (w_compensations w) (w_attempts w) (w_plans w)
    (w_groups w) (w_external w) (w_ticks w).
Definition with_ledgers (m : gmap string EffectLedger) (w : World) : World :=
  mkWorld (w_realities w) m (w_effects w) (w_events w) (w_prepared w) (w_snapshots w)
    (w_authorizations w) (w_receipts w) (w_actors w) (w_compensations w) (w_attempts w) (w_plans w)
    (w_groups w) (w_external w) (w_ticks w).
Definition with_effects (m : gmap string Effect) (w : World) : World :=
  mkWorld (w_realities w) (w_ledgers w) m (w_events w) (w_prepared w) (w_snapshots w)
    (w_authorizations w) (w_receipts w) (w_actors w) (w_compensations w) (w_attempts w) (w_plans w)
    (w_groups w) (w_external w) (w_ticks w).
Definition with_events (m : gmap string (list EffectEvent)) (w : World) : World :=
  mkWorld (w_realities w) (w_ledgers w) (w_effects w) m (w_prepared w) (w_snapshots w)
    (w_authorizations w) (w_receipts w) (w_actors w) (w_compensations w) (w_attempts w) (w_plans w)
    (w_groups w) (w_external w) (w_ticks w).
Definition with_prepared (m : gmap string PreparedEffect) (w : World) : World :=
  mkWorld (w_realities w) (w_ledgers w) (w_effects w) (w_events w) m (w_snapshots w)
    (w_authorizations w) (w_receipts w) (w_actors w) (w_compensations w) (w_attempts w) (w_plans w)
    (w_groups w) (w_external w) (w_ticks w).
Definition with_snapshots (m : gmap string (string * string * ExternalStateSnapshot)) (w : World) :
    World :=
  mkWorld (w_realities w) (w_ledgers w) (w_effects w) (w_events w) (w_prepared w) m
    (w_authorizations w) (w_receipts w) (w_actors w) (w_compensations w) (w_attempts w) (w_plans w)
    (w_groups w) (w_external w) (w_ticks w).
Definition with_authorizations (m : gmap string CommitAuthorization) (w : World) : World :=
  mkWorld (w_realities w) (w_ledgers w) (w_effects w) (w_events w) (w_prepared w) (w_snapshots w)
    m (w_receipts w) (w_actors w) (w_compensations w) (w_attempts w) (w_plans w)
    (w_groups w) (w_external w) (w_ticks w).
Definition with_receipts (m : gmap string CommitReceipt) (w : World) : World :=
  mkWorld (w_realities w) (w_ledgers w) (w_effects w) (w_events w) (w_prepared w) (w_snapshots w)
    (w_authorizations w) m (w_actors w) (w_compensations w) (w_attempts w) (w_plans w)
    (w_groups w) (w_external w) (w_ticks w).
Definition with_actors (m : gmap string Actor) (w : World) : World :=
  mkWorld (w_realities w) (w_ledgers w) (w_effects w) (w_events w) (w_prepared w) (w_snapshots w)
    (w_authorizations w) (w_receipts w) m (w_compensations w) (w_attempts w) (w_plans w)
    (w_groups w) (w_external w) (w_ticks w).
Definition with_compensations (m : gmap string CompensationReceipt) (w : World) : World :=
  mkWorld (w_realities w) (w_ledgers w) (w_effects w) (w_events w) (w_prepared w) (w_snapshots w)
    (w_authorizations w) (w_receipts w) (w_actors w) m (w_attempts w) (w_plans w)
    (w_groups w) (w_external w) (w_ticks w).
Definition with_attempts (m : gmap string ReconciliationAttempt) (w : World) : World :=
  mkWorld (w_realities w) (w_ledgers w) (w_effects w) (w_events w) (w_prepared w) (w_snapshots w)
    (w_authorizations w) (w_receipts w) (w_actors w) (w_compensations w) m (w_plans w)
    (w_groups w) (w_external w) (w_ticks w).
Definition with_plans (m : gmap string EffectPlan) (w : World) : World :=
  mkWorld (w_realities w) (w_ledgers w) (w_effects w) (w_events w) (w_prepared w) (w_snapshots w)
    (w_authorizations w) (w_receipts w) (w_actors w) (w_compensations w) (w_attempts w) m
    (w_groups w) (w_external w) (w_ticks w).
Definition with_groups (m : gmap string EffectGroupResult) (w : World) : World :=
  mkWorld (w_realities w) (w_ledgers w) (w_effects w) (w_events w) (w_prepared w) (w_snapshots w)
    (w_authorizations w) (w_receipts w) (w_actors w) (w_compensations w) (w_attempts w) (w_plans w)
    m (w_external w) (w_ticks w).
Definition with_external (x : X) (w : World) : World :=
  mkWorld (w_realities w) (w_ledgers w) (w_effects w) (w_events w) (w_prepared w) (w_snapshots w)
    (w_authorizations w) (w_receipts w) (w_actors w) (w_compensations w) (w_attempts w) (w_plans w)
    (w_groups w) x (w_ticks w).
Definition with_ticks (n : nat) (w : World) : World :=
  mkWorld (w_realities w) (w_ledgers w) (w_effects w) (w_events w) (w_prepared w) (w_snapshots w)
    (w_authorizations w) (w_receipts w) (w_actors w) (w_compensations w) (w_attempts w) (w_plans w)
    (w_groups w) (w_external w) n.

(** * The monad of the operations *)

#[local] Abbreviation eff := (eff World).

(** A transaction that fails rolls the tables back; draws are not undone. *)
Definition transaction {A} (m : eff A) : eff A := fun w =>
  match m w with
  | (Ok a, w') => (Ok a, w')
  | (Err e, w') => (Err e, with_ticks (w_ticks w') w)
  end.

(** The clock and the source of fresh ids. *)
Class EffectEnv := {
  clock : nat -> Z;
  fresh : nat -> string;
}.
Context `{!EffectEnv}.

Definition utc_now : eff Z := fun w => (Ok (clock (w_ticks w)), with_ticks (S (w_ticks w)) w).
Definition new_id (prefix : string) : eff string := fun w =>
  (Ok (prefix +:+ fresh (w_ticks w)), with_ticks (S (w_ticks w)) w).

(** INSERT of a row under a key. *)
Definition insert_key {V} (m : gmap string V) (k : string) (v : V) : result (gmap string V) :=
  match m !! k with
  | Some _ => Err (Sqlite "UNIQUE constraint failed")
  | None => Ok (<[k := v]> m)
  end.

(** * Reading *)

Definition effect (id : string) : eff Effect :=
  fetch (fun w => ok_or (w_effects w !! id) (NotFound ("Effect " +:+ id +:+ " not found"))).

(** ORDER BY created_at, id. *)
Definition ordered (l : list Effect) : list Effect :=
  sort_by_key (fun e => (eff_created_at e, eff_id e)) l.
Definition all_effects (w : World) : list Effect := snd <$> map_to_list (w_effects w).

Definition effects (reality : option string) : eff (list Effect) :=
  ask (fun w => ordered (List.filter (fun e =>
    match reality with None => true | Some _ => bool_decide (reality_id e = reality) end)
    (all_effects w))).

Definition effect_events (id : string) : eff (list EffectEvent) :=
  ask (fun w => default [] (w_events w !! id)).

Definition prepared_effect (id : string) : eff PreparedEffect :=
  fetch (fun w => ok_or (w_prepared w !! id) (NotFound ("Prepared effect " +:+ id +:+ " not found"))).

Definition commit_receipt_for_effect (id : string) : eff (option CommitReceipt) :=
  ask (fun w => w_receipts w !! id).

(** * Events *)

Definition next_event_sequence (id : string) (w : World) : Z :=
  (foldr Z.max 0 (ev_sequence <$> default [] (w_events w !! id)) + 1)%Z.

Definition insert_effect_event (e : Effect) (ty : EffectEventType.t) (evidence : list string) :
    eff EffectEvent :=
  id ← new_id "effect-event-";
  seq ← ask (next_event_sequence (eff_id e));
  at_ ← utc_now;
  known ← ask (fun w => w_effects w !! eff_id e);
  if bool_decide (I64_MAX < seq)%Z then fail (InvalidInput "Effect event sequence overflow")
  else match known with
  | None => fail (Sqlite "FOREIGN KEY constraint failed")
  | Some _ =>
      let ev := mkEvent id (eff_id e) seq ty at_ evidence in
      modify (fun w => with_events
        (<[eff_id e := default [] (w_events w !! eff_id e) ++ [ev]]> (w_events w)) w) ≫= fun _ =>
      mret ev
  end.

Definition append_effect_event (e : Effect) (ty : EffectEventType.t) : eff EffectEvent :=
  transaction (insert_effect_event e ty (eff_evidence e)).

(** * Ledgers and new effects *)

Definition ensure_effect_ledger (reality : option string) : eff EffectLedger :=
  match reality with
  | Some rid =>
      r ← fetch (fun w => ok_or (w_realities w !! rid) (NotFound ("Reality " +:+ rid +:+ " not found")));
      match effect_ledger r with
      | Some id => fetch (fun w =>
          ok_or (w_ledgers w !! id) (NotFound ("Effect ledger " +:+ id +:+ " not found")))
      | None =>
          id ← new_id "effect-ledger-";
          at_ ← utc_now;
          let ledger := mkEffectLedger id (Some rid) at_ in
          transaction (
            taken ← ask (fun w => bool_decide (map_Exists (fun _ l => el_reality l = Some rid) (w_ledgers w)));
            if (taken : bool) then fail (Sqlite "UNIQUE constraint failed")
            else
              m ← fetch (fun w => insert_key (w_ledgers w) id ledger);
              modify (with_ledgers m) ≫= fun _ =>
              modify (fun w => with_realities
                (<[rid := mkReality (Some id) (reality_discarded r) (provider r) (frozen r)]> (w_realities w)) w) ≫= fun _ =>
              mret ledger)
      end
  | None =>
      id ← new_id "effect-ledger-";
      at_ ← utc_now;
      let ledger := mkEffectLedger id None at_ in
      m ← fetch (fun w => insert_key (w_ledgers w) id ledger);
      modify (with_ledgers m) ≫= fun _ => mret ledger
  end.

Definition insert_effect (e : Effect) : eff unit :=
  if negb (bool_decide (lifecycle e = EffectLifecycle.Proposed)) ||
     bool_decide (is_Some (classification e))
  then fail (InvalidInput "New Effect must begin in PROPOSED without classification")
  else transaction (
    _ ← lift (scope_hash e);
    m ← fetch (fun w => insert_key (w_effects w) (eff_id e) e);
    modify (with_effects m) ≫= fun _ =>
    insert_effect_event e EffectEventType.Proposed (eff_evidence e) ≫= fun _ => mret tt).

(** * Transitions *)

(** UPDATE effects SET .. WHERE id = ? AND lifecycle = previous, which must
    change one row. *)
Definition update_effect (previous : EffectLifecycle.t) (e : Effect) (conflict : string) : eff unit :=
  row ← ask (fun w => w_effects w !! eff_id e);
  match row with
  | Some r =>
      if bool_decide (lifecycle r = previous)
      then modify (fun w => with_effects (<[eff_id e := e]> (w_effects w)) w)
      else fail (Intervention conflict)
  | None => fail (Intervention conflict)
  end.

(** Returns the effect with its new lifecycle. *)
Definition transition_effect (e : Effect) (next : EffectLifecycle.t) (ty : EffectEventType.t) :
    eff Effect :=
  if negb (EffectLifecycle.allows (lifecycle e) next) then
    fail (InvalidInput ("Invalid effect lifecycle transition " +:+ EffectLifecycle.debug (lifecycle e)
            +:+ " → " +:+ EffectLifecycle.debug next))
  else
    let e' := set_lifecycle next e in
    transaction (
      update_effect (lifecycle e) e' "Effect changed concurrently; reload before transition" ≫= fun _ =>
      insert_effect_event e' ty (eff_evidence e') ≫= fun _ => mret e').

Definition insert_snapshot (e : Effect) (phase : string) (s : ExternalStateSnapshot) : eff unit :=
  m ← fetch (fun w => insert_key (w_snapshots w) (snap_id s) (eff_id e, phase, s));
  modify (with_snapshots m).
Definition insert_external_snapshot (e : Effect) (phase : string) (s : ExternalStateSnapshot) : eff unit :=
  transaction (insert_snapshot e phase s).

(** prepared_effects has the prepared id as its key and one row per effect. *)
Definition insert_prepared (p : PreparedEffect) : eff unit :=
  known ← ask (fun w => bool_decide (is_Some (w_effects w !! prep_effect p)));
  taken ← ask (fun w => bool_decide (map_Exists (fun _ q => prep_id q = prep_id p) (w_prepared w)));
  if negb known then fail (Sqlite "FOREIGN KEY constraint failed")
  else if (taken : bool) then fail (Sqlite "UNIQUE constraint failed")
  else
    m ← fetch (fun w => insert_key (w_prepared w) (prep_effect p) p);
    modify (with_prepared m).

Definition save_prepared_effect (e : Effect) (p : PreparedEffect) : eff Effect :=
  if negb (EffectLifecycle.allows (lifecycle e) EffectLifecycle.Prepared) then
    fail (InvalidInput "Effect is not eligible for preparation")
  else
    let e' := set_lifecycle EffectLifecycle.Prepared e in
    transaction (
      insert_prepared p ≫= fun _ =>
      insert_snapshot e' "prepare" (before p) ≫= fun _ =>
      update_effect (lifecycle e) e' "Effect changed concurrently during prepare" ≫= fun _ =>
      insert_effect_event e' EffectEventType.Prepared (prep_evidence p) ≫= fun _ => mret e').

(** INSERT OR IGNORE. *)
Definition insert_commit_authorization (a : CommitAuthorization) : eff unit :=
  modify (fun w => match w_authorizations w !! auth_id a with
    | Some _ => w
    | None => with_authorizations (<[auth_id a := a]> (w_authorizations w)) w end).

(** INSERT OR IGNORE: the row is dropped when its id or its effect is taken. *)
Definition insert_receipt (id : string) (r : CommitReceipt) : eff unit :=
  modify (fun w =>
    if bool_decide (is_Some (w_receipts w !! id)) ||
       bool_decide (map_Exists (fun _ q => receipt_id q = receipt_id r) (w_receipts w))
    then w else with_receipts (<[id := r]> (w_receipts w)) w).

Definition save_commit_receipt (e : Effect) (r : CommitReceipt) (s : ExternalStateSnapshot)
    (actor : option Actor) : eff Effect :=
  if negb (EffectLifecycle.allows (lifecycle e) EffectLifecycle.Committed) then
    fail (InvalidInput "Effect cannot transition to committed")
  else
    let e' := set_lifecycle EffectLifecycle.Committed e in
    transaction (
      insert_receipt (eff_id e) r ≫= fun _ =>
      match actor with
      | Some a => m ← fetch (fun w => insert_key (w_actors w) (eff_id e) a); modify (with_actors m)
      | None => mret tt
      end ≫= fun _ =>
      insert_snapshot e' "post_commit" s ≫= fun _ =>
      update_effect (lifecycle e) e' "Effect changed concurrently during commit" ≫= fun _ =>
      insert_effect_event e' EffectEventType.Committed (eff_evidence e') ≫= fun _ => mret e').

Definition save_compensation_receipt (e : Effect) (r : CompensationReceipt) : eff Effect :=
  transaction (
    known ← ask (fun w => bool_decide (map_Exists (fun _ q => receipt_id q = original_receipt r) (w_receipts w)));
    if negb known then fail (Sqlite "FOREIGN KEY constraint failed")
    else
      m ← fetch (fun w => insert_key (w_compensations w) (comp_id r) r);
      modify (with_compensations m) ≫= fun _ =>
      if decide (comp_status r = CompensationStatus.Successful) then
        if negb (EffectLifecycle.allows (lifecycle e) EffectLifecycle.Compensated) then
          fail (InvalidInput "Effect cannot be compensated from its current state")
        else
          let e' := set_lifecycle EffectLifecycle.Compensated e in
          update_effect (lifecycle e) e' "Effect changed concurrently during compensation" ≫= fun _ =>
          insert_effect_event e' EffectEventType.Compensated (eff_evidence e') ≫= fun _ => mret e'
      else
        insert_effect_event e EffectEventType.CompensationFailed (eff_evidence e) ≫= fun _ => mret e).

(** * Attempts, plans, groups and orphans *)

Definition insert_reconciliation_attempt (a : ReconciliationAttempt) : eff unit :=
  m ← fetch (fun w => insert_key (w_attempts w) (attempt_id a) a);
  modify (with_attempts m).
Definition insert_effect_plan (p : EffectPlan) : eff unit :=
  m ← fetch (fun w => insert_key (w_plans w) (plan_id p) p);
  modify (with_plans m).
Definition insert_effect_group (g : EffectGroupResult) : eff unit :=
  known ← ask (fun w => bool_decide (is_Some (w_plans w !! group_plan g)));
  if negb known then fail (Sqlite "FOREIGN KEY constraint failed")
  else
    m ← fetch (fun w => insert_key (w_groups w) (group_id g) g);
    modify (with_groups m).

(** Prepared effects whose Reality is gone or discarded. *)
Definition orphaned (w : World) (e : Effect) : bool :=
  bool_decide (lifecycle e = EffectLifecycle.Prepared) &&
  match reality_id e with
  | Some rid => match w_realities w !! rid with Some r => reality_discarded r | None => true end
  | None => false
  end.
Definition orphaned_prepared_effects : eff (list Effect) :=
  ask (fun w => ordered (List.filter (orphaned w) (all_effects w))).

Definition detach_prepared_effect (id : string) : eff Effect :=
  e ← effect id;
  if negb (bool_decide (lifecycle e = EffectLifecycle.Prepared)) then
    fail (InvalidInput "Only a selected PREPARED effect can leave an experimental Reality")
  else
    lid ← new_id "effect-ledger-";
    at_ ← utc_now;
    let ledger := mkEffectLedger lid None at_ in
    let e' := set_detached lid e in
    transaction (
      m ← fetch (fun w => insert_key (w_ledgers w) lid ledger);
      modify (with_ledgers m) ≫= fun _ =>
      update_effect EffectLifecycle.Prepared e' "Effect changed before experiment selection" ≫= fun _ =>
      insert_effect_event e' EffectEventType.Virtualized (eff_evidence e') ≫= fun _ => mret e').
End store.
Arguments World Value Actor X : clear implicits.
