(* ===== verification/EffectManager.v ===== *)
(** [EffectManager] of src/effects/manager.rs: proposing, preparing, authorizing,
    committing, reconciling, discarding and compensating effects, and plans of
    several effects. The capability manifest, the knowledge and team checks and
    the recording of an Experience are the host's. *)
From S2P Require Import Prelude StateError EconomicsModel EffectModel EffectAdapter EffectStore.

(** What the manager asks of the other subsystems; each call sees the number of
    draws so far, so that its answer may change over time. *)
Class EffectHost (Value Actor : Type) := {
  (** [None] when the manifest of the Reality allows the request, the reason otherwise. *)
  evaluate_capability : string -> EffectCapabilityStage.t -> EffectKind.t -> string ->
    EffectOperation -> nat -> result (option string);
  check_knowledge_before_commit : string -> string -> nat -> result unit;
  bind_effect_actor : Effect Value -> nat -> result (option Actor);
  historical_effect_actor : Effect Value -> nat -> result (option Actor);
  record_effect_experience : Effect Value -> string -> bool -> nat -> result unit;
  (** [metadata["hardknock_actor"] = serde_json::to_value(actor)?]. *)
  set_actor : Actor -> Value -> result Value;
}.

Definition user_context : EffectContext :=
  mkContext "local-user" false (mkGrant true true true true true).
Definition agent_context (agent : string) : EffectContext :=
  mkContext agent true (mkGrant true true true false false).

(** * Ordering a plan *)

Section order.
Context (p : EffectPlan).

(** A candidate that still waits and depends on nothing that waits. *)
Definition ready (remaining : gset string) (candidate : string) : bool :=
  bool_decide (candidate ∈ remaining) &&
  negb (existsb (fun d => bool_decide (dep_after d = candidate) &&
                          bool_decide (dep_before d ∈ remaining)) (plan_dependencies p)).

Definition cycle_error {A} : result A := Err (InvalidInput "Effect plan contains a cycle").

(** The loop; every turn removes a member, so as many turns as members suffice and
    the error of running out of them, which is that of the loop, is not reached. *)
Fixpoint order_loop (fuel : nat) (remaining : gset string) (ordered : list string) :
    result (list string) :=
  if decide (remaining = ∅) then Ok ordered
  else match fuel with
  | O => cycle_error
  | S fuel' =>
      match List.find (ready remaining) (plan_effects p) with
      | None => cycle_error
      | Some next => order_loop fuel' (remaining ∖ {[next]}) (ordered ++ [next])
      end
  end.

Definition topological_order : result (list string) :=
  order_loop (size (list_to_set (plan_effects p) : gset string)) (list_to_set (plan_effects p)) [].
End order.

Section manager.
Context {Value Actor X : Type} {libs : EffectLibs Value} {env : EffectEnv} {host : EffectHost Value Actor}.
Context (registry : EffectAdapterRegistry Value X).
#[local] Abbreviation Effect := (Effect Value).
#[local] Abbreviation PreparedEffect := (PreparedEffect Value).
#[local] Abbreviation ExternalStateSnapshot := (ExternalStateSnapshot Value).
#[local] Abbreviation CommitReceipt := (CommitReceipt Value).
#[local] Abbreviation eff := (eff (World Value Actor X)).

(** * Calls *)

(** A call of the host. *)
Definition collab {A} (f : nat -> result A) : eff A := fun w =>
  (f (w_ticks w), with_ticks (S (w_ticks w)) w).
(** A call of an adapter. *)
Definition external {A} (f : X -> result A * X) : eff A := fun w =>
  let '(r, x) := f (w_external w) in (r, with_external x w).

Definition enforce_reality_capability (reality : option string) (stage : EffectCapabilityStage.t)
    (kind : EffectKind.t) (target : string) (op : EffectOperation) : eff unit :=
  match reality with
  | None => mret tt
  | Some rid =>
      r ← fetch (fun w => ok_or (w_realities w !! rid) (NotFound ("Reality " +:+ rid +:+ " not found")));
      if negb (bool_decide (provider r = "container")) then mret tt
      else if frozen r then fail (Intervention "Frozen Reality cannot request external effects")
      else
        verdict ← collab (evaluate_capability rid stage kind target op);
        match verdict with
        | None => mret tt
        | Some reason => fail (Intervention reason)
        end
  end.

(** * Proposing and preparing *)

Definition propose (request : EffectRequest Value) (c : EffectContext) : eff Effect :=
  lift (request_validate request) ≫= fun _ =>
  if negb (may_propose (capabilities c)) then
    fail (Intervention "Actor lacks effect proposal capability")
  else
    enforce_reality_capability (req_reality_id request) EffectCapabilityStage.Propose
      (req_kind request) (uri (req_target request)) (req_operation request) ≫= fun _ =>
    adapter ← lift (select_request registry request);
    k ← lift (ad_classify adapter request);
    ledger ← ensure_effect_ledger (req_reality_id request);
    id ← new_id "effect-";
    at_ ← utc_now;
    let e := from_request request (el_id ledger) (ad_name adapter) id at_ in
    insert_effect e ≫= fun _ =>
    e ← transition_effect (set_classification k e) EffectLifecycle.Classified
          EffectEventType.Classified;
    if decide (policy_evaluate e c = EffectDecision.Reject) then
      transition_effect e EffectLifecycle.Rejected EffectEventType.CommitRejected
    else mret e.

Definition prepare (id : string) (c : EffectContext) : eff PreparedEffect :=
  if negb (may_prepare (capabilities c)) then
    fail (Intervention "Actor lacks effect preparation capability")
  else
    e ← effect id;
    enforce_reality_capability (reality_id e) EffectCapabilityStage.Prepare (eff_kind e)
      (uri (eff_target e)) (operation e) ≫= fun _ =>
    if negb (bool_decide (lifecycle e = EffectLifecycle.Classified)) &&
       negb (bool_decide (lifecycle e = EffectLifecycle.Virtualized)) then
      fail (InvalidInput ("Effect " +:+ eff_id e +:+ " is " +:+ EffectLifecycle.debug (lifecycle e)
              +:+ ", not eligible for prepare"))
    else if decide (policy_evaluate e c = EffectDecision.Reject) then
      transition_effect e EffectLifecycle.Rejected EffectEventType.CommitRejected ≫= fun _ =>
      fail (Intervention "Effect policy rejected prepare")
    else
      adapter ← lift (select_effect registry e);
      if negb (cap_prepare (ad_capabilities adapter)) then
        fail (Intervention ("Adapter " +:+ ad_name adapter +:+ " cannot prepare effects"))
      else
        r ← attempt (external (ad_prepare adapter e));
        match r with
        | Ok prepared => save_prepared_effect e prepared ≫= fun _ => mret prepared
        | Err error =>
            transition_effect e EffectLifecycle.Failed EffectEventType.CommitFailed ≫= fun _ =>
            fail error
        end.

Definition propose_and_prepare (request : EffectRequest Value) (c : EffectContext) :
    eff (Effect * PreparedEffect) :=
  e ← propose request c;
  if decide (lifecycle e = EffectLifecycle.Rejected) then
    fail (Intervention "Effect proposal was rejected")
  else
    prepared ← prepare (eff_id e) c;
    e' ← effect (eff_id e);
    mret (e', prepared).

(** * Authorizing and committing *)

Definition authorize (a : CommitAuthority.t) (ids : list string) : eff CommitAuthorization :=
  es ← eff_map effect ids;
  id ← new_id "authorization-";
  granted ← utc_now;
  base ← utc_now;
  authorization ← lift (for_effects a es id granted base);
  insert_commit_authorization authorization ≫= fun _ => mret authorization.

(** Bind the actor into the receipt, observe, persist and record. *)
Definition finish_commit (adapter : EffectAdapter Value X) (e : Effect) (receipt : CommitReceipt)
    (actor : option Actor) (kind : string) : eff (Effect * CommitReceipt) :=
  receipt ← match actor with
    | Some a => m ← lift (set_actor a (receipt_metadata receipt));
        mret (mkReceipt (receipt_id receipt) (receipt_effect receipt) (receipt_adapter receipt)
                (committed_at receipt) (external_reference receipt) (receipt_key receipt)
                (result_hash receipt) m)
    | None => mret receipt end;
  after ← external (ad_observe adapter e);
  e' ← save_commit_receipt e receipt after actor;
  collab (record_effect_experience e' kind true) ≫= fun _ => mret (e', receipt).

(** The retry of an effect whose outcome is unknown. *)
Definition retry_unknown (adapter : EffectAdapter Value X) (e : Effect) (p : PreparedEffect)
    (actor : option Actor) : eff (CommitOutcome Value) :=
  if negb (idempotency_keys (ad_capabilities adapter)) then
    fail (Intervention "UNKNOWN effect cannot be retried without adapter idempotency support")
  else
    append_effect_event e EffectEventType.CommitAuthorized ≫= fun _ =>
    o ← external (ad_commit adapter e p);
    match o with
    | AdapterCommitted receipt =>
        r ← finish_commit adapter e receipt actor "commit"; mret (CommittedOutcome r.2)
    | AdapterNotCommitted reason =>
        transition_effect e EffectLifecycle.Failed EffectEventType.CommitFailed ≫= fun _ =>
        mret (RejectedOutcome reason false)
    | AdapterUnknown reason =>
        append_effect_event e EffectEventType.Unknown ≫= fun _ => mret (UnknownOutcome reason)
    end.

(** The [Debug] text of an optional version, whose text is printable. *)
Definition quote : string := String (Ascii.ascii_of_nat 34) EmptyString.
Fixpoint escape (s : string) : string :=
  match s with
  | EmptyString => EmptyString
  | String a rest =>
      let n := Ascii.nat_of_ascii a in
      (if (n =? 34)%nat || (n =? 92)%nat then String (Ascii.ascii_of_nat 92) (String a EmptyString)
       else String a EmptyString) +:+ escape rest
  end.
Definition debug_version (v : option string) : string :=
  match v with Some s => "Some(" +:+ quote +:+ escape s +:+ quote +:+ ")" | None => "None" end.
Definition reprepare_reason (p : PreparedEffect) (current : ExternalStateSnapshot) : string :=
  "External state changed after preparation (expected " +:+ debug_version (snap_version (before p))
  +:+ ", observed " +:+ debug_version (snap_version current) +:+ "); reprepare required".

(** The gate, the commit of the adapter and its outcome. *)
Definition gated_commit (adapter : EffectAdapter Value X) (e : Effect) (p : PreparedEffect)
    (actor : option Actor) : eff (CommitOutcome Value) :=
  current ← external (ad_observe adapter e);
  insert_external_snapshot e "pre_commit" current ≫= fun _ =>
  at_ ← utc_now;
  match gate_evaluate e p current at_ with
  | CommitGateDecision.Reprepare =>
      append_effect_event e EffectEventType.CommitRejected ≫= fun _ =>
      mret (RejectedOutcome (reprepare_reason p current) true)
  | CommitGateDecision.Reject =>
      append_effect_event e EffectEventType.CommitRejected ≫= fun _ =>
      mret (RejectedOutcome "Commit gate rejected unsupported effect" false)
  | CommitGateDecision.RequireApproval | CommitGateDecision.Allow =>
      append_effect_event e EffectEventType.CommitAuthorized ≫= fun _ =>
      o ← external (ad_commit adapter e p);
      match o with
      | AdapterCommitted receipt =>
          r ← finish_commit adapter e receipt actor "commit"; mret (CommittedOutcome r.2)
      | AdapterNotCommitted reason =>
          transition_effect e EffectLifecycle.Failed EffectEventType.CommitFailed ≫= fun _ =>
          mret (RejectedOutcome reason false)
      | AdapterUnknown reason =>
          if decide (lifecycle e = EffectLifecycle.Unknown) then mret (UnknownOutcome reason)
          else
            transition_effect e EffectLifecycle.Unknown EffectEventType.Unknown ≫= fun _ =>
            mret (UnknownOutcome reason)
      end
  end.

(** [commit_internal]; [scope] is [None] for a single effect. *)
Definition commit_internal (e : Effect) (authorization : option CommitAuthorization)
    (c : EffectContext) (authorization_scope : option (list Effect)) : eff (CommitOutcome Value) :=
  (if is_agent_actor c then
     enforce_reality_capability (reality_id e) EffectCapabilityStage.Commit (eff_kind e)
       (uri (eff_target e)) (operation e)
   else mret tt) ≫= fun _ =>
  if is_agent_actor c || negb (may_commit (capabilities c)) then
    append_effect_event e EffectEventType.CommitRejected ≫= fun _ =>
    fail (Intervention "Agent cannot self-authorize an external effect commit")
  else if negb (bool_decide (lifecycle e = EffectLifecycle.Prepared)) &&
          negb (bool_decide (lifecycle e = EffectLifecycle.Unknown)) then
    fail (InvalidInput ("Effect " +:+ eff_id e +:+ " is " +:+ EffectLifecycle.debug (lifecycle e)
            +:+ "; PREPARED or UNKNOWN required"))
  else
    collab (check_knowledge_before_commit (session_id e) (action_id (source_action e))) ≫= fun _ =>
    actor ← collab (bind_effect_actor e);
    p ← prepared_effect (eff_id e);
    authorization ← lift (ok_or authorization
      (Intervention "Explicit commit authorization is required"));
    let scope := default [e] authorization_scope in
    at_ ← utc_now;
    match authorization_validate authorization scope at_ with
    | Err error =>
        append_effect_event e EffectEventType.CommitRejected ≫= fun _ => fail error
    | Ok _ =>
        if negb (existsb (fun candidate => bool_decide (eff_id candidate = eff_id e)) scope) then
          fail (Intervention "Authorization does not include this effect")
        else
          insert_commit_authorization authorization ≫= fun _ =>
          adapter ← lift (select_effect registry e);
          if decide (lifecycle e = EffectLifecycle.Unknown) then retry_unknown adapter e p actor
          else gated_commit adapter e p actor
    end.

Definition commit (id : string) (authorization : option CommitAuthorization) (c : EffectContext) :
    eff (CommitOutcome Value) :=
  e ← effect id;
  commit_internal e authorization c None.

(** * Reconciling, discarding and compensating *)

Definition reconcile (id : string) : eff (ReconciliationResult Value) :=
  e ← effect id;
  if negb (bool_decide (lifecycle e = EffectLifecycle.Unknown)) then
    fail (InvalidInput "Only UNKNOWN effects require reconciliation")
  else
    adapter ← lift (select_effect registry e);
    actor ← collab (historical_effect_actor e);
    r ← external (ad_reconcile adapter e);
    aid ← new_id "reconcile-";
    at_ ← utc_now;
    insert_reconciliation_attempt (mkAttempt aid (eff_id e) at_ r) ≫= fun _ =>
    match r with
    | ReconciledCommitted receipt =>
        q ← finish_commit adapter e receipt actor "reconciliation";
        append_effect_event q.1 EffectEventType.Reconciled ≫= fun _ =>
        mret (ReconciledCommitted q.2)
    | ReconciledNotCommitted =>
        transition_effect e EffectLifecycle.Failed EffectEventType.Reconciled ≫= fun _ => mret r
    | StillUnknown _ =>
        append_effect_event e EffectEventType.Reconciled ≫= fun _ => mret r
    end.

Definition discard (id : string) (c : EffectContext) : eff Effect :=
  if negb (may_prepare (capabilities c)) then
    fail (Intervention "Actor lacks effect discard capability")
  else
    e ← effect id;
    if decide (lifecycle e = EffectLifecycle.Unknown) then
      fail (Intervention "UNKNOWN effect cannot be discarded until reconciled")
    else
      (if decide (lifecycle e = EffectLifecycle.Prepared) then
         p ← prepared_effect id;
         adapter ← lift (select_effect registry e);
         r ← attempt (external (ad_discard adapter e p));
         match r with
         | Ok _ => mret tt
         | Err error =>
             append_effect_event e EffectEventType.CleanupFailed ≫= fun _ => fail error
         end
       else mret tt) ≫= fun _ =>
      transition_effect e EffectLifecycle.Discarded EffectEventType.Discarded.

Definition compensate (id : string) (c : EffectContext) : eff (CompensationReceipt Value) :=
  if is_agent_actor c || negb (may_compensate (capabilities c)) then
    fail (Intervention "External compensation authority is required")
  else
    e ← effect id;
    if negb (bool_decide (lifecycle e = EffectLifecycle.Committed)) then
      fail (InvalidInput "Only committed effects may be compensated")
    else
      r ← commit_receipt_for_effect id;
      receipt ← lift (ok_or r (NotFound "Committed effect receipt missing"));
      append_effect_event e EffectEventType.CompensationStarted ≫= fun _ =>
      adapter ← lift (select_effect registry e);
      compensation ← external (ad_compensate adapter e receipt);
      e' ← save_compensation_receipt e compensation;
      collab (record_effect_experience e' "compensation"
        (bool_decide (comp_status compensation = CompensationStatus.Successful))) ≫= fun _ =>
      mret compensation.

(** * Cleaning up *)

(** The lifecycles [discard_reality] discards. *)
Definition disposable (x : EffectLifecycle.t) : bool :=
  match x with
  | EffectLifecycle.Proposed | EffectLifecycle.Classified | EffectLifecycle.Virtualized
  | EffectLifecycle.Prepared | EffectLifecycle.Failed => true
  | _ => false
  end.

(** The loop: the discarded ids and the failures so far. *)
Fixpoint discard_all (l : list Effect) (discarded failures : list string) :
    eff (list string * list string) :=
  match l with
  | [] => mret (discarded, failures)
  | e :: l' =>
      if disposable (lifecycle e) then
        r ← attempt (discard (eff_id e) user_context);
        match r with
        | Ok _ => discard_all l' (discarded ++ [eff_id e]) failures
        | Err error => discard_all l' discarded (failures ++ [eff_id e +:+ ": " +:+ error_text error])
        end
      else if decide (lifecycle e = EffectLifecycle.Unknown) then
        discard_all l' discarded (failures ++ [eff_id e +:+ ": outcome remains UNKNOWN"])
      else discard_all l' discarded failures
  end.

Definition discard_reality (rid : string) : eff (list string) :=
  es ← effects (Some rid);
  r ← discard_all es [] [];
  match r.2 with
  | [] => mret r.1
  | failures =>
      fail (Intervention ("Reality effect cleanup incomplete: " +:+ String.concat "; " failures))
  end.

Definition cleanup_orphans : eff (list string) :=
  es ← orphaned_prepared_effects;
  eff_map (fun e => discard (eff_id e) user_context ≫= fun _ => mret (eff_id e)) es.

(** * Plans *)

(** Every member must be PREPARED. *)
Definition require_prepared (id : string) : eff unit :=
  e ← effect id;
  if bool_decide (lifecycle e = EffectLifecycle.Prepared) then mret tt
  else fail (InvalidInput ("Effect " +:+ id +:+ " is not PREPARED")).

Definition valid_dependency (members : gset string) (d : EffectDependency) : bool :=
  bool_decide (dep_before d ∈ members) && bool_decide (dep_after d ∈ members) &&
  negb (bool_decide (dep_before d = dep_after d)).

Definition create_plan (es : list string) (deps : list EffectDependency) (a : EffectAtomicity.t) :
    eff EffectPlan :=
  let unique : gset string := list_to_set es in
  if bool_decide (es = []) || negb (bool_decide (size unique = length es)) then
    fail (InvalidInput "Effect plan requires unique nonempty effects")
  else
    eff_iter require_prepared es ≫= fun _ =>
    if negb (forallb (valid_dependency unique) deps) then
      fail (InvalidInput "Effect dependency references an invalid plan member")
    else
      id ← new_id "effect-plan-";
      at_ ← utc_now;
      let plan := mkPlan id es deps a at_ in
      lift (topological_order plan) ≫= fun _ =>
      insert_effect_plan plan ≫= fun _ => mret plan.

(** The commits in order, up to the first that does not commit: the receipts,
    the effect that failed, and whether its outcome is unknown. *)
Fixpoint commit_all (order : list string) (authorization : CommitAuthorization) (c : EffectContext)
    (scope : list Effect) (receipts : list CommitReceipt) :
    eff (list CommitReceipt * option string * bool) :=
  match order with
  | [] => mret (receipts, None, false)
  | id :: order' =>
      e ← effect id;
      o ← commit_internal e (Some authorization) c (Some scope);
      match o with
      | CommittedOutcome receipt => commit_all order' authorization c scope (receipts ++ [receipt])
      | RejectedOutcome _ _ => mret (receipts, Some id, false)
      | UnknownOutcome _ => mret (receipts, Some id, true)
      end
  end.

Definition group_outcome (members : nat) (receipts : list CommitReceipt) (unknown : bool) :
    CommitGroupOutcome.t :=
  if unknown then CommitGroupOutcome.Unknown
  else if decide (length receipts = members) then CommitGroupOutcome.FullyCommitted
  else if decide (receipts = []) then CommitGroupOutcome.NotCommitted
  else CommitGroupOutcome.PartiallyCommitted.

(** Compensation in reverse commit order, for a partial compensating group. *)
Definition compensate_group (plan : EffectPlan) (c : EffectContext) (receipts : list CommitReceipt)
    (o : CommitGroupOutcome.t) : eff (list (CompensationReceipt Value) * CommitGroupOutcome.t) :=
  if bool_decide (o = CommitGroupOutcome.PartiallyCommitted) &&
     bool_decide (atomicity plan = EffectAtomicity.CompensatingGroup) then
    cs ← eff_map (fun r => compensate (receipt_effect r) c) (rev receipts);
    mret (cs, if forallb (fun x => bool_decide (comp_status x = CompensationStatus.Successful)) cs
              then CommitGroupOutcome.FullyCompensated
              else CommitGroupOutcome.PartiallyCompensated)
  else mret ([], o).

Definition commit_plan (plan : EffectPlan) (authorization : CommitAuthorization) (c : EffectContext) :
    eff (EffectGroupResult Value) :=
  scope ← eff_map effect (plan_effects plan);
  at_ ← utc_now;
  lift (authorization_validate authorization scope at_) ≫= fun _ =>
  order ← lift (topological_order plan);
  r ← commit_all order authorization c scope [];
  let '(receipts, failed, unknown) := r in
  let o := group_outcome (length (plan_effects plan)) receipts unknown in
  q ← compensate_group plan c receipts o;
  id ← new_id "effect-group-";
  created ← utc_now;
  let g := mkGroup id (plan_id plan) o q.2 receipts failed q.1
    (bool_decide (q.2 = CommitGroupOutcome.PartiallyCompensated) ||
     bool_decide (q.2 = CommitGroupOutcome.Unknown)) created in
  insert_effect_group g ≫= fun _ => mret g.
End manager.
