(* ===== verification/EffectExample.v ===== *)
(** A concrete world for the effect subsystem: two pages behind an adapter that
    stages nothing, loses its answer when asked to, and reconciles by looking.
    The witnesses of the effect theorems run in it. *)
From S2P Require Import Prelude StateError EconomicsModel EffectModel EffectAdapter EffectStore EffectManager.

Module EffectExample.
#[export] Instance libs : EffectLibs string := {|
  json_len v := Ok (Z.of_nat (String.length v));
  hash_scope := fun '(id, adapter, _, target, _, payload, key) =>
    Ok (id +:+ "/" +:+ adapter +:+ "/" +:+ uri target +:+ "/" +:+ payload +:+ "/" +:+ key);
  hash_scopes l := Ok (String.concat ";" (snd <$> l));
|}.

Fixpoint strokes (n : nat) : string :=
  match n with O => EmptyString | S m => "i" +:+ strokes m end.
#[export] Instance env : EffectEnv := {| clock := Z.of_nat; fresh := strokes |}.
#[export] Instance host : EffectHost string unit := {|
  evaluate_capability _ _ _ _ _ _ := Ok None;
  check_knowledge_before_commit _ _ _ := Ok tt;
  bind_effect_actor _ _ := Ok None;
  historical_effect_actor _ _ := Ok None;
  record_effect_experience _ _ _ _ := Ok tt;
  set_actor _ v := Ok v;
|}.

(** Two pages, and the number of snapshots and receipts handed out. *)
Record Doc := mkDoc { page_a : string; page_b : string; handed : nat }.
Definition pages (d : Doc) : string * string := (page_a d, page_b d).
Definition on_b (e : Effect string) : bool := bool_decide (uri (eff_target e) = "doc://b").
Definition read (e : Effect string) (d : Doc) : string := if on_b e then page_b d else page_a d.
Definition write (e : Effect string) (text : string) (d : Doc) : Doc :=
  if on_b e then mkDoc (page_a d) text (S (handed d)) else mkDoc text (page_b d) (S (handed d)).
Definition bump (d : Doc) : Doc := mkDoc (page_a d) (page_b d) (S (handed d)).

Definition snapshot (e : Effect string) (d : Doc) : ExternalStateSnapshot string :=
  mkSnapshot ("snap-" +:+ strokes (handed d)) (eff_id e) "doc" (eff_target e) None (read e d)
    (read e d) 0.
Definition receipt (e : Effect string) (d : Doc) : CommitReceipt string :=
  mkReceipt ("receipt-" +:+ strokes (handed d)) (eff_id e) "doc" 0 None (Some (idempotency_key e)) None "".

Definition doc_classify (q : EffectRequest string) : result EffectClassification :=
  Ok (mkClassification ReversibilityClass.Compensatable IdempotencyClass.IdempotentWithKey
        IsolationRequirement.Staged ExternalityClass.ExternalSystem EffectRisk.Low
        CommitStrategy.ReserveCommit).
Definition doc_prepare (e : Effect string) (d : Doc) : result (PreparedEffect string) * Doc :=
  if bool_decide (fault e = EffectFault.PrepareFailure) then (Err (Sqlite "prepare"), d)
  else
    (h ← scope_hash e;
     Ok (mkPrepared ("prep-" +:+ strokes (handed d)) (eff_id e) "doc" "token" (Some 1000000%Z)
           (mkPreview "" (read e d) (payload e)) (snapshot e d) h []), bump d).
Definition doc_commit (e : Effect string) (p : PreparedEffect string) (d : Doc) :
    result (AdapterCommitOutcome string) * Doc :=
  let d' := write e (payload e) d in
  match fault e with
  | EffectFault.CommitFailureBeforeMutation => (Ok (AdapterNotCommitted "refused"), d)
  | EffectFault.ReservationExpiry => (Err (Sqlite "reservation expired"), d)
  | EffectFault.ResponseLossAfterMutation => (Ok (AdapterUnknown "lost"), d')
  | _ => (Ok (AdapterCommitted (receipt e d)), d')
  end.
Definition doc_discard (e : Effect string) (p : PreparedEffect string) (d : Doc) : result unit * Doc :=
  if bool_decide (fault e = EffectFault.DiscardFailure) then (Err (Sqlite "discard"), d) else (Ok tt, d).
Definition doc_compensate (e : Effect string) (r : CommitReceipt string) (d : Doc) :
    result (CompensationReceipt string) * Doc :=
  (Ok (mkCompensation ("comp-" +:+ strokes (handed d)) (receipt_id r) 0 CompensationStatus.Successful ""),
   write e "restored" d).
Definition doc_reconcile (e : Effect string) (d : Doc) : result (ReconciliationResult string) * Doc :=
  if bool_decide (read e d = payload e) then (Ok (ReconciledCommitted (receipt e d)), bump d)
  else (Ok ReconciledNotCommitted, d).

Definition doc : EffectAdapter string Doc :=
  mkAdapter "doc" ["doc"] (mkAdapterCaps true true true true true true true false) doc_classify
    (fun e d => (Ok (snapshot e d), bump d)) doc_prepare doc_commit doc_discard doc_compensate doc_reconcile.
(** The same document behind an adapter that cannot observe once it committed. *)
Definition blind : EffectAdapter string Doc :=
  mkAdapter "doc" ["doc"] (mkAdapterCaps true true true true true true true false) doc_classify
    (fun e d => if bool_decide (read e d = payload e) then (Err (Sqlite "observe"), d)
                else (Ok (snapshot e d), bump d))
    doc_prepare doc_commit doc_discard doc_compensate doc_reconcile.
Definition blind_registry : EffectAdapterRegistry string Doc := (register registry_new blind).2.
Definition registry : EffectAdapterRegistry string Doc := (register registry_new doc).2.

Definition request (reality : option string) (text : string) (f : EffectFault.t) : EffectRequest string :=
  mkEffectRequest "session" reality (mkAction "action" "edit") EffectKind.Custom
    (mkTarget (if bool_decide (text = "two") then "doc://b" else "doc://a")) Update text None [] f.

Definition realities : gmap string Reality := {["r1" := mkReality None false "git_worktree" false]}.
Definition start : World string unit Doc :=
  mkWorld realities ∅ ∅ ∅ ∅ ∅ ∅ ∅ ∅ ∅ ∅ ∅ ∅ (mkDoc "old" "old" 0) 0.

(** Propose and prepare one effect; its id. *)
Definition staged (reality : option string) (text : string) (f : EffectFault.t) :
    eff (World string unit Doc) string :=
  r ← propose_and_prepare registry (request reality text f) user_context; mret (eff_id r.1).
(** Authorize and commit one effect. *)
Definition committed_run (f : EffectFault.t) : eff (World string unit Doc) (CommitOutcome string) :=
  id ← staged (Some "r1") "new" f;
  a ← authorize CommitAuthority.User [id];
  commit registry id (Some a) user_context.

Example committed_run_commits :
  match committed_run EffectFault.None_ start with
  | (Ok (CommittedOutcome _), w) => page_a (w_external w) = "new" | _ => False end.
Proof. vm_compute. reflexivity. Qed.
Example committed_run_lost :
  match committed_run EffectFault.ResponseLossAfterMutation start with
  | (Ok (UnknownOutcome r), w) => r = "lost" /\ page_a (w_external w) = "new" | _ => False end.
Proof. vm_compute. split; reflexivity. Qed.
End EffectExample.
