(* ===== verification/EffectLogic.v ===== *)
(** What the effect subsystem is reasoned with. A program logic for its operations: the
    invariant of the tables, the relation between the tables before and after, the
    abstract commit protocol they implement, and triples with their rules. And the
    order in which a plan of effects is committed: [topological_order] of
    src/effects/manager.rs returns for every plan, with a linear extension of the
    dependencies exactly when they have no cycle. *)
From S2P Require Import Prelude Worklist EconomicsModel StateError EffectModel EffectAdapter EffectStore.
From S2P Require Import EffectManager.

(** * The abstract commit protocol *)

(** What the outside can tell of an effect. *)
Module Phase.
Inductive t := Planned | Staged | InDoubt | Done | Undone | Broken | Closed.
#[global] Instance eq_dec : EqDecision t.
Proof. solve_decision. Defined.
End Phase.

Definition phase (x : EffectLifecycle.t) : Phase.t :=
  match x with
  | EffectLifecycle.Proposed | EffectLifecycle.Classified | EffectLifecycle.Virtualized => Phase.Planned
  | EffectLifecycle.Prepared => Phase.Staged
  | EffectLifecycle.Unknown => Phase.InDoubt
  | EffectLifecycle.Committed => Phase.Done
  | EffectLifecycle.Compensated => Phase.Undone
  | EffectLifecycle.Failed => Phase.Broken
  | EffectLifecycle.Rejected | EffectLifecycle.Discarded => Phase.Closed
  end.

(** The steps of the protocol on all effects at once. *)
Inductive protocol_step : gmap string Phase.t -> gmap string Phase.t -> Prop :=
  | ps_propose m id : m !! id = None -> protocol_step m (<[id := Phase.Planned]> m)
  | ps_stage m id : m !! id = Some Phase.Planned -> protocol_step m (<[id := Phase.Staged]> m)
  | ps_break m id p : m !! id = Some p -> p ∈ [Phase.Planned; Phase.Staged; Phase.InDoubt] ->
      protocol_step m (<[id := Phase.Broken]> m)
  | ps_close m id p : m !! id = Some p -> p ∈ [Phase.Planned; Phase.Staged; Phase.Broken] ->
      protocol_step m (<[id := Phase.Closed]> m)
  | ps_doubt m id : m !! id = Some Phase.Staged -> protocol_step m (<[id := Phase.InDoubt]> m)
  | ps_commit m id p : m !! id = Some p -> p ∈ [Phase.Staged; Phase.InDoubt] ->
      protocol_step m (<[id := Phase.Done]> m)
  | ps_undo m id : m !! id = Some Phase.Done -> protocol_step m (<[id := Phase.Undone]> m).

(** Every allowed transition is a step of the protocol, or invisible. *)
Lemma allows_protocol m id x y : EffectLifecycle.allows x y = true -> m !! id = Some (phase x) ->
  rtc protocol_step m (<[id := phase y]> m).
Proof.
  intros Ha Hm. destruct (decide (phase x = phase y)) as [He|Hne].
  { rewrite <- He, insert_id by done. apply rtc_refl. }
  apply rtc_once. destruct x, y; try discriminate Ha; cbn in *; try done;
    by econstructor; [eassumption|set_solver] || by econstructor.
Qed.

Section logic.
Context {Value Actor X : Type} {libs : EffectLibs Value} {env : EffectEnv} {host : EffectHost Value Actor}.
#[local] Abbreviation Effect := (Effect Value).
#[local] Abbreviation World := (World Value Actor X).
#[local] Abbreviation eff := (eff World).

Definition abs (w : World) : gmap string Phase.t := (fun e => phase (lifecycle e)) <$> w_effects w.

(** * The invariant *)

Definition count_events (ty : EffectEventType.t) (evs : list EffectEvent) : nat :=
  countb (fun ev => bool_decide (ev_type ev = ty)) evs.

(** The log shows exactly once that an effect was committed, compensated or
    discarded. *)
Definition log_ok (x : EffectLifecycle.t) (evs : list EffectEvent) : Prop :=
  count_events EffectEventType.Committed evs =
    (if decide (x ∈ [EffectLifecycle.Committed; EffectLifecycle.Compensated]) then 1 else 0) /\
  count_events EffectEventType.Compensated evs =
    (if decide (x = EffectLifecycle.Compensated) then 1 else 0) /\
  count_events EffectEventType.Discarded evs =
    (if decide (x = EffectLifecycle.Discarded) then 1 else 0).

(** The events of an effect are its own and numbered from one. *)
Definition numbered (id : string) (evs : list EffectEvent) : Prop :=
  forall i ev, evs !! i = Some ev -> ev_sequence ev = (Z.of_nat i + 1)%Z /\ ev_effect ev = id.

Definition events_of (w : World) (id : string) : list EffectEvent := default [] (w_events w !! id).

Record wf (w : World) : Prop := {
  wf_key : forall id e, w_effects w !! id = Some e -> eff_id e = id;
  wf_owner : forall id, is_Some (w_events w !! id) -> is_Some (w_effects w !! id);
  wf_numbered : forall id, numbered id (events_of w id);
  wf_log : forall id e, w_effects w !! id = Some e -> log_ok (lifecycle e) (events_of w id);
  wf_receipts : forall id, is_Some (w_receipts w !! id) ->
    exists e, w_effects w !! id = Some e /\
      lifecycle e ∈ [EffectLifecycle.Committed; EffectLifecycle.Compensated];
}.

(** * What operations keep *)

(** The fields an authorization is bound to. *)
Definition same_scope (e e' : Effect) : Prop :=
  eff_id e = eff_id e' /\ eff_adapter e = eff_adapter e' /\ eff_kind e = eff_kind e' /\
  eff_target e = eff_target e' /\ operation e = operation e' /\ payload e = payload e' /\
  idempotency_key e = idempotency_key e'.

#[export] Instance same_scope_equiv : Equivalence same_scope.
Proof.
  split.
  - by intros e.
  - intros e e' (?&?&?&?&?&?&?). repeat split; congruence.
  - intros e e' e'' (?&?&?&?&?&?&?) (?&?&?&?&?&?&?). repeat split; congruence.
Qed.

Lemma same_scope_hash e e' : same_scope e e' -> scope_hash e = scope_hash e'.
Proof. intros (H1&H2&H3&H4&H5&H6&H7). unfold scope_hash. by rewrite H1, H2, H3, H4, H5, H6, H7. Qed.

Record kept (w w' : World) : Prop := {
  kp_effects : forall id e, w_effects w !! id = Some e ->
    exists e', w_effects w' !! id = Some e' /\ same_scope e e' /\
      rtc (fun x y => EffectLifecycle.allows x y = true) (lifecycle e) (lifecycle e');
  kp_events : forall id, events_of w id `prefix_of` events_of w' id;
  kp_receipts : w_receipts w ⊆ w_receipts w';
  kp_protocol : rtc protocol_step (abs w) (abs w');
}.

#[export] Instance kept_preorder : PreOrder kept.
Proof.
  split.
  - intros w. split; try done.
    intros id e He. exists e. split_and!; [done|reflexivity|apply rtc_refl].
  - intros w1 w2 w3 [E1 V1 R1 P1] [E2 V2 R2 P2]. split.
    + intros id e He. destruct (E1 id e He) as (e2 & He2 & Hs2 & Hr2).
      destruct (E2 id e2 He2) as (e3 & He3 & Hs3 & Hr3).
      exists e3. split_and!; [done|by etrans|by etrans].
    + intros id. etrans; [apply V1|apply V2].
    + by etrans.
    + by etrans.
Qed.

(** Worlds that agree on the tables the invariant reads. *)
Definition same_books (w w' : World) : Prop :=
  w_effects w' = w_effects w /\ w_events w' = w_events w /\ w_receipts w' = w_receipts w.

#[export] Instance same_books_preorder : PreOrder same_books.
Proof.
  split; [by intros w|]. intros w1 w2 w3 (?&?&?) (?&?&?). split_and!; congruence.
Qed.

Lemma same_books_kept w w' : same_books w w' -> wf w -> wf w' /\ kept w w'.
Proof.
  intros (He & Hv & Hr) [K O N L R]. split.
  - split; unfold events_of in *; rewrite ?He, ?Hv, ?Hr; done.
  - split; unfold events_of, abs; rewrite ?He, ?Hv, ?Hr; try done.
    intros id e Hi. exists e. split_and!; [done|reflexivity|apply rtc_refl].
Qed.

(** * Triples *)

(** From a well-formed world that satisfies [P], [m] keeps the books, and its
    value and final world satisfy [Q] when it succeeds. *)
Definition hoare {A} (P : World -> Prop) (m : eff A) (Q : A -> World -> Prop) : Prop :=
  forall w, wf w -> P w -> wf (m w).2 /\ kept w (m w).2 /\ forall a, (m w).1 = Ok a -> Q a (m w).2.

(** Assertions that no operation falsifies. *)
Class Stable (P : World -> Prop) : Prop :=
  stable : forall w w', kept w w' -> P w -> P w'.

Lemma hoare_conseq {A} (P P' : World -> Prop) (m : eff A) (Q Q' : A -> World -> Prop) :
  (forall w, P w -> P' w) -> (forall a w, Q' a w -> Q a w) -> hoare P' m Q' -> hoare P m Q.
Proof.
  intros HP HQ Hm w Hw Hp. destruct (Hm w Hw (HP w Hp)) as (? & ? & Hq). split_and!; [done|done|].
  intros a Ha. apply HQ. by apply Hq.
Qed.

Lemma hoare_ret {A} (a : A) P : hoare P (mret a) (fun b w => b = a /\ P w).
Proof. intros w Hw Hp. split_and!; [done|reflexivity|]. by intros b [= <-]. Qed.
Lemma hoare_fail {A} e P (Q : A -> World -> Prop) : hoare P (fail e) Q.
Proof. intros w Hw Hp. split_and!; [done|reflexivity|done]. Qed.
Lemma hoare_lift {A} (r : result A) P : hoare P (lift r) (fun a w => r = Ok a /\ P w).
Proof. intros w Hw Hp. split_and!; [done|reflexivity|]. intros a Ha. by split. Qed.
Lemma hoare_ask {A} (f : World -> A) P : hoare P (ask f) (fun a w => a = f w /\ P w).
Proof. intros w Hw Hp. split_and!; [done|reflexivity|]. by intros a [= <-]. Qed.
Lemma hoare_fetch {A} (f : World -> result A) P : hoare P (fetch f) (fun a w => f w = Ok a /\ P w).
Proof. intros w Hw Hp. split_and!; [done|reflexivity|]. intros a Ha. by split. Qed.

Lemma hoare_bind {A B} P (m : eff A) (f : A -> eff B) Q S :
  hoare P m Q -> (forall a, hoare (Q a) (f a) S) -> hoare P (m ≫= f) S.
Proof.
  intros Hm Hf w Hw Hp. destruct (Hm w Hw Hp) as (Hw1 & Hk1 & Hq).
  unfold mbind, eff_bind. destruct (m w) as [[a|e] w1]; cbn in *; [|done].
  destruct (Hf a w1 Hw1 (Hq a eq_refl)) as (? & ? & ?). split_and!; [done|by etrans|done].
Qed.

Lemma hoare_frame {A} P (m : eff A) Q (S : World -> Prop) : Stable S ->
  hoare P m Q -> hoare (fun w => P w /\ S w) m (fun a w => Q a w /\ S w).
Proof.
  intros HS Hm w Hw [Hp Hs]. destruct (Hm w Hw Hp) as (? & Hk & Hq). split_and!; [done|done|].
  intros a Ha. split; [by apply Hq|]. by eapply HS.
Qed.

Lemma hoare_attempt {A} P (m : eff A) Q : hoare P m Q ->
  hoare P (attempt m) (fun r w => match r with Ok a => Q a w | Err _ => True end).
Proof.
  intros Hm w Hw Hp. destruct (Hm w Hw Hp) as (? & ? & Hq). unfold attempt.
  destruct (m w) as [[a|e] w1]; cbn in *; (split_and!; [done|done|]); intros r [= <-]; auto.
Qed.

(** Operations that leave the books alone. *)
Lemma hoare_books {A} (m : eff A) P : (forall w, same_books w (m w).2) -> Stable P ->
  hoare P m (fun _ => P).
Proof.
  intros Hm HP w Hw Hp. destruct (same_books_kept w (m w).2 (Hm w) Hw) as [? Hk].
  split_and!; [done|done|]. intros a _. by eapply HP.
Qed.

(** * Operations that stay within a relation *)

(** Whatever its outcome, [m] relates the world before to the world after. *)
Definition runs_in {A} (R : World -> World -> Prop) (m : eff A) : Prop := forall w, R w (m w).2.

(** Relations that a draw, and the rollback of a transaction, respect. *)
Class Ticking (R : World -> World -> Prop) : Prop := {
  ticking_preorder :: PreOrder R;
  ticking_draw : forall w, R w (with_ticks (S (w_ticks w)) w);
  ticking_rollback : forall w w', R w w' -> R w (with_ticks (w_ticks w') w);
}.
#[export] Instance same_books_ticking : Ticking same_books.
Proof. split; [exact _|by intros w|by intros w w' _]. Qed.

Section runs_in.
Context (R : World -> World -> Prop) `{!Ticking R}.

Lemma runs_ret {A} (a : A) : runs_in R (mret a).
Proof. intros w. reflexivity. Qed.
Lemma runs_fail {A} e : runs_in R (fail e : eff A).
Proof. intros w. reflexivity. Qed.
Lemma runs_lift {A} (r : result A) : runs_in R (lift r).
Proof. intros w. reflexivity. Qed.
Lemma runs_ask {A} (f : World -> A) : runs_in R (ask f).
Proof. intros w. reflexivity. Qed.
Lemma runs_fetch {A} (f : World -> result A) : runs_in R (fetch f).
Proof. intros w. reflexivity. Qed.
Lemma runs_bind {A B} (m : eff A) (f : A -> eff B) :
  runs_in R m -> (forall a, runs_in R (f a)) -> runs_in R (m ≫= f).
Proof.
  intros Hm Hf w. specialize (Hm w). unfold mbind, eff_bind.
  destruct (m w) as [[a|e] w1]; cbn in *; [|done]. specialize (Hf a w1). by etrans.
Qed.
Lemma runs_bind_lift {A B} (r : result A) (f : A -> eff B) :
  (forall a, r = Ok a -> runs_in R (f a)) -> runs_in R (lift r ≫= f).
Proof. intros Hf w. destruct r as [a|e]; [by apply (Hf a)|reflexivity]. Qed.
Lemma runs_attempt {A} (m : eff A) : runs_in R m -> runs_in R (attempt m).
Proof. intros Hm w. specialize (Hm w). unfold attempt. by destruct (m w). Qed.
Lemma runs_modify f : (forall w, R w (f w)) -> runs_in R (modify f).
Proof. intros Hf w. apply Hf. Qed.
Lemma runs_iter {A} (f : A -> eff unit) l : (forall x, runs_in R (f x)) -> runs_in R (eff_iter f l).
Proof. intros Hf. induction l; [apply runs_ret|]. apply runs_bind; auto. Qed.
Lemma runs_map {A B} (f : A -> eff B) l : (forall x, runs_in R (f x)) -> runs_in R (eff_map f l).
Proof.
  intros Hf. induction l; [apply runs_ret|]. apply runs_bind; [apply Hf|intros y].
  apply runs_bind; [apply IHl|intros ys]. apply runs_ret.
Qed.
Lemma runs_transaction {A} (m : eff A) : runs_in R m -> runs_in R (transaction m).
Proof.
  intros Hm w. specialize (Hm w). unfold transaction.
  destruct (m w) as [[a|e] w']; [done|by apply ticking_rollback].
Qed.
Lemma runs_draw {A} (f : nat -> result A) : runs_in R (collab f).
Proof. intros w. apply ticking_draw. Qed.
Lemma runs_now : runs_in R utc_now.
Proof. intros w. apply ticking_draw. Qed.
Lemma runs_id prefix : runs_in R (new_id prefix).
Proof. intros w. apply ticking_draw. Qed.
Lemma runs_external {A} (f : X -> result A * X) : (forall w, R w (with_external (f (w_external w)).2 w)) ->
  runs_in R (external f).
Proof. intros Hf w. specialize (Hf w). unfold external. by destruct (f (w_external w)). Qed.
End runs_in.
End logic.

(** Walk through the text of an operation. *)
Ltac head_of t := lazymatch t with ?f _ => head_of f | _ => t end.
Ltac runs :=
  repeat first
    [ match goal with |- forall _, _ => intros ? end
    | assumption
    | match goal with |- runs_in _ (if ?b then _ else _) => destruct b end
    | match goal with |- runs_in _ (match ?x with _ => _ end) => destruct x eqn:? end
    | apply runs_ret; [exact _] | apply runs_fail; [exact _] | apply runs_lift; [exact _]
    | apply runs_ask; [exact _] | apply runs_fetch; [exact _]
    | match goal with |- runs_in _ (lift _ ≫= _) => apply runs_bind_lift; [exact _|] end
    | apply runs_bind; [exact _| |]
    | apply runs_attempt | apply runs_iter; [exact _|] | apply runs_map; [exact _|]
    | apply runs_transaction; [exact _|] | apply runs_draw; [exact _] | apply runs_now; [exact _]
    | apply runs_id; [exact _]
    | match goal with |- runs_in _ (modify _) => apply runs_modify; intros ? end
    | match goal with |- runs_in _ (external _) => apply runs_external; intros ? end
    | match goal with |- runs_in _ ?m => let h := head_of m in unfold h end ].

Section order.
Context (p : EffectPlan).

(** One member must be committed before another. *)
Definition must_precede (x y : string) : Prop :=
  x ∈ plan_effects p /\ y ∈ plan_effects p /\
  exists d, d ∈ plan_dependencies p /\ dep_before d = x /\ dep_after d = y.
Definition plan_acyclic : Prop := forall x, ~ tc must_precede x x.

(** Every member once, after everything it depends on. *)
Definition commit_order (order : list string) : Prop :=
  NoDup order /\ (forall x, x ∈ order <-> x ∈ plan_effects p) /\
  (forall x y, must_precede x y -> earlier order x y).

Lemma tc_earlier order x y : commit_order order -> tc must_precede x y -> earlier order x y.
Proof.
  intros (Hn & _ & He). induction 1; [by apply He|]. eapply earlier_trans; eauto.
Qed.
Lemma ordered_acyclic order : commit_order order -> plan_acyclic.
Proof. intros Ho x Hx. pose proof (proj1 Ho). by eapply earlier_irreflexive, tc_earlier. Qed.

(** * The loop *)

Lemma ready_spec remaining x : ready p remaining x = true <->
  x ∈ remaining /\ forall d, d ∈ plan_dependencies p -> dep_after d = x -> dep_before d ∉ remaining.
Proof.
  unfold ready. rewrite andb_true_iff, bool_decide_eq_true, negb_true_iff.
  apply and_iff_compat_l. rewrite <- not_true_iff_false, existsb_exists. split.
  - intros Hn d Hd Ha Hb. apply Hn. exists d. rewrite <- list_elem_of_In.
    by rewrite !bool_decide_eq_true_2.
  - intros Hn (d & Hd%list_elem_of_In & [Ha Hb]%andb_true_iff). rewrite !bool_decide_eq_true in Ha, Hb.
    by eapply Hn.
Qed.

(** What the loop knows: [ordered] is the part of the members already placed. *)
Record loop_inv (remaining : gset string) (ordered : list string) : Prop := {
  li_nodup : NoDup ordered;
  li_remaining : forall x, x ∈ remaining -> x ∈ plan_effects p;
  li_placed : forall x, x ∈ ordered <-> x ∈ plan_effects p /\ x ∉ remaining;
  li_earlier : forall x y, must_precede x y -> y ∈ ordered -> earlier ordered x y;
}.

Lemma loop_inv_step remaining ordered x : loop_inv remaining ordered -> ready p remaining x = true ->
  loop_inv (remaining ∖ {[x]}) (ordered ++ [x]).
Proof.
  intros [Hn Hr Hp He] [Hx Hd]%ready_spec. split.
  - apply NoDup_app. split_and!; [done| |apply NoDup_singleton].
    intros y [_ Hy]%Hp ->%list_elem_of_singleton. done.
  - set_solver.
  - intros y. rewrite elem_of_app, list_elem_of_singleton, Hp. pose proof (Hr x Hx).
    destruct (decide (y = x)) as [->|]; set_solver.
  - intros z y Hzy. rewrite elem_of_app, list_elem_of_singleton. intros [Hy| ->].
    + by apply earlier_app, He.
    + destruct Hzy as (Hz & _ & d & Hdin & <- & Ha). apply earlier_snoc. rewrite Hp.
      split; [done|]. by apply Hd.
Qed.

Lemma stuck_cycle remaining ordered : loop_inv remaining ordered -> remaining <> ∅ ->
  List.find (ready p remaining) (plan_effects p) = None -> ~ plan_acyclic.
Proof.
  intros Hi Hne Hf Ha. destruct (blocked_set_cycle (tc must_precede) remaining Hne) as [x Hx];
    [|by apply (Ha x)].
  intros y Hy. pose proof (li_remaining _ _ Hi y Hy) as Hm.
  pose proof (List.find_none _ _ Hf y (proj1 (list_elem_of_In _ _) Hm)) as Hnr.
  unfold ready in Hnr. rewrite bool_decide_eq_true_2 in Hnr by done.
  apply negb_false_iff, existsb_exists in Hnr as (d & Hd%list_elem_of_In & [Hda Hdb]%andb_true_iff).
  rewrite bool_decide_eq_true in Hda. rewrite bool_decide_eq_true in Hdb.
  exists (dep_before d). split; [done|]. apply tc_once. split_and!; [by eapply li_remaining|done|eauto].
Qed.

Lemma order_loop_spec fuel : forall remaining ordered, loop_inv remaining ordered ->
  size remaining <= fuel ->
  (exists order, order_loop p fuel remaining ordered = Ok order /\ commit_order order) \/
  (order_loop p fuel remaining ordered = cycle_error /\ ~ plan_acyclic).
Proof.
  induction fuel as [|fuel IH]; intros remaining ordered Hi Hf; cbn [order_loop]; case_decide as Hr.
  1, 3: left; exists ordered; split; [done|]; destruct Hi as [Hn _ Hp He]; subst remaining;
    split_and!; [done|intros x; rewrite Hp; set_solver|]; intros x y Hxy; apply He; [done|];
    apply Hp; destruct Hxy as (_ & Hy & _); set_solver.
  - exfalso. apply Hr. apply leibniz_equiv, size_empty_iff. lia.
  - destruct (List.find _ _) as [x|] eqn:Hx.
    + apply List.find_some in Hx as [_ Hx]. apply IH; [by apply loop_inv_step|].
      apply ready_spec in Hx as [Hx _]. rewrite size_difference by set_solver.
      rewrite size_singleton. assert (size remaining <> 0) by (by intros ?%size_empty_iff%leibniz_equiv). lia.
    + right. split; [done|]. by eapply stuck_cycle.
Qed.

Lemma topological_order_verdict :
  (exists order, topological_order p = Ok order /\ commit_order order) \/
  (topological_order p = cycle_error /\ ~ plan_acyclic).
Proof.
  apply order_loop_spec; [|done].
  split; [apply NoDup_nil_2|set_solver|set_solver|set_solver].
Qed.
Lemma topological_order_sound order : topological_order p = Ok order -> commit_order order.
Proof. destruct topological_order_verdict as [(? & -> & ?)|[-> _]]; [by intros [= <-]|done]. Qed.
Lemma commit_order_length order : NoDup (plan_effects p) -> commit_order order ->
  length order = length (plan_effects p).
Proof. intros Hp (Hn & He & _). by apply Permutation_length, NoDup_Permutation. Qed.

(** C4. Ordering a plan always terminates with a verdict: when no member of the
    plan transitively depends on itself, with an order in which every member
    occurs exactly once and after everything it depends on; when one does, with
    the error of a cyclic plan. *)
Theorem topological_order_correct :
  (plan_acyclic -> exists order, topological_order p = Ok order /\ commit_order order) /\
  (~ plan_acyclic -> topological_order p = Err (InvalidInput "Effect plan contains a cycle")) /\
  (plan_acyclic \/ ~ plan_acyclic).
Proof.
  destruct topological_order_verdict as [(order & Ho & Hc)|[He Hn]].
  - pose proof (ordered_acyclic order Hc) as Ha. split_and!; [eauto|done|by left].
  - split_and!; [done|by intros _|by right].
Qed.
End order.

(** * A plan of four effects *)
Module EffectOrderExamples.
Definition diamond : EffectPlan := mkPlan "plan" ["d"; "b"; "c"; "a"]
  [mkDependency "a" "b"; mkDependency "a" "c"; mkDependency "b" "d"; mkDependency "c" "d"]
  EffectAtomicity.BestEffortGroup 0.
Definition knot : EffectPlan := mkPlan "plan" ["a"; "b"; "c"]
  [mkDependency "b" "c"; mkDependency "c" "b"] EffectAtomicity.BestEffortGroup 0.
Example diamond_order : topological_order diamond = Ok ["a"; "b"; "c"; "d"].
Proof. vm_compute. reflexivity. Qed.
Example knot_refused : topological_order knot = cycle_error.
Proof. vm_compute. reflexivity. Qed.
End EffectOrderExamples.
