(* ===== verification/EffectFacts.v ===== *)
(** What every operation of the effect store and the effect manager keeps: one
    triple per operation, from the two ways the books change (a row and its
    event advance together, or a fresh row appears with its first event). *)
From S2P Require Import Prelude StateError EconomicsModel EffectModel EffectAdapter EffectStore EffectManager.
From S2P Require Import EffectLogic.

Section facts.
Context {Value Actor X : Type} {libs : EffectLibs Value} {env : EffectEnv} {host : EffectHost Value Actor}.
#[local] Abbreviation Effect := (Effect Value).
#[local] Abbreviation World := (World Value Actor X).
#[local] Abbreviation eff := (eff World).
#[local] Abbreviation quiet := (runs_in (Value := Value) (Actor := Actor) (X := X) same_books).

(** * Runs that succeed *)

Lemma update_effect_Ok previous (e : Effect) text (w : World) u (w' : World) :
  update_effect previous e text w = (Ok u, w') ->
  exists r, w_effects w !! eff_id e = Some r /\ lifecycle r = previous /\
    w' = with_effects (<[eff_id e := e]> (w_effects w)) w.
Proof.
  intros (row & w1 & [= <- <-] & H)%bind_Ok. case_match eqn:Hr; [|done].
  case_bool_decide; [|done]. injection H as <- <-. eauto.
Qed.

Lemma insert_effect_event_Ok (e : Effect) ty evidence (w : World) ev (w' : World) :
  insert_effect_event e ty evidence w = (Ok ev, w') ->
  exists r id at_, w_effects w !! eff_id e = Some r /\
    ev = mkEvent id (eff_id e) (next_event_sequence (eff_id e) w) ty at_ evidence /\
    w' = with_events (<[eff_id e := events_of w (eff_id e) ++ [ev]]> (w_events w))
           (with_ticks (S (S (w_ticks w))) w).
Proof.
  intros (id & w1 & [= <- <-] & H)%bind_Ok. apply bind_Ok in H as (seq & w2 & [= <- <-] & H).
  apply bind_Ok in H as (at_ & w3 & [= <- <-] & H).
  apply bind_Ok in H as (row & w4 & [= <- <-] & H).
  case_bool_decide; [done|]. cbn in H. case_match eqn:Hr; [|done].
  apply bind_Ok in H as (? & w5 & [= <- <-] & [= <- <-]). eauto 10.
Qed.

(** * How the books change *)

(** The sequence number of the next event is the length of the log plus one. *)
Lemma next_sequence_length (w : World) id : numbered id (events_of w id) ->
  next_event_sequence id w = (Z.of_nat (length (events_of w id)) + 1)%Z.
Proof.
  unfold next_event_sequence. fold (events_of w id). generalize (events_of w id) as evs.
  intros evs. induction evs as [|ev evs IH] using rev_ind; intros Hn; [done|].
  rewrite length_app, fmap_app, foldr_app. cbn [length fmap list_fmap foldr].
  destruct (Hn (length evs) ev) as [Hs _]; [by rewrite lookup_app_r, Nat.sub_diag by lia|].
  assert (Hn' : numbered id evs) by (intros i x Hx; apply Hn; by apply lookup_app_l_Some).
  specialize (IH Hn'). rewrite Hs.
  assert (Hf : forall (l : list Z) z, (0 <= z)%Z ->
            foldr Z.max z l = Z.max (foldr Z.max 0%Z l) z).
  { clear. induction l as [|x l IHl]; intros z Hz; cbn; [lia|]. rewrite IHl by done. lia. }
  rewrite Hf by lia. lia.
Qed.

Lemma numbered_app id evs ev : numbered id evs ->
  ev_sequence ev = (Z.of_nat (length evs) + 1)%Z -> ev_effect ev = id -> numbered id (evs ++ [ev]).
Proof.
  intros Hn Hs He i x [Hx|[Hi Hx]]%lookup_app_Some; [by apply Hn|].
  destruct (i - length evs) eqn:Hd; [|done]. injection Hx as <-.
  replace i with (length evs) by lia. done.
Qed.

Lemma count_events_app ty evs ev :
  count_events ty (evs ++ [ev]) = count_events ty evs + (if decide (ev_type ev = ty) then 1 else 0).
Proof.
  unfold count_events. rewrite countb_app, countb_cons, countb_nil.
  case_bool_decide; case_decide; by rewrite ?Nat.add_0_r.
Qed.

(** Events that witness a lifecycle, and events that witness none. *)
Definition consistent (next : EffectLifecycle.t) (ty : EffectEventType.t) : bool :=
  bool_decide (ty = EffectEventType.Committed <-> next = EffectLifecycle.Committed) &&
  bool_decide (ty = EffectEventType.Compensated <-> next = EffectLifecycle.Compensated) &&
  bool_decide (ty = EffectEventType.Discarded <-> next = EffectLifecycle.Discarded).
Definition neutral (ty : EffectEventType.t) : bool :=
  bool_decide (ty ∉ [EffectEventType.Committed; EffectEventType.Compensated; EffectEventType.Discarded]).
Definition advances (x y : EffectLifecycle.t) (ty : EffectEventType.t) : bool :=
  (EffectLifecycle.allows x y && consistent y ty) || (bool_decide (x = y) && neutral ty).

Lemma log_ok_advances x y evs ev : advances x y (ev_type ev) = true ->
  log_ok x evs -> log_ok y (evs ++ [ev]).
Proof.
  unfold log_ok. rewrite !count_events_app. intros Ha (-> & -> & ->).
  destruct x, y, (ev_type ev); try discriminate Ha; split_and!; reflexivity.
Qed.

Lemma advances_finished x y ty : advances x y ty = true ->
  x ∈ [EffectLifecycle.Committed; EffectLifecycle.Compensated] ->
  y ∈ [EffectLifecycle.Committed; EffectLifecycle.Compensated].
Proof.
  intros Ha [->|[->|[]%not_elem_of_nil]%elem_of_cons]%elem_of_cons;
    destruct y; try (by destruct ty); by repeat constructor.
Qed.

Lemma advances_reach x y ty : advances x y ty = true ->
  rtc (fun x y => EffectLifecycle.allows x y = true) x y.
Proof.
  intros [[Ha _]%andb_true_iff|[->%bool_decide_eq_true _]%andb_true_iff]%orb_true_iff.
  - by apply rtc_once.
  - apply rtc_refl.
Qed.

Lemma abs_insert (w w' : World) id e :
  w_effects w' = <[id := e]> (w_effects w) -> abs w' = <[id := phase (lifecycle e)]> (abs w).
Proof. unfold abs. intros ->. by rewrite fmap_insert. Qed.

Lemma advances_protocol (w w' : World) id r e ty :
  w_effects w !! id = Some r -> w_effects w' = <[id := e]> (w_effects w) ->
  advances (lifecycle r) (lifecycle e) ty = true -> rtc protocol_step (abs w) (abs w').
Proof.
  intros Hr He Ha. rewrite (abs_insert w w' id e He).
  assert (Hl : abs w !! id = Some (phase (lifecycle r))) by (unfold abs; by rewrite lookup_fmap, Hr).
  apply orb_true_iff in Ha as [[Ha _]%andb_true_iff|[Ha _]%andb_true_iff].
  - by apply allows_protocol with (lifecycle r).
  - apply bool_decide_eq_true in Ha. rewrite <- Ha, insert_id by done. apply rtc_refl.
Qed.

Lemma events_of_insert (w w' : World) id evs j :
  w_events w' = <[id := evs]> (w_events w) ->
  events_of w' j = if decide (j = id) then evs else events_of w j.
Proof. unfold events_of. intros ->. case_decide; [subst; by rewrite lookup_insert_eq|by rewrite lookup_insert_ne]. Qed.

(** The receipts after a step: the same, or one more for an effect that is
    now committed. *)
Definition receipts_advance (w w' : World) (e : Effect) : Prop :=
  w_receipts w' = w_receipts w \/
  (lifecycle e = EffectLifecycle.Committed /\
   exists x, w_receipts w !! eff_id e = None /\ w_receipts w' = <[eff_id e := x]> (w_receipts w)).

(** A row and its log advance together. *)
Lemma advance_books (w w' : World) r e ev : wf w ->
  w_effects w !! eff_id e = Some r -> same_scope r e ->
  advances (lifecycle r) (lifecycle e) (ev_type ev) = true ->
  ev_sequence ev = next_event_sequence (eff_id e) w -> ev_effect ev = eff_id e ->
  w_effects w' = <[eff_id e := e]> (w_effects w) ->
  w_events w' = <[eff_id e := events_of w (eff_id e) ++ [ev]]> (w_events w) ->
  receipts_advance w w' e -> wf w' /\ kept w w'.
Proof.
  intros [K O N L R] Hr Hs Ha Hq Hi He Hv Hc. pose proof (fun j => events_of_insert w w' _ _ j Hv) as Ho.
  rewrite next_sequence_length in Hq by apply N. split; split.
  - intros j x. rewrite He. intros [[<- <-]|[? ?]]%lookup_insert_Some; eauto.
  - intros j. rewrite Hv, He, !lookup_insert_is_Some'. intros [->|Hj]; auto.
  - intros j. rewrite Ho. case_decide as Hd; [subst j; by apply numbered_app|apply N].
  - intros j x. rewrite He, Ho. intros [[<- <-]|[? ?]]%lookup_insert_Some.
    + rewrite decide_True by done. eapply log_ok_advances; eauto.
    + rewrite decide_False by done. eauto.
  - intros j. rewrite He. destruct Hc as [->|(Hl & x & Hn & ->)].
    + intros (q & Hq' & Hl)%R. destruct (decide (j = eff_id e)) as [->|Hne].
      * exists e. rewrite lookup_insert_eq. split; [done|]. simplify_eq.
        by eapply advances_finished.
      * exists q. by rewrite lookup_insert_ne.
    + intros [->|Hj]%lookup_insert_is_Some'.
      * exists e. rewrite lookup_insert_eq, Hl. split; [done|set_solver].
      * destruct (R j Hj) as (q & Hq' & Hlq). destruct (decide (j = eff_id e)) as [->|Hne].
        -- exists e. rewrite lookup_insert_eq, Hl. split; [done|set_solver].
        -- exists q. by rewrite lookup_insert_ne.
  - intros j x Hx. rewrite He. destruct (decide (j = eff_id e)) as [->|Hne].
    + exists e. rewrite lookup_insert_eq. simplify_eq.
      split_and!; [done|done|by eapply advances_reach].
    + exists x. rewrite lookup_insert_ne by done. split_and!; [done|reflexivity|apply rtc_refl].
  - intros j. rewrite Ho. case_decide; [subst; by eexists|done].
  - destruct Hc as [->|(_ & x & Hn & ->)]; [done|by apply insert_subseteq].
  - by eapply advances_protocol.
Qed.

(** A fresh row appears with its first event. *)
Lemma propose_books (w w' : World) e ev : wf w -> w_effects w !! eff_id e = None ->
  lifecycle e = EffectLifecycle.Proposed -> ev_type ev = EffectEventType.Proposed ->
  ev_sequence ev = next_event_sequence (eff_id e) w -> ev_effect ev = eff_id e ->
  w_effects w' = <[eff_id e := e]> (w_effects w) ->
  w_events w' = <[eff_id e := events_of w (eff_id e) ++ [ev]]> (w_events w) ->
  w_receipts w' = w_receipts w -> wf w' /\ kept w w'.
Proof.
  intros [K O N L R] Hr Hl Ht Hq Hi He Hv Hc.
  pose proof (fun j => events_of_insert w w' _ _ j Hv) as Ho.
  assert (Hnil : events_of w (eff_id e) = []).
  { unfold events_of. destruct (w_events w !! eff_id e) eqn:Hev; [|done].
    destruct (O (eff_id e)) as [? ?]; [by eexists|congruence]. }
  rewrite next_sequence_length in Hq by apply N. rewrite Hnil in Ho. split; split.
  - intros j x. rewrite He. intros [[<- <-]|[? ?]]%lookup_insert_Some; eauto.
  - intros j. rewrite Hv, He, !lookup_insert_is_Some'. intros [->|Hj]; auto.
  - intros j. rewrite Ho. case_decide as Hd; [|apply N]. subst j.
    apply numbered_app; [done| |done]. by rewrite Hq, Hnil.
  - intros j x. rewrite He, Ho. intros [[<- <-]|[? ?]]%lookup_insert_Some.
    + rewrite decide_True, Hl by done. unfold log_ok, count_events.
      cbn [app]. rewrite !countb_cons, countb_nil, Ht. split_and!; reflexivity.
    + rewrite decide_False by done. eauto.
  - intros j. rewrite He, Hc. intros (q & Hq' & Hlq)%R. exists q.
    rewrite lookup_insert_ne; [done|congruence].
  - intros j x Hx. rewrite He. exists x. rewrite lookup_insert_ne by congruence.
    split_and!; [done|reflexivity|apply rtc_refl].
  - intros j. rewrite Ho. case_decide; [subst; rewrite Hnil; apply prefix_nil|done].
  - by rewrite Hc.
  - rewrite (abs_insert w w' _ e He), Hl. apply rtc_once, ps_propose.
    unfold abs. by rewrite lookup_fmap, Hr.
Qed.

(** * Assertions and rules *)

(** The effect has a row with the same scope. *)
Definition known (e : Effect) (w : World) : Prop :=
  exists r, w_effects w !! eff_id e = Some r /\ same_scope r e.

#[export] Instance known_stable e : Stable (known e).
Proof.
  intros w w' [E _ _ _] (r & Hr & Hs). destruct (E _ _ Hr) as (r' & Hr' & Hs' & _).
  exists r'. split; [done|]. by rewrite <- Hs'.
Qed.
#[export] Instance prop_stable (phi : Prop) : Stable (fun _ : World => phi).
Proof. by intros w w' _. Qed.
#[export] Instance and_stable (P Q : World -> Prop) :
  Stable P -> Stable Q -> Stable (fun w => P w /\ Q w).
Proof. intros HP HQ w w' Hk [? ?]. split; [by eapply HP|by eapply HQ]. Qed.

(** The effect is committed, and compensated at most. *)
Definition finished (id : string) (w : World) : Prop :=
  exists e, w_effects w !! id = Some e /\
    lifecycle e ∈ [EffectLifecycle.Committed; EffectLifecycle.Compensated].

#[export] Instance finished_stable id : Stable (finished id).
Proof.
  intros w w' [E _ _ _] (e & He & Hl). destruct (E _ _ He) as (e' & He' & _ & Hr).
  exists e'. split; [done|]. clear -Hl Hr. induction Hr as [|x y z Hs _ IH]; [done|].
  apply IH. destruct x, y; try discriminate Hs; try set_solver.
  all: exfalso; revert Hl; rewrite list_elem_of_In; cbn; intuition discriminate.
Qed.

#[export] Instance Forall_stable {A} (Q : A -> World -> Prop) l :
  (forall x, Stable (Q x)) -> Stable (fun w => Forall (fun x => Q x w) l).
Proof. intros HQ w w' Hk Hl. eapply Forall_impl; [exact Hl|]. intros x. by apply HQ. Qed.

Lemma known_same_scope e e' w : same_scope e e' -> known e w -> known e' w.
Proof.
  intros Hs (r & Hr & Hrs). pose proof (proj1 Hs) as Hi. exists r. rewrite <- Hi.
  split; [done|by etrans].
Qed.

Lemma hoare_pure {A} (phi : Prop) P (m : eff A) Q :
  (phi -> hoare P m Q) -> hoare (fun w => phi /\ P w) m Q.
Proof. intros Hm w Hw [Hphi Hp]. by apply Hm. Qed.

Lemma hoare_weaken {A} P (m : eff A) Q Q' :
  (forall a w, Q' a w -> Q a w) -> hoare P m Q' -> hoare P m Q.
Proof. intros HQ. by apply hoare_conseq. Qed.

Lemma hoare_pre {A} P P' (m : eff A) Q : (forall w, P w -> P' w) -> hoare P' m Q -> hoare P m Q.
Proof. intros HP. by apply hoare_conseq. Qed.

(** What an operation tells of its value, over a precondition that stays. *)
Definition triple {A} (P : World -> Prop) (m : eff A) (phi : A -> World -> Prop) : Prop :=
  hoare P m (fun a w => phi a w /\ P w).

Lemma triple_bind {A B} P (m : eff A) (f : A -> eff B) phi Q :
  triple P m phi -> (forall a, hoare (fun w => phi a w /\ P w) (f a) Q) -> hoare P (m ≫= f) Q.
Proof. apply hoare_bind. Qed.

Lemma triple_books {A} P (m : eff A) : Stable P -> (forall w, same_books w (m w).2) ->
  triple P m (fun _ _ => True).
Proof. intros HP Hm. eapply hoare_weaken, hoare_books; [by intros|done|done]. Qed.

(** A transaction is judged by its successful runs. *)
Lemma transaction_triple {A} P (m : eff A) (phi : A -> World -> Prop) : Stable P ->
  (forall w a w', wf w -> P w -> m w = (Ok a, w') -> (wf w' /\ kept w w') /\ phi a w') ->
  triple P (transaction m) phi.
Proof.
  intros HP Hm w Hw Hp. unfold transaction. destruct (m w) as [[a|e] w'] eqn:Hr; cbn.
  - destruct (Hm w a w' Hw Hp Hr) as ((? & Hk) & Hq). split_and!; [done|done|].
    intros b [= <-]. split; [done|by eapply HP].
  - destruct (same_books_kept w (with_ticks (w_ticks w') w)) as [??]; [done|done|]. by split_and!.
Qed.

(** * The store *)

(** Undo the binds of a successful run. *)
#[local] Ltac run_inv H :=
  repeat match type of H with
  | (_ ≫= _) ?w = (Ok _, _) =>
      let a := fresh "a" in let w1 := fresh "w" in let Hm := fresh "Hm" in
      apply bind_Ok in H as (a & w1 & Hm & H)
  | (if ?b then _ else _) _ = (Ok _, _) => destruct b eqn:?; [try discriminate H|try discriminate H]
  end.

(** An event that witnesses no lifecycle. *)
Lemma log_Ok e ty evidence (w w1 : World) ev w' : wf w -> known e w -> neutral ty = true ->
  same_books w w1 -> insert_effect_event e ty evidence w1 = (Ok ev, w') -> wf w' /\ kept w w'.
Proof.
  intros Hw (r & Hr & Hs) Ht (He & Hv & Hc) H. pose proof (wf_key _ Hw _ _ Hr) as Hi.
  apply insert_effect_event_Ok in H as (r' & id & at_ & Hr' & -> & ->). rewrite <- Hi in *.
  apply advance_books with (r := r) (e := r) (ev := mkEvent id (eff_id r)
    (next_event_sequence (eff_id r) w) ty at_ evidence); cbn; try done.
  - unfold advances. rewrite Ht, bool_decide_eq_true_2 by done. by rewrite orb_true_r.
  - by rewrite He, insert_id.
  - unfold events_of; cbn. rewrite Hv. do 4 f_equal. unfold next_event_sequence; cbn. by rewrite Hv.
  - by left.
Qed.

Lemma append_event_triple P e ty : Stable P -> (forall w, P w -> known e w) -> neutral ty = true ->
  triple P (append_effect_event e ty) (fun _ _ => True).
Proof.
  intros HP Hk Ht. apply transaction_triple; [done|]. intros w ev w' Hw Hp H.
  split; [|done]. eapply log_Ok; eauto. done.
Qed.

(** The pair of statements every transition ends with. *)
Lemma update_and_log_Ok e e' ty evidence text w w1 a ev w' (x : EffectLifecycle.t) :
  wf w -> known e w -> same_scope e e' -> advances x (lifecycle e') ty = true ->
  w_effects w1 = w_effects w -> w_events w1 = w_events w -> receipts_advance w w1 e' ->
  update_effect x e' text w1 = (Ok a, w') ->
  forall w'', insert_effect_event e' ty evidence w' = (Ok ev, w'') -> wf w'' /\ kept w w''.
Proof.
  intros Hw (r & Hr & Hs) Hs' Ha He Hv Hrc Hu w'' Hi.
  apply update_effect_Ok in Hu as (r' & Hr' & <- & ->).
  apply insert_effect_event_Ok in Hi as (r2 & id & at_ & Hr2 & -> & ->).
  rewrite He in Hr'. assert (eff_id e = eff_id e') as Hid by apply Hs'.
  assert (r' = r) as -> by congruence.
  apply advance_books with (r := r) (e := e') (ev := mkEvent id (eff_id e')
    (next_event_sequence (eff_id e') w) ty at_ evidence); cbn; try done.
  - by etrans.
  - by rewrite He.
  - unfold events_of; cbn. rewrite Hv. do 4 f_equal. unfold next_event_sequence; cbn. by rewrite Hv.
Qed.

Lemma set_classification_scope k (e : Effect) : same_scope e (set_classification k e).
Proof. done. Qed.

Lemma advances_step x y ty : EffectLifecycle.allows x y = true -> consistent y ty = true ->
  advances x y ty = true.
Proof. unfold advances. by intros -> ->. Qed.

Lemma update_and_log_finished (e : Effect) x ty evidence text (w : World) a w' ev w'' :
  update_effect x (set_lifecycle EffectLifecycle.Committed e) text w = (Ok a, w') ->
  insert_effect_event (set_lifecycle EffectLifecycle.Committed e) ty evidence w' = (Ok ev, w'') ->
  finished (eff_id e) w''.
Proof.
  intros (r & _ & _ & ->)%update_effect_Ok (r' & id & at_ & _ & -> & ->)%insert_effect_event_Ok.
  exists (set_lifecycle EffectLifecycle.Committed e). cbn. rewrite lookup_insert_eq.
  split; [done|]. apply list_elem_of_here.
Qed.

Lemma set_lifecycle_scope x (e : Effect) : same_scope e (set_lifecycle x e).
Proof. done. Qed.

Lemma transition_triple P e next ty : Stable P -> (forall w, P w -> known e w) ->
  consistent next ty = true ->
  triple P (transition_effect e next ty) (fun e' _ => e' = set_lifecycle next e).
Proof.
  intros HP Hk Hc. unfold transition_effect. destruct (EffectLifecycle.allows _ _) eqn:Ha; cbn [negb];
    [|by apply hoare_fail].
  apply transaction_triple; [done|]. intros w e' w' Hw Hp H. run_inv H. injection H as <- <-.
  split; [|done]. eapply update_and_log_Ok; eauto; try done; [by apply advances_step|by left].
Qed.

(** Statements that leave the books alone. *)
Lemma insert_snapshot_books (e : Effect) ph s : quiet (insert_snapshot e ph s).
Proof. unfold insert_snapshot. by runs. Qed.
Lemma insert_external_snapshot_books (e : Effect) ph s :
  quiet (insert_external_snapshot e ph s).
Proof. unfold insert_external_snapshot. by runs. Qed.
Lemma insert_prepared_books p : quiet (insert_prepared p).
Proof. unfold insert_prepared. by runs. Qed.
Lemma insert_commit_authorization_books a : quiet (insert_commit_authorization a).
Proof. unfold insert_commit_authorization. runs. by case_match. Qed.
Lemma insert_reconciliation_attempt_books a :
  quiet (insert_reconciliation_attempt a).
Proof. unfold insert_reconciliation_attempt. by runs. Qed.
Lemma insert_effect_plan_books p : quiet (insert_effect_plan p).
Proof. unfold insert_effect_plan. by runs. Qed.
Lemma insert_effect_group_books g : quiet (insert_effect_group g).
Proof. unfold insert_effect_group. by runs. Qed.
Lemma ensure_effect_ledger_books r : quiet (ensure_effect_ledger r).
Proof. unfold ensure_effect_ledger. by runs. Qed.

Lemma runs_end {A} (R : World -> World -> Prop) (m : eff A) w r w' :
  runs_in R m -> m w = (r, w') -> R w w'.
Proof. intros Hm Hr. specialize (Hm w). by rewrite Hr in Hm. Qed.

Lemma insert_effect_triple P e : Stable P ->
  triple P (insert_effect e) (fun _ => known e).
Proof.
  intros HP. unfold insert_effect. destruct (_ || _) eqn:Hg; [by apply hoare_fail|].
  apply orb_false_iff in Hg as [Hl%negb_false_iff _]. apply bool_decide_eq_true in Hl.
  apply transaction_triple; [done|]. intros w u w' Hw Hp H. run_inv H.
  apply fetch_Ok in Hm0 as [Hm0 ->]. injection Hm as _ <-. injection Hm1 as _ <-.
  injection H as _ <-. unfold insert_key in Hm0. case_match eqn:Hn; [done|]. injection Hm0 as <-.
  apply insert_effect_event_Ok in Hm2 as (r & id & at_ & Hr & -> & ->). split.
  - eapply propose_books with (e := e); eauto; done.
  - exists e. cbn. by rewrite lookup_insert_eq.
Qed.

Lemma save_prepared_effect_triple P e p : Stable P -> (forall w, P w -> known e w) ->
  triple P (save_prepared_effect e p) (fun e' _ => e' = set_lifecycle EffectLifecycle.Prepared e).
Proof.
  intros HP Hk. unfold save_prepared_effect.
  destruct (EffectLifecycle.allows _ _) eqn:Ha; cbn [negb]; [|by apply hoare_fail].
  apply transaction_triple; [done|]. intros w e' w' Hw Hp H. run_inv H. injection H as <- <-.
  split; [|done]. apply runs_end with (R := same_books) in Hm; [|apply insert_prepared_books].
  apply runs_end with (R := same_books) in Hm0; [|apply insert_snapshot_books].
  assert (same_books w w1) as (? & ? & ?) by (by etrans).
  eapply update_and_log_Ok with (w1 := w1); eauto; try done; [by apply advances_step|by left].
Qed.

(** INSERT OR IGNORE adds at most the row of the effect. *)
Lemma insert_receipt_end id r (w : World) u (w' : World) : insert_receipt id r w = (u, w') ->
  w_effects w' = w_effects w /\ w_events w' = w_events w /\
  (w_receipts w' = w_receipts w \/
   exists x, w_receipts w !! id = None /\ w_receipts w' = <[id := x]> (w_receipts w)).
Proof.
  unfold insert_receipt, modify. intros [= <- <-]. destruct (_ || _) eqn:Hg; cbn; [by auto|].
  apply orb_false_iff in Hg as [Hn _]. rewrite bool_decide_eq_false, <- eq_None_not_Some in Hn.
  split_and!; eauto.
Qed.

Lemma save_commit_receipt_triple P e r s actor : Stable P -> (forall w, P w -> known e w) ->
  triple P (save_commit_receipt e r s actor)
    (fun e' w => e' = set_lifecycle EffectLifecycle.Committed e /\ finished (eff_id e) w).
Proof.
  intros HP Hk. unfold save_commit_receipt.
  destruct (EffectLifecycle.allows _ _) eqn:Ha; cbn [negb]; [|by apply hoare_fail].
  apply transaction_triple; [done|]. intros w e' w' Hw Hp H. run_inv H. injection H as <- <-.
  split; [|split; [done|by eapply update_and_log_finished]]. apply insert_receipt_end in Hm as (He & Hv & Hc).
  apply runs_end with (R := same_books) in Hm0; [|destruct actor; by runs].
  apply runs_end with (R := same_books) in Hm1; [|apply insert_snapshot_books].
  assert (same_books w0 w2) as (Ee & Ev & Er) by (by etrans).
  eapply update_and_log_Ok with (w1 := w2); eauto; try done; [by apply advances_step|congruence..|].
  unfold receipts_advance. rewrite Er. destruct Hc as [?|?]; [by left|by right].
Qed.

Lemma save_compensation_receipt_triple P e r : Stable P -> (forall w, P w -> known e w) ->
  triple P (save_compensation_receipt e r) (fun e' _ => same_scope e e').
Proof.
  intros HP Hk. apply transaction_triple; [done|]. intros w e' w' Hw Hp H.
  apply bind_Ok in H as (kn & w1 & [= <- <-] & H). run_inv H.
  all: apply fetch_Ok in Hm as [_ ->]; injection Hm0 as _ <-.
  - cbv zeta in H. run_inv H. injection H as <- <-. split; [|done]. apply negb_false_iff in Heqb0.
    eapply update_and_log_Ok with (e := e); [..|exact Hm|exact Hm0]; try done;
      [by apply Hk|by apply advances_step|by left].
  - injection H as <- <-. split; [|done].
    eapply log_Ok; [..|exact Hm1]; auto. done.
Qed.

Lemma effect_triple P id : Stable P -> triple P (effect id) (fun e w => eff_id e = id /\ known e w).
Proof.
  intros HP w Hw Hp. split_and!; [done|reflexivity|]. cbn. intros e.
  unfold ok_or. case_match eqn:He; [intros [= <-]|done]. pose proof (wf_key _ Hw _ _ He) as Hi.
  split; [|done]. split; [done|]. exists e0. by rewrite Hi.
Qed.

Lemma detach_prepared_effect_triple P id : Stable P ->
  triple P (detach_prepared_effect id) (fun _ _ => True).
Proof.
  intros HP. unfold detach_prepared_effect. eapply triple_bind; [by apply effect_triple|].
  intros e. destruct (bool_decide _) eqn:Hl; cbn [negb]; [|by apply hoare_fail].
  eapply triple_bind; [apply triple_books; [exact _|by runs]|]. intros lid.
  eapply triple_bind; [apply triple_books; [exact _|by runs]|]. intros at_. cbv zeta.
  eapply hoare_weaken; [|apply transaction_triple with (phi := fun _ _ => True); [exact _|]]; cbn.
  { by intros a w (_ & _ & _ & _ & Hp). }
  intros w e' w' Hw (_ & _ & [_ Hk] & Hp) H. split; [|done]. run_inv H. injection H as _ <-.
  apply fetch_Ok in Hm as [_ ->]. injection Hm0 as _ <-.
  eapply update_and_log_Ok with (e := e); [..|exact Hm1|exact Hm2]; try done; [|by left].
  apply bool_decide_eq_true in Hl. cbn. by rewrite Hl.
Qed.

(** * The manager *)

Lemma triple_post {A} P (m : eff A) phi : triple P m phi -> hoare P m phi.
Proof. apply hoare_weaken. by intros a w [? _]. Qed.
Lemma triple_drop {A} P (m : eff A) phi : triple P m phi -> hoare P m (fun _ _ => True).
Proof. by apply hoare_weaken. Qed.
Lemma hoare_ret_post {A} P (a : A) (Q : A -> World -> Prop) :
  (forall w, P w -> Q a w) -> hoare P (mret a) Q.
Proof. intros HQ. eapply hoare_weaken, hoare_ret. intros b w [-> Hp]. auto. Qed.
Lemma triple_quiet {A} P (m : eff A) phi : Stable P -> quiet m ->
  (forall a w, phi a w) -> triple P m phi.
Proof. intros HP Hm Hphi. eapply hoare_weaken, triple_books; [|done|done]. by intros a w [_ ?]. Qed.
Lemma attempt_triple {A} P (m : eff A) phi : Stable P -> triple P m phi ->
  triple P (attempt m) (fun _ _ => True).
Proof.
  intros HP Hm w Hw Hp. destruct (Hm w Hw Hp) as (? & Hk & _). unfold attempt.
  destruct (m w) as [r w1]; cbn in *. split_and!; [done|done|]. intros a _. split; [done|]. by eapply HP.
Qed.
(** The books are kept, whatever the value. *)
Definition keeps {A} (m : eff A) : Prop := hoare (fun _ => True) m (fun _ _ => True).

Lemma hoare_triple {A} P (m : eff A) : Stable P -> hoare P m (fun _ _ => True) ->
  triple P m (fun _ _ => True).
Proof.
  intros HP Hm w Hw Hp. destruct (Hm w Hw Hp) as (? & Hk & _). split_and!; [done|done|].
  intros a _. split; [done|]. by eapply HP.
Qed.
Lemma keeps_triple {A} P (m : eff A) : Stable P -> keeps m -> triple P m (fun _ _ => True).
Proof. intros HP Hm. apply hoare_triple; [done|]. by apply hoare_conseq with (fun _ => True) (fun _ _ => True). Qed.
Lemma keeps_hoare {A} P (m : eff A) : keeps m -> hoare P m (fun _ _ => True).
Proof. by apply hoare_conseq. Qed.
Lemma hoare_exists {A T} (P : T -> World -> Prop) (m : eff A) Q :
  (forall x, hoare (P x) m Q) -> hoare (fun w => exists x, P x w) m Q.
Proof. intros Hm w Hw [x Hp]. by apply (Hm x). Qed.
Lemma lift_triple {A} P (r : result A) : triple P (lift r) (fun a _ => r = Ok a).
Proof. apply hoare_lift. Qed.
Lemma iter_keeps {A} (f : A -> eff unit) l : (forall x, keeps (f x)) -> keeps (eff_iter f l).
Proof.
  intros Hf. induction l as [|x l IH]; [by apply hoare_ret_post|].
  eapply triple_bind; [by apply keeps_triple; [exact _|]|]. intros a. by apply keeps_hoare.
Qed.
Lemma map_keeps {A B} (f : A -> eff B) l : (forall x, keeps (f x)) -> keeps (eff_map f l).
Proof.
  intros Hf. induction l as [|x l IH]; [by apply hoare_ret_post|].
  eapply triple_bind; [by apply keeps_triple; [exact _|]|]. intros a.
  eapply triple_bind; [by apply keeps_triple; [exact _|]|]. intros b. by apply hoare_ret_post.
Qed.
End facts.

(** The effect at hand is known. *)
Ltac knows :=
  intros; cbv beta in *; destruct_and?; subst; try done;
  try match goal with
  | H : known ?e ?w |- known _ ?w => apply (known_same_scope e); [done|exact H]
  | H : known ?e ?w |- known _ ?w => apply (known_same_scope e); [by etrans|exact H]
  | H : forall w, _ -> known ?e w |- known _ ?w =>
      apply (known_same_scope e); [first [done|by etrans]|by apply H]
  end.

Create HintDb keeps.
Create HintDb quiet.
#[export] Hint Resolve insert_commit_authorization_books : quiet.

(** The triple of one statement. *)
Ltac statement :=
  cbv beta;
  lazymatch goal with
  | |- triple _ (effect _) _ => apply effect_triple; exact _
  | |- triple _ (append_effect_event _ _) _ => apply append_event_triple; [exact _|knows|reflexivity]
  | |- triple _ (transition_effect _ _ _) _ => apply transition_triple; [exact _|knows|reflexivity]
  | |- triple _ (save_prepared_effect _ _) _ => apply save_prepared_effect_triple; [exact _|knows]
  | |- triple _ (save_commit_receipt _ _ _ _) _ => apply save_commit_receipt_triple; [exact _|knows]
  | |- triple _ (save_compensation_receipt _ _) _ => apply save_compensation_receipt_triple; [exact _|knows]
  | |- triple _ (insert_effect _) _ => apply insert_effect_triple; exact _
  | |- triple _ (fail _) _ => apply hoare_fail
  | |- triple _ _ _ =>
      first [ solve [apply keeps_triple; [exact _|eauto with keeps]]
            | solve [apply (triple_quiet _ _ (fun _ _ => True)); [exact _|first [solve [auto with quiet]|by runs]|done]] ]
  end.

(** Walk through an operation. *)
Ltac walk :=
  repeat match goal with
  | |- forall _, _ => intros ?
  | |- keeps _ => unfold keeps
  | |- hoare _ (if ?b then _ else _) _ => destruct b eqn:?
  | |- hoare _ (let _ := _ in _) _ => cbv zeta
  | |- hoare _ (fail _) _ => apply hoare_fail
  | |- hoare _ (mret _) _ => apply hoare_ret_post; knows; try done
  | |- hoare _ (_ ≫= _) _ => eapply triple_bind; [statement|]
  | |- hoare _ (match ?x with _ => _ end) _ => destruct x eqn:?
  | |- hoare _ _ (fun _ _ => True) => eapply triple_drop; [statement]
  end.

Section manager.
Context {Value Actor X : Type} {libs : EffectLibs Value} {env : EffectEnv} {host : EffectHost Value Actor}.
Context (registry : EffectAdapterRegistry Value X).
#[local] Abbreviation Effect := (Effect Value).
#[local] Abbreviation World := (World Value Actor X).
#[local] Abbreviation eff := (eff World).
#[local] Abbreviation quiet := (runs_in (Value := Value) (Actor := Actor) (X := X) same_books).

Lemma prepare_keeps id c : keeps (prepare (Actor := Actor) registry id c).
Proof. unfold prepare. walk. Qed.
#[local] Hint Resolve prepare_keeps : keeps.
Lemma propose_keeps q c : keeps (propose (Actor := Actor) registry q c).
Proof. unfold propose. walk. Qed.
#[local] Hint Resolve propose_keeps : keeps.
Lemma propose_and_prepare_keeps q c : keeps (propose_and_prepare (Actor := Actor) registry q c).
Proof. unfold propose_and_prepare. walk. Qed.
Lemma authorize_keeps a ids : keeps (authorize (Actor := Actor) (X := X) a ids).
Proof.
  unfold authorize. eapply triple_bind.
  { apply keeps_triple; [exact _|]. apply map_keeps. intros id. walk. }
  walk.
Qed.

Lemma finish_commit_triple P (adapter : EffectAdapter Value X) e receipt actor kind :
  Stable P -> (forall w, P w -> known e w) ->
  triple P (finish_commit (Actor := Actor) adapter e receipt actor kind) (fun q w => same_scope e q.1 /\ finished (eff_id e) w).
Proof.
  intros HP Hk. unfold finish_commit. unfold triple. walk.
Qed.

(** Statements whose triple a section of its own proves. *)
#[local] Ltac statement' :=
  cbv beta;
  lazymatch goal with
  | |- triple _ (finish_commit _ _ _ _ _) _ => apply finish_commit_triple; [exact _|knows]
  | |- _ => statement
  end.
#[local] Ltac walk' :=
  repeat first
  [ progress walk
  | match goal with
    | |- hoare _ (_ ≫= _) _ => eapply triple_bind; [statement'|]
    end ].

(** A commit reported as committed is finished. *)
Definition reported (e : Effect) (o : CommitOutcome Value) (w : World) : Prop :=
  match o with CommittedOutcome _ => finished (eff_id e) w | _ => True end.

Lemma retry_unknown_reported P (adapter : EffectAdapter Value X) e p actor :
  Stable P -> (forall w, P w -> known e w) ->
  hoare P (retry_unknown (Actor := Actor) adapter e p actor) (reported e).
Proof. intros HP Hk. unfold retry_unknown. walk'. Qed.
Lemma gated_commit_reported P (adapter : EffectAdapter Value X) e p actor :
  Stable P -> (forall w, P w -> known e w) ->
  hoare P (gated_commit (Actor := Actor) adapter e p actor) (reported e).
Proof. intros HP Hk. unfold gated_commit. walk'. Qed.
Lemma commit_internal_reported P e a c sc : Stable P -> (forall w, P w -> known e w) ->
  hoare P (commit_internal (Actor := Actor) registry e a c sc) (reported e).
Proof.
  intros HP Hk. unfold commit_internal. walk'.
  - apply retry_unknown_reported; [exact _|knows].
  - apply gated_commit_reported; [exact _|knows].
Qed.
Lemma commit_internal_keeps P e a c sc : Stable P -> (forall w, P w -> known e w) ->
  hoare P (commit_internal (Actor := Actor) registry e a c sc) (fun _ _ => True).
Proof. intros HP Hk. eapply hoare_weaken; [|by apply commit_internal_reported]. done. Qed.
Lemma commit_keeps id a c : keeps (commit (Actor := Actor) registry id a c).
Proof. unfold commit. walk'. apply commit_internal_keeps; [exact _|knows]. Qed.
Lemma reconcile_keeps id : keeps (reconcile (Actor := Actor) registry id).
Proof. unfold reconcile. walk'. Qed.
Lemma compensate_keeps id c : keeps (compensate (Actor := Actor) registry id c).
Proof. unfold compensate. walk'. Qed.
Lemma discard_keeps id c : keeps (discard (Actor := Actor) registry id c).
Proof.
  unfold discard. walk'. eapply triple_bind; [apply hoare_triple; [exact _|]|]; walk'.
Qed.
#[local] Hint Resolve discard_keeps commit_keeps compensate_keeps : keeps.

Lemma discard_all_keeps l d f : keeps (discard_all (Actor := Actor) registry l d f).
Proof.
  revert d f. induction l as [|e l IH]; intros d f; cbn [discard_all]; [walk'|].
  destruct (disposable _); [|walk'].
  eapply triple_bind; [eapply attempt_triple; [exact _|by apply keeps_triple; eauto with keeps]|].
  intros [?|?]; by apply keeps_hoare.
Qed.
Lemma discard_reality_keeps rid : keeps (discard_reality (Actor := Actor) registry rid).
Proof. pose proof discard_all_keeps. unfold discard_reality. walk'. Qed.
Lemma cleanup_orphans_keeps : keeps (cleanup_orphans (Actor := Actor) registry).
Proof.
  unfold cleanup_orphans. walk'. apply keeps_hoare, map_keeps. intros e. walk'.
Qed.
Lemma create_plan_keeps es deps a : keeps (create_plan es deps a : eff _).
Proof. unfold create_plan. walk'. Qed.
Lemma commit_all_keeps order a c sc rs : keeps (commit_all (Actor := Actor) registry order a c sc rs).
Proof.
  revert rs. induction order as [|id order IH]; intros rs; cbn [commit_all]; [walk'|].
  eapply triple_bind; [statement'|]. intros e.
  eapply triple_bind; [apply hoare_triple; [exact _|]; apply commit_internal_keeps; [exact _|knows]|].
  walk'.
Qed.
Lemma compensate_group_keeps p c rs o :
  keeps (compensate_group (Actor := Actor) registry p c rs o).
Proof.
  unfold compensate_group. destruct (_ && _); [|walk']. eapply triple_bind; [|walk'].
  apply keeps_triple; [exact _|]. apply map_keeps. auto with keeps.
Qed.
#[local] Hint Resolve commit_all_keeps compensate_group_keeps : keeps.
Lemma commit_plan_keeps p a c : keeps (commit_plan (Actor := Actor) registry p a c).
Proof.
  unfold commit_plan. eapply triple_bind.
  { apply keeps_triple; [exact _|]. apply map_keeps. intros id. walk'. }
  walk'.
Qed.
Lemma detach_prepared_effect_keeps id : keeps (detach_prepared_effect id : eff _).
Proof. eapply triple_drop, detach_prepared_effect_triple. exact _. Qed.
End manager.
