(* ===== verification/EffectAuthorization.v ===== *)
(** Commit authorizations: what [CommitAuthorization::for_effects] issues is
    accepted by [validate] for exactly the effects and scopes it was issued for,
    in any order, until it expires. *)
From stdpp Require Import pretty.
From S2P Require Import Prelude EconomicsModel EffectModel EffectAdapter EffectStore EffectManager.
From S2P Require Import EffectLogic.

Section lists.
Context {A B : Type} (f : A -> result B).

Lemma result_map_Forall2 l ys : result_map f l = Ok ys <-> Forall2 (fun x y => f x = Ok y) l ys.
Proof.
  revert ys. induction l as [|x l IH]; intros ys; cbn.
  - split; [by intros [= <-]|by inversion 1].
  - destruct (f x) as [y|e] eqn:Hx; cbn.
    + destruct (result_map f l) as [ys'|e] eqn:Hl; cbn.
      * split; [intros [= <-]; constructor; [done|by apply IH]|].
        inversion 1 as [|? y' ? ys2 Hy Hys]; subst. apply IH in Hys. congruence.
      * split; [done|]. inversion 1 as [|? ? ? ? ? Hys]; subst. by apply IH in Hys.
    + split; [done|]. inversion 1; congruence.
Qed.

Lemma Forall2_permuted (R : A -> B -> Prop) l ys ys' :
  Forall2 R l ys -> ys ≡ₚ ys' -> exists l', l ≡ₚ l' /\ Forall2 R l' ys'.
Proof.
  intros Hf Hp. revert l Hf. induction Hp as [|y ys ys' _ IH|y z ys|ys1 ys2 ys3 _ IH1 _ IH2]; intros l Hf.
  - inversion Hf; subst. exists []. by split.
  - inversion Hf as [|x ? l0 ? Hx Hl]; subst. destruct (IH l0 Hl) as (l' & Hp' & Hf').
    exists (x :: l'). split; [by rewrite Hp'|by constructor].
  - inversion Hf as [|x ? l0 ? Hx Hl]; subst. inversion Hl as [|x' ? l1 ? Hx' Hl']; subst.
    exists (x' :: x :: l1). split; [constructor|by repeat constructor].
  - destruct (IH1 l Hf) as (l1 & Hp1 & Hf1). destruct (IH2 l1 Hf1) as (l2 & Hp2 & Hf2).
    exists l2. split; [by etrans|done].
Qed.

Lemma result_map_permuted l l' ys : result_map f l = Ok ys -> l ≡ₚ l' ->
  exists ys', ys ≡ₚ ys' /\ result_map f l' = Ok ys'.
Proof.
  intros Hl%result_map_Forall2 Hp. revert ys Hl.
  induction Hp as [|x l l' _ IH|x z l|l1 l2 l3 _ IH1 _ IH2]; intros ys Hl.
  - inversion Hl; subst. by exists [].
  - inversion Hl as [|? y ? ys0 Hy Hys]; subst. destruct (IH ys0 Hys) as (ys' & Hp' & Hl').
    exists (y :: ys'). split; [by rewrite Hp'|]. apply result_map_Forall2. constructor; [done|].
    by apply result_map_Forall2.
  - inversion Hl as [|? y ? ys0 Hy Hys]; subst. inversion Hys as [|? y' ? ys1 Hy' Hys']; subst.
    exists (y' :: y :: ys1). split; [constructor|]. apply result_map_Forall2. by repeat constructor.
  - destruct (IH1 ys Hl) as (ys1 & Hp1 & Hl1%result_map_Forall2).
    destruct (IH2 ys1 Hl1) as (ys2 & Hp2 & Hl2). exists ys2. split; [by etrans|done].
Qed.
End lists.

Section authorization.
Context {Value : Type} {libs : EffectLibs Value}.
#[local] Abbreviation Effect := (Effect Value).

Lemma authorization_scopes_permuted es es' scopes : authorization_scopes es = Ok scopes -> es ≡ₚ es' ->
  authorization_scopes es' = Ok scopes.
Proof.
  unfold authorization_scopes. intros Hs Hp.
  destruct (result_map _ es) as [ys|er] eqn:Hm; [|done]. cbn in Hs. injection Hs as <-.
  destruct (result_map_permuted _ _ _ _ Hm Hp) as (ys' & Hy & Hm'). rewrite Hm'. cbn. f_equal.
  apply sort_by_key_unique; [done|by symmetry].
Qed.

Lemma for_effects_Ok a es id granted base auth : for_effects a es id granted base = Ok auth ->
  exists scopes h, authorization_scopes es = Ok scopes /\ hash_scopes scopes = Ok h /\
    auth = mkAuthorization id a (eff_id <$> es) granted (Some (base + 900000000000)%Z) h.
Proof.
  unfold for_effects. destruct (authorization_scopes es) as [scopes|]; [|done]. cbn.
  destruct (hash_scopes scopes) as [h|] eqn:Hh; [|done]. cbn. intros [= <-]. eauto.
Qed.

(** Blake3 is treated as free of collisions. *)
Definition collision_free : Prop :=
  (forall s s' h, hash_scope s = Ok h -> hash_scope s' = Ok h -> s = s') /\
  (forall l l' h, hash_scopes l = Ok h -> hash_scopes l' = Ok h -> l = l').

Lemma same_hash_scope (e e' : Effect) h : collision_free ->
  scope_hash e = Ok h -> scope_hash e' = Ok h -> same_scope e e'.
Proof.
  intros [Hc _] He He'. pose proof (Hc _ _ _ He He') as Heq. by injection Heq.
Qed.

(** The scopes determine the effects up to what an authorization does not see. *)
Lemma authorization_scopes_bound es es' scopes : collision_free ->
  authorization_scopes es = Ok scopes -> authorization_scopes es' = Ok scopes ->
  exists es2, es ≡ₚ es2 /\ Forall2 same_scope es2 es'.
Proof.
  intros Hc. unfold authorization_scopes.
  destruct (result_map _ es) as [ys|] eqn:Hm; [|done]. cbn. intros [= Hs].
  destruct (result_map _ es') as [ys'|] eqn:Hm'; [|done]. cbn. intros [= Hs'].
  assert (ys ≡ₚ ys') as Hp.
  { rewrite <- (sort_by_key_perm id ys), <- (sort_by_key_perm id ys'). by rewrite Hs, Hs'. }
  apply result_map_Forall2 in Hm, Hm'.
  destruct (Forall2_permuted _ _ _ _ Hm Hp) as (es2 & Hp2 & Hf). exists es2. split; [done|].
  clear -Hc Hf Hm'. revert es' Hm'. induction Hf as [|e y es2 ys' Hy _ IH]; intros es' Hm'.
  - inversion Hm'. constructor.
  - inversion Hm' as [|e' ? es0 ? Hy' Hes]; subst. constructor; [|by apply IH].
    destruct (scope_hash e) as [h|] eqn:Hh; [|done]. destruct (scope_hash e') as [h'|] eqn:Hh'; [|done].
    cbn in Hy, Hy'. simplify_eq. by eapply same_hash_scope.
Qed.

(** C25. An authorization issued for some effects is accepted for them in any
    order at every instant before its expiry, fifteen minutes after it was
    issued, is refused as expired from then on, and, the hash being free of
    collisions, is accepted for nothing else: whatever effects it is accepted
    for are, up to order, the ones it was issued for, with the same identity,
    adapter, kind, target, operation, payload and idempotency key. *)
Theorem authorization_bound_to_scope a es id granted base auth :
  collision_free -> for_effects a es id granted base = Ok auth ->
  (forall es' now, es ≡ₚ es' -> (now < base + 900000000000)%Z ->
     authorization_validate auth es' now = Ok tt) /\
  (forall es' now, (base + 900000000000 <= now)%Z ->
     authorization_validate auth es' now = Err (Intervention "Commit authorization expired")) /\
  (forall es' now, authorization_validate auth es' now = Ok tt ->
     exists es2, es ≡ₚ es2 /\ Forall2 same_scope es2 es').
Proof.
  intros Hc (scopes & h & Hs & Hh & ->)%for_effects_Ok. unfold authorization_validate. cbn. split_and!.
  - intros es' now Hp Hn. rewrite bool_decide_eq_false_2 by lia. unfold for_effects.
    rewrite (authorization_scopes_permuted _ _ _ Hs Hp). cbn. rewrite Hh. cbn.
    rewrite !bool_decide_eq_true_2; [done|done|]. by rewrite Hp.
  - intros es' now Hn. by rewrite bool_decide_eq_true_2.
  - intros es' now. case_bool_decide; [done|]. unfold for_effects.
    destruct (authorization_scopes es') as [scopes'|] eqn:Hs'; [|done]. cbn.
    destruct (hash_scopes scopes') as [h'|] eqn:Hh'; [|done]. cbn.
    destruct (_ || _) eqn:Hb; [done|]. intros _.
    apply orb_false_iff in Hb as [_ Hb]. apply negb_false_iff, bool_decide_eq_true in Hb. subst h'.
    pose proof (proj2 Hc _ _ _ Hh Hh') as <-. by eapply authorization_scopes_bound.
Qed.
End authorization.

(** * A hash without collisions *)
Module EffectAuthorizationExamples.
Definition kind_code (k : EffectKind.t) : nat :=
  match k with
  | EffectKind.Filesystem => 0 | EffectKind.Process => 1 | EffectKind.Database => 2
  | EffectKind.HttpApi => 3 | EffectKind.CloudResource => 4 | EffectKind.Message => 5
  | EffectKind.Deployment => 6 | EffectKind.Custom => 7
  end.
Definition operation_code (o : EffectOperation) : nat * string :=
  match o with
  | Read => (0, "") | Create => (1, "") | Update => (2, "") | Delete => (3, "") | Post => (4, "")
  | Dispatch => (5, "") | Promote => (6, "") | Custom name => (7, name)
  end.
#[export] Instance exact_libs : EffectLibs string := {|
  json_len v := Ok (Z.of_nat (String.length v));
  hash_scope := fun '(id, adapter, k, target, o, v, key) =>
    Ok (pretty (N.pos (encode (id, adapter, kind_code k, uri target, operation_code o, v, key))));
  hash_scopes l := Ok (pretty (N.pos (encode l)));
|}.

Lemma exact_libs_collision_free : collision_free (libs := exact_libs).
Proof.
  split.
  - intros [[[[[[id a] k] [t]] o] v] key] [[[[[[id' a'] k'] [t']] o'] v'] key'] h [= <-] [= H].
    apply (inj pretty) in H. injection H as H. apply (inj encode) in H.
    injection H as <- <- Hk <- Ho <- <-.
    assert (k = k') as <- by (by destruct k, k'). assert (o = o') as <- by (destruct o, o'; by simplify_eq/=).
    done.
  - intros l l' h [= <-] [= H]. apply (inj pretty) in H. injection H as H. by apply (inj encode) in H.
Qed.

Definition an_effect (id text : string) : Effect string :=
  mkEffect id "ledger" "session" None (mkAction "action" "edit") EffectKind.Custom (mkTarget "doc://a")
    Update text None EffectLifecycle.Prepared "doc" ("hk-effect:" +:+ id) [] EffectFault.None_ 0.
Definition two : list (Effect string) := [an_effect "a" "x"; an_effect "b" "y"].

Lemma authorization_bound_to_scope_witness : exists auth,
  for_effects CommitAuthority.User two "auth" 0 0 = Ok auth /\
  (forall es' now, two ≡ₚ es' -> (now < 0 + 900000000000)%Z ->
     authorization_validate auth es' now = Ok tt) /\
  (forall es' now, (0 + 900000000000 <= now)%Z ->
     authorization_validate auth es' now = Err (Intervention "Commit authorization expired")) /\
  (forall es' now, authorization_validate auth es' now = Ok tt ->
     exists es2, two ≡ₚ es2 /\ Forall2 same_scope es2 es').
Proof.
  eexists. split; [reflexivity|].
  apply (authorization_bound_to_scope CommitAuthority.User two "auth" 0 0 _ exact_libs_collision_free).
  reflexivity.
Defined.
End EffectAuthorizationExamples.
