(* ===== verification/EffectProtocol.v ===== *)
(** The effect subsystem as a transition system: its calls interleaved with
    changes of its surroundings, the states it reaches, and the protocol it
    refines. *)
From S2P Require Import Prelude StateError EconomicsModel EffectModel EffectAdapter EffectStore EffectManager.
From S2P Require Import EffectExample EffectLogic EffectFacts.

Section protocol.
Context {Value Actor X : Type} {libs : EffectLibs Value} {env : EffectEnv} {host : EffectHost Value Actor}.
Context (registry : EffectAdapterRegistry Value X).
#[local] Abbreviation Effect := (Effect Value).
#[local] Abbreviation World := (World Value Actor X).
#[local] Abbreviation eff := (eff World).

(** The entry points of the manager, and the detachment experimentation uses. *)
Inductive call :=
  | CallPropose (request : EffectRequest Value) (c : EffectContext)
  | CallPrepare (id : string) (c : EffectContext)
  | CallProposeAndPrepare (request : EffectRequest Value) (c : EffectContext)
  | CallAuthorize (a : CommitAuthority.t) (ids : list string)
  | CallCommit (id : string) (a : option CommitAuthorization) (c : EffectContext)
  | CallReconcile (id : string)
  | CallDiscard (id : string) (c : EffectContext)
  | CallCompensate (id : string) (c : EffectContext)
  | CallDiscardReality (rid : string)
  | CallCleanupOrphans
  | CallDetach (id : string)
  | CallCreatePlan (es : list string) (deps : list EffectDependency) (a : EffectAtomicity.t)
  | CallCommitPlan (p : EffectPlan) (a : CommitAuthorization) (c : EffectContext).

Definition ignore {A} (m : eff A) : eff unit := m ≫= fun _ => mret tt.
Definition run_call (x : call) : eff unit :=
  match x with
  | CallPropose q c => ignore (propose registry q c)
  | CallPrepare id c => ignore (prepare registry id c)
  | CallProposeAndPrepare q c => ignore (propose_and_prepare registry q c)
  | CallAuthorize a ids => ignore (authorize a ids)
  | CallCommit id a c => ignore (commit registry id a c)
  | CallReconcile id => ignore (reconcile registry id)
  | CallDiscard id c => ignore (discard registry id c)
  | CallCompensate id c => ignore (compensate registry id c)
  | CallDiscardReality rid => ignore (discard_reality registry rid)
  | CallCleanupOrphans => ignore (cleanup_orphans registry)
  | CallDetach id => ignore (detach_prepared_effect id)
  | CallCreatePlan es deps a => ignore (create_plan es deps a)
  | CallCommitPlan p a c => ignore (commit_plan registry p a c)
  end.

(** A call runs, failed or not; or the surroundings change anything but the
    effects, their events and their receipts. *)
Inductive system_step : World -> World -> Prop :=
  | step_call x w : system_step w (run_call x w).2
  | step_around w w' : same_books w w' -> system_step w w'.

Record initial (w : World) : Prop := {
  init_effects : w_effects w = ∅;
  init_events : w_events w = ∅;
  init_receipts : w_receipts w = ∅;
}.

Lemma initial_wf w : initial w -> wf w.
Proof.
  intros [He Hv Hr]. split; unfold events_of; intros id; rewrite ?He, ?Hv, ?Hr, ?lookup_empty.
  - done.
  - by intros [? ?].
  - by intros i ev.
  - done.
  - by intros [? ?].
Qed.

Lemma ignore_keeps {A} (m : eff A) : keeps m -> keeps (ignore m).
Proof.
  intros Hm. eapply triple_bind; [by apply keeps_triple; [exact _|]|]. intros a. by apply hoare_ret_post.
Qed.
Lemma run_call_keeps x : keeps (run_call x).
Proof.
  destruct x; apply ignore_keeps; auto using propose_keeps, prepare_keeps,
    propose_and_prepare_keeps, authorize_keeps, commit_keeps, reconcile_keeps, discard_keeps,
    compensate_keeps, discard_reality_keeps, cleanup_orphans_keeps, detach_prepared_effect_keeps,
    create_plan_keeps, commit_plan_keeps.
Qed.

Lemma step_kept w w' : wf w -> system_step w w' -> wf w' /\ kept w w'.
Proof.
  intros Hw Hs. destruct Hs as [x w|w w' Hs]; [|by apply same_books_kept].
  by destruct (run_call_keeps x w Hw I) as (? & ? & _).
Qed.
Lemma run_kept w w' : wf w -> rtc system_step w w' -> wf w' /\ kept w w'.
Proof.
  intros Hw. induction 1 as [w|w w1 w2 Hs _ IH]; [done|].
  destruct (step_kept _ _ Hw Hs) as [Hw1 Hk1]. destruct (IH Hw1) as [? Hk2]. split; [done|]. by transitivity w1.
Qed.

(** * Theorems *)

(** C14. Every state the effect subsystem reaches from empty tables is
    well-formed, whatever calls ran, failed or interleaved with changes of the
    surroundings: rows carry their key, events belong to an existing effect and
    are numbered from one without gap, the log of an effect holds exactly one
    COMMITTED event when it is committed or compensated and none otherwise (and
    likewise for COMPENSATED and DISCARDED), and only such effects have a
    commit receipt. *)
Theorem reachable_well_formed w0 w : initial w0 -> rtc system_step w0 w -> wf w.
Proof. intros H0 Hr. by destruct (run_kept w0 w (initial_wf w0 H0) Hr). Qed.

(** C16. The subsystem refines the abstract commit protocol: seen through the
    phases of its effects, every run from a reachable state is a run of the
    protocol; and along it logs only grow at their end, receipts never change,
    and an effect keeps its identity and the fields its authorization is bound
    to. *)
Theorem system_refines_protocol (w0 w w' : World) :
  initial w0 -> rtc system_step w0 w -> rtc system_step w w' ->
  rtc protocol_step (abs w) (abs w') /\
  (forall id, events_of w id `prefix_of` events_of w' id) /\
  w_receipts w ⊆ w_receipts w' /\
  (forall id e, w_effects w !! id = Some e ->
     exists e', w_effects w' !! id = Some e' /\ same_scope e e').
Proof.
  intros H0 Hr Hr'. destruct (run_kept w0 w (initial_wf w0 H0) Hr) as [Hw _].
  destruct (run_kept w w' Hw Hr') as [_ [E V R P]]. split_and!; [done..|].
  intros id e He. destruct (E id e He) as (e' & ? & ? & _). eauto.
Qed.

Lemma closed_not_done (x : EffectLifecycle.t) :
  x ∈ [EffectLifecycle.Rejected; EffectLifecycle.Discarded] ->
  x ∈ [EffectLifecycle.Committed; EffectLifecycle.Compensated] -> False.
Proof. by destruct x; rewrite !list_elem_of_In; cbn; intuition. Qed.

Lemma closed_final x y : rtc (fun x y => EffectLifecycle.allows x y = true) x y ->
  x ∈ [EffectLifecycle.Rejected; EffectLifecycle.Discarded] -> x = y.
Proof.
  intros [|x1 x2 x3 Hs _] Hx; [done|]. exfalso.
  apply elem_of_cons in Hx as [->|[->|[]%not_elem_of_nil]%elem_of_cons]; by destruct x2.
Qed.

(** A rejected or discarded effect is closed for good: in every later state
    it has the same lifecycle, it has no commit receipt, and its log never
    shows a commit; a committed effect, on the other hand, was never rejected
    or discarded and is committed exactly once, compensated at most once. *)
Theorem closed_effects_stay_closed (w0 w w' : World) id e :
  initial w0 -> rtc system_step w0 w -> rtc system_step w w' -> w_effects w !! id = Some e ->
  exists e', w_effects w' !! id = Some e' /\
    (lifecycle e ∈ [EffectLifecycle.Rejected; EffectLifecycle.Discarded] ->
       lifecycle e' = lifecycle e /\ w_receipts w' !! id = None /\
       count_events EffectEventType.Committed (events_of w' id) = 0) /\
    (w_receipts w !! id <> None ->
       lifecycle e' ∈ [EffectLifecycle.Committed; EffectLifecycle.Compensated] /\
       w_receipts w' !! id = w_receipts w !! id /\
       count_events EffectEventType.Committed (events_of w' id) = 1 /\
       count_events EffectEventType.Discarded (events_of w' id) = 0).
Proof.
  intros H0 Hr Hr' He. destruct (run_kept w0 w (initial_wf w0 H0) Hr) as [Hw _].
  destruct (run_kept w w' Hw Hr') as [Hw' [E _ R _]].
  destruct (E id e He) as (e' & He' & _ & Hl). exists e'.
  destruct (wf_log w' Hw' id e' He') as (Hc & _ & Hd). split_and!; [done| |].
  - intros Hx. pose proof (closed_final _ _ Hl Hx) as Hxl. rewrite <- Hxl in *. split_and!; [done| |].
    + apply eq_None_not_Some. intros (e2 & He2 & Hl2)%(wf_receipts w' Hw' id).
      simplify_eq. rewrite <- Hxl in Hl2. by eapply closed_not_done.
    + rewrite Hc. rewrite decide_False; [done|]. intros ?. by eapply closed_not_done.
  - intros [x Hx]%not_eq_None_Some. pose proof (lookup_weaken _ _ _ _ Hx R) as Hx'.
    destruct (wf_receipts w' Hw' id) as (e2 & He2 & Hl2); [by eexists|]. simplify_eq.
    split_and!; [done|congruence| |].
    + by rewrite Hc, decide_True.
    + rewrite Hd, decide_False; [done|]. intros Hx2. rewrite Hx2 in Hl2. set_solver.
Qed.
End protocol.

(** * Runs of the example world *)
Module EffectProtocolExamples.
Import EffectExample.
#[local] Abbreviation run x w := ((run_call registry x w).2).

(** One effect proposed and prepared, then discarded; another committed. *)
Definition w1 := run (CallProposeAndPrepare (request (Some "r1") "new" EffectFault.None_) user_context) start.
Definition the_id : string := default "" (head (fst <$> map_to_list (w_effects w1))).
Definition w2 := run (CallDiscard the_id user_context) w1.
Definition w3 := run (CallPrepare the_id user_context) w2.

Lemma start_initial : initial start.
Proof. by split. Qed.
Lemma start_w1 : rtc (system_step registry) start w1.
Proof. apply rtc_once, step_call. Qed.
Lemma start_w2 : rtc (system_step registry) start w2.
Proof. eapply rtc_r; [apply start_w1|apply step_call]. Qed.

Lemma reachable_well_formed_witness :
  wf w1 /\ is_Some (w_effects w1 !! the_id) /\ length (events_of w1 the_id) = 3.
Proof.
  split; [apply (reachable_well_formed registry start w1 start_initial start_w1)|].
  split; [by eexists; vm_compute|by vm_compute].
Defined.

Lemma system_refines_protocol_witness :
  abs w1 !! the_id = Some Phase.Staged /\ abs w2 !! the_id = Some Phase.Closed /\
  rtc protocol_step (abs w1) (abs w2) /\
  (forall id, events_of w1 id `prefix_of` events_of w2 id) /\
  w_receipts w1 ⊆ w_receipts w2 /\
  (forall id e, w_effects w1 !! id = Some e ->
     exists e', w_effects w2 !! id = Some e' /\ same_scope e e').
Proof.
  split; [by vm_compute|split; [by vm_compute|]].
  apply (system_refines_protocol registry start w1 w2 start_initial start_w1).
  apply rtc_once, step_call.
Defined.

Lemma closed_effects_stay_closed_witness :
  match w_effects w2 !! the_id with
  | Some e => lifecycle e = EffectLifecycle.Discarded /\
      exists e', w_effects w3 !! the_id = Some e' /\
        (lifecycle e ∈ [EffectLifecycle.Rejected; EffectLifecycle.Discarded] ->
           lifecycle e' = lifecycle e /\ w_receipts w3 !! the_id = None /\
           count_events EffectEventType.Committed (events_of w3 the_id) = 0) /\
        (w_receipts w2 !! the_id <> None ->
           lifecycle e' ∈ [EffectLifecycle.Committed; EffectLifecycle.Compensated] /\
           w_receipts w3 !! the_id = w_receipts w2 !! the_id /\
           count_events EffectEventType.Committed (events_of w3 the_id) = 1 /\
           count_events EffectEventType.Discarded (events_of w3 the_id) = 0)
  | None => False end.
Proof.
  destruct (w_effects w2 !! the_id) as [e|] eqn:He; [|by vm_compute in He].
  split; [vm_compute in He; by injection He as <-|].
  apply (closed_effects_stay_closed registry start w2 w3 the_id e start_initial start_w2);
    [apply rtc_once, step_call|done].
Defined.
End EffectProtocolExamples.
