(* ===== verification/EffectSafety.v ===== *)
(** Who can move the authoritative state, and when: only an authorized commit
    through its gate, or a compensation, of a caller with that authority. *)
From S2P Require Import Prelude StateError EconomicsModel EffectModel EffectAdapter EffectStore EffectManager.
From S2P Require Import EffectExample EffectLogic EffectFacts EffectProtocol.

(** What an adapter promises: observing, preparing, discarding and reconciling
    leave the authoritative part of the external state alone. *)
Class StagedAdapter {Value X S : Type} (authoritative : X -> S) (a : EffectAdapter Value X) : Prop := {
  staged_observe : forall e x, authoritative (ad_observe a e x).2 = authoritative x;
  staged_prepare : forall e x, authoritative (ad_prepare a e x).2 = authoritative x;
  staged_discard : forall e p x, authoritative (ad_discard a e p x).2 = authoritative x;
  staged_reconcile : forall e x, authoritative (ad_reconcile a e x).2 = authoritative x;
}.

Section safety.
Context {Value Actor X S : Type} {libs : EffectLibs Value} {env : EffectEnv} {host : EffectHost Value Actor}.
Context (registry : EffectAdapterRegistry Value X) (authoritative : X -> S).
Context (staged : forall name a, adapters registry !! name = Some a -> StagedAdapter authoritative a).
#[local] Abbreviation Effect := (Effect Value).
#[local] Abbreviation World := (World Value Actor X).
#[local] Abbreviation eff := (eff World).

Definition truth (w : World) : S := authoritative (w_external w).
Definition unmoved (w w' : World) : Prop := truth w' = truth w.
#[local] Instance unmoved_ticking : Ticking unmoved.
Proof.
  split; [|by intros w|by intros w w' _]. split; [by intros w|].
  intros w1 w2 w3. unfold unmoved. congruence.
Qed.

Lemma registry_get_staged name a : registry_get registry name = Ok a -> StagedAdapter authoritative a.
Proof. intros Ha%ok_or_Ok. by eapply staged. Qed.
Lemma select_effect_staged e a : select_effect registry e = Ok a -> StagedAdapter authoritative a.
Proof. apply registry_get_staged. Qed.

(** A call of an adapter that keeps its promise. *)
Ltac still :=
  runs; try done; unfold unmoved; try (by case_match);
  match goal with
  | H : select_effect registry _ = Ok ?a |- _ => pose proof (select_effect_staged _ _ H)
  end;
  unfold truth; cbn; first [apply staged_observe|apply staged_prepare|apply staged_discard|apply staged_reconcile].

Lemma transition_unmoved e x ty : runs_in unmoved (transition_effect e x ty).
Proof. by runs. Qed.
Lemma append_event_unmoved e ty : runs_in unmoved (append_effect_event e ty).
Proof. by runs. Qed.
Lemma prepare_unmoved id c : runs_in unmoved (prepare registry id c).
Proof. still. Qed.
Lemma discard_unmoved id c : runs_in unmoved (discard registry id c).
Proof. still. Qed.
Lemma reconcile_unmoved id : runs_in unmoved (reconcile registry id).
Proof. still. Qed.
Lemma propose_unmoved q c : runs_in unmoved (propose registry q c).
Proof. by runs. Qed.
Lemma propose_and_prepare_unmoved q c : runs_in unmoved (propose_and_prepare registry q c).
Proof.
  apply runs_bind; [exact _|apply propose_unmoved|]. intros e. case_decide; [by apply runs_fail; exact _|].
  apply runs_bind; [exact _|apply prepare_unmoved|]. by runs.
Qed.
Lemma authorize_unmoved a ids : runs_in unmoved (authorize a ids).
Proof. runs; try done. unfold unmoved. by case_match. Qed.
Lemma detach_unmoved id : runs_in unmoved (detach_prepared_effect id).
Proof. by runs. Qed.
Lemma create_plan_unmoved es deps a : runs_in unmoved (create_plan es deps a).
Proof. by runs. Qed.
Lemma discard_all_unmoved l d f : runs_in unmoved (discard_all registry l d f).
Proof.
  revert d f. induction l as [|e l IH]; intros d f; cbn [discard_all]; [by runs|].
  destruct (disposable _).
  - apply runs_bind; [exact _|apply runs_attempt, discard_unmoved|]. by intros [?|?].
  - by case_decide.
Qed.
Lemma discard_reality_unmoved rid : runs_in unmoved (discard_reality registry rid).
Proof.
  apply runs_bind; [exact _|by runs|]. intros es. apply runs_bind; [exact _|apply discard_all_unmoved|].
  by runs.
Qed.
Lemma cleanup_orphans_unmoved : runs_in unmoved (cleanup_orphans registry).
Proof.
  apply runs_bind; [exact _|by runs|]. intros es. apply runs_map; [exact _|]. intros e.
  apply runs_bind; [exact _|apply discard_unmoved|]. by runs.
Qed.

(** * Callers without the authority *)

Definition may_commit_as (c : EffectContext) : bool :=
  negb (is_agent_actor c) && may_commit (capabilities c).
Definition may_compensate_as (c : EffectContext) : bool :=
  negb (is_agent_actor c) && may_compensate (capabilities c).

Lemma compensate_refused id c : may_compensate_as c = false -> runs_in unmoved (compensate registry id c).
Proof.
  intros Hc. unfold compensate. replace (is_agent_actor c || _) with true; [by apply runs_fail; exact _|].
  unfold may_compensate_as in Hc. by destruct (is_agent_actor c), (may_compensate _).
Qed.

Lemma refused_guard c : may_commit_as c = false ->
  is_agent_actor c || negb (may_commit (capabilities c)) = true.
Proof. unfold may_commit_as. by destruct (is_agent_actor c), (may_commit _). Qed.

(** A refused commit fails, after an event that records the refusal. *)
Lemma commit_internal_refused e a c sc w : may_commit_as c = false ->
  unmoved w (commit_internal registry e a c sc w).2 /\
  forall o, (commit_internal registry e a c sc w).1 <> Ok o.
Proof.
  intros Hc. split.
  - revert w. change (runs_in unmoved (commit_internal registry e a c sc)). unfold commit_internal.
    apply runs_bind; [exact _|by runs|]. intros _.
    rewrite (refused_guard c Hc). by runs.
  - intros o Ho. destruct (commit_internal _ _ _ _ _ w) as [r w'] eqn:Hr. cbn in Ho. subst r.
    unfold commit_internal in Hr. apply bind_Ok in Hr as (? & w1 & _ & Hr).
    rewrite (refused_guard c Hc) in Hr. apply bind_Ok in Hr as (? & w2 & _ & Hr). done.
Qed.
Lemma commit_refused id a c : may_commit_as c = false -> runs_in unmoved (commit registry id a c).
Proof.
  intros Hc. apply runs_bind; [exact _|by runs|]. intros e w. by apply commit_internal_refused.
Qed.

Lemma commit_all_refused order a c sc w : may_commit_as c = false ->
  unmoved w (commit_all registry order a c sc [] w).2 /\
  forall r, (commit_all registry order a c sc [] w).1 = Ok r -> r.1.1 = [].
Proof.
  intros Hc. destruct order as [|id order]; [by split; [|intros ? [= <-]]|]. cbn [commit_all].
  unfold mbind, eff_bind. destruct (effect id w) as [[e|er] w1] eqn:He; cbn; injection He as He <-;
    [|by split].
  destruct (commit_internal_refused e (Some a) c (Some sc) w Hc) as [Hu Hn].
  destruct (commit_internal _ _ _ _ _ w) as [[o|er] w2]; cbn in *; [|by split]. by destruct (Hn o).
Qed.
Lemma commit_plan_refused p a c : may_commit_as c = false -> runs_in unmoved (commit_plan registry p a c).
Proof.
  intros Hc. unfold commit_plan. apply runs_bind; [exact _|by runs|]. intros sc.
  apply runs_bind; [exact _|by runs|]. intros at_. apply runs_bind; [exact _|by runs|]. intros _.
  apply runs_bind; [exact _|by runs|]. intros order w. unfold mbind at 1, eff_bind at 1.
  destruct (commit_all_refused order a c sc w Hc) as [Hu Hr].
  destruct (commit_all _ _ _ _ _ _ w) as [[[[rs failed] unknown]|er] w1]; cbn in *; [|done].
  specialize (Hr _ eq_refl) as Hnil. cbn in Hnil. subst rs. unfold compensate_group. cbn [rev eff_map].
  transitivity w1; [done|]. match goal with |- unmoved _ (?m _).2 => revert w1 Hu; 
    assert (runs_in unmoved m) as Hm by by runs end. intros w1 _. apply Hm.
Qed.

(** The calls whose caller has the authority to mutate. *)
Definition caller_may_mutate (x : call (Value := Value)) : bool :=
  match x with
  | CallCommit _ _ c | CallCommitPlan _ _ c => may_commit_as c
  | CallCompensate _ c => may_compensate_as c
  | _ => false
  end.

Lemma ignore_unmoved {A} (m : eff A) : runs_in unmoved m -> runs_in unmoved (ignore m).
Proof. intros Hm. by apply runs_bind; [exact _|done|runs]. Qed.

(** C18. No call of an agent, and no call that lacks commit or compensation
    authority, ever changes the authoritative state: proposing, preparing,
    authorizing, reconciling, discarding, cleaning up and planning never do, and
    committing, committing a plan and compensating do not when the caller is an
    agent or was not granted the capability. Nothing is assumed of an adapter
    but that its staging operations stage. *)
Theorem unauthorized_calls_never_mutate x w : caller_may_mutate x = false ->
  authoritative (w_external (run_call registry x w).2) = authoritative (w_external w).
Proof.
  intros Hx. change (unmoved w (run_call registry x w).2). revert w.
  change (runs_in unmoved (run_call registry x)).
  destruct x; apply ignore_unmoved; auto using propose_unmoved, prepare_unmoved,
    propose_and_prepare_unmoved, authorize_unmoved, reconcile_unmoved, discard_unmoved,
    discard_reality_unmoved, cleanup_orphans_unmoved, detach_unmoved, create_plan_unmoved,
    commit_refused, commit_plan_refused, compensate_refused.
Qed.

(** * The gate *)

(** Steps before the adapter commits: they change neither the effects, nor the
    preparations, nor anything outside. *)
Definition settled (w w' : World) : Prop :=
  w_effects w' = w_effects w /\ w_prepared w' = w_prepared w /\ w_external w' = w_external w /\
  w_ticks w <= w_ticks w'.
#[local] Instance settled_ticking : Ticking settled.
Proof.
  split.
  - split; [by intros w|]. intros w1 w2 w3 (?&?&?&?) (?&?&?&?). split_and!; [congruence..|lia].
  - intros w. split_and!; [done..|cbn; lia].
  - intros w w' (_ & _ & _ & ?). by split_and!.
Qed.

Lemma insert_commit_authorization_settled a : runs_in settled (insert_commit_authorization a).
Proof. runs. case_match; [reflexivity|by split_and!]. Qed.

Definition moves {A} (m : eff A) (w : World) : Prop := truth (m w).2 <> truth w.

Lemma moves_bind {A B} (m : eff A) (f : A -> eff B) w (R : World -> World -> Prop) :
  (forall w w', R w w' -> unmoved w w') -> runs_in R m -> moves (m ≫= f) w ->
  exists a w1, m w = (Ok a, w1) /\ R w w1 /\ moves (f a) w1.
Proof.
  intros HR Hm Hw. specialize (Hm w). unfold moves, mbind, eff_bind in Hw.
  destruct (m w) as [[a|e] w1]; cbn in *.
  - exists a, w1. split_and!; [done..|]. unfold moves. by rewrite (HR _ _ Hm).
  - by destruct Hw; apply HR.
Qed.
Lemma unmoved_not_moves {A} (m : eff A) w : runs_in unmoved m -> ~ moves m w.
Proof. intros Hm Hw. apply Hw, Hm. Qed.
Lemma settled_unmoved w w' : settled w w' -> unmoved w w'.
Proof. intros (_ & _ & He & _). unfold unmoved, truth. by rewrite He. Qed.

(** What an adapter commit behind the gate presupposes. *)
Definition gate_open (adapter : EffectAdapter Value X) (e : Effect) (p : PreparedEffect Value)
    (from : nat) (t : S) : Prop :=
  exists x x' current n, ad_observe adapter e x = (Ok current, x') /\ authoritative x = t /\
    from <= n /\ expired p (clock n) = false /\
    prep_scope_hash p = match scope_hash e with Ok h => h | Err _ => EmptyString end /\
    fingerprint current = fingerprint (before p) /\ snap_version current = snap_version (before p).

Lemma gate_open_mono adapter e p n m t : n <= m -> gate_open adapter e p m t -> gate_open adapter e p n t.
Proof.
  intros Hnm (x & x' & current & k & ? & ? & ? & ?). exists x, x', current, k.
  split_and!; try tauto. lia.
Qed.

Lemma gated_commit_moves adapter e p actor w : StagedAdapter authoritative adapter ->
  moves (gated_commit adapter e p actor) w -> gate_open adapter e p (w_ticks w) (truth w).
Proof.
  intros Ha Hm. unfold gated_commit in Hm.
  apply (moves_bind _ _ _ (fun w w' => unmoved w w' /\ w_ticks w' = w_ticks w)) in Hm
    as (current & w1 & Ho & [_ Ht] & Hm); [|by intros ?? [? _]|].
  2: { intros w'. pose proof (staged_observe (StagedAdapter := Ha) e (w_external w')) as Hs.
       unfold external. by destruct (ad_observe adapter e (w_external w')). }
  apply (moves_bind _ _ _ settled) in Hm as (u & w2 & Hi & (_ & _ & _ & Ht2) & Hm);
    [|by apply settled_unmoved|by runs].
  apply (moves_bind _ _ _ settled) in Hm as (at_ & w3 & Hn & _ & Hm);
    [|by apply settled_unmoved|runs].
  injection Hn as <- <-.
  destruct (gate_evaluate e p current (clock (w_ticks w2))) eqn:Hg.
  - apply gate_allow_iff in Hg as (Hx & Hs & Hf & Hv & _). unfold external in Ho.
    destruct (ad_observe adapter e (w_external w)) as [r x'] eqn:Hobs. injection Ho as -> <-.
    exists (w_external w), x', current, (w_ticks w2). rewrite Ht in Ht2. by split_and!.
  - by destruct (gate_never_approval e p current (clock (w_ticks w2))).
  - exfalso. revert Hm. apply unmoved_not_moves. by runs.
  - exfalso. revert Hm. apply unmoved_not_moves. by runs.
Qed.

(** A commit that moves anything was admitted: it reached the adapter. *)
Lemma admitted_commit_moves id a c w : moves (commit registry id a c) w ->
  is_agent_actor c = false /\ may_commit (capabilities c) = true /\
  exists e p adapter authorization n, w_effects w !! id = Some e /\
    w_prepared w !! eff_id e = Some p /\ select_effect registry e = Ok adapter /\
    (exists k, check_knowledge_before_commit (session_id e) (action_id (source_action e)) k = Ok tt) /\
    a = Some authorization /\ w_ticks w <= n /\
    authorization_validate authorization [e] (clock n) = Ok tt /\
    (lifecycle e = EffectLifecycle.Prepared \/ lifecycle e = EffectLifecycle.Unknown) /\
    exists actor w4, settled w w4 /\
      moves (if decide (lifecycle e = EffectLifecycle.Unknown) then retry_unknown adapter e p actor
             else gated_commit adapter e p actor) w4.
Proof.
  intros Hm.
  apply (moves_bind _ _ _ settled) in Hm as (e & w0 & He & _ & Hm); [|by apply settled_unmoved|by runs].
  apply fetch_Ok in He as [He ->]. apply ok_or_Ok in He as Hrow.
  destruct (may_commit_as c) eqn:Hc;
    [|by destruct Hm; apply commit_internal_refused].
  unfold may_commit_as in Hc. apply andb_true_iff in Hc as [Hagent%negb_true_iff Hmay].
  split_and!; [done..|]. unfold commit_internal in Hm. rewrite Hagent, Hmay in Hm.
  apply (moves_bind _ _ _ settled) in Hm as (u & w1 & [= _ <-] & _ & Hm);
    [|by apply settled_unmoved|by runs].
  cbn [orb negb] in Hm. destruct (_ && _) eqn:Hl; [by destruct Hm|].
  apply (moves_bind _ _ _ settled) in Hm as (u1 & w1 & Hk & Hs1 & Hm);
    [|by apply settled_unmoved|by runs].
  apply (moves_bind _ _ _ settled) in Hm as (actor & w2 & _ & Hs2 & Hm);
    [|by apply settled_unmoved|by runs].
  apply (moves_bind _ _ _ settled) in Hm as (p & w3 & [Hp ->]%fetch_Ok & _ & Hm);
    [|by apply settled_unmoved|by runs].
  apply (moves_bind _ _ _ settled) in Hm as (authorization & w3 & Ha & Hs3 & Hm);
    [|by apply settled_unmoved|by runs].
  injection Ha as Ha <-. apply (moves_bind _ _ _ settled) in Hm as (at_ & w3 & Hn & Hs4 & Hm);
    [|by apply settled_unmoved|by runs]. injection Hn as <- <-.
  destruct (authorization_validate _ _ _) as [[]|er] eqn:Hv;
    [|exfalso; revert Hm; apply unmoved_not_moves; by runs].
  destruct (negb (existsb _ _)) eqn:Hex; [by destruct Hm|].
  apply (moves_bind _ _ _ settled) in Hm as (u2 & w4 & _ & Hs5 & Hm);
    [|by apply settled_unmoved|apply insert_commit_authorization_settled].
  apply (moves_bind _ _ _ settled) in Hm as (adapter & w5 & Had & Hs6 & Hm);
    [|by apply settled_unmoved|by runs]. injection Had as Had <-.
  assert (settled w w4) as Hs.
  { etrans; [exact Hs1|]. etrans; [exact Hs2|]. etrans; [exact Hs4|exact Hs5]. }
  assert (settled w w2) as (He2 & Hp2 & Hx2 & Ht2) by (etrans; [exact Hs1|exact Hs2]).
  exists e, p, adapter, authorization, (w_ticks w2). split_and!; [done| |done| | |done|done| |eauto].
  - rewrite <- Hp2. by eapply ok_or_Ok.
  - injection Hk as Hk _. destruct u1. eauto.
  - by eapply ok_or_Ok.
  - apply andb_false_iff in Hl as [Hl|Hl]; apply negb_false_iff, bool_decide_eq_true in Hl; auto.
Qed.

(** C2. When a commit changes the authoritative state, its caller is no agent
    and was granted commit; the effect was PREPARED or UNKNOWN and had a
    preparation; the knowledge check passed; an authorization was presented
    that, at that time, had not expired and was bound to exactly this effect
    and its scope; the effect's own adapter ran; and, unless the effect was
    UNKNOWN and the adapter honours idempotency keys, the gate was open: the
    preparation had not expired, its scope was the effect's, and the adapter
    observed, in the very authoritative state the commit started from, the
    fingerprint and version that were prepared. *)
Theorem commit_mutates_only_through_gate id a c w :
  authoritative (w_external (commit registry id a c w).2) <> authoritative (w_external w) ->
  is_agent_actor c = false /\ may_commit (capabilities c) = true /\
  exists e p adapter authorization n, w_effects w !! id = Some e /\
    w_prepared w !! eff_id e = Some p /\ select_effect registry e = Ok adapter /\
    (exists k, check_knowledge_before_commit (session_id e) (action_id (source_action e)) k = Ok tt) /\
    a = Some authorization /\ w_ticks w <= n /\
    authorization_validate authorization [e] (clock n) = Ok tt /\
    (lifecycle e = EffectLifecycle.Unknown /\ idempotency_keys (ad_capabilities adapter) = true \/
     lifecycle e = EffectLifecycle.Prepared /\ gate_open adapter e p (w_ticks w) (truth w)).
Proof.
  intros (Hagent & Hmay & e & p & adapter & authorization & n & He & Hp & Had & Hk & Ha & Hn & Hv & Hl &
    actor & w4 & (_ & _ & Hx & Ht) & Hm)%admitted_commit_moves.
  split_and!; [done..|]. exists e, p, adapter, authorization, n. split_and!; try done.
  case_decide as Hu.
  - left. split; [done|]. destruct (idempotency_keys _) eqn:Hi; [done|].
    unfold retry_unknown in Hm. rewrite Hi in Hm. by destruct Hm.
  - right. split; [by destruct Hl|]. apply gated_commit_moves in Hm; [|by apply (select_effect_staged e)].
    unfold truth in Hm |- *. rewrite Hx in Hm. by apply gate_open_mono with (w_ticks w4).
Qed.
End safety.

(** * The example world *)
Module EffectSafetyExamples.
Import EffectExample.

#[export] Instance doc_staged : StagedAdapter pages doc.
Proof.
  split; [done| |intros e p x|intros e x]; unfold ad_prepare, ad_discard, ad_reconcile, doc,
    doc_prepare, doc_discard, doc_reconcile.
  - intros e x. by case_bool_decide.
  - by case_bool_decide.
  - by case_bool_decide.
Qed.
Lemma registry_staged name a : adapters registry !! name = Some a -> StagedAdapter pages a.
Proof.
  change (adapters registry) with ({["doc" := doc]} : gmap string (EffectAdapter string Doc)).
  intros [_ <-]%lookup_singleton_Some. apply doc_staged.
Qed.

(** An effect staged in a Reality, and an authorization of the user for it. *)
Definition ready_run : result (string * CommitAuthorization) * World string unit Doc :=
  (id ← staged (Some "r1") "new" EffectFault.None_;
   a ← authorize CommitAuthority.User [id]; mret (id, a)) start.
Definition ready_id : string := match ready_run.1 with Ok (id, _) => id | Err _ => "" end.
Definition ready_auth : option CommitAuthorization :=
  match ready_run.1 with Ok (_, a) => Some a | Err _ => None end.

Lemma unauthorized_calls_never_mutate_witness :
  let x := CallCommit ready_id ready_auth (agent_context "bot") in
  pages (w_external ready_run.2) = ("old", "old") /\
  pages (w_external (run_call registry x ready_run.2).2) = pages (w_external ready_run.2).
Proof.
  split; [by vm_compute|].
  apply (unauthorized_calls_never_mutate registry pages registry_staged
    (CallCommit ready_id ready_auth (agent_context "bot")) ready_run.2). reflexivity.
Defined.

Lemma commit_mutates_only_through_gate_witness :
  page_a (w_external (commit registry ready_id ready_auth user_context ready_run.2).2) = "new" /\
  is_agent_actor user_context = false /\ may_commit (capabilities user_context) = true /\
  exists e p adapter authorization n, w_effects ready_run.2 !! ready_id = Some e /\
    w_prepared ready_run.2 !! eff_id e = Some p /\ select_effect registry e = Ok adapter /\
    (exists k, check_knowledge_before_commit (session_id e) (action_id (source_action e)) k = Ok tt) /\
    ready_auth = Some authorization /\ w_ticks ready_run.2 <= n /\
    authorization_validate authorization [e] (clock n) = Ok tt /\
    (lifecycle e = EffectLifecycle.Unknown /\ idempotency_keys (ad_capabilities adapter) = true \/
     lifecycle e = EffectLifecycle.Prepared /\
       gate_open pages adapter e p (w_ticks ready_run.2) (truth pages ready_run.2)).
Proof.
  split; [by vm_compute|].
  apply (commit_mutates_only_through_gate registry pages registry_staged ready_id ready_auth
    user_context ready_run.2). by vm_compute.
Defined.
End EffectSafetyExamples.
