(* ===== verification/EffectOutcome.v ===== *)
(** What the results of the manager tell of the state they leave: the outcome of
    a committed plan, of discarding a Reality, and of one commit. *)
From S2P Require Import Prelude StateError EconomicsModel EffectModel EffectAdapter EffectStore EffectManager.
From S2P Require Import EffectExample EffectLogic EffectFacts EffectProtocol.

Section plan.
Context {Value Actor X : Type} {libs : EffectLibs Value} {env : EffectEnv} {host : EffectHost Value Actor}.
Context (registry : EffectAdapterRegistry Value X).
#[local] Abbreviation Effect := (Effect Value).
#[local] Abbreviation World := (World Value Actor X).
#[local] Abbreviation eff := (eff World).

(** The first [k] members of the order are finished; the rest was not reached. *)
Definition committed_prefix (order : list string) (k : nat) (failed : option string) (w : World) : Prop :=
  (k <= length order /\ failed = order !! k) /\ Forall (fun id => finished id w) (take k order).

#[export] Instance committed_prefix_stable order k failed : Stable (committed_prefix order k failed).
Proof. unfold committed_prefix. exact _. Qed.

Lemma commit_all_prefix P order a c sc rs : Stable P ->
  hoare P (commit_all registry order a c sc rs) (fun r w =>
    exists k, (length r.1.1 = length rs + k /\ (r.2 = true -> k < length order)) /\
      committed_prefix order k r.1.2 w /\ P w).
Proof.
  revert P rs. induction order as [|id order IH]; intros P rs HP; cbn [commit_all].
  - apply hoare_ret_post. intros w Hp. exists 0. cbn.
    unfold committed_prefix. cbn. split_and!; [lia|done|lia|done|constructor|done].
  - eapply triple_bind; [by apply effect_triple|]. intros e. cbv beta.
    eapply triple_bind with (phi := reported e).
    { intros w Hw Hp. assert (Stable (fun w : World => (eff_id e = id /\ known e w) /\ P w)) as HS by exact _.
      destruct (commit_internal_reported registry _ e (Some a) c (Some sc) HS
        ltac:(by intros ? [[_ ?] _]) w Hw Hp) as (? & Hk & Hq).
      split_and!; [done|done|]. intros o Ho. split; [by apply Hq|by eapply HS]. }
    intros [receipt|reason rp|reason]; cbn [reported].
    + eapply hoare_conseq; [| |apply (IH (fun w => finished id w /\ P w)); exact _].
      * intros w (Hf & [<- _] & Hp). done.
      * intros r w (k & [Hl Hu] & [[Hk Hfl] Hfin] & Hid & Hp). exists (S k).
        rewrite length_app in Hl. cbn in *. unfold committed_prefix. cbn.
        split_and!; [lia|intros ?%Hu; lia|lia|done|by constructor|done].
    + apply hoare_ret_post. intros w (_ & _ & Hp). exists 0. cbn.
      unfold committed_prefix. cbn. split_and!; [lia|done|lia|done|constructor|done].
    + apply hoare_ret_post. intros w (_ & _ & Hp). exists 0. cbn.
      unfold committed_prefix. cbn. split_and!; [lia|lia|lia|done|constructor|done].
Qed.

Lemma eff_map_length {A B} (f : A -> eff B) l w ys w' :
  eff_map f l w = (Ok ys, w') -> length ys = length l.
Proof.
  revert w ys w'. induction l as [|x l IH]; intros w ys w'; cbn [eff_map]; [by intros [= <- _]|].
  intros (y & w1 & _ & (ys' & w2 & Hm & [= <- _])%bind_Ok)%bind_Ok. cbn. f_equal. by eapply IH.
Qed.

(** What compensating a group reports. *)
Definition group_report (p : EffectPlan) (n : nat) (o : CommitGroupOutcome.t)
    (cs : list (CompensationReceipt Value)) (o' : CommitGroupOutcome.t) : Prop :=
  (cs = [] /\ o' = o /\
     ~ (o = CommitGroupOutcome.PartiallyCommitted /\ atomicity p = EffectAtomicity.CompensatingGroup)) \/
  (o = CommitGroupOutcome.PartiallyCommitted /\ atomicity p = EffectAtomicity.CompensatingGroup /\
     length cs = n /\
     (o' = CommitGroupOutcome.FullyCompensated /\
        Forall (fun x => comp_status x = CompensationStatus.Successful) cs \/
      o' = CommitGroupOutcome.PartiallyCompensated /\
        ~ Forall (fun x => comp_status x = CompensationStatus.Successful) cs)).

Lemma compensate_group_report P p c rs o : Stable P ->
  triple P (compensate_group registry p c rs o)
    (fun q _ => group_report p (length rs) o q.1 q.2).
Proof.
  intros HP w Hw Hp. destruct (compensate_group_keeps registry p c rs o w Hw I) as (? & Hk & _).
  split_and!; [done|done|]. intros [cs o'] Hr. split; [|by eapply HP].
  destruct (compensate_group _ _ _ _ _ w) as [r w'] eqn:Hg. cbn in Hr. subst r.
  unfold compensate_group in Hg. unfold group_report. cbn. destruct (_ && _) eqn:Hb.
  - apply andb_true_iff in Hb as [->%bool_decide_eq_true Ha%bool_decide_eq_true]. right.
    apply bind_Ok in Hg as (ys & w1 & Hm & [= <- <- _]).
    apply eff_map_length in Hm. rewrite length_rev in Hm. split_and!; [done..|].
    destruct (forallb _ ys) eqn:Hf; [left|right]; (split; [done|]).
    + apply Forall_forall. intros x Hx%list_elem_of_In. rewrite forallb_forall in Hf.
      by specialize (Hf x Hx) as ?%bool_decide_eq_true.
    + intros Hall. apply not_true_iff_false in Hf. apply Hf, forallb_forall. intros x Hx%list_elem_of_In.
      rewrite Forall_forall in Hall. by apply bool_decide_eq_true, Hall.
  - injection Hg as <- <- _. left. split_and!; [done..|]. intros [-> Ha].
    by rewrite Ha, !bool_decide_eq_true_2 in Hb.
Qed.

Lemma insert_effect_group_Ok g (w : World) u w' : insert_effect_group g w = (Ok u, w') ->
  w_groups w' !! group_id g = Some g.
Proof.
  intros (kn & w1 & [= <- <-] & H)%bind_Ok. destruct (negb _); [done|].
  apply bind_Ok in H as (m & w1 & [Hm ->]%fetch_Ok & [= _ <-]). cbn. unfold insert_key in Hm.
  case_match; [done|]. injection Hm as <-. by rewrite lookup_insert_eq.
Qed.

(** The group result of a plan tells the truth about the state it leaves. *)
Definition group_truthful (p : EffectPlan) (g : EffectGroupResult Value) (w : World) : Prop :=
  exists order k, topological_order p = Ok order /\ length (committed g) = k /\
    committed_prefix order k (failed_effect g) w /\
    match commit_outcome g with
    | CommitGroupOutcome.FullyCommitted => k = length order
    | CommitGroupOutcome.NotCommitted => k = 0 /\ k < length order
    | CommitGroupOutcome.PartiallyCommitted => 0 < k < length order
    | CommitGroupOutcome.Unknown => k < length order
    | _ => False
    end /\
    group_report p k (commit_outcome g) (compensation g) (outcome g) /\
    (manual_intervention_required g = true <->
       outcome g ∈ [CommitGroupOutcome.PartiallyCompensated; CommitGroupOutcome.Unknown]).

Lemma group_outcome_spec (rs : list (CommitReceipt Value)) unknown n k :
  length rs = k -> k <= n -> (unknown = true -> k < n) ->
  match group_outcome n rs unknown with
  | CommitGroupOutcome.FullyCommitted => k = n
  | CommitGroupOutcome.NotCommitted => k = 0 /\ k < n
  | CommitGroupOutcome.PartiallyCommitted => 0 < k < n
  | CommitGroupOutcome.Unknown => k < n
  | _ => False
  end.
Proof.
  intros Hk Hn Hu. unfold group_outcome. destruct unknown; [by apply Hu|].
  case_decide; [lia|]. case_decide as Hr; [subst rs; cbn in *; lia|].
  destruct rs; [done|]. cbn in *. lia.
Qed.

Lemma commit_plan_reports p a c : NoDup (plan_effects p) ->
  hoare (fun _ => True) (commit_plan registry p a c) (fun g w =>
    group_truthful p g w /\ w_groups w !! group_id g = Some g).
Proof.
  intros Hn. unfold commit_plan. eapply triple_bind.
  { apply keeps_triple; [exact _|]. apply map_keeps. intros id. walk. }
  intros sc. eapply triple_bind; [statement|]. intros at_. eapply triple_bind; [statement|]. intros u0.
  eapply triple_bind; [apply lift_triple|]. intros order. cbv beta. apply hoare_pure. intros Ho.
  eapply hoare_bind; [apply commit_all_prefix; exact _|]. intros [[rs failed] unknown]. cbn.
  apply hoare_exists. intros k. apply hoare_pre with
    (fun w => (length rs = k /\ (unknown = true -> k < length order)) /\
              committed_prefix order k failed w).
  { by intros w (? & ? & _). }
  apply hoare_pure. intros [Hl Hu].
  pose proof (topological_order_sound p order Ho) as Hco.
  rewrite <- (commit_order_length p order Hn Hco).
  eapply triple_bind; [apply compensate_group_report; exact _|]. intros [cs o']. cbn.
  apply hoare_pure. intros Hg. eapply triple_bind; [statement|]. intros gid.
  eapply triple_bind; [statement|]. intros created. cbv zeta beta.
  set (g := mkGroup _ _ _ _ _ _ _ _ _). intros w Hw (_ & _ & Hpre).
  destruct (insert_effect_group g w) as [r w'] eqn:Hi.
  pose proof (runs_end _ _ _ _ _ (insert_effect_group_books g) Hi) as Hb.
  destruct (same_books_kept w w' Hb Hw) as [Hw' Hk]. unfold mbind, eff_bind. rewrite Hi.
  destruct r as [u|er]; cbn; (split_and!; [done|done|]); intros ? [= <-].
  split; [|by eapply insert_effect_group_Ok].
  exists order, k. split_and!; [done|done|by eapply committed_prefix_stable| |by subst k|].
  - apply group_outcome_spec; [done| |done]. apply Hpre.
  - cbn. rewrite orb_true_iff, !bool_decide_eq_true. set_solver.
Qed.

(** The result of committing a plan tells the truth: the plan had an order,
    the members that were committed are the first ones of that order and every
    one of them is now COMMITTED (or compensated since), the named failure is
    the member after them, the reported commit outcome is the right one for
    that prefix, the compensation that followed is reported member by member,
    human intervention is asked for exactly when a compensation was partial or
    the outcome is unknown, and the result was recorded. *)
Theorem commit_plan_truthful p a c w g w' : wf w -> NoDup (plan_effects p) ->
  commit_plan registry p a c w = (Ok g, w') ->
  group_truthful p g w' /\ w_groups w' !! group_id g = Some g.
Proof.
  intros Hw Hn Hr. destruct (commit_plan_reports p a c Hn w Hw I) as (_ & _ & Hq).
  rewrite Hr in Hq. by apply Hq.
Qed.
End plan.

(** * Discarding a Reality *)
Section discard.
Context {Value Actor X : Type} {libs : EffectLibs Value} {env : EffectEnv} {host : EffectHost Value Actor}.
Context (registry : EffectAdapterRegistry Value X).
#[local] Abbreviation Effect := (Effect Value).
#[local] Abbreviation World := (World Value Actor X).
#[local] Abbreviation eff := (eff World).

Definition same_rows (w w' : World) : Prop := w_effects w' = w_effects w.
#[local] Instance same_rows_ticking : Ticking same_rows.
Proof.
  split; [|by intros w|by intros w w' _]. split; [by intros w|].
  intros w1 w2 w3. unfold same_rows. congruence.
Qed.

(** The rows after the members of [gone] were discarded. *)
Definition retired (gone : list string) (id : string) (e : Effect) : Effect :=
  if decide (id ∈ gone) then set_lifecycle EffectLifecycle.Discarded e else e.
Definition with_gone (gone : list string) (w w' : World) : Prop :=
  forall id, w_effects w' !! id = retired gone id <$> w_effects w !! id.

Lemma retired_in gone id e : id ∈ gone -> retired gone id e = set_lifecycle EffectLifecycle.Discarded e.
Proof. intros. unfold retired. by rewrite decide_True. Qed.
Lemma retired_out gone id e : id ∉ gone -> retired gone id e = e.
Proof. intros. unfold retired. by rewrite decide_False. Qed.

Lemma with_gone_nil w w' : same_rows w w' -> with_gone [] w w'.
Proof. intros He id. rewrite He. by destruct (w_effects w !! id). Qed.

(** A transition, by its final rows. *)
Lemma transition_rows e next ty w r w' : transition_effect e next ty w = (r, w') ->
  match r with
  | Ok _ => w_effects w' = <[eff_id e := set_lifecycle next e]> (w_effects w)
  | Err _ => same_rows w w'
  end.
Proof.
  unfold transition_effect. destruct (negb _); [by intros [= <- <-]|]. cbv zeta. unfold transaction.
  match goal with |- context [match ?x with _ => _ end] => destruct x as [[e'|er] w1] eqn:Hr end;
    intros [= <- <-]; [|done].
  apply bind_Ok in Hr as (u & w2 & (row & _ & _ & ->)%update_effect_Ok & Hr).
  apply bind_Ok in Hr as (ev & w3 & (r' & id & at_ & _ & -> & ->)%insert_effect_event_Ok & [= _ <-]).
  done.
Qed.

(** A discarded effect is DISCARDED and nothing else changes; a refused or
    failed discard changes no row. *)
Lemma discard_rows id c w r w' : wf w -> discard registry id c w = (r, w') ->
  match r with Ok _ => with_gone [id] w w' | Err _ => same_rows w w' end.
Proof.
  intros Hw. unfold discard. destruct (negb _); [by intros [= <- <-]|].
  unfold mbind at 1, eff_bind at 1. destruct (effect id w) as [[e|er] w1] eqn:He;
    pose proof He as [= Hrow <-]; [|by intros [= <- <-]].
  apply ok_or_Ok in Hrow. pose proof (wf_key _ Hw _ _ Hrow) as Hid.
  case_decide; [by intros [= <- <-]|]. unfold mbind at 1, eff_bind at 1.
  match goal with |- context [match ?m w with _ => _ end] => 
    assert (runs_in same_rows m) as Hm by (by runs); specialize (Hm w);
    destruct (m w) as [[u|er] w2] end; cbn in Hm; [|by intros [= <- <-]].
  intros Ht%transition_rows. destruct r as [e'|er]; [|by unfold same_rows in *; congruence].
  intros j. rewrite Ht, Hm, Hid. destruct (decide (j = id)) as [->|Hne].
  - rewrite lookup_insert_eq, Hrow. cbn. by rewrite retired_in by apply list_elem_of_here.
  - rewrite lookup_insert_ne by done. destruct (w_effects w !! j); [|done]. cbn.
    by rewrite retired_out by (by rewrite list_elem_of_singleton).
Qed.

Lemma discard_end id c w r w' : wf w -> discard registry id c w = (r, w') ->
  wf w' /\ match r with Ok _ => with_gone [id] w w' | Err _ => same_rows w w' end.
Proof.
  intros Hw Hr. split; [|by eapply discard_rows].
  destruct (discard_keeps registry id c w Hw I) as [? _]. by rewrite Hr in H.
Qed.

Lemma with_gone_cons id gone w w1 w2 :
  with_gone [id] w w1 -> with_gone gone w1 w2 -> with_gone (id :: gone) w w2.
Proof.
  intros H1 H2 j. rewrite H2, H1. destruct (w_effects w !! j) as [e|]; [|done]. cbn. f_equal.
  unfold retired. repeat case_decide; try done; set_solver.
Qed.

Lemma with_gone_after gone w w1 w2 : same_rows w w1 -> with_gone gone w1 w2 -> with_gone gone w w2.
Proof. intros H1 H2 j. by rewrite H2, H1. Qed.

(** An effect that still has to be disposed of. *)
Definition is_open (e : Effect) : bool :=
  disposable (lifecycle e) || bool_decide (lifecycle e = EffectLifecycle.Unknown).

(** What the loop over [l] did: the effects it retired and those it left. *)
Record loop_report (l : list Effect) (d f d' f' : list string) (w w' : World) : Prop := {
  lr_split : exists gone left, d' = d ++ (eff_id <$> gone) /\ length f' = length f + length left /\
    gone ++ left ≡ₚ List.filter is_open l /\ Forall (fun e => disposable (lifecycle e) = true) gone /\
    with_gone (eff_id <$> gone) w w';
}.

Lemma loop_report_gone e l d f d' f' w w1 w' : disposable (lifecycle e) = true ->
  with_gone [eff_id e] w w1 -> loop_report l (d ++ [eff_id e]) f d' f' w1 w' ->
  loop_report (e :: l) d f d' f' w w'.
Proof.
  intros Hd H1 [(gone & left & -> & Hf & Hp & Hg & Hw)]. split. exists (e :: gone), left. split_and!.
  - by rewrite <- app_assoc.
  - done.
  - cbn. unfold is_open at 1. rewrite Hd. cbn. by rewrite Hp.
  - by constructor.
  - by eapply with_gone_cons.
Qed.
Lemma loop_report_left e l d f x d' f' w w1 w' : is_open e = true ->
  same_rows w w1 -> loop_report l d (f ++ [x]) d' f' w1 w' -> loop_report (e :: l) d f d' f' w w'.
Proof.
  intros Ho H1 [(gone & left & -> & Hf & Hp & Hg & Hw)]. split. exists gone, (e :: left). split_and!.
  - done.
  - rewrite Hf, length_app. cbn. lia.
  - cbn. rewrite Ho, <- Hp. by rewrite <- Permutation_middle.
  - done.
  - by eapply with_gone_after.
Qed.

Lemma discard_all_report l : forall d f w d' f' w', wf w ->
  discard_all registry l d f w = (Ok (d', f'), w') -> loop_report l d f d' f' w w'.
Proof.
  induction l as [|e l IH]; intros d f w d' f' w' Hw; cbn [discard_all].
  { intros [= <- <- <-]. split. exists [], []. rewrite app_nil_r.
    split_and!; [done|cbn; lia|done|constructor|by apply with_gone_nil]. }
  destruct (disposable (lifecycle e)) eqn:Hd.
  - intros (r & w1 & Ha & Hr)%bind_Ok. unfold attempt in Ha.
    destruct (discard registry (eff_id e) user_context w) as [r' w2] eqn:Hdis. injection Ha as <- <-.
    destruct (discard_end _ _ _ _ _ Hw Hdis) as [Hw2 Hrows]. destruct r' as [e'|er].
    + eapply loop_report_gone; eauto.
    + eapply loop_report_left; eauto. unfold is_open. by rewrite Hd.
  - case_decide as Hu.
    + intros Hr. eapply loop_report_left; [|done|by eapply IH]. unfold is_open.
      by rewrite Hu, bool_decide_eq_true_2, orb_true_r.
    + intros Hr. destruct (IH _ _ _ _ _ _ Hw Hr) as [(gone & left & ? & ? & Hp & ? & ?)]. split.
      exists gone, left. split_and!; try done. cbn. unfold is_open at 1.
      by rewrite Hd, bool_decide_eq_false_2.
Qed.

Lemma discard_all_returns l : forall d f (w : World), exists r w', discard_all registry l d f w = (Ok r, w').
Proof.
  induction l as [|e l IH]; intros d f w; cbn [discard_all]; [by eauto|].
  destruct (disposable _); [|case_decide; apply IH].
  unfold mbind, eff_bind, attempt. destruct (discard _ _ _ w) as [[?|?] w1]; apply IH.
Qed.

(** The effects of a Reality, as the store lists them. *)
Lemma all_effects_spec (w : World) : wf w ->
  NoDup (all_effects w) /\ forall e, e ∈ all_effects w <-> w_effects w !! eff_id e = Some e.
Proof.
  intros Hw. unfold all_effects. split.
  - apply NoDup_fmap_2_strong; [|apply NoDup_map_to_list].
    intros [i e] [j e'] Hi%elem_of_map_to_list Hj%elem_of_map_to_list He. cbn in He. subst e'.
    by rewrite <- (wf_key _ Hw _ _ Hi), <- (wf_key _ Hw _ _ Hj).
  - intros e. rewrite list_elem_of_fmap. split.
    + intros ([i e'] & -> & Hi%elem_of_map_to_list). cbn. by rewrite (wf_key _ Hw _ _ Hi).
    + intros He. exists (eff_id e, e). split; [done|]. by apply elem_of_map_to_list.
Qed.

Lemma effects_of_reality (w : World) rid : wf w -> exists l, effects (Some rid) w = (Ok l, w) /\
  NoDup (eff_id <$> l) /\
  (forall e, e ∈ l <-> w_effects w !! eff_id e = Some e /\ reality_id e = Some rid).
Proof.
  intros Hw. destruct (all_effects_spec w Hw) as [Hn He]. eexists. split; [reflexivity|].
  assert (forall e, e ∈ ordered (List.filter (fun e => bool_decide (reality_id e = Some rid)) (all_effects w))
            <-> w_effects w !! eff_id e = Some e /\ reality_id e = Some rid) as Hel.
  { intros e. unfold ordered. rewrite elem_of_sort_by_key, elem_of_list_filter_bool, He.
    rewrite bool_decide_eq_true. tauto. }
  split; [|done]. apply NoDup_fmap_2_strong.
  - intros x y [Hx _]%Hel [Hy _]%Hel Hxy. rewrite Hxy in Hx. congruence.
  - unfold ordered. rewrite sort_by_key_perm. apply NoDup_ListNoDup, List.NoDup_filter.
    by apply (proj1 (NoDup_ListNoDup _)).
Qed.

Definition settled_lifecycle (x : EffectLifecycle.t) : Prop :=
  x ∈ [EffectLifecycle.Rejected; EffectLifecycle.Committed; EffectLifecycle.Discarded;
       EffectLifecycle.Compensated].
Lemma not_open_settled e : is_open e = false -> settled_lifecycle (lifecycle e).
Proof.
  unfold is_open, settled_lifecycle. rewrite list_elem_of_In. by destruct (lifecycle e); cbn; auto.
Qed.

(** The success case: everything open was retired. *)
Lemma discard_reality_done rid (l gone : list Effect) (w w' : World) : wf w ->
  (forall e, e ∈ l <-> w_effects w !! eff_id e = Some e /\ reality_id e = Some rid) ->
  (forall e, e ∈ gone <-> e ∈ l /\ is_open e = true) ->
  (forall e, e ∈ gone -> disposable (lifecycle e) = true) ->
  with_gone (eff_id <$> gone) w w' ->
  with_gone (eff_id <$> gone) w w' /\
  (forall id, id ∈ eff_id <$> gone <-> exists e, w_effects w !! id = Some e /\
     reality_id e = Some rid /\ disposable (lifecycle e) = true) /\
  (forall id e, w_effects w' !! id = Some e -> reality_id e = Some rid ->
     settled_lifecycle (lifecycle e)).
Proof.
  intros Hw Hel Hin Hg Hrows.
  assert (forall id, id ∈ eff_id <$> gone <-> exists e, w_effects w !! id = Some e /\
     reality_id e = Some rid /\ disposable (lifecycle e) = true) as Hids.
  { intros id. rewrite list_elem_of_fmap. split.
    - intros (e & -> & He). pose proof (proj1 (Hin e) He) as [[? ?]%Hel _]. exists e. eauto.
    - intros (e & He & Hr & Hd). pose proof (wf_key _ Hw _ _ He) as <-. exists e. split; [done|].
      apply Hin. split; [by apply Hel|]. unfold is_open. by rewrite Hd. }
  split_and!; [done|done|]. intros id e He Hr. rewrite Hrows in He.
  destruct (w_effects w !! id) as [e0|] eqn:H0; [|done]. injection He as <-. unfold retired in *.
  case_decide as Hd; [unfold settled_lifecycle; cbn; set_solver|]. apply not_open_settled.
  apply not_true_iff_false. intros Ho. apply Hd. pose proof (wf_key _ Hw _ _ H0) as <-.
  apply list_elem_of_fmap. exists e0. split; [done|]. apply Hin. split; [by apply Hel|done].
Qed.

(** Discarding the effects of a Reality succeeds exactly when it leaves none
    behind. On success it returns the ids it discarded, these are the open
    effects of the Reality, their rows are now DISCARDED and no other row of the
    store changed, and every effect of the Reality is settled: rejected,
    committed, discarded or compensated. On failure, an intervention error, some
    effect of the Reality is still open, its row untouched. *)
Theorem discard_reality_correct rid w r w' : wf w -> discard_reality registry rid w = (r, w') ->
  match r with
  | Ok ids => with_gone ids w w' /\
      (forall id, id ∈ ids <-> exists e, w_effects w !! id = Some e /\ reality_id e = Some rid /\
                                  disposable (lifecycle e) = true) /\
      (forall id e, w_effects w' !! id = Some e -> reality_id e = Some rid ->
         settled_lifecycle (lifecycle e))
  | Err er => (exists text, er = Intervention text) /\
      exists id e, w_effects w !! id = Some e /\ w_effects w' !! id = Some e /\
        reality_id e = Some rid /\ is_open e = true
  end.
Proof.
  intros Hw. destruct (effects_of_reality w rid Hw) as (l & Hl & Hn & Hel). unfold discard_reality.
  unfold mbind at 1, eff_bind at 1. rewrite Hl.
  destruct (discard_all_returns l [] [] w) as ([d f] & w1 & Hr).
  unfold mbind, eff_bind. rewrite Hr. cbn.
  destruct (discard_all_report l [] [] w d f w1 Hw Hr) as [(gone & left & -> & Hf & Hp & Hg & Hrows)].
  assert (forall e, e ∈ gone ++ left <-> e ∈ l /\ is_open e = true) as Hin.
  { intros e. rewrite Hp, elem_of_list_filter_bool. tauto. }
  rewrite Forall_forall in Hg. destruct f as [|x f]; intros [= <- <-].
  - destruct left; [|cbn in Hf; lia]. rewrite app_nil_r in Hin. cbn.
    by apply (discard_reality_done rid l gone).
  - split; [eauto|]. destruct left as [|e left]; [cbn in Hf; lia|].
    destruct (proj1 (Hin e)) as [He Ho]; [set_solver|]. destruct (proj1 (Hel e) He) as [Hrow Hrid].
    exists (eff_id e), e. split_and!; [done| |done|done]. rewrite Hrows, Hrow. cbn. f_equal.
    apply retired_out. intros (e2 & Hid & Hg2)%list_elem_of_fmap.
    assert (e2 = e) as ->.
    { destruct (proj1 (Hin e2)) as [[Hrow2 _]%Hel _]; [set_solver|]. congruence. }
    assert (NoDup (gone ++ e :: left)) as (_ & Hdis & _)%NoDup_app.
    { rewrite Hp. apply NoDup_ListNoDup, List.NoDup_filter, (proj1 (NoDup_ListNoDup _)).
      by apply NoDup_fmap_1 in Hn. }
    by apply (Hdis e Hg2), list_elem_of_here.
Qed.
End discard.

(** * A commit that nothing stands in the way of *)
Section completes.
Context {Value Actor X : Type} {libs : EffectLibs Value} {env : EffectEnv} {host : EffectHost Value Actor}.
Context (registry : EffectAdapterRegistry Value X).
#[local] Abbreviation Effect := (Effect Value).
#[local] Abbreviation World := (World Value Actor X).
#[local] Abbreviation eff := (eff World).

Lemma bind_run {A B} (m : eff A) (f : A -> eff B) (w : World) a w1 r :
  m w = (Ok a, w1) -> f a w1 = r -> (m ≫= f) w = r.
Proof. unfold mbind, eff_bind. by intros -> <-. Qed.

(** The event an effect logs next. *)
Definition next_event (e : Effect) (ty : EffectEventType.t) (evidence : list string) (w : World) :
    EffectEvent :=
  mkEvent ("effect-event-" +:+ fresh (w_ticks w)) (eff_id e) (next_event_sequence (eff_id e) w) ty
    (clock (S (w_ticks w))) evidence.
Definition logged (e : Effect) (ty : EffectEventType.t) (evidence : list string) (w : World) : World :=
  with_events (<[eff_id e := events_of w (eff_id e) ++ [next_event e ty evidence w]]> (w_events w))
    (with_ticks (S (S (w_ticks w))) w).

Lemma insert_effect_event_run e ty evidence w : is_Some (w_effects w !! eff_id e) ->
  (next_event_sequence (eff_id e) w <= I64_MAX)%Z ->
  insert_effect_event e ty evidence w = (Ok (next_event e ty evidence w), logged e ty evidence w).
Proof.
  intros [r Hr] Hs. unfold insert_effect_event.
  do 4 (eapply bind_run; [reflexivity|]). cbn.
  change (next_event_sequence (eff_id e) (with_ticks _ w)) with (next_event_sequence (eff_id e) w).
  rewrite bool_decide_eq_false_2 by lia.
  by rewrite Hr.
Qed.

Lemma transaction_run {A} (m : eff A) w a w' : m w = (Ok a, w') -> transaction m w = (Ok a, w').
Proof. unfold transaction. by intros ->. Qed.

Lemma insert_snapshot_run e ph s (w : World) : w_snapshots w !! snap_id s = None ->
  insert_snapshot e ph s w =
    (Ok tt, with_snapshots (<[snap_id s := (eff_id e, ph, s)]> (w_snapshots w)) w).
Proof.
  intros Hn. unfold insert_snapshot. eapply bind_run.
  - unfold fetch, insert_key. by rewrite Hn.
  - reflexivity.
Qed.

(** A PREPARED effect, its preparation and its adapter, an authorization valid
    throughout the call, an open gate, an adapter that answers, and room in the
    tables. *)
Record unobstructed (e : Effect) (p : PreparedEffect Value) (a : CommitAuthorization)
    (adapter : EffectAdapter Value X) (receipt : CommitReceipt Value) (x3 : X) (w : World) : Prop := {
  un_row : w_effects w !! eff_id e = Some e;
  un_lifecycle : lifecycle e = EffectLifecycle.Prepared;
  un_prepared : w_prepared w !! eff_id e = Some p;
  un_adapter : select_effect registry e = Ok adapter;
  un_authorized : forall n, w_ticks w <= n <= w_ticks w + 8 -> authorization_validate a [e] (clock n) = Ok tt;
  un_log : (next_event_sequence (eff_id e) w + 1 <= I64_MAX)%Z;
  un_unreceipted : w_receipts w !! eff_id e = None /\
    map_Forall (fun _ q => receipt_id q <> receipt_id receipt) (w_receipts w);
  un_answers : exists current x1 x2 after,
    ad_observe adapter e (w_external w) = (Ok current, x1) /\
    (forall n, w_ticks w <= n <= w_ticks w + 8 -> gate_evaluate e p current (clock n) = CommitGateDecision.Allow) /\
    ad_commit adapter e p x1 = (Ok (AdapterCommitted receipt), x2) /\
    ad_observe adapter e x2 = (Ok after, x3) /\
    w_snapshots w !! snap_id current = None /\ w_snapshots w !! snap_id after = None /\
    snap_id after <> snap_id current;
}.

(** The other subsystems raise no objection and bind no actor. *)
Record agreeable : Prop := {
  ag_knowledge : forall s a n, check_knowledge_before_commit s a n = Ok tt;
  ag_actor : forall e n, bind_effect_actor e n = Ok None;
  ag_experience : forall e k b n, record_effect_experience e k b n = Ok tt;
}.

Lemma append_event_run e ty w : is_Some (w_effects w !! eff_id e) ->
  (next_event_sequence (eff_id e) w <= I64_MAX)%Z ->
  append_effect_event e ty w = (Ok (next_event e ty (eff_evidence e) w), logged e ty (eff_evidence e) w).
Proof. intros. by apply transaction_run, insert_effect_event_run. Qed.

Lemma next_sequence_logged e ty ev (w : World) : numbered (eff_id e) (events_of w (eff_id e)) ->
  next_event_sequence (eff_id e) (logged e ty ev w) = (next_event_sequence (eff_id e) w + 1)%Z.
Proof.
  intros Hn. rewrite !next_sequence_length; [|done|].
  - unfold logged, events_of; cbn. rewrite lookup_insert_eq. cbn. rewrite length_app. cbn. lia.
  - unfold events_of at 1; cbn. rewrite lookup_insert_eq. cbn. apply numbered_app; [done| |done].
    by apply next_sequence_length.
Qed.

(** The last transaction, from a world that still holds the PREPARED row. *)
Lemma save_commit_receipt_run e receipt after (w : World) :
  w_effects w !! eff_id e = Some e -> lifecycle e = EffectLifecycle.Prepared ->
  (next_event_sequence (eff_id e) w <= I64_MAX)%Z -> w_snapshots w !! snap_id after = None ->
  w_receipts w !! eff_id e = None ->
  map_Forall (fun _ q => receipt_id q <> receipt_id receipt) (w_receipts w) ->
  exists w', save_commit_receipt e receipt after None w =
      (Ok (set_lifecycle EffectLifecycle.Committed e), w') /\
    w_effects w' !! eff_id e = Some (set_lifecycle EffectLifecycle.Committed e) /\
    w_receipts w' !! eff_id e = Some receipt /\ w_external w' = w_external w /\
    ev_type <$> events_of w' (eff_id e) = (ev_type <$> events_of w (eff_id e)) ++ [EffectEventType.Committed].
Proof.
  intros Hr Hl Hs Hsn Hn Hq. unfold save_commit_receipt. rewrite Hl. cbn [EffectLifecycle.allows negb].
  set (e' := set_lifecycle EffectLifecycle.Committed e).
  set (w1 := with_receipts (<[eff_id e := receipt]> (w_receipts w)) w).
  set (w2 := with_snapshots (<[snap_id after := (eff_id e, "post_commit", after)]> (w_snapshots w)) w1).
  set (w3 := with_effects (<[eff_id e := e']> (w_effects w)) w2).
  exists (logged e' EffectEventType.Committed (eff_evidence e') w3). split_and!.
  - apply transaction_run. eapply bind_run with (w1 := w1) (a := tt).
    { unfold insert_receipt, modify. f_equal. rewrite Hn, bool_decide_eq_false_2 by (by intros [? ?]).
      rewrite bool_decide_eq_false_2; [done|]. intros (i & q & Hi & Hq'). by apply (Hq i q Hi). }
    eapply bind_run with (w1 := w1) (a := tt); [reflexivity|].
    eapply bind_run with (w1 := w2) (a := tt); [by apply insert_snapshot_run|].
    eapply bind_run with (w1 := w3) (a := tt).
    { unfold update_effect. eapply bind_run; [reflexivity|]. cbn. rewrite Hr, Hl.
      by rewrite bool_decide_eq_true_2. }
    eapply bind_run; [apply insert_effect_event_run; [|done]|reflexivity].
    cbn. by rewrite lookup_insert_eq.
  - cbn. by rewrite lookup_insert_eq.
  - cbn. by rewrite lookup_insert_eq.
  - done.
  - unfold logged, events_of; cbn. rewrite lookup_insert_eq. cbn. by rewrite fmap_app.
Qed.

Lemma insert_commit_authorization_run a (w : World) :
  exists m, insert_commit_authorization a w = (Ok tt, with_authorizations m w).
Proof.
  unfold insert_commit_authorization, modify. destruct (w_authorizations w !! auth_id a).
  - exists (w_authorizations w). by destruct w.
  - by eexists.
Qed.

Lemma finish_commit_run adapter e receipt kind after x (w : World) : agreeable ->
  ad_observe adapter e (w_external w) = (Ok after, x) ->
  w_effects w !! eff_id e = Some e -> lifecycle e = EffectLifecycle.Prepared ->
  (next_event_sequence (eff_id e) w <= I64_MAX)%Z -> w_snapshots w !! snap_id after = None ->
  w_receipts w !! eff_id e = None ->
  map_Forall (fun _ q => receipt_id q <> receipt_id receipt) (w_receipts w) ->
  exists w' e', finish_commit adapter e receipt None kind w = (Ok (e', receipt), w') /\
    w_effects w' !! eff_id e = Some (set_lifecycle EffectLifecycle.Committed e) /\
    w_receipts w' !! eff_id e = Some receipt /\ w_external w' = x /\
    ev_type <$> events_of w' (eff_id e) = (ev_type <$> events_of w (eff_id e)) ++ [EffectEventType.Committed].
Proof.
  intros [_ _ Hex] Ho Hr Hl Hs Hsn Hn Hq.
  destruct (save_commit_receipt_run e receipt after (with_external x w)) as (w1 & Hrun & Hw); try done.
  exists (with_ticks (S (w_ticks w1)) w1), (set_lifecycle EffectLifecycle.Committed e).
  split; [|exact Hw]. unfold finish_commit. eapply bind_run; [reflexivity|].
  eapply bind_run; [unfold external; rewrite Ho; reflexivity|].
  eapply bind_run; [exact Hrun|]. eapply bind_run; [|reflexivity].
  unfold collab. by rewrite Hex.
Qed.

(** An admitted commit of a PREPARED effect comes down to the gate. *)
Lemma commit_reaches_gate e p a c adapter auths (w : World) :
  agreeable -> is_agent_actor c = false -> may_commit (capabilities c) = true ->
  w_effects w !! eff_id e = Some e -> lifecycle e = EffectLifecycle.Prepared ->
  w_prepared w !! eff_id e = Some p -> select_effect registry e = Ok adapter ->
  authorization_validate a [e] (clock (2 + w_ticks w)) = Ok tt ->
  insert_commit_authorization a (with_ticks (3 + w_ticks w) w) =
    (Ok tt, with_authorizations auths (with_ticks (3 + w_ticks w) w)) ->
  commit registry (eff_id e) (Some a) c w =
    gated_commit adapter e p None (with_authorizations auths (with_ticks (3 + w_ticks w) w)).
Proof.
  intros Hag Hagent Hmay Hr Hl Hp Had Hau Hia.
  unfold commit. eapply bind_run; [unfold effect, fetch; rewrite Hr; reflexivity|].
  unfold commit_internal. rewrite Hagent. eapply bind_run; [reflexivity|]. rewrite Hmay. cbn [orb negb].
  rewrite (bool_decide_eq_true_2 _ Hl). cbn [negb andb].
  eapply bind_run; [unfold collab; rewrite (ag_knowledge Hag); reflexivity|].
  eapply bind_run; [unfold collab; rewrite (ag_actor Hag); reflexivity|].
  eapply bind_run; [unfold prepared_effect, fetch; cbn; rewrite Hp; reflexivity|].
  eapply bind_run; [reflexivity|]. cbv zeta. eapply bind_run; [reflexivity|].
  cbn [default from_option w_ticks with_ticks]. change (S (S (w_ticks w))) with (2 + w_ticks w). rewrite Hau.
  cbn [existsb]. rewrite bool_decide_eq_true_2 by done. cbn [orb negb].
  eapply bind_run; [exact Hia|]. eapply bind_run; [unfold lift; rewrite Had; reflexivity|].
  by rewrite decide_False by (by rewrite Hl).
Qed.

(** A commit that nothing stands in the way of completes: of a PREPARED
    effect with its preparation, by a user granted commit, under an
    authorization that stays valid during the call, with an open gate and an
    adapter that answers, it returns the adapter's receipt; the effect is then
    COMMITTED, its receipt is stored, the external state is the one the adapter
    left, and the log gained exactly CommitAuthorized and Committed. *)
Theorem unobstructed_commit_completes e p a c adapter receipt x3 w :
  wf w -> agreeable -> is_agent_actor c = false -> may_commit (capabilities c) = true ->
  unobstructed e p a adapter receipt x3 w ->
  exists w', commit registry (eff_id e) (Some a) c w = (Ok (CommittedOutcome receipt), w') /\
    w_effects w' !! eff_id e = Some (set_lifecycle EffectLifecycle.Committed e) /\
    w_receipts w' !! eff_id e = Some receipt /\ w_external w' = x3 /\
    ev_type <$> events_of w' (eff_id e) =
      (ev_type <$> events_of w (eff_id e)) ++ [EffectEventType.CommitAuthorized; EffectEventType.Committed].
Proof.
  intros Hw Hag Hagent Hmay [Hr Hl Hp Had Hau Hlog [Hnr Hq] Han].
  destruct Han as (current & x1 & x2 & after & Hobs & Hgate & Hcom & Hobs2 & Hs1 & Hs2 & Hs12).
  destruct (insert_commit_authorization_run a (with_ticks (3 + w_ticks w) w)) as [auths Hia].
  set (w1 := with_external x1 (with_authorizations auths (with_ticks (3 + w_ticks w) w))).
  set (w2 := with_snapshots (<[snap_id current := (eff_id e, "pre_commit", current)]> (w_snapshots w)) w1).
  set (w3 := logged e EffectEventType.CommitAuthorized (eff_evidence e) (with_ticks (4 + w_ticks w) w2)).
  destruct (finish_commit_run adapter e receipt "commit" after x3 (with_external x2 w3))
    as (w' & e' & Hfin & Hrow & Hrec & Hext & Hev); try done.
  { change (next_event_sequence _ _) with (next_event_sequence (eff_id e) w3). unfold w3.
    rewrite next_sequence_logged; [done|apply Hw]. }
  { cbn. by rewrite lookup_insert_ne. }
  exists w'. split_and!; [|done..|].
  - rewrite (commit_reaches_gate e p a c adapter auths w) by (done || (apply Hau; lia)). unfold gated_commit.
    eapply bind_run with (w1 := w1); [unfold external; cbn; rewrite Hobs; reflexivity|].
    eapply bind_run with (w1 := w2); [by apply transaction_run, insert_snapshot_run|].
    eapply bind_run; [reflexivity|]. cbn [w_ticks w2 w1 with_ticks with_snapshots with_external with_authorizations].
    rewrite Hgate by lia.
    eapply bind_run with (w1 := w3); [apply append_event_run; [by eexists|]|].
    { change (next_event_sequence (eff_id e) _) with (next_event_sequence (eff_id e) w). lia. }
    eapply bind_run; [unfold external; cbn; rewrite Hcom; reflexivity|]. cbn.
    eapply bind_run; [exact Hfin|reflexivity].
  - rewrite Hev. unfold w3, logged, events_of; cbn. rewrite lookup_insert_eq. cbn.
    rewrite fmap_app, <- app_assoc. done.
Qed.
End completes.

(** * Runs of the example world *)
Module EffectOutcomeExamples.
Import EffectExample.
#[local] Abbreviation run x w := ((run_call registry x w).2).
#[local] Abbreviation stage text f := (CallProposeAndPrepare (request (Some "r1") text f) user_context).

(** Two effects prepared in a Reality; the second will fail one way or another. *)
Definition pair_world (f : EffectFault.t) : World string unit Doc :=
  run (stage "two" f) (run (stage "one" EffectFault.None_) start).
Definition pair_ids (f : EffectFault.t) : list string :=
  match effects (Some "r1") (pair_world f) with (Ok l, _) => eff_id <$> l | _ => [] end.

Lemma pair_world_wf f : wf (pair_world f).
Proof.
  apply (run_kept registry start); [by apply initial_wf|].
  eapply rtc_l; [apply step_call|]. apply rtc_once, step_call.
Qed.

(** Authorize and commit the pair as a plan, in order. *)
Definition pair_plan (f : EffectFault.t) : EffectPlan :=
  mkPlan "plan" (pair_ids f)
    match pair_ids f with [a; b] => [mkDependency a b] | _ => [] end EffectAtomicity.CompensatingGroup 0.
Definition pair_auth (f : EffectFault.t) : CommitAuthorization :=
  match authorize CommitAuthority.User (pair_ids f) (pair_world f) with
  | (Ok a, _) => a | _ => mkAuthorization "" CommitAuthority.User [] 0 None "" end.
(** The world with the plan stored. *)
Definition planned (f : EffectFault.t) : World string unit Doc :=
  with_plans {["plan" := pair_plan f]} (pair_world f).
Lemma with_plans_wf m (w : World string unit Doc) : wf w -> wf (with_plans m w).
Proof. intros Hw. by apply (same_books_kept w). Qed.
Lemma planned_wf f : wf (planned f).
Proof. apply with_plans_wf, pair_world_wf. Qed.
Definition pair_commit (f : EffectFault.t) :=
  commit_plan registry (pair_plan f) (pair_auth f) user_context (planned f).

Lemma commit_plan_truthful_witness :
  match pair_commit EffectFault.CommitFailureBeforeMutation with
  | (Ok g, w') => outcome g = CommitGroupOutcome.FullyCompensated /\
      group_truthful (pair_plan EffectFault.CommitFailureBeforeMutation) g w' /\
      w_groups w' !! group_id g = Some g
  | _ => False end.
Proof.
  destruct (pair_commit EffectFault.CommitFailureBeforeMutation) as [[g|er] w'] eqn:Hr;
    [|by vm_compute in Hr].
  split; [vm_compute in Hr; by injection Hr as <- _|].
  apply (commit_plan_truthful registry (pair_plan EffectFault.CommitFailureBeforeMutation)
    (pair_auth EffectFault.CommitFailureBeforeMutation) user_context
    (planned EffectFault.CommitFailureBeforeMutation) g w');
    [apply planned_wf|apply (bool_decide_eq_true_1 (NoDup _)); by vm_compute|exact Hr].
Defined.

(** The Reality is emptied: both effects are PREPARED and discarded; with a
    document that cannot be cleaned up, it is not. *)
Lemma discard_reality_correct_witness :
  match discard_reality registry "r1" (pair_world EffectFault.None_) with
  | (Ok ids, w') => length ids = 2 /\ with_gone ids (pair_world EffectFault.None_) w' /\
      (forall id, id ∈ ids <-> exists e, w_effects (pair_world EffectFault.None_) !! id = Some e /\
         reality_id e = Some "r1" /\ disposable (lifecycle e) = true) /\
      (forall id e, w_effects w' !! id = Some e -> reality_id e = Some "r1" ->
         settled_lifecycle (lifecycle e))
  | _ => False end.
Proof.
  destruct (discard_reality registry "r1" (pair_world EffectFault.None_)) as [[ids|er] w'] eqn:Hr;
    [|by vm_compute in Hr].
  split; [vm_compute in Hr; by injection Hr as <- _|].
  apply (discard_reality_correct registry "r1" (pair_world EffectFault.None_) (Ok ids) w');
    [apply pair_world_wf|exact Hr].
Defined.
Example discard_failure_reported :
  match discard_reality registry "r1" (pair_world EffectFault.DiscardFailure) with
  | (Err _, w') => True | _ => False end.
Proof. vm_compute. exact I. Qed.

(** An error in the middle of a plan is returned as it is: the members before
    it stay committed, nothing is compensated though the plan is a compensating
    group, and no group result records the partial commit. *)
Theorem commit_plan_error_unrecorded :
  match pair_commit EffectFault.ReservationExpiry, pair_ids EffectFault.ReservationExpiry with
  | (Err _, w'), first :: _ => finished first w' /\ w_groups w' = ∅ /\ w_compensations w' = ∅ /\
      page_a (w_external w') = "one"
  | _, _ => False end.
Proof.
  vm_compute. split_and!; try reflexivity. eexists. split; [reflexivity|]. apply list_elem_of_here.
Qed.

(** When the adapter commits and then cannot observe, the commit fails and
    the effect stays PREPARED, so that it can still be discarded: it ends as
    DISCARDED, without a receipt, although the authoritative state was
    changed. *)
Theorem discarded_after_mutation :
  let run_all : eff (World string unit Doc) (result (CommitOutcome string) * result (Effect string)) :=
    r ← propose_and_prepare blind_registry (request None "new" EffectFault.None_) user_context;
    a ← authorize CommitAuthority.User [eff_id r.1];
    o ← attempt (commit blind_registry (eff_id r.1) (Some a) user_context);
    d ← attempt (discard blind_registry (eff_id r.1) user_context);
    mret (o, d) in
  match run_all start with
  | (Ok (Err _, Ok e), w') => lifecycle e = EffectLifecycle.Discarded /\ w_receipts w' = ∅ /\
      page_a (w_external start) = "old" /\ page_a (w_external w') = "new"
  | _ => False end.
Proof. vm_compute. split_and!; reflexivity. Qed.

(** One effect prepared and authorized. *)
Definition ready_world : World string unit Doc :=
  run (CallAuthorize CommitAuthority.User ["effect-ii"]) (run (stage "new" EffectFault.None_) start).
Definition ready_effect : option (Effect string) := w_effects ready_world !! "effect-ii".
Definition ready_prepared : option (PreparedEffect string) := w_prepared ready_world !! "effect-ii".
Definition ready_auth : option CommitAuthorization :=
  head (snd <$> map_to_list (w_authorizations ready_world)).
Lemma ready_world_wf : wf ready_world.
Proof.
  apply (run_kept registry start); [by apply initial_wf|].
  eapply rtc_l; [apply step_call|]. apply rtc_once, step_call.
Qed.
Lemma example_agreeable : agreeable (Value := string) (Actor := unit).
Proof. by split. Qed.

(** Every instant of the call. *)
#[local] Ltac each_instant :=
  let n := fresh "n" in let Hn := fresh "Hn" in
  intros n Hn; vm_compute in Hn; do 40 (destruct n as [|n]; [first [lia|vm_compute; reflexivity]|]); lia.

Lemma unobstructed_commit_completes_witness :
  match ready_effect, ready_prepared, ready_auth with
  | Some e, Some p, Some a => exists receipt x3 w',
      commit registry (eff_id e) (Some a) user_context ready_world = (Ok (CommittedOutcome receipt), w') /\
      w_effects w' !! eff_id e = Some (set_lifecycle EffectLifecycle.Committed e) /\
      w_receipts w' !! eff_id e = Some receipt /\ w_external w' = x3 /\
      ev_type <$> events_of w' (eff_id e) = (ev_type <$> events_of ready_world (eff_id e)) ++
        [EffectEventType.CommitAuthorized; EffectEventType.Committed]
  | _, _, _ => False end.
Proof.
  destruct ready_effect as [e|] eqn:He; [|by vm_compute in He].
  destruct ready_prepared as [p|] eqn:Hp; [|by vm_compute in Hp].
  destruct ready_auth as [a|] eqn:Ha; [|by vm_compute in Ha].
  vm_compute in He. injection He as <-. vm_compute in Hp. injection Hp as <-.
  vm_compute in Ha. injection Ha as <-. eexists _, _.
  eapply (unobstructed_commit_completes registry _ _ _ _ doc _ _ ready_world ready_world_wf
    example_agreeable); [reflexivity|reflexivity|].
  split.
  - vm_compute; reflexivity.
  - reflexivity.
  - vm_compute; reflexivity.
  - vm_compute; reflexivity.
  - each_instant.
  - vm_compute; discriminate.
  - split; [vm_compute; reflexivity|apply map_Forall_empty].
  - do 4 eexists. split; [vm_compute; reflexivity|]. split; [each_instant|].
    split_and!; try (vm_compute; reflexivity). vm_compute; discriminate.
Defined.
End EffectOutcomeExamples.
