(* ===== verification/Paths.v ===== *)
(** [std::path] on Unix, as far as the capability subsystem uses it: components,
    component-wise equality and prefixes, joining, and parents. A path is its
    text. *)
From Stdlib Require Import Ascii.
From S2P Require Import Prelude.

Inductive Component := RootDir | CurDir | ParentDir | Normal (name : string).
#[global] Instance component_eq_dec : EqDecision Component.
Proof. solve_decision. Defined.

Definition slash : Ascii.ascii := "/"%char.
Arguments slash : simpl never.

(** The pieces between the separators. *)
Fixpoint split_slash (s : string) : list string :=
  match s with
  | EmptyString => [EmptyString]
  | String a rest =>
      if decide (a = slash) then EmptyString :: split_slash rest
      else match split_slash rest with
           | [] => [String a EmptyString]
           | piece :: pieces => String a piece :: pieces
           end
  end.

(** A piece after the first: repeated separators and [.] vanish. *)
Definition piece_component (piece : string) : list Component :=
  if decide (piece = EmptyString) then []
  else if decide (piece = ".") then []
  else if decide (piece = "..") then [ParentDir]
  else [Normal piece].

Definition is_absolute (path : string) : bool :=
  match path with String a _ => bool_decide (a = slash) | EmptyString => false end.

(** [Path::components]: a leading [.] of a relative path is kept. *)
Definition components (path : string) : list Component :=
  match path with
  | String a rest =>
      if decide (a = slash) then RootDir :: concat (piece_component <$> split_slash rest)
      else match split_slash path with
           | piece :: pieces =>
               (if decide (piece = ".") then [CurDir] else piece_component piece) ++
               concat (piece_component <$> pieces)
           | [] => []
           end
  | EmptyString => []
  end.

(** [Path::eq] and [Path::starts_with] compare components. *)
Definition path_eq (p q : string) : bool := bool_decide (components p = components q).
Definition starts_with (p base : string) : bool := bool_decide (components base `prefix_of` components p).

Fixpoint ends_with_slash (s : string) : bool :=
  match s with
  | EmptyString => false
  | String a EmptyString => bool_decide (a = slash)
  | String _ rest => ends_with_slash rest
  end.

(** [PathBuf::push] and [Path::join]. *)
Definition push (buffer path : string) : string :=
  if is_absolute path then path
  else if bool_decide (buffer = EmptyString) || ends_with_slash buffer then buffer +:+ path
  else buffer +:+ "/" +:+ path.

Arguments push : simpl never.

(** The text of a list of components. *)
Definition component_text (c : Component) : string :=
  match c with RootDir => "/" | CurDir => "." | ParentDir => ".." | Normal name => name end.
Definition render (cs : list Component) : string :=
  foldl push EmptyString (component_text <$> cs).

(** [Path::strip_prefix]: what follows the prefix, or nothing. *)
Definition strip_prefix (p base : string) : option string :=
  if starts_with p base then Some (render (drop (length (components base)) (components p)))
  else None.

(** The results of [Path::parent], repeated; a root has none. *)
Fixpoint proper_ancestors (reversed : list Component) : list string :=
  match reversed with
  | [] => []
  | RootDir :: _ => []
  | _ :: rest => render (rev rest) :: proper_ancestors rest
  end.
Definition ancestors (p : string) : list string := p :: proper_ancestors (rev (components p)).

(** * Facts *)

(** A name that is one component. *)
Definition plain (name : string) : Prop :=
  split_slash name = [name] /\ piece_component name = [Normal name].

#[global] Instance plain_dec name : Decision (plain name).
Proof. unfold plain. apply _. Defined.

Lemma split_slash_ne s : split_slash s <> [].
Proof. destruct s; cbn; [done|]. repeat case_match; done. Qed.

Lemma split_slash_app s t :
  split_slash (s +:+ String slash t) = split_slash s ++ split_slash t.
Proof.
  induction s as [|a s IH].
  - change (EmptyString +:+ String slash t) with (String slash t). cbn. by rewrite decide_True.
  - change (String a s +:+ String slash t) with (String a (s +:+ String slash t)). cbn.
    case_decide; rewrite IH; [done|]. pose proof (split_slash_ne s). by destruct (split_slash s).
Qed.

(** The pieces hold no separator. *)
Lemma split_slash_pieces s piece : piece ∈ split_slash s -> split_slash piece = [piece].
Proof.
  revert piece. induction s as [|a s IH]; intros piece; cbn.
  - intros ->%list_elem_of_singleton. done.
  - case_decide as Ha.
    + intros [->|Hin]%elem_of_cons; [done|by apply IH].
    + pose proof (split_slash_ne s) as Hne. destruct (split_slash s) as [|q qs]; [done|].
      intros [->|Hin]%elem_of_cons; [|apply IH; set_solver].
      cbn. rewrite decide_False by done. by rewrite (IH q) by set_solver.
Qed.

Lemma piece_component_Normal piece name :
  piece_component piece = [Normal name] -> piece = name.
Proof. unfold piece_component. repeat case_decide; congruence. Qed.

Lemma piece_component_plain piece c : split_slash piece = [piece] ->
  c ∈ piece_component piece -> c = ParentDir \/ exists name, c = Normal name /\ plain name.
Proof.
  unfold piece_component at 1. intros Hs.
  repeat case_decide; try set_solver.
  intros ->%list_elem_of_singleton. right. exists piece. split; [done|].
  split; [done|]. unfold piece_component. by rewrite !decide_False.
Qed.

(** After the root of an absolute path come only names and [..]. *)
Lemma components_root rest :
  components (String slash rest) = RootDir :: concat (piece_component <$> split_slash rest).
Proof. cbn [components]. by rewrite decide_True. Qed.

Lemma is_absolute_inv path : is_absolute path = true -> exists rest, path = String slash rest.
Proof. destruct path as [|a rest]; [done|]. cbn. intros ->%bool_decide_eq_true. by exists rest. Qed.

Lemma components_absolute path : is_absolute path = true ->
  exists cs, components path = RootDir :: cs /\
    forall c, c ∈ cs -> c = ParentDir \/ exists name, c = Normal name /\ plain name.
Proof.
  intros [rest ->]%is_absolute_inv. rewrite components_root. eexists. split; [done|].
  intros c Hc. apply list_elem_of_In, in_concat in Hc as (l & Hl & Hc).
  apply list_elem_of_In, list_elem_of_fmap in Hl as (piece & -> & Hp).
  apply list_elem_of_In in Hc. by eapply piece_component_plain; [eapply split_slash_pieces|].
Qed.

Lemma ends_with_slash_inv s : ends_with_slash s = true -> exists r, s = r +:+ "/".
Proof.
  induction s as [|a s IH]; [done|]. destruct s as [|b s]; cbn [ends_with_slash].
  - intros ->%bool_decide_eq_true. by exists EmptyString.
  - intros [r Hr]%IH. exists (String a r). by rewrite Hr.
Qed.

(** The components a text adds below a directory. *)
Definition pieces (s : string) : list Component := concat (piece_component <$> split_slash s).

Lemma app_slash r t : (r +:+ "/") +:+ t = r +:+ String slash t.
Proof. induction r as [|c r IH]; [done|exact (f_equal (String c) IH)]. Qed.

Lemma pieces_slash r t : pieces (r +:+ String slash t) = pieces r ++ pieces t.
Proof. unfold pieces. by rewrite split_slash_app, fmap_app, concat_app. Qed.

Lemma pieces_push t rel : is_absolute rel = false -> pieces (push t rel) = pieces t ++ pieces rel.
Proof.
  intros Hrel. unfold push. rewrite Hrel.
  destruct (bool_decide_reflect (t = EmptyString)) as [->|Ht]; [done|]. cbn [orb].
  destruct (ends_with_slash t) eqn:He.
  - apply ends_with_slash_inv in He as [r ->]. rewrite app_slash.
    change (r +:+ "/") with (r +:+ String slash EmptyString). rewrite !pieces_slash.
    by rewrite app_nil_r.
  - change (t +:+ "/" +:+ rel) with (t +:+ String slash rel). by rewrite pieces_slash.
Qed.

Lemma push_root rest rel : is_absolute rel = false ->
  push (String slash rest) rel = String slash (push rest rel).
Proof.
  intros Hrel. unfold push. rewrite Hrel. destruct rest as [|b rest]; [done|].
  change (ends_with_slash (String slash (String b rest))) with (ends_with_slash (String b rest)).
  rewrite !bool_decide_eq_false_2 by done. by destruct (ends_with_slash (String b rest)).
Qed.

(** Pushing a relative text appends its components. *)
Lemma components_push_rel buffer rel : is_absolute buffer = true -> is_absolute rel = false ->
  components (push buffer rel) = components buffer ++ pieces rel.
Proof.
  intros [rest ->]%is_absolute_inv Hrel. rewrite push_root, !components_root by done.
  fold (pieces (push rest rel)) (pieces rest). by rewrite pieces_push.
Qed.

Lemma plain_relative name : plain name -> is_absolute name = false /\ pieces name = [Normal name].
Proof.
  intros [Hs Hn]. split; [|unfold pieces; rewrite Hs; cbn; by rewrite Hn].
  destruct name as [|a n]; [done|]. cbn in *. apply bool_decide_eq_false. intros ->.
  rewrite decide_True in Hs by done. pose proof (split_slash_ne n). by destruct (split_slash n).
Qed.

Lemma components_push buffer name : is_absolute buffer = true -> plain name ->
  components (push buffer name) = components buffer ++ [Normal name].
Proof.
  intros Hb Hp. destruct (plain_relative name Hp) as [? <-]. by apply components_push_rel.
Qed.

(** The text of a list of names is relative and has them as its components. *)
Lemma render_names names : Forall plain names ->
  is_absolute (render (Normal <$> names)) = false /\
  pieces (render (Normal <$> names)) = Normal <$> names.
Proof.
  unfold render. induction names as [|name names IH] using rev_ind; [done|].
  intros [Hn [Hp _]%Forall_cons]%Forall_app. destruct (IH Hn) as [Ha Hc].
  destruct (plain_relative name Hp) as [Hr Hq].
  rewrite !fmap_app, foldl_app. cbn [fmap list_fmap foldl component_text]. split.
  - revert Ha. generalize (foldl push EmptyString (component_text <$> (Normal <$> names))).
    intros t Ht. unfold push. rewrite Hr. destruct t as [|a t]; [done|]. by destruct (_ || _).
  - by rewrite pieces_push, Hc, Hq.
Qed.

Lemma is_absolute_push buffer name : is_absolute buffer = true -> is_absolute (push buffer name) = true.
Proof.
  intros [rest ->]%is_absolute_inv. unfold push. destruct (is_absolute name) eqn:Hn; [done|].
  by destruct (_ || _).
Qed.

Lemma components_pushes names buffer : is_absolute buffer = true -> Forall plain names ->
  components (foldl push buffer names) = components buffer ++ (Normal <$> names) /\
  is_absolute (foldl push buffer names) = true.
Proof.
  intros Hb Hn. revert buffer Hb. induction Hn as [|name names Hp _ IH]; intros buffer Hb; cbn.
  - by rewrite app_nil_r.
  - destruct (IH (push buffer name)) as [-> ?]; [by apply is_absolute_push|].
    rewrite components_push by done. by rewrite <- app_assoc.
Qed.
