(* ===== verification/CapabilityModel.v ===== *)
(** Data of the capability subsystem: src/capability/model.rs, with the
    validation of manifests, and the built-in profiles of profiles.rs. An instant
    is a number of nanoseconds; an id is its text. *)
From S2P Require Import Prelude Paths EconomicsModel EffectModel.

(** * Enums *)

Module IsolationLevel.
Inductive t := None_ | Cooperative | Process | Container | StrongSandbox.
#[global] Instance eq_dec : EqDecision t.
Proof. solve_decision. Defined.
(** The derived order. *)
Definition rank (x : t) : Z :=
  match x with None_ => 0 | Cooperative => 1 | Process => 2 | Container => 3 | StrongSandbox => 4 end.
Definition ge (x y : t) : bool := bool_decide (rank y <= rank x)%Z.
End IsolationLevel.

Module EffectControlLevel.
Inductive t := Cooperative | Gated.
#[global] Instance eq_dec : EqDecision t.
Proof. solve_decision. Defined.
End EffectControlLevel.

Module NetworkMode.
Inductive t := None_ | LoopbackOnly | AllowList | Unrestricted.
#[global] Instance eq_dec : EqDecision t.
Proof. solve_decision. Defined.
End NetworkMode.

Module FilesystemOperation.
Inductive t := Read | Write | Delete | List.
#[global] Instance eq_dec : EqDecision t.
Proof. solve_decision. Defined.
End FilesystemOperation.

Module NetworkMutationClass.
Inductive t := Read | Mutation | Unknown.
#[global] Instance eq_dec : EqDecision t.
Proof. solve_decision. Defined.
End NetworkMutationClass.

Module CapabilityDecision.
Inductive t := Allow | Deny | RequireApproval.
#[global] Instance eq_dec : EqDecision t.
Proof. solve_decision. Defined.
End CapabilityDecision.

Module CapabilityEventKind.
Inductive t := Allowed | Denied | ApprovalRequired | CredentialIssued | CredentialRevoked |
  ManifestRevised | Frozen.
#[global] Instance eq_dec : EqDecision t.
Proof. solve_decision. Defined.
End CapabilityEventKind.

(** * Providers and boundaries *)

Record RealityProviderCapabilities := mkProviderCaps {
  filesystem_isolation : IsolationLevel.t;
  process_isolation : IsolationLevel.t;
  network_isolation : IsolationLevel.t;
  credential_isolation : IsolationLevel.t;
  external_effect_control : EffectControlLevel.t;
  known_limitations : list string;
}.

Definition git_worktree : RealityProviderCapabilities :=
  mkProviderCaps IsolationLevel.Cooperative IsolationLevel.None_ IsolationLevel.None_
    IsolationLevel.None_ EffectControlLevel.Cooperative
    ["processes, host network, and ambient credentials are not isolated"].

Definition container (network : NetworkMode.t) : RealityProviderCapabilities :=
  mkProviderCaps IsolationLevel.Container IsolationLevel.Container
    (match network with NetworkMode.Unrestricted => IsolationLevel.None_ | _ => IsolationLevel.Container end)
    IsolationLevel.Container EffectControlLevel.Gated
    ["container shares the host kernel and is not a hardened multi-tenant sandbox";
     "allow-list mode is limited to dedicated internal container networks"].

Record RealityRequirements := mkRequirements {
  need_filesystem : IsolationLevel.t;
  need_process : IsolationLevel.t;
  need_network : IsolationLevel.t;
  need_credential : IsolationLevel.t;
  effect_gating : bool;
}.

Record ExecutionBoundary := mkBoundary {
  eb_provider : string;
  eb_capabilities : RealityProviderCapabilities;
  eb_manifest_id : option string;
  eb_manifest_hash : option string;
  eb_manifest_revision : Z;
  image_digest : option string;
  eb_frozen : bool;
}.

(** * The manifest *)

Record FilesystemScope := mkFsScope { fs_root : string; recursive : bool }.
#[global] Instance fs_scope_eq_dec : EqDecision FilesystemScope.
Proof. solve_decision. Defined.
Record FilesystemCapabilities := mkFilesystem {
  fs_readable : list FilesystemScope;
  fs_writable : list FilesystemScope;
}.

(** The tuple structs [ExecutablePattern] and [EffectOperationPattern] are their content. *)
Record ProcessCapabilities := mkProcess {
  allow_exec : bool;
  allowed_executables : list string;
  denied_executables : list string;
  max_processes : option Z;
}.

Record NetworkEndpointPattern := mkEndpoint { ep_host : string; ep_port : Z }.
#[global] Instance endpoint_eq_dec : EqDecision NetworkEndpointPattern.
Proof. solve_decision. Defined.
Record NetworkCapabilities := mkNetwork { net_mode : NetworkMode.t; net_allow : list NetworkEndpointPattern }.

Record EnvironmentCapabilities := mkEnvironment {
  env_readable : list string;
  env_values : gmap string string;
}.

Record CredentialScope := mkCredentialScope { cs_resource : string }.
#[global] Instance credential_scope_eq_dec : EqDecision CredentialScope.
Proof. solve_decision. Defined.
Record CredentialCapability := mkCredential {
  cc_provider : string;
  cc_name : string;
  cc_scope : CredentialScope;
  cc_permissions : list string;
  cc_expires_at : option Z;
}.
#[global] Instance credential_eq_dec : EqDecision CredentialCapability.
Proof. solve_decision. Defined.

#[global] Instance operation_eq_dec : EqDecision EffectOperation.
Proof. solve_decision. Defined.
Record EffectCapabilityScope := mkEffectScope {
  sc_kinds : list EffectKind.t;
  target_patterns : list string;
  sc_operations : list EffectOperation;
}.
#[global] Instance effect_scope_eq_dec : EqDecision EffectCapabilityScope.
Proof. solve_decision. Defined.
Record EffectCapabilities := mkEffectCaps {
  ef_propose : bool;
  ef_prepare : bool;
  ef_commit : bool;
  ef_scope : EffectCapabilityScope;
}.

Record ResourceLimits := mkLimits {
  cpu : option string;
  memory_mb : option Z;
  pids : option Z;
  timeout_ms : option Z;
  output_bytes : option Z;
}.
Definition default_limits : ResourceLimits :=
  mkLimits (Some "1.0") (Some 1024%Z) (Some 256%Z) (Some 300000%Z) (Some (8 * 1024 * 1024)%Z).

Record CapabilityManifest := mkManifest {
  cm_id : string;
  cm_profile : string;
  cm_revision : Z;
  cm_filesystem : FilesystemCapabilities;
  cm_process : ProcessCapabilities;
  cm_network : NetworkCapabilities;
  cm_environment : EnvironmentCapabilities;
  cm_credentials : list CredentialCapability;
  cm_effects : EffectCapabilities;
  cm_resources : ResourceLimits;
  cm_created_at : Z;
}.

(** * Requests and records *)

Inductive CapabilityRequest :=
  | FilesystemRequest (operation : FilesystemOperation.t) (path : string)
  | ProcessRequest (executable : string)
  | NetworkRequest (endpoint : NetworkEndpointPattern) (mutation : NetworkMutationClass.t)
  | EnvironmentRequest (name : string)
  | CredentialRequest (provider name resource permission : string)
  | EffectRequested (stage : EffectCapabilityStage.t) (kind : EffectKind.t) (target : string)
      (operation : EffectOperation).

Record CapabilityEvaluation := mkEvaluation { decision : CapabilityDecision.t; reason : string }.

Record CapabilityEvent := mkCapabilityEvent {
  ce_id : string;
  ce_reality : string;
  ce_manifest : string;
  ce_kind : CapabilityEventKind.t;
  ce_request : option CapabilityRequest;
  ce_reason : string;
  ce_created_at : Z;
}.

Record IssuedCredential := mkIssued {
  ic_id : string;
  ic_reality : string;
  ic_provider : string;
  ic_name : string;
  ic_scope : CredentialScope;
  ic_expires_at : option Z;
  secret_ref : string;
  issued_at : Z;
  revoked_at : option Z;
}.

(** * Validation *)

(** [contains] of a set of ASCII characters. *)
Fixpoint has_char (p : nat -> bool) (s : string) : bool :=
  match s with
  | EmptyString => false
  | String a rest => p (Ascii.nat_of_ascii a) || has_char p rest
  end.
Fixpoint all_chars (p : nat -> bool) (s : string) : bool :=
  match s with
  | EmptyString => true
  | String a rest => p (Ascii.nat_of_ascii a) && all_chars p rest
  end.

(** [strip_suffix('*')]. *)
Fixpoint strip_star (s : string) : option string :=
  match s with
  | EmptyString => None
  | String a rest =>
      match strip_star rest with
      | Some prefix => Some (String a prefix)
      | None => if bool_decide (a = Ascii.ascii_of_nat 42) && bool_decide (rest = EmptyString)
                then Some EmptyString else None
      end
  end.
Definition has_star (s : string) : bool := has_char (Nat.eqb 42) s.

Definition scope_validate (scope : FilesystemScope) : result unit :=
  if negb (is_absolute (fs_root scope)) || has_control (fs_root scope) ||
     existsb (fun c => match c with ParentDir | CurDir => true | _ => false end)
       (components (fs_root scope))
  then Err (InvalidInput ("Filesystem scope must be a normalized absolute path: " +:+ fs_root scope))
  else Ok tt.

Definition endpoint_text (e : NetworkEndpointPattern) : string := ep_host e +:+ ":" +:+ pretty (ep_port e).

Definition endpoint_validate (e : NetworkEndpointPattern) : result unit :=
  if bool_decide (ep_host e = EmptyString) || bool_decide (253 < String.length (ep_host e)) ||
     has_char (fun n => existsb (Nat.eqb n) [47; 92; 0; 10; 13; 32]) (ep_host e) ||
     bool_decide (ep_port e = 0%Z)
  then Err (InvalidInput ("Invalid network endpoint pattern " +:+ endpoint_text e))
  else Ok tt.

Definition is_alpha (n : nat) : bool := (65 <=? n) && (n <=? 90) || (97 <=? n) && (n <=? 122).
Definition is_alnum (n : nat) : bool := is_alpha n || (48 <=? n) && (n <=? 57).
Definition valid_environment_name (value : string) : bool :=
  match value with
  | EmptyString => false
  | String a rest =>
      ((Ascii.nat_of_ascii a =? 95) || is_alpha (Ascii.nat_of_ascii a)) &&
      all_chars (fun n => (n =? 95) || is_alnum n) rest
  end.

(** [for x in l { f(x)?; }]. *)
Fixpoint check_all {A} (f : A -> result unit) (l : list A) : result unit :=
  match l with
  | [] => Ok tt
  | x :: l' => _ ← f x; check_all f l'
  end.
Definition refuse (b : bool) (message : string) : result unit :=
  if b then Err (InvalidInput message) else Ok tt.

Definition credential_validate (c : CredentialCapability) : result unit :=
  _ ← check_all (fun value =>
        refuse (blank value || bool_decide (512 < String.length value) || has_control value)
          "Credential capabilities require bounded provider, name, and resource scopes")
        [cc_provider c; cc_name c; cs_resource (cc_scope c)];
  refuse (bool_decide (cc_permissions c = []) ||
          existsb (fun p => blank p || bool_decide (128 < String.length p) || has_control p)
            (cc_permissions c))
    "Credential capabilities require explicit bounded permissions".

Definition is_nil {A} (l : list A) : bool := match l with [] => true | _ => false end.

Definition effects_validate (e : EffectCapabilities) : result unit :=
  _ ← refuse ((ef_propose e || ef_prepare e || ef_commit e) &&
              (is_nil (sc_kinds (ef_scope e)) || is_nil (target_patterns (ef_scope e)) ||
               is_nil (sc_operations (ef_scope e))))
        "Enabled Effect capabilities require explicit kinds, targets, and operations";
  check_all (fun target =>
    refuse (blank target || bool_decide (2048 < String.length target) || has_control target ||
            has_star (default target (strip_star target)))
      "Effect target patterns support only an optional trailing wildcard")
    (target_patterns (ef_scope e)).

Definition MAX_MANIFEST_BYTES : Z := 256 * 1024.

(** What the subsystem asks of serde_json and blake3: the serialized manifest,
    and the hexadecimal digest of a text. *)
Class ManifestLibs := {
  manifest_json : CapabilityManifest -> result string;
  blake3 : string -> string;
}.

Section manifest.
Context {libs : ManifestLibs}.

(** [CapabilityManifest::validate], check by check. *)
Definition manifest_validate (m : CapabilityManifest) : result unit :=
  _ ← refuse (blank (cm_profile m) || bool_decide (128 < String.length (cm_profile m)) ||
              bool_decide (cm_revision m = 0%Z))
        "Capability manifest profile and revision must be bounded and nonzero";
  _ ← check_all scope_validate (fs_readable (cm_filesystem m) ++ fs_writable (cm_filesystem m));
  _ ← check_all endpoint_validate (net_allow (cm_network m));
  _ ← refuse (negb (bool_decide (net_mode (cm_network m) = NetworkMode.AllowList)) &&
              negb (is_nil (net_allow (cm_network m))))
        "Network endpoints require allow-list mode";
  _ ← check_all (fun key => refuse (negb (valid_environment_name key))
        ("Invalid environment capability " +:+ key))
        (env_readable (cm_environment m) ++ btree_keys (env_values (cm_environment m)));
  _ ← check_all (fun kv => refuse (bool_decide (4096 < String.length kv.2) || has_control kv.2)
        "Environment capability values must be bounded single-line strings")
        (btree_map (env_values (cm_environment m)));
  _ ← check_all credential_validate (cm_credentials m);
  _ ← effects_validate (cm_effects m);
  _ ← refuse (bool_decide (pids (cm_resources m) = Some 0%Z) ||
              bool_decide (memory_mb (cm_resources m) = Some 0%Z) ||
              bool_decide (output_bytes (cm_resources m) = Some 0%Z))
        "Resource limits must be positive when present";
  data ← manifest_json m;
  refuse (bool_decide (MAX_MANIFEST_BYTES < Z.of_nat (String.length data))%Z)
    "Capability manifest exceeded 256 KiB".

(** [CapabilityManifest::hash]. *)
Definition manifest_hash (m : CapabilityManifest) : result string :=
  _ ← manifest_validate m;
  data ← manifest_json m;
  mret (blake3 data).
End manifest.
