(* ===== verification/CapabilityPolicy.v ===== *)
(** The deny-by-default policy, provider selection and workspace resolution of
    src/capability/policy.rs and the built-in profiles of profiles.rs, with their
    correctness. *)
From S2P Require Import Prelude Paths EconomicsModel EffectModel CapabilityModel.

(** * The policy *)

Definition pattern_matches (pattern value : string) : bool :=
  match strip_star pattern with
  | Some prefix => String.prefix prefix value
  | None => bool_decide (pattern = value)
  end.

(** One turn of the loop over the components. *)
Definition normalize_step (normalized : string) (c : Component) : result string :=
  match c with
  | RootDir => Ok normalized
  | Normal value => Ok (push normalized value)
  | CurDir | ParentDir =>
      Err (Intervention "Path traversal is outside the Reality capability scope")
  end.
Definition normalized_virtual_path (value : string) : result string :=
  if negb (is_absolute value) || has_char (Nat.eqb 0) value then
    Err (InvalidInput "Capability path must be an absolute virtual path")
  else result_foldl normalize_step "/" (components value).

Definition scope_allows (scope : FilesystemScope) (path : string) : bool :=
  path_eq path (fs_root scope) || (recursive scope && starts_with path (fs_root scope)).

Definition effect_scope_allows (scope : EffectCapabilityScope) (kind : EffectKind.t) (target : string)
    (op : EffectOperation) : bool :=
  bool_decide (kind ∈ sc_kinds scope) &&
  existsb (fun pattern => pattern_matches pattern target) (target_patterns scope) &&
  existsb (fun pattern => bool_decide (pattern = op)) (sc_operations scope).

Definition filesystem_allows (m : CapabilityManifest) (op : FilesystemOperation.t) (path : string) : bool :=
  let scopes := match op with
    | FilesystemOperation.Read | FilesystemOperation.List => fs_readable (cm_filesystem m)
    | FilesystemOperation.Write | FilesystemOperation.Delete => fs_writable (cm_filesystem m)
    end in
  match normalized_virtual_path path with
  | Ok path => existsb (fun scope => scope_allows scope path) scopes
  | Err _ => false
  end.

Definition process_allows (p : ProcessCapabilities) (executable : string) : bool :=
  allow_exec p &&
  negb (existsb (fun pattern => pattern_matches pattern executable) (denied_executables p)) &&
  (is_nil (allowed_executables p) ||
   existsb (fun pattern => pattern_matches pattern executable) (allowed_executables p)).

Definition network_allows (n : NetworkCapabilities) (endpoint : NetworkEndpointPattern) : bool :=
  match net_mode n with
  | NetworkMode.None_ => false
  | NetworkMode.LoopbackOnly => bool_decide (ep_host endpoint ∈ ["localhost"; "127.0.0.1"; "::1"])
  | NetworkMode.AllowList => bool_decide (endpoint ∈ net_allow n)
  | NetworkMode.Unrestricted => true
  end.

Definition credential_allows (c : CredentialCapability) (now : Z)
    (provider name resource permission : string) : bool :=
  bool_decide (cc_provider c = provider) && bool_decide (cc_name c = name) &&
  pattern_matches (cs_resource (cc_scope c)) resource &&
  existsb (fun item => bool_decide (item = permission)) (cc_permissions c) &&
  match cc_expires_at c with Some expiry => bool_decide (now < expiry)%Z | None => true end.

Definition stage_allows (e : EffectCapabilities) (stage : EffectCapabilityStage.t) : bool :=
  match stage with
  | EffectCapabilityStage.Propose => ef_propose e
  | EffectCapabilityStage.Prepare => ef_prepare e
  | EffectCapabilityStage.Commit => ef_commit e
  end.

(** [now i] is the instant at which the [i]-th credential is examined. *)
Definition allows (now : nat -> Z) (request : CapabilityRequest) (m : CapabilityManifest) : bool :=
  match request with
  | FilesystemRequest op path => filesystem_allows m op path
  | ProcessRequest executable => process_allows (cm_process m) executable
  | NetworkRequest endpoint _ => network_allows (cm_network m) endpoint
  | EnvironmentRequest name =>
      existsb (fun item => bool_decide (item = name)) (env_readable (cm_environment m))
  | CredentialRequest provider name resource permission =>
      existsb id (imap (fun i c => credential_allows c (now i) provider name resource permission)
        (cm_credentials m))
  | EffectRequested stage kind target op =>
      stage_allows (cm_effects m) stage && effect_scope_allows (ef_scope (cm_effects m)) kind target op
  end.

(** [DenyByDefaultCapabilityPolicy::evaluate]. *)
Definition evaluate (now : nat -> Z) (request : CapabilityRequest) (m : CapabilityManifest) :
    CapabilityEvaluation :=
  if allows now request m then
    mkEvaluation CapabilityDecision.Allow ("allowed by capability profile " +:+ cm_profile m)
  else
    mkEvaluation CapabilityDecision.Deny ("denied by default: capability profile " +:+ cm_profile m +:+
      " does not grant this exact action").

(** * Selecting a provider *)

Definition provider_satisfies (p : RealityProviderCapabilities) (r : RealityRequirements) : bool :=
  IsolationLevel.ge (filesystem_isolation p) (need_filesystem r) &&
  IsolationLevel.ge (process_isolation p) (need_process r) &&
  IsolationLevel.ge (network_isolation p) (need_network r) &&
  IsolationLevel.ge (credential_isolation p) (need_credential r) &&
  (negb (effect_gating r) || bool_decide (external_effect_control p = EffectControlLevel.Gated)).

Definition select (r : RealityRequirements) (available : list (string * RealityProviderCapabilities)) :
    result string :=
  match List.find (fun '(_, capabilities) => provider_satisfies capabilities r) available with
  | Some (id, _) => Ok id
  | None => Err (Intervention
      "No available Reality provider satisfies the declared isolation requirements")
  end.

(** * The workspace *)

(** The host's file system, as far as resolution reads it. *)
Class PathHost := {
  path_exists : string -> bool;
  canonicalize : string -> result string;
}.

Section workspace.
Context {host : PathHost}.

(** [resolve_workspace_path]: the loop over the ancestors stops at the first
    that exists. *)
Definition resolve_workspace_path (workspace virtual_path : string) : result string :=
  normalized ← normalized_virtual_path virtual_path;
  relative ← ok_or (strip_prefix normalized "/workspace")
    (Intervention "File proxy only maps the /workspace namespace");
  canonical_workspace ← canonicalize workspace;
  let candidate := push canonical_workspace relative in
  ancestor ← ok_or (List.find path_exists (ancestors candidate))
    (Intervention "File path has no managed workspace ancestor");
  real ← canonicalize ancestor;
  if negb (starts_with real canonical_workspace) then
    Err (Intervention "Symlink path escapes the managed workspace")
  else if path_exists candidate then
    target ← canonicalize candidate;
    if negb (starts_with target canonical_workspace) then
      Err (Intervention "Symlink target escapes the managed workspace")
    else Ok candidate
  else Ok candidate.
End workspace.

(** * Built-in profiles *)

Definition BUILTIN_PROFILES : list string :=
  ["coding-offline"; "coding-networked"; "effect-test"; "staging-agent"; "coding-effect-test"].

Definition workspace : FilesystemCapabilities :=
  let scopes := [mkFsScope "/workspace" true; mkFsScope "/tmp" true] in mkFilesystem scopes scopes.

Definition environment : EnvironmentCapabilities :=
  mkEnvironment ["PATH"; "HOME"; "TERM"; "LANG"]
    (list_to_map [("HOME", "/tmp/hardknock"); ("PATH", "/usr/local/bin:/usr/bin:/bin");
                  ("LANG", "C.UTF-8")]).

Definition disabled_effects : EffectCapabilities :=
  mkEffectCaps false false false (mkEffectScope [] [] []).

(** With the fresh id and the instant. *)
Definition base (id : string) (now : Z) (profile : string) : CapabilityManifest :=
  mkManifest id profile 1 workspace (mkProcess true [] [] (Some 256%Z))
    (mkNetwork NetworkMode.None_ []) environment [] disabled_effects default_limits now.

Definition all_standard_operations : list EffectOperation :=
  [Read; Create; Update; Delete; Post; Dispatch; Promote].

(** What a profile replaces in the base. *)
Definition with_profile (n : NetworkCapabilities) (e : EffectCapabilities) (m : CapabilityManifest) :
    CapabilityManifest :=
  mkManifest (cm_id m) (cm_profile m) (cm_revision m) (cm_filesystem m) (cm_process m) n
    (cm_environment m) (cm_credentials m) e (cm_resources m) (cm_created_at m).

(** [propose] and [prepare], never [commit]. *)
Definition stageable (kinds : list EffectKind.t) (targets : list string)
    (operations : list EffectOperation) : EffectCapabilities :=
  mkEffectCaps true true false (mkEffectScope kinds targets operations).

Definition profile_manifest (id : string) (now : Z) (name : string) : result CapabilityManifest :=
  let m := base id now name in
  if decide (name = "coding-offline") then Ok m
  else if decide (name = "coding-networked") then
    Ok (with_profile (mkNetwork NetworkMode.AllowList
      [mkEndpoint "registry.npmjs.org" 443; mkEndpoint "api.github.com" 443]) (cm_effects m) m)
  else if decide (name = "effect-test") then
    Ok (with_profile (cm_network m) (stageable
      [EffectKind.Database; EffectKind.HttpApi; EffectKind.Message; EffectKind.Deployment]
      ["mock://*"; "mock-db://*"; "mock-message://*"; "shadow://*"] all_standard_operations) m)
  else if decide (name = "coding-effect-test") then
    Ok (with_profile (cm_network m) (stageable [EffectKind.Database]
      ["postgres://inventory_test/*"; "mock-db://inventory/*"] [Create; Update; Delete]) m)
  else if decide (name = "staging-agent") then
    Ok (with_profile (mkNetwork NetworkMode.AllowList [])
      (stageable [EffectKind.Deployment] ["shadow://*"] [Update; Promote]) m)
  else Err (NotFound ("Capability profile " +:+ name +:+ " not found")).

Definition builtin_profile {libs : ManifestLibs} (id : string) (now : Z) (name : string) :
    result CapabilityManifest :=
  m ← profile_manifest id now name;
  _ ← manifest_validate m;
  mret m.
