(* ===== verification/CapabilityAuthority.v ===== *)
(** What the capability policy grants: exact decisions, attenuation, the
    confinement of file paths, the selection of a provider and the built-in
    profiles. *)
From S2P Require Import Prelude Paths EconomicsModel EffectModel CapabilityModel CapabilityPolicy.

(** * Specifications *)

(** A virtual path that names a place without traversal. *)
Definition well_named (path : string) : Prop :=
  is_absolute path = true /\ has_char (Nat.eqb 0) path = false /\ ParentDir ∉ components path.
#[global] Instance well_named_dec path : Decision (well_named path).
Proof. unfold well_named. apply _. Defined.

(** The scope covers the place: the place is its root, or below it when the
    scope is recursive; names are compared whole. *)
Definition covers (scope : FilesystemScope) (path : string) : Prop :=
  components path = components (fs_root scope) \/
  recursive scope = true /\ components (fs_root scope) `prefix_of` components path.
#[global] Instance covers_dec scope path : Decision (covers scope path).
Proof. unfold covers. apply _. Defined.

Definition scopes_for (m : CapabilityManifest) (op : FilesystemOperation.t) : list FilesystemScope :=
  match op with
  | FilesystemOperation.Read | FilesystemOperation.List => fs_readable (cm_filesystem m)
  | FilesystemOperation.Write | FilesystemOperation.Delete => fs_writable (cm_filesystem m)
  end.

(** * Normalized paths *)

Lemma normalize_steps cs buffer : is_absolute buffer = true ->
  (forall c, c ∈ cs -> c = ParentDir \/ exists name, c = Normal name /\ plain name) ->
  if decide (ParentDir ∈ cs)
  then exists e, result_foldl normalize_step buffer cs = Err e
  else exists q, result_foldl normalize_step buffer cs = Ok q /\
         components q = components buffer ++ cs /\ is_absolute q = true.
Proof.
  revert buffer. induction cs as [|c cs IH]; intros buffer Hb Hcs; cbn.
  { rewrite decide_False by set_solver. exists buffer. by rewrite app_nil_r. }
  destruct (Hcs c ltac:(set_solver)) as [->|(name & -> & Hp)]; cbn.
  { rewrite decide_True by set_solver. eauto. }
  specialize (IH (push buffer name) (is_absolute_push _ _ Hb) ltac:(set_solver)).
  destruct (decide (ParentDir ∈ cs)) as [Hin|Hin].
  - by rewrite decide_True by set_solver.
  - rewrite decide_False by set_solver. destruct IH as (q & Hq & Hc & Ha). exists q.
    split_and!; [done| |done]. rewrite Hc, components_push by done. by rewrite <- app_assoc.
Qed.

Lemma normalized_virtual_path_spec path :
  if decide (well_named path)
  then exists q, normalized_virtual_path path = Ok q /\ components q = components path /\
         is_absolute q = true
  else exists e, normalized_virtual_path path = Err e.
Proof.
  unfold normalized_virtual_path. destruct (decide (well_named path)) as [(Ha & Hn & Hp)|Hw].
  - rewrite Ha, Hn. cbn [negb orb]. destruct (components_absolute path Ha) as (cs & Hc & Hcs).
    rewrite Hc in Hp |- *. pose proof (normalize_steps cs "/" eq_refl Hcs) as Hs.
    rewrite decide_False in Hs by set_solver. done.
  - destruct (is_absolute path) eqn:Ha; [|by eauto].
    destruct (has_char (Nat.eqb 0) path) eqn:Hn; [by eauto|]. cbn [negb orb].
    destruct (components_absolute path Ha) as (cs & Hc & Hcs).
    rewrite Hc. pose proof (normalize_steps cs "/" eq_refl Hcs) as Hs.
    destruct (decide (ParentDir ∈ cs)) as [|Hcp]; [done|]. destruct Hw. split_and!; [done|done|].
    rewrite Hc. set_solver.
Qed.

Lemma normalized_virtual_path_Ok path q : normalized_virtual_path path = Ok q ->
  well_named path /\ components q = components path /\ is_absolute q = true.
Proof.
  intros Hq. pose proof (normalized_virtual_path_spec path) as Hs.
  case_decide; [|by destruct Hs as [e He]; rewrite Hq in He].
  destruct Hs as (q' & Hq' & ? & ?). rewrite Hq in Hq'. by simplify_eq.
Qed.

Lemma existsb_Exists {A} (f : A -> bool) (P : A -> Prop) (l : list A) :
  (forall x, f x = true <-> P x) -> existsb f l = true <-> Exists P l.
Proof.
  intros Hf. rewrite existsb_exists, Exists_exists. setoid_rewrite Hf.
  by setoid_rewrite list_elem_of_In.
Qed.

Lemma scope_allows_covers scope path q : components q = components path ->
  scope_allows scope q = true <-> covers scope path.
Proof.
  intros Hc. unfold scope_allows, covers, path_eq, starts_with.
  rewrite orb_true_iff, andb_true_iff, !bool_decide_eq_true. by rewrite Hc.
Qed.

Lemma filesystem_allows_iff m op path :
  filesystem_allows m op path = true <->
  well_named path /\ Exists (fun scope => covers scope path) (scopes_for m op).
Proof.
  unfold filesystem_allows. fold (scopes_for m op).
  pose proof (normalized_virtual_path_spec path) as Hs. case_decide as Hw.
  - destruct Hs as (q & -> & Hc & _).
    rewrite (existsb_Exists _ (fun scope => covers scope path)); [tauto|].
    intros scope. by apply scope_allows_covers.
  - destruct Hs as [e ->]. naive_solver.
Qed.

(** * Patterns *)

(** A pattern that ends with [*] matches the texts with its prefix; any other
    pattern matches itself. *)
Inductive matches : string -> string -> Prop :=
  | matches_prefix prefix rest : matches (prefix +:+ "*") (prefix +:+ rest)
  | matches_exact value : (forall prefix, value <> prefix +:+ "*") -> matches value value.

Lemma app_cons a s t : String a s +:+ t = String a (s +:+ t).
Proof. done. Qed.

Lemma strip_star_Some s prefix : strip_star s = Some prefix <-> s = prefix +:+ "*".
Proof.
  revert prefix. induction s as [|a s IH]; intros prefix; cbn [strip_star].
  - split; [done|]. by destruct prefix.
  - destruct (strip_star s) as [p|].
    + pose proof (proj1 (IH p) eq_refl) as Hp. split.
      * intros [= <-]. by rewrite Hp.
      * destruct prefix as [|b prefix]; rewrite ?app_cons; intros [= -> He]; [by destruct p; subst|].
        apply IH in He. congruence.
    + assert (Hno : forall q, s <> q +:+ "*") by (intros q Hq; by apply IH in Hq).
      destruct (bool_decide_reflect (a = Ascii.ascii_of_nat 42)) as [->|Ha];
        destruct (bool_decide_reflect (s = EmptyString)) as [->|He]; cbn [andb]; split; try done;
        (destruct prefix as [|b prefix];
         [change (EmptyString +:+ "*") with (String (Ascii.ascii_of_nat 42) EmptyString)
         |rewrite ?app_cons]); try done; intros H; simplify_eq/=; try done;
        by edestruct Hno.
Qed.

Lemma prefix_spec p v : String.prefix p v = true <-> exists rest, v = p +:+ rest.
Proof.
  revert v. induction p as [|a p IH]; intros v.
  - split; [intros _; by exists v|intros _; by destruct v].
  - destruct v as [|b v]; [split; [done|by intros [? ?]]|].
    change (String.prefix (String a p) (String b v))
      with (if Ascii.ascii_dec a b then String.prefix p v else false).
    destruct (Ascii.ascii_dec a b) as [->|Hab].
    + rewrite IH. split; intros [r Hr]; exists r; rewrite ?app_cons in *; congruence.
    + split; [done|]. intros [r Hr]. rewrite app_cons in Hr. congruence.
Qed.

Lemma pattern_matches_iff pattern value : pattern_matches pattern value = true <-> matches pattern value.
Proof.
  unfold pattern_matches. destruct (strip_star pattern) as [p|] eqn:Hs.
  - pose proof Hs as Hp. apply strip_star_Some in Hp as ->. rewrite prefix_spec. split.
    + intros [rest ->]. constructor.
    + intros H. inversion H as [p' rest He|v Hv]; subst; [|by destruct (Hv p)].
      assert (Some p' = Some p) as [= ->]; [|eauto].
      rewrite <- Hs. symmetry. by apply strip_star_Some.
  - rewrite bool_decide_eq_true. split.
    + intros ->. constructor. intros p Hp. apply strip_star_Some in Hp. congruence.
    + intros H. inversion H as [p' rest|]; subst; [|done].
      assert (strip_star (p' +:+ "*") = Some p') by (by apply strip_star_Some). congruence.
Qed.

(** * What a manifest grants *)

Definition unexpired (expires_at : option Z) (now : Z) : Prop :=
  forall expiry, expires_at = Some expiry -> (now < expiry)%Z.

Inductive granted (now : nat -> Z) (m : CapabilityManifest) : CapabilityRequest -> Prop :=
  | granted_filesystem op path scope :
      well_named path -> scope ∈ scopes_for m op -> covers scope path ->
      granted now m (FilesystemRequest op path)
  | granted_process executable :
      allow_exec (cm_process m) = true ->
      Forall (fun pattern => ~ matches pattern executable) (denied_executables (cm_process m)) ->
      allowed_executables (cm_process m) = [] \/
        Exists (fun pattern => matches pattern executable) (allowed_executables (cm_process m)) ->
      granted now m (ProcessRequest executable)
  | granted_loopback endpoint mutation :
      net_mode (cm_network m) = NetworkMode.LoopbackOnly ->
      ep_host endpoint ∈ ["localhost"; "127.0.0.1"; "::1"] ->
      granted now m (NetworkRequest endpoint mutation)
  | granted_listed endpoint mutation :
      net_mode (cm_network m) = NetworkMode.AllowList -> endpoint ∈ net_allow (cm_network m) ->
      granted now m (NetworkRequest endpoint mutation)
  | granted_network endpoint mutation :
      net_mode (cm_network m) = NetworkMode.Unrestricted ->
      granted now m (NetworkRequest endpoint mutation)
  | granted_environment name :
      name ∈ env_readable (cm_environment m) -> granted now m (EnvironmentRequest name)
  | granted_credential i c resource permission :
      cm_credentials m !! i = Some c -> matches (cs_resource (cc_scope c)) resource ->
      permission ∈ cc_permissions c -> unexpired (cc_expires_at c) (now i) ->
      granted now m (CredentialRequest (cc_provider c) (cc_name c) resource permission)
  | granted_effect stage kind target op :
      stage_allows (cm_effects m) stage = true -> kind ∈ sc_kinds (ef_scope (cm_effects m)) ->
      Exists (fun pattern => matches pattern target) (target_patterns (ef_scope (cm_effects m))) ->
      op ∈ sc_operations (ef_scope (cm_effects m)) ->
      granted now m (EffectRequested stage kind target op).

Lemma existsb_elem {A} `{EqDecision A} (x : A) (l : list A) :
  existsb (fun item => bool_decide (item = x)) l = true <-> x ∈ l.
Proof.
  rewrite (existsb_Exists _ (fun item => item = x)) by (intros; apply bool_decide_eq_true).
  rewrite Exists_exists. naive_solver.
Qed.

Lemma is_nil_true {A} (l : list A) : is_nil l = true <-> l = [].
Proof. by destruct l. Qed.

Lemma process_allows_iff p executable :
  process_allows p executable = true <->
  allow_exec p = true /\
  Forall (fun pattern => ~ matches pattern executable) (denied_executables p) /\
  (allowed_executables p = [] \/
   Exists (fun pattern => matches pattern executable) (allowed_executables p)).
Proof.
  unfold process_allows. rewrite !andb_true_iff, orb_true_iff, negb_true_iff, <- not_true_iff_false.
  rewrite !(existsb_Exists _ (fun pattern => matches pattern executable))
    by (intros; apply pattern_matches_iff).
  rewrite is_nil_true, Forall_Exists_neg. tauto.
Qed.

Lemma credential_allows_iff c t provider name resource permission :
  credential_allows c t provider name resource permission = true <->
  cc_provider c = provider /\ cc_name c = name /\ matches (cs_resource (cc_scope c)) resource /\
  permission ∈ cc_permissions c /\ unexpired (cc_expires_at c) t.
Proof.
  unfold credential_allows, unexpired.
  rewrite !andb_true_iff, !bool_decide_eq_true, pattern_matches_iff, existsb_elem.
  destruct (cc_expires_at c) as [expiry|]; rewrite ?bool_decide_eq_true; naive_solver.
Qed.

Lemma existsb_imap {A} (f : nat -> A -> bool) (l : list A) :
  existsb id (imap f l) = true <-> exists i x, l !! i = Some x /\ f i x = true.
Proof.
  rewrite existsb_exists. split.
  - intros (b & Hb & Ht). apply list_elem_of_In, elem_of_lookup_imap in Hb as (i & x & -> & Hx).
    by exists i, x.
  - intros (i & x & Hx & Ht). exists true. split; [|done].
    apply list_elem_of_In, elem_of_lookup_imap. by exists i, x.
Qed.

(** The decision procedure decides exactly what the manifest grants. *)
Lemma allows_iff now m request : allows now request m = true <-> granted now m request.
Proof.
  destruct request as [op path|executable|endpoint mutation|name|provider name resource permission
    |stage kind target op]; cbn [allows].
  - rewrite filesystem_allows_iff, Exists_exists. split.
    + intros (? & scope & ? & ?). by econstructor.
    + inversion 1; eauto.
  - rewrite process_allows_iff. split; [intros (?&?&?); by constructor|by inversion 1].
  - unfold network_allows. split.
    + destruct (net_mode (cm_network m)) eqn:?; rewrite ?bool_decide_eq_true; try done; intros ?;
        [by apply granted_loopback|by apply granted_listed|by apply granted_network].
    + inversion 1; simplify_eq; rewrite ?bool_decide_eq_true;
        match goal with Hm : net_mode _ = _ |- _ => rewrite Hm end; by rewrite ?bool_decide_eq_true.
  - rewrite existsb_elem. split; [by constructor|by inversion 1].
  - rewrite existsb_imap. setoid_rewrite credential_allows_iff. split.
    + intros (i & c & Hc & <- & <- & ? & ? & ?). by eapply granted_credential.
    + inversion 1; simplify_eq. eexists _, _. split_and!; done.
  - unfold effect_scope_allows. rewrite !andb_true_iff, bool_decide_eq_true, existsb_elem.
    rewrite (existsb_Exists _ (fun pattern => matches pattern target))
      by (intros; apply pattern_matches_iff).
    split; [intros (?&[? ?]&?); by constructor|by inversion 1].
Qed.

Lemma evaluate_exact_cases (now : nat -> Z) (request : CapabilityRequest) (m : CapabilityManifest) :
  (granted now m request /\ decision (evaluate now request m) = CapabilityDecision.Allow) \/
  (~ granted now m request /\ decision (evaluate now request m) = CapabilityDecision.Deny).
Proof.
  unfold evaluate. rewrite <- allows_iff. destruct (allows now request m); [by left|by right].
Qed.

(** C22. The policy is exact: it allows a request precisely when the manifest
    grants it (a traversal-free absolute path covered component by component by
    a scope of the operation's side; an executable that no denied pattern and, if
    there are any, some allowed pattern matches; an endpoint of the network mode;
    a readable variable; an unexpired credential of that provider, name, resource
    and permission; an effect of an enabled stage, kind, target and operation),
    denies everything else, and never asks for approval. *)
Theorem evaluate_exact (now : nat -> Z) (request : CapabilityRequest) (m : CapabilityManifest) :
  (granted now m request /\ decision (evaluate now request m) = CapabilityDecision.Allow) \/
  (~ granted now m request /\ decision (evaluate now request m) = CapabilityDecision.Deny).
Proof. apply evaluate_exact_cases. Qed.

(** * Attenuation *)

Definition narrower_network (n' n : NetworkCapabilities) : Prop :=
  net_mode n' = NetworkMode.None_ \/ net_mode n = NetworkMode.Unrestricted \/
  net_mode n' = net_mode n /\ net_allow n' ⊆ net_allow n.

Record narrower (m' m : CapabilityManifest) : Prop := {
  nw_readable : fs_readable (cm_filesystem m') ⊆ fs_readable (cm_filesystem m);
  nw_writable : fs_writable (cm_filesystem m') ⊆ fs_writable (cm_filesystem m);
  nw_exec : allow_exec (cm_process m') = true -> allow_exec (cm_process m) = true;
  nw_denied : denied_executables (cm_process m) ⊆ denied_executables (cm_process m');
  nw_allowed : allowed_executables (cm_process m) = [] \/
    allowed_executables (cm_process m') <> [] /\
    allowed_executables (cm_process m') ⊆ allowed_executables (cm_process m);
  nw_network : narrower_network (cm_network m') (cm_network m);
  nw_environment : env_readable (cm_environment m') ⊆ env_readable (cm_environment m);
  nw_credentials : cm_credentials m' ⊆ cm_credentials m;
  nw_stages : forall stage, stage_allows (cm_effects m') stage = true ->
    stage_allows (cm_effects m) stage = true;
  nw_kinds : sc_kinds (ef_scope (cm_effects m')) ⊆ sc_kinds (ef_scope (cm_effects m));
  nw_targets : target_patterns (ef_scope (cm_effects m')) ⊆ target_patterns (ef_scope (cm_effects m));
  nw_operations : sc_operations (ef_scope (cm_effects m')) ⊆ sc_operations (ef_scope (cm_effects m));
}.

Lemma Exists_subseteq {A} (P : A -> Prop) (l l' : list A) : l ⊆ l' -> Exists P l -> Exists P l'.
Proof. rewrite !Exists_exists. set_solver. Qed.

(** A narrower manifest grants less, at any instant. *)
Lemma narrower_granted m' m t request : narrower m' m ->
  granted (fun _ => t) m' request -> granted (fun _ => t) m request.
Proof.
  intros N. destruct 1 as [op path scope Hw Hs Hc|executable He Hd Ha|endpoint mutation Hm Hh
    |endpoint mutation Hm Hh|endpoint mutation Hm|name Hn|i c resource permission Hc Hm Hp Hx
    |stage kind target op Hs Hk Ht Ho].
  - eapply granted_filesystem; [done| |done]. destruct N, op; cbn in *; set_solver.
  - apply granted_process; [by apply N| |].
    + rewrite Forall_forall in *. intros p Hp. apply Hd. by apply N.
    + destruct (nw_allowed _ _ N) as [|[Hne Hsub]]; [by left|].
      destruct Ha as [|Ha]; [done|]. right. by eapply Exists_subseteq.
  - destruct (nw_network _ _ N) as [?|[?|[? ?]]]; [congruence|by apply granted_network|].
    apply granted_loopback; congruence.
  - destruct (nw_network _ _ N) as [?|[?|[? ?]]]; [congruence|by apply granted_network|].
    apply granted_listed; [congruence|set_solver].
  - destruct (nw_network _ _ N) as [?|[?|[? ?]]]; [congruence|by apply granted_network|].
    apply granted_network; congruence.
  - apply granted_environment. destruct N. set_solver.
  - apply list_elem_of_lookup_2 in Hc. apply N in Hc. apply list_elem_of_lookup in Hc as [j Hj].
    by eapply granted_credential.
  - apply granted_effect; [by apply N|destruct N; set_solver| |destruct N; set_solver].
    eapply Exists_subseteq; [by apply N|done].
Qed.

(** * The workspace *)

Section workspace.
Context {host : PathHost}.

(** A name below the workspace namespace. *)
Lemma relative_names path q rel : normalized_virtual_path path = Ok q ->
  strip_prefix q "/workspace" = Some rel ->
  exists names, Forall plain names /\ rel = render (Normal <$> names) /\
    components path = RootDir :: Normal "workspace" :: (Normal <$> names).
Proof.
  intros Hq. apply normalized_virtual_path_Ok in Hq as ((Ha & _ & Hp) & Hc & _).
  unfold strip_prefix, starts_with. rewrite Hc.
  destruct (bool_decide_reflect (components "/workspace" `prefix_of` components path)) as [Hpre|]; [|done].
  intros [= <-]. change (components "/workspace") with [RootDir; Normal "workspace"] in *.
  destruct Hpre as [rest Hrest]. cbn [app] in Hrest.
  destruct (components_absolute path Ha) as (cs & Hcs & Hall).
  rewrite Hrest in Hcs, Hp |- *. cbn [length drop]. injection Hcs as <-.
  assert (Hn : exists names, Forall plain names /\ rest = Normal <$> names).
  { assert (Hr : forall c, c ∈ rest -> exists name, c = Normal name /\ plain name).
    { intros c Hin. destruct (Hall c ltac:(set_solver)) as [->|?]; [set_solver|done]. }
    clear -Hr. induction rest as [|c rest IH]; [by exists []|].
    destruct (Hr c) as (name & -> & Hname); [set_solver|].
    destruct IH as (names & ? & ->); [set_solver|]. exists (name :: names). by split; [constructor|]. }
  destruct Hn as (names & ? & ->). by exists names.
Qed.

(** A resolved workspace path stays in the workspace: the virtual path names
    a place under [/workspace] without traversal; the host path is the canonical
    workspace followed by the same names; its nearest existing ancestor, and the
    path itself when it exists, are canonically inside the workspace. *)
Theorem resolve_workspace_path_confined (root virtual_path candidate : string)
    (H : resolve_workspace_path root virtual_path = Ok candidate) :
  exists canonical names ancestor real,
    well_named virtual_path /\
    components virtual_path = RootDir :: Normal "workspace" :: (Normal <$> names) /\
    canonicalize root = Ok canonical /\
    (is_absolute canonical = true -> components candidate = components canonical ++ (Normal <$> names)) /\
    List.find path_exists (ancestors candidate) = Some ancestor /\
    canonicalize ancestor = Ok real /\ components canonical `prefix_of` components real /\
    (path_exists candidate = true -> exists target,
       canonicalize candidate = Ok target /\ components canonical `prefix_of` components target).
Proof.
  unfold resolve_workspace_path in H.
  apply result_bind_Ok in H as (q & Hq & H). apply result_bind_Ok in H as (rel & Hrel%ok_or_Ok & H).
  apply result_bind_Ok in H as (canonical & Hcanon & H). cbv zeta in H.
  apply result_bind_Ok in H as (a & Hfind%ok_or_Ok & H). apply result_bind_Ok in H as (real & Hreal & H).
  unfold starts_with in H.
  destruct (bool_decide_reflect (components canonical `prefix_of` components real)) as [Hin|]; [|done].
  cbn in H. destruct (relative_names _ _ _ Hq Hrel) as (names & Hn & -> & Hcomp).
  destruct (render_names names Hn) as [Hr Hp].
  assert (candidate = push canonical (render (Normal <$> names))) as ->.
  { destruct (path_exists (push _ _)); [|by simplify_eq].
    apply result_bind_Ok in H as (target & _ & H). by case_bool_decide; simplify_eq/=. }
  exists canonical, names, a, real. split_and!; try done.
  - by apply normalized_virtual_path_Ok in Hq as (? & _).
  - intros Habs. by rewrite components_push_rel, Hp by done.
  - intros He. rewrite He in H. apply result_bind_Ok in H as (target & Ht & H).
    exists target. split; [done|]. by case_bool_decide.
Qed.
End workspace.

(** * Providers *)

(** At least as isolated in every respect. *)
Definition weaker (r r' : RealityRequirements) : Prop :=
  IsolationLevel.ge (need_filesystem r') (need_filesystem r) = true /\
  IsolationLevel.ge (need_process r') (need_process r) = true /\
  IsolationLevel.ge (need_network r') (need_network r) = true /\
  IsolationLevel.ge (need_credential r') (need_credential r) = true /\
  (effect_gating r = true -> effect_gating r' = true).

(** Selection returns the first available provider whose every isolation
    level reaches the required one and which gates effects when that is required,
    and fails exactly when there is none; a Git worktree never satisfies a
    requirement on processes, network or credentials, and a container satisfies
    any requirement up to container isolation unless its network is unrestricted. *)
Theorem select_correct (r : RealityRequirements) (available : list (string * RealityProviderCapabilities)) :
  match select r available with
  | Ok id => exists before after p, available = before ++ (id, p) :: after /\
      provider_satisfies p r = true /\
      Forall (fun q => provider_satisfies q.2 r = false) before
  | Err e => Forall (fun q => provider_satisfies q.2 r = false) available /\ exit_code e = 5%Z
  end /\
  (provider_satisfies git_worktree r = true ->
     need_process r = IsolationLevel.None_ /\ need_network r = IsolationLevel.None_ /\
     need_credential r = IsolationLevel.None_ /\ effect_gating r = false) /\
  (forall network, network <> NetworkMode.Unrestricted ->
     weaker r (mkRequirements IsolationLevel.Container IsolationLevel.Container
       IsolationLevel.Container IsolationLevel.Container true) ->
     provider_satisfies (container network) r = true).
Proof.
  split_and!.
  - unfold select. induction available as [|[id p] available IH]; cbn; [by split; [constructor|]|].
    destruct (provider_satisfies p r) eqn:Hp.
    + exists [], available, p. by split_and!.
    + destruct (List.find _ available) as [[id' p']|].
      * destruct IH as (before & after & q & -> & ? & ?). exists ((id, p) :: before), after, q.
        split_and!; [done|done|by constructor].
      * destruct IH as [? ?]. split; [by constructor|done].
  - unfold provider_satisfies. destruct r as [[] [] [] [] []]; cbn; by intros.
  - intros network Hn (?&?&?&?&?). unfold provider_satisfies. cbn.
    rewrite !andb_true_iff. destruct network; try done; split_and!; try done; by destruct effect_gating.
Qed.

(** * The built-in profiles *)

Lemma below_directory name path : plain name ->
  covers (mkFsScope ("/" +:+ name) true) path -> exists rest, components path = RootDir :: Normal name :: rest.
Proof.
  intros Hp. destruct (plain_relative name Hp) as [_ Hn]. unfold covers. cbn [fs_root recursive].
  change ("/" +:+ name) with (String slash name). rewrite components_root. fold (pieces name). rewrite Hn.
  intros [->|[_ [rest ->]]]; eauto.
Qed.

Lemma matches_star pattern prefix value : matches pattern value -> strip_star pattern = Some prefix ->
  exists rest, value = prefix +:+ rest.
Proof.
  intros Hm Hs. apply pattern_matches_iff in Hm. unfold pattern_matches in Hm. rewrite Hs in Hm.
  by apply prefix_spec.
Qed.

Definition test_prefixes : list string :=
  ["mock://"; "mock-db://"; "mock-message://"; "shadow://"; "postgres://inventory_test/"].
Definition test_pattern (pattern : string) : bool :=
  match strip_star pattern with
  | Some q => existsb (fun prefix => String.prefix prefix q) test_prefixes
  | None => false
  end.

Lemma string_app_assoc (r s t : string) : (r +:+ s) +:+ t = r +:+ (s +:+ t).
Proof. induction r as [|c r IH]; [done|exact (f_equal (String c) IH)]. Qed.

Lemma test_pattern_matches pattern target : test_pattern pattern = true -> matches pattern target ->
  Exists (fun prefix => exists rest, target = prefix +:+ rest) test_prefixes.
Proof.
  unfold test_pattern. destruct (strip_star pattern) as [q|] eqn:Hs; [|done].
  rewrite existsb_exists. intros (prefix & Hin & [rest ->]%prefix_spec) Hm.
  apply (matches_star _ _ _ Hm) in Hs as [rest' ->]. apply Exists_exists. exists prefix.
  split; [by apply list_elem_of_In|]. rewrite string_app_assoc. eauto.
Qed.

Lemma profile_targets id created name m target : profile_manifest id created name = Ok m ->
  Exists (fun pattern => matches pattern target) (target_patterns (ef_scope (cm_effects m))) ->
  Exists (fun prefix => exists rest, target = prefix +:+ rest) test_prefixes.
Proof.
  intros Hm (pattern & Hin & Hmatch)%Exists_exists. eapply test_pattern_matches; [|done].
  assert (Hall : forallb test_pattern (target_patterns (ef_scope (cm_effects m))) = true).
  { revert Hm. unfold profile_manifest. repeat case_decide; intros [= <-]; reflexivity. }
  rewrite forallb_forall in Hall. by apply Hall, list_elem_of_In.
Qed.

(** No built-in profile reaches outside its sandbox: each file it grants lies
    in /workspace or /tmp, the only endpoints are the two of coding-networked, no
    credential is granted, and effects can be proposed and prepared against mock,
    shadow or test targets but never committed. *)
Theorem builtin_profiles_confined {libs : ManifestLibs} (id name : string) (created : Z)
    (m : CapabilityManifest) (now : nat -> Z) (request : CapabilityRequest)
    (Hm : builtin_profile id created name = Ok m)
    (Ha : decision (evaluate now request m) = CapabilityDecision.Allow) :
  match request with
  | FilesystemRequest _ path => well_named path /\ exists directory rest,
      components path = RootDir :: Normal directory :: rest /\ directory ∈ ["workspace"; "tmp"]
  | ProcessRequest _ => True
  | NetworkRequest endpoint _ => name = "coding-networked" /\
      endpoint ∈ [mkEndpoint "registry.npmjs.org" 443; mkEndpoint "api.github.com" 443]
  | EnvironmentRequest name => name ∈ ["PATH"; "HOME"; "TERM"; "LANG"]
  | CredentialRequest _ _ _ _ => False
  | EffectRequested stage kind target op =>
      stage <> EffectCapabilityStage.Commit /\ kind <> EffectKind.Filesystem /\
      Exists (fun prefix => exists rest, target = prefix +:+ rest) test_prefixes
  end.
Proof.
  apply result_bind_Ok in Hm as (m' & Hm & Hv). apply result_bind_Ok in Hv as (u & Hv & [= ->]).
  clear Hv u. unfold evaluate in Ha.
  assert (granted now m request) as G by (apply allows_iff; by destruct (allows now request m)). clear Ha.
  assert (Hfs : cm_filesystem m = workspace /\ cm_credentials m = [] /\ cm_environment m = environment).
  { revert Hm. unfold profile_manifest. repeat case_decide; intros [= <-]; done. }
  destruct Hfs as (Hf & Hc & He).
  destruct G as [op path scope Hw Hs Hcov| |ep mu Hmode _|ep mu Hmode Hin|ep mu Hmode|x Hx|i c re pe Hi
    |stage kind target op Hst Hk Ht Ho].
  - split; [done|].
    assert (scope ∈ [mkFsScope "/workspace" true; mkFsScope "/tmp" true]) as Hin.
    { revert Hs. unfold scopes_for. rewrite Hf. by destruct op. }
    rewrite elem_of_cons, list_elem_of_singleton in Hin. destruct Hin as [->| ->].
    + destruct (below_directory "workspace" path) as [rest ?]; [by vm_compute|done|].
      exists "workspace", rest. split; [done|set_solver].
    + destruct (below_directory "tmp" path) as [rest ?]; [by vm_compute|done|].
      exists "tmp", rest. split; [done|set_solver].
  - done.
  - revert Hm Hmode. unfold profile_manifest. repeat case_decide; intros [= <-]; done.
  - revert Hm Hmode Hin. unfold profile_manifest.
    repeat case_decide; intros [= <-]; cbn; try done. set_solver.
  - revert Hm Hmode. unfold profile_manifest. repeat case_decide; intros [= <-]; done.
  - by rewrite He in Hx.
  - by rewrite Hc in Hi.
  - split_and!; [| |by eapply profile_targets].
    + intros ->. revert Hm Hst. unfold profile_manifest. repeat case_decide; intros [= <-]; done.
    + intros ->. revert Hm Hk. unfold profile_manifest.
      repeat case_decide; intros [= <-]; cbn; set_solver.
Qed.
