(* ===== verification/Redaction.v ===== *)
(** Secret redaction and bounded output capture: [SecretRedactor] of
    src/capability/credential.rs and the capture of a container's output in
    src/capability/proxy.rs. *)
From Stdlib Require Import Strings.Byte.
From S2P Require Import Prelude.

#[global] Instance byte_eq_dec : EqDecision byte := Byte.byte_eq_dec.
Definition bytes (s : string) : list byte := String.list_byte_of_string s.

(** * The redactor *)

Definition REDACTED : list byte := bytes "[REDACTED]".

(** [replace_all]: the loop with its cursor; an empty needle never advances it. *)
Fixpoint replace_loop (fuel : nat) (needle replacement input : list byte) : run (list byte) :=
  match fuel with
  | O => OutOfFuel
  | S fuel' =>
      match input with
      | [] => Ret []
      | b :: rest =>
          if bool_decide (needle `prefix_of` input) then
            out ← replace_loop fuel' needle replacement (drop (length needle) input);
            Ret (replacement ++ out)
          else
            out ← replace_loop fuel' needle replacement rest;
            Ret (b :: out)
      end
  end.
Definition replace_all (input needle replacement : list byte) : run (list byte) :=
  replace_loop (S (length input)) needle replacement input.

(** [Vec::dedup]: of equal neighbours the first stays. *)
Fixpoint dedup (l : list (list byte)) : list (list byte) :=
  match l with
  | [] => []
  | x :: l' =>
      match dedup l' with
      | [] => [x]
      | y :: r => if bool_decide (x = y) then x :: r else x :: y :: r
      end
  end.

(** [SecretRedactor::new]: longest secrets first. *)
Definition redactor_new (secrets : list (list byte)) : list (list byte) :=
  dedup (sort_by_key (fun s => mkReverse (Z.of_nat (length s)))
    (List.filter (fun s => negb (bool_decide (s = []))) secrets)).

Definition redact (redactor : list (list byte)) (input : list byte) : run (list byte) :=
  run_foldl (fun output secret => replace_all output secret REDACTED) input redactor.

Definition including (redactor secrets : list (list byte)) : list (list byte) :=
  redactor_new (redactor ++ secrets).

(** * Capturing output *)

Module CapturedStream.
Inductive t := Stdout | Stderr.
#[global] Instance eq_dec : EqDecision t.
Proof. solve_decision. Defined.
End CapturedStream.

Module ContainerStopReason.
Inductive t := OutputLimit (s : CapturedStream.t) | TimedOut | CaptureFailed (s : CapturedStream.t).
#[global] Instance eq_dec : EqDecision t.
Proof. solve_decision. Defined.
End ContainerStopReason.

Record CaptureState := mkCapture {
  cap_bytes : list byte;
  limit_exceeded : bool;
  failure : option string;
}.
Definition capture_default : CaptureState := mkCapture [] false None.

(** One read of the loop of [capture_stream]; the flag tells whether the loop stops. *)
Definition capture_read (maximum : nat) (read : list byte) (s : CaptureState) : CaptureState * bool :=
  let retained := min (maximum - length (cap_bytes s)) (length read) in
  let taken := cap_bytes s ++ take retained read in
  if bool_decide (retained < length read) then (mkCapture taken true (failure s), true)
  else (mkCapture taken (limit_exceeded s) (failure s), false).

(** [capture_stream]: reads until the end of the stream, the limit or a failure. *)
Fixpoint capture_stream (maximum : nat) (reads : list (list byte + string)) (s : CaptureState) :
    CaptureState :=
  match reads with
  | [] => s
  | inr error :: _ => mkCapture (cap_bytes s) (limit_exceeded s) (Some error)
  | inl [] :: _ => s
  | inl read :: reads' =>
      let '(s', exceeded) := capture_read maximum read s in
      if exceeded then s' else capture_stream maximum reads' s'
  end.

Definition mark_capture_failure (message : string) (s : CaptureState) : CaptureState :=
  match failure s with
  | None => mkCapture (cap_bytes s) (limit_exceeded s) (Some message)
  | Some _ => s
  end.

Definition detected_capture_stop (stdout stderr : CaptureState) : option ContainerStopReason.t :=
  if limit_exceeded stdout then Some (ContainerStopReason.OutputLimit CapturedStream.Stdout)
  else if limit_exceeded stderr then Some (ContainerStopReason.OutputLimit CapturedStream.Stderr)
  else if bool_decide (is_Some (failure stdout)) then
    Some (ContainerStopReason.CaptureFailed CapturedStream.Stdout)
  else if bool_decide (is_Some (failure stderr)) then
    Some (ContainerStopReason.CaptureFailed CapturedStream.Stderr)
  else None.

Definition newline : byte := x0a.
Definition marker_text (s : string) : list byte := newline :: bytes s ++ [newline].
Definition OUTPUT_LIMIT_MARKER : list byte := marker_text "[hardknock: output capture limit exceeded]".
Definition TIMEOUT_MARKER : list byte := marker_text "[hardknock: container action timed out]".
Definition CAPTURE_FAILURE_MARKER : list byte := marker_text "[hardknock: output capture failed]".
Definition FORCED_STOP_MARKER : list byte := marker_text "[hardknock: container action stopped]".

Definition bounded_with_marker (input : list byte) (maximum : nat) (marker : list byte) : list byte :=
  let retained_marker := min (length marker) maximum in
  let retained_input := min (length input) (maximum - retained_marker) in
  take retained_input input ++ take retained_marker marker.

(** The marker [finalized_capture] appends. *)
Definition capture_marker (s : CaptureState) (stop_reason : option ContainerStopReason.t)
    (stream : CapturedStream.t) : option (list byte) :=
  if limit_exceeded s then Some OUTPUT_LIMIT_MARKER
  else if bool_decide (is_Some (failure s)) then Some CAPTURE_FAILURE_MARKER
  else match stop_reason with
  | Some ContainerStopReason.TimedOut => Some TIMEOUT_MARKER
  | Some (ContainerStopReason.OutputLimit exceeded) =>
      if bool_decide (exceeded = stream) then None else Some FORCED_STOP_MARKER
  | Some (ContainerStopReason.CaptureFailed failed) =>
      if bool_decide (failed = stream) then None else Some FORCED_STOP_MARKER
  | None => None
  end.

Definition finalized_capture (s : CaptureState) (redactor : list (list byte)) (maximum : nat)
    (stop_reason : option ContainerStopReason.t) (stream : CapturedStream.t) : run (list byte) :=
  redacted ← redact redactor (cap_bytes s);
  Ret (match capture_marker s stop_reason stream with
       | Some marker => bounded_with_marker redacted maximum marker
       | None =>
           if bool_decide (maximum < length redacted)
           then bounded_with_marker redacted maximum OUTPUT_LIMIT_MARKER
           else redacted
       end).

(** * Parts of a text *)

Definition infix (s l : list byte) : Prop := exists before after, l = before ++ s ++ after.

Lemma infix_cons s b l : infix s (b :: l) <-> s `prefix_of` b :: l \/ infix s l.
Proof.
  split.
  - intros ([|c before] & after & H); [left; by exists after|].
    right. injection H as -> ->. by exists before, after.
  - intros [[after ->]|(before & after & ->)]; [by exists [], after|by exists (b :: before), after].
Qed.

Lemma infix_nil_inv s : infix s [] -> s = [].
Proof. intros (before & after & H). symmetry in H. by apply app_nil in H as [_ [? ?]%app_nil]. Qed.

Lemma prefix_of_app {A} (l a b : list A) : l `prefix_of` a ++ b ->
  l `prefix_of` a \/ exists l2, l = a ++ l2 /\ l2 `prefix_of` b.
Proof.
  intros [k Hk]. apply app_eq_inv in Hk as [(j & -> & _)|(j & -> & ->)].
  - left. by exists j.
  - right. exists j. split; [done|by exists k].
Qed.

(** A part of [a ++ b] lies in [a], in [b], or across. *)
Lemma infix_app s a b : infix s (a ++ b) ->
  infix s a \/ infix s b \/ exists s1 s2, s = s1 ++ s2 /\ s1 <> [] /\ s2 <> [] /\
    s1 `suffix_of` a /\ s2 `prefix_of` b.
Proof.
  induction a as [|c a IH]; cbn; [by auto|]. rewrite infix_cons.
  intros [Hpre|Hin].
  - change (c :: a ++ b) with ((c :: a) ++ b) in Hpre. apply prefix_of_app in Hpre as [H|(s2 & -> & H)].
    + left. apply infix_cons. by left.
    + destruct (decide (s2 = [])) as [->|Hne].
      * left. rewrite app_nil_r. exists [], []. by rewrite app_nil_r.
      * right. right. exists (c :: a), s2. split_and!; [done|done|done|done|done].
  - destruct (IH Hin) as [H|[H|(s1 & s2 & -> & ? & ? & Hsuf & ?)]]; [left; apply infix_cons; by right|by auto|].
    right. right. exists s1, s2. split_and!; try done. by apply suffix_cons_r.
Qed.

(** * One replacement *)

Section replacement.
Context (needle replacement : list byte).

(** The output copies what does not start the needle, and writes the
    replacement for what does. *)
Inductive replaced : list byte -> list byte -> Prop :=
  | replaced_nil : replaced [] []
  | replaced_hit rest out : replaced rest out -> replaced (needle ++ rest) (replacement ++ out)
  | replaced_miss b rest out : ~ needle `prefix_of` b :: rest -> replaced rest out ->
      replaced (b :: rest) (b :: out).

Lemma replace_loop_replaced fuel input : needle <> [] -> length input < fuel ->
  exists out, replace_loop fuel needle replacement input = Ret out /\ replaced input out.
Proof.
  intros Hne. revert input. induction fuel as [|fuel IH]; intros input Hf; [lia|].
  destruct input as [|b rest]; cbn [replace_loop]; [exists []; split; [done|constructor]|].
  destruct (bool_decide_reflect (needle `prefix_of` b :: rest)) as [[k Hk]|Hno].
  - rewrite Hk, drop_app_length. destruct (IH k) as (out & -> & Hr).
    { apply (f_equal length) in Hk. rewrite length_app in Hk. destruct needle; [done|]. cbn in *. lia. }
    exists (replacement ++ out). split; [done|]. by constructor.
  - destruct (IH rest) as (out & -> & Hr); [cbn in *; lia|].
    exists (b :: out). split; [done|]. by constructor.
Qed.

(** Where the needle does not occur nothing changes. *)
Lemma replaced_id input out : needle <> [] -> replaced input out -> ~ infix needle input -> out = input.
Proof.
  intros Hne. induction 1 as [|rest out _ _|b rest out _ _ IH]; intros Hno; [done| |].
  - destruct Hno. by exists [], rest.
  - f_equal. apply IH. intros Hin. apply Hno, infix_cons. by right.
Qed.

(** A text that starts with no byte of the replacement and cannot reach into it. *)
Context (s : list byte).
Hypothesis (Hs : s <> []).
Hypothesis (Hinside : ~ infix s replacement).
Hypothesis (Hacross : forall s1 s2, s = s1 ++ s2 -> s2 <> [] ->
  (s1 <> [] -> ~ s1 `suffix_of` replacement) /\ ~ s2 `prefix_of` replacement /\
  ~ replacement `prefix_of` s2).

Lemma replaced_prefix_copied s1 s2 input out : s = s1 ++ s2 -> replaced input out ->
  s2 `prefix_of` out -> s2 `prefix_of` input.
Proof.
  intros He Hr. revert s1 s2 He. induction Hr as [|rest out _ _|b rest out _ _ IH]; intros s1 s2 He Hp.
  - done.
  - destruct (decide (s2 = [])) as [->|Hne]; [by apply prefix_nil|].
    destruct (Hacross s1 s2 He Hne) as (_ & Hp1 & Hp2).
    apply prefix_of_app in Hp as [|(k & -> & _)]; [done|]. destruct Hp2. by exists k.
  - destruct s2 as [|c s2]; [by apply prefix_nil|].
    apply prefix_cons_inv_1 in Hp as Hc. apply prefix_cons_inv_2 in Hp. subst c.
    apply prefix_cons. apply (IH (s1 ++ [b])); [by rewrite <- app_assoc|done].
Qed.

(** Every occurrence of such a text in the output was copied, so it is not the
    needle. *)
Lemma infix_replaced input out : replaced input out -> infix s out -> infix s input /\ s <> needle.
Proof.
  induction 1 as [|rest out _ IH|b rest out Hno Hr IH].
  - by intros ?%infix_nil_inv.
  - intros Hin. assert (infix s out) as Ho.
    { apply infix_app in Hin as [?|[?|(s1 & s2 & -> & H1 & H2 & Hsuf & _)]]; [done|done|].
      destruct (Hacross s1 s2 eq_refl H2) as (Hn & _). by destruct (Hn H1). }
    destruct (IH Ho) as [(before & after & ->) ?]. split; [|done].
    exists (needle ++ before), after. by rewrite <- app_assoc.
  - rewrite !infix_cons. intros [Hp|Hin]; [|naive_solver].
    assert (s `prefix_of` b :: rest) as Hc.
    { apply (replaced_prefix_copied [] s _ (b :: out)); [done|by constructor|done]. }
    split; [by left|]. by intros <-.
Qed.
End replacement.

(** * The redactor *)

Definition bracket_free (s : list byte) : Prop := (x5b ∉ s) /\ (x5d ∉ s).

(** A secret that the replacement text can neither contain nor complete. *)
Definition redactable (s : list byte) : Prop :=
  s <> [] /\ bracket_free s /\ ~ infix s (bytes "REDACTED").

Lemma redacted_shape : REDACTED = x5b :: bytes "REDACTED" ++ [x5d].
Proof. reflexivity. Qed.

Lemma redactable_inside s : redactable s -> ~ infix s REDACTED.
Proof.
  intros (Hne & [Hl Hr] & Hin) H. rewrite redacted_shape in H.
  apply infix_cons in H as [[k Hk]|H].
  - destruct s as [|c s]; [done|]. injection Hk as <- _. set_solver.
  - apply infix_app in H as [?|[H|(s1 & s2 & -> & _ & H2 & _ & [k Hk])]]; [done| |].
    + apply infix_cons in H as [[k Hk]|?%infix_nil_inv]; [|done].
      destruct s as [|c s]; [done|]. injection Hk as <- _. set_solver.
    + destruct s2 as [|c s2]; [done|]. injection Hk as <- _. set_solver.
Qed.

Lemma redactable_across s s1 s2 : redactable s -> s = s1 ++ s2 -> s2 <> [] ->
  (s1 <> [] -> ~ s1 `suffix_of` REDACTED) /\ ~ s2 `prefix_of` REDACTED /\ ~ REDACTED `prefix_of` s2.
Proof.
  intros (Hne & [Hl Hr] & _) -> H2. split_and!.
  - intros H1 [k Hk]. destruct s1 as [|c s1 _] using rev_ind; [done|].
    rewrite redacted_shape, app_comm_cons, app_assoc in Hk. apply app_inj_tail in Hk as [_ <-]. set_solver.
  - intros [k Hk]. destruct s2 as [|c s2]; [done|]. rewrite redacted_shape in Hk.
    injection Hk as <- _. set_solver.
  - intros [k ->]. rewrite redacted_shape in Hl. set_solver.
Qed.

(** The secrets of the list that are not in the text. *)
Lemma redact_spec secrets input : Forall (fun s => s <> []) secrets ->
  exists out, redact secrets input = Ret out /\
    (forall s, redactable s -> infix s out -> infix s input /\ s ∉ secrets) /\
    (Forall (fun s => ~ infix s input) secrets -> out = input).
Proof.
  unfold redact. revert input. induction secrets as [|secret secrets IH]; intros input Hf; cbn [run_foldl].
  { exists input. split_and!; [done| |done]. set_solver. }
  apply Forall_cons in Hf as [Hne Hf].
  destruct (replace_loop_replaced secret REDACTED (S (length input)) input) as (mid & Hmid & Hr); [done|lia|].
  fold (replace_all input secret REDACTED) in Hmid. cbv beta. rewrite Hmid. cbn [mbind run_bind].
  destruct (IH mid Hf) as (out & Hout & Hhide & Hid). exists out. split_and!; [done| |].
  - intros s Hs Hin. destruct (Hhide s Hs Hin) as [Hmid' Hnot].
    destruct (infix_replaced secret REDACTED s ltac:(apply Hs) (redactable_inside s Hs)
      (fun s1 s2 He H2 => redactable_across s s1 s2 Hs He H2) input mid Hr Hmid') as [? ?].
    set_solver.
  - intros [Hn Hrest]%Forall_cons. apply replaced_id in Hr as ->; [by apply Hid|done|done].
Qed.

Lemma elem_of_dedup_secrets l x : x ∈ dedup l <-> x ∈ l.
Proof.
  induction l as [|y l IH]; cbn; [done|].
  destruct (dedup l) as [|z r]; [set_solver|].
  destruct (bool_decide_reflect (y = z)) as [->|]; set_solver.
Qed.

Lemma elem_of_redactor_new secrets s : s ∈ redactor_new secrets <-> s ∈ secrets /\ s <> [].
Proof.
  unfold redactor_new. rewrite elem_of_dedup_secrets, elem_of_sort_by_key, elem_of_list_filter_bool.
  rewrite negb_true_iff, bool_decide_eq_false. tauto.
Qed.

(** C23. Redaction always returns; when no issued secret holds a bracket or is a
    part of the word REDACTED, the output holds none of them; it changes nothing
    where no secret occurs. The condition is needed: the replacement text can
    complete a secret that holds a bracket. *)
Theorem redaction_hides_secrets (secrets : list (list byte)) (input : list byte) :
  (exists out, redact (redactor_new secrets) input = Ret out /\
     (forall s, s ∈ secrets -> redactable s -> ~ infix s out) /\
     (Forall (fun s => s = [] \/ ~ infix s input) secrets -> out = input)) /\
  (exists secret text out, secret <> [] /\ redact (redactor_new [secret]) text = Ret out /\
     infix secret out).
Proof.
  split.
  - destruct (redact_spec (redactor_new secrets) input) as (out & Hout & Hhide & Hid).
    { rewrite Forall_forall. intros s Hs. by apply elem_of_redactor_new in Hs as [_ ?]. }
    exists out. split_and!; [done| |].
    + intros s Hin Hs Hi. destruct (Hhide s Hs Hi) as [_ Hn]. apply Hn, elem_of_redactor_new.
      split; [done|apply Hs].
    + intros Hf. apply Hid. rewrite Forall_forall in *. intros s [Hin Hne]%elem_of_redactor_new.
      by destruct (Hf s Hin).
  - exists (bytes "A[R"), (bytes "AA[R[R"), (bytes "A[REDACTED][R"). split_and!; [done|by vm_compute|].
    by exists [], (bytes "EDACTED][R").
Qed.

(** * Captured output *)

Definition markers : list (list byte) :=
  [OUTPUT_LIMIT_MARKER; TIMEOUT_MARKER; CAPTURE_FAILURE_MARKER; FORCED_STOP_MARKER].

Lemma capture_marker_elem s stop stream marker :
  capture_marker s stop stream = Some marker -> marker ∈ markers.
Proof.
  unfold capture_marker, markers. destruct (limit_exceeded s); [intros [= <-]; set_solver|].
  destruct (bool_decide _); [intros [= <-]; set_solver|].
  destruct stop as [[x| |x]|]; [destruct (bool_decide _)| |destruct (bool_decide _)|];
    intros [=]; subst; set_solver.
Qed.

Lemma marker_head marker : marker ∈ markers -> exists rest, marker = newline :: rest.
Proof. unfold markers. rewrite !elem_of_cons, elem_of_nil. intros Hm. destruct_or? Hm; subst; by eexists. Qed.

Lemma infix_take s n l : infix s (take n l) -> infix s l.
Proof.
  intros (before & after & H). exists before, (after ++ drop n l).
  rewrite <- (take_drop n l) at 1. by rewrite H, <- !app_assoc.
Qed.

Lemma bounded_with_marker_length input maximum marker :
  length (bounded_with_marker input maximum marker) <= maximum.
Proof. unfold bounded_with_marker. rewrite length_app, !length_take. lia. Qed.

(** Truncation and a marker complete no secret without a newline. *)
Lemma bounded_with_marker_infix s input maximum marker : marker ∈ markers ->
  newline ∉ s -> ~ infix s marker -> infix s (bounded_with_marker input maximum marker) -> infix s input.
Proof.
  intros [rest Hm]%marker_head Hnl Hnot Hin. unfold bounded_with_marker in Hin.
  apply infix_app in Hin as [?%infix_take|[?%infix_take|(s1 & s2 & -> & _ & H2 & _ & [k Hk])]]; [done|done|].
  rewrite Hm in Hk. destruct (min _ maximum); cbn in Hk; [by destruct s2|].
  destruct s2 as [|c s2]; [done|]. injection Hk as <- _. set_solver.
Qed.

(** What a stream retains, from any state. *)
Lemma capture_stream_spec maximum chunks s : Forall (fun chunk => chunk <> []) chunks ->
  length (cap_bytes s) <= maximum -> limit_exceeded s = false -> failure s = None ->
  let s' := capture_stream maximum (inl <$> chunks) s in
  cap_bytes s' = take maximum (cap_bytes s ++ concat chunks) /\
  limit_exceeded s' = bool_decide (maximum < length (cap_bytes s ++ concat chunks)) /\
  failure s' = None.
Proof.
  intros Hf. revert s. induction Hf as [|chunk chunks Hc _ IH]; intros s Hl He Hn; cbn.
  { rewrite app_nil_r, take_ge by done. split_and!; [done| |done].
    by rewrite bool_decide_eq_false_2 by lia. }
  destruct chunk as [|b chunk]; [done|]. set (read := b :: chunk) in *. unfold capture_read.
  destruct (bool_decide_reflect (min (maximum - length (cap_bytes s)) (length read) < length read)) as [Hlt|Hge].
  - cbn [cap_bytes limit_exceeded failure]. rewrite bool_decide_eq_true_2 by (rewrite !length_app; lia).
    split_and!; [|done|done]. rewrite Nat.min_l by lia.
    rewrite take_app, (take_ge (cap_bytes s)) by done. f_equal.
    by rewrite take_app_le by lia.
  - rewrite (take_ge read) by lia. destruct (IH (mkCapture (cap_bytes s ++ read) (limit_exceeded s) (failure s)))
      as (-> & -> & ->); cbn [cap_bytes]; [rewrite length_app; lia|done|done|].
    by rewrite <- !app_assoc.
Qed.

(** The output kept of a container is bounded and redacted: the capture
    retains exactly the first [maximum] bytes and flags the limit exactly when
    there was more; the stored text has at most [maximum] bytes, ends with the
    marker of its stop reason whenever that fits, and holds no secret that
    redaction can hide, has no newline and is not part of a marker. *)
Theorem captured_output_safe (maximum : nat) (chunks secrets : list (list byte))
    (stop : option ContainerStopReason.t) (stream : CapturedStream.t)
    (Hc : Forall (fun chunk => chunk <> []) chunks) :
  let s := capture_stream maximum (inl <$> chunks) capture_default in
  cap_bytes s = take maximum (concat chunks) /\
  limit_exceeded s = bool_decide (maximum < length (concat chunks)) /\
  exists out, finalized_capture s (redactor_new secrets) maximum stop stream = Ret out /\
    length out <= maximum /\
    (forall marker, capture_marker s stop stream = Some marker -> length marker <= maximum ->
       marker `suffix_of` out) /\
    (forall secret, secret ∈ secrets -> redactable secret -> newline ∉ secret ->
       Forall (fun marker => ~ infix secret marker) markers -> ~ infix secret out).
Proof.
  intros s. destruct (capture_stream_spec maximum chunks capture_default Hc) as (Hb & Hl & _);
    [cbn; lia|done|done|]. split_and!; [done|done|]. unfold finalized_capture.
  destruct (redact_spec (redactor_new secrets) (cap_bytes s)) as (red & -> & Hhide & _).
  { rewrite Forall_forall. intros x Hx. by apply elem_of_redactor_new in Hx as [_ ?]. }
  cbn [mbind run_bind].
  assert (Hsafe : forall secret, secret ∈ secrets -> redactable secret -> ~ infix secret red).
  { intros x Hx Hr Hi. destruct (Hhide x Hr Hi) as [_ Hn]. apply Hn, elem_of_redactor_new.
    split; [done|apply Hr]. }
  eexists. split; [done|]. destruct (capture_marker s stop stream) as [marker|] eqn:Hm.
  - apply capture_marker_elem in Hm. split_and!; [apply bounded_with_marker_length| |].
    + intros m [= <-] Hfit. unfold bounded_with_marker. rewrite (Nat.min_l (length marker) maximum), (take_ge marker) by lia.
      by eexists.
    + intros x Hx Hr Hnl Hf Hi. rewrite Forall_forall in Hf.
      apply (Hsafe x Hx Hr). eapply bounded_with_marker_infix; eauto.
  - destruct (bool_decide_reflect (maximum < length red)).
    + split_and!; [apply bounded_with_marker_length|done|].
      intros x Hx Hr Hnl Hf Hi. rewrite Forall_forall in Hf. apply (Hsafe x Hx Hr).
      eapply (bounded_with_marker_infix _ _ _ OUTPUT_LIMIT_MARKER); eauto; try apply Hf; set_solver.
    + split_and!; [lia|done|]. intros x Hx Hr _ _. by apply Hsafe.
Qed.

Module RedactionExamples.
Definition chunks : list (list byte) := [bytes "user=ci key=TOKEN-"; bytes "12345 ok"].
Definition secrets : list (list byte) := [bytes "TOKEN-12345"; []; bytes "ci"].

Lemma captured_output_safe_witness :
  finalized_capture (capture_stream 64 (inl <$> chunks) capture_default) (redactor_new secrets) 64 None
    CapturedStream.Stdout = Ret (bytes "user=[REDACTED] key=[REDACTED] ok") /\
  exists out, finalized_capture (capture_stream 64 (inl <$> chunks) capture_default)
    (redactor_new secrets) 64 None CapturedStream.Stdout = Ret out /\ length out <= 64.
Proof.
  split; [by vm_compute|].
  destruct (captured_output_safe 64 chunks secrets None CapturedStream.Stdout) as (_ & _ & out & Ho & Hl & _).
  { repeat constructor; discriminate. }
  exists out. split; [exact Ho|exact Hl].
Defined.
End RedactionExamples.
