(* ===== verification/CapabilityStore.v ===== *)
(** The persistent state of the capability subsystem and its statements:
    src/store/capabilities.rs over the tables of migrations/012_capabilities.sql,
    the secrets of the credential broker and the published tokens. A table is a
    finite map by its key; every statement may fail. *)
From Stdlib Require Import Strings.Byte.
From S2P Require Import Prelude StateError Paths EconomicsModel EffectModel CapabilityModel.

(** * Tokens *)

Module RealityTokenOperation.
Inductive t := Shell | FileRead | FileWrite | EffectPropose | EffectPrepare | EffectStatus |
  EffectDiscard | EffectCommit.
#[global] Instance eq_dec : EqDecision t.
Proof. solve_decision. Defined.
End RealityTokenOperation.

Record RealityCapabilityToken := mkClaims {
  tc_id : string;
  tc_reality : string;
  tc_manifest_id : string;
  tc_manifest_hash : string;
  tc_manifest_revision : Z;
  tc_issued_at : Z;
  tc_expires_at : Z;
  tc_nonce : string;
  tc_operations : list RealityTokenOperation.t;
}.
Record SignedRealityCapabilityToken := mkSigned { claims : RealityCapabilityToken; signature : string }.

(** What tokens need of serde_json, ed25519 (under the key of the authority) and
    blake3. *)
Class TokenLibs := {
  claims_json : RealityCapabilityToken -> result (list byte);
  ed25519_sign : list byte -> list byte;
  ed25519_verify : list byte -> list byte -> bool;
  token_hash : SignedRealityCapabilityToken -> result string;
}.

(** * The state *)

(** What the subsystem reads and writes of a Reality, and of the metadata of its
    container. *)
Record RealityRow := mkRealityRow {
  rr_root : string;
  rr_discarded : bool;
  rr_boundary : ExecutionBoundary;
}.
Record ContainerRuntimeMetadata := mkRuntime { rt_runtime : string; rt_container_id : string }.
Record HistoryRow := mkHistory { hi_manifest : string; hi_revoked : option Z }.
Record TokenRow := mkTokenRow {
  tk_reality : string;
  tk_manifest : string;
  tk_expires_at : Z;
  tk_revoked : option Z;
}.

(** The tables; [cw_secrets] are the files run/credentials/<id>.secret, [cw_published]
    the files capability-token.json, [cw_files] the rest of the host's file system. *)
Record CapWorld {F : Type} := mkCapWorld {
  cw_realities : gmap string RealityRow;
  cw_runtimes : gmap string ContainerRuntimeMetadata;
  cw_manifests : gmap string (CapabilityManifest * string);
  cw_history : gmap (string * Z) HistoryRow;
  cw_events : list CapabilityEvent;
  cw_credentials : gmap string IssuedCredential;
  cw_tokens : gmap string TokenRow;
  cw_secrets : gmap string (list byte);
  cw_published : gmap string SignedRealityCapabilityToken;
  cw_files : F;
  cw_ticks : nat;
}.
Arguments CapWorld F : clear implicits.

(** The clock, the source of fresh ids, and which statements and file operations
    fail. *)
Class CapabilityEnv := {
  cap_clock : nat -> Z;
  cap_fresh : nat -> string;
  cap_fault : nat -> option Error;
}.

Section store.
Context {F : Type} {env : CapabilityEnv} {libs : ManifestLibs} {tokens : TokenLibs}.
#[local] Abbreviation World := (CapWorld F).
#[local] Abbreviation eff := (eff World).

(** Field updates. *)
Definition set_realities (m : gmap string RealityRow) (w : World) : World :=
  mkCapWorld F m (cw_runtimes w) (cw_manifests w) (cw_history w) (cw_events w) (cw_credentials w)
    (cw_tokens w) (cw_secrets w) (cw_published w) (cw_files w) (cw_ticks w).
Definition set_manifests (m : gmap string (CapabilityManifest * string)) (w : World) : World :=
  mkCapWorld F (cw_realities w) (cw_runtimes w) m (cw_history w) (cw_events w) (cw_credentials w)
    (cw_tokens w) (cw_secrets w) (cw_published w) (cw_files w) (cw_ticks w).
Definition set_history (m : gmap (string * Z) HistoryRow) (w : World) : World :=
  mkCapWorld F (cw_realities w) (cw_runtimes w) (cw_manifests w) m (cw_events w) (cw_credentials w)
    (cw_tokens w) (cw_secrets w) (cw_published w) (cw_files w) (cw_ticks w).
Definition set_events (l : list CapabilityEvent) (w : World) : World :=
  mkCapWorld F (cw_realities w) (cw_runtimes w) (cw_manifests w) (cw_history w) l (cw_credentials w)
    (cw_tokens w) (cw_secrets w) (cw_published w) (cw_files w) (cw_ticks w).
Definition set_credentials (m : gmap string IssuedCredential) (w : World) : World :=
  mkCapWorld F (cw_realities w) (cw_runtimes w) (cw_manifests w) (cw_history w) (cw_events w) m
    (cw_tokens w) (cw_secrets w) (cw_published w) (cw_files w) (cw_ticks w).
Definition set_tokens (m : gmap string TokenRow) (w : World) : World :=
  mkCapWorld F (cw_realities w) (cw_runtimes w) (cw_manifests w) (cw_history w) (cw_events w)
    (cw_credentials w) m (cw_secrets w) (cw_published w) (cw_files w) (cw_ticks w).
Definition set_secrets (m : gmap string (list byte)) (w : World) : World :=
  mkCapWorld F (cw_realities w) (cw_runtimes w) (cw_manifests w) (cw_history w) (cw_events w)
    (cw_credentials w) (cw_tokens w) m (cw_published w) (cw_files w) (cw_ticks w).
Definition set_published (m : gmap string SignedRealityCapabilityToken) (w : World) : World :=
  mkCapWorld F (cw_realities w) (cw_runtimes w) (cw_manifests w) (cw_history w) (cw_events w)
    (cw_credentials w) (cw_tokens w) (cw_secrets w) m (cw_files w) (cw_ticks w).
Definition set_files (f : F) (w : World) : World :=
  mkCapWorld F (cw_realities w) (cw_runtimes w) (cw_manifests w) (cw_history w) (cw_events w)
    (cw_credentials w) (cw_tokens w) (cw_secrets w) (cw_published w) f (cw_ticks w).
Definition set_ticks (n : nat) (w : World) : World :=
  mkCapWorld F (cw_realities w) (cw_runtimes w) (cw_manifests w) (cw_history w) (cw_events w)
    (cw_credentials w) (cw_tokens w) (cw_secrets w) (cw_published w) (cw_files w) n.

(** One statement or file operation: it may fail, doing nothing. *)
Definition io : eff unit := fun w =>
  (match cap_fault (cw_ticks w) with Some e => Err e | None => Ok tt end, set_ticks (S (cw_ticks w)) w).
Definition utc_now : eff Z := fun w => (Ok (cap_clock (cw_ticks w)), set_ticks (S (cw_ticks w)) w).
Definition new_id (prefix : string) : eff string := fun w =>
  (Ok (prefix +:+ cap_fresh (cw_ticks w)), set_ticks (S (cw_ticks w)) w).

(** A change of the host's files, and one that also depends on the time. *)
Definition host_change {A} (f : F -> result A * F) : eff A := fun w =>
  let '(r, files) := f (cw_files w) in (r, set_files files w).
Definition tick : eff nat := fun w => (Ok (cw_ticks w), set_ticks (S (cw_ticks w)) w).
Definition host_run {A} (f : nat -> F -> result A * F) : eff A := n ← tick; host_change (f n).

(** What a value does when it is dropped: on every exit, or only on an error. *)
Definition finally {A} (m : eff A) (cleanup : eff unit) : eff A := fun w =>
  let '(r, w') := m w in (r, (cleanup w').2).
Definition on_error {A} (m : eff A) (cleanup : eff unit) : eff A := fun w =>
  match m w with
  | (Ok a, w') => (Ok a, w')
  | (Err e, w') => (Err e, (cleanup w').2)
  end.

(** A transaction that fails rolls the tables back; draws are not undone. *)
Definition transaction {A} (m : eff A) : eff A := fun w =>
  match m w with
  | (Ok a, w') => (Ok a, w')
  | (Err e, w') => (Err e, set_ticks (cw_ticks w') w)
  end.

Definition foreign_key {A} (o : option A) : eff unit :=
  match o with Some _ => mret tt | None => fail (Sqlite "FOREIGN KEY constraint failed") end.
Definition unique {A} (o : option A) : eff unit :=
  match o with None => mret tt | Some _ => fail (Sqlite "UNIQUE constraint failed") end.

(** * Realities *)

Definition reality (id : string) : eff RealityRow :=
  io ≫= fun _ =>
  fetch (fun w => ok_or (cw_realities w !! id) (NotFound ("Record " +:+ id +:+ " not found"))).

Definition update_reality (id : string) (r : RealityRow) : eff unit :=
  io ≫= fun _ =>
  known ← ask (fun w => cw_realities w !! id);
  match known with
  | Some _ => modify (fun w => set_realities (<[id := r]> (cw_realities w)) w)
  | None => fail (NotFound ("Reality " +:+ id +:+ " not found"))
  end.

Definition provider_runtime (id : string) : eff ContainerRuntimeMetadata :=
  io ≫= fun _ =>
  fetch (fun w => ok_or (cw_runtimes w !! id)
    (NotFound ("Provider runtime for Reality " +:+ id +:+ " not found"))).

(** * Manifests *)

(** INSERT OR IGNORE: the row is dropped when its id or its hash is taken. *)
Definition insert_manifest_row (m : CapabilityManifest) (hash : string) : eff unit :=
  io ≫= fun _ => modify (fun w =>
    if bool_decide (is_Some (cw_manifests w !! cm_id m)) ||
       bool_decide (map_Exists (fun _ row => row.2 = hash) (cw_manifests w))
    then w else set_manifests (<[cm_id m := (m, hash)]> (cw_manifests w)) w).

Definition revoke_row (now : Z) (h : HistoryRow) : HistoryRow :=
  match hi_revoked h with None => mkHistory (hi_manifest h) (Some now) | Some _ => h end.

(** UPDATE reality_manifest_history SET revoked_at = now for the active rows. *)
Definition revoke_history (rid : string) (now : Z) (m : gmap (string * Z) HistoryRow) :
    gmap (string * Z) HistoryRow :=
  map_imap (fun k h => Some (if bool_decide (k.1 = rid) then revoke_row now h else h)) m.

(** Same digest and same serialized data. *)
Definition same_manifest_row (row : option (CapabilityManifest * string)) (hash data : string) : bool :=
  match row with
  | Some (m, h) =>
      bool_decide (h = hash) && match manifest_json m with Ok d => bool_decide (d = data) | Err _ => false end
  | None => false
  end.

Definition insert_capability_manifest (rid : string) (m : CapabilityManifest) : eff unit :=
  hash ← lift (manifest_hash m);
  data ← lift (manifest_json m);
  transaction (
    insert_manifest_row m hash ≫= fun _ =>
    io ≫= fun _ =>
    existing ← ask (fun w => cw_manifests w !! cm_id m);
    if negb (same_manifest_row existing hash data) then
      fail (Intervention "Capability manifest identifier/hash collision")
    else
      revoked ← utc_now;
      io ≫= fun _ =>
      modify (fun w => set_history (revoke_history rid revoked (cw_history w)) w) ≫= fun _ =>
      io ≫= fun _ =>
      owner ← ask (fun w => cw_realities w !! rid);
      foreign_key owner ≫= fun _ =>
      taken ← ask (fun w => cw_history w !! (rid, cm_revision m));
      unique taken ≫= fun _ =>
      modify (fun w => set_history (<[(rid, cm_revision m) := mkHistory (cm_id m) None]> (cw_history w)) w)
        ≫= fun _ =>
      io).

Definition capability_manifest (id : string) : eff CapabilityManifest :=
  io ≫= fun _ =>
  fetch (fun w => ok_or (fst <$> cw_manifests w !! id)
    (NotFound ("Capability manifest " +:+ id +:+ " not found"))).

(** The active revisions of a Reality, the highest first. *)
Definition active_revisions (rid : string) (w : World) : list (Z * string) :=
  sort_by_key (fun p => mkReverse p.1)
    ((fun kh => (kh.1.2, hi_manifest kh.2)) <$>
     List.filter (fun kh => bool_decide (kh.1.1 = rid) && bool_decide (hi_revoked kh.2 = None))
       (map_to_list (cw_history w))).

(** The join drops the revisions whose manifest is missing. *)
Definition effective (rid : string) (w : World) : option CapabilityManifest :=
  head (omap (fun p => fst <$> cw_manifests w !! p.2) (active_revisions rid w)).

Definition effective_capability_manifest (rid : string) : eff CapabilityManifest :=
  io ≫= fun _ =>
  fetch (fun w => ok_or (effective rid w)
    (NotFound ("Reality " +:+ rid +:+ " has no effective capability manifest"))).

(** * Events *)

Definition append_capability_event (e : CapabilityEvent) : eff unit :=
  io ≫= fun _ =>
  taken ← ask (fun w => List.find (fun e' => bool_decide (ce_id e' = ce_id e)) (cw_events w));
  unique taken ≫= fun _ =>
  owner ← ask (fun w => cw_realities w !! ce_reality e);
  foreign_key owner ≫= fun _ =>
  manifest ← ask (fun w => cw_manifests w !! ce_manifest e);
  foreign_key manifest ≫= fun _ =>
  modify (fun w => set_events (cw_events w ++ [e]) w).

(** [append_capability_event] of a new event. *)
Definition record_event (rid manifest : string) (kind : CapabilityEventKind.t)
    (request : option CapabilityRequest) (reason : string) : eff unit :=
  id ← new_id "capability-event-";
  now ← utc_now;
  append_capability_event (mkCapabilityEvent id rid manifest kind request reason now).

(** ORDER BY created_at, id. *)
Definition capability_events (rid : option string) : eff (list CapabilityEvent) :=
  io ≫= fun _ =>
  ask (fun w => sort_by_key (fun e => (ce_created_at e, ce_id e))
    (List.filter (fun e => match rid with None => true | Some r => bool_decide (ce_reality e = r) end)
      (cw_events w))).

(** * Credentials *)

Definition insert_issued_credential (c : IssuedCredential) : eff unit :=
  io ≫= fun _ =>
  taken ← ask (fun w => cw_credentials w !! ic_id c);
  unique taken ≫= fun _ =>
  owner ← ask (fun w => cw_realities w !! ic_reality c);
  foreign_key owner ≫= fun _ =>
  modify (fun w => set_credentials (<[ic_id c := c]> (cw_credentials w)) w).

(** ORDER BY issued_at, id. *)
Definition issued_credentials (rid : string) : eff (list IssuedCredential) :=
  io ≫= fun _ =>
  ask (fun w => sort_by_key (fun c => (issued_at c, ic_id c))
    (List.filter (fun c => bool_decide (ic_reality c = rid)) (snd <$> map_to_list (cw_credentials w)))).

Definition revoke_issued_credential (c : IssuedCredential) : eff unit :=
  io ≫= fun _ =>
  row ← ask (fun w => cw_credentials w !! ic_id c);
  let refused := fail (Intervention ("Credential " +:+ ic_id c +:+ " was already revoked or missing")) in
  match row with
  | Some r =>
      match revoked_at r with
      | None => modify (fun w => set_credentials (<[ic_id c := c]> (cw_credentials w)) w)
      | Some _ => refused
      end
  | None => refused
  end.

(** * Token audit *)

Definition audit_capability_token (t : SignedRealityCapabilityToken) : eff unit :=
  hash ← lift (token_hash t);
  io ≫= fun _ =>
  taken ← ask (fun w => cw_tokens w !! hash);
  unique taken ≫= fun _ =>
  owner ← ask (fun w => cw_realities w !! tc_reality (claims t));
  foreign_key owner ≫= fun _ =>
  manifest ← ask (fun w => cw_manifests w !! tc_manifest_id (claims t));
  foreign_key manifest ≫= fun _ =>
  modify (fun w => set_tokens (<[hash := mkTokenRow (tc_reality (claims t)) (tc_manifest_id (claims t))
    (tc_expires_at (claims t)) None]> (cw_tokens w)) w).

Definition revoke_token (rid : string) (now : Z) (t : TokenRow) : TokenRow :=
  if bool_decide (tk_reality t = rid) && bool_decide (tk_revoked t = None)
  then mkTokenRow (tk_reality t) (tk_manifest t) (tk_expires_at t) (Some now) else t.

Definition revoke_capability_tokens (rid : string) : eff unit :=
  now ← utc_now;
  io ≫= fun _ => modify (fun w => set_tokens (revoke_token rid now <$> cw_tokens w) w).

(** A token that was never audited counts as revoked. *)
Definition token_revoked (hash : string) (w : World) : bool :=
  match cw_tokens w !! hash with
  | None => true
  | Some t => bool_decide (is_Some (tk_revoked t))
  end.
Definition capability_token_revoked (hash : string) : eff bool :=
  io ≫= fun _ => ask (token_revoked hash).
End store.
