(* ===== verification/CapabilityToken.v ===== *)
(** Signed Reality tokens: [CapabilityTokenAuthority] of src/capability/token.rs,
    their hexadecimal signatures, and the authentication of relayed effect events
    in src/bridge/transport.rs. *)
From Stdlib Require Import Strings.Byte.
From S2P Require Import Prelude StateError Paths EconomicsModel EffectModel CapabilityModel.
From S2P Require Import Redaction CapabilityStore.

(** * Hexadecimal text *)

Definition hex_digit (n : nat) : Ascii.ascii :=
  Ascii.ascii_of_nat (if n <? 10 then 48 + n else 87 + n).
Definition hex_value (a : Ascii.ascii) : option nat :=
  let n := Ascii.nat_of_ascii a in
  if (48 <=? n) && (n <=? 57) then Some (n - 48)
  else if (97 <=? n) && (n <=? 102) then Some (n - 87)
  else if (65 <=? n) && (n <=? 70) then Some (n - 55)
  else None.

(** [encode]: two lower-case digits per byte. *)
Fixpoint encode (l : list byte) : string :=
  match l with
  | [] => EmptyString
  | b :: l' =>
      let n := Byte.to_nat b in
      String (hex_digit (n / 16)) (String (hex_digit (n mod 16)) (encode l'))
  end.

Fixpoint all_hex (s : string) : bool :=
  match s with
  | EmptyString => true
  | String a rest => bool_decide (is_Some (hex_value a)) && all_hex rest
  end.

(** The loop over the pairs of digits. *)
Fixpoint decode_pairs (s : string) : result (list byte) :=
  match s with
  | String a (String b rest) =>
      match hex_value a, hex_value b with
      | Some x, Some y =>
          match Byte.of_nat (16 * x + y) with
          | Some c => l ← decode_pairs rest; Ok (c :: l)
          | None => Err (Intervention "Capability token signature is invalid")
          end
      | _, _ => Err (Intervention "Capability token signature is invalid")
      end
  | _ => Ok []
  end.

(** [decode::<N>]. *)
Definition decode (n : nat) (value : string) : result (list byte) :=
  if negb (bool_decide (String.length value = n * 2)) || negb (all_hex value) then
    Err (Intervention "Capability token signature encoding is invalid")
  else decode_pairs value.

(** * The authority *)

Definition DOMAIN : list byte := bytes "hardknock-reality-capability-token-v1" ++ [x00].
Definition MAX_TTL : Z := 24 * 3600 * 1000000000.

(** The operations a token of the manifest carries. *)
Definition token_operations (m : CapabilityManifest) : list RealityTokenOperation.t :=
  [RealityTokenOperation.FileRead] ++
  (if allow_exec (cm_process m) then [RealityTokenOperation.Shell] else []) ++
  (if is_nil (fs_writable (cm_filesystem m)) then [] else [RealityTokenOperation.FileWrite]) ++
  (if ef_propose (cm_effects m) then [RealityTokenOperation.EffectPropose] else []) ++
  (if ef_prepare (cm_effects m)
   then [RealityTokenOperation.EffectPrepare; RealityTokenOperation.EffectDiscard] else []) ++
  [RealityTokenOperation.EffectStatus] ++
  (if ef_commit (cm_effects m) then [RealityTokenOperation.EffectCommit] else []).

(** The boundary names exactly this manifest. *)
Definition bound_to (b : ExecutionBoundary) (m : CapabilityManifest) (hash : string) : bool :=
  bool_decide (eb_manifest_id b = Some (cm_id m)) && bool_decide (eb_manifest_hash b = Some hash) &&
  bool_decide (eb_manifest_revision b = cm_revision m).

(** Claims, Reality and manifest still agree. *)
Definition scope_matches (c : RealityCapabilityToken) (rid : string) (b : ExecutionBoundary)
    (m : CapabilityManifest) (hash : string) : bool :=
  bool_decide (tc_reality c = rid) && bool_decide (tc_manifest_id c = cm_id m) &&
  bool_decide (tc_manifest_hash c = hash) && bool_decide (tc_manifest_revision c = cm_revision m) &&
  bool_decide (eb_manifest_hash b = Some (tc_manifest_hash c)) &&
  bool_decide (eb_manifest_revision b = tc_manifest_revision c) && negb (eb_frozen b).

Section authority.
Context {F : Type} {env : CapabilityEnv} {libs : ManifestLibs} {tokens : TokenLibs}.
#[local] Abbreviation eff := (eff (CapWorld F)).

Definition token_issue (rid : string) (r : RealityRow) (m : CapabilityManifest) (ttl : Z) :
    eff SignedRealityCapabilityToken :=
  if eb_frozen (rr_boundary r) then
    fail (Intervention "Frozen Reality cannot receive a capability token")
  else
    hash ← lift (manifest_hash m);
    if negb (bound_to (rr_boundary r) m hash) then
      fail (Intervention "Reality and capability manifest binding do not match")
    else if bool_decide (ttl <= 0)%Z || bool_decide (MAX_TTL < ttl)%Z then
      fail (InvalidInput "Capability token TTL must be positive and at most 24 hours")
    else
      issued ← utc_now;
      id ← new_id "capability-token-";
      nonce ← new_id EmptyString;
      let c := mkClaims id rid (cm_id m) hash (cm_revision m) issued (issued + ttl)%Z nonce
                 (token_operations m) in
      data ← lift (claims_json c);
      mret (mkSigned c (encode (ed25519_sign (DOMAIN ++ data)))).

Definition token_verify (t : SignedRealityCapabilityToken) (rid : string) (r : RealityRow)
    (m : CapabilityManifest) (op : RealityTokenOperation.t) : eff unit :=
  sig ← lift (decode 64 (signature t));
  data ← lift (claims_json (claims t));
  if negb (ed25519_verify (DOMAIN ++ data) sig) then
    fail (Intervention "Capability token signature is invalid")
  else
    hash ← lift (manifest_hash m);
    if negb (scope_matches (claims t) rid (rr_boundary r) m hash) then
      fail (Intervention "Capability token scope no longer matches this Reality")
    else
      now ← utc_now;
      let stale := fail (Intervention "Capability token is expired or not yet valid") in
      if bool_decide (tc_expires_at (claims t) <= now)%Z then stale
      else
        later ← utc_now;
        if bool_decide (later < tc_issued_at (claims t))%Z then stale
        else if negb (bool_decide (op ∈ tc_operations (claims t))) then
          fail (Intervention "Capability token does not authorize this operation")
        else mret tt.

(** [issue_reality_token] and [publish_reality_token] of src/cli/capability.rs. *)
Definition issue_reality_token (rid : string) (r : RealityRow) : eff SignedRealityCapabilityToken :=
  m ← effective_capability_manifest rid;
  io ≫= fun _ =>
  token ← token_issue rid r m (15 * 60 * 1000000000);
  audit_capability_token token ≫= fun _ => mret token.

Definition publish_reality_token (rid : string) (token : SignedRealityCapabilityToken) : eff unit :=
  io ≫= fun _ => modify (fun w => set_published (<[rid := token]> (cw_published w)) w).

(** The relayed events that carry a token. *)
Inductive RelayedEvent :=
  | RealityEffectProposed (reality_id : string)
  | RealityEffectStatus (reality_id : string)
  | RealityEffectDiscardRequested (reality_id : string)
  | OtherEvent.

Definition relayed_operation (e : RelayedEvent) : option (string * RealityTokenOperation.t) :=
  match e with
  | RealityEffectProposed rid => Some (rid, RealityTokenOperation.EffectPrepare)
  | RealityEffectStatus rid => Some (rid, RealityTokenOperation.EffectStatus)
  | RealityEffectDiscardRequested rid => Some (rid, RealityTokenOperation.EffectDiscard)
  | OtherEvent => None
  end.

(** [authenticate_reality_capability], with the decoded token if it decodes. *)
Definition authenticate_reality_capability (decoded : option SignedRealityCapabilityToken)
    (event : RelayedEvent) (bound_reality : option string) : eff bool :=
  match relayed_operation event with
  | None => mret false
  | Some (rid, op) =>
      match decoded with
      | None => fail (InvalidInput "Malformed Reality capability token")
      | Some signed =>
          if negb (bool_decide (tc_reality (claims signed) = rid)) ||
             match bound_reality with Some b => negb (bool_decide (b = rid)) | None => false end
          then mret false
          else
            io ≫= fun _ =>
            r ← reality rid;
            m ← effective_capability_manifest rid;
            io ≫= fun _ =>
            token_verify signed rid r m op ≫= fun _ =>
            hash ← lift (token_hash signed);
            revoked ← capability_token_revoked hash;
            mret (negb revoked)
      end
  end.
End authority.
