(* ===== verification/CapabilityBroker.v ===== *)
(** [StaticTestCredentialBroker] of src/capability/credential.rs: issuing, using
    and revoking the credentials of a Reality. A secret is the content of a file
    of the broker's directory. For an action secrets are copied to files that the
    container can read, and removed again when the action is over. Mode bits, which no
    operation changes afterwards, are left out. *)
From Stdlib Require Import Strings.Byte.
From S2P Require Import Prelude StateError Paths EconomicsModel EffectModel CapabilityModel.
From S2P Require Import CapabilityPolicy Redaction CapabilityStore CapabilityToken.

(** [struct CredentialRequest]. *)
Record SecretRequest := mkSecretRequest {
  sr_provider : string;
  sr_name : string;
  sr_resource : string;
  sr_permission : string;
  sr_secret : list byte;
}.

(** [MaterializedCredentials]: its files and its directory are removed when it is
    dropped. *)
Record MaterializedCredentials := mkMaterialized {
  mt_environment : gmap string string;
  mt_secrets : list (list byte);
  mt_files : list string;
  mt_directory : string;
}.

(** The host's file system: the home of the store, and what the operations do, whether
    they succeed or fail half-way. [host_create] opens a file that must not exist. *)
Class HostFiles (F : Type) := {
  host_home : string;
  host_mkdir_all : F -> string -> result unit * F;
  host_mkdir : F -> string -> result unit * F;
  host_create : F -> string -> result unit * F;
  host_write : F -> string -> list byte -> result unit * F;
  host_remove : F -> string -> result unit * F;
  host_rmdir : F -> string -> result unit * F;
}.

(** The directory of the credentials of a Reality. *)
Definition credential_base `{HostFiles F} (rid : string) : string :=
  host_home +:+ "/run/realities/" +:+ rid +:+ "/credentials".

Definition upper_or_underscore (a : Ascii.ascii) : Ascii.ascii :=
  let n := Ascii.nat_of_ascii a in
  if (97 <=? n) && (n <=? 122) then Ascii.ascii_of_nat (n - 32)
  else if is_alnum n then a else Ascii.ascii_of_nat 95.
(** [chars().map(..)]: one underscore per character that is not ASCII, so its
    continuation bytes (10xxxxxx) are dropped. *)
Fixpoint map_chars (s : string) : string :=
  match s with
  | EmptyString => EmptyString
  | String a rest =>
      let n := Ascii.nat_of_ascii a in
      if (128 <=? n) && (n <? 192) then map_chars rest
      else String (upper_or_underscore a) (map_chars rest)
  end.
Definition credential_environment_name (c : IssuedCredential) : string :=
  "HARDKNOCK_CREDENTIAL_" +:+ map_chars (ic_provider c +:+ "_" +:+ ic_name c).

Definition set_revoked (now : Z) (c : IssuedCredential) : IssuedCredential :=
  mkIssued (ic_id c) (ic_reality c) (ic_provider c) (ic_name c) (ic_scope c) (ic_expires_at c)
    (secret_ref c) (issued_at c) (Some now).

Section broker.
Context {F : Type} {env : CapabilityEnv} {libs : ManifestLibs} {tokens : TokenLibs} {host : HostFiles F}.
#[local] Abbreviation eff := (eff (CapWorld F)).

(** The evaluation reads the clock at each credential it examines. *)
Definition evaluate_now (request : CapabilityRequest) (m : CapabilityManifest) :
    eff CapabilityEvaluation := fun w =>
  (Ok (evaluate (fun i => cap_clock (cw_ticks w + i)) request m),
   set_ticks (cw_ticks w + length (cm_credentials m)) w).

(** [StaticTestCredentialBroker::new] prepares its directory. *)
Definition broker_new : eff unit := io.

(** Creating the file may fail; writing it may fail after that. *)
Definition write_secret (id : string) (secret : list byte) : eff unit :=
  io ≫= fun _ =>
  taken ← ask (fun w => cw_secrets w !! id);
  match taken with
  | Some _ => fail (Io "File exists")
  | None =>
      modify (fun w => set_secrets (<[id := secret]> (cw_secrets w)) w) ≫= fun _ => io
  end.
(** [fs::remove_file]; a missing file is not an error of the callers. *)
Definition remove_secret (id : string) : eff unit :=
  io ≫= fun _ => modify (fun w => set_secrets (delete id (cw_secrets w)) w).

Definition secret (c : IssuedCredential) : eff (list byte) :=
  match revoked_at c with
  | Some _ => fail (Intervention "Credential has been revoked")
  | None =>
      io ≫= fun _ =>
      fetch (fun w => ok_or (cw_secrets w !! ic_id c) (Io "No such file or directory"))
  end.

Definition credential_outside : Error := Intervention "Credential is outside manifest scope".

(** [issue]. *)
Definition broker_issue (request : SecretRequest) (rid : string) (r : RealityRow)
    (m : CapabilityManifest) : eff IssuedCredential :=
  lift (manifest_validate m) ≫= fun _ =>
  hash ← lift (manifest_hash m);
  let b := rr_boundary r in
  if negb (bool_decide (eb_provider b = "container")) || eb_frozen b || negb (bound_to b m hash) then
    fail (Intervention "Credential manifest is not the current manifest for this Reality")
  else if bool_decide (sr_secret request = []) || bool_decide (65536 < Z.of_nat (length (sr_secret request)))%Z then
    fail (InvalidInput "Test credential must contain 1–65536 bytes")
  else
    evaluation ← evaluate_now (CapabilityModel.CredentialRequest (sr_provider request) (sr_name request)
      (sr_resource request) (sr_permission request)) m;
    if negb (bool_decide (decision evaluation = CapabilityDecision.Allow)) then
      fail (Intervention (reason evaluation))
    else
      configured ← lift (ok_or (List.find (fun item =>
        bool_decide (cc_provider item = sr_provider request) &&
        bool_decide (cc_name item = sr_name request)) (cm_credentials m)) credential_outside);
      id ← new_id "credential-";
      written ← attempt (write_secret id (sr_secret request));
      match written with
      | Err primary => attempt (remove_secret id) ≫= fun _ => fail primary
      | Ok _ =>
          now ← utc_now;
          let c := mkIssued id rid (sr_provider request) (sr_name request) (cc_scope configured)
                     (cc_expires_at configured) "hardknock-local-secret" now None in
          inserted ← attempt (insert_issued_credential c);
          match inserted with
          | Err primary => attempt (remove_secret id) ≫= fun _ => fail primary
          | Ok _ =>
              recorded ← attempt (record_event rid (cm_id m) CapabilityEventKind.CredentialIssued None
                ("issued scoped " +:+ ic_provider c +:+ " credential " +:+ ic_name c +:+
                 " without persisting raw secret"));
              match recorded with
              | Ok _ => mret c
              | Err primary =>
                  attempt (remove_secret id) ≫= fun _ =>
                  now ← utc_now;
                  attempt (revoke_issued_credential (set_revoked now c)) ≫= fun _ => fail primary
              end
          end
      end.

(** [revoke]. *)
Definition broker_revoke (c : IssuedCredential) : eff unit :=
  remove_secret (ic_id c) ≫= fun _ =>
  now ← utc_now;
  revoke_issued_credential (set_revoked now c) ≫= fun _ =>
  m ← effective_capability_manifest (ic_reality c);
  record_event (ic_reality c) (cm_id m) CapabilityEventKind.CredentialRevoked None
    ("revoked scoped " +:+ ic_provider c +:+ " credential " +:+ ic_name c +:+
     " and removed local secret").

Definition revoke_reality (rid : string) : eff unit :=
  credentials ← issued_credentials rid;
  eff_iter (fun c => match revoked_at c with None => broker_revoke c | Some _ => mret tt end) credentials.

(** [Drop for MaterializedCredentials]: errors are ignored. *)
Definition drop_materialized (m : MaterializedCredentials) : eff unit :=
  eff_iter (fun path => attempt (host_change (fun f => host_remove f path)) ≫= fun _ => mret tt) (mt_files m)
    ≫= fun _ =>
  attempt (host_change (fun f => host_rmdir f (mt_directory m))) ≫= fun _ => mret tt.

(** One turn of the loop of [materialize_for_action], up to the creation of the file:
    the secret, or nothing when the credential is passed over. *)
Definition open_credential (path : string) (c : IssuedCredential) : eff (option (list byte)) :=
  expired ← match ic_expires_at c with
            | Some expiry => now ← utc_now; mret (bool_decide (expiry <= now)%Z)
            | None => mret false
            end;
  if (expired : bool) then broker_revoke c ≫= fun _ => mret None
  else
    data ← secret c;
    host_change (fun f => host_create f path) ≫= fun _ => mret (Some data).
(** The rest of the turn: the file is already among those to be removed. *)
Definition fill_credential (path in_container : string) (c : IssuedCredential) (data : list byte)
    (acc : MaterializedCredentials) : eff MaterializedCredentials :=
  host_change (fun f => host_write f path data) ≫= fun _ =>
  io ≫= fun _ =>
  let name := credential_environment_name c in
  match mt_environment acc !! name with
  | Some _ => fail (Intervention "Issued credentials produced an ambiguous environment reference")
  | None => mret (mkMaterialized (<[name := in_container]> (mt_environment acc)) (mt_secrets acc ++ [data])
                    (mt_files acc) (mt_directory acc))
  end.
Definition with_file (path : string) (m : MaterializedCredentials) : MaterializedCredentials :=
  mkMaterialized (mt_environment m) (mt_secrets m) (mt_files m ++ [path]) (mt_directory m).
Definition materialize_one (directory : string) (c : IssuedCredential) (acc : MaterializedCredentials) :
    eff MaterializedCredentials :=
  match revoked_at c with
  | Some _ => mret acc
  | None =>
      let filename := ic_id c +:+ ".secret" in
      let path := mt_directory acc +:+ "/" +:+ filename in
      opened ← on_error (open_credential path c) (drop_materialized acc);
      match opened with
      | None => mret acc
      | Some data =>
          let acc' := with_file path acc in
          on_error (fill_credential path ("/run/hardknock/credentials/" +:+ directory +:+ "/" +:+ filename) c data acc')
            (drop_materialized acc')
      end
  end.

Fixpoint materialize_all (directory : string) (l : list IssuedCredential)
    (acc : MaterializedCredentials) : eff MaterializedCredentials :=
  match l with
  | [] => mret acc
  | c :: l' => materialize_one directory c acc ≫= materialize_all directory l'
  end.

(** A fresh directory for one action: its name. *)
Definition new_action_directory (rid : string) : eff string :=
  io ≫= fun _ =>
  host_change (fun f => host_mkdir_all f (credential_base rid)) ≫= fun _ =>
  io ≫= fun _ =>
  action_directory ← new_id EmptyString;
  host_change (fun f => host_mkdir f (credential_base rid +:+ "/" +:+ action_directory)) ≫= fun _ =>
  io ≫= fun _ => mret action_directory.
Definition materialize_for_action (rid : string) (r : RealityRow) : eff MaterializedCredentials :=
  let b := rr_boundary r in
  if negb (bool_decide (eb_provider b = "container")) || eb_frozen b then
    fail (Intervention "Credentials can be materialized only for an active container Reality")
  else
    action_directory ← new_action_directory rid;
    let empty := mkMaterialized ∅ [] [] (credential_base rid +:+ "/" +:+ action_directory) in
    credentials ← on_error (issued_credentials rid) (drop_materialized empty);
    materialize_all action_directory credentials empty.
End broker.
