(* ===== verification/CapabilityProxy.v ===== *)
(** [CapabilityExecutionProxy] of src/capability/proxy.rs: authorizing an action of
    a Reality and carrying it out. The container runtime, the artifact store and
    the host's file system are the host's: a command that runs in a container can change
    the files of the host, since the workspace of the Reality is mounted in it. *)
From Stdlib Require Import Strings.Byte.
From S2P Require Import Prelude StateError Paths EconomicsModel EffectModel CapabilityModel.
From S2P Require Import CapabilityPolicy Redaction CapabilityStore CapabilityToken CapabilityBroker.

Module ProcessStatus.
Inductive t := Succeeded | Failed | Interrupted | TimedOut.
#[global] Instance eq_dec : EqDecision t.
Proof. solve_decision. Defined.
End ProcessStatus.

(** [CommandSpec]; its environment mode is not read here. *)
Record CommandSpec := mkCommand {
  program : string;
  args : list string;
  environment_overrides : gmap string string;
}.

Inductive NormalizedAction :=
  | Shell (spec : CommandSpec)
  | FileRead (path : string)
  | FileWrite (path : string) (data : list byte)
  | FileDelete (path : string)
  | FileList (path : string).

(** The exit of a process: whether it succeeded, its code and its signal. *)
Record ExitStatus := mkExit { exit_success : bool; exit_code_of : option Z; exit_signal : option Z }.
Record ContainerCommandOutput := mkOutput {
  out_exit : option ExitStatus;
  out_stop_reason : option ContainerStopReason.t;
  out_stop_error : option string;
}.

(** The record of a shell action: what ran (without the injected values) and how
    it ended. *)
Record ActionRecord := mkActionRecord {
  ar_command : CommandSpec;
  ar_cwd : string;
  ar_started_at : Z;
  ar_exit_code : option Z;
  ar_signal : option Z;
}.

Inductive ActionResult :=
  | ProcessResult (status : ProcessStatus.t) (action : ActionRecord)
  | FileData (data : list byte)
  | FileEntries (entries : list string)
  | FileChanged.

(** The host: its file system, the reservation of artifact space, which is a file of
    its own until it is released, and the container runtime. The runtime is given its
    command line and the limits of time and bytes; it may change files, it may answer
    differently over time, and it returns how the process ended and what was captured
    of its two streams. *)
Class ProxyHost (F : Type) := {
  proxy_files :: HostFiles F;
  host_paths : F -> PathHost;
  host_read : F -> string -> result (list byte);
  host_list : F -> string -> result (list string);
  reserve_artifact_capacity : Z -> Z -> F -> result string * F;
  release_artifact_capacity : string -> F -> F;
  run_container : ContainerRuntimeMetadata -> list string -> Z -> Z -> nat -> F ->
    result (ContainerCommandOutput * (CaptureState * CaptureState)) * F;
}.

Definition stream_name (s : CapturedStream.t) : string :=
  match s with CapturedStream.Stdout => "stdout" | CapturedStream.Stderr => "stderr" end.

(** The arguments of the container runtime. *)
Definition env_arguments (m : gmap string string) : list string :=
  concat ((fun kv => ["--env"; kv.1 +:+ "=" +:+ kv.2]) <$> btree_map m).
Definition shell_arguments (spec : CommandSpec) (credentials : gmap string string) (container_id : string) :
    list string :=
  ["exec"; "--workdir"; "/workspace"] ++ env_arguments credentials ++
  env_arguments (environment_overrides spec) ++ [container_id; program spec] ++ args spec.

Definition DEFAULT_OUTPUT_BYTES_PER_STREAM : Z := 8 * 1024 * 1024.

(** The token operation a file operation needs. *)
Definition file_token_operation (op : FilesystemOperation.t) : RealityTokenOperation.t :=
  match op with
  | FilesystemOperation.Read | FilesystemOperation.List => RealityTokenOperation.FileRead
  | FilesystemOperation.Write | FilesystemOperation.Delete => RealityTokenOperation.FileWrite
  end.

(** The event kind that records a decision. *)
Definition decision_event (d : CapabilityDecision.t) : CapabilityEventKind.t :=
  match d with
  | CapabilityDecision.Allow => CapabilityEventKind.Allowed
  | CapabilityDecision.Deny => CapabilityEventKind.Denied
  | CapabilityDecision.RequireApproval => CapabilityEventKind.ApprovalRequired
  end.

Section proxy.
Context {F : Type} {env : CapabilityEnv} {libs : ManifestLibs} {tokens : TokenLibs} {host : ProxyHost F}.
#[local] Abbreviation eff := (eff (CapWorld F)).

(** A call of the host that sees the time. *)
Definition host_call {A} (f : nat -> result A) : eff A := fun w =>
  (f (cw_ticks w), set_ticks (S (cw_ticks w)) w).
(** A computation with loops; an endless one never gets here. *)
Definition lift_run {A} (r : run A) : eff A :=
  match r with
  | Ret a => mret a
  | Panicked => fail (Io "panicked")
  | OutOfFuel => fail (Io "out of fuel")
  end.

(** Evaluating a request and recording the decision. *)
Definition decide_request (rid : string) (m : CapabilityManifest) (request : CapabilityRequest) :
    eff unit :=
  evaluation ← evaluate_now request m;
  record_event rid (cm_id m) (decision_event (decision evaluation)) (Some request) (reason evaluation)
    ≫= fun _ =>
  if decide (decision evaluation = CapabilityDecision.Allow) then mret tt
  else fail (Intervention (reason evaluation)).

Definition authorize (rid : string) (r : RealityRow) (t : SignedRealityCapabilityToken)
    (m : CapabilityManifest) (op : RealityTokenOperation.t) (request : CapabilityRequest) : eff unit :=
  token_verify t rid r m op ≫= fun _ =>
  hash ← lift (token_hash t);
  revoked ← capability_token_revoked hash;
  if (revoked : bool) then
    fail (Intervention "Capability token is revoked or was never issued by this Store")
  else decide_request rid m request.

(** The manifest half of [EffectManager::enforce_reality_capability]. *)
Definition effect_verdict (rid : string) (stage : EffectCapabilityStage.t) (kind : EffectKind.t)
    (target : string) (op : EffectOperation) : eff unit :=
  m ← effective_capability_manifest rid;
  decide_request rid m (EffectRequested stage kind target op).

Definition file_action (rid : string) (r : RealityRow) (t : SignedRealityCapabilityToken)
    (m : CapabilityManifest) (op : FilesystemOperation.t) (path : string) : eff string :=
  authorize rid r t m (file_token_operation op) (FilesystemRequest op path) ≫= fun _ =>
  fetch (fun w => @resolve_workspace_path (host_paths (cw_files w)) (rr_root r) path).

(** The first override that the manifest does not state exactly. *)
Definition foreign_override (spec : CommandSpec) (m : CapabilityManifest) : option string :=
  List.find (fun key => negb (bool_decide
    (env_values (cm_environment m) !! key = environment_overrides spec !! key)))
    (btree_keys (environment_overrides spec)).

(** The status and the exit of a finished command. *)
Definition shell_outcome (output : ContainerCommandOutput) (artifacts : string) :
    result (ProcessStatus.t * ExitStatus) :=
  match out_stop_error output with
  | Some error => Err (Intervention ("Container action could not be stopped cleanly: " +:+ error +:+
      "; bounded output remains at " +:+ artifacts))
  | None =>
      match out_stop_reason output with
      | Some ContainerStopReason.TimedOut => Err (Intervention
          ("Container action timed out; Reality container was stopped and bounded output remains at " +:+
           artifacts))
      | Some (ContainerStopReason.CaptureFailed stream) => Err (Intervention
          ("Container " +:+ stream_name stream +:+
           " capture failed; Reality container was stopped and bounded output remains at " +:+ artifacts))
      | stop =>
          exit ← ok_or (out_exit output) (Intervention
            ("Container action did not report an exit status; bounded output remains at " +:+ artifacts));
          Ok (match stop with
              | Some (ContainerStopReason.OutputLimit _) => ProcessStatus.Failed
              | _ => if exit_success exit then ProcessStatus.Succeeded else ProcessStatus.Failed
              end, exit)
      end
  end.

Definition stdout_path (artifacts : string) : string := artifacts +:+ "/stdout.log".
Definition stderr_path (artifacts : string) : string := artifacts +:+ "/stderr.log".
Definition write_private_artifact (path : string) (data : list byte) : eff unit :=
  host_change (fun f => host_create f path) ≫= fun _ =>
  host_change (fun f => host_write f path data) ≫= fun _ => io.
(** [run_container_command]: a usize holds every u64. *)
Definition run_container_command (redactor : list (list byte)) (arguments : list string)
    (runtime : ContainerRuntimeMetadata) (artifacts : string) (timeout maximum : Z) : eff ContainerCommandOutput :=
  if bool_decide (maximum = 0%Z) then fail (InvalidInput "Container output limit must be positive")
  else
    host_change (fun f => host_mkdir f artifacts) ≫= fun _ =>
    io ≫= fun _ =>
    captured ← host_run (run_container runtime arguments timeout maximum);
    let output := captured.1 in
    let final state := finalized_capture state redactor (Z.to_nat maximum) (out_stop_reason output) in
    stdout ← lift_run (final captured.2.1 CapturedStream.Stdout);
    stderr ← lift_run (final captured.2.2 CapturedStream.Stderr);
    write_private_artifact (stdout_path artifacts) stdout ≫= fun _ =>
    write_private_artifact (stderr_path artifacts) stderr ≫= fun _ =>
    mret output.

Definition release (reservation : string) : eff unit :=
  host_change (fun f => (Ok tt, release_artifact_capacity reservation f)).
(** A shell action once its credentials are materialized. *)
Definition run_shell (hidden : list (list byte)) (m : CapabilityManifest) (spec : CommandSpec)
    (runtime : ContainerRuntimeMetadata) (environment : gmap string string) (artifacts : string) (started : Z) :
    eff ActionResult :=
  let timeout := default 300000%Z (timeout_ms (cm_resources m)) in
  let maximum := default DEFAULT_OUTPUT_BYTES_PER_STREAM (output_bytes (cm_resources m)) in
  if bool_decide (U64_MAX < maximum * 2)%Z then
    fail (InvalidInput "Container output reservation exceeds the supported size")
  else
    reservation ← host_change (reserve_artifact_capacity (maximum * 2)%Z 2);
    finally (
      output ← run_container_command hidden (shell_arguments spec environment (rt_container_id runtime)) runtime
        artifacts timeout maximum;
      outcome ← lift (shell_outcome output artifacts);
      io ≫= fun _ =>
      mret (ProcessResult outcome.1 (mkActionRecord (mkCommand (program spec) (args spec) ∅) "/workspace"
        started (exit_code_of outcome.2) (exit_signal outcome.2)))) (release reservation).
(** A shell action once it is authorized. *)
Definition shell_authorized (redactor : list (list byte)) (rid : string) (r : RealityRow) (m : CapabilityManifest)
    (spec : CommandSpec) (artifacts : string) : eff ActionResult :=
  if rr_discarded r || eb_frozen (rr_boundary r) then
    fail (Intervention "Reality is discarded or frozen; process execution is disabled")
  else match foreign_override spec m with
  | Some key => fail (Intervention ("Environment override " +:+ key +:+
      " does not exactly match the manifest"))
  | None =>
      runtime ← provider_runtime rid;
      if negb (bool_decide (eb_provider (rr_boundary r) = "container")) then
        fail (Intervention "Capability shell proxy requires a container Reality")
      else
        started ← utc_now;
        broker_new ≫= fun _ =>
        credentials ← materialize_for_action rid r;
        finally (run_shell (including redactor (mt_secrets credentials)) m spec runtime (mt_environment credentials)
                   artifacts started) (drop_materialized credentials)
  end.
Definition shell (redactor : list (list byte)) (rid : string) (r : RealityRow)
    (t : SignedRealityCapabilityToken) (m : CapabilityManifest) (spec : CommandSpec)
    (artifacts : string) : eff ActionResult :=
  authorize rid r t m RealityTokenOperation.Shell (ProcessRequest (program spec)) ≫= fun _ =>
  shell_authorized redactor rid r m spec artifacts.

(** [execute]. *)
Definition execute (redactor : list (list byte)) (rid : string) (r : RealityRow)
    (t : SignedRealityCapabilityToken) (action : NormalizedAction) (artifacts : string) :
    eff ActionResult :=
  m ← effective_capability_manifest rid;
  match action with
  | Shell spec => shell redactor rid r t m spec artifacts
  | FileRead path =>
      path ← file_action rid r t m FilesystemOperation.Read path;
      data ← fetch (fun w => host_read (cw_files w) path);
      out ← lift_run (redact redactor data);
      mret (FileData out)
  | FileWrite path data =>
      if bool_decide (8 * 1024 * 1024 < Z.of_nat (length data))%Z then
        fail (InvalidInput "File proxy write exceeded 8 MiB")
      else
        path ← file_action rid r t m FilesystemOperation.Write path;
        host_change (fun f => host_write f path data) ≫= fun _ => mret FileChanged
  | FileDelete path =>
      path ← file_action rid r t m FilesystemOperation.Delete path;
      host_change (fun f => host_remove f path) ≫= fun _ => mret FileChanged
  | FileList path =>
      path ← file_action rid r t m FilesystemOperation.List path;
      entries ← fetch (fun w => host_list (cw_files w) path);
      mret (FileEntries (sort_by_key id entries))
  end.
End proxy.
