(* ===== verification/CapabilityAdmin.v ===== *)
(** The administration of a Reality's authority: revoking a class of capabilities
    (src/cli/capability.rs), freezing (src/capability/container.rs and
    src/cli.rs) and running a command for the user (src/cli.rs). *)
From Stdlib Require Import Strings.Byte.
From S2P Require Import Prelude StateError Paths EconomicsModel EffectModel CapabilityModel.
From S2P Require Import CapabilityPolicy Redaction CapabilityStore CapabilityToken CapabilityBroker.
From S2P Require Import CapabilityProxy.

(** * Revision of a manifest *)

Definition with_authority (p : ProcessCapabilities) (n : NetworkCapabilities)
    (cs : list CredentialCapability) (e : EffectCapabilities) (m : CapabilityManifest) :
    CapabilityManifest :=
  mkManifest (cm_id m) (cm_profile m) (cm_revision m) (cm_filesystem m) p n (cm_environment m) cs e
    (cm_resources m) (cm_created_at m).

(** What [revoke] takes away for each class. *)
Definition revoke_class (capability : string) (m : CapabilityManifest) : option CapabilityManifest :=
  if decide (capability = "network") then
    Some (with_authority (cm_process m) (mkNetwork NetworkMode.None_ []) (cm_credentials m) (cm_effects m) m)
  else if decide (capability = "process") then
    Some (with_authority (mkProcess false (allowed_executables (cm_process m))
      (denied_executables (cm_process m)) (max_processes (cm_process m))) (cm_network m)
      (cm_credentials m) (cm_effects m) m)
  else if decide (capability = "credentials") then
    Some (with_authority (cm_process m) (cm_network m) [] (cm_effects m) m)
  else if decide (capability = "effects") then
    Some (with_authority (cm_process m) (cm_network m) (cm_credentials m)
      (mkEffectCaps false false false (ef_scope (cm_effects m))) m)
  else None.

(** The next revision, with its fresh id and instant; the revision is a u32. *)
Definition next_revision (id : string) (now : Z) (m : CapabilityManifest) : CapabilityManifest :=
  mkManifest id (cm_profile m) ((cm_revision m + 1) mod 2 ^ 32)%Z (cm_filesystem m) (cm_process m)
    (cm_network m) (cm_environment m) (cm_credentials m) (cm_effects m) (cm_resources m) now.

Definition bind_manifest (m : CapabilityManifest) (hash : string) (b : ExecutionBoundary) :
    ExecutionBoundary :=
  mkBoundary (eb_provider b) (eb_capabilities b) (Some (cm_id m)) (Some hash) (cm_revision m)
    (image_digest b) (eb_frozen b).
Definition set_frozen (b : ExecutionBoundary) : ExecutionBoundary :=
  mkBoundary (eb_provider b) (eb_capabilities b) (eb_manifest_id b) (eb_manifest_hash b)
    (eb_manifest_revision b) (image_digest b) true.
Definition set_boundary (b : ExecutionBoundary) (r : RealityRow) : RealityRow :=
  mkRealityRow (rr_root r) (rr_discarded r) b.

(** Stopping a container. *)
Class RuntimeHost := { runtime_pause : string -> nat -> result unit }.

Section admin.
Context {F : Type} {env : CapabilityEnv} {libs : ManifestLibs} {tokens : TokenLibs}
  {host : ProxyHost F} {runtime : RuntimeHost}.
#[local] Abbreviation eff := (eff (CapWorld F)).

(** [fs::remove_file] of the published token. *)
Definition unpublish (rid : string) : eff unit :=
  io ≫= fun _ => modify (fun w => set_published (delete rid (cw_published w)) w).

(** [revoke] after it loaded the Reality. *)
Definition revoke_loaded (rid capability : string) (r : RealityRow) : eff unit :=
  if negb (bool_decide (eb_provider (rr_boundary r) = "container")) then
    fail (Intervention "Capability revocation requires an isolated Reality provider")
  else
    previous ← effective_capability_manifest rid;
    id ← new_id "capability-manifest-";
    now ← utc_now;
    next ← lift (ok_or (revoke_class capability (next_revision id now previous))
      (InvalidInput "Unknown capability class"));
    lift (manifest_validate next) ≫= fun _ =>
    (if decide (capability = "credentials") then broker_new ≫= fun _ => revoke_reality rid
     else mret tt) ≫= fun _ =>
    hash ← lift (manifest_hash next);
    insert_capability_manifest rid next ≫= fun _ =>
    revoke_capability_tokens rid ≫= fun _ =>
    update_reality rid (set_boundary (bind_manifest next hash (rr_boundary r)) r) ≫= fun _ =>
    record_event rid (cm_id next) CapabilityEventKind.ManifestRevised None
      (capability +:+ " capability revoked by local user") ≫= fun _ =>
    attempt (unpublish rid) ≫= fun _ => mret tt.

Definition revoke (rid capability : string) : eff unit :=
  r ← reality rid;
  revoke_loaded rid capability r.

(** The texts of the errors, joined. *)
Fixpoint error_texts (l : list (result unit)) : list string :=
  match l with
  | [] => []
  | Ok _ :: l' => error_texts l'
  | Err e :: l' => error_text e :: error_texts l'
  end.
Fixpoint join (separator : string) (l : list string) : string :=
  match l with
  | [] => EmptyString
  | [x] => x
  | x :: l' => x +:+ separator +:+ join separator l'
  end.

(** [ContainerRealityProvider::freeze]: the boundary is frozen first; the cleanup
    that follows is attempted in full. *)
Definition freeze (rid : string) (r : RealityRow) : eff RealityRow :=
  metadata ← provider_runtime rid;
  host_call (runtime_pause (rt_container_id metadata)) ≫= fun _ =>
  let r' := set_boundary (set_frozen (rr_boundary r)) r in
  update_reality rid r' ≫= fun _ =>
  e1 ← attempt (revoke_capability_tokens rid);
  e2 ← attempt (broker_new ≫= fun _ => revoke_reality rid);
  attempt io ≫= fun _ =>
  attempt (unpublish rid) ≫= fun _ =>
  e3 ← attempt (match eb_manifest_id (rr_boundary r') with
       | Some id => record_event rid id CapabilityEventKind.Frozen None
           "Reality frozen by local user; execution and issued authority revoked"
       | None => mret tt
       end);
  match error_texts [e1; e2; e3] with
  | [] => mret r'
  | errors => fail (Intervention ("Reality is frozen but authority cleanup was incomplete: " +:+
      join "; " errors))
  end.

(** [RealityCommand::Freeze] under its lock. *)
Definition freeze_command (rid : string) : eff RealityRow :=
  io ≫= fun _ =>
  r ← reality rid;
  if negb (bool_decide (eb_provider (rr_boundary r) = "container")) then
    fail (Intervention "Freeze requires a container Reality")
  else io ≫= fun _ => freeze rid r.

(** [RealityCommand::Execute] under its lock. *)
Definition execute_command (rid : string) (command : list string) (artifacts : string) :
    eff ActionResult :=
  io ≫= fun _ =>
  r ← reality rid;
  if negb (bool_decide (eb_provider (rr_boundary r) = "container")) then
    fail (Intervention "Capability execution proxy requires a container Reality")
  else match command with
  | [] => fail (InvalidInput "Command is required")
  | program :: args =>
      token ← issue_reality_token rid r;
      publish_reality_token rid token ≫= fun _ =>
      io ≫= fun _ =>
      execute [] rid r token (Shell (mkCommand program args ∅)) artifacts
  end.
End admin.
