(* ===== verification/CapabilityLogic.v ===== *)
(** Rules for what every operation of the capability subsystem does to the state,
    whatever statement fails. [stays I R m]: [m] preserves the invariant [I] and
    relates the states before and after by [R]. The class [Books] states it of the
    statements; every operation composed of them inherits it. *)
From Stdlib Require Import Strings.Byte.
From S2P Require Import Prelude StateError Paths EconomicsModel EffectModel CapabilityModel.
From S2P Require Import CapabilityPolicy Redaction CapabilityStore CapabilityToken CapabilityBroker.
From S2P Require Import CapabilityProxy CapabilityAdmin.

Section logic.
Context {F : Type} {env : CapabilityEnv} {libs : ManifestLibs} {tokens : TokenLibs} {host : ProxyHost F}
  {runtime : RuntimeHost}.
#[local] Abbreviation World := (CapWorld F).
#[local] Abbreviation eff := (eff World).

Definition stays (I : World -> Prop) (R : World -> World -> Prop) {A} (m : eff A) : Prop :=
  forall w, I w -> I (m w).2 /\ R w (m w).2.

(** The statements on the tables and files of the subsystem preserve [I] and [R]. *)
Class Books (I : World -> Prop) (R : World -> World -> Prop) : Prop := {
  books_preorder : PreOrder R;
  books_ticks n w : I w -> I (set_ticks n w) /\ R w (set_ticks n w);
  books_secrets m w : I w -> I (set_secrets m w) /\ R w (set_secrets m w);
  books_published m w : I w -> I (set_published m w) /\ R w (set_published m w);
  append_capability_event_stays e : stays I R (append_capability_event e);
  insert_issued_credential_stays c : stays I R (insert_issued_credential c);
  revoke_issued_credential_stays c now : stays I R (revoke_issued_credential (set_revoked now c));
  audit_capability_token_stays t : stays I R (audit_capability_token t);
  revoke_capability_tokens_stays rid : stays I R (revoke_capability_tokens rid);
  insert_capability_manifest_stays rid m : stays I R (insert_capability_manifest rid m);
}.
(** So does the update of a Reality, and a change of the host's files. *)
Class BooksRows (I : World -> Prop) (R : World -> World -> Prop) : Prop :=
  update_reality_stays id r : stays I R (update_reality id r).
Class BooksFiles (I : World -> Prop) (R : World -> World -> Prop) : Prop :=
  host_change_stays A (f : F -> result A * F) : stays I R (host_change f).

Section rules.
Context (I : World -> Prop) (R : World -> World -> Prop).

Lemma stays_same {A} (m : eff A) : PreOrder R -> (forall w, (m w).2 = w) -> stays I R m.
Proof. intros HR Hm w Hw. rewrite Hm. by split. Qed.

Lemma stays_bind {A B} (m : eff A) (f : A -> eff B) : PreOrder R ->
  stays I R m -> (forall a, stays I R (f a)) -> stays I R (m ≫= f).
Proof.
  intros HR Hm Hf w Hw. destruct (Hm w Hw) as [Hw1 Hk1]. unfold mbind, eff_bind.
  destruct (m w) as [[a|e] w1]; cbn in *; [|done].
  destruct (Hf a w1 Hw1) as [? ?]. split; [done|by etrans].
Qed.

Lemma stays_attempt {A} (m : eff A) : stays I R m -> stays I R (attempt m).
Proof. intros Hm w Hw. destruct (Hm w Hw) as [? ?]. unfold attempt. by destruct (m w). Qed.

Lemma stays_finally {A} (m : eff A) (cleanup : eff unit) : PreOrder R ->
  stays I R m -> stays I R cleanup -> stays I R (finally m cleanup).
Proof.
  intros HR Hm Hc w Hw. destruct (Hm w Hw) as [Hw1 Hk1]. unfold finally.
  destruct (m w) as [r w1]; cbn in *. destruct (Hc w1 Hw1) as [? ?]. split; [done|by etrans].
Qed.
Lemma stays_on_error {A} (m : eff A) (cleanup : eff unit) : PreOrder R ->
  stays I R m -> stays I R cleanup -> stays I R (on_error m cleanup).
Proof.
  intros HR Hm Hc w Hw. destruct (Hm w Hw) as [Hw1 Hk1]. unfold on_error.
  destruct (m w) as [[a|e] w1]; cbn in *; [done|]. destruct (Hc w1 Hw1) as [? ?]. split; [done|by etrans].
Qed.

Lemma stays_iter {A} (f : A -> eff unit) l : PreOrder R -> (forall x, stays I R (f x)) ->
  stays I R (eff_iter f l).
Proof.
  intros HR Hf. induction l as [|x l IH]; cbn; [by apply stays_same|by apply stays_bind].
Qed.
End rules.
End logic.

Create HintDb stays.
(** Prove [stays] of a composed operation from its parts. *)
Ltac stays_step :=
  match goal with
  | |- stays _ _ (mbind _ _) => apply stays_bind; [first [exact _|exact books_preorder]| |intros ?]
  | |- stays _ _ (attempt _) => apply stays_attempt
  | |- stays _ _ (finally _ _) => apply stays_finally; [first [exact _|exact books_preorder]| |]
  | |- stays _ _ (on_error _ _) => apply stays_on_error; [first [exact _|exact books_preorder]| |]
  | |- stays _ _ (eff_iter _ _) => apply stays_iter; [first [exact _|exact books_preorder]|intros ?]
  | |- stays _ _ (match ?x with _ => _ end) => destruct x
  | |- stays _ _ (mret _) => by apply stays_same; [first [exact _|exact books_preorder]|]
  | |- stays _ _ (fail _) => by apply stays_same; [first [exact _|exact books_preorder]|]
  | |- stays _ _ (lift _) => by apply stays_same; [first [exact _|exact books_preorder]|]
  | |- stays _ _ (ask _) => by apply stays_same; [first [exact _|exact books_preorder]|]
  | |- stays _ _ (fetch _) => by apply stays_same; [first [exact _|exact books_preorder]|]
  | |- stays _ _ _ => progress cbv zeta
  | |- stays _ _ _ => solve [eauto with stays nocore]
  end.
Ltac stays_tac := repeat stays_step.

(** * Composed operations *)

Section operations.
Context {F : Type} {env : CapabilityEnv} {libs : ManifestLibs} {tokens : TokenLibs} {host : ProxyHost F}
  {runtime : RuntimeHost}.
Context (I : CapWorld F -> Prop) (R : CapWorld F -> CapWorld F -> Prop) {books : Books I R}.
#[local] Abbreviation stays := (stays I R).

Lemma io_stays : stays io.
Proof. intros w. apply books_ticks. Qed.
Lemma utc_now_stays : stays utc_now.
Proof. intros w. apply books_ticks. Qed.
Lemma new_id_stays p : stays (new_id p).
Proof. intros w. apply books_ticks. Qed.
Lemma evaluate_now_stays q m : stays (evaluate_now q m).
Proof. intros w. apply books_ticks. Qed.
Lemma host_call_stays {A} (f : nat -> result A) : stays (host_call f).
Proof. intros w. apply books_ticks. Qed.
Lemma tick_stays : stays tick.
Proof. intros w. apply books_ticks. Qed.
Lemma set_secrets_stays f : stays (modify (fun w => set_secrets (f w) w)).
Proof. intros w. apply books_secrets. Qed.
Lemma set_published_stays f : stays (modify (fun w => set_published (f w) w)).
Proof. intros w. apply books_published. Qed.
Lemma lift_run_stays {A} (r : run A) : stays (lift_run r).
Proof. apply stays_same; [first [exact _|exact books_preorder]|by destruct r]. Qed.
#[local] Hint Resolve io_stays utc_now_stays new_id_stays evaluate_now_stays host_call_stays tick_stays
  set_secrets_stays set_published_stays lift_run_stays append_capability_event_stays
  insert_issued_credential_stays revoke_issued_credential_stays audit_capability_token_stays
  revoke_capability_tokens_stays insert_capability_manifest_stays : stays.

Lemma reality_stays id : stays (reality id).
Proof. unfold reality. stays_tac. Qed.
Lemma provider_runtime_stays id : stays (provider_runtime id).
Proof. unfold provider_runtime. stays_tac. Qed.
Lemma effective_stays rid : stays (effective_capability_manifest rid).
Proof. unfold effective_capability_manifest. stays_tac. Qed.
Lemma issued_credentials_stays rid : stays (issued_credentials rid).
Proof. unfold issued_credentials. stays_tac. Qed.
Lemma token_revoked_stays hash : stays (capability_token_revoked hash).
Proof. unfold capability_token_revoked. stays_tac. Qed.
Lemma record_event_stays rid m k q reason : stays (record_event rid m k q reason).
Proof. unfold record_event. stays_tac. Qed.
Lemma write_secret_stays id secret : stays (write_secret id secret).
Proof. unfold write_secret. stays_tac. Qed.
Lemma remove_secret_stays id : stays (remove_secret id).
Proof. unfold remove_secret. stays_tac. Qed.
Lemma unpublish_stays rid : stays (unpublish rid).
Proof. unfold unpublish. stays_tac. Qed.
#[local] Hint Resolve reality_stays provider_runtime_stays effective_stays issued_credentials_stays
  token_revoked_stays record_event_stays write_secret_stays remove_secret_stays unpublish_stays : stays.

Lemma secret_stays c : stays (secret c).
Proof. unfold secret. stays_tac. Qed.
Lemma token_issue_stays rid r m ttl : stays (token_issue rid r m ttl).
Proof. unfold token_issue. stays_tac. Qed.
Lemma token_verify_stays t rid r m op : stays (token_verify t rid r m op).
Proof. unfold token_verify. stays_tac. Qed.
#[local] Hint Resolve secret_stays token_issue_stays token_verify_stays : stays.

Lemma issue_reality_token_stays rid r : stays (issue_reality_token rid r).
Proof. unfold issue_reality_token. stays_tac. Qed.
Lemma publish_reality_token_stays rid t : stays (publish_reality_token rid t).
Proof. unfold publish_reality_token. stays_tac. Qed.
Lemma authenticate_stays d e b : stays (authenticate_reality_capability d e b).
Proof. unfold authenticate_reality_capability. stays_tac. Qed.
Lemma broker_issue_stays q rid r m : stays (broker_issue q rid r m).
Proof. unfold broker_issue. stays_tac. Qed.
Lemma broker_revoke_stays c : stays (broker_revoke c).
Proof. unfold broker_revoke. stays_tac. Qed.
#[local] Hint Resolve issue_reality_token_stays publish_reality_token_stays authenticate_stays
  broker_issue_stays broker_revoke_stays : stays.

Lemma broker_new_stays : stays broker_new.
Proof. apply io_stays. Qed.
Lemma revoke_reality_stays rid : stays (revoke_reality rid).
Proof. unfold revoke_reality. stays_tac. Qed.
#[local] Hint Resolve broker_new_stays revoke_reality_stays : stays.

Lemma decide_request_stays rid m q : stays (decide_request rid m q).
Proof. unfold decide_request. stays_tac. Qed.
#[local] Hint Resolve decide_request_stays : stays.
Lemma authorize_stays rid r t m op q : stays (authorize rid r t m op q).
Proof. unfold authorize. stays_tac. Qed.
#[local] Hint Resolve authorize_stays : stays.
Lemma file_action_stays rid r t m op path : stays (file_action rid r t m op path).
Proof. unfold file_action. stays_tac. Qed.
#[local] Hint Resolve file_action_stays : stays.
Lemma effect_verdict_stays rid stage kind target op : stays (effect_verdict rid stage kind target op).
Proof. unfold effect_verdict. stays_tac. Qed.
(** Actions that write no file. *)
Lemma execute_read_stays red rid r t path artifacts : stays (execute red rid r t (FileRead path) artifacts).
Proof. unfold execute. stays_tac. Qed.
Lemma execute_list_stays red rid r t path artifacts : stays (execute red rid r t (FileList path) artifacts).
Proof. unfold execute. stays_tac. Qed.
#[local] Hint Resolve execute_read_stays execute_list_stays : stays.

(** Actions that write files. *)
Section files.
Context {files : BooksFiles I R}.
Lemma host_run_stays {A} (f : nat -> F -> result A * F) : stays (host_run f).
Proof. unfold host_run. stays_tac. Qed.
#[local] Hint Resolve host_change_stays host_run_stays : stays.
Lemma drop_materialized_stays m : stays (drop_materialized m).
Proof. unfold drop_materialized. stays_tac. Qed.
#[local] Hint Resolve drop_materialized_stays : stays.
Lemma materialize_one_stays d c acc : stays (materialize_one d c acc).
Proof. unfold materialize_one, open_credential, fill_credential. stays_tac. Qed.
#[local] Hint Resolve materialize_one_stays : stays.
Lemma materialize_all_stays d l acc : stays (materialize_all d l acc).
Proof. revert acc. induction l as [|c l IH]; intros acc; cbn; [stays_tac|]. stays_step; auto with stays. Qed.
#[local] Hint Resolve materialize_all_stays : stays.
Lemma new_action_directory_stays rid : stays (new_action_directory rid).
Proof. unfold new_action_directory. stays_tac. Qed.
#[local] Hint Resolve new_action_directory_stays : stays.
Lemma materialize_for_action_stays rid r : stays (materialize_for_action rid r).
Proof. unfold materialize_for_action. stays_tac. Qed.
#[local] Hint Resolve materialize_for_action_stays : stays.
Lemma write_private_artifact_stays path data : stays (write_private_artifact path data).
Proof. unfold write_private_artifact. stays_tac. Qed.
#[local] Hint Resolve write_private_artifact_stays : stays.
Lemma run_container_command_stays red arguments rt artifacts timeout maximum :
  stays (run_container_command red arguments rt artifacts timeout maximum).
Proof. unfold run_container_command. stays_tac. Qed.
#[local] Hint Resolve run_container_command_stays : stays.
Lemma run_shell_stays hidden m spec rt e artifacts started : stays (run_shell hidden m spec rt e artifacts started).
Proof. unfold run_shell, release. stays_tac. Qed.
#[local] Hint Resolve run_shell_stays : stays.
Lemma shell_authorized_stays red rid r m spec artifacts : stays (shell_authorized red rid r m spec artifacts).
Proof. unfold shell_authorized. stays_tac. Qed.
#[local] Hint Resolve shell_authorized_stays : stays.
Lemma shell_stays red rid r t m spec artifacts : stays (shell red rid r t m spec artifacts).
Proof. unfold shell. stays_tac. Qed.
#[local] Hint Resolve shell_stays : stays.
Lemma execute_stays red rid r t action artifacts : stays (execute red rid r t action artifacts).
Proof. unfold execute. stays_tac. Qed.
#[local] Hint Resolve execute_stays : stays.
Lemma execute_command_stays rid command artifacts : stays (execute_command rid command artifacts).
Proof. unfold execute_command. stays_tac. Qed.
End files.

(** Administration, which updates the Reality. *)
Context {rows : BooksRows I R}.
#[local] Hint Resolve update_reality_stays : stays.
Lemma revoke_loaded_stays rid capability r : stays (revoke_loaded rid capability r).
Proof. unfold revoke_loaded. stays_tac. Qed.
#[local] Hint Resolve revoke_loaded_stays : stays.
Lemma revoke_stays rid capability : stays (revoke rid capability).
Proof. unfold revoke. stays_tac. Qed.
Lemma freeze_stays rid r : stays (freeze rid r).
Proof. unfold freeze. stays_tac. Qed.
#[local] Hint Resolve freeze_stays : stays.
Lemma freeze_command_stays rid : stays (freeze_command rid).
Proof. unfold freeze_command. stays_tac. Qed.
End operations.

#[export] Hint Resolve io_stays utc_now_stays new_id_stays evaluate_now_stays host_call_stays
  tick_stays set_secrets_stays set_published_stays lift_run_stays append_capability_event_stays
  insert_issued_credential_stays revoke_issued_credential_stays audit_capability_token_stays
  revoke_capability_tokens_stays insert_capability_manifest_stays reality_stays provider_runtime_stays
  effective_stays issued_credentials_stays token_revoked_stays record_event_stays unpublish_stays
  token_issue_stays token_verify_stays issue_reality_token_stays publish_reality_token_stays
  authenticate_stays broker_new_stays broker_issue_stays broker_revoke_stays revoke_reality_stays
  secret_stays materialize_for_action_stays decide_request_stays authorize_stays file_action_stays
  host_run_stays drop_materialized_stays run_shell_stays shell_authorized_stays shell_stays execute_read_stays execute_list_stays
  execute_stays execute_command_stays effect_verdict_stays revoke_stays freeze_command_stays : stays.
#[export] Hint Extern 1 (Books _ _) => typeclasses eauto : stays.
#[export] Hint Extern 1 (BooksRows _ _) => typeclasses eauto : stays.
#[export] Hint Extern 1 (BooksFiles _ _) => typeclasses eauto : stays.
