(* ===== verification/CapabilityFacts.v ===== *)
(** The books of the capability subsystem: the invariant of its tables, the relation
    between the tables before and after an operation, and that every statement
    respects both, so that every operation does. *)
From Stdlib Require Import Strings.Byte.
From S2P Require Import Prelude StateError Paths EconomicsModel EffectModel CapabilityModel.
From S2P Require Import CapabilityPolicy Redaction CapabilityStore CapabilityToken CapabilityBroker.
From S2P Require Import CapabilityProxy CapabilityAdmin.
From S2P Require Import CapabilityLogic.

(** What the model relies on of serde_json: a manifest can be read back from its
    serialization. *)
Class ManifestLaws `{ManifestLibs} := {
  manifest_json_inj m m' data : manifest_json m = Ok data -> manifest_json m' = Ok data -> m = m';
}.

Create HintDb keeps.

Section facts.
Context {F : Type} {env : CapabilityEnv} {libs : ManifestLibs} {laws : ManifestLaws}
  {tokens : TokenLibs} {host : ProxyHost F} {runtime : RuntimeHost}.
#[local] Abbreviation World := (CapWorld F).
#[local] Abbreviation eff := (eff World).

(** * The invariant *)

Record wf (w : World) : Prop := {
  (** manifests are stored under their id with their own digest, hence validated *)
  wf_manifests : forall id m h, cw_manifests w !! id = Some (m, h) -> cm_id m = id /\ manifest_hash m = Ok h;
  (** a revision of a Reality names a stored manifest of that revision *)
  wf_history : forall rid rev h, cw_history w !! (rid, rev) = Some h ->
    is_Some (cw_realities w !! rid) /\
    exists m hash, cw_manifests w !! hi_manifest h = Some (m, hash) /\ cm_revision m = rev;
  (** at most one revision of a Reality is active *)
  wf_active : forall rid rev rev' h h', cw_history w !! (rid, rev) = Some h ->
    cw_history w !! (rid, rev') = Some h' -> hi_revoked h = None -> hi_revoked h' = None -> rev = rev';
  (** events have their own ids and name stored Realities and manifests *)
  wf_event_ids : NoDup (ce_id <$> cw_events w);
  wf_events : forall e, e ∈ cw_events w ->
    is_Some (cw_realities w !! ce_reality e) /\ is_Some (cw_manifests w !! ce_manifest e);
  wf_credentials : forall id c, cw_credentials w !! id = Some c ->
    ic_id c = id;
  wf_tokens : forall hash t, cw_tokens w !! hash = Some t ->
    is_Some (cw_realities w !! tk_reality t) /\ is_Some (cw_manifests w !! tk_manifest t);
}.

(** * What operations keep *)

(** Revoking is the only change of a row, and is final. *)
Definition history_step (h h' : HistoryRow) : Prop :=
  hi_manifest h' = hi_manifest h /\ (hi_revoked h <> None -> h' = h).
Definition token_step (t t' : TokenRow) : Prop :=
  tk_reality t' = tk_reality t /\ tk_manifest t' = tk_manifest t /\
  tk_expires_at t' = tk_expires_at t /\ (tk_revoked t <> None -> t' = t).
Definition credential_step (c c' : IssuedCredential) : Prop :=
  c' = c \/ revoked_at c = None /\ revoked_at c' <> None /\ ic_id c' = ic_id c.

Record kept (w w' : World) : Prop := {
  kp_realities : forall id, is_Some (cw_realities w !! id) -> is_Some (cw_realities w' !! id);
  kp_manifests : cw_manifests w ⊆ cw_manifests w';
  kp_events : cw_events w `prefix_of` cw_events w';
  kp_history : forall k h, cw_history w !! k = Some h ->
    exists h', cw_history w' !! k = Some h' /\ history_step h h';
  kp_tokens : forall k t, cw_tokens w !! k = Some t ->
    exists t', cw_tokens w' !! k = Some t' /\ token_step t t';
  kp_credentials : forall k c, cw_credentials w !! k = Some c ->
    exists c', cw_credentials w' !! k = Some c' /\ credential_step c c';
}.

#[export] Instance history_step_preorder : PreOrder history_step.
Proof.
  split; [by intros h|]. intros h1 h2 h3 [E1 K1] [E2 K2]. split; [congruence|].
  intros Hr. specialize (K1 Hr). subst. by apply K2.
Qed.
#[export] Instance token_step_preorder : PreOrder token_step.
Proof.
  split; [by intros t|]. intros t1 t2 t3 (?&?&?&K1) (?&?&?&K2). split_and!; try congruence.
  intros Hr. specialize (K1 Hr). subst. by apply K2.
Qed.
#[export] Instance credential_step_preorder : PreOrder credential_step.
Proof.
  split; [by intros c; left|].
  intros c1 c2 c3 [->|(H1 & H2 & H3)] [->|(H4 & H5 & H6)]; unfold credential_step; naive_solver.
Qed.

#[export] Instance kept_preorder : PreOrder kept.
Proof.
  split.
  - intros w. split; try done; intros k x Hx; exists x; by split.
  - intros w1 w2 w3 [R1 M1 E1 H1 T1 C1] [R2 M2 E2 H2 T2 C2]. split; [by auto|by etrans|by etrans| | |].
    + intros k h Hk. destruct (H1 k h Hk) as (h' & Hk' & S1). destruct (H2 k h' Hk') as (h'' & ? & S2).
      exists h''. split; [done|by etrans].
    + intros k h Hk. destruct (T1 k h Hk) as (h' & Hk' & S1). destruct (T2 k h' Hk') as (h'' & ? & S2).
      exists h''. split; [done|by etrans].
    + intros k h Hk. destruct (C1 k h Hk) as (h' & Hk' & S1). destruct (C2 k h' Hk') as (h'' & ? & S2).
      exists h''. split; [done|by etrans].
Qed.

(** Worlds with the same tables, up to the Realities' rows. *)
Definition same_tables (w w' : World) : Prop :=
  (forall id, is_Some (cw_realities w !! id) -> is_Some (cw_realities w' !! id)) /\
  cw_manifests w' = cw_manifests w /\ cw_history w' = cw_history w /\ cw_events w' = cw_events w /\
  cw_credentials w' = cw_credentials w /\ cw_tokens w' = cw_tokens w.

Lemma same_tables_kept w w' : same_tables w w' -> wf w -> wf w' /\ kept w w'.
Proof.
  intros (R & M & H & E & C & T) [W1 W2 W3 W4 W5 W6 W7]. split.
  - split; rewrite ?M, ?H, ?E, ?C, ?T; try done.
    + intros rid rev h Hh. destruct (W2 rid rev h Hh) as [? ?]. auto.
    + intros e He. destruct (W5 e He). auto.
    + intros k t Ht. destruct (W7 k t Ht). auto.
  - split; rewrite ?M, ?H, ?E, ?C, ?T; try done; intros k x Hx; exists x; by split.
Qed.

#[local] Abbreviation keeps := (stays wf kept).

Lemma keeps_same {A} (m : eff A) : (forall w, same_tables w (m w).2) -> keeps m.
Proof. intros Hm w. by apply same_tables_kept. Qed.
Lemma keeps_bind {A B} (m : eff A) (f : A -> eff B) : keeps m -> (forall a, keeps (f a)) -> keeps (m ≫= f).
Proof. apply stays_bind, _. Qed.
Lemma io_keeps : keeps io.
Proof. by apply keeps_same. Qed.
Lemma utc_now_keeps : keeps utc_now.
Proof. by apply keeps_same. Qed.
Lemma keeps_transaction {A} (m : eff A) : keeps m -> keeps (transaction m).
Proof.
  intros Hm w Hw. destruct (Hm w Hw) as [? ?]. unfold transaction. destruct (m w) as [[a|e] w1]; cbn in *; [done|].
  by apply same_tables_kept.
Qed.
#[local] Hint Resolve io_keeps utc_now_keeps : keeps.

(** * Statements *)

(** A statement behind guards that change nothing. *)
Lemma keeps_ask {A B} (f : World -> A) (k : A -> eff B) :
  (forall w, wf w -> wf (k (f w) w).2 /\ kept w (k (f w) w).2) -> keeps (ask f ≫= k).
Proof. done. Qed.
Lemma keeps_guard {A} (o : option A) (m : eff unit) (w : World) : wf w ->
  (o = None -> wf (m w).2 /\ kept w (m w).2) ->
  wf ((unique o ≫= fun _ => m) w).2 /\ kept w ((unique o ≫= fun _ => m) w).2.
Proof. destruct o; cbn; [done|auto]. Qed.
Lemma keeps_key {A} (o : option A) (m : eff unit) (w : World) : wf w ->
  (is_Some o -> wf (m w).2 /\ kept w (m w).2) ->
  wf ((foreign_key o ≫= fun _ => m) w).2 /\ kept w ((foreign_key o ≫= fun _ => m) w).2.
Proof. destruct o; cbn; [eauto|done]. Qed.

Lemma update_reality_keeps id r : keeps (update_reality id r).
Proof.
  apply keeps_bind; [auto with keeps|intros _]. apply keeps_ask. intros w Hw.
  destruct (cw_realities w !! id) eqn:Hid; cbn; [|done]. apply same_tables_kept; [|done].
  split_and!; try done. cbn. intros k Hk. destruct (decide (k = id)) as [->|];
    [by rewrite lookup_insert_eq|by rewrite lookup_insert_ne].
Qed.

Lemma append_capability_event_keeps e : keeps (append_capability_event e).
Proof.
  apply keeps_bind; [auto with keeps|intros _]. apply keeps_ask. intros w Hw.
  apply keeps_guard; [done|]. intros Hnew. apply keeps_key; [done|]. intros Hr.
  change ((ask ?f ≫= ?k) w) with (k (f w) w). cbv beta. apply keeps_key; [done|]. intros Hm.
  cbn. destruct Hw as [W1 W2 W3 W4 W5 W6 W7]. split.
  - split; cbn; try done.
    + rewrite fmap_app. apply NoDup_app. split_and!; [done| |apply NoDup_singleton].
      intros x Hx ->%list_elem_of_singleton. apply list_elem_of_fmap in Hx as (e' & He & Hin).
      pose proof (List.find_none _ _ Hnew e') as Hno. rewrite <- list_elem_of_In in Hno.
      specialize (Hno Hin). by rewrite bool_decide_eq_true_2 in Hno.
    + intros e' [He| ->%list_elem_of_singleton]%elem_of_app; [by apply W5|done].
  - split; cbn; try done; [by apply prefix_app_r| | |]; intros k x Hx; exists x; by split.
Qed.

Lemma insert_issued_credential_keeps c : keeps (insert_issued_credential c).
Proof.
  apply keeps_bind; [auto with keeps|intros _]. apply keeps_ask. intros w Hw.
  apply keeps_guard; [done|]. intros Hnew.
  change ((ask ?f ≫= ?k) w) with (k (f w) w). cbv beta. apply keeps_key; [done|]. intros Hr. cbn.
  destruct Hw as [W1 W2 W3 W4 W5 W6 W7]. split.
  - split; cbn; try done. intros id x [[ <- <- ]|[_ Hx]]%lookup_insert_Some; [done|by apply W6].
  - split; cbn; try done; intros k x Hx; [exists x; by split..|].
    exists x. split; [|by left]. rewrite lookup_insert_ne; [done|]. intros <-. congruence.
Qed.

Lemma revoke_issued_credential_keeps c now : keeps (revoke_issued_credential (set_revoked now c)).
Proof.
  apply keeps_bind; [auto with keeps|intros _]. apply keeps_ask. intros w Hw. cbv zeta.
  change (ic_id (set_revoked now c)) with (ic_id c).
  destruct (cw_credentials w !! ic_id c) as [r|] eqn:Hc; [|done].
  destruct (revoked_at r) eqn:Hr; [done|]. cbn. destruct Hw as [W1 W2 W3 W4 W5 W6 W7]. split.
  - split; cbn; try done. intros id x [[ <- <- ]|[_ Hx]]%lookup_insert_Some; [done|by apply W6].
  - split; cbn; try done; intros k x Hx; [exists x; by split..|].
    destruct (decide (k = ic_id c)) as [->|Hne].
    + rewrite lookup_insert_eq. eexists. split; [done|]. right. simplify_eq. apply W6 in Hc. done.
    + rewrite lookup_insert_ne by done. exists x. split; [done|by left].
Qed.

Lemma audit_capability_token_keeps t : keeps (audit_capability_token t).
Proof.
  unfold audit_capability_token. apply keeps_bind; [by apply keeps_same|intros hash]. apply keeps_bind; [auto with keeps|intros _].
  apply keeps_ask. intros w Hw. apply keeps_guard; [done|]. intros Hnew.
  change ((ask ?f ≫= ?k) w) with (k (f w) w). cbv beta. apply keeps_key; [done|]. intros Hr.
  change ((ask ?f ≫= ?k) w) with (k (f w) w). cbv beta. apply keeps_key; [done|]. intros Hm. cbn.
  destruct Hw as [W1 W2 W3 W4 W5 W6 W7]. split.
  - split; cbn; try done. intros id x [[ <- <- ]|[_ Hx]]%lookup_insert_Some; [done|by apply W7 in Hx].
  - split; cbn; try done; intros k x Hx; [exists x; by split..| |exists x; split; [done|by left]].
    exists x. split; [|done]. rewrite lookup_insert_ne; [done|]. intros ->. congruence.
Qed.

Lemma revoke_token_step rid now t : token_step t (revoke_token rid now t).
Proof.
  unfold revoke_token. destruct (bool_decide_reflect (tk_revoked t = None)).
  - destruct (bool_decide _); cbn; [|done]. by split_and!.
  - by rewrite andb_false_r.
Qed.

Lemma revoke_capability_tokens_keeps rid : keeps (revoke_capability_tokens rid).
Proof.
  unfold revoke_capability_tokens. apply keeps_bind; [auto with keeps|intros now]. apply keeps_bind; [auto with keeps|intros _].
  intros w [W1 W2 W3 W4 W5 W6 W7]. cbn. split.
  - split; cbn; try done. intros k t. rewrite lookup_fmap, fmap_Some. intros (x & Hx & ->).
    destruct (revoke_token_step rid now x) as (-> & -> & _). by apply (W7 k).
  - split; cbn; try done; intros k x Hx; [exists x; by split..| |exists x; split; [done|by left]].
    rewrite lookup_fmap, Hx. eexists. split; [done|]. apply revoke_token_step.
Qed.

(** * Manifests *)

(** [keeps] from the worlds that satisfy [P]. *)
Definition keeps_from {A} (P : World -> Prop) (m : eff A) : Prop :=
  forall w, wf w -> P w -> wf (m w).2 /\ kept w (m w).2.

Lemma keeps_from_bind {A B} (P Q : World -> Prop) (m : eff A) (f : A -> eff B) :
  keeps_from P m -> (forall w a, wf w -> P w -> (m w).1 = Ok a -> Q (m w).2) ->
  (forall a, keeps_from Q (f a)) -> keeps_from P (m ≫= f).
Proof.
  intros Hm HQ Hf w Hw Hp. destruct (Hm w Hw Hp) as [Hw1 Hk1]. specialize (HQ w).
  unfold mbind, eff_bind. destruct (m w) as [[a|e] w1]; cbn in *; [|done].
  destruct (Hf a w1 Hw1) as [? ?]; [by eapply HQ|]. split; [done|by etrans].
Qed.
Lemma keeps_keeps_from {A} P (m : eff A) : keeps m -> keeps_from P m.
Proof. intros Hm w Hw _. by apply Hm. Qed.
#[local] Hint Resolve keeps_keeps_from : keeps.

Definition stored (m : CapabilityManifest) (hash : string) (w : World) : Prop :=
  cw_manifests w !! cm_id m = Some (m, hash).
(** Every revision of the Reality is revoked. *)
Definition idle (rid : string) (w : World) : Prop :=
  forall rev h, cw_history w !! (rid, rev) = Some h -> hi_revoked h <> None.

Lemma insert_manifest_row_keeps m hash : manifest_hash m = Ok hash -> keeps (insert_manifest_row m hash).
Proof.
  intros Hh. apply keeps_bind; [auto with keeps|intros _]. intros w Hw. cbn.
  destruct (bool_decide_reflect (is_Some (cw_manifests w !! cm_id m))) as [|Hnew]; [done|]. cbn [orb].
  destruct (bool_decide _); [done|].
  assert (Hsub : cw_manifests w ⊆ <[cm_id m := (m, hash)]> (cw_manifests w)).
  { apply insert_subseteq. by apply eq_None_not_Some. }
  destruct Hw as [W1 W2 W3 W4 W5 W6 W7]. split.
  - split; cbn; try done.
    + intros id m' h' [[ <- [= <- <- ]]|[_ Hx]]%lookup_insert_Some; [done|by apply W1].
    + intros rid rev h Hx. destruct (W2 rid rev h Hx) as (? & m' & h' & ? & ?). split; [done|].
      exists m', h'. split; [|done]. by eapply lookup_weaken.
    + intros e He. destruct (W5 e He) as [? [x Hx]]. split; [done|]. exists x. by eapply lookup_weaken.
    + intros k t Ht. destruct (W7 k t Ht) as [? [x Hx]]. split; [done|]. exists x. by eapply lookup_weaken.
  - split; cbn; try done; intros k x Hx; exists x; by split.
Qed.

Lemma lookup_revoke_history (rid : string) (now : Z) (m : gmap (string * Z) HistoryRow) (k : string * Z) :
  revoke_history rid now m !! k =
  (fun h => if bool_decide (k.1 = rid) then revoke_row now h else h) <$> m !! k.
Proof. unfold revoke_history. rewrite map_lookup_imap. by destruct (m !! k). Qed.

Lemma revoke_row_step now h : history_step h (revoke_row now h) /\ hi_revoked (revoke_row now h) <> None.
Proof. unfold revoke_row, history_step. destruct h as [i [r|]]; by cbn. Qed.

Lemma revoke_history_keeps rid now :
  keeps (modify (fun w => set_history (revoke_history rid now (cw_history w)) w)).
Proof.
  intros w [W1 W2 W3 W4 W5 W6 W7]. cbn.
  assert (Hrow : forall k h', revoke_history rid now (cw_history w) !! k = Some h' ->
    exists h, cw_history w !! k = Some h /\ history_step h h' /\ (hi_revoked h' = None -> hi_revoked h = None)).
  { intros k h'. rewrite lookup_revoke_history, fmap_Some. intros (h & Hh & ->). exists h. split; [done|].
    destruct (bool_decide _); [|done]. destruct (revoke_row_step now h). split; [done|]. by intros. }
  split.
  - split; cbn; try done.
    + intros r rev h' (h & Hh & [Hm _] & _)%Hrow. rewrite Hm. by apply (W2 r rev h).
    + intros r rev rev' x x' (h & Hh & _ & Hn)%Hrow (h' & Hh' & _ & Hn')%Hrow ? ?.
      eapply (W3 r rev rev' h h'); eauto.
  - split; cbn; try done; intros k x Hx; [|exists x; by split|exists x; split; [done|by left]].
    rewrite lookup_revoke_history, Hx. eexists. split; [done|]. destruct (bool_decide _); [|done].
    apply revoke_row_step.
Qed.

Lemma insert_history_keeps rid m hash :
  keeps_from (fun w => stored m hash w /\ idle rid w)
    (owner ← ask (fun w => cw_realities w !! rid);
     foreign_key owner ≫= fun _ =>
     taken ← ask (fun w => cw_history w !! (rid, cm_revision m));
     unique taken ≫= fun _ =>
     modify (fun w => set_history (<[(rid, cm_revision m) := mkHistory (cm_id m) None]> (cw_history w)) w)
       ≫= fun _ => io).
Proof.
  intros w Hw [Hs Hi]. change ((ask ?f ≫= ?k) w) with (k (f w) w). cbv beta.
  apply keeps_key; [done|]. intros Hr. change ((ask ?f ≫= ?k) w) with (k (f w) w). cbv beta.
  apply keeps_guard; [done|]. intros Hnew. unfold mbind, eff_bind, modify, io. cbn.
  destruct Hw as [W1 W2 W3 W4 W5 W6 W7]. split.
  - split; cbn; try done.
    + intros r rev h [[[= <- <- ] <- ]|[_ Hx]]%lookup_insert_Some; [|by apply W2].
      split; [done|]. by exists m, hash.
    + intros r rev rev' h h' [[[= <- <- ] <- ]|[Hne Hx]]%lookup_insert_Some
        [[Heq <- ]|[Hne' Hx']]%lookup_insert_Some Ha Ha'.
      * by injection Heq.
      * by destruct (Hi rev' h').
      * injection Heq as <- <-. by destruct (Hi rev h).
      * by eapply (W3 r rev rev' h h').
  - split; cbn; try done; intros k x Hx; [|exists x; by split|exists x; split; [done|by left]].
    exists x. split; [|done]. rewrite lookup_insert_ne; [done|]. intros <-. congruence.
Qed.

Lemma same_manifest_row_stored m hash data (w : World) : manifest_json m = Ok data ->
  same_manifest_row (cw_manifests w !! cm_id m) hash data = true -> stored m hash w.
Proof.
  unfold same_manifest_row, stored. intros Hd. destruct (cw_manifests w !! cm_id m) as [[m' h']|]; [|done].
  intros [->%bool_decide_eq_true Hm]%andb_true_iff.
  destruct (manifest_json m') as [d|] eqn:Hj; [|done]. apply bool_decide_eq_true in Hm as ->.
  by rewrite (manifest_json_inj _ _ _ Hd Hj).
Qed.

Lemma insert_capability_manifest_keeps rid m : keeps (insert_capability_manifest rid m).
Proof.
  unfold insert_capability_manifest. intros w Hw.
  destruct (manifest_hash m) as [hash|] eqn:Hh; [|done].
  destruct (manifest_json m) as [data|] eqn:Hd; [|done]. cbn [lift mbind eff_bind].
  revert w Hw. apply keeps_transaction. apply keeps_bind; [by apply insert_manifest_row_keeps|intros _].
  apply keeps_bind; [auto with keeps|intros _]. apply keeps_ask. intros w Hw.
  destruct (same_manifest_row _ hash data) eqn:Hsame; cbn [negb]; [|done].
  apply same_manifest_row_stored in Hsame; [|done]. revert w Hw Hsame.
  refine (keeps_from_bind _ (stored m hash) _ _ _ _ _); [auto with keeps|done|intros now].
  refine (keeps_from_bind _ (stored m hash) _ _ _ _ _); [auto with keeps|done|intros _].
  refine (keeps_from_bind _ (fun w => stored m hash w /\ idle rid w) _ _ _ _ _);
    [apply keeps_keeps_from, revoke_history_keeps| |intros _].
  { intros w a _ Hs _. split; [done|]. intros rev h. cbn. rewrite lookup_revoke_history, fmap_Some.
    intros (h' & _ & ->). rewrite bool_decide_eq_true_2 by done. apply revoke_row_step. }
  refine (keeps_from_bind _ (fun w => stored m hash w /\ idle rid w) _ _ _ _ _); [auto with keeps|done|intros _].
  apply insert_history_keeps.
Qed.


#[export] Instance keeps_books : Books wf kept.
Proof.
  split; try apply _.
  - intros n w. by apply same_tables_kept.
  - intros m w. by apply same_tables_kept.
  - intros m w. by apply same_tables_kept.
  - apply append_capability_event_keeps.
  - apply insert_issued_credential_keeps.
  - apply revoke_issued_credential_keeps.
  - apply audit_capability_token_keeps.
  - apply revoke_capability_tokens_keeps.
  - apply insert_capability_manifest_keeps.
Qed.
#[export] Instance keeps_rows : BooksRows wf kept.
Proof. intros id r. apply update_reality_keeps. Qed.
#[export] Instance keeps_files : BooksFiles wf kept.
Proof. intros A f. apply keeps_same. intros w. unfold host_change. by destruct (f _). Qed.
End facts.
