(* ===== verification/CapabilitySystem.v ===== *)
(** The capability subsystem as a transition system: calls of its entry points in
    any order, each possibly failing half-way, interleaved with changes of its
    surroundings. Its books are well-formed and append-only; revoked tokens and
    frozen Realities never regain authority. *)
From Stdlib Require Import Strings.Byte.
From S2P Require Import Prelude StateError Paths EconomicsModel EffectModel CapabilityModel.
From S2P Require Import CapabilityPolicy CapabilityAuthority Redaction CapabilityStore CapabilityToken.
From S2P Require Import CapabilityBroker CapabilityProxy CapabilityAdmin CapabilityLogic CapabilityFacts.

Section rules.
Context {F : Type} {env : CapabilityEnv} {libs : ManifestLibs} {laws : ManifestLaws}
  {tokens : TokenLibs} {host : ProxyHost F} {runtime : RuntimeHost}.
#[local] Abbreviation World := (CapWorld F).
#[local] Abbreviation eff := (eff World).

(** * What most operations leave alone *)

(** Realities, runtimes and the host's files. *)
Definition same_surface (w w' : World) : Prop :=
  cw_realities w' = cw_realities w /\ cw_runtimes w' = cw_runtimes w /\ cw_files w' = cw_files w.
#[export] Instance same_surface_preorder : PreOrder same_surface.
Proof. split; [by intros w|]. intros w1 w2 w3 (?&?&?) (?&?&?). split_and!; congruence. Qed.

(** Relations that a draw of the clock respects: a statement respects them when the
    change it makes to a table does. *)
Class Quiet (R : World -> World -> Prop) : Prop := {
  quiet_preorder :: PreOrder R;
  quiet_ticks n w : R w (set_ticks n w);
}.
#[export] Instance same_surface_quiet : Quiet same_surface.
Proof. by split; [apply _|]. Qed.

Section quiet.
Context (R : World -> World -> Prop) {HQ : Quiet R}.
#[local] Abbreviation quiet := (stays (fun _ => True) R).

Lemma quiet_bind {A B} (m : eff A) (f : A -> eff B) : quiet m -> (forall a, quiet (f a)) -> quiet (m ≫= f).
Proof. apply stays_bind, _. Qed.
Lemma quiet_transaction {A} (m : eff A) : quiet m -> quiet (transaction m).
Proof.
  intros Hm w Hw. destruct (Hm w Hw) as [_ Hs]. split; [done|]. unfold transaction.
  destruct (m w) as [[a|e] w1]; cbn; [done|apply quiet_ticks].
Qed.
Lemma quiet_ret {A} (r : result A) : quiet (fun w => (r, w)).
Proof. intros w Hw. split; [done|]. by cbn. Qed.
Lemma quiet_ask {A} (f : World -> A) : quiet (ask f).
Proof. intros w Hw. split; [done|]. by cbn. Qed.
Lemma quiet_unique {A} (o : option A) : quiet (unique o).
Proof. destruct o; apply quiet_ret. Qed.
Lemma quiet_key {A} (o : option A) : quiet (foreign_key o).
Proof. destruct o; apply quiet_ret. Qed.
Lemma quiet_io : quiet io.
Proof. intros w Hw. split; [done|apply quiet_ticks]. Qed.
Lemma quiet_now : quiet utc_now.
Proof. intros w Hw. split; [done|apply quiet_ticks]. Qed.
Lemma quiet_modify (f : World -> World) : (forall w, R w (f w)) -> quiet (modify f).
Proof. intros Hf w Hw. split; [done|apply Hf]. Qed.
End quiet.
End rules.

Ltac quiet_tac :=
  repeat match goal with
  | |- stays _ _ (mbind _ _) => apply (quiet_bind _); [|intros ?]
  | |- stays _ _ (transaction _) => apply (quiet_transaction _)
  | |- stays _ _ (unique _) => apply (quiet_unique _)
  | |- stays _ _ (foreign_key _) => apply (quiet_key _)
  | |- stays _ _ (ask _) => apply (quiet_ask _)
  | |- stays _ _ io => apply (quiet_io _)
  | |- stays _ _ utc_now => apply (quiet_now _)
  | |- stays _ _ (lift ?r) => apply (quiet_ret _ r)
  | |- stays _ _ (fail ?e) => apply (quiet_ret _ (Err e))
  | |- stays _ _ (modify _) =>
      apply (quiet_modify _); intros ?; first [by split_and!|by apply prefix_app_r|by eexists; symmetry; apply app_nil_r|by case_match; red]
  | |- stays _ _ (match ?x with _ => _ end) => destruct x
  | |- stays _ _ _ => progress cbv zeta
  end.
(** A relation between two worlds as the tables' statements change them. *)
Ltac quiet_books_tac :=
  split; try apply _; try done; try (intros; split; [done|]; by red);
  [intros e; unfold append_capability_event|intros c; unfold insert_issued_credential
  |intros c now; unfold revoke_issued_credential|intros t; unfold audit_capability_token
  |intros rid; unfold revoke_capability_tokens
  |intros rid m; unfold insert_capability_manifest, insert_manifest_row]; quiet_tac.

Section system.
Context {F : Type} {env : CapabilityEnv} {libs : ManifestLibs} {laws : ManifestLaws}
  {tokens : TokenLibs} {host : ProxyHost F} {runtime : RuntimeHost}.
#[local] Abbreviation World := (CapWorld F).
#[local] Abbreviation eff := (eff World).

#[export] Instance quiet_books : Books (fun _ : World => True) same_surface.
Proof. quiet_books_tac. Qed.

(** Events are only appended. *)
Definition events_kept (w w' : World) : Prop := cw_events w `prefix_of` cw_events w'.
#[export] Instance events_kept_quiet : Quiet events_kept.
Proof.
  split; [|by intros n w; unfold events_kept]. split; [by intros w; unfold events_kept|].
  intros w1 w2 w3. unfold events_kept. by etrans.
Qed.
#[export] Instance events_books : Books (fun _ : World => True) events_kept.
Proof. quiet_books_tac. Qed.
#[export] Instance events_files : BooksFiles (fun _ : World => True) events_kept.
Proof. intros A f w _. split; [done|]. unfold host_change. destruct (f _). by red. Qed.

(** What holds across every change below the surface holds across the books. *)
Lemma surface_books (I : World -> Prop) (R : World -> World -> Prop) : PreOrder R ->
  (forall w w', same_surface w w' -> I w -> I w' /\ R w w') -> Books I R.
Proof.
  intros HR Hs. destruct quiet_books as [_ B1 B2 B3 B4 B5 B6 B7 B8 B9].
  split; [done|intros n w Hw|intros m w Hw|intros m w Hw|intros e w Hw|intros c w Hw|intros c now w Hw
    |intros t w Hw|intros rid w Hw|intros rid m w Hw]; apply Hs; try done.
  - by destruct (B4 e w Logic.I).
  - by destruct (B5 c w Logic.I).
  - by destruct (B6 c now w Logic.I).
  - by destruct (B7 t w Logic.I).
  - by destruct (B8 rid w Logic.I).
  - by destruct (B9 rid m w Logic.I).
Qed.

(** * Freezing is final *)

Definition frozen_in (w : World) (rid : string) : Prop :=
  exists r, cw_realities w !! rid = Some r /\ eb_frozen (rr_boundary r) = true.
Definition frozen_kept (w w' : World) : Prop := forall rid, frozen_in w rid -> frozen_in w' rid.
#[export] Instance frozen_kept_preorder : PreOrder frozen_kept.
Proof. split; [by intros w rid|]. intros w1 w2 w3 H1 H2 rid ?. by apply H2, H1. Qed.

Lemma surface_frozen w w' : same_surface w w' -> frozen_kept w w'.
Proof. intros (Hr & _) rid. unfold frozen_in. by rewrite Hr. Qed.

#[export] Instance frozen_books : Books (fun _ : World => True) frozen_kept.
Proof. apply surface_books; [apply _|]. intros w w' ? _. split; [done|by apply surface_frozen]. Qed.
#[export] Instance frozen_files : BooksFiles (fun _ : World => True) frozen_kept.
Proof.
  intros A f w _. split; [done|]. unfold host_change. destruct (f _). by intros rid.
Qed.

(** The Reality as loaded is frozen if the stored one is. *)
Definition loaded (rid : string) (r : RealityRow) (w : World) : Prop :=
  forall r', cw_realities w !! rid = Some r' -> eb_frozen (rr_boundary r') = true ->
    eb_frozen (rr_boundary r) = true.

#[export] Instance loaded_books rid r : Books (loaded rid r) frozen_kept.
Proof.
  apply surface_books; [apply _|]. intros w w' Hs Hl. split; [|by apply surface_frozen].
  unfold loaded. by rewrite (proj1 Hs).
Qed.

Lemma update_frozen (I : World -> Prop) rid r' :
  (forall w r, I w -> cw_realities w !! rid = Some r -> eb_frozen (rr_boundary r) = true ->
     eb_frozen (rr_boundary r') = true) ->
  (forall n w, I w -> I (set_ticks n w)) ->
  (forall w, I w -> I (set_realities (<[rid := r']> (cw_realities w)) w)) ->
  stays I frozen_kept (update_reality rid r').
Proof.
  intros Hf Ht Hu w Hw. unfold update_reality, io, mbind, eff_bind, ask, modify. cbn.
  destruct (cap_fault _); cbn; [by split; [apply Ht|intros k]|].
  destruct (cw_realities w !! rid) as [r0|] eqn:Hr; cbn; [|by split; [apply Ht|intros k]].
  split; [apply (Hu (set_ticks _ w)), Ht, Hw|].
  intros k (rk & Hk & Hfk). destruct (decide (k = rid)) as [->|Hne].
  - exists r'. cbn. rewrite lookup_insert_eq. split; [done|]. simplify_eq. by eapply Hf.
  - exists rk. cbn. by rewrite lookup_insert_ne.
Qed.

(** Rebinding the loaded Reality keeps its frozen flag. *)
Lemma update_loaded rid r m hash :
  stays (loaded rid r) frozen_kept (update_reality rid (set_boundary (bind_manifest m hash (rr_boundary r)) r)).
Proof.
  apply update_frozen.
  - intros w r0 Hl Hr. by apply Hl.
  - done.
  - intros w Hl r0. cbn. rewrite lookup_insert_eq. by intros [= <-].
Qed.

Lemma freeze_frozen rid r : stays (fun _ => True) frozen_kept (freeze rid r).
Proof.
  assert (stays (fun _ => True) frozen_kept (update_reality rid (set_boundary (set_frozen (rr_boundary r)) r)))
    by by apply update_frozen.
  unfold freeze. stays_tac.
Qed.

Lemma revoke_loaded_frozen rid capability r : stays (loaded rid r) frozen_kept (revoke_loaded rid capability r).
Proof.
  pose proof (update_loaded rid r). unfold revoke_loaded. stays_tac.
Qed.

Lemma bind_first {A B} (m : eff A) (f : A -> eff B) w :
  (m ≫= f) w = match m w with (Ok a, w') => f a w' | (Err e, w') => (Err e, w') end.
Proof. done. Qed.

Lemma revoke_frozen rid capability w : frozen_kept w (revoke rid capability w).2.
Proof.
  unfold revoke, reality. rewrite !bind_first. unfold io. destruct (cap_fault _); [by intros k|].
  unfold fetch. cbn. destruct (cw_realities w !! rid) as [r|] eqn:Hr; cbn; [|by intros k].
  assert (Hl : loaded rid r (set_ticks (S (cw_ticks w)) w)).
  { intros r'. cbn. rewrite Hr. by intros [= <-]. }
  destruct (revoke_loaded_frozen rid capability r _ Hl) as [_ Hk]. intros k Hf. by apply Hk.
Qed.

Lemma freeze_command_frozen rid : stays (fun _ => True) frozen_kept (freeze_command rid).
Proof.
  pose proof (freeze_frozen rid). unfold freeze_command. stays_tac.
Qed.

(** * The system *)

Inductive call :=
  | InsertManifest (rid : string) (m : CapabilityManifest)
  | IssueToken (rid : string) (r : RealityRow)
  | AuditToken (t : SignedRealityCapabilityToken)
  | PublishToken (rid : string) (t : SignedRealityCapabilityToken)
  | Authenticate (decoded : option SignedRealityCapabilityToken) (event : RelayedEvent) (bound : option string)
  | IssueCredential (q : SecretRequest) (rid : string) (r : RealityRow) (m : CapabilityManifest)
  | RevokeCredential (c : IssuedCredential)
  | RevokeCredentials (rid : string)
  | Execute (red : list (list byte)) (rid : string) (r : RealityRow) (t : SignedRealityCapabilityToken)
      (action : NormalizedAction) (artifacts : string)
  | ExecuteCommand (rid : string) (command : list string) (artifacts : string)
  | EffectVerdict (rid : string) (stage : EffectCapabilityStage.t) (kind : EffectKind.t) (target : string)
      (op : EffectOperation)
  | Revoke (rid capability : string)
  | Freeze (rid : string).

Definition ignore {A} (m : eff A) : eff unit := m ≫= fun _ => mret tt.
Definition run_call (c : call) : eff unit :=
  match c with
  | InsertManifest rid m => insert_capability_manifest rid m
  | IssueToken rid r => ignore (issue_reality_token rid r)
  | AuditToken t => audit_capability_token t
  | PublishToken rid t => publish_reality_token rid t
  | Authenticate decoded event bound => ignore (authenticate_reality_capability decoded event bound)
  | IssueCredential q rid r m => ignore (broker_issue q rid r m)
  | RevokeCredential c => broker_revoke c
  | RevokeCredentials rid => revoke_reality rid
  | Execute red rid r t action artifacts => ignore (execute red rid r t action artifacts)
  | ExecuteCommand rid command artifacts => ignore (execute_command rid command artifacts)
  | EffectVerdict rid stage kind target op => effect_verdict rid stage kind target op
  | Revoke rid capability => revoke rid capability
  | Freeze rid => ignore (freeze_command rid)
  end.

(** The rest of the program: Realities are created and updated (none is removed or
    unfrozen), files and runtimes change, time passes. *)
Definition surroundings (w w' : World) : Prop := same_tables w w' /\ frozen_kept w w'.

Inductive step : World -> World -> Prop :=
  | step_call c w : step w (run_call c w).2
  | step_surroundings w w' : surroundings w w' -> step w w'.

Lemma ignore_stays {A} I R (m : eff A) : Books I R -> stays I R m -> stays I R (ignore m).
Proof. intros HB Hm. unfold ignore. stays_tac. Qed.

Lemma capability_call_keeps c : stays wf kept (run_call c).
Proof.
  destruct c; cbn [run_call]; try (apply ignore_stays; [apply _|]); eauto with stays nocore.
Qed.

Lemma capability_call_frozen c w : frozen_kept w (run_call c w).2.
Proof.
  assert (Hs : forall A (m : eff A), stays (fun _ => True) frozen_kept m -> frozen_kept w (m w).2)
    by (intros A m Hm; by apply Hm).
  pose proof freeze_command_frozen.
  destruct c; cbn [run_call]; try apply revoke_frozen; apply Hs; try (apply ignore_stays; [apply _|]);
    eauto with stays nocore.
Qed.

Lemma run_keeps w w' : rtc step w w' -> wf w -> wf w' /\ kept w w' /\ frozen_kept w w'.
Proof.
  induction 1 as [w|w w1 w2 Hs _ IH]; intros Hw; [by split_and!|].
  assert (wf w1 /\ kept w w1 /\ frozen_kept w w1) as (Hw1 & Hk & Hf).
  { destruct Hs as [c w|w w1 [Ht Hf]].
    - destruct (capability_call_keeps c w Hw). split_and!; [done|done|apply capability_call_frozen].
    - destruct (same_tables_kept _ _ Ht Hw). by split_and!. }
  destruct (IH Hw1) as (? & ? & ?). split_and!; [done|by etrans|by etrans].
Qed.

(** C21. The books of the capability subsystem: from well-formed tables, any
    interleaving of calls, each possibly failing at any statement, leads to
    well-formed tables (manifests stored under their id with their own digest, at
    most one active revision per Reality, events with their own ids, every
    reference resolved); manifests are never changed, events only appended, a
    revoked revision, token or credential stays as it is, and a frozen Reality
    stays frozen. *)
Theorem capability_books (w w' : World) (Hw : wf w) (Hr : rtc step w w') :
  wf w' /\ cw_manifests w ⊆ cw_manifests w' /\ cw_events w `prefix_of` cw_events w' /\
  (forall k h, cw_history w !! k = Some h -> exists h', cw_history w' !! k = Some h' /\ history_step h h') /\
  (forall k t, cw_tokens w !! k = Some t -> exists t', cw_tokens w' !! k = Some t' /\ token_step t t') /\
  (forall k c, cw_credentials w !! k = Some c ->
     exists c', cw_credentials w' !! k = Some c' /\ credential_step c c') /\
  (forall rid, frozen_in w rid -> frozen_in w' rid).
Proof. destruct (run_keeps w w' Hr Hw) as (? & [] & ?). by split_and!. Qed.
End system.
