(* ===== verification/CapabilitySafety.v ===== *)
(** What authority means in the capability subsystem: which checks stand behind an
    authorized action, how an action can change the files of the host, that revoked tokens and
    frozen Realities never act again, and what revoking a class does. *)
From Stdlib Require Import Strings.Byte.
From S2P Require Import Prelude StateError Paths EconomicsModel EffectModel CapabilityModel.
From S2P Require Import CapabilityPolicy CapabilityAuthority Redaction CapabilityStore CapabilityToken.
From S2P Require Import CapabilityBroker CapabilityProxy CapabilityAdmin CapabilityLogic CapabilityFacts.
From S2P Require Import CapabilitySystem.

Section safety.
Context {F : Type} {env : CapabilityEnv} {libs : ManifestLibs} {laws : ManifestLaws}
  {tokens : TokenLibs} {host : ProxyHost F} {runtime : RuntimeHost}.
#[local] Abbreviation World := (CapWorld F).
#[local] Abbreviation eff := (eff World).

(** * Authorization *)

(** The token carries a valid signature, is bound to the Reality and to exactly
    this manifest, is within its time, and carries the operation. *)
Record verified (w : World) (rid : string) (r : RealityRow) (t : SignedRealityCapabilityToken)
    (m : CapabilityManifest) (op : RealityTokenOperation.t) : Prop := {
  ve_signature : exists sig data, decode 64 (signature t) = Ok sig /\
    claims_json (claims t) = Ok data /\ ed25519_verify (DOMAIN ++ data) sig = true;
  ve_scope : exists hash, manifest_hash m = Ok hash /\
    scope_matches (claims t) rid (rr_boundary r) m hash = true;
  ve_time : exists n, n = cw_ticks w /\ (cap_clock n < tc_expires_at (claims t))%Z /\
    (tc_issued_at (claims t) <= cap_clock (S n))%Z;
  ve_operation : op ∈ tc_operations (claims t);
}.

(** The audited, unrevoked row of the token. *)
Definition active_token (w : World) (t : SignedRealityCapabilityToken) : Prop :=
  exists hash row, token_hash t = Ok hash /\ cw_tokens w !! hash = Some row /\ tk_revoked row = None.

Lemma io_Ok (w : World) u w' : io w = (Ok u, w') -> w' = set_ticks (S (cw_ticks w)) w.
Proof. unfold io. destruct (cap_fault _); [done|]. by intros [= _ <-]. Qed.

Lemma lift_Ok {A} (r : result A) (w : World) a w' : lift r w = (Ok a, w') -> r = Ok a /\ w' = w.
Proof. unfold lift. by intros [= -> ->]. Qed.

Lemma ask_Ok {A} (f : World -> A) (w : World) a w' : ask f w = (Ok a, w') -> a = f w /\ w' = w.
Proof. unfold ask. by intros [= -> ->]. Qed.
Lemma unique_Ok {A} (o : option A) (w : World) u w' : unique o w = (Ok u, w') -> o = None /\ w' = w.
Proof. destruct o; [done|]. by intros [= _ ->]. Qed.
Lemma key_Ok {A} (o : option A) (w : World) u w' : foreign_key o w = (Ok u, w') -> is_Some o /\ w' = w.
Proof. destruct o; [|done]. intros [= _ ->]. by split. Qed.

Lemma token_verify_Ok t rid r m op (w : World) u w' : token_verify t rid r m op w = (Ok u, w') ->
  verified w rid r t m op /\ w' = set_ticks (S (S (cw_ticks w))) w.
Proof.
  unfold token_verify.
  intros (sig & w1 & [Hsig ->]%lift_Ok & H)%bind_Ok. apply bind_Ok in H as (data & w1 & [Hdata ->]%lift_Ok & H).
  destruct (ed25519_verify (DOMAIN ++ data) sig) eqn:Hv; cbn [negb] in H; [|done].
  apply bind_Ok in H as (hash & w1 & [Hh ->]%lift_Ok & H).
  destruct (scope_matches _ _ _ _ _) eqn:Hs; cbn [negb] in H; [|done].
  rewrite bind_first in H. cbn in H.
  destruct (bool_decide_reflect (tc_expires_at (claims t) <= cap_clock (cw_ticks w))%Z) as [|He]; [done|].
  rewrite bind_first in H. cbn in H.
  destruct (bool_decide_reflect (cap_clock (S (cw_ticks w)) < tc_issued_at (claims t))%Z) as [|Hi]; [done|].
  destruct (bool_decide_reflect (op ∈ tc_operations (claims t))) as [Ho|]; [|done].
  injection H as _ <-. split; [|done]. split.
  - by exists sig, data.
  - by exists hash.
  - exists (cw_ticks w). split_and!; [done|lia|lia].
  - done.
Qed.

(** The event that records an allowed request. *)
Definition recorded (w w' : World) (rid : string) (m : CapabilityManifest) (kind : CapabilityEventKind.t)
    (q : CapabilityRequest) : Prop :=
  exists e, cw_events w ++ [e] `prefix_of` cw_events w' /\ ce_reality e = rid /\ ce_manifest e = cm_id m /\
    ce_kind e = kind /\ ce_request e = Some q.

Lemma append_event_Ok e (w : World) u w' : append_capability_event e w = (Ok u, w') ->
  exists n, w' = set_events (cw_events w ++ [e]) (set_ticks n w).
Proof.
  unfold append_capability_event.
  intros (u1 & w1 & ->%io_Ok & H)%bind_Ok.
  apply bind_Ok in H as (o1 & w1 & [-> ->]%ask_Ok & H). apply bind_Ok in H as (u2 & w1 & [_ ->]%unique_Ok & H).
  apply bind_Ok in H as (o2 & w1 & [-> ->]%ask_Ok & H). apply bind_Ok in H as (u3 & w1 & [_ ->]%key_Ok & H).
  apply bind_Ok in H as (o3 & w1 & [-> ->]%ask_Ok & H). apply bind_Ok in H as (u4 & w1 & [_ ->]%key_Ok & H).
  injection H as _ <-. by eexists.
Qed.

Lemma record_event_Ok rid i kind q reason (w : World) u w' :
  record_event rid i kind q reason w = (Ok u, w') ->
  exists e n, w' = set_events (cw_events w ++ [e]) (set_ticks n w) /\ ce_reality e = rid /\ ce_manifest e = i /\
    ce_kind e = kind /\ ce_request e = q.
Proof.
  unfold record_event. rewrite !bind_first. unfold new_id. cbn. intros [n ->]%append_event_Ok.
  eexists _, n. split_and!; done.
Qed.

Lemma decide_request_Ok rid m q (w : World) u w' : decide_request rid m q w = (Ok u, w') ->
  granted (fun i => cap_clock (cw_ticks w + i)) m q /\
  recorded w w' rid m CapabilityEventKind.Allowed q /\
  exists evs n, w' = set_events evs (set_ticks n w).
Proof.
  unfold decide_request. rewrite bind_first. cbn. set (v := evaluate _ q m).
  intros (u1 & w1 & (e & n & -> & He1 & He2 & Hk & He3)%record_event_Ok & H)%bind_Ok.
  destruct (decide (decision v = CapabilityDecision.Allow)) as [Ha|]; [|done].
  injection H as _ <-. cbn. split_and!; [|exists e; rewrite Ha in Hk; by split_and!|by eexists _, _].
  destruct (evaluate_exact_cases (fun i => cap_clock (cw_ticks w + i)) q m) as [[? _]|[_ Hd]]; [done|].
  fold v in Hd. congruence.
Qed.

(** Every check that stands behind a request; its decision reads the clock after
    those of the token. *)
Record authorized (w : World) (rid : string) (r : RealityRow) (t : SignedRealityCapabilityToken)
    (m : CapabilityManifest) (op : RealityTokenOperation.t) (q : CapabilityRequest) (w' : World) : Prop := {
  au_verified : verified w rid r t m op;
  au_active : active_token w t;
  au_granted : granted (fun i => cap_clock (3 + cw_ticks w + i)) m q;
  au_recorded : recorded w w' rid m CapabilityEventKind.Allowed q;
}.

Lemma authorize_Ok rid r t m op q (w : World) u w' : authorize rid r t m op q w = (Ok u, w') ->
  authorized w rid r t m op q w' /\ exists evs n, w' = set_events evs (set_ticks n w).
Proof.
  unfold authorize. intros (u1 & w1 & [Hv ->]%token_verify_Ok & H)%bind_Ok.
  apply bind_Ok in H as (hash & w1 & [Hh ->]%lift_Ok & H).
  unfold capability_token_revoked in H. apply bind_Ok in H as (b & w1 & Hb & H).
  apply bind_Ok in Hb as (u2 & w2 & ->%io_Ok & [-> ->]%ask_Ok).
  destruct (token_revoked hash _) eqn:Hr; [done|].
  apply decide_request_Ok in H as (Hg & Hrec & evs & n & ->). split; [|by eexists _, _].
  split; [done| |done|done].
  unfold token_revoked in Hr. cbn in Hr. destruct (cw_tokens w !! hash) as [row|] eqn:Hrow; [|done].
  apply bool_decide_eq_false in Hr. exists hash, row. split_and!; [done|done|].
  destruct (tk_revoked row); [|done]. by destruct Hr.
Qed.

(** * Actions *)

(** What an action asks of the token and of the manifest. *)
Definition action_operation (a : NormalizedAction) : RealityTokenOperation.t :=
  match a with
  | Shell _ => RealityTokenOperation.Shell
  | FileRead _ | FileList _ => RealityTokenOperation.FileRead
  | FileWrite _ _ | FileDelete _ => RealityTokenOperation.FileWrite
  end.
Definition action_request (a : NormalizedAction) : CapabilityRequest :=
  match a with
  | Shell spec => ProcessRequest (program spec)
  | FileRead path => FilesystemRequest FilesystemOperation.Read path
  | FileWrite path _ => FilesystemRequest FilesystemOperation.Write path
  | FileDelete path => FilesystemRequest FilesystemOperation.Delete path
  | FileList path => FilesystemRequest FilesystemOperation.List path
  end.

Lemma effective_Ok rid (w : World) m w' : effective_capability_manifest rid w = (Ok m, w') ->
  effective rid w = Some m /\ w' = set_ticks (S (cw_ticks w)) w.
Proof.
  unfold effective_capability_manifest. intros (u & w1 & ->%io_Ok & H)%bind_Ok.
  apply fetch_Ok in H as [H%ok_or_Ok ->]. by split.
Qed.

Lemma events_after {A} (m : eff A) w1 a w' : stays (fun _ => True) events_kept m -> m w1 = (Ok a, w') ->
  cw_events w1 `prefix_of` cw_events w'.
Proof. intros Hm H. destruct (Hm w1 Logic.I) as [_ Hk]. by rewrite H in Hk. Qed.

(** The computation that follows [H : m w1 = (Ok a, w')] appends events. *)
Ltac events_after_tac :=
  match goal with
  | H : ?f ?v = (Ok _, ?v') |- cw_events ?v `prefix_of` cw_events ?v' =>
      eapply (events_after f v _ v'); [stays_tac; try apply events_files|exact H]
  end.

Lemma file_action_Ok rid r t m op path (w : World) real w' : file_action rid r t m op path w = (Ok real, w') ->
  exists w1, authorize rid r t m (file_token_operation op) (FilesystemRequest op path) w = (Ok tt, w1) /\
    w' = w1 /\ @resolve_workspace_path (host_paths (cw_files w)) (rr_root r) path = Ok real.
Proof.
  unfold file_action. intros ([] & w1 & Ha & H)%bind_Ok. apply fetch_Ok in H as [Hp ->].
  exists w1. split_and!; [done|done|]. apply authorize_Ok in Ha as (_ & evs & n & ->). done.
Qed.

(** A returned action was authorized. *)
Lemma execute_authorize red rid r t action artifacts (w : World) a w' :
  execute red rid r t action artifacts w = (Ok a, w') ->
  exists m w1, effective rid w = Some m /\
    authorize rid r t m (action_operation action) (action_request action) (set_ticks (S (cw_ticks w)) w) =
      (Ok tt, w1) /\ cw_events w1 `prefix_of` cw_events w'.
Proof.
  unfold execute. intros (m & w1 & [Hm ->]%effective_Ok & H)%bind_Ok. exists m.
  destruct action as [spec|path|path data|path|path]; cbn [action_operation action_request].
  - unfold shell in H. apply bind_Ok in H as ([] & w1 & Ha & H). exists w1. split_and!; [done|done|].
    events_after_tac.
  - apply bind_Ok in H as (real & w1 & (w2 & Ha & -> & _)%file_action_Ok & H).
    exists w2. split_and!; [done|done|]. events_after_tac.
  - destruct (bool_decide _); [done|]. apply bind_Ok in H as (real & w1 & (w2 & Ha & -> & _)%file_action_Ok & H).
    exists w2. split_and!; [done|done|]. events_after_tac.
  - apply bind_Ok in H as (real & w1 & (w2 & Ha & -> & _)%file_action_Ok & H).
    exists w2. split_and!; [done|done|]. events_after_tac.
  - apply bind_Ok in H as (real & w1 & (w2 & Ha & -> & _)%file_action_Ok & H).
    exists w2. split_and!; [done|done|]. events_after_tac.
Qed.

Lemma quiet_files {A} (m : eff A) w r w' : stays (fun _ => True) same_surface m -> m w = (r, w') ->
  cw_files w' = cw_files w.
Proof. intros Hm H. destruct (Hm w Logic.I) as [_ (_ & _ & Hf)]. by rewrite H in Hf. Qed.

(** * The files of an action *)

(** Computations that change files only by the given steps. *)
Definition touching (T : F -> F -> Prop) (w w' : World) : Prop := rtc T (cw_files w) (cw_files w').
#[local] Instance touching_preorder T : PreOrder (touching T).
Proof. split; unfold touching; [by intros w|]. intros w1 w2 w3. by etrans. Qed.
#[local] Instance touching_books T : Books (fun _ : World => True) (touching T).
Proof.
  apply surface_books; [apply _|]. intros w w' (_ & _ & Hf) _. split; [done|]. unfold touching. by rewrite Hf.
Qed.
#[local] Abbreviation touches T m := (stays (fun _ : World => True) (touching T) m).

Lemma touch_change (T : F -> F -> Prop) {A} (f : F -> result A * F) :
  (forall x, T x (f x).2) -> touches T (host_change f).
Proof.
  intros Hf w _. split; [done|]. unfold host_change, touching. specialize (Hf (cw_files w)).
  destruct (f (cw_files w)). by apply rtc_once.
Qed.
Lemma touches_run (T : F -> F -> Prop) {A} (m : eff A) w r w' : touches T m -> m w = (r, w') ->
  rtc T (cw_files w) (cw_files w').
Proof. intros Hm H. destruct (Hm w Logic.I) as [_ Ht]. by rewrite H in Ht. Qed.

(** Steps of one kind, with at most one step of another in between. *)
Definition once (T X : F -> F -> Prop) (f f' : F) : Prop :=
  exists f1 f2, rtc T f f1 /\ (f2 = f1 \/ X f1 f2) /\ rtc T f2 f'.
Definition at_most_once T X {A} (m : eff A) : Prop := forall w, once T X (cw_files w) (cw_files (m w).2).
Lemma once_touches T X {A} (m : eff A) : touches T m -> at_most_once T X m.
Proof. intros Hm w. exists (cw_files w), (cw_files w). split; [done|]. split; [by left|]. apply (Hm w Logic.I). Qed.
Lemma once_before T X {A B} (m : eff A) (k : A -> eff B) :
  touches T m -> (forall a, at_most_once T X (k a)) -> at_most_once T X (m ≫= k).
Proof.
  intros Hm Hk w. rewrite bind_first. destruct (m w) as [[a|e] w1] eqn:H.
  - destruct (Hk a w1) as (f1 & f2 & H1 & H2 & H3). exists f1, f2. split; [|done].
    etrans; [|exact H1]. by eapply touches_run.
  - exists (cw_files w), (cw_files w). split; [done|]. split; [by left|]. by eapply touches_run.
Qed.
Lemma once_after T X {A B} (m : eff A) (k : A -> eff B) :
  at_most_once T X m -> (forall a, touches T (k a)) -> at_most_once T X (m ≫= k).
Proof.
  intros Hm Hk w. rewrite bind_first. destruct (Hm w) as (f1 & f2 & H1 & H2 & H3).
  destruct (m w) as [[a|e] w1]; exists f1, f2; [|done]. split; [done|]. split; [done|].
  etrans; [exact H3|]. apply (Hk a w1 Logic.I).
Qed.
Lemma once_finally T X {A} (m : eff A) cleanup :
  at_most_once T X m -> touches T cleanup -> at_most_once T X (finally m cleanup).
Proof.
  intros Hm Hc w. unfold finally. destruct (Hm w) as (f1 & f2 & H1 & H2 & H3).
  destruct (m w) as [r w1]. exists f1, f2. split; [done|]. split; [done|]. etrans; [exact H3|]. apply (Hc w1 Logic.I).
Qed.

(** The copies of credentials for one action of the Reality; what they may hold. *)
Definition credential_directory (rid directory : string) : Prop :=
  exists d, directory = credential_base rid +:+ "/" +:+ d.
Definition credential_file (rid path : string) : Prop :=
  exists directory id, credential_directory rid directory /\ path = directory +:+ "/" +:+ id +:+ ".secret".
Inductive credential_touch (rid : string) (P : list byte -> Prop) : F -> F -> Prop :=
  | touch_base f : credential_touch rid P f (host_mkdir_all f (credential_base rid)).2
  | touch_directory f d : credential_directory rid d -> credential_touch rid P f (host_mkdir f d).2
  | touch_open f p : credential_file rid p -> credential_touch rid P f (host_create f p).2
  | touch_fill f p data : credential_file rid p -> P data -> credential_touch rid P f (host_write f p data).2
  | touch_unlink f p : credential_file rid p -> credential_touch rid P f (host_remove f p).2
  | touch_rmdir f d : credential_directory rid d -> credential_touch rid P f (host_rmdir f d).2.
(** The reservation and the artifacts of a shell action: what is written is redacted. *)
Inductive artifact_touch (artifacts : string) (hidden : list (list byte)) : F -> F -> Prop :=
  | touch_reserve f n k : artifact_touch artifacts hidden f (reserve_artifact_capacity n k f).2
  | touch_release f x : artifact_touch artifacts hidden f (release_artifact_capacity x f)
  | touch_artifacts f : artifact_touch artifacts hidden f (host_mkdir f artifacts).2
  | touch_artifact f p : p ∈ [stdout_path artifacts; stderr_path artifacts] ->
      artifact_touch artifacts hidden f (host_create f p).2
  | touch_capture f p data s maximum stop stream : p ∈ [stdout_path artifacts; stderr_path artifacts] ->
      finalized_capture s hidden maximum stop stream = Ret data ->
      artifact_touch artifacts hidden f (host_write f p data).2.

(** Every credential handed to the container is named by the path of its copy. *)
Definition by_path (environment : gmap string string) : Prop :=
  map_Forall (fun _ v => exists d id, v = "/run/hardknock/credentials/" +:+ d +:+ "/" +:+ id +:+ ".secret") environment.
Record placed (rid : string) (m : MaterializedCredentials) : Prop := {
  pl_directory : credential_directory rid (mt_directory m);
  pl_files : Forall (credential_file rid) (mt_files m);
  pl_environment : by_path (mt_environment m);
}.

Lemma drop_touches rid P m : placed rid m -> touches (credential_touch rid P) (drop_materialized m).
Proof.
  intros [Hd Hf _]. unfold drop_materialized. stays_step; [|stays_tac; apply touch_change; by constructor].
  clear Hd. induction Hf as [|p l Hp _ IH]; cbn [eff_iter]; [stays_tac|]. stays_step; [|exact IH].
  stays_tac. apply touch_change. by constructor.
Qed.
Lemma open_touches rid P path c : credential_file rid path -> touches (credential_touch rid P) (open_credential path c).
Proof. intros Hp. unfold open_credential. stays_tac. apply touch_change. by constructor. Qed.
Lemma fill_touches rid (P : list byte -> Prop) path v c data acc : credential_file rid path -> P data ->
  touches (credential_touch rid P) (fill_credential path v c data acc).
Proof. intros Hp Hd. unfold fill_credential. stays_tac. apply touch_change. by constructor. Qed.
Lemma fill_Ok path v c data acc (w : World) acc' w' : fill_credential path v c data acc w = (Ok acc', w') ->
  acc' = mkMaterialized (<[credential_environment_name c := v]> (mt_environment acc)) (mt_secrets acc ++ [data])
    (mt_files acc) (mt_directory acc).
Proof.
  unfold fill_credential. intros (u & w1 & _ & H)%bind_Ok. apply bind_Ok in H as (u2 & w2 & _ & H). cbv zeta in H.
  destruct (mt_environment acc !! _); [done|]. by injection H as <- _.
Qed.
Lemma on_error_Ok {A} (m : eff A) cleanup (w : World) a w' : on_error m cleanup w = (Ok a, w') -> m w = (Ok a, w').
Proof. unfold on_error. by destruct (m w) as [[?|?] ?]. Qed.
Lemma placed_file rid m id : placed rid m -> credential_file rid (mt_directory m +:+ "/" +:+ id +:+ ".secret").
Proof. intros [Hd _ _]. by exists (mt_directory m), id. Qed.
Lemma placed_with_file rid m path : placed rid m -> credential_file rid path -> placed rid (with_file path m).
Proof. intros [Hd Hf He] Hp. split; [done| |done]. cbn. apply Forall_app. by split; [|apply Forall_singleton]. Qed.

Lemma materialize_one_touches rid d c acc : placed rid acc ->
  touches (credential_touch rid (fun _ => True)) (materialize_one d c acc).
Proof.
  intros Ha. pose proof (placed_file rid acc (ic_id c) Ha). unfold materialize_one. cbv zeta.
  stays_tac; try (by apply open_touches); try (by apply fill_touches); apply drop_touches; [done|].
  by apply placed_with_file.
Qed.
Lemma materialize_one_Ok rid d c acc (w : World) acc' w' : placed rid acc -> materialize_one d c acc w = (Ok acc', w') ->
  placed rid acc' /\ mt_secrets acc ⊆ mt_secrets acc' /\
  rtc (credential_touch rid (fun x => x ∈ mt_secrets acc')) (cw_files w) (cw_files w').
Proof.
  clear laws. intros Ha. pose proof (placed_file rid acc (ic_id c) Ha) as Hp. unfold materialize_one.
  destruct (revoked_at c); [by intros [= <- <-]|]. cbv zeta.
  intros (opened & w1 & Ho%on_error_Ok & H)%bind_Ok. destruct opened as [data|].
  - apply on_error_Ok in H. pose proof (fill_Ok _ _ _ _ _ _ _ _ H) as ->. cbn [mt_secrets].
    split; [|split; [set_solver|]].
    + destruct Ha as [Hd Hf He]. split; cbn; [done| |].
      * apply Forall_app. by split; [|apply Forall_singleton].
      * apply map_Forall_insert_2; [|done]. by exists d, (ic_id c).
    + etrans; [eapply touches_run; [by apply open_touches|exact Ho]|].
      eapply touches_run; [|exact H]. apply fill_touches; [done|set_solver].
  - injection H as <- <-. split; [done|]. split; [done|]. eapply touches_run; [by apply open_touches|exact Ho].
Qed.
Lemma credential_touch_mono rid (P Q : list byte -> Prop) f f' : (forall x, P x -> Q x) ->
  rtc (credential_touch rid P) f f' -> rtc (credential_touch rid Q) f f'.
Proof. intros HP. induction 1 as [|f f1 f2 Hs _ IH]; [done|]. eapply rtc_l; [|exact IH]. destruct Hs; constructor; auto. Qed.

Lemma materialize_all_touches rid d l acc (w : World) res w' : placed rid acc -> materialize_all d l acc w = (res, w') ->
  rtc (credential_touch rid (fun _ => True)) (cw_files w) (cw_files w') /\
  forall acc', res = Ok acc' -> placed rid acc' /\ mt_secrets acc ⊆ mt_secrets acc' /\
    rtc (credential_touch rid (fun x => x ∈ mt_secrets acc')) (cw_files w) (cw_files w').
Proof.
  clear laws. revert acc w. induction l as [|c l IH]; intros acc w Ha; cbn [materialize_all].
  { intros [= <- <-]. split; [done|]. by intros acc' [= <-]. }
  rewrite bind_first. destruct (materialize_one d c acc w) as [[acc1|e] w1] eqn:H1.
  - pose proof (materialize_one_Ok _ _ _ _ _ _ _ Ha H1) as (Ha1 & Hs & Hf). intros Hm. apply IH in Hm as [Hr Hok]; [|done].
    split; [etrans; [by eapply credential_touch_mono; [|exact Hf]|done]|]. intros acc' Hres.
    destruct (Hok acc' Hres) as (? & Hs' & Hf'). split; [done|]. split; [set_solver|].
    etrans; [|exact Hf']. eapply credential_touch_mono; [|exact Hf]. cbn. set_solver.
  - intros [= <- <-]. split; [|done]. eapply touches_run; [|exact H1]. by apply materialize_one_touches.
Qed.
Lemma new_directory_touches rid P : touches (credential_touch rid P) (new_action_directory rid).
Proof. unfold new_action_directory. stays_tac; apply touch_change; constructor. by eexists. Qed.
Lemma materialize_touches rid r (w : World) res w' : materialize_for_action rid r w = (res, w') ->
  rtc (credential_touch rid (fun _ => True)) (cw_files w) (cw_files w') /\
  forall m, res = Ok m -> placed rid m /\
    rtc (credential_touch rid (fun x => x ∈ mt_secrets m)) (cw_files w) (cw_files w').
Proof.
  unfold materialize_for_action. destruct (_ || _); [by intros [= <- <-]|].
  rewrite bind_first. destruct (new_action_directory rid w) as [[d|e] w1] eqn:Hd.
  2: { intros [= <- <-]. split; [|done]. eapply touches_run; [|exact Hd]. apply new_directory_touches. }
  cbv zeta. set (empty := mkMaterialized _ _ _ _).
  assert (He : placed rid empty) by (split; cbn; [by exists d|constructor|by apply map_Forall_empty]).
  assert (Hpre : forall P, rtc (credential_touch rid P) (cw_files w) (cw_files w1))
    by (intros P; eapply touches_run; [|exact Hd]; apply new_directory_touches).
  assert (Hlist : forall P, touches (credential_touch rid P) (issued_credentials rid))
    by (intros P; eauto with stays nocore).
  rewrite bind_first. unfold on_error. destruct (issued_credentials rid w1) as [[l|e] w2] eqn:Hl.
  - assert (Hmid : forall P, rtc (credential_touch rid P) (cw_files w1) (cw_files w2))
      by (intros P; eapply touches_run; [|exact Hl]; apply Hlist).
    intros Hm. apply (materialize_all_touches rid) in Hm as [Hall Hok]; [|done]. split; [etrans; [apply Hpre|etrans; [apply Hmid|done]]|].
    intros m Hres. destruct (Hok m Hres) as (? & _ & ?). split; [done|]. etrans; [apply Hpre|etrans; [apply Hmid|done]].
  - intros [= <- <-]. split; [|done]. etrans; [apply Hpre|].
    etrans; [eapply touches_run; [|exact Hl]; apply Hlist|]. by apply (drop_touches rid _ empty He w2 Logic.I).
Qed.

(** * What a shell action does to the files *)

Section shell.
Context (red : list (list byte)) (rid : string) (r : RealityRow) (m : CapabilityManifest) (spec : CommandSpec)
  (artifacts : string).

(** One run of the command in a container, within the limits of the manifest. *)
Definition container_run (rt : ContainerRuntimeMetadata) (environment : gmap string string) (f f' : F) : Prop :=
  exists n, f' = (run_container rt (shell_arguments spec environment (rt_container_id rt))
    (default 300000%Z (timeout_ms (cm_resources m)))
    (default DEFAULT_OUTPUT_BYTES_PER_STREAM (output_bytes (cm_resources m))) n f).2.
(** The files after the action: its credentials are copied, the command runs at most
    once in the container of the Reality, its output is kept redacted, and the copies
    are removed. *)
Definition shell_files (w : World) (f' : F) : Prop :=
  rr_discarded r = false /\ eb_frozen (rr_boundary r) = false /\ eb_provider (rr_boundary r) = "container" /\
  foreign_override spec m = None /\
  exists rt, cw_runtimes w !! rid = Some rt /\
    (rtc (credential_touch rid (fun _ => True)) (cw_files w) f' \/
     exists environment secrets f1 f2, by_path environment /\
       rtc (credential_touch rid (fun x => x ∈ secrets)) (cw_files w) f1 /\
       once (artifact_touch artifacts (including red secrets)) (container_run rt environment) f1 f2 /\
       rtc (credential_touch rid (fun _ => False)) f2 f').

Lemma artifact_touches hidden path data s maximum stop stream : path ∈ [stdout_path artifacts; stderr_path artifacts] ->
  finalized_capture s hidden maximum stop stream = Ret data ->
  touches (artifact_touch artifacts hidden) (write_private_artifact path data).
Proof.
  intros Hp Hd. unfold write_private_artifact. stays_tac; apply touch_change; intros f; [by constructor|by eapply touch_capture].
Qed.
Lemma touches_lift_run T {A B} (x : run A) (k : A -> eff B) :
  (forall a, x = Ret a -> touches T (k a)) -> touches T (lift_run x ≫= k).
Proof.
  intros Hk w _. rewrite bind_first. unfold lift_run.
  destruct x as [a| |]; [by apply Hk|by split; [|constructor]..].
Qed.
Lemma run_container_once hidden arguments rt timeout maximum :
  at_most_once (artifact_touch artifacts hidden)
    (fun f f' => exists n, f' = (run_container rt arguments timeout maximum n f).2)
    (run_container_command hidden arguments rt artifacts timeout maximum).
Proof.
  clear laws. unfold run_container_command. destruct (bool_decide _); [by apply once_touches; stays_tac|].
  apply once_before; [apply touch_change; by constructor|intros _]. apply once_before; [stays_tac|intros _].
  apply once_after.
  - intros w. unfold host_run. rewrite bind_first. unfold tick. cbn. unfold host_change. cbn.
    destruct (run_container _ _ _ _ _ _) as [res f'] eqn:Hr. exists (cw_files w), f'.
    split; [done|]. split; [|done]. right. exists (cw_ticks w). by rewrite Hr.
  - intros [output [s1 s2]]. cbv zeta. cbn [fst snd]. apply touches_lift_run. intros d1 H1. apply touches_lift_run. intros d2 H2.
    stays_tac; eapply artifact_touches; try done; set_solver.
Qed.
Lemma run_shell_once hidden rt environment started :
  at_most_once (artifact_touch artifacts hidden) (container_run rt environment)
    (run_shell hidden m spec rt environment artifacts started).
Proof.
  unfold run_shell. cbv zeta. destruct (bool_decide _); [by apply once_touches; stays_tac|].
  apply once_before; [apply touch_change; intros f; apply touch_reserve|intros reservation].
  apply once_finally; [|apply touch_change; intros f; cbn; constructor].
  apply once_after; [apply run_container_once|]. intros output. stays_tac.
Qed.

Lemma shell_authorized_files (w : World) res w' : shell_authorized red rid r m spec artifacts w = (res, w') ->
  cw_files w' = cw_files w \/ shell_files w (cw_files w').
Proof.
  unfold shell_authorized. destruct (rr_discarded r || eb_frozen (rr_boundary r)) eqn:Hl; [intros [= _ <-]; by left|].
  apply orb_false_iff in Hl as [Hdis Hfr]. destruct (foreign_override spec m) eqn:Hov; [intros [= _ <-]; by left|].
  rewrite bind_first. unfold provider_runtime. rewrite bind_first. unfold io at 1. destruct (cap_fault _); [intros [= _ <-]; by left|].
  unfold fetch. cbn. destruct (cw_runtimes w !! rid) as [rt|] eqn:Hrt; cbn; [|intros [= _ <-]; by left].
  destruct (bool_decide_reflect (eb_provider (rr_boundary r) = "container")) as [Hp|]; cbn; [|intros [= _ <-]; by left].
  rewrite bind_first. unfold utc_now. cbn. rewrite bind_first. unfold broker_new, io.
  destruct (cap_fault _); [intros [= _ <-]; by left|]. cbn. set (started := cap_clock _).
  set (w0 := set_ticks _ _). assert (Hw0 : cw_files w0 = cw_files w) by done. clearbody w0.
  rewrite bind_first. destruct (materialize_for_action rid r w0) as [[c|e] w1] eqn:Hm.
  - apply materialize_touches in Hm as [_ Hok]. destruct (Hok c eq_refl) as [Hpl Hf]. rewrite Hw0 in Hf.
    unfold finally. destruct (run_shell _ _ _ _ _ _ _ w1) as [res1 w2] eqn:Hr. intros [= _ <-]. right.
    split_and!; try done. exists rt. split; [done|]. right.
    exists (mt_environment c), (mt_secrets c), (cw_files w1), (cw_files w2).
    pose proof (run_shell_once (including red (mt_secrets c)) rt (mt_environment c) started w1) as Ho.
    rewrite Hr in Ho. split; [apply Hpl|]. split; [done|]. split; [exact Ho|]. by apply (drop_touches rid _ c Hpl w2 Logic.I).
  - intros [= _ <-]. right. split_and!; try done. exists rt. split; [done|]. left. rewrite <- Hw0.
    by apply materialize_touches in Hm as [? _].
Qed.
End shell.

(** * Actions *)

(** What a returned or failed action did to the files, when it changed any. *)
Definition changed_files (red : list (list byte)) (rid : string) (r : RealityRow) (m : CapabilityManifest)
    (action : NormalizedAction) (artifacts : string) (w : World) (f' : F) : Prop :=
  let resolved path real := @resolve_workspace_path (host_paths (cw_files w)) (rr_root r) path = Ok real in
  match action with
  | FileWrite path data => exists real, resolved path real /\ f' = (host_write (cw_files w) real data).2
  | FileDelete path => exists real, resolved path real /\ f' = (host_remove (cw_files w) real).2
  | Shell spec => shell_files red rid r m spec artifacts w f'
  | FileRead _ | FileList _ => False
  end.

Lemma changing_action (rid : string) r t m op path (change : F -> string -> result unit * F) (w : World) res w' :
  (real ← file_action rid r t m op path; host_change (fun f => change f real) ≫= fun _ => mret FileChanged) w
    = (res, w') ->
  cw_files w' = cw_files w \/
  exists real w1, @resolve_workspace_path (host_paths (cw_files w)) (rr_root r) path = Ok real /\
    authorize rid r t m (file_token_operation op) (FilesystemRequest op path) w = (Ok tt, w1) /\
    cw_events w' = cw_events w1 /\ cw_files w' = (change (cw_files w) real).2.
Proof.
  rewrite bind_first. destruct (file_action rid r t m op path w) as [[real|e] w1] eqn:Hf.
  - apply file_action_Ok in Hf as (w2 & Ha & -> & Hp). unfold host_change. rewrite bind_first.
    pose proof Ha as (_ & evs & n & ->)%authorize_Ok. cbn.
    intros H. right. exists real, (set_events evs (set_ticks n w)). split; [done|]. split; [done|].
    destruct (change (cw_files w) real) as [[?|?] f]; by injection H as _ <-.
  - intros [= _ <-]. left. eapply (quiet_files _ _ _ _); [|exact Hf]. stays_tac.
Qed.

Lemma execute_cases (red : list (list byte)) (rid : string) (r : RealityRow)
    (t : SignedRealityCapabilityToken) (action : NormalizedAction) (artifacts : string) (w : World) :
  let '(res, w') := execute red rid r t action artifacts w in
  let permitted m := effective rid w = Some m /\
    authorized (set_ticks (S (cw_ticks w)) w) rid r t m (action_operation action) (action_request action) w' in
  (cw_files w' = cw_files w \/
   exists m, permitted m /\ changed_files red rid r m action artifacts w (cw_files w')) /\
  match res with Ok _ => exists m, permitted m | Err _ => True end.
Proof.
  destruct (execute red rid r t action artifacts w) as [res w'] eqn:H. cbv zeta.
  assert (Hmono : forall m w1, cw_events w1 `prefix_of` cw_events w' ->
    authorize rid r t m (action_operation action) (action_request action) (set_ticks (S (cw_ticks w)) w)
      = (Ok tt, w1) ->
    authorized (set_ticks (S (cw_ticks w)) w) rid r t m (action_operation action) (action_request action) w').
  { intros m w1 He [[? ? ? (e & ? & ?)] _]%authorize_Ok. split; try done. exists e. split; [by etrans|done]. }
  split.
  - unfold execute in H. rewrite bind_first in H.
    destruct (effective_capability_manifest rid w) as [[m|e] w0] eqn:Hm.
    2: { injection H as _ <-. left. eapply quiet_files; [|exact Hm]. eauto with stays nocore. }
    apply effective_Ok in Hm as [Hm ->].
    destruct action as [spec|path|path data|path|path].
    + unfold shell in H. rewrite bind_first in H. destruct (authorize _ _ _ _ _ _ _) as [[[]|e] w1] eqn:Ha.
      * pose proof Ha as (_ & evs & n & Hw1)%authorize_Ok.
        assert (Hf1 : cw_files w1 = cw_files w /\ cw_runtimes w1 = cw_runtimes w) by by rewrite Hw1.
        destruct Hf1 as [Hf1 Hr1]. pose proof H as Hsh. apply shell_authorized_files in Hsh as [Hs|Hs]; [left; congruence|right].
        exists m. split.
        -- split; [done|]. apply (Hmono m w1); [|exact Ha].
           pose proof (shell_authorized_stays (fun _ => True) events_kept red rid r m spec artifacts w1 Logic.I) as [_ Hk].
           by rewrite H in Hk.
        -- unfold changed_files, shell_files in *. rewrite Hf1, Hr1 in Hs. exact Hs.
      * injection H as _ <-. left. pose proof (authorize_stays (fun _ => True) same_surface rid r t m RealityTokenOperation.Shell
          (ProcessRequest (program spec)) (set_ticks (S (cw_ticks w)) w) Logic.I) as [_ (_ & _ & Hs)]. by rewrite Ha in Hs.
    + left. change (cw_files w) with (cw_files (set_ticks (S (cw_ticks w)) w)). eapply quiet_files; [|exact H]. stays_tac.
    + case_bool_decide; [injection H as _ <-; by left|].
      apply (changing_action _ _ _ _ _ _ (fun f real => host_write f real data)) in H
        as [?|(real & w1 & ? & ? & He & ?)]; [by left|right].
      exists m. split; [split; [done|]; apply (Hmono m w1); [by rewrite He|done]|]. by exists real.
    + apply (changing_action _ _ _ _ _ _ (fun f real => host_remove f real)) in H
        as [?|(real & w1 & ? & ? & He & ?)]; [by left|right].
      exists m. split; [split; [done|]; apply (Hmono m w1); [by rewrite He|done]|]. by exists real.
    + left. change (cw_files w) with (cw_files (set_ticks (S (cw_ticks w)) w)). eapply quiet_files; [|exact H]. stays_tac.
  - destruct res as [a|]; [|done]. apply execute_authorize in H as (m & w1 & ? & ? & ?). exists m. eauto.
Qed.


(** * Authority ends *)

Lemma reality_Ok rid (w : World) r w' : reality rid w = (Ok r, w') ->
  cw_realities w !! rid = Some r /\ w' = set_ticks (S (cw_ticks w)) w.
Proof.
  unfold reality. intros (u & w1 & ->%io_Ok & H)%bind_Ok. apply fetch_Ok in H as [H%ok_or_Ok ->]. by split.
Qed.

Lemma token_active hash (t : SignedRealityCapabilityToken) (w : World) : token_hash t = Ok hash ->
  token_revoked hash w = false -> active_token w t.
Proof.
  unfold token_revoked. intros Hh Hr. destruct (cw_tokens w !! hash) as [row|] eqn:Hrow; [|done].
  apply bool_decide_eq_false in Hr. exists hash, row. split_and!; [done|done|].
  destruct (tk_revoked row); [|done]. by destruct Hr.
Qed.

(** A relayed event is authenticated only by an active token of its stored Reality. *)
Lemma authenticate_Ok decoded event bound (w : World) w' :
  authenticate_reality_capability decoded event bound w = (Ok true, w') ->
  exists t rid op r, decoded = Some t /\ relayed_operation event = Some (rid, op) /\
    cw_realities w !! rid = Some r /\ eb_frozen (rr_boundary r) = false /\ active_token w t.
Proof.
  unfold authenticate_reality_capability. destruct (relayed_operation event) as [[rid op]|]; [|done].
  destruct decoded as [t|]; [|done]. destruct (_ || _); [done|].
  intros (u1 & w1 & ->%io_Ok & H)%bind_Ok. apply bind_Ok in H as (r & w1 & [Hr ->]%reality_Ok & H).
  apply bind_Ok in H as (m & w1 & [Hm ->]%effective_Ok & H). apply bind_Ok in H as (u2 & w1 & ->%io_Ok & H).
  apply bind_Ok in H as (u3 & w1 & [Hv ->]%token_verify_Ok & H).
  apply bind_Ok in H as (hash & w1 & [Hh ->]%lift_Ok & H). apply bind_Ok in H as (b & w1 & Hb & H).
  unfold capability_token_revoked in Hb. apply bind_Ok in Hb as (u4 & w2 & ->%io_Ok & [-> ->]%ask_Ok).
  injection H as Ht _. apply negb_true_iff in Ht. exists t, rid, op, r. split_and!; try done.
  - destruct Hv as [_ (h & _ & Hs) _ _]. unfold scope_matches in Hs. rewrite !andb_true_iff, negb_true_iff in Hs.
    tauto.
  - by apply (token_active hash t) in Ht.
Qed.

(** The computation fails and leaves the host's files alone. *)
Definition refused {A} (m : eff A) (w : World) : Prop :=
  exists e w', m w = (Err e, w') /\ cw_files w' = cw_files w.

Definition revoked_in (w : World) (t : SignedRealityCapabilityToken) : Prop :=
  exists hash row, token_hash t = Ok hash /\ cw_tokens w !! hash = Some row /\ tk_revoked row <> None.

Lemma revoked_inactive (w : World) t : revoked_in w t -> ~ active_token w t.
Proof. intros (h & row & Hh & Hrow & Hr) (h' & row' & Hh' & Hrow' & Hr'). congruence. Qed.

Lemma unauthorized_refused red rid r t action artifacts (w : World) :
  ~ active_token w t -> refused (execute red rid r t action artifacts) w.
Proof.
  intros Ht. pose proof (execute_cases red rid r t action artifacts w) as Hc.
  destruct (execute red rid r t action artifacts w) as [[a|e] w'] eqn:He; cbv beta zeta in Hc.
  - destruct Hc as [_ (m & _ & [_ Ha _ _])]. by destruct Ht.
  - exists e, w'. split; [done|]. destruct Hc as [[?|(m & (_ & [_ Ha _ _]) & _)] _]; [done|].
    by destruct Ht.
Qed.

(** C20. A revoked token is spent for good: after it is revoked, whatever calls and
    changes follow, in any order and with any failures, no action under it succeeds
    or changes a file, for whatever row of a Reality it is presented, and no relayed
    event is authenticated by it. *)
Theorem revoked_token_inert (w w' : World) (t : SignedRealityCapabilityToken) (Hw : wf w)
    (Ht : revoked_in w t) (Hr : rtc step w w') :
  (forall red rid r action artifacts, refused (execute red rid r t action artifacts) w') /\
  (forall event bound, (authenticate_reality_capability (Some t) event bound w').1 <> Ok true).
Proof.
  destruct (run_keeps w w' Hr Hw) as (_ & Hk & _).
  assert (Hin : ~ active_token w' t).
  { apply revoked_inactive. destruct Ht as (h & row & Hh & Hrow & Hrev).
    destruct (kp_tokens _ _ Hk _ _ Hrow) as (row' & Hrow' & _ & _ & _ & Hs). exists h, row'.
    split_and!; [done|done|]. by rewrite (Hs Hrev). }
  split; [by intros; apply unauthorized_refused|]. intros event bound Ha.
  destruct (authenticate_reality_capability _ _ _ w') as [res w2] eqn:He. cbn in Ha. subst res.
  apply authenticate_Ok in He as (t' & _ & _ & _ & [= <-] & _ & _ & _ & ?). done.
Qed.

Lemma token_issue_unfrozen rid r m ttl (w : World) t w' : token_issue rid r m ttl w = (Ok t, w') ->
  eb_frozen (rr_boundary r) = false.
Proof. unfold token_issue. by destruct (eb_frozen (rr_boundary r)). Qed.

Lemma broker_issue_unfrozen q rid r m (w : World) c w' : broker_issue q rid r m w = (Ok c, w') ->
  eb_frozen (rr_boundary r) = false.
Proof.
  unfold broker_issue. intros (u1 & w1 & _ & H)%bind_Ok. apply bind_Ok in H as (h & w2 & _ & H).
  destruct (eb_frozen (rr_boundary r)); [|done]. by rewrite orb_true_r in H.
Qed.

(** What a frozen Reality still refuses. *)
Lemma not_Ok_refused {A} (m : eff A) (w : World) : stays (fun _ => True) same_surface m ->
  (forall a w', m w <> (Ok a, w')) -> refused m w.
Proof.
  intros Hm Hn. destruct (m w) as [[a|e] w'] eqn:H; [by destruct (Hn a w')|].
  exists e, w'. split; [done|]. by eapply quiet_files.
Qed.

Lemma refused_bind {A B} (m : eff A) (k : A -> eff B) (w : World) : stays (fun _ => True) same_surface m ->
  (forall a w1, m w = (Ok a, w1) -> refused (k a) w1) -> refused (m ≫= k) w.
Proof.
  intros Hm Hk. unfold refused. rewrite bind_first. destruct (m w) as [[a|e] w1] eqn:H.
  - destruct (Hk a w1 eq_refl) as (e & w' & -> & Hf). exists e, w'. split; [done|]. rewrite Hf. by eapply quiet_files.
  - exists e, w1. split; [done|]. by eapply quiet_files.
Qed.
Lemma issue_reality_token_frozen rid r (w : World) : eb_frozen (rr_boundary r) = true ->
  forall t w', issue_reality_token rid r w <> (Ok t, w').
Proof.
  unfold issue_reality_token. intros Hf t w' (m & w3 & _ & H)%bind_Ok. apply bind_Ok in H as (u & w4 & _ & H).
  apply bind_Ok in H as (t' & w5 & ?%token_issue_unfrozen & _). congruence.
Qed.
Lemma execute_command_frozen rid r command artifacts (w : World) :
  cw_realities w !! rid = Some r -> eb_frozen (rr_boundary r) = true -> refused (execute_command rid command artifacts) w.
Proof.
  intros Hr Hf. unfold execute_command. apply refused_bind; [stays_tac|]. intros u w1 ->%io_Ok.
  apply refused_bind; [stays_tac|]. intros r' w1 [Hr' ->]%reality_Ok. cbn in Hr'. assert (r' = r) as -> by congruence.
  destruct (negb _); [by eexists _, _|]. destruct command as [|program args]; [by eexists _, _|].
  apply refused_bind; [stays_tac|]. intros t w1 Ht. by apply issue_reality_token_frozen in Ht.
Qed.

(** A frozen Reality is inert for good: after it is frozen, whatever calls and
    changes follow, its stored row stays frozen, so running a command in it, issuing
    it a token or a credential and authenticating its relayed events all fail and no
    file of the host changes by them. *)
Theorem frozen_reality_inert (w w' : World) (rid : string) (Hw : wf w) (Hf : frozen_in w rid)
    (Hr : rtc step w w') :
  exists r, cw_realities w' !! rid = Some r /\ eb_frozen (rr_boundary r) = true /\
    (forall command artifacts, refused (execute_command rid command artifacts) w') /\
    refused (issue_reality_token rid r) w' /\
    (forall q m, refused (broker_issue q rid r m) w') /\
    (forall decoded event op bound, relayed_operation event = Some (rid, op) ->
       (authenticate_reality_capability decoded event bound w').1 <> Ok true).
Proof.
  destruct (run_keeps w w' Hr Hw) as (_ & _ & Hk). destruct (Hk rid Hf) as (r & Hrow & Hfr).
  exists r. split_and!; try done.
  - intros command artifacts. by eapply execute_command_frozen.
  - apply not_Ok_refused; [eauto with stays nocore|]. by apply issue_reality_token_frozen.
  - intros q m. apply not_Ok_refused; [eauto with stays nocore|].
    intros c w2 ?%broker_issue_unfrozen. congruence.
  - intros decoded event op bound He Ha.
    destruct (authenticate_reality_capability _ _ _ w') as [res w2] eqn:H. cbn in Ha. subst res.
    apply authenticate_Ok in H as (t & rid' & op' & r' & _ & He' & Hr' & ? & _). congruence.
Qed.
End safety.
