(* ===== verification/CapabilityOutcome.v ===== *)
(** What the operations on authority achieve when they return: a revoked class is
    gone from the effective manifest and from the tokens, an issued token is the one
    that verifies. *)
From Stdlib Require Import Strings.Byte.
From S2P Require Import Prelude StateError Paths EconomicsModel EffectModel CapabilityModel.
From S2P Require Import CapabilityPolicy CapabilityAuthority Redaction CapabilityStore CapabilityToken.
From S2P Require Import CapabilityBroker CapabilityProxy CapabilityAdmin CapabilityLogic CapabilityFacts.
From S2P Require Import CapabilitySystem CapabilitySafety.

(** What [ed25519] promises of the key pair of the authority. *)
Class SignatureLaws `{TokenLibs} := {
  ed25519_genuine data : ed25519_verify data (ed25519_sign data) = true;
  ed25519_length data : length (ed25519_sign data) = 64;
}.

(** * Hexadecimal text *)

Lemma hex_value_digit n : n < 16 -> hex_value (hex_digit n) = Some n.
Proof. intros Hn. do 16 (destruct n as [|n]; [reflexivity|]). lia. Qed.

Lemma decode_pairs_encode (l : list byte) : decode_pairs (encode l) = Ok l.
Proof.
  induction l as [|b l IH]; [done|]. cbn [encode decode_pairs].
  pose proof (Byte.to_nat_bounded b) as Hb.
  rewrite !hex_value_digit by (try apply Nat.mod_upper_bound; try apply Nat.Div0.div_lt_upper_bound; lia).
  rewrite <- Nat.div_mod_eq, Byte.of_to_nat, IH. done.
Qed.

Lemma encode_shape (l : list byte) : String.length (encode l) = length l * 2 /\ all_hex (encode l) = true.
Proof.
  induction l as [|b l [IHl IHh]]; [done|]. cbn [encode all_hex String.length length].
  pose proof (Byte.to_nat_bounded b) as Hb.
  rewrite !hex_value_digit by (try apply Nat.mod_upper_bound; try apply Nat.Div0.div_lt_upper_bound; lia).
  split; [lia|]. by rewrite IHh.
Qed.

Lemma decode_encode (l : list byte) : decode (length l) (encode l) = Ok l.
Proof.
  unfold decode. destruct (encode_shape l) as [Hl Hh]. rewrite Hl, Hh, bool_decide_eq_true_2 by done.
  apply decode_pairs_encode.
Qed.

Section outcome.
Context {F : Type} {env : CapabilityEnv} {libs : ManifestLibs} {laws : ManifestLaws}
  {tokens : TokenLibs} {host : ProxyHost F} {runtime : RuntimeHost}.
#[local] Abbreviation World := (CapWorld F).
#[local] Abbreviation eff := (eff World).

(** * Issued tokens *)

Lemma token_issue_Ok rid r m ttl (w : World) t w' : token_issue rid r m ttl w = (Ok t, w') ->
  exists hash data, manifest_hash m = Ok hash /\ eb_frozen (rr_boundary r) = false /\
    bound_to (rr_boundary r) m hash = true /\ (0 < ttl <= MAX_TTL)%Z /\
    claims t = mkClaims ("capability-token-" +:+ cap_fresh (S (cw_ticks w))) rid (cm_id m) hash
      (cm_revision m) (cap_clock (cw_ticks w)) (cap_clock (cw_ticks w) + ttl)%Z
      (cap_fresh (2 + cw_ticks w)) (token_operations m) /\
    claims_json (claims t) = Ok data /\ signature t = encode (ed25519_sign (DOMAIN ++ data)).
Proof.
  unfold token_issue. destruct (eb_frozen (rr_boundary r)) eqn:Hf; [done|].
  intros (hash & w1 & [Hh ->]%lift_Ok & H)%bind_Ok.
  destruct (bound_to (rr_boundary r) m hash) eqn:Hb; cbn [negb] in H; [|done].
  destruct (bool_decide_reflect (ttl <= 0)%Z) as [|H0]; [done|].
  destruct (bool_decide_reflect (MAX_TTL < ttl)%Z) as [|H1]; [done|]. cbn [orb] in H.
  apply bind_Ok in H as (now & w1 & [= <- <-] & H). apply bind_Ok in H as (id & w1 & [= <- <-] & H).
  apply bind_Ok in H as (nonce & w1 & [= <- <-] & H). apply bind_Ok in H as (data & w1 & [Hd ->]%lift_Ok & H). injection H as <- _.
  exists hash, data. split_and!; try done; lia.
Qed.

(** An issued token is one that verifies: the issued token carries exactly the
    operations of its manifest and a time to live of at most 24 hours, and, until it
    expires and while the Reality is as it was, verification accepts it for those
    operations and for no other; its signature decodes to what was signed. *)
Theorem issued_token_verifies {genuine : SignatureLaws} (rid : string) (r : RealityRow)
    (m : CapabilityManifest) (ttl : Z) (w w1 w2 : World) (t : SignedRealityCapabilityToken)
    (op : RealityTokenOperation.t)
    (Hi : token_issue rid r m ttl w = (Ok t, w1))
    (Ht : (tc_issued_at (claims t) <= cap_clock (S (cw_ticks w2)))%Z /\
          (cap_clock (cw_ticks w2) < tc_expires_at (claims t))%Z) :
  tc_operations (claims t) = token_operations m /\
  tc_expires_at (claims t) = (tc_issued_at (claims t) + ttl)%Z /\ (ttl <= MAX_TTL)%Z /\
  (token_verify t rid r m op w2).1 =
    if decide (op ∈ token_operations m) then Ok tt
    else Err (Intervention "Capability token does not authorize this operation").
Proof.
  apply token_issue_Ok in Hi as (hash & data & Hh & Hf & Hb & Httl & Hc & Hd & Hs).
  remember (token_operations m) as ops eqn:Hops. clear Hops. rewrite Hc in Ht. cbn in Ht. rewrite Hc. cbn. split_and!; [done|done|lia|].
  unfold token_verify. rewrite Hs, Hd, Hh.
  pose proof (decode_encode (ed25519_sign (DOMAIN ++ data))) as Hdec. rewrite ed25519_length in Hdec.
  rewrite Hdec. unfold lift. rewrite !bind_first, ed25519_genuine. cbn [negb]. rewrite bind_first.
  assert (scope_matches (claims t) rid (rr_boundary r) m hash = true) as ->.
  { unfold bound_to in Hb. rewrite !andb_true_iff, !bool_decide_eq_true in Hb. destruct Hb as [[_ Hb2] Hb3].
    unfold scope_matches. rewrite Hc. cbn. rewrite Hf, Hb2, Hb3. by rewrite !bool_decide_eq_true_2. }
  cbn [negb]. rewrite bind_first. cbn. rewrite Hc. cbn. rewrite bool_decide_eq_false_2 by lia.
  rewrite bind_first. cbn. rewrite bool_decide_eq_false_2 by lia.
  destruct (bool_decide_reflect (op ∈ ops)); by case_decide.
Qed.

(** * The effective manifest *)

Lemma singleton_list {A} (x : A) (l : list A) : NoDup l -> x ∈ l -> (forall y, y ∈ l -> y = x) -> l = [x].
Proof.
  intros Hn Hx Hall. destruct l as [|y l]; [set_solver|]. assert (y = x) as -> by set_solver.
  destruct l as [|z l]; [done|]. assert (z = x) as -> by set_solver.
  apply NoDup_cons in Hn as [Hx' _]. set_solver.
Qed.

Lemma effective_active (w : World) rid rev h m hash : wf w -> cw_history w !! (rid, rev) = Some h ->
  hi_revoked h = None -> cw_manifests w !! hi_manifest h = Some (m, hash) -> effective rid w = Some m.
Proof.
  intros Hw Hh Hr Hm. unfold effective.
  assert (active_revisions rid w = [(rev, hi_manifest h)]) as ->; [|by cbn; rewrite Hm].
  unfold active_revisions.
  rewrite (singleton_list ((rid, rev), h) (List.filter _ _)).
  - done.
  - apply NoDup_ListNoDup, List.NoDup_filter, NoDup_ListNoDup, NoDup_map_to_list.
  - apply list_elem_of_In, filter_In. split; [by apply list_elem_of_In, elem_of_map_to_list|].
    cbn. by rewrite !bool_decide_eq_true_2.
  - intros [[rid' rev'] h'] [Hin Hb]%list_elem_of_In%filter_In.
    apply list_elem_of_In, elem_of_map_to_list in Hin. cbn in Hb.
    rewrite andb_true_iff, !bool_decide_eq_true in Hb. destruct Hb as [-> Hr'].
    assert (rev' = rev) as -> by by eapply (wf_active _ Hw). congruence.
Qed.

(** * Revoking a class *)

Lemma transaction_Ok {A} (m : eff A) (w : World) a w' : transaction m w = (Ok a, w') -> m w = (Ok a, w').
Proof. unfold transaction. by destruct (m w) as [[?|?] ?]. Qed.

Lemma modify_Ok (f : World -> World) (w : World) u w' : modify f w = (Ok u, w') -> w' = f w.
Proof. by intros [= _ <-]. Qed.

Lemma insert_capability_manifest_Ok rid m (w : World) u w' : insert_capability_manifest rid m w = (Ok u, w') ->
  exists hash now rows n, manifest_hash m = Ok hash /\ rows !! cm_id m = Some (m, hash) /\
    w' = set_history (<[(rid, cm_revision m) := mkHistory (cm_id m) None]> (revoke_history rid now (cw_history w)))
           (set_manifests rows (set_ticks n w)).
Proof.
  unfold insert_capability_manifest.
  intros (hash & w1 & [Hh ->]%lift_Ok & H)%bind_Ok. apply bind_Ok in H as (data & w1 & [Hd ->]%lift_Ok & H).
  apply transaction_Ok in H. apply bind_Ok in H as (u1 & w1 & Hrow & H).
  assert (exists rows n, w1 = set_manifests rows (set_ticks n w)) as (rows & n & ->).
  { unfold insert_manifest_row in Hrow. apply bind_Ok in Hrow as (u2 & w2 & ->%io_Ok & Hw1%modify_Ok).
    case_match; subst; [|by eexists _, _]. exists (cw_manifests w), (S (cw_ticks w)). by destruct w. }
  apply bind_Ok in H as (u2 & w1 & ->%io_Ok & H). apply bind_Ok in H as (row & w1 & [-> ->]%ask_Ok & H).
  destruct (same_manifest_row _ hash data) eqn:Hsame; cbn [negb] in H; [|done].
  apply (same_manifest_row_stored m hash data) in Hsame; [|done].
  apply bind_Ok in H as (now & w1 & [= <- <-] & H). apply bind_Ok in H as (u3 & w1 & ->%io_Ok & H).
  apply bind_Ok in H as (u4 & w1 & ->%modify_Ok & H). apply bind_Ok in H as (u5 & w1 & ->%io_Ok & H).
  apply bind_Ok in H as (o1 & w1 & [-> ->]%ask_Ok & H). apply bind_Ok in H as (u6 & w1 & [_ ->]%key_Ok & H).
  apply bind_Ok in H as (o2 & w1 & [-> ->]%ask_Ok & H). apply bind_Ok in H as (u7 & w1 & [_ ->]%unique_Ok & H).
  apply bind_Ok in H as (u8 & w1 & ->%modify_Ok & ->%io_Ok).
  eexists hash, _, rows, _. split; [done|]. split; [exact Hsame|]. done.
Qed.

Lemma revoke_capability_tokens_Ok rid (w : World) u w' : revoke_capability_tokens rid w = (Ok u, w') ->
  exists now n, w' = set_tokens (revoke_token rid now <$> cw_tokens w) (set_ticks n w).
Proof.
  unfold revoke_capability_tokens. intros (now & w1 & [= <- <-] & H)%bind_Ok.
  apply bind_Ok in H as (u1 & w1 & ->%io_Ok & ->%modify_Ok). by eexists _, _.
Qed.

Lemma update_reality_Ok rid r (w : World) u w' : update_reality rid r w = (Ok u, w') ->
  exists n, w' = set_realities (<[rid := r]> (cw_realities w)) (set_ticks n w).
Proof.
  unfold update_reality. intros (u1 & w1 & ->%io_Ok & H)%bind_Ok.
  apply bind_Ok in H as (o & w1 & [-> ->]%ask_Ok & H). destruct (_ !! _); [|done].
  apply modify_Ok in H as ->. by eexists.
Qed.

(** The record of what authority there is: Realities, manifests, revisions, tokens. *)
Definition same_grants (w w' : World) : Prop :=
  cw_realities w' = cw_realities w /\ cw_manifests w' = cw_manifests w /\
  cw_history w' = cw_history w /\ cw_tokens w' = cw_tokens w.
#[export] Instance same_grants_quiet : Quiet same_grants.
Proof.
  split; [|done]. split; [by intros w|]. intros w1 w2 w3 (?&?&?&?) (?&?&?&?). split_and!; congruence.
Qed.

(** Revoking credentials leaves that record alone. *)
Lemma revoke_reality_grants rid : stays (fun _ => True) same_grants (revoke_reality rid).
Proof.
  assert (forall p, stays (fun _ => True) same_grants (new_id p)) by done.
  assert (forall A (f : World -> result A), stays (fun _ => True) same_grants (fetch f)) by done.
  unfold revoke_reality, issued_credentials. quiet_tac. apply stays_iter; [apply _|]. intros c.
  unfold broker_revoke, remove_secret, revoke_issued_credential, effective_capability_manifest, record_event,
    append_capability_event. quiet_tac; try done.
Qed.
Lemma unpublish_grants rid : stays (fun _ => True) same_grants (attempt (unpublish rid)).
Proof. apply stays_attempt. unfold unpublish. quiet_tac. Qed.

(** The requests that a class of capabilities is about. *)
Definition concerns (capability : string) (q : CapabilityRequest) : bool :=
  match q with
  | NetworkRequest _ _ => bool_decide (capability = "network")
  | ProcessRequest _ => bool_decide (capability = "process")
  | CapabilityModel.CredentialRequest _ _ _ _ => bool_decide (capability = "credentials")
  | EffectRequested _ _ _ _ => bool_decide (capability = "effects")
  | FilesystemRequest _ _ | EnvironmentRequest _ => false
  end.

Lemma narrower_refl m : narrower m m.
Proof.
  split; try done; [|by right; right]. destruct (allowed_executables (cm_process m)); [by left|by right].
Qed.

Lemma revoke_class_narrower capability id now m next :
  revoke_class capability (next_revision id now m) = Some next ->
  narrower next m /\ cm_id next = id /\ cm_revision next = ((cm_revision m + 1) mod 2 ^ 32)%Z /\
  forall clock q, concerns capability q = true -> ~ granted clock next q.
Proof.
  pose proof (narrower_refl m) as [].
  unfold revoke_class. repeat case_decide; try done; intros [= <-]; subst; split_and!; try done.
  2,3,5,7: intros clock q Hq; rewrite <- allows_iff; by destruct q as [| | | | |[]].
  - split; try done. by left.
  - split; try done. apply list_subseteq_nil.
  - split; try done. by intros [].
Qed.

Lemma token_all_revoked rid now (ts : gmap string TokenRow) k t :
  (revoke_token rid now <$> ts) !! k = Some t -> tk_reality t = rid -> tk_revoked t <> None.
Proof.
  rewrite lookup_fmap, fmap_Some. intros (t0 & _ & ->). unfold revoke_token.
  destruct (bool_decide_reflect (tk_reality t0 = rid)) as [|Hne]; [|done].
  destruct (bool_decide_reflect (tk_revoked t0 = None)); done.
Qed.

(** What a revocation that returned has done, for the row it was given. *)
Lemma revoke_loaded_Ok rid capability r (w w' : World) : revoke_loaded rid capability r w = (Ok tt, w') ->
  exists previous id now next hash stored ts now',
    effective rid w = Some previous /\
    revoke_class capability (next_revision id now previous) = Some next /\ manifest_hash next = Ok hash /\
    cw_realities w' = <[rid := set_boundary (bind_manifest next hash (rr_boundary r)) r]> (cw_realities w) /\
    cw_history w' !! (rid, cm_revision next) = Some (mkHistory (cm_id next) None) /\
    cw_manifests w' !! cm_id next = Some (next, stored) /\
    cw_tokens w' = revoke_token rid now' <$> (ts : gmap string TokenRow).
Proof.
  unfold revoke_loaded.
  destruct (negb _); [done|]. intros (previous & w1 & [Hp ->]%effective_Ok & H)%bind_Ok.
  apply bind_Ok in H as (id & w1 & [= <- <-] & H). apply bind_Ok in H as (now & w1 & [= <- <-] & H).
  apply bind_Ok in H as (next & w1 & [Hn%ok_or_Ok ->]%lift_Ok & H).
  apply bind_Ok in H as (u1 & w1 & [_ ->]%lift_Ok & H). apply bind_Ok in H as (u2 & w1 & Hc & H).
  assert (cw_realities w1 = cw_realities w) as Hreal.
  { destruct (decide (capability = "credentials")); [|by injection Hc as _ <-].
    apply bind_Ok in Hc as (u3 & w2 & ->%io_Ok & Hc).
    match type of Hc with _ ?w0 = _ => destruct (revoke_reality_grants rid w0 Logic.I) as [_ (Hr & _)] end.
    by rewrite Hc in Hr. }
  apply bind_Ok in H as (hash & w2 & [Hh ->]%lift_Ok & H).
  apply bind_Ok in H as (u3 & w2 & (hash' & now & rows & n2 & _ & Hrows & ->)%insert_capability_manifest_Ok & H).
  apply bind_Ok in H as (u4 & w2 & (now' & n3 & ->)%revoke_capability_tokens_Ok & H).
  apply bind_Ok in H as (u5 & w2 & (n4 & ->)%update_reality_Ok & H).
  apply bind_Ok in H as (u6 & w2 & (e & n5 & -> & _)%record_event_Ok & H).
  apply bind_Ok in H as (u7 & w2 & Hu & H). injection H as <-.
  match type of Hu with _ ?w0 = _ => destruct (unpublish_grants rid w0 Logic.I) as [_ Hs] end.
  rewrite Hu in Hs. cbn in Hs. destruct Hs as (Hr' & Hman & Hhist & Htok).
  eexists previous, _, _, next, hash, hash', _, now'. split_and!; try done.
  - by rewrite Hr', Hreal.
  - rewrite Hhist. apply lookup_insert_eq.
  - by rewrite Hman.
  - exact Htok.
Qed.

(** Revoking a class of capabilities takes effect: when it returns, the next
    revision is the effective manifest, it grants nothing that the previous one did
    not and nothing at all of the class, the boundary of the Reality names exactly
    it, and every token of the Reality is revoked. *)
Theorem revoke_effective (rid capability : string) (w w' : World) (Hw : wf w)
    (H : revoke rid capability w = (Ok tt, w')) :
  exists r previous next hash,
    cw_realities w !! rid = Some r /\ effective rid w = Some previous /\
    effective rid w' = Some next /\ narrower next previous /\
    cm_revision next = ((cm_revision previous + 1) mod 2 ^ 32)%Z /\
    (forall now q, concerns capability q = true ->
       decision (evaluate now q next) = CapabilityDecision.Deny) /\
    manifest_hash next = Ok hash /\
    cw_realities w' !! rid = Some (set_boundary (bind_manifest next hash (rr_boundary r)) r) /\
    (forall k t, cw_tokens w' !! k = Some t -> tk_reality t = rid -> tk_revoked t <> None).
Proof.
  assert (Hw' : wf w').
  { destruct (revoke_stays wf kept rid capability w Hw) as [Hk _]. by rewrite H in Hk. }
  unfold revoke in H. apply bind_Ok in H as (r & w1 & [Hr ->]%reality_Ok & H).
  apply revoke_loaded_Ok in H as (previous & id & now & next & hash & stored & ts & now' & Hp & Hn & Hh & Hreal
    & Hhist & Hman & Htok).
  apply revoke_class_narrower in Hn as (Hnarrow & _ & Hrev & Hdeny).
  exists r, previous, next, hash. split_and!; try done.
  - by eapply effective_active.
  - intros clock q Hq. destruct (evaluate_exact_cases clock q next) as [[Hg _]|[_ ?]]; [|done].
    by destruct (Hdeny clock q Hq).
  - rewrite Hreal. apply lookup_insert_eq.
  - rewrite Htok. intros k t. apply token_all_revoked.
Qed.

(** Revoking is not serialized with freezing: [revoke] reads the row of the
    Reality, takes no lease on it and writes the row back, so a revocation that read
    the row before the Reality was frozen and returns afterwards leaves a Reality
    that is not frozen. *)
Theorem stale_revoke_unfreezes (rid capability : string) (r : RealityRow) (w w' : World)
    (Hu : eb_frozen (rr_boundary r) = false) (Hf : frozen_in w rid)
    (H : revoke_loaded rid capability r w = (Ok tt, w')) :
  ~ frozen_in w' rid.
Proof.
  apply revoke_loaded_Ok in H as (previous & id & now & next & hash & stored & ts & now' & _ & _ & _ & Hreal & _).
  intros (r' & Hr' & Hf'). rewrite Hreal, lookup_insert_eq in Hr'. injection Hr' as <-. cbn in Hf'. congruence.
Qed.

(** * Issued credentials *)

Lemma attempt_Ok {A} (m : eff A) (w : World) r w' : attempt m w = (Ok r, w') -> m w = (r, w').
Proof. unfold attempt. destruct (m w). by intros [= -> ->]. Qed.

Lemma write_secret_Ok id data (w : World) u w' : write_secret id data w = (Ok u, w') ->
  cw_secrets w !! id = None /\ exists n, w' = set_secrets (<[id := data]> (cw_secrets w)) (set_ticks n w).
Proof.
  unfold write_secret. intros (u1 & w1 & ->%io_Ok & H)%bind_Ok.
  apply bind_Ok in H as (o & w1 & [-> ->]%ask_Ok & H). cbn in H.
  destruct (cw_secrets w !! id) eqn:Hid; [done|].
  apply bind_Ok in H as (u2 & w1 & ->%modify_Ok & ->%io_Ok). split; [done|by eexists].
Qed.

Lemma insert_issued_credential_Ok c (w : World) u w' : insert_issued_credential c w = (Ok u, w') ->
  cw_credentials w !! ic_id c = None /\
  exists n, w' = set_credentials (<[ic_id c := c]> (cw_credentials w)) (set_ticks n w).
Proof.
  unfold insert_issued_credential. intros (u1 & w1 & ->%io_Ok & H)%bind_Ok.
  apply bind_Ok in H as (o & w1 & [-> ->]%ask_Ok & H). apply bind_Ok in H as (u2 & w1 & [Hn ->]%unique_Ok & H).
  apply bind_Ok in H as (o & w1 & [-> ->]%ask_Ok & H). apply bind_Ok in H as (u3 & w1 & [_ ->]%key_Ok & H).
  apply modify_Ok in H as ->. split; [done|by eexists].
Qed.

(** An issued credential is accounted for: it is issued only to an active
    container Reality bound to exactly this manifest, for a request the manifest
    grants and a secret of 1 to 65536 bytes; its secret is stored under a name that
    was free, its row is new and not revoked, the issue is recorded and no other
    secret or credential changes. Its scope and expiry, however, are those of the
    first entry of the manifest with that provider and name, which need not be the
    entry that grants the request. *)
Theorem broker_issue_sound (q : SecretRequest) (rid : string) (r : RealityRow) (m : CapabilityManifest)
    (w w' : World) (c : IssuedCredential) (H : broker_issue q rid r m w = (Ok c, w')) :
  eb_provider (rr_boundary r) = "container" /\ eb_frozen (rr_boundary r) = false /\
  (exists hash, manifest_hash m = Ok hash /\ bound_to (rr_boundary r) m hash = true) /\
  (0 < Z.of_nat (length (sr_secret q)) <= 65536)%Z /\
  granted (fun i => cap_clock (cw_ticks w + i)) m
    (CapabilityModel.CredentialRequest (sr_provider q) (sr_name q) (sr_resource q) (sr_permission q)) /\
  ic_reality c = rid /\ ic_provider c = sr_provider q /\ ic_name c = sr_name q /\ revoked_at c = None /\
  (cw_secrets w !! ic_id c = None /\ cw_secrets w' = <[ic_id c := sr_secret q]> (cw_secrets w)) /\
  (cw_credentials w !! ic_id c = None /\ cw_credentials w' = <[ic_id c := c]> (cw_credentials w)) /\
  (exists e, cw_events w' = cw_events w ++ [e] /\ ce_kind e = CapabilityEventKind.CredentialIssued /\
     ce_reality e = rid) /\
  exists configured, List.find (fun item => bool_decide (cc_provider item = sr_provider q) &&
      bool_decide (cc_name item = sr_name q)) (cm_credentials m) = Some configured /\
    ic_scope c = cc_scope configured /\ ic_expires_at c = cc_expires_at configured.
Proof.
  unfold broker_issue in H. apply bind_Ok in H as (u1 & w1 & [_ ->]%lift_Ok & H).
  apply bind_Ok in H as (hash & w1 & [Hh ->]%lift_Ok & H). cbv zeta in H.
  destruct (bool_decide_reflect (eb_provider (rr_boundary r) = "container")) as [Hc|]; [|done].
  destruct (eb_frozen (rr_boundary r)) eqn:Hf; [done|].
  destruct (bound_to (rr_boundary r) m hash) eqn:Hb; [|done]. cbn [negb orb] in H.
  destruct (bool_decide_reflect (sr_secret q = [])) as [|Hne]; [done|].
  destruct (bool_decide_reflect (65536 < Z.of_nat (length (sr_secret q)))%Z) as [|Hlen]; [done|]. cbn [orb] in H.
  apply bind_Ok in H as (ev & w1 & [= <- <-] & H).
  match type of H with context [evaluate ?clock ?request m] =>
    destruct (evaluate_exact_cases clock request m) as [[Hg Hd]|[_ Hd]]; rewrite Hd in H end; [|done].
  rewrite bool_decide_eq_true_2 in H by done. cbn [negb] in H.
  apply bind_Ok in H as (configured & w1 & [Hfind%ok_or_Ok ->]%lift_Ok & H).
  apply bind_Ok in H as (id & w1 & [= <- <-] & H).
  apply bind_Ok in H as (res & w1 & Hw%attempt_Ok & H). destruct res as [u2|e]; [|by apply bind_Ok in H as (?&?&_&?)].
  apply write_secret_Ok in Hw as (Hfree & n & ->).
  apply bind_Ok in H as (now & w1 & [= <- <-] & H).
  apply bind_Ok in H as (res & w1 & Hi%attempt_Ok & H). destruct res as [u3|e]; [|by apply bind_Ok in H as (?&?&_&?)].
  apply insert_issued_credential_Ok in Hi as (Hnew & n' & ->).
  apply bind_Ok in H as (res & w1 & He%attempt_Ok & H).
  destruct res as [u4|e]; [|by apply bind_Ok in H as (?&?&_&(?&?&_&(?&?&_&?)%bind_Ok)%bind_Ok)].
  apply record_event_Ok in He as (e & n'' & -> & He1 & _ & He2 & _). injection H as <- <-. cbn in *.
  split_and!; try done; [by exists hash|destruct (sr_secret q); cbn in *; [done|lia]|lia|by exists e|by exists configured].
Qed.
End outcome.
