(* ===== verification/CapabilityExample.v ===== *)
(** A concrete capability subsystem: one container Reality with one manifest, a
    clock that ticks, a file system that is a map and a signature that is a copy.
    The properties of the subsystem are applied to it. *)
From Stdlib Require Import Strings.Byte.
From S2P Require Import Prelude StateError Paths EconomicsModel EffectModel CapabilityModel.
From S2P Require Import CapabilityPolicy CapabilityAuthority Redaction CapabilityStore CapabilityToken.
From S2P Require Import CapabilityBroker CapabilityProxy CapabilityAdmin CapabilityLogic CapabilityFacts.
From S2P Require Import CapabilitySystem CapabilitySafety CapabilityOutcome.

Module CapabilityExamples.

(** * The surroundings *)

#[global] Instance filesystem_eq_dec : EqDecision FilesystemCapabilities.
Proof. solve_decision. Defined.
#[global] Instance process_eq_dec : EqDecision ProcessCapabilities.
Proof. solve_decision. Defined.
#[global] Instance network_eq_dec : EqDecision NetworkCapabilities.
Proof. solve_decision. Defined.
#[global] Instance environment_eq_dec : EqDecision EnvironmentCapabilities.
Proof. solve_decision. Defined.
#[global] Instance effect_caps_eq_dec : EqDecision EffectCapabilities.
Proof. solve_decision. Defined.
#[global] Instance limits_eq_dec : EqDecision ResourceLimits.
Proof. solve_decision. Defined.
#[global] Instance manifest_eq_dec : EqDecision CapabilityManifest.
Proof. solve_decision. Defined.

Fixpoint tally (n : nat) : string := match n with 0 => EmptyString | S k => "i" +:+ tally k end.

(** Two credentials of one name: the first has another resource and has expired. *)
Definition deploy (resource : string) (expires : Z) : CredentialCapability :=
  mkCredential "ci" "deploy" (mkCredentialScope resource) ["read"] (Some expires).
Definition limits : ResourceLimits :=
  mkLimits (cpu default_limits) (memory_mb default_limits) (pids default_limits) (timeout_ms default_limits) (Some 64%Z).
Definition manifest : CapabilityManifest :=
  mkManifest "capability-manifest-1" "custom" 1 workspace (mkProcess true [] [] (Some 256%Z))
    (mkNetwork NetworkMode.Unrestricted []) environment [deploy "prod" 1; deploy "test" 1000000]
    disabled_effects limits 0.
(** The manifest after its network is revoked, at the given draws. *)
Definition offline (n : nat) : CapabilityManifest :=
  default manifest (revoke_class "network"
    (next_revision ("capability-manifest-" +:+ tally n) (Z.of_nat (S n)) manifest)).

Definition coding : CapabilityManifest := base "coding" 0 "coding-offline".

(** The manifests that can be serialized, with their texts. *)
Definition catalogue : list (CapabilityManifest * string) :=
  (manifest, "manifest") :: (coding, "coding") ::
  ((fun n => (offline n, tally n)) <$> seq 0 40).
Definition serialize (l : list (CapabilityManifest * string)) (m : CapabilityManifest) : result string :=
  match List.find (fun row => bool_decide (row.1 = m)) l with
  | Some row => Ok row.2
  | None => Err (Json "unknown manifest")
  end.

#[export] Instance example_manifests : ManifestLibs := { manifest_json := serialize catalogue; blake3 := id }.
#[export] Instance example_manifest_laws : ManifestLaws.
Proof.
  assert (Hnd : NoDup (snd <$> catalogue)) by (eapply bool_decide_eq_true_1; by vm_compute).
  split. intros m m' data. cbn. revert Hnd. generalize catalogue. intros l Hnd.
  assert (Hin : forall k, serialize l k = Ok data -> exists i, l !! i = Some (k, data)).
  { intros k. unfold serialize. destruct (List.find _ l) as [[k' d]|] eqn:Hf; [|done]. intros [= ->].
    apply List.find_some in Hf as [Hk Heq%bool_decide_eq_true]. cbn in Heq. subst k'.
    by apply list_elem_of_In, list_elem_of_lookup in Hk. }
  intros [i Hi]%Hin [j Hj]%Hin. assert (i = j) as ->; [|congruence].
  eapply (NoDup_lookup _ _ _ data Hnd); by rewrite list_lookup_fmap, ?Hi, ?Hj.
Qed.

Definition seal (data : list byte) : list byte := take 64 (data ++ replicate 64 x00).
#[export] Instance example_tokens : TokenLibs := {
  claims_json c := Ok (bytes (tc_id c));
  ed25519_sign := seal;
  ed25519_verify data signature := bool_decide (seal data = signature);
  token_hash t := Ok (tc_id (claims t));
}.
#[export] Instance example_signatures : SignatureLaws.
Proof.
  split; intros data; [by apply bool_decide_eq_true_2|].
  unfold ed25519_sign, example_tokens, seal. rewrite length_take, length_app, length_replicate. lia.
Qed.

#[export] Instance example_clock : CapabilityEnv := {
  cap_clock := Z.of_nat; cap_fresh := tally; cap_fault _ := None }.

Definition files : Type := gmap string (list byte).
#[export] Instance example_paths (f : files) : PathHost := {
  path_exists p := bool_decide (p = "/srv/r1") || bool_decide (is_Some (f !! p));
  canonicalize p := if bool_decide (p = "/srv/r1") || bool_decide (is_Some (f !! p)) then Ok p
                    else Err (Io "No such file or directory");
}.
#[export] Instance example_files : HostFiles files := {
  host_home := "/home/hk";
  host_mkdir_all f p := (Ok tt, f);
  host_mkdir f p := (Ok tt, f);
  host_create f p := if bool_decide (is_Some (f !! p)) then (Err (Io "File exists"), f) else (Ok tt, <[p := []]> f);
  host_write f p data := (Ok tt, <[p := data]> f);
  host_remove f p := (Ok tt, delete p f);
  host_rmdir f p := (Ok tt, f);
}.
(** A command in the container changes a file of the workspace and prints a secret. *)
#[export] Instance example_host : ProxyHost files := {
  host_paths := example_paths;
  host_read f p := ok_or (f !! p) (Io "No such file or directory");
  host_list f p := Ok [];
  reserve_artifact_capacity _ _ f := (Ok "lease", <["/home/hk/lease" := []]> f);
  release_artifact_capacity _ f := delete "/home/hk/lease" f;
  run_container _ _ _ _ _ f :=
    (Ok (mkOutput (Some (mkExit true (Some 0%Z) None)) None None,
         (mkCapture (bytes "key=TOKEN-12345") false None, capture_default)),
     <["/srv/r1/a" := bytes "built"]> f);
}.
#[export] Instance example_runtime : RuntimeHost := { runtime_pause _ _ := Ok tt }.

(** * The start *)

Definition boundary : ExecutionBoundary :=
  mkBoundary "container" (container NetworkMode.Unrestricted) (Some "capability-manifest-1") (Some "manifest") 1
    None false.
Definition row : RealityRow := mkRealityRow "/srv/r1" false boundary.
Definition start : CapWorld files :=
  mkCapWorld files {["r1" := row]} {["r1" := mkRuntime "docker" "c1"]}
    {["capability-manifest-1" := (manifest, "manifest")]}
    {[("r1", 1%Z) := mkHistory "capability-manifest-1" None]} [] ∅ ∅ ∅ ∅
    {["/srv/r1/a" := bytes "one"]} 0.

Lemma start_wf : wf start.
Proof.
  split; cbn; try done.
  - intros id m h [<- [= <- <-]]%lookup_singleton_Some. by vm_compute.
  - intros rid rev h [[= <- <-] <-]%lookup_singleton_Some. split; [by eexists|]. by exists manifest, "manifest".
  - intros rid rev rev' h h' [[= _ <-] _]%lookup_singleton_Some [[= _ <-] _]%lookup_singleton_Some. done.
  - constructor.
  - set_solver.
Qed.

(** The outcome of a computation, and the world after it. *)
Definition value {A} (m : result A * CapWorld files) : option A :=
  match m.1 with Ok a => Some a | Err _ => None end.
Lemma value_Ok {A} (d : A) (p : result A * CapWorld files) :
  bool_decide (is_Some (value p)) = true -> p = (Ok (default d (value p)), p.2).
Proof. destruct p as [[a|e] w]; [done|]. by vm_compute. Qed.
Lemma unit_Ok (p : result unit * CapWorld files) : bool_decide (is_Some (value p)) = true -> p = (Ok tt, p.2).
Proof. by destruct p as [[[]|e] w]. Qed.
Definition no_token : SignedRealityCapabilityToken :=
  mkSigned (mkClaims EmptyString EmptyString EmptyString EmptyString 0 0 0 EmptyString []) EmptyString.

(** A token is issued; a file is written under it; the network is revoked. *)
Definition issued := issue_reality_token "r1" row start.
Definition token : SignedRealityCapabilityToken := default no_token (value issued).
Definition act (t : SignedRealityCapabilityToken) (r : RealityRow) :=
  execute [] "r1" r t (FileWrite "/workspace/a" (bytes "two")) "artifacts".
Definition written := act token row issued.2.
Definition revoked := revoke "r1" "network" written.2.
Definition frozen := freeze_command "r1" written.2.
Definition unfrozen := revoke_loaded "r1" "network" row frozen.2.

Example written_ok : value written = Some FileChanged /\
  cw_files written.2 !! "/srv/r1/a" = Some (bytes "two").
Proof. split; by vm_compute. Qed.
Example revoked_ok : revoked.1 = Ok tt /\ value (act token row revoked.2) = None.
Proof. split; by vm_compute. Qed.
Example unfrozen_ok : value frozen = Some (set_boundary (set_frozen boundary) row) /\ unfrozen.1 = Ok tt.
Proof. split; by vm_compute. Qed.

(** A command changes the workspace; its output is kept without the secret. *)
Definition built := execute [bytes "TOKEN-12345"] "r1" row token (Shell (mkCommand "make" [] ∅)) "/home/hk/a1" issued.2.
Example built_ok : bool_decide (is_Some (value built)) = true /\
  cw_files built.2 = {["/srv/r1/a" := bytes "built"; "/home/hk/a1/stdout.log" := bytes "key=[REDACTED]";
    "/home/hk/a1/stderr.log" := []]}.
Proof. split; by vm_compute. Qed.

(** The same as a run of the system. *)
Definition run_all (cs : list call) (w : CapWorld files) : CapWorld files :=
  foldl (fun w c => (run_call c w).2) w cs.
Lemma run_all_steps cs w : rtc step w (run_all cs w).
Proof. revert w. induction cs as [|c cs IH]; intros w; [done|]. eapply rtc_l; [apply (step_call c)|apply IH]. Qed.
Definition session : list call :=
  [IssueToken "r1" row; Execute [] "r1" row token (FileWrite "/workspace/a" (bytes "two")) "artifacts";
   Revoke "r1" "network"].
Definition revised : CapWorld files := run_all session start.

Lemma written_wf : wf written.2.
Proof.
  apply (execute_stays wf kept). apply (issue_reality_token_stays wf kept). apply start_wf.
Qed.
Lemma frozen_wf : wf frozen.2.
Proof. apply (freeze_command_stays wf kept), written_wf. Qed.
Lemma run_all_wf cs : wf (run_all cs start).
Proof. apply (run_keeps start _ (run_all_steps cs start) start_wf). Qed.

(** * The properties applied *)

Lemma capability_books_witness :
  length (cw_events revised) = 2 /\ wf revised /\ cw_manifests start ⊆ cw_manifests revised.
Proof.
  destruct (capability_books start revised start_wf (run_all_steps session start))
    as (H1 & H2 & _).
  split_and!; [by vm_compute|exact H1|exact H2].
Defined.

Lemma resolve_workspace_path_confined_witness :
  @resolve_workspace_path (example_paths (cw_files start)) "/srv/r1" "/workspace/b" = Ok "/srv/r1/b" /\
  well_named "/workspace/b".
Proof.
  assert (H : @resolve_workspace_path (example_paths (cw_files start)) "/srv/r1" "/workspace/b" = Ok "/srv/r1/b")
    by by vm_compute.
  split; [exact H|].
  by destruct (@resolve_workspace_path_confined (example_paths (cw_files start)) _ _ _ H) as (?&?&?&?&Hn&_).
Defined.

Lemma builtin_profiles_confined_witness :
  builtin_profile "coding" 0 "coding-offline" = Ok coding /\
  exists directory rest, components "/workspace/b" = RootDir :: Normal directory :: rest /\
    directory ∈ ["workspace"; "tmp"].
Proof.
  assert (Hm : builtin_profile "coding" 0 "coding-offline" = Ok coding) by by vm_compute.
  split; [exact Hm|].
  by destruct (builtin_profiles_confined "coding" "coding-offline" 0 coding (fun _ => 0%Z)
    (FilesystemRequest FilesystemOperation.Write "/workspace/b") Hm eq_refl) as [_ H].
Defined.

Lemma revoked_token_inert_witness :
  value (act token row (run_all (take 2 session) start)) = Some FileChanged /\
  revoked_in revised token /\ refused (act token row) (run_all [Freeze "r1"] revised).
Proof.
  assert (Hr : revoked_in revised token).
  { eexists _, _. split; [reflexivity|]. split; [vm_compute; reflexivity|discriminate]. }
  split; [by vm_compute|]. split; [exact Hr|].
  apply (revoked_token_inert revised (run_all [Freeze "r1"] revised) token (run_all_wf session) Hr
    (run_all_steps [Freeze "r1"] revised)).
Defined.

Lemma frozen_reality_inert_witness :
  frozen_in frozen.2 "r1" /\
  refused (execute_command "r1" ["ls"] "artifacts") (run_all [Revoke "r1" "process"] frozen.2).
Proof.
  assert (Hf : frozen_in frozen.2 "r1") by (eexists; split; [vm_compute; reflexivity|reflexivity]).
  split; [exact Hf|].
  destruct (frozen_reality_inert frozen.2 _ "r1" frozen_wf Hf
    (run_all_steps [Revoke "r1" "process"] _)) as (r & _ & _ & H & _). apply H.
Defined.

Lemma issued_token_verifies_witness :
  (token_issue "r1" row manifest 100 start).1 =
    Ok (default no_token (value (token_issue "r1" row manifest 100 start))) /\
  (token_verify (default no_token (value (token_issue "r1" row manifest 100 start))) "r1" row manifest
     RealityTokenOperation.Shell written.2).1 = Ok tt.
Proof.
  assert (Hi : token_issue "r1" row manifest 100 start =
    (Ok (default no_token (value (token_issue "r1" row manifest 100 start))),
     (token_issue "r1" row manifest 100 start).2)) by by apply value_Ok; vm_compute.
  split; [by rewrite Hi at 1|].
  destruct (issued_token_verifies "r1" row manifest 100 start _ written.2 _ RealityTokenOperation.Shell Hi)
    as (_ & _ & _ & H); [vm_compute; split; [discriminate|reflexivity]|]. exact H.
Defined.

Lemma revoke_effective_witness :
  revoked.1 = Ok tt /\ exists next, effective "r1" revoked.2 = Some next /\
    narrower next manifest.
Proof.
  assert (H : revoke "r1" "network" written.2 = (Ok tt, revoked.2)) by by apply unit_Ok; vm_compute.
  split; [by vm_compute|].
  destruct (revoke_effective "r1" "network" _ _ written_wf H)
    as (r & previous & next & hash & _ & Hp & Hn & Hnarrow & _).
  exists next. split.
  - rewrite <- Hn. by vm_compute.
  - assert (previous = manifest) as <-; [|exact Hnarrow].
    assert (Some previous = Some manifest) as [= ?]; [|done]. rewrite <- Hp. by vm_compute.
Defined.

Lemma stale_revoke_unfreezes_witness :
  frozen_in frozen.2 "r1" /\ ~ frozen_in unfrozen.2 "r1".
Proof.
  assert (Hf : frozen_in frozen.2 "r1") by (eexists; split; [vm_compute; reflexivity|reflexivity]).
  split; [exact Hf|].
  apply (stale_revoke_unfreezes "r1" "network" row frozen.2 unfrozen.2 eq_refl Hf). by apply unit_Ok; vm_compute.
Defined.

(** The request is granted by the second entry; what is issued has the resource and
    the expiry of the first, and is expired at once. *)
Definition ask_deploy : SecretRequest := mkSecretRequest "ci" "deploy" "test" "read" (bytes "s3cret").
Definition no_credential : IssuedCredential :=
  mkIssued EmptyString EmptyString EmptyString EmptyString (mkCredentialScope EmptyString) None EmptyString 0 None.
Definition deployed := broker_issue ask_deploy "r1" row manifest start.
Definition credential : IssuedCredential := default no_credential (value deployed).
Lemma broker_issue_sound_witness :
  ic_scope credential = mkCredentialScope "prod" /\ ic_expires_at credential = Some 1%Z /\
  issued_at credential = 5%Z /\
  granted (fun i => cap_clock (cw_ticks start + i)) manifest
    (CapabilityModel.CredentialRequest "ci" "deploy" "test" "read").
Proof.
  assert (H : broker_issue ask_deploy "r1" row manifest start = (Ok credential, deployed.2)) by by apply value_Ok; vm_compute.
  split; [by vm_compute|]. split; [by vm_compute|].
  split; [by vm_compute|].
  destruct (broker_issue_sound ask_deploy "r1" row manifest start _ _ H) as (_ & _ & _ & _ & Hg & _). exact Hg.
Defined.
End CapabilityExamples.
