(* ===== verification/PlanModel.v ===== *)
(** Data of execution plans: src/plan/model.rs, with the conditions of
    assurance/model.rs, the state claims of composition/model.rs, the sources of
    knowledge_runtime/model.rs and the capability a step needs
    (capability/model.rs). An instant or a duration is a number of nanoseconds; an
    id is its text. The request of an experiment template is its JSON. In a
    decision's context everything but what the evaluation of a plan reads is left out. *)
From S2P Require Import Prelude Semver Scope Hierarchy EconomicsModel EffectModel CapabilityModel.

(** * Enums *)

(** src/assurance/model.rs *)
Module PredicateOperator.
Inductive t := Equals | NotEquals | GreaterThan | GreaterThanOrEqual | LessThan | LessThanOrEqual |
  Exists | NotExists | Contains.
#[global] Instance eq_dec : EqDecision t.
Proof. solve_decision. Defined.
End PredicateOperator.

(** src/knowledge_runtime/model.rs *)
Module ContextValueSource.
Inductive t := Imported | AgentReported | UserProvided | AdapterObserved | RuntimeObserved |
  EffectAdapterObserved | ToolAttestation.
#[global] Instance eq_dec : EqDecision t.
Proof. solve_decision. Defined.
(** The derived order. *)
Definition discriminant (x : t) : Z :=
  match x with
  | Imported => 0 | AgentReported => 1 | UserProvided => 2 | AdapterObserved => 3
  | RuntimeObserved => 4 | EffectAdapterObserved => 5 | ToolAttestation => 6
  end%Z.
#[global] Instance ord : Ord t := key_ord discriminant.
#[global] Instance ord_laws : OrdLaws t.
Proof. apply key_ord_laws. by intros [] []. Qed.
End ContextValueSource.

(** src/composition/model.rs *)
Module StateClaimSource.
Inductive t := StepOutput | RuntimeObservation | EffectReceipt | ToolAttestation | UserProvided | AgentReported.
#[global] Instance eq_dec : EqDecision t.
Proof. solve_decision. Defined.
Definition trust (x : t) : ContextValueSource.t :=
  match x with
  | StepOutput => ContextValueSource.AdapterObserved
  | RuntimeObservation => ContextValueSource.RuntimeObserved
  | EffectReceipt => ContextValueSource.EffectAdapterObserved
  | ToolAttestation => ContextValueSource.ToolAttestation
  | UserProvided => ContextValueSource.UserProvided
  | AgentReported => ContextValueSource.AgentReported
  end.
End StateClaimSource.

(** src/epistemic/model.rs *)
Module DiversityClass.
Inductive t := Unknown | Low | Moderate | High.
#[global] Instance eq_dec : EqDecision t.
Proof. solve_decision. Defined.
End DiversityClass.

Module PlanStatus.
Inductive t := Proposed | Active | Valid | NeedsVerification | NeedsReplan | Recovering | Completed |
  Abandoned | Invalid.
#[global] Instance eq_dec : EqDecision t.
Proof. solve_decision. Defined.
End PlanStatus.

Module PlanStepStatus.
Inductive t := Pending | Proposed | Completed | Failed | Skipped.
#[global] Instance eq_dec : EqDecision t.
Proof. solve_decision. Defined.
End PlanStepStatus.

Module AssumptionSource.
Inductive t := InitialObservation | AgentReported | ToolAttestation | EffectAdapter | UserProvided |
  KnowledgeArtifact | CompositionContract | Derived.
#[global] Instance eq_dec : EqDecision t.
Proof. solve_decision. Defined.
End AssumptionSource.

Module AssumptionValidity.
Inductive t := Supported | Contradicted | Unknown | Stale.
#[global] Instance eq_dec : EqDecision t.
Proof. solve_decision. Defined.
(** [{:?}] *)
Definition debug (x : t) : string :=
  match x with
  | Supported => "Supported" | Contradicted => "Contradicted" | Unknown => "Unknown" | Stale => "Stale"
  end.
End AssumptionValidity.

Module CommitmentGateStatus.
Inductive t := Open | Blocked | VerificationRequired | ApprovalRequired.
#[global] Instance eq_dec : EqDecision t.
Proof. solve_decision. Defined.
End CommitmentGateStatus.

Module PlanValidityStatus.
Inductive t := Valid | ValidWithWarnings | VerificationRequired | ReplanRequired | RecoveryRequired |
  Invalid | Unknown.
#[global] Instance eq_dec : EqDecision t.
Proof. solve_decision. Defined.
End PlanValidityStatus.

Module PlanValidityBlocker.
Inductive t := ContradictedAssumption | StaleCriticalAssumption | UnknownCriticalAssumption |
  ViolatedInvariant | MissingCapability | MissingRecovery | InvalidatedKnowledge |
  CommitmentPointConflict | ExternalStateDrift | KnowledgeConflict | MissingDependency |
  ApprovalRequired | InsufficientDiversity | UnsupportedStep.
#[global] Instance eq_dec : EqDecision t.
Proof. solve_decision. Defined.
End PlanValidityBlocker.

Module CheckpointStatus.
Inductive t := Satisfied | VerificationRequired | Failed | Unknown.
#[global] Instance eq_dec : EqDecision t.
Proof. solve_decision. Defined.
End CheckpointStatus.

Module AssumptionDriftKind.
Inductive t := ValueChanged | EvidenceStale | SourceChanged | ConfidenceReduced | Contradicted | Unknown.
#[global] Instance eq_dec : EqDecision t.
Proof. solve_decision. Defined.
End AssumptionDriftKind.

Module PlanRevisionReason.
Inductive t := AssumptionDrift | InvariantViolation | KnowledgeChange | FailedStep | Forecast |
  UserChange | ApprovalChange | ExternalStateDrift.
#[global] Instance eq_dec : EqDecision t.
Proof. solve_decision. Defined.
End PlanRevisionReason.

Module PlanRunOutcome.
Inductive t := Success | Failure | AppropriateReplan | UnnecessaryReplan | Abandoned | Inconclusive.
#[global] Instance eq_dec : EqDecision t.
Proof. solve_decision. Defined.
End PlanRunOutcome.

(** * Observed state *)

#[export] Instance artifact_ref_eq_dec : EqDecision KnowledgeArtifactRef.
Proof. solve_decision. Defined.
Record ExternalStateVersion := mkExternalVersion { ev_resource : string; ev_version : string }.
Record StateFreshness := mkFreshness {
  observed_at : Z;
  expires_at : option Z;
  fr_step : option string;
  external_version : option ExternalStateVersion;
}.
Record StateClaim := mkClaim {
  claim_key : string;
  claim_value : ScopeValue;
  claim_source : StateClaimSource.t;
  claim_freshness : StateFreshness;
}.
#[export] Instance external_version_eq_dec : EqDecision ExternalStateVersion.
Proof. solve_decision. Defined.
#[export] Instance freshness_eq_dec : EqDecision StateFreshness.
Proof. solve_decision. Defined.
#[export] Instance claim_eq_dec : EqDecision StateClaim.
Proof. solve_decision. Defined.

Inductive StateFreshnessRequirement :=
  | NoRequirement
  | SameStep
  | BeforeNextMutation
  | MaxAge (max : Z)
  | AuthoritativeRefreshRequired.

(** * Conditions *)

Inductive EffectPredicate :=
  | CommittedEffect
  | NoCommittedEffect
  | ExperimentalEffectLeak
  | NoExperimentalEffectLeak
  | CommitAuthorityExternalized
  | CommitAuthorityNotExternalized
  | HasEffectKind (effect_kind : string)
  | NoEffectKind (effect_kind : string).

Inductive CapabilityPredicate :=
  | NoAmbientCredentials
  | NoEffectCommit
  | MaximumNotExceeded
  | DeclaredToolManifestsOnly
  | MinimizationValidated.

(** src/assurance/model.rs; a component is one of its contract subjects. *)
Inductive ContractSubject :=
  | SubjectSkill (id : string)
  | SubjectTool (id : string)
  | SubjectRecovery (id : string)
  | SubjectEffectPlan (id : string).
#[export] Instance subject_eq_dec : EqDecision ContractSubject.
Proof. solve_decision. Defined.

Record ComponentRevision := mkComponentRevision {
  cr_component : ContractSubject;
  cr_revision : string;
  cr_content_hash : string;
}.
#[export] Instance component_revision_eq_dec : EqDecision ComponentRevision.
Proof. solve_decision. Defined.

Inductive PlanComponentRevision :=
  | PinExecutable (revision : ComponentRevision)
  | PinComposition (id : string) (revision : Z) (hash : string).
#[export] Instance pin_eq_dec : EqDecision PlanComponentRevision.
Proof. solve_decision. Defined.

Record ApprovalRequirement := mkApproval {
  ap_id : string;
  ap_effects : list string;
  ap_max_age : option Z;
}.

Section data.
Context `{SerdeJson}.

Inductive BehavioralCondition :=
  | EvaluatorCheck (evaluator expression : string)
  | StatePredicate (path : string) (operator : PredicateOperator.t) (value : Value)
  | OnEffects (predicate : EffectPredicate)
  | OnCapabilities (predicate : CapabilityPredicate)
  | CustomCondition (kind : string) (payload : Value).

(** src/capability/model.rs *)
Inductive ExecutionCapability :=
  | FilesystemRead (scope : FilesystemScope)
  | FilesystemWrite (scope : FilesystemScope)
  | ProcessExecute (pattern : string)
  | NetworkConnect (endpoint : NetworkEndpointPattern)
  | EnvironmentRead (name : string)
  | CredentialUse (credential : CredentialCapability)
  | EffectPropose (scope : EffectCapabilityScope)
  | EffectPrepare (scope : EffectCapabilityScope)
  | EffectCommit (scope : EffectCapabilityScope)
  | CustomCapability (kind : string) (payload : Value).
#[export] Instance execution_capability_eq_dec : EqDecision ExecutionCapability.
Proof. solve_decision. Defined.

Record ObservationSpec := mkObservation {
  ob_key : string;
  ob_condition : BehavioralCondition;
  ob_freshness : StateFreshnessRequirement;
}.

(** * The plan *)

Inductive PlanStepKind :=
  | StepSkill (id : string)
  | StepComposition (id : string)
  | StepTool (id : string)
  | StepEffect (id : string)
  | StepObserve (spec : ObservationSpec)
  | StepExperiment (template : string) (request : option Value)
  | StepApproval (requirement : ApprovalRequirement)
  | StepCustom (kind : string).

Record PlanStep := mkStep {
  responsible_role : option string;
  executing_member : option string;
  step_id : string;
  step_kind : PlanStepKind;
  step_dependencies : list string;
  required_assumptions : list string;
  required_invariants : list string;
  expected_observations : list StateClaim;
  step_status : PlanStepStatus.t;
  step_severity : Severity.t;
  required_capabilities : list ExecutionCapability;
}.

Record AssumptionFreshness := mkAssumptionFreshness {
  af_observed_at : Z;
  af_requirement : StateFreshnessRequirement;
  af_status : FreshnessStatus.t;
}.
Record PlanAssumption := mkAssumption {
  assumption_id : string;
  statement : string;
  predicate : BehavioralCondition;
  assumption_source : AssumptionSource.t;
  required_by : list string;
  validity : AssumptionValidity.t;
  freshness : AssumptionFreshness;
  assumption_severity : Severity.t;
  assumption_evidence : list EvidenceRef;
}.

Inductive PlanInvariantScope :=
  | EntirePlan
  | Between (start end_ : string)
  | UntilCheckpoint (checkpoint : string)
  | UntilCommitmentPoint (point : string)
  | AfterCommitmentPoint (point : string).
Record PlanInvariant := mkInvariant {
  invariant_id : string;
  condition : BehavioralCondition;
  invariant_scope : PlanInvariantScope;
  invariant_severity : Severity.t;
  invariant_evidence : list EvidenceRef;
}.

Record PlanCheckpoint := mkCheckpoint {
  checkpoint_id : string;
  cp_after_step : option string;
  required_observations : list ObservationSpec;
  assumptions_to_revalidate : list string;
  invariants_to_verify : list string;
  decision_required : bool;
}.
Record CommittedConsequence := mkConsequence { consequence_effect : string; consequence_description : string }.
Record PlanCommitmentPoint := mkPoint {
  point_id : string;
  after_step : string;
  consequences : list CommittedConsequence;
  assumptions_invalidated : list string;
  recoveries_lost : list string;
  new_recovery_requirements : list string;
}.
Record CommitmentGate := mkGate {
  commitment_point : string;
  gate_assumptions : list string;
  gate_invariants : list string;
  required_approvals : list ApprovalRequirement;
  required_recoveries : list string;
  diversity_claim : option string;
  minimum_diversity : option DiversityClass.t;
}.

Record PlanFreshnessPolicy := mkFreshnessPolicy {
  default_max_age : option Z;
  critical_max_age : option Z;
  commitment_point_max_age : option Z;
}.
Definition default_freshness_policy : PlanFreshnessPolicy :=
  mkFreshnessPolicy (Some (1800 * 10 ^ 9)%Z) (Some (300 * 10 ^ 9)%Z) (Some (60 * 10 ^ 9)%Z).

(** [KnowledgeRevisionRef] is an artifact and a revision. *)
Record PlanKnowledgeDependency := mkKnowledgeDependency {
  kd_artifact : KnowledgeArtifactRef;
  kd_revision : Z;
  dependent_steps : list string;
}.
Record PlanGoal := mkGoal { description : string; goal_family : option string }.

Record ExecutionPlan := mkPlan {
  plan_id : string;
  goal : PlanGoal;
  revision : Z;
  steps : list PlanStep;
  assumptions : list PlanAssumption;
  invariants : list PlanInvariant;
  checkpoints : list PlanCheckpoint;
  commitment_points : list PlanCommitmentPoint;
  commitment_gates : list CommitmentGate;
  knowledge_dependencies : list PlanKnowledgeDependency;
  freshness_policy : PlanFreshnessPolicy;
  component_revisions : gmap string PlanComponentRevision;
  plan_status : PlanStatus.t;
  plan_created_at : Z;
}.
End data.

(** * The state of a run *)

Record InvariantEvaluation := mkInvariantEvaluation {
  ie_invariant : string;
  satisfied : option bool;
  ie_reason : string;
}.
Record CompositionCommitState := mkCommitState {
  reached : list string;
  cs_committed_effects : list string;
  cs_compensated_effects : list string;
}.
Record PlanState := mkState {
  st_plan : string;
  st_revision : Z;
  completed_steps : list string;
  current_step : option string;
  observations : list StateClaim;
  assumption_states : gmap string AssumptionValidity.t;
  invariant_states : gmap string InvariantEvaluation;
  crossed_commitment_points : list string;
  committed_effects : list string;
  external_versions : gmap string string;
  mutation_epoch : Z;
  observation_epochs : gmap string Z;
  reached_checkpoints : list string;
  authorizations : list string;
  nested_commitments : gmap string CompositionCommitState;
}.

Section assessment.
Context `{SerdeJson}.

(** [PlanState::initial]. *)
Definition initial (p : ExecutionPlan) : PlanState :=
  mkState (plan_id p) (revision p) []
    (step_id <$> List.find (fun s => bool_decide (step_dependencies s = [])) (steps p))
    [] ∅ ∅ [] [] ∅ 0 ∅ [] [] ∅.

(** * Assessments *)

Record AssumptionAssessment := mkAssumptionAssessment {
  aa_assumption : string;
  aa_validity : AssumptionValidity.t;
  required_for_next : bool;
  affected_steps : list string;
  aa_reason : string;
}.
Record CheckpointEvaluation := mkCheckpointEvaluation {
  ce_checkpoint : string;
  ce_status : CheckpointStatus.t;
  missing : list string;
}.
Record CommitmentGateEvaluation := mkGateEvaluation {
  ge_point : string;
  ge_status : CommitmentGateStatus.t;
  ge_reasons : list string;
}.

Inductive PlanValidityRecommendation :=
  | Continue
  | Verify (spec : ObservationSpec)
  | Replan
  | Recover (id : string)
  | RunExperiment (template : string) (request : option Value)
  | RequireApproval
  | Abstain.

Record PlanValidityAssessment := mkAssessment {
  as_id : string;
  as_plan : string;
  as_revision : Z;
  as_status : PlanValidityStatus.t;
  as_assumptions : list AssumptionAssessment;
  as_invariants : list InvariantEvaluation;
  as_checkpoints : list CheckpointEvaluation;
  as_gates : list CommitmentGateEvaluation;
  next_step : option string;
  blockers : list PlanValidityBlocker.t;
  recommendations : list PlanValidityRecommendation;
  reasons : list string;
  state_hash : string;
  assessed_at : Z;
}.

Record AssumptionDrift := mkDrift {
  drift_assumption : string;
  drift_previous : StateClaim;
  drift_current : option StateClaim;
  drift : AssumptionDriftKind.t;
  detected_at : Z;
}.

Record PlanRevalidationSet := mkRevalidation {
  rv_assumptions : list string;
  rv_steps : list string;
  rv_invariants : list string;
}.
Record PlanDependencyIndex := mkIndex {
  assumptions_by_step : gmap string (list string);
  steps_by_assumption : gmap string (list string);
  invariants_by_step : gmap string (list string);
}.

(** What an evaluation is told about the rest of the system. *)
Record PlanEvaluationInputs := mkInputs {
  in_now : option Z;
  valid_approvals : gset string;
  available_recoveries : gset string;
  changed_knowledge : gset string;
  invalid_components : gset string;
  low_diversity : gset string;
  nested_blockers : gmap string (list string);
  nested_commitment_steps : gset string;
}.

(** Of a [RuntimeKnowledgeResolution] its snapshot and its conflicts, and of a
    [RuntimeDecisionContext] what the store and the evaluation of plans read. *)
Record OperationalKnowledge := mkOperational {
  snapshot_id : string;
  unresolved_conflicts : list KnowledgeConflict;
}.
Record RuntimeDecisionContext := mkRuntimeContext {
  available_capabilities : list ExecutionCapability;
  operational_knowledge : option OperationalKnowledge;
}.

(** * The runs *)

Record PlanObservation := mkPlanObservation {
  po_id : string;
  po_source : StateClaimSource.t;
  po_claims : list StateClaim;
  captured_at : Z;
  po_attestation : option string;
}.
Record PlanRevisionRef := mkRevisionRef { ref_plan : string; ref_revision : Z }.
Record PlanRun := mkRun {
  trajectory : option string;
  run_id : string;
  run_plan : PlanRevisionRef;
  run_state : PlanState;
  started_at : Z;
  finished_at : option Z;
  outcome : option PlanRunOutcome.t;
}.
Record PlanStepRun := mkStepRun {
  composition_evidence : option string;
  sr_experiment : option string;
  sr_run : string;
  sr_step : string;
  decision : string;
  sr_attestation : option string;
  sr_receipts : list string;
  completed_at : Z;
}.
Record PlanRecoveryContext := mkRecoveryContext {
  rc_state : PlanState;
  failure_step : option string;
  rc_committed_effects : list string;
  crossed_commitments : list string;
}.
End assessment.
