(* ===== verification/PlanValidity.v ===== *)
(** Whether a plan is well-formed and whether its next step may be taken:
    src/plan/validity.rs, with [condition_value] and [trusted_state] of
    composition/analysis.rs. *)
From S2P Require Import Prelude Worklist Semver Scope Hierarchy EconomicsModel EffectModel CapabilityModel PlanModel.

(** [Iterator::max_by_key]: the last of the greatest elements. *)
Definition max_by_key {A K} `{Ord K} (f : A -> K) (l : list A) : option A :=
  match l with
  | [] => None
  | x :: l' => Some (foldl (fun x y => match ord_cmp (f x) (f y) with Gt => x | _ => y end) x l')
  end.

(** Severity [High] and above. *)
Definition severe (s : Severity.t) : bool := bool_decide (ord_le Severity.High s).
(** Trust [AdapterObserved] and above. *)
Definition trusted (c : StateClaim) : bool :=
  bool_decide (ord_le ContextValueSource.AdapterObserved (StateClaimSource.trust (claim_source c))).
Definition trust_of (c : StateClaim) : ContextValueSource.t := StateClaimSource.trust (claim_source c).

(** [str::contains]. *)
Definition str_contains (hay needle : string) : bool :=
  match String.index 0 needle hay with Some _ => true | None => false end.

(** The version of the external resource a claim depends on is the recorded one. *)
Definition version_current (versions : gmap string string) (c : StateClaim) : bool :=
  match external_version (claim_freshness c) with
  | Some v => bool_decide (versions !! ev_resource v = Some (ev_version v))
  | None => true
  end.
(** Observed in the past, not expired, of the current external version. *)
Definition current (versions : gmap string string) (now : Z) (c : StateClaim) : bool :=
  negb (bool_decide (now < observed_at (claim_freshness c))%Z ||
        match expires_at (claim_freshness c) with Some e => bool_decide (e <= now)%Z | None => false end ||
        negb (version_current versions c)).

(** * Trusted state: composition/analysis.rs *)

Definition group_claim (versions : gmap string string) (now : Z) (m : gmap string (list StateClaim))
    (c : StateClaim) : gmap string (list StateClaim) :=
  if negb (current versions now c) then m
  else if negb (trusted c) then m
  else <[claim_key c := default [] (m !! claim_key c) ++ [c]]> m.

Fixpoint take_while {A} (f : A -> bool) (l : list A) : list A :=
  match l with
  | x :: l' => if f x then x :: take_while f l' else []
  | [] => []
  end.

(** The value on which the most trusted claims agree; a group is never empty. *)
Definition agreed_value (group : list StateClaim) : option ScopeValue :=
  match sort_by_key (fun c => mkReverse (trust_of c)) group with
  | [] => None
  | first :: rest =>
      if forallb (fun v => bool_decide (claim_value v = claim_value first))
          (take_while (fun v => bool_decide (trust_of v = trust_of first)) (first :: rest))
      then Some (claim_value first) else None
  end.
Definition add_agreed (m : gmap string ScopeValue) (entry : string * list StateClaim) : gmap string ScopeValue :=
  match agreed_value entry.2 with Some v => <[entry.1 := v]> m | None => m end.
Definition trusted_state (claims : list StateClaim) (versions : gmap string string) (now : Z) : KnowledgeContext :=
  Scope.mkContext (foldl add_agreed ∅ (btree_map (foldl (group_claim versions now) ∅ claims))).

Section validity.
Context `{SerdeJson}.

(** [json!(v) == *value]. *)
Definition json_equals (actual : ScopeValue) (value : Value) : bool :=
  match actual, value_view value with
  | SString v, VString s | SVersion v, VString s => bool_decide (v = s)
  | SInteger n, VNumber (Some m) => bool_decide (n = m)
  | SBoolean b, VBool c => Bool.eqb b c
  | _, _ => false
  end.
(** [json!(v).as_i64()] and [as_str()]. *)
Definition scope_as_i64 (actual : ScopeValue) : option Z :=
  match actual with SInteger n => Some n | _ => None end.
Definition scope_as_str (actual : ScopeValue) : option string :=
  match actual with SString v | SVersion v => Some v | _ => None end.
Definition value_as_i64 (value : Value) : option Z :=
  match value_view value with VNumber n => n | _ => None end.
Definition value_as_str (value : Value) : option string :=
  match value_view value with VString s => Some s | _ => None end.

Definition compare_integers (test : Z -> Z -> bool) (actual : ScopeValue) (value : Value) : option bool :=
  a ← scope_as_i64 actual; b ← value_as_i64 value; Some (test a b).

Definition condition_value (condition : BehavioralCondition) (state : KnowledgeContext) : option bool :=
  match condition with
  | StatePredicate path operator value =>
      let current := Scope.values state !! path in
      match operator with
      | PredicateOperator.Exists => (fun _ => true) <$> current
      | PredicateOperator.NotExists => (fun _ => false) <$> current
      | _ =>
          actual ← current;
          match operator with
          | PredicateOperator.Equals => Some (json_equals actual value)
          | PredicateOperator.NotEquals => Some (negb (json_equals actual value))
          | PredicateOperator.GreaterThan => compare_integers (fun a b => b <? a)%Z actual value
          | PredicateOperator.GreaterThanOrEqual => compare_integers (fun a b => b <=? a)%Z actual value
          | PredicateOperator.LessThan => compare_integers (fun a b => a <? b)%Z actual value
          | PredicateOperator.LessThanOrEqual => compare_integers (fun a b => a <=? b)%Z actual value
          | PredicateOperator.Contains =>
              hay ← scope_as_str actual; needle ← value_as_str value; Some (str_contains hay needle)
          | _ => None
          end
      end
  | _ => None
  end.

(** * Well-formed plans *)

Definition reject (b : bool) (message : string) : result unit :=
  if b then Err (InvalidInput message) else Ok tt.
(** Some element is not in the set. *)
Definition any_missing (l : list string) (s : gset string) : bool :=
  existsb (fun x => negb (bool_decide (x ∈ s))) l.
Definition ids {A} (key : A -> string) (l : list A) : gset string := list_to_set (key <$> l).
Definition duplicated {A} (key : A -> string) (l : list A) : bool := negb (size (ids key l) =? length l).

Definition check_bounds (plan : ExecutionPlan) : result unit :=
  reject (bool_decide (revision plan = 0%Z) || (length (steps plan) =? 0) || (100 <? length (steps plan)) ||
          blank (description (goal plan)) || (1000 <? length (assumptions plan)) ||
          (1000 <? length (invariants plan)))
    "Plan requires a goal, positive revision, 1..100 steps and bounded assumptions/invariants".

Definition check_freshness (plan : ExecutionPlan) : result unit :=
  let policy := freshness_policy plan in
  match default_max_age policy, critical_max_age policy, commitment_point_max_age policy with
  | Some default, Some critical, Some commitment =>
      reject (bool_decide (commitment = 0)%Z || bool_decide (critical < commitment)%Z ||
              bool_decide (default < critical)%Z)
        "Freshness limits must be positive and stricter at commitment"
  | _, _, _ => Err (InvalidInput "Bounded plan freshness limits are required")
  end.

Definition check_identities (plan : ExecutionPlan) : result unit :=
  reject (duplicated step_id (steps plan) || duplicated assumption_id (assumptions plan) ||
          duplicated invariant_id (invariants plan) || duplicated checkpoint_id (checkpoints plan) ||
          duplicated point_id (commitment_points plan))
    "Duplicate plan identities".

Definition step_ids (plan : ExecutionPlan) : gset string := ids step_id (steps plan).
Definition assumption_ids (plan : ExecutionPlan) : gset string := ids assumption_id (assumptions plan).
Definition invariant_ids (plan : ExecutionPlan) : gset string := ids invariant_id (invariants plan).
Definition checkpoint_ids (plan : ExecutionPlan) : gset string := ids checkpoint_id (checkpoints plan).
Definition point_ids (plan : ExecutionPlan) : gset string := ids point_id (commitment_points plan).

Definition check_step (plan : ExecutionPlan) (s : PlanStep) : result unit :=
  reject (existsb (fun d => bool_decide (d = step_id s) || negb (bool_decide (d ∈ step_ids plan)))
            (step_dependencies s) ||
          any_missing (required_assumptions s) (assumption_ids plan) ||
          any_missing (required_invariants s) (invariant_ids plan))
    "Dangling plan dependency".

(** The loop over [done]; a turn per step suffices. *)
Definition check_acyclic (plan : ExecutionPlan) : result unit :=
  match order_items step_id step_dependencies (length (steps plan)) (size (step_ids plan)) (steps plan) ∅ [] with
  | Some _ => Ok tt
  | None => Err (InvalidInput "Plan dependency cycle")
  end.

Definition check_assumption (plan : ExecutionPlan) (a : PlanAssumption) : result unit :=
  reject (any_missing (required_by a) (step_ids plan)) "Assumption references a missing step".

Definition check_checkpoint (plan : ExecutionPlan) (c : PlanCheckpoint) : result unit :=
  reject (match cp_after_step c with Some s => negb (bool_decide (s ∈ step_ids plan)) | None => false end ||
          any_missing (assumptions_to_revalidate c) (assumption_ids plan) ||
          any_missing (invariants_to_verify c) (invariant_ids plan))
    "Checkpoint has missing dependencies".

Definition check_point (plan : ExecutionPlan) (p : PlanCommitmentPoint) : result unit :=
  reject (negb (bool_decide (after_step p ∈ step_ids plan)) ||
          any_missing (assumptions_invalidated p) (assumption_ids plan) ||
          negb (existsb (fun g => bool_decide (commitment_point g = point_id p)) (commitment_gates plan)))
    "Commitment requires a valid step and explicit gate".

Definition check_gate (plan : ExecutionPlan) (gates : gset string) (g : CommitmentGate) : result (gset string) :=
  _ ← reject (negb (bool_decide (commitment_point g ∈ point_ids plan)) ||
              bool_decide (commitment_point g ∈ gates) ||
              any_missing (gate_assumptions g) (assumption_ids plan) ||
              any_missing (gate_invariants g) (invariant_ids plan))
        "Invalid commitment gate";
  Ok ({[commitment_point g]} ∪ gates).

(** [for x in l { check(x)? }]. *)
Definition check_all {A} (check : A -> result unit) (l : list A) : result unit :=
  result_foldl (fun _ x => check x) tt l.

(** The dependencies of the first step of that id. *)
Definition dependencies_of (plan : ExecutionPlan) (id : string) : list string :=
  match List.find (fun s => bool_decide (step_id s = id)) (steps plan) with
  | Some s => step_dependencies s
  | None => []
  end.
(** Every step is visited once and pushes its dependencies once. *)
Definition ancestors (plan : ExecutionPlan) (id : string) : run (gset string) :=
  reach_loop (dependencies_of plan) (S (sum_list (length ∘ step_dependencies <$> steps plan))) [id] ∅.

Definition scope_valid (plan : ExecutionPlan) (scope : PlanInvariantScope) : run bool :=
  match scope with
  | EntirePlan => Ret true
  | Between start end_ =>
      above ← ancestors plan end_;
      Ret (bool_decide (start ∈ step_ids plan) && bool_decide (end_ ∈ step_ids plan) &&
           negb (bool_decide (start = end_)) && bool_decide (start ∈ above))
  | UntilCheckpoint c => Ret (bool_decide (c ∈ checkpoint_ids plan))
  | UntilCommitmentPoint c | AfterCommitmentPoint c => Ret (bool_decide (c ∈ point_ids plan))
  end.
Fixpoint check_scopes (plan : ExecutionPlan) (l : list PlanInvariant) : run (result unit) :=
  match l with
  | [] => Ret (Ok tt)
  | i :: l' =>
      valid ← scope_valid plan (invariant_scope i);
      if (valid : bool) then check_scopes plan l' else Ret (Err (InvalidInput "Invalid plan invariant scope"))
  end.

Definition check_knowledge (plan : ExecutionPlan) (d : PlanKnowledgeDependency) : result unit :=
  reject (any_missing (dependent_steps d) (step_ids plan)) "Knowledge dependency references missing step".

(** The checks before the scopes of invariants. *)
Definition check_references (plan : ExecutionPlan) : result unit :=
  _ ← check_bounds plan;
  _ ← check_freshness plan;
  _ ← check_identities plan;
  _ ← check_all (check_step plan) (steps plan);
  _ ← check_acyclic plan;
  _ ← check_all (check_assumption plan) (assumptions plan);
  _ ← check_all (check_checkpoint plan) (checkpoints plan);
  _ ← check_all (check_point plan) (commitment_points plan);
  _ ← result_foldl (check_gate plan) ∅ (commitment_gates plan);
  Ok tt.

(** The assumptions a step needs: its own, and those that name it. *)
Definition step_assumptions (plan : ExecutionPlan) (s : PlanStep) : gset string :=
  list_to_set (required_assumptions s) ∪
  ids assumption_id (List.filter (fun a => bool_decide (step_id s ∈ required_by a)) (assumptions plan)).
Definition empty_index : PlanDependencyIndex := mkIndex ∅ ∅ ∅.
Definition push_step (s : PlanStep) (m : gmap string (list string)) (id : string) : gmap string (list string) :=
  <[id := default [] (m !! id) ++ [step_id s]]> m.
Definition index_step (plan : ExecutionPlan) (index : PlanDependencyIndex) (s : PlanStep) : PlanDependencyIndex :=
  let required := btree_set (step_assumptions plan s) in
  mkIndex (<[step_id s := required]> (assumptions_by_step index))
    (foldl (push_step s) (steps_by_assumption index) required)
    (<[step_id s := required_invariants s]> (invariants_by_step index)).

Definition validate_plan (plan : ExecutionPlan) : run (result PlanDependencyIndex) :=
  and_then (Ret (check_references plan)) (fun _ =>
  and_then (check_scopes plan (invariants plan)) (fun _ =>
  and_then (Ret (check_all (check_knowledge plan) (knowledge_dependencies plan))) (fun _ =>
  Ret (Ok (foldl (index_step plan) empty_index (steps plan)))))).

(** * Assumptions *)

Definition predicate_key (condition : BehavioralCondition) : option string :=
  match condition with StatePredicate path _ _ => Some path | _ => None end.

(** The observation was made in the current mutation epoch. *)
Definition this_epoch (state : PlanState) (c : StateClaim) : bool :=
  bool_decide (observation_epochs state !! claim_key c = Some (mutation_epoch state)).
Definition authoritative (source : StateClaimSource.t) : bool :=
  match source with
  | StateClaimSource.RuntimeObservation | StateClaimSource.EffectReceipt | StateClaimSource.ToolAttestation => true
  | _ => false
  end.
Definition claim_fresh (claim : StateClaim) (requirement : StateFreshnessRequirement) (state : PlanState)
    (now : Z) (max_age : option Z) : bool :=
  if negb (current (external_versions state) now claim) then false
  else
    let age := Z.max 0 (now - observed_at (claim_freshness claim)) in
    if match max_age with Some max => bool_decide (max < age)%Z | None => false end then false
    else match requirement with
    | NoRequirement => true
    | MaxAge max => bool_decide (age <= max)%Z
    | SameStep | BeforeNextMutation => this_epoch state claim
    | AuthoritativeRefreshRequired => this_epoch state claim && authoritative (claim_source claim)
    end.

(** The claims about the key that are trusted at all. *)
Definition trusted_claims (key : string) (state : PlanState) : list StateClaim :=
  List.filter (fun c => bool_decide (claim_key c = key) && trusted c) (observations state).

Definition assess_predicate (condition : BehavioralCondition) (requirement : StateFreshnessRequirement)
    (state : PlanState) (now : Z) (max_age : option Z) : AssumptionValidity.t :=
  match predicate_key condition with
  | None => AssumptionValidity.Unknown
  | Some key =>
      let claims := trusted_claims key state in
      if bool_decide (claims = []) then AssumptionValidity.Unknown
      else
        let fresh := List.filter (fun c => claim_fresh c requirement state now max_age) claims in
        if bool_decide (fresh = []) then AssumptionValidity.Stale
        else match condition_value condition (trusted_state fresh (external_versions state) now) with
        | Some true => AssumptionValidity.Supported
        | Some false => AssumptionValidity.Contradicted
        | None => AssumptionValidity.Unknown
        end
  end.

Definition plan_invariant_active (invariant : PlanInvariant) (state : PlanState) : bool :=
  match invariant_scope invariant with
  | EntirePlan => true
  | Between start end_ =>
      bool_decide (start ∈ completed_steps state) && negb (bool_decide (end_ ∈ completed_steps state))
  | UntilCheckpoint c => negb (bool_decide (c ∈ reached_checkpoints state))
  | UntilCommitmentPoint c => negb (bool_decide (c ∈ crossed_commitment_points state))
  | AfterCommitmentPoint c => bool_decide (c ∈ crossed_commitment_points state)
  end.

(** [DeterministicPlanCheckpointEvaluator::evaluate]. *)
Definition observation_step (state : PlanState) (now : Z) (max_age : option Z) (acc : list string * bool)
    (o : ObservationSpec) : list string * bool :=
  match assess_predicate (ob_condition o) (ob_freshness o) state now max_age with
  | AssumptionValidity.Supported => acc
  | AssumptionValidity.Contradicted => (acc.1 ++ [ob_key o], true)
  | _ => (acc.1 ++ [ob_key o], acc.2)
  end.
Definition evaluate_checkpoint (now : Z) (max_age : option Z) (c : PlanCheckpoint) (state : PlanState) :
    CheckpointEvaluation :=
  let '(missing, failed) := foldl (observation_step state now max_age) ([], false) (required_observations c) in
  mkCheckpointEvaluation (checkpoint_id c)
    (if (failed : bool) then CheckpointStatus.Failed
     else if negb (bool_decide (missing = [])) then CheckpointStatus.VerificationRequired
     else CheckpointStatus.Satisfied) missing.

(** * The next step *)

Definition find_step (plan : ExecutionPlan) (id : string) : option PlanStep :=
  List.find (fun s => bool_decide (step_id s = id)) (steps plan).
Definition dependencies_completed (completed : list string) (s : PlanStep) : bool :=
  forallb (fun d => bool_decide (d ∈ completed)) (step_dependencies s).
(** The first step that is not completed and whose dependencies are. *)
Definition next_ready (plan : ExecutionPlan) (completed : list string) : option string :=
  step_id <$> List.find (fun s => negb (bool_decide (step_id s ∈ completed)) && dependencies_completed completed s)
    (steps plan).
Definition next_of (plan : ExecutionPlan) (state : PlanState) : option string :=
  match current_step state with Some s => Some s | None => next_ready plan (completed_steps state) end.

Definition state_mismatch (plan : ExecutionPlan) (state : PlanState) : bool :=
  negb (bool_decide (st_plan state = plan_id plan)) ||
  negb (bool_decide (st_revision state = revision plan)) ||
  any_missing (completed_steps state) (step_ids plan) ||
  duplicated id (completed_steps state).

(** The gates of the commitment points after the step that are not crossed yet. *)
Definition gates_at (plan : ExecutionPlan) (state : PlanState) (next : string) : list CommitmentGate :=
  List.filter (fun g => existsb (fun p => bool_decide (point_id p = commitment_point g) &&
      bool_decide (after_step p = next) && negb (bool_decide (point_id p ∈ crossed_commitment_points state)))
    (commitment_points plan)) (commitment_gates plan).
Definition active_checkpoints (plan : ExecutionPlan) (state : PlanState) : list PlanCheckpoint :=
  List.filter (fun c => negb (bool_decide (checkpoint_id c ∈ reached_checkpoints state)) &&
    match cp_after_step c with Some s => bool_decide (s ∈ completed_steps state) | None => true end)
    (checkpoints plan).

(** * The report *)

(** Field updates. *)
Definition push_blocker (b : PlanValidityBlocker.t) (r : PlanValidityAssessment) : PlanValidityAssessment :=
  mkAssessment (as_id r) (as_plan r) (as_revision r) (as_status r) (as_assumptions r) (as_invariants r)
    (as_checkpoints r) (as_gates r) (next_step r) (blockers r ++ [b]) (recommendations r) (reasons r)
    (state_hash r) (assessed_at r).
Definition push_recommendation (x : PlanValidityRecommendation) (r : PlanValidityAssessment) : PlanValidityAssessment :=
  mkAssessment (as_id r) (as_plan r) (as_revision r) (as_status r) (as_assumptions r) (as_invariants r)
    (as_checkpoints r) (as_gates r) (next_step r) (blockers r) (recommendations r ++ [x]) (reasons r)
    (state_hash r) (assessed_at r).
Definition push_reasons (l : list string) (r : PlanValidityAssessment) : PlanValidityAssessment :=
  mkAssessment (as_id r) (as_plan r) (as_revision r) (as_status r) (as_assumptions r) (as_invariants r)
    (as_checkpoints r) (as_gates r) (next_step r) (blockers r) (recommendations r) (reasons r ++ l)
    (state_hash r) (assessed_at r).
Definition with_status (s : PlanValidityStatus.t) (r : PlanValidityAssessment) : PlanValidityAssessment :=
  mkAssessment (as_id r) (as_plan r) (as_revision r) s (as_assumptions r) (as_invariants r)
    (as_checkpoints r) (as_gates r) (next_step r) (blockers r) (recommendations r) (reasons r)
    (state_hash r) (assessed_at r).
Definition push_assumption (a : AssumptionAssessment) (r : PlanValidityAssessment) : PlanValidityAssessment :=
  mkAssessment (as_id r) (as_plan r) (as_revision r) (as_status r) (as_assumptions r ++ [a]) (as_invariants r)
    (as_checkpoints r) (as_gates r) (next_step r) (blockers r) (recommendations r) (reasons r)
    (state_hash r) (assessed_at r).
Definition push_invariant (i : InvariantEvaluation) (r : PlanValidityAssessment) : PlanValidityAssessment :=
  mkAssessment (as_id r) (as_plan r) (as_revision r) (as_status r) (as_assumptions r) (as_invariants r ++ [i])
    (as_checkpoints r) (as_gates r) (next_step r) (blockers r) (recommendations r) (reasons r)
    (state_hash r) (assessed_at r).
Definition push_checkpoint (c : CheckpointEvaluation) (r : PlanValidityAssessment) : PlanValidityAssessment :=
  mkAssessment (as_id r) (as_plan r) (as_revision r) (as_status r) (as_assumptions r) (as_invariants r)
    (as_checkpoints r ++ [c]) (as_gates r) (next_step r) (blockers r) (recommendations r) (reasons r)
    (state_hash r) (assessed_at r).
Definition push_gate (g : CommitmentGateEvaluation) (r : PlanValidityAssessment) : PlanValidityAssessment :=
  mkAssessment (as_id r) (as_plan r) (as_revision r) (as_status r) (as_assumptions r) (as_invariants r)
    (as_checkpoints r) (as_gates r ++ [g]) (next_step r) (blockers r) (recommendations r) (reasons r)
    (state_hash r) (assessed_at r).
(** [if b { report.blockers.push(x) }]. *)
Definition block_if (b : bool) (x : PlanValidityBlocker.t) (r : PlanValidityAssessment) : PlanValidityAssessment :=
  if b then push_blocker x r else r.

(** * One part of an evaluation per definition *)

Section evaluation.
Context (inputs : PlanEvaluationInputs) (plan : ExecutionPlan) (state : PlanState) (now : Z).

Definition assumption_blocker (v : AssumptionValidity.t) : PlanValidityBlocker.t :=
  match v with
  | AssumptionValidity.Contradicted => PlanValidityBlocker.ContradictedAssumption
  | AssumptionValidity.Stale => PlanValidityBlocker.StaleCriticalAssumption
  | _ => PlanValidityBlocker.UnknownCriticalAssumption
  end.

(** The assumptions that must be assessed before the step. *)
Definition required_assumption_ids (index : PlanDependencyIndex) (next : string) (gates : list CommitmentGate)
    (committing : bool) (active : list PlanCheckpoint) : run (gset string) :=
  own ← index_or_panic (assumptions_by_step index !! next);
  Ret (list_to_set own ∪ ⋃ ((list_to_set ∘ gate_assumptions) <$> gates) ∪
       (if committing : bool
        then ids assumption_id (List.filter (fun a => severe (assumption_severity a)) (assumptions plan)) else ∅) ∪
       ⋃ ((list_to_set ∘ assumptions_to_revalidate) <$> active)).

Definition assumption_age (committing : bool) (a : PlanAssumption) : option Z :=
  if committing then commitment_point_max_age (freshness_policy plan)
  else if severe (assumption_severity a) then critical_max_age (freshness_policy plan)
  else default_max_age (freshness_policy plan).
Definition assumption_validity (committing : bool) (a : PlanAssumption) : AssumptionValidity.t :=
  assess_predicate (predicate a) (af_requirement (freshness a)) state now (assumption_age committing a).
Definition assumption_critical (committing : bool) (active : list PlanCheckpoint) (a : PlanAssumption) : bool :=
  severe (assumption_severity a) || committing ||
  existsb (fun c => bool_decide (assumption_id a ∈ assumptions_to_revalidate c)) active.

Definition assess_assumption (index : PlanDependencyIndex) (committing : bool) (active : list PlanCheckpoint)
    (report : PlanValidityAssessment) (a : PlanAssumption) : PlanValidityAssessment :=
  let v := assumption_validity committing a in
  let reason := statement a +:+ ": " +:+ AssumptionValidity.debug v in
  let report :=
    if bool_decide (v = AssumptionValidity.Supported) then report
    else
      let report := push_reasons [reason] report in
      let report :=
        if assumption_critical committing active a then push_blocker (assumption_blocker v) report
        else with_status PlanValidityStatus.ValidWithWarnings report in
      match predicate_key (predicate a) with
      | Some key => push_recommendation (Verify (mkObservation key (predicate a) (af_requirement (freshness a)))) report
      | None => report
      end in
  push_assumption (mkAssumptionAssessment (assumption_id a) v true
    (List.filter (fun s => negb (bool_decide (s ∈ completed_steps state)))
      (default [] (steps_by_assumption index !! assumption_id a))) reason) report.

Definition required_invariant_ids (step : PlanStep) (gates : list CommitmentGate) (active : list PlanCheckpoint) :
    gset string :=
  list_to_set (required_invariants step) ∪ ⋃ ((list_to_set ∘ gate_invariants) <$> gates) ∪
  ⋃ ((list_to_set ∘ invariants_to_verify) <$> active).

Definition invariant_satisfied (committing : bool) (i : PlanInvariant) : AssumptionValidity.t * option bool :=
  let v := assess_predicate (condition i) NoRequirement state now
    (if committing then commitment_point_max_age (freshness_policy plan)
     else critical_max_age (freshness_policy plan)) in
  (v, match v with
      | AssumptionValidity.Supported => Some true
      | AssumptionValidity.Contradicted => Some false
      | _ => None
      end).
Definition assess_invariant (committing : bool) (required : gset string)
    (report : PlanValidityAssessment) (i : PlanInvariant) : PlanValidityAssessment :=
  let '(v, satisfied) := invariant_satisfied committing i in
  let report :=
    if bool_decide (satisfied = Some false) then push_blocker PlanValidityBlocker.ViolatedInvariant report
    else block_if (bool_decide (satisfied = None) &&
        (severe (invariant_severity i) || committing || bool_decide (invariant_id i ∈ required)))
      PlanValidityBlocker.UnknownCriticalAssumption report in
  push_invariant (mkInvariantEvaluation (invariant_id i) satisfied (AssumptionValidity.debug v)) report.

Definition assess_checkpoint (report : PlanValidityAssessment) (c : PlanCheckpoint) : PlanValidityAssessment :=
  let evaluation := evaluate_checkpoint now (critical_max_age (freshness_policy plan)) c state in
  push_checkpoint evaluation
    match ce_status evaluation with
    | CheckpointStatus.Failed => push_blocker PlanValidityBlocker.ContradictedAssumption report
    | CheckpointStatus.Satisfied => report
    | _ => push_blocker PlanValidityBlocker.UnknownCriticalAssumption report
    end.

(** A condition of a gate: its status, its blocker and its reason. *)
Definition gate_condition (b : bool) (status : CommitmentGateStatus.t) (blocker : option PlanValidityBlocker.t)
    (reason : string) (acc : CommitmentGateStatus.t * list string * PlanValidityAssessment) :
    CommitmentGateStatus.t * list string * PlanValidityAssessment :=
  if b then (status, acc.1.2 ++ [reason],
    match blocker with Some x => push_blocker x acc.2 | None => acc.2 end)
  else acc.
Definition assess_gate (report : PlanValidityAssessment) (g : CommitmentGate) : PlanValidityAssessment :=
  let acc := (CommitmentGateStatus.Open, [], report) in
  let acc := gate_condition
    (existsb (fun a => negb (bool_decide (aa_validity a = AssumptionValidity.Supported))) (as_assumptions report) ||
     existsb (fun i => negb (bool_decide (satisfied i = Some true))) (as_invariants report))
    CommitmentGateStatus.VerificationRequired None
    "Commitment requires fresh supported assumptions and invariants" acc in
  let acc := gate_condition (any_missing (required_recoveries g) (available_recoveries inputs))
    CommitmentGateStatus.Blocked (Some PlanValidityBlocker.MissingRecovery) "Required recovery unavailable" acc in
  let acc := gate_condition (any_missing (ap_id <$> required_approvals g) (valid_approvals inputs))
    CommitmentGateStatus.ApprovalRequired (Some PlanValidityBlocker.ApprovalRequired)
    "Fresh, effect-bound external approval required" acc in
  let acc := gate_condition (bool_decide (commitment_point g ∈ low_diversity inputs))
    CommitmentGateStatus.VerificationRequired (Some PlanValidityBlocker.InsufficientDiversity)
    "Checkpoint evidence shares insufficiently diverse origins" acc in
  let '(status, why, report) := acc in
  let report := block_if (negb (bool_decide (status = CommitmentGateStatus.Open)) && bool_decide (blockers report = []))
    PlanValidityBlocker.CommitmentPointConflict report in
  push_gate (mkGateEvaluation (commitment_point g) status why) report.

(** What a crossed commitment point still demands. *)
Definition assess_point (report : PlanValidityAssessment) (p : PlanCommitmentPoint) : PlanValidityAssessment :=
  if any_missing (new_recovery_requirements p) (available_recoveries inputs)
  then push_reasons ["Post-commitment recovery requirement is unavailable"]
         (push_blocker PlanValidityBlocker.MissingRecovery report)
  else report.

Definition assess_step (context : RuntimeDecisionContext) (step : PlanStep) (next : string)
    (report : PlanValidityAssessment) : PlanValidityAssessment :=
  let report := block_if
    (existsb (fun c => negb (bool_decide (c ∈ available_capabilities context))) (required_capabilities step))
    PlanValidityBlocker.MissingCapability report in
  let report := block_if (bool_decide (next ∈ changed_knowledge inputs)) PlanValidityBlocker.InvalidatedKnowledge report in
  let report := block_if (bool_decide (next ∈ invalid_components inputs)) PlanValidityBlocker.InvalidatedKnowledge report in
  let report := match nested_blockers inputs !! next with
    | Some why => push_reasons why (push_blocker PlanValidityBlocker.KnowledgeConflict report)
    | None => report
    end in
  let report := match step_kind step with
    | StepApproval requirement =>
        block_if (negb (bool_decide (ap_id requirement ∈ valid_approvals inputs))) PlanValidityBlocker.ApprovalRequired report
    | _ => report
    end in
  let report := match step_kind step with
    | StepCustom _ => push_blocker PlanValidityBlocker.UnsupportedStep report
    | _ => report
    end in
  block_if match operational_knowledge context with Some k => negb (bool_decide (unresolved_conflicts k = [])) | None => false end
    PlanValidityBlocker.KnowledgeConflict report.

(** The verdict over the blockers. *)
Definition abstains (b : PlanValidityBlocker.t) : bool :=
  match b with
  | PlanValidityBlocker.MissingDependency | PlanValidityBlocker.UnsupportedStep
  | PlanValidityBlocker.MissingCapability => true
  | _ => false
  end.
Definition replans (b : PlanValidityBlocker.t) : bool :=
  match b with
  | PlanValidityBlocker.ContradictedAssumption | PlanValidityBlocker.ViolatedInvariant
  | PlanValidityBlocker.InvalidatedKnowledge | PlanValidityBlocker.ExternalStateDrift
  | PlanValidityBlocker.KnowledgeConflict => true
  | _ => false
  end.
Definition conclude (report : PlanValidityAssessment) : PlanValidityAssessment :=
  if existsb abstains (blockers report) then
    push_recommendation Abstain (with_status PlanValidityStatus.Invalid report)
  else if bool_decide (PlanValidityBlocker.ViolatedInvariant ∈ blockers report) &&
      negb (bool_decide (crossed_commitment_points state = [])) then
    push_recommendation Abstain (with_status PlanValidityStatus.RecoveryRequired report)
  else if existsb replans (blockers report) then
    push_recommendation Replan (with_status PlanValidityStatus.ReplanRequired report)
  else if negb (bool_decide (blockers report = [])) then
    let report := with_status PlanValidityStatus.VerificationRequired report in
    if bool_decide (PlanValidityBlocker.ApprovalRequired ∈ blockers report)
    then push_recommendation RequireApproval report else report
  else push_recommendation Continue report.
End evaluation.

(** * [DeterministicPlanValidityEvaluator::evaluate] *)

(** [composition_hash] serializes a value and hashes the text. *)
Context (composition_hash : PlanState -> result string).

Definition clear_caches (s : PlanState) : PlanState :=
  mkState (st_plan s) (st_revision s) (completed_steps s) (current_step s) (observations s) ∅ ∅
    (crossed_commitment_points s) (committed_effects s) (external_versions s) (mutation_epoch s)
    (observation_epochs s) (reached_checkpoints s) (authorizations s) (nested_commitments s).
Definition plan_state_hash (state : PlanState) : result string := composition_hash (clear_caches state).

Definition empty_report (assessment_id : string) (plan : ExecutionPlan) (next : option string) (hash : string)
    (now : Z) : PlanValidityAssessment :=
  mkAssessment assessment_id (plan_id plan) (revision plan) PlanValidityStatus.Valid [] [] [] [] next [] [] []
    hash now.

(** The report on the next step. *)
Definition report_on (inputs : PlanEvaluationInputs) (plan : ExecutionPlan) (state : PlanState)
    (context : RuntimeDecisionContext) (now : Z) (index : PlanDependencyIndex) (step : PlanStep) (next : string)
    (report : PlanValidityAssessment) : run (result PlanValidityAssessment) :=
  let report := block_if (bool_decide (next ∈ completed_steps state) ||
      negb (dependencies_completed (completed_steps state) step)) PlanValidityBlocker.MissingDependency report in
  let gates := gates_at plan state next in
  let committing := negb (bool_decide (length gates = 0)) || bool_decide (next ∈ nested_commitment_steps inputs) in
  let active := active_checkpoints plan state in
  required ← required_assumption_ids plan index next gates committing active;
  let report := foldl (assess_assumption plan state now index committing active) report
    (List.filter (fun a => bool_decide (assumption_id a ∈ (required : gset string))) (assumptions plan)) in
  let invariants_required := required_invariant_ids step gates active in
  let report := foldl (assess_invariant plan state now committing invariants_required) report
    (List.filter (fun i => bool_decide (invariant_id i ∈ invariants_required) || plan_invariant_active i state)
      (invariants plan)) in
  let report := foldl (assess_checkpoint plan state now) report active in
  let report := foldl (assess_gate inputs) report gates in
  let report := foldl (assess_point inputs) report
    (List.filter (fun p => bool_decide (point_id p ∈ crossed_commitment_points state)) (commitment_points plan)) in
  Ret (Ok (conclude state (assess_step inputs context step next report))).

Definition evaluate (inputs : PlanEvaluationInputs) (assessment_id : string) (clock : Z) (plan : ExecutionPlan)
    (state : PlanState) (context : RuntimeDecisionContext) : run (result PlanValidityAssessment) :=
  and_then (validate_plan plan) (fun index =>
  let now := default clock (in_now inputs) in
  if state_mismatch plan state then Ret (Err (InvalidInput "Plan state does not match its revision"))
  else
  let next := next_of plan state in
  and_then (Ret (plan_state_hash state)) (fun hash =>
  let report := empty_report assessment_id plan next hash now in
  match next with
  | None => Ret (Ok report)
  | Some next =>
      and_then (Ret (ok_or (find_step plan next) (InvalidInput "Next plan step missing"))) (fun step =>
      report_on inputs plan state context now index step next report)
  end)).

(** * What must be checked again *)

Definition incomplete (state : PlanState) (s : string) : bool := negb (bool_decide (s ∈ completed_steps state)).

(** A step enters when it is not completed and depends on a step of the set. *)
Definition revalidates (state : PlanState) (set : gset string) (s : PlanStep) : bool :=
  incomplete state (step_id s) && existsb (fun d => bool_decide (d ∈ set)) (step_dependencies s).
Definition affected (index : PlanDependencyIndex) (state : PlanState) (changed : list string) : gset string :=
  ⋃ ((fun id => list_to_set (List.filter (incomplete state) (default [] (steps_by_assumption index !! id)))) <$> changed).
Definition invariants_of (index : PlanDependencyIndex) (set : gset string) : gset string :=
  ⋃ ((fun s => list_to_set (default [] (invariants_by_step index !! s))) <$> btree_set set).

Definition revalidation_set (plan : ExecutionPlan) (state : PlanState) (changed : list string) :
    run (result PlanRevalidationSet) :=
  and_then (validate_plan plan) (fun index =>
  set ← grow_loop step_id (revalidates state) (steps plan) (S (length (steps plan))) (affected index state changed);
  Ret (Ok (mkRevalidation changed (btree_set set) (btree_set (invariants_of index set))))).

(** * Drift *)

Definition latest_trusted (key : string) (state : PlanState) : option StateClaim :=
  max_by_key (fun c => (trust_of c, observed_at (claim_freshness c))) (trusted_claims key state).
Definition drift_kind (plan : ExecutionPlan) (a : PlanAssumption) (current : PlanState) (now : Z) (old : StateClaim)
    (new : option StateClaim) : option AssumptionDriftKind.t :=
  match new with
  | Some n =>
      if negb (bool_decide (claim_value n = claim_value old)) then Some AssumptionDriftKind.ValueChanged
      else if negb (bool_decide (claim_source n = claim_source old)) then Some AssumptionDriftKind.SourceChanged
      else if negb (claim_fresh n (af_requirement (freshness a)) current now
          (critical_max_age (freshness_policy plan))) then Some AssumptionDriftKind.EvidenceStale
      else None
  | None => Some AssumptionDriftKind.Unknown
  end.
Definition assumption_drift (plan : ExecutionPlan) (previous current : PlanState) (now : Z) (a : PlanAssumption) :
    option AssumptionDrift :=
  key ← predicate_key (predicate a);
  old ← latest_trusted key previous;
  let new := latest_trusted key current in
  kind ← drift_kind plan a current now old new;
  Some (mkDrift (assumption_id a) old new kind now).
Definition detect_assumption_drift (plan : ExecutionPlan) (previous current : PlanState) (now : Z) :
    list AssumptionDrift :=
  omap (assumption_drift plan previous current now) (assumptions plan).
End validity.
