(* ===== verification/PlanWellFormed.v ===== *)
(** What validation accepts: the well-formed plans, with the index of what each
    step needs. *)
From S2P Require Import Prelude Worklist Semver Scope Hierarchy EconomicsModel EffectModel CapabilityModel PlanModel PlanValidity.

Section wellformed.
Context `{SerdeJson}.
Implicit Types (plan : ExecutionPlan).

(** [y] needs [x] done before it. *)
Definition needs plan : string -> string -> Prop := Worklist.before step_id step_dependencies (steps plan).

Definition scope_wf plan (scope : PlanInvariantScope) : Prop :=
  match scope with
  | EntirePlan => True
  | Between start end_ =>
      start ∈ step_id <$> steps plan /\ end_ ∈ step_id <$> steps plan /\ tc (needs plan) start end_
  | UntilCheckpoint c => c ∈ checkpoint_id <$> checkpoints plan
  | UntilCommitmentPoint c | AfterCommitmentPoint c => c ∈ point_id <$> commitment_points plan
  end.

Record plan_wf plan : Prop := {
  wf_revision : revision plan <> 0%Z;
  wf_size : 0 < length (steps plan) <= 100;
  wf_goal : blank (description (goal plan)) = false;
  wf_bounded : length (assumptions plan) <= 1000 /\ length (invariants plan) <= 1000;
  wf_freshness : exists default critical commitment,
    freshness_policy plan = mkFreshnessPolicy (Some default) (Some critical) (Some commitment) /\
    commitment <> 0%Z /\ (commitment <= critical <= default)%Z;
  wf_step_ids : NoDup (step_id <$> steps plan);
  wf_assumption_ids : NoDup (assumption_id <$> assumptions plan);
  wf_invariant_ids : NoDup (invariant_id <$> invariants plan);
  wf_checkpoint_ids : NoDup (checkpoint_id <$> checkpoints plan);
  wf_point_ids : NoDup (point_id <$> commitment_points plan);
  wf_steps : forall s, s ∈ steps plan ->
    step_dependencies s ⊆ step_id <$> steps plan /\
    required_assumptions s ⊆ assumption_id <$> assumptions plan /\
    required_invariants s ⊆ invariant_id <$> invariants plan;
  wf_acyclic : items_acyclic step_id step_dependencies (steps plan);
  wf_assumptions : forall a, a ∈ assumptions plan -> required_by a ⊆ step_id <$> steps plan;
  wf_checkpoints : forall c, c ∈ checkpoints plan ->
    (forall s, cp_after_step c = Some s -> s ∈ step_id <$> steps plan) /\
    assumptions_to_revalidate c ⊆ assumption_id <$> assumptions plan /\
    invariants_to_verify c ⊆ invariant_id <$> invariants plan;
  wf_points : forall p, p ∈ commitment_points plan ->
    after_step p ∈ step_id <$> steps plan /\
    assumptions_invalidated p ⊆ assumption_id <$> assumptions plan /\
    point_id p ∈ commitment_point <$> commitment_gates plan;
  wf_one_gate : NoDup (commitment_point <$> commitment_gates plan);
  wf_gates : forall g, g ∈ commitment_gates plan ->
    commitment_point g ∈ point_id <$> commitment_points plan /\
    gate_assumptions g ⊆ assumption_id <$> assumptions plan /\
    gate_invariants g ⊆ invariant_id <$> invariants plan;
  wf_scopes : forall i, i ∈ invariants plan -> scope_wf plan (invariant_scope i);
  wf_knowledge : forall d, d ∈ knowledge_dependencies plan -> dependent_steps d ⊆ step_id <$> steps plan;
}.

(** * The checks *)

Lemma reject_Ok b message : reject b message = Ok tt <-> b = false.
Proof. by destruct b. Qed.
(** A check either accepts or rejects its input. *)
Definition checks {A} (r : result A) (P : Prop) : Prop :=
  ((exists a, r = Ok a) <-> P) /\ (~ P -> exists message, r = Err (InvalidInput message)).

Lemma checks_reject b message P : (b = false <-> P) -> checks (reject b message) P.
Proof.
  intros Hb. split.
  - rewrite <- Hb. split; [by intros [[] ?%reject_Ok]|]. exists tt. by apply reject_Ok.
  - rewrite <- Hb. destruct b; [by exists message|done].
Qed.
Lemma checks_bind {A B} (r : result A) (f : A -> result B) (P Q : Prop) :
  checks r P -> (forall a, r = Ok a -> checks (f a) Q) -> checks (r ≫= f) (P /\ Q).
Proof.
  intros [Hr Hn] Hf. destruct r as [a|e]; cbn.
  - assert P as HP by (apply Hr; eauto). destruct (Hf a eq_refl) as [Hf' Hn'].
    split; [rewrite Hf'; tauto|]. intros HPQ. apply Hn'. tauto.
  - assert (~ P) as HP by (intros HP; apply Hr in HP as [? ?]; done).
    split; [split; [by intros [? ?]|tauto]|]. intros _. destruct (Hn HP) as [message [= ->]]. by exists message.
Qed.
Lemma checks_iff {A} (r : result A) P Q : (P <-> Q) -> checks r P -> checks r Q.
Proof. unfold checks. intros HPQ. by rewrite HPQ. Qed.

Lemma any_missing_false {A} (key : A -> string) (l : list string) (xs : list A) :
  any_missing l (ids key xs) = false <-> l ⊆ key <$> xs.
Proof.
  unfold any_missing, ids.
  rewrite <- not_true_iff_false, existsb_exists. split.
  - intros Hm x Hx. destruct (decide (x ∈ key <$> xs)) as [|Hn]; [done|]. destruct Hm. exists x.
    split; [by apply list_elem_of_In|]. rewrite bool_decide_eq_false_2; [done|]. by rewrite elem_of_list_to_set.
  - intros Hl (x & Hx%list_elem_of_In%Hl & Hb). rewrite bool_decide_eq_true_2 in Hb; [done|].
    by rewrite elem_of_list_to_set.
Qed.
Lemma size_ids_le (l : list string) : size (list_to_set l : gset string) <= length l.
Proof.
  induction l as [|x l IH]; [done|]. cbn. destruct (decide (x ∈ (list_to_set l : gset string))).
  - replace ({[x]} ∪ list_to_set l : gset string) with (list_to_set l : gset string) by set_solver. lia.
  - rewrite size_union, size_singleton by set_solver. lia.
Qed.
Lemma duplicated_false {A} (key : A -> string) (l : list A) : duplicated key l = false <-> NoDup (key <$> l).
Proof.
  unfold duplicated, ids. rewrite negb_false_iff, Nat.eqb_eq. rewrite <- (length_fmap key l). split.
  - generalize (key <$> l). clear. intros l. induction l as [|x l IH]; [constructor|]. cbn. intros Hs.
    pose proof (size_ids_le l). destruct (decide (x ∈ l)) as [Hx|Hx].
    + replace ({[x]} ∪ list_to_set l : gset string) with (list_to_set l : gset string) in Hs by set_solver. lia.
    + rewrite size_union, size_singleton in Hs by set_solver. constructor; [done|]. apply IH. lia.
  - intros Hn. by rewrite size_list_to_set.
Qed.
Lemma elem_of_ids {A} (key : A -> string) (l : list A) x : x ∈ ids key l <-> x ∈ key <$> l.
Proof. apply elem_of_list_to_set. Qed.

Lemma check_all_checks {A} (check : A -> result unit) (P : A -> Prop) (l : list A) :
  (forall x, x ∈ l -> checks (check x) (P x)) -> checks (check_all check l) (forall x, x ∈ l -> P x).
Proof.
  unfold check_all. induction l as [|x l IH]; intros Hc; cbn.
  - split; [split; [by intros _ x ?%not_elem_of_nil|by exists tt]|]. intros []. by intros x ?%not_elem_of_nil.
  - eapply checks_iff; [|apply (checks_bind _ _ (P x) (forall y, y ∈ l -> P y)); [apply Hc; by left|]].
    + split; [intros [? ?] y [->|?]%elem_of_cons; auto|]. intros Hl. split; [apply Hl; by left|].
      intros y Hy. apply Hl. by right.
    + intros [] _. apply IH. intros y Hy. apply Hc. by right.
Qed.

Lemma bad_dependency_false plan s :
  existsb (fun d => bool_decide (d = step_id s) || negb (bool_decide (d ∈ step_ids plan))) (step_dependencies s) = false <->
  step_id s ∉ step_dependencies s /\ step_dependencies s ⊆ step_id <$> steps plan.
Proof.
  rewrite <- not_true_iff_false, existsb_exists. split.
  - intros Hd. split.
    + intros Hin. apply Hd. exists (step_id s). rewrite <- list_elem_of_In. by rewrite bool_decide_eq_true_2.
    + intros d Hin. destruct (decide (d ∈ step_id <$> steps plan)) as [|Hn]; [done|]. destruct Hd. exists d.
      rewrite <- list_elem_of_In, (bool_decide_eq_false_2 (d ∈ step_ids plan)); [by rewrite orb_true_r|].
      by unfold step_ids; rewrite elem_of_ids.
  - intros [Hs Hl] (d & Hin%list_elem_of_In & [->%bool_decide_eq_true|Hb]%orb_true_iff); [done|].
    rewrite bool_decide_eq_true_2 in Hb; [done|]. unfold step_ids. rewrite elem_of_ids. by apply Hl.
Qed.
Lemma check_steps_checks plan s : checks (check_step plan s)
  (step_id s ∉ step_dependencies s /\ step_dependencies s ⊆ step_id <$> steps plan /\
   required_assumptions s ⊆ assumption_id <$> assumptions plan /\
   required_invariants s ⊆ invariant_id <$> invariants plan).
Proof.
  apply checks_reject. rewrite !orb_false_iff. unfold assumption_ids, invariant_ids.
  rewrite !any_missing_false, bad_dependency_false. tauto.
Qed.

Lemma acyclic_irreflexive plan s : items_acyclic step_id step_dependencies (steps plan) -> s ∈ steps plan ->
  step_id s ∉ step_dependencies s.
Proof. intros Hac Hs Hin. apply (Hac (step_id s)), tc_once. by exists s. Qed.

Lemma check_acyclic_checks plan : NoDup (step_id <$> steps plan) ->
  (forall s, s ∈ steps plan -> step_dependencies s ⊆ step_id <$> steps plan) ->
  checks (check_acyclic plan) (items_acyclic step_id step_dependencies (steps plan)).
Proof.
  intros Hn Hd. unfold check_acyclic, step_ids, ids. rewrite size_list_to_set, length_fmap by done.
  pose proof (order_items_spec step_id step_dependencies (steps plan) Hn (fun a d Ha => Hd a Ha d)) as Ho.
  destruct (order_items _ _ _ _ _ _ _) as [order|]; split.
  - split; [intros _|by exists tt]. by apply Ho.
  - intros []. by apply Ho.
  - split; [by intros [? ?]|]. intros Hac. by destruct Ho.
  - by exists "Plan dependency cycle".
Qed.

Lemma check_bounds_checks plan : checks (check_bounds plan)
  (revision plan <> 0%Z /\ 0 < length (steps plan) <= 100 /\ blank (description (goal plan)) = false /\
   length (assumptions plan) <= 1000 /\ length (invariants plan) <= 1000).
Proof.
  apply checks_reject. rewrite !orb_false_iff, bool_decide_eq_false, Nat.eqb_neq, !Nat.ltb_ge. intuition lia.
Qed.

Lemma check_freshness_checks plan : checks (check_freshness plan)
  (exists default critical commitment,
    freshness_policy plan = mkFreshnessPolicy (Some default) (Some critical) (Some commitment) /\
    commitment <> 0%Z /\ (commitment <= critical <= default)%Z).
Proof.
  unfold check_freshness. destruct (freshness_policy plan) as [[d|] [c|] [m|]]; cbn;
    try (split; [split; [by intros [? ?]|by intros (?&?&?&[= ]&?)]|eauto]).
  apply checks_reject. rewrite !orb_false_iff, !bool_decide_eq_false. split.
  - intros [[??]?]. exists d, c, m. split_and!; [done|done|lia..].
  - intros (?&?&?&[= <- <- <-]&?&?&?). split_and!; [done|lia..].
Qed.

Lemma check_identities_checks plan : checks (check_identities plan)
  (NoDup (step_id <$> steps plan) /\ NoDup (assumption_id <$> assumptions plan) /\
   NoDup (invariant_id <$> invariants plan) /\ NoDup (checkpoint_id <$> checkpoints plan) /\
   NoDup (point_id <$> commitment_points plan)).
Proof. apply checks_reject. rewrite !orb_false_iff, !duplicated_false. tauto. Qed.

Lemma check_assumption_checks plan a : checks (check_assumption plan a) (required_by a ⊆ step_id <$> steps plan).
Proof. apply checks_reject, any_missing_false. Qed.

Lemma check_checkpoint_checks plan c : checks (check_checkpoint plan c)
  ((forall s, cp_after_step c = Some s -> s ∈ step_id <$> steps plan) /\
    assumptions_to_revalidate c ⊆ assumption_id <$> assumptions plan /\
    invariants_to_verify c ⊆ invariant_id <$> invariants plan).
Proof.
  apply checks_reject. rewrite !orb_false_iff. unfold assumption_ids, invariant_ids. rewrite !any_missing_false.
  assert (match cp_after_step c with Some s => negb (bool_decide (s ∈ step_ids plan)) | None => false end = false <->
    forall s, cp_after_step c = Some s -> s ∈ step_id <$> steps plan) as ->; [|tauto].
  destruct (cp_after_step c) as [s|]; [|naive_solver].
  rewrite negb_false_iff, bool_decide_eq_true. unfold step_ids. rewrite elem_of_ids. naive_solver.
Qed.

Lemma check_point_checks plan p : checks (check_point plan p)
  (after_step p ∈ step_id <$> steps plan /\ assumptions_invalidated p ⊆ assumption_id <$> assumptions plan /\
   point_id p ∈ commitment_point <$> commitment_gates plan).
Proof.
  apply checks_reject. rewrite !orb_false_iff. unfold assumption_ids. rewrite any_missing_false, !negb_false_iff.
  rewrite bool_decide_eq_true. unfold step_ids. rewrite elem_of_ids.
  assert (existsb (fun g => bool_decide (commitment_point g = point_id p)) (commitment_gates plan) = true <->
    point_id p ∈ commitment_point <$> commitment_gates plan) as ->; [|tauto].
  rewrite existsb_exists, list_elem_of_fmap. setoid_rewrite bool_decide_eq_true.
  setoid_rewrite <- list_elem_of_In. naive_solver.
Qed.

Lemma check_gate_checks plan seen g : checks (check_gate plan seen g)
  (commitment_point g ∉ seen /\ commitment_point g ∈ point_id <$> commitment_points plan /\
   gate_assumptions g ⊆ assumption_id <$> assumptions plan /\
   gate_invariants g ⊆ invariant_id <$> invariants plan).
Proof.
  eapply checks_iff; cycle 1.
  - unfold check_gate. eapply (checks_bind _ _ _ True); [apply checks_reject, iff_refl|].
    intros [] _. by split; [split; [done|eauto]|].
  - rewrite !orb_false_iff. unfold assumption_ids, invariant_ids, point_ids.
    rewrite !any_missing_false, negb_false_iff, bool_decide_eq_true, bool_decide_eq_false, elem_of_ids. tauto.
Qed.
Lemma check_gate_seen plan seen g seen' : check_gate plan seen g = Ok seen' -> seen' = {[commitment_point g]} ∪ seen.
Proof. unfold check_gate. destruct (reject _ _) as [[]|]; [by intros [= <-]|done]. Qed.

Lemma check_gates_checks plan seen l : checks (result_foldl (check_gate plan) seen l)
  (NoDup (commitment_point <$> l) /\ (forall g, g ∈ l -> commitment_point g ∉ seen) /\
   forall g, g ∈ l -> commitment_point g ∈ point_id <$> commitment_points plan /\
    gate_assumptions g ⊆ assumption_id <$> assumptions plan /\
    gate_invariants g ⊆ invariant_id <$> invariants plan).
Proof.
  revert seen. induction l as [|g l IH]; intros seen; cbn.
  { assert (NoDup (commitment_point <$> @nil CommitmentGate)) by constructor.
    split; [split; [|by exists seen]|]; [intros _|intros []]; split_and!; by try (intros ? ?%not_elem_of_nil). }
  eapply checks_iff; cycle 1.
  { eapply checks_bind; [apply check_gate_checks|]. intros a ->%check_gate_seen. apply IH. }
  rewrite NoDup_cons. setoid_rewrite elem_of_cons. split.
  - intros ((?&?) & Hn & Hs & Hg). split_and!; [|done| |].
    + intros (g' & He & Hg')%list_elem_of_fmap. specialize (Hs g' Hg'). set_solver.
    + intros g' [->|Hg']; [done|]. specialize (Hs g' Hg'). set_solver.
    + intros g' [->|Hg']; auto.
  - intros ([Hx Hn] & Hs & Hg). split_and!; [by apply Hs; left|apply Hg; by left..|done| |].
    + intros g' Hg' [Hgg%elem_of_singleton|Hin]%elem_of_union; [|by apply (Hs g'); [right|]].
      apply Hx. rewrite <- Hgg. by apply list_elem_of_fmap_2.
    + intros g' Hg'. apply Hg. by right.
Qed.

(** * Scopes *)

Lemma find_unique {A} (key : A -> string) (l : list A) a : NoDup (key <$> l) -> a ∈ l ->
  List.find (fun b => bool_decide (key b = key a)) l = Some a.
Proof.
  induction l as [|b l IH]; [by intros _ ?%not_elem_of_nil|]. cbn. intros [Hb Hn]%NoDup_cons [->|Ha]%elem_of_cons.
  - by rewrite bool_decide_eq_true_2.
  - rewrite bool_decide_eq_false_2; [by apply IH|]. intros He. apply Hb. rewrite He. by apply list_elem_of_fmap_2.
Qed.

Lemma dependencies_of_spec plan x y : NoDup (step_id <$> steps plan) ->
  y ∈ dependencies_of plan x <-> needs plan y x.
Proof.
  intros Hn. unfold dependencies_of. split.
  - destruct (List.find _ _) as [s|] eqn:Hs; [|by intros ?%not_elem_of_nil].
    apply List.find_some in Hs as [Hs%list_elem_of_In Hx%bool_decide_eq_true]. intros Hy. by exists s.
  - intros (s & Hs & <- & Hy). by rewrite (find_unique step_id (steps plan) s Hn Hs).
Qed.

Lemma sum_dependencies plan : NoDup (step_id <$> steps plan) ->
  sum_list (length ∘ dependencies_of plan <$> (step_id <$> steps plan)) =
  sum_list (length ∘ step_dependencies <$> steps plan).
Proof.
  intros Hn. rewrite <- list_fmap_compose. f_equal. apply list_fmap_ext. intros i s Hs%list_elem_of_lookup_2.
  unfold compose, dependencies_of. by rewrite (find_unique step_id (steps plan) s Hn Hs).
Qed.

Lemma rtc_flip {A} (R S : A -> A -> Prop) x y : (forall x y, R x y -> S y x) -> rtc R x y -> rtc S y x.
Proof. intros HRS. induction 1 as [x|x y z Hxy _ IH]; [apply rtc_refl|]. eapply rtc_r; [done|by apply HRS]. Qed.

(** The ancestors of a step are what it needs, directly or not. *)
Lemma ancestors_spec plan x : NoDup (step_id <$> steps plan) ->
  exists s, ancestors plan x = Ret s /\ forall y, y ∈ s <-> rtc (needs plan) y x.
Proof.
  intros Hn. unfold ancestors.
  destruct (reach_from (dependencies_of plan) (step_id <$> steps plan) Hn) with
    (fuel := S (sum_list (length ∘ step_dependencies <$> steps plan))) (x := x) as (s & -> & Hs).
  - intros y Hy. unfold dependencies_of. destruct (List.find _ _) as [s|] eqn:Hs; [|done].
    apply List.find_some in Hs as [Hs%list_elem_of_In He%bool_decide_eq_true].
    destruct Hy. rewrite <- He. by apply list_elem_of_fmap_2.
  - by rewrite sum_dependencies.
  - exists s. split; [done|]. intros y. rewrite Hs. unfold edge.
    split; apply rtc_flip; intros a b; by rewrite dependencies_of_spec.
Qed.

Lemma rtc_tc_ne {A} (R : A -> A -> Prop) x y : rtc R x y -> x <> y -> tc R x y.
Proof. intros [->|(z & Hxz & Hzy)]%rtc_inv Hne; [done|]. eapply tc_rtc_r; [by apply tc_once|done]. Qed.

Lemma scope_valid_spec plan scope : NoDup (step_id <$> steps plan) ->
  items_acyclic step_id step_dependencies (steps plan) ->
  exists b, scope_valid plan scope = Ret b /\ (b = true <-> scope_wf plan scope).
Proof.
  intros Hn Hac. unfold scope_valid, checkpoint_ids, point_ids, step_ids.
  destruct scope as [|start end_|c|c|c]; cbn -[ancestors]; try (eexists; split; [done|];
    rewrite ?bool_decide_eq_true, ?elem_of_ids; done).
  destruct (ancestors_spec plan end_ Hn) as (s & -> & Hs). eexists. split; [done|].
  rewrite !andb_true_iff, negb_true_iff, bool_decide_eq_false, !bool_decide_eq_true, !elem_of_ids, Hs. split.
  - intros [[[Hst He] Hne] Hr]. split_and!; [done|done|by apply rtc_tc_ne].
  - intros (Hst & He & Ht). split_and!; [done|done| |by apply tc_rtc]. intros ->. by apply (Hac end_).
Qed.

Lemma check_scopes_checks plan l : NoDup (step_id <$> steps plan) ->
  items_acyclic step_id step_dependencies (steps plan) ->
  exists r, check_scopes plan l = Ret r /\ checks r (forall i, i ∈ l -> scope_wf plan (invariant_scope i)).
Proof.
  intros Hn Hac. induction l as [|i l IH]; cbn [check_scopes].
  { eexists. split; [done|]. split; [split; [by intros _ ? ?%not_elem_of_nil|by exists tt]|].
    intros []. by intros ? ?%not_elem_of_nil. }
  destruct (scope_valid_spec plan (invariant_scope i) Hn Hac) as (b & -> & Hb). cbn. destruct b.
  - destruct IH as (r & -> & Hr). eexists. split; [done|]. eapply checks_iff; [|done].
    setoid_rewrite elem_of_cons. intuition (subst; auto).
  - eexists. split; [done|]. split; [split; [by intros [? ?]|]|eauto].
    intros Hl. assert (false = true) by (apply Hb, Hl; by left). done.
Qed.

(** * The index *)

(** Inserting under a key known to be new. *)
Record index_correct plan (index : PlanDependencyIndex) : Prop := {
  ic_assumptions : forall s, s ∈ steps plan ->
    assumptions_by_step index !! step_id s = Some (btree_set (step_assumptions plan s));
  ic_invariants : forall s, s ∈ steps plan ->
    invariants_by_step index !! step_id s = Some (required_invariants s);
  ic_steps : forall a, default [] (steps_by_assumption index !! a) =
    step_id <$> List.filter (fun s => bool_decide (a ∈ step_assumptions plan s)) (steps plan);
}.

Lemma push_step_fold s l m a : NoDup l ->
  default [] (foldl (push_step s) m l !! a) =
  default [] (m !! a) ++ (if decide (a ∈ l) then [step_id s] else []).
Proof.
  intros Hn. revert m. induction Hn as [|x l Hx Hn IH]; intros m; cbn [foldl].
  { rewrite decide_False by set_solver. by rewrite app_nil_r. }
  rewrite IH. unfold push_step. destruct (decide (a = x)) as [->|Hax].
  - rewrite lookup_insert_eq, (decide_False (P := x ∈ l)), (decide_True (P := x ∈ x :: l)) by set_solver.
    cbn. by rewrite app_nil_r.
  - rewrite lookup_insert_ne by done. by rewrite (decide_ext (a ∈ l) (a ∈ x :: l)) by set_solver.
Qed.

Lemma index_fold plan l index : NoDup (step_id <$> l) ->
  let index' := foldl (index_step plan) index l in
  (forall s, s ∈ l -> assumptions_by_step index' !! step_id s = Some (btree_set (step_assumptions plan s)) /\
    invariants_by_step index' !! step_id s = Some (required_invariants s)) /\
  (forall x, x ∉ step_id <$> l -> assumptions_by_step index' !! x = assumptions_by_step index !! x /\
    invariants_by_step index' !! x = invariants_by_step index !! x) /\
  (forall a, default [] (steps_by_assumption index' !! a) = default [] (steps_by_assumption index !! a) ++
    (step_id <$> List.filter (fun s => bool_decide (a ∈ step_assumptions plan s)) l)).
Proof.
  revert index. induction l as [|s l IH]; intros index; cbn [foldl fmap list_fmap].
  { intros _. split_and!; [by intros ? ?%not_elem_of_nil|done|]. intros a. cbn. by rewrite app_nil_r. }
  intros [Hs Hn]%NoDup_cons. destruct (IH (index_step plan index s) Hn) as (Hin & Hout & Hst). split_and!.
  - intros t [->|Ht]%elem_of_cons; [|by apply Hin]. destruct (Hout (step_id s) Hs) as [-> ->]. cbn.
    by rewrite !lookup_insert_eq.
  - intros x [Hx Hxl]%not_elem_of_cons. destruct (Hout x Hxl) as [-> ->]. cbn. by rewrite !lookup_insert_ne.
  - intros a. rewrite Hst. cbn [index_step steps_by_assumption List.filter].
    rewrite push_step_fold by apply NoDup_btree_set. rewrite <- app_assoc. f_equal.
    rewrite (decide_ext (a ∈ btree_set (step_assumptions plan s)) (a ∈ step_assumptions plan s)) by apply elem_of_btree_set.
    case_decide; [rewrite bool_decide_eq_true_2 by done|rewrite bool_decide_eq_false_2 by done]; done.
Qed.

Lemma index_fold_correct plan : NoDup (step_id <$> steps plan) ->
  index_correct plan (foldl (index_step plan) empty_index (steps plan)).
Proof.
  intros Hn. destruct (index_fold plan (steps plan) empty_index Hn) as (Hin & _ & Hst).
  split; [intros s Hs; by apply Hin..|]. intros a. by rewrite Hst.
Qed.

(** * Validation *)

Lemma check_references_checks plan : checks (check_references plan)
  ((revision plan <> 0%Z /\ 0 < length (steps plan) <= 100 /\ blank (description (goal plan)) = false /\
    length (assumptions plan) <= 1000 /\ length (invariants plan) <= 1000) /\
   (exists default critical commitment,
    freshness_policy plan = mkFreshnessPolicy (Some default) (Some critical) (Some commitment) /\
    commitment <> 0%Z /\ (commitment <= critical <= default)%Z) /\
   (NoDup (step_id <$> steps plan) /\ NoDup (assumption_id <$> assumptions plan) /\
    NoDup (invariant_id <$> invariants plan) /\ NoDup (checkpoint_id <$> checkpoints plan) /\
    NoDup (point_id <$> commitment_points plan)) /\
   (forall s, s ∈ steps plan -> step_id s ∉ step_dependencies s /\
    step_dependencies s ⊆ step_id <$> steps plan /\
    required_assumptions s ⊆ assumption_id <$> assumptions plan /\
    required_invariants s ⊆ invariant_id <$> invariants plan) /\
   items_acyclic step_id step_dependencies (steps plan) /\
   (forall a, a ∈ assumptions plan -> required_by a ⊆ step_id <$> steps plan) /\
   (forall c, c ∈ checkpoints plan ->
    (forall s, cp_after_step c = Some s -> s ∈ step_id <$> steps plan) /\
    assumptions_to_revalidate c ⊆ assumption_id <$> assumptions plan /\
    invariants_to_verify c ⊆ invariant_id <$> invariants plan) /\
   (forall p, p ∈ commitment_points plan ->
    after_step p ∈ step_id <$> steps plan /\ assumptions_invalidated p ⊆ assumption_id <$> assumptions plan /\
    point_id p ∈ commitment_point <$> commitment_gates plan) /\
   (NoDup (commitment_point <$> commitment_gates plan) /\
    (forall g, g ∈ commitment_gates plan -> commitment_point g ∉ (∅ : gset string)) /\
    forall g, g ∈ commitment_gates plan -> commitment_point g ∈ point_id <$> commitment_points plan /\
     gate_assumptions g ⊆ assumption_id <$> assumptions plan /\
     gate_invariants g ⊆ invariant_id <$> invariants plan) /\ True).
Proof.
  unfold check_references.
  apply checks_bind; [apply check_bounds_checks|intros _ _].
  apply checks_bind; [apply check_freshness_checks|intros _ _].
  apply checks_bind; [apply check_identities_checks|intros [] Hids].
  assert (NoDup (step_id <$> steps plan)) as Hn by (apply (check_identities_checks plan); eauto).
  apply checks_bind; [apply check_all_checks; intros; apply check_steps_checks|intros [] Hsteps].
  assert (forall s, s ∈ steps plan -> step_dependencies s ⊆ step_id <$> steps plan) as Hd.
  { intros s Hs. refine (proj1 (proj2 (proj1 (proj1 (check_all_checks (check_step plan) _ (steps plan)
      (fun s _ => check_steps_checks plan s))) (ex_intro _ tt Hsteps) s Hs))). }
  apply checks_bind; [by apply check_acyclic_checks|intros _ _].
  apply checks_bind; [apply check_all_checks; intros; apply check_assumption_checks|intros _ _].
  apply checks_bind; [apply check_all_checks; intros; apply check_checkpoint_checks|intros _ _].
  apply checks_bind; [apply check_all_checks; intros; apply check_point_checks|intros _ _].
  apply checks_bind; [apply check_gates_checks|intros _ _].
  split; [split; [done|by exists tt]|done].
Qed.

(** Validation always returns; it accepts exactly the well-formed plans. *)
Lemma validate_plan_spec plan :
  (plan_wf plan /\ exists index, validate_plan plan = Ret (Ok index) /\ index_correct plan index) \/
  (~ plan_wf plan /\ exists message, validate_plan plan = Ret (Err (InvalidInput message))).
Proof.
  unfold validate_plan. destruct (check_references_checks plan) as [Hok Hbad].
  destruct (check_references plan) as [[]|e] eqn:Hr; cbn [and_then].
  - destruct (proj1 Hok (ex_intro _ tt eq_refl)) as
      ((?&?&?&?&?) & ? & (Hn&?&?&?&?) & Hs & Hac & ? & ? & ? & (?&_&?) & _).
    destruct (check_scopes_checks plan (invariants plan) Hn Hac) as (r & -> & [Hsok Hsbad]).
    destruct r as [[]|e]; cbn [and_then].
    + destruct (check_all_checks (check_knowledge plan) _ (knowledge_dependencies plan)
        (fun d _ => checks_reject _ _ _ (any_missing_false step_id (dependent_steps d) (steps plan)))) as [Hkok Hkbad].
      destruct (check_all _ _) as [[]|e] eqn:Hk; cbn [and_then].
      * left. split; [|eexists; split; [done|by apply index_fold_correct]].
        split; try done; [intros s Hin; by apply Hs|apply Hsok; eauto|apply Hkok; eauto].
      * right. assert (~ plan_wf plan) as Hw.
        { intros [_ _ _ _ _ _ _ _ _ _ _ _ _ _ _ _ _ _ Hd]. apply Hkok in Hd as [? ?]. done. }
        split; [done|]. destruct Hkbad as [message [= ->]]; [|eauto]. intros Hd.
        by apply Hkok in Hd as [? ?].
    + right. assert (~ forall i, i ∈ invariants plan -> scope_wf plan (invariant_scope i)) as Hw.
      { intros Hd. by apply Hsok in Hd as [? ?]. }
      split; [|destruct (Hsbad Hw) as [message [= ->]]; eauto]. intros Hp. by destruct Hp.
  - right. assert (~ plan_wf plan) as Hw.
    { intros []. enough (exists a, @Err unit e = Ok a) as [? ?] by done. apply Hok.
      split_and!; try done; try lia.
      intros s Hin. split; [by apply (acyclic_irreflexive plan)|auto]. }
    split; [done|]. destruct Hbad as [message [= ->]]; [|eauto].
    intros Hg. apply Hok in Hg as [? ?]. done.
Qed.
End wellformed.
