(* ===== verification/PlanPredicates.v ===== *)
(** When an assumption is supported: the fresh claims of the highest trust agree
    on a value, and the condition holds of it. *)
From S2P Require Import Prelude Worklist Semver Scope Hierarchy EconomicsModel EffectModel CapabilityModel PlanModel PlanValidity.

(** * Greatest elements *)

Section greatest.
Context {A K : Type} `{OrdLaws K} (f : A -> K).

Lemma max_fold_spec l x : let m := foldl (fun x y => match ord_cmp (f x) (f y) with Gt => x | _ => y end) x l in
  m ∈ x :: l /\ forall y, y ∈ x :: l -> ord_le (f y) (f m).
Proof.
  revert x. induction l as [|y l IH]; intros x; cbn [foldl].
  { split; [by left|]. intros y ->%list_elem_of_singleton. done. }
  destruct (ord_cmp (f x) (f y)) eqn:Hc.
  - destruct (IH y) as [Hm Hle]. split; [by right|]. apply ord_eq in Hc.
    intros z [->|Hz]%elem_of_cons; [|by apply Hle]. rewrite Hc. apply Hle. by left.
  - destruct (IH y) as [Hm Hle]. split; [by right|]. intros z [->|Hz]%elem_of_cons; [|by apply Hle].
    etrans; [|apply Hle; by left]. unfold ord_le. by rewrite Hc.
  - destruct (IH x) as [Hm Hle]. split; [set_solver|].
    intros z [->|[->|Hz]%elem_of_cons]%elem_of_cons; [apply Hle; by left| |apply Hle; by right].
    etrans; [|apply Hle; by left]. unfold ord_le. rewrite (ord_flip (f x) (f y)), Hc. done.
Qed.

Lemma max_by_key_Some l m : max_by_key f l = Some m -> m ∈ l /\ forall y, y ∈ l -> ord_le (f y) (f m).
Proof. destruct l as [|x l]; [done|]. intros [= <-]. apply max_fold_spec. Qed.
Lemma max_by_key_None l : max_by_key f l = None <-> l = [].
Proof. by destruct l. Qed.
End greatest.

(** * Agreement *)

(** The claims of the highest trust have the value [v]. *)
Definition agree (claims : list StateClaim) (v : ScopeValue) : Prop :=
  exists c, c ∈ claims /\ claim_value c = v /\
    forall c', c' ∈ claims -> ord_le (trust_of c') (trust_of c) /\ (trust_of c' = trust_of c -> claim_value c' = v).

Lemma take_while_sorted {A K} `{OrdLaws K, EqDecision K} (f : A -> K) (x : A) (l : list A) (P : A -> Prop) :
  StronglySorted (fun x y => ord_le (f y) (f x)) (x :: l) ->
  (forall y, y ∈ take_while (fun y => bool_decide (f y = f x)) (x :: l) -> P y) <->
  (forall y, y ∈ x :: l -> f y = f x -> P y).
Proof.
  intros [Hs Hx]%StronglySorted_inv.
  cbn [take_while]. rewrite bool_decide_eq_true_2 by done. setoid_rewrite elem_of_cons.
  enough ((forall y, y ∈ take_while (fun y => bool_decide (f y = f x)) l -> P y) <->
          (forall y, y ∈ l -> f y = f x -> P y)) by naive_solver.
  induction Hs as [|y l Hs IH Hy]; cbn [take_while]; [split; intros ?? ?%not_elem_of_nil; done|].
  apply Forall_cons in Hx as [Hyx Hx]. case_bool_decide as He.
  - setoid_rewrite elem_of_cons. naive_solver.
  - split; [|intros _ ? ?%not_elem_of_nil; done].
    intros _ z Hz Hzx. destruct He. apply (anti_symm ord_le); [done|].
    apply elem_of_cons in Hz as [->|Hz]; [by rewrite Hzx|]. rewrite <- Hzx. rewrite Forall_forall in Hy. by apply Hy.
Qed.

Lemma agreed_value_spec group v : agreed_value group = Some v <-> agree group v.
Proof.
  unfold agreed_value.
  pose proof (sort_by_key_sorted (fun c => mkReverse (trust_of c)) group) as Hs.
  pose proof (elem_of_sort_by_key (fun c => mkReverse (trust_of c)) group) as He.
  destruct (sort_by_key _ group) as [|first rest].
  { split; [done|]. intros (c & Hc & _). apply He in Hc. by apply not_elem_of_nil in Hc. }
  assert (forall c, c ∈ group -> ord_le (trust_of c) (trust_of first)) as Hmax.
  { intros c [->|Hc]%He%elem_of_cons; [done|]. apply StronglySorted_inv in Hs as [_ Hs].
    rewrite Forall_forall in Hs. by apply (Hs c). }
  assert (forallb (fun w => bool_decide (claim_value w = claim_value first))
      (take_while (fun w => bool_decide (trust_of w = trust_of first)) (first :: rest)) = true <->
    forall c, c ∈ group -> trust_of c = trust_of first -> claim_value c = claim_value first) as Hall.
  { rewrite forallb_forall. setoid_rewrite <- list_elem_of_In. setoid_rewrite bool_decide_eq_true.
    setoid_rewrite <- He. by apply (take_while_sorted trust_of first rest (fun c => claim_value c = claim_value first)). }
  destruct (forallb _ _); split.
  - intros [= <-]. exists first. split_and!; [apply He; by left|done|]. intros c Hc.
    split; [by apply Hmax|by apply Hall].
  - intros (c & Hc & <- & Hle). f_equal. apply Hle; [apply He; by left|].
    apply (anti_symm ord_le); [apply Hle, He; by left|by apply Hmax].
  - done.
  - intros (c & Hc & <- & Hle). enough (false = true) by done. apply Hall.
    assert (trust_of c = trust_of first) as Ht.
    { apply (anti_symm ord_le); [by apply Hmax|]. apply Hle, He. by left. }
    intros c' Hc' Ht'. rewrite (proj2 (Hle c' Hc')) by congruence. symmetry. apply Hle; [apply He; by left|done].
Qed.

(** * Trusted state *)

(** A claim the trusted state considers. *)
Definition considered (versions : gmap string string) (now : Z) (c : StateClaim) : bool :=
  current versions now c && trusted c.

Lemma group_fold versions now l m k :
  default [] (foldl (group_claim versions now) m l !! k) =
  default [] (m !! k) ++ List.filter (fun c => considered versions now c && bool_decide (claim_key c = k)) l.
Proof.
  revert m. induction l as [|c l IH]; intros m; cbn [foldl List.filter]; [by rewrite app_nil_r|].
  rewrite IH. unfold group_claim, considered.
  destruct (current versions now c), (trusted c); cbn; try done.
  destruct (decide (claim_key c = k)) as [<-|Hk].
  - rewrite lookup_insert_eq, bool_decide_eq_true_2 by done. cbn. by rewrite <- app_assoc.
  - by rewrite lookup_insert_ne, bool_decide_eq_false_2 by done.
Qed.

Lemma add_agreed_fold l m k : NoDup l.*1 ->
  foldl add_agreed m l !! k = match List.find (fun e => bool_decide (e.1 = k)) l with
    | Some e => match agreed_value e.2 with Some v => Some v | None => m !! k end
    | None => m !! k
    end.
Proof.
  revert m. induction l as [|[x g] l IH]; intros m; cbn [foldl List.find fmap list_fmap]; [done|].
  intros [Hx Hn]%NoDup_cons. rewrite IH by done. cbn [fst]. case_bool_decide as Hk.
  - cbn in Hk. subst k. cbn [fst snd].
    assert (List.find (fun e : string * list StateClaim => bool_decide (e.1 = x)) l = None) as ->.
    { destruct (List.find _ _) as [e|] eqn:He; [|done].
      apply List.find_some in He as [He%list_elem_of_In Hek%bool_decide_eq_true]. destruct Hx.
      apply list_elem_of_fmap. by exists e. }
    unfold add_agreed. cbn. destruct (agreed_value g); [by rewrite lookup_insert_eq|done].
  - assert (add_agreed m (x, g) !! k = m !! k) as ->; [|done].
    unfold add_agreed. cbn. destruct (agreed_value g); [by rewrite lookup_insert_ne|done].
Qed.

Lemma find_btree_map {V} (m : gmap string V) k :
  List.find (fun e => bool_decide (e.1 = k)) (btree_map m) = (fun v => (k, v)) <$> m !! k.
Proof.
  destruct (List.find _ _) as [[x v]|] eqn:Hf.
  - apply List.find_some in Hf as [Hin%list_elem_of_In Hk%bool_decide_eq_true]. cbn in Hk. subst x.
    apply elem_of_btree_map in Hin. by rewrite Hin.
  - destruct (m !! k) as [v|] eqn:Hm; [|done]. apply elem_of_btree_map in Hm.
    pose proof (List.find_none _ _ Hf (k, v) (proj1 (list_elem_of_In _ _) Hm)) as Hn.
    cbn in Hn. by rewrite bool_decide_eq_true_2 in Hn.
Qed.

(** The value of a key in the trusted state is what the considered claims agree on. *)
Lemma trusted_state_lookup claims versions now k :
  Scope.values (trusted_state claims versions now) !! k =
  agreed_value (List.filter (fun c => considered versions now c && bool_decide (claim_key c = k)) claims).
Proof.
  unfold trusted_state. cbn [Scope.values].
  rewrite add_agreed_fold by apply NoDup_btree_keys. rewrite lookup_empty, find_btree_map.
  pose proof (group_fold versions now claims ∅ k) as Hg. rewrite lookup_empty in Hg. cbn in Hg.
  rewrite <- Hg. destruct (foldl _ ∅ claims !! k) as [g|]; cbn; [by destruct (agreed_value g)|done].
Qed.

(** * Assessing a predicate *)

Section assess.
Context `{SerdeJson}.
Implicit Types (state : PlanState) (requirement : StateFreshnessRequirement) (now : Z) (max_age : option Z).

(** The trusted claims that are fresh enough. *)
Definition fresh_claims key requirement state now max_age : list StateClaim :=
  List.filter (fun c => claim_fresh c requirement state now max_age) (trusted_claims key state).

Lemma claim_fresh_current c requirement state now max_age :
  claim_fresh c requirement state now max_age = true -> current (external_versions state) now c = true.
Proof. unfold claim_fresh. by destruct (current _ _ c). Qed.

Lemma fresh_state_lookup key requirement state now max_age :
  Scope.values (trusted_state (fresh_claims key requirement state now max_age) (external_versions state) now) !! key =
  agreed_value (fresh_claims key requirement state now max_age).
Proof.
  rewrite trusted_state_lookup. f_equal. unfold fresh_claims, trusted_claims.
  rewrite (filter_ext_in _ (fun _ => true)); [apply List.filter_true|].
  intros c [[Hc [Hk Ht]%andb_true_iff]%List.filter_In Hf]%List.filter_In.
  unfold considered. by rewrite (claim_fresh_current _ _ _ _ _ Hf), Ht, Hk.
Qed.

(** A condition on one key, of a state in which the key has the value [v]. *)
Definition condition_on (condition : BehavioralCondition) (key : string) (v : ScopeValue) : option bool :=
  condition_value condition (Scope.mkContext {[key := v]}).

Lemma condition_value_lookup condition key st : predicate_key condition = Some key ->
  condition_value condition st =
  match Scope.values st !! key with
  | Some v => condition_on condition key v
  | None => None
  end.
Proof.
  destruct condition; try done. intros [= <-]. unfold condition_on, condition_value. cbn [Scope.values].
  destruct (Scope.values st !! path) as [v|]; [rewrite lookup_singleton_eq|]; by destruct operator.
Qed.

(** What an assessment says, exactly. *)
Lemma assess_predicate_spec condition requirement state now max_age key : predicate_key condition = Some key ->
  let fresh := fresh_claims key requirement state now max_age in
  let r := assess_predicate condition requirement state now max_age in
  (r = AssumptionValidity.Supported <-> exists v, agree fresh v /\ condition_on condition key v = Some true) /\
  (r = AssumptionValidity.Contradicted <-> exists v, agree fresh v /\ condition_on condition key v = Some false) /\
  (r = AssumptionValidity.Stale <-> trusted_claims key state <> [] /\ fresh = []).
Proof.
  intros Hk. cbn zeta. unfold assess_predicate. rewrite Hk.
  fold (fresh_claims key requirement state now max_age).
  assert (forall v, agree [] v -> False) as Hnil by (intros v (c & Hc & _); by apply not_elem_of_nil in Hc).
  case_bool_decide as Ht.
  { assert (fresh_claims key requirement state now max_age = []) as -> by (unfold fresh_claims; by rewrite Ht).
    split_and!; (split; [done|]); [by intros (v & ?%Hnil & _)..|by intros [? ?]]. }
  case_bool_decide as Hf.
  { rewrite Hf. split_and!; (split; [done|]); [by intros (v & ?%Hnil & _)..|done]. }
  rewrite (condition_value_lookup _ key) by done. rewrite fresh_state_lookup.
  setoid_rewrite <- agreed_value_spec.
  destruct (agreed_value _) as [v|]; [destruct (condition_on condition key v) as [[]|] eqn:Hc|];
    split_and!; (split; [|]); naive_solver.
Qed.

(** A condition that is not a state predicate is never decided. *)
Lemma assess_predicate_other condition requirement state now max_age : predicate_key condition = None ->
  assess_predicate condition requirement state now max_age = AssumptionValidity.Unknown.
Proof. unfold assess_predicate. by intros ->. Qed.

(** That a key is absent cannot be established, that it is present cannot be refuted. *)
Lemma absence_undecided path value requirement state now max_age :
  assess_predicate (StatePredicate path PredicateOperator.NotExists value) requirement state now max_age <>
    AssumptionValidity.Supported /\
  assess_predicate (StatePredicate path PredicateOperator.Exists value) requirement state now max_age <>
    AssumptionValidity.Contradicted.
Proof.
  split; intros Ha.
  - apply (assess_predicate_spec _ _ _ _ _ path) in Ha as (v & _ & Hc); [|done].
    unfold condition_on, condition_value in Hc. cbn [Scope.values] in Hc. by rewrite lookup_singleton_eq in Hc.
  - apply (assess_predicate_spec _ _ _ _ _ path) in Ha as (v & _ & Hc); [|done].
    unfold condition_on, condition_value in Hc. cbn [Scope.values] in Hc. by rewrite lookup_singleton_eq in Hc.
Qed.
End assess.
