(* ===== verification/PlanDecision.v ===== *)
(** What an evaluation decides about the next step of a plan: each blocker is
    raised for exactly its reason, and the step may continue exactly when it is
    admissible. *)
From S2P Require Import Prelude Worklist Semver Scope Hierarchy EconomicsModel EffectModel CapabilityModel PlanModel PlanValidity PlanWellFormed PlanPredicates.

Section decision.
Context `{SerdeJson}.
Context (inputs : PlanEvaluationInputs) (plan : ExecutionPlan) (state : PlanState) (now : Z).
Implicit Types (r : PlanValidityAssessment) (active : list PlanCheckpoint) (committing : bool).

(** * What each part of a report adds *)

Definition when (b : bool) (x : PlanValidityBlocker.t) : list PlanValidityBlocker.t := if b then [x] else [].

Definition order_blockers (step : PlanStep) (next : string) :=
  when (bool_decide (next ∈ completed_steps state) || negb (dependencies_completed (completed_steps state) step))
    PlanValidityBlocker.MissingDependency.
Definition assumption_blockers committing active (a : PlanAssumption) :=
  when (negb (bool_decide (assumption_validity plan state now committing a = AssumptionValidity.Supported)) &&
        assumption_critical committing active a)
    (assumption_blocker (assumption_validity plan state now committing a)).
Definition invariant_blockers committing (required : gset string) (i : PlanInvariant) :=
  match (invariant_satisfied plan state now committing i).2 with
  | Some true => []
  | Some false => [PlanValidityBlocker.ViolatedInvariant]
  | None => when (severe (invariant_severity i) || committing || bool_decide (invariant_id i ∈ required))
      PlanValidityBlocker.UnknownCriticalAssumption
  end.
Definition checkpoint_blockers (c : PlanCheckpoint) :=
  match ce_status (evaluate_checkpoint now (critical_max_age (freshness_policy plan)) c state) with
  | CheckpointStatus.Failed => [PlanValidityBlocker.ContradictedAssumption]
  | CheckpointStatus.Satisfied => []
  | _ => [PlanValidityBlocker.UnknownCriticalAssumption]
  end.
Definition gate_blockers (g : CommitmentGate) :=
  when (any_missing (required_recoveries g) (available_recoveries inputs)) PlanValidityBlocker.MissingRecovery ++
  when (any_missing (ap_id <$> required_approvals g) (valid_approvals inputs)) PlanValidityBlocker.ApprovalRequired ++
  when (bool_decide (commitment_point g ∈ low_diversity inputs)) PlanValidityBlocker.InsufficientDiversity.
Definition point_blockers (p : PlanCommitmentPoint) :=
  when (any_missing (new_recovery_requirements p) (available_recoveries inputs)) PlanValidityBlocker.MissingRecovery.
Definition step_blockers (context : RuntimeDecisionContext) (step : PlanStep) (next : string) :=
  when (existsb (fun c => negb (bool_decide (c ∈ available_capabilities context))) (required_capabilities step))
    PlanValidityBlocker.MissingCapability ++
  when (bool_decide (next ∈ changed_knowledge inputs)) PlanValidityBlocker.InvalidatedKnowledge ++
  when (bool_decide (next ∈ invalid_components inputs)) PlanValidityBlocker.InvalidatedKnowledge ++
  match nested_blockers inputs !! next with Some _ => [PlanValidityBlocker.KnowledgeConflict] | None => [] end ++
  match step_kind step with
  | StepApproval requirement =>
      when (negb (bool_decide (ap_id requirement ∈ valid_approvals inputs))) PlanValidityBlocker.ApprovalRequired
  | StepCustom _ => [PlanValidityBlocker.UnsupportedStep]
  | _ => []
  end ++
  when match operational_knowledge context with Some k => negb (bool_decide (unresolved_conflicts k = [])) | None => false end
    PlanValidityBlocker.KnowledgeConflict.

Lemma blockers_block_if b x r : blockers (block_if b x r) = blockers r ++ when b x.
Proof. destruct b; cbn; [done|by rewrite app_nil_r]. Qed.
Lemma foldl_blockers {A} (f : PlanValidityAssessment -> A -> PlanValidityAssessment) (g : A -> list PlanValidityBlocker.t) l r :
  (forall r x, blockers (f r x) = blockers r ++ g x) -> blockers (foldl f r l) = blockers r ++ (l ≫= g).
Proof.
  intros Hf. revert r. induction l as [|x l IH]; intros r; cbn [foldl mbind list_bind]; [by rewrite app_nil_r|].
  by rewrite IH, Hf, <- app_assoc.
Qed.
(** A part of the report that the steps of a loop leave alone. *)
Lemma foldl_keeps {A B} (f : PlanValidityAssessment -> A -> PlanValidityAssessment) (p : PlanValidityAssessment -> B) l r :
  (forall r x, p (f r x) = p r) -> p (foldl f r l) = p r.
Proof. intros Hf. revert r. induction l as [|x l IH]; intros r; cbn; [done|]. by rewrite IH, Hf. Qed.

(** * Assumptions *)

Lemma assess_assumption_blockers index committing active r a :
  blockers (assess_assumption plan state now index committing active r a) =
  blockers r ++ assumption_blockers committing active a.
Proof.
  unfold assess_assumption, assumption_blockers.
  case_bool_decide; cbn; [by rewrite app_nil_r|].
  destruct (assumption_critical committing active a), (predicate_key (predicate a)); cbn; by rewrite ?app_nil_r.
Qed.
(** A status that only gets a warning, for an assumption that is not critical. *)
Definition warns committing active (a : PlanAssumption) : bool :=
  negb (bool_decide (assumption_validity plan state now committing a = AssumptionValidity.Supported)) &&
  negb (assumption_critical committing active a).
Lemma assess_assumption_status index committing active r a :
  as_status (assess_assumption plan state now index committing active r a) =
  if warns committing active a then PlanValidityStatus.ValidWithWarnings else as_status r.
Proof.
  unfold assess_assumption, warns. case_bool_decide; cbn; [done|].
  by destruct (assumption_critical committing active a), (predicate_key (predicate a)).
Qed.
Lemma assess_assumption_assumptions index committing active r a :
  aa_validity <$> as_assumptions (assess_assumption plan state now index committing active r a) =
  (aa_validity <$> as_assumptions r) ++ [assumption_validity plan state now committing a].
Proof.
  unfold assess_assumption. case_bool_decide as Hv; cbn; rewrite fmap_app; [done|].
  by destruct (assumption_critical committing active a), (predicate_key (predicate a)).
Qed.
Lemma assess_assumption_continue index committing active r a :
  Continue ∈ recommendations (assess_assumption plan state now index committing active r a) <->
  Continue ∈ recommendations r.
Proof.
  unfold assess_assumption. case_bool_decide; cbn; [done|].
  destruct (assumption_critical committing active a), (predicate_key (predicate a)); cbn; try done;
    rewrite elem_of_app, list_elem_of_singleton; naive_solver.
Qed.
Lemma assess_assumption_others index committing active r a :
  as_invariants (assess_assumption plan state now index committing active r a) = as_invariants r /\
  next_step (assess_assumption plan state now index committing active r a) = next_step r.
Proof.
  unfold assess_assumption. case_bool_decide; cbn; [done|].
  by destruct (assumption_critical committing active a), (predicate_key (predicate a)).
Qed.

(** * Invariants and checkpoints *)

Lemma assess_invariant_blockers committing required r i :
  blockers (assess_invariant plan state now committing required r i) =
  blockers r ++ invariant_blockers committing required i.
Proof.
  unfold assess_invariant, invariant_blockers.
  destruct (invariant_satisfied plan state now committing i) as [v [[]|]]; cbn; [by rewrite app_nil_r|done|].
  unfold block_if, when. destruct (_ || _); cbn; by rewrite ?app_nil_r.
Qed.
Lemma assess_invariant_invariants committing required r i :
  satisfied <$> as_invariants (assess_invariant plan state now committing required r i) =
  (satisfied <$> as_invariants r) ++ [(invariant_satisfied plan state now committing i).2].
Proof.
  unfold assess_invariant. destruct (invariant_satisfied plan state now committing i) as [v [[]|]]; cbn;
    rewrite fmap_app; [done..|]. unfold block_if. by destruct (_ || _).
Qed.
Lemma assess_invariant_others committing required r i :
  let r' := assess_invariant plan state now committing required r i in
  as_status r' = as_status r /\ as_assumptions r' = as_assumptions r /\ recommendations r' = recommendations r /\
  next_step r' = next_step r.
Proof.
  unfold assess_invariant. destruct (invariant_satisfied plan state now committing i) as [v [[]|]]; cbn;
    [done..|]. unfold block_if. by destruct (_ || _).
Qed.

Lemma assess_checkpoint_blockers r c :
  blockers (assess_checkpoint plan state now r c) = blockers r ++ checkpoint_blockers c.
Proof. unfold assess_checkpoint, checkpoint_blockers. destruct (ce_status _); cbn; by rewrite ?app_nil_r. Qed.
Lemma assess_checkpoint_others r c :
  let r' := assess_checkpoint plan state now r c in
  as_status r' = as_status r /\ as_assumptions r' = as_assumptions r /\ as_invariants r' = as_invariants r /\
  recommendations r' = recommendations r /\ next_step r' = next_step r.
Proof. unfold assess_checkpoint. by destruct (ce_status _). Qed.

(** * Gates *)

(** Everything the report assessed is supported. *)
Definition all_supported r : Prop :=
  (forall a, a ∈ as_assumptions r -> aa_validity a = AssumptionValidity.Supported) /\
  (forall i, i ∈ as_invariants r -> satisfied i = Some true).

Lemma unsupported_false r :
  existsb (fun a => negb (bool_decide (aa_validity a = AssumptionValidity.Supported))) (as_assumptions r) ||
  existsb (fun i => negb (bool_decide (satisfied i = Some true))) (as_invariants r) = false <-> all_supported r.
Proof.
  rewrite orb_false_iff, <- !not_true_iff_false, !existsb_exists. unfold all_supported.
  setoid_rewrite negb_true_iff. setoid_rewrite bool_decide_eq_false. setoid_rewrite list_elem_of_In. split.
  - intros [Ha Hi]. split; intros x Hx; [destruct (decide (aa_validity x = AssumptionValidity.Supported))|
      destruct (decide (satisfied x = Some true))]; naive_solver.
  - naive_solver.
Qed.

Lemma assess_gate_blockers r g : (blockers r = [] -> all_supported r) ->
  blockers (assess_gate inputs r g) = blockers r ++ gate_blockers g.
Proof.
  intros Hr. unfold assess_gate. set (b0 := _ || _).
  assert (b0 = true -> blockers r <> []) as Hb0.
  { intros Hb He. specialize (Hr He). apply unsupported_false in Hr. unfold b0 in Hb. congruence. }
  clearbody b0. unfold gate_blockers, gate_condition, when, block_if.
  destruct (any_missing (required_recoveries g) _), (any_missing (ap_id <$> _) _), (bool_decide (_ ∈ low_diversity inputs));
    destruct b0; cbn; rewrite ?app_nil_r; try done;
    repeat case_bool_decide; cbn; rewrite ?app_nil_r, <- ?app_assoc; try done;
    try (match goal with E : _ ++ _ = [] |- _ => apply app_eq_nil in E as [? ?]; done end); naive_solver.
Qed.
Lemma assess_gate_others r g :
  let r' := assess_gate inputs r g in
  as_status r' = as_status r /\ as_assumptions r' = as_assumptions r /\ as_invariants r' = as_invariants r /\
  recommendations r' = recommendations r /\ next_step r' = next_step r.
Proof.
  unfold assess_gate, gate_condition, block_if.
  repeat match goal with |- context [if ?b then (_, _, _) else _] => destruct b; cbn end;
    by destruct (_ && _).
Qed.

Lemma foldl_gates l r : (blockers r = [] -> all_supported r) ->
  blockers (foldl (assess_gate inputs) r l) = blockers r ++ (l ≫= gate_blockers).
Proof.
  revert r. induction l as [|g l IH]; intros r Hr; cbn [foldl mbind list_bind]; [by rewrite app_nil_r|].
  destruct (assess_gate_others r g) as (_ & Ha & Hi & _).
  rewrite IH, assess_gate_blockers, <- app_assoc; [done|done|].
  rewrite assess_gate_blockers by done. unfold all_supported. rewrite Ha, Hi.
  intros [? _]%app_eq_nil. by apply Hr.
Qed.

(** * The rest of the report *)

Lemma assess_point_blockers r p : blockers (assess_point inputs r p) = blockers r ++ point_blockers p.
Proof. unfold assess_point, point_blockers, when. destruct (any_missing _ _); cbn; by rewrite ?app_nil_r. Qed.
Lemma assess_point_others r p :
  let r' := assess_point inputs r p in
  as_status r' = as_status r /\ recommendations r' = recommendations r /\ next_step r' = next_step r.
Proof. unfold assess_point. by destruct (any_missing _ _). Qed.

Lemma assess_step_blockers context step next r :
  blockers (assess_step inputs context step next r) = blockers r ++ step_blockers context step next.
Proof.
  unfold assess_step, step_blockers. rewrite blockers_block_if.
  destruct (step_kind step); destruct (nested_blockers inputs !! next); cbn;
    rewrite ?blockers_block_if; cbn; rewrite ?blockers_block_if, ?app_nil_r, <- ?app_assoc; done.
Qed.
Lemma assess_step_others context step next r :
  let r' := assess_step inputs context step next r in
  as_status r' = as_status r /\ recommendations r' = recommendations r /\ next_step r' = next_step r.
Proof.
  unfold assess_step, block_if. destruct (nested_blockers inputs !! next), (step_kind step); cbn;
    repeat case_match; done.
Qed.

(** * The whole report *)

Definition committing_at (next : string) : bool :=
  negb (bool_decide (length (gates_at plan state next) = 0)) || bool_decide (next ∈ nested_commitment_steps inputs).

(** What must be assessed before the step. *)
Definition needed (step : PlanStep) (a : PlanAssumption) : Prop :=
  assumption_id a ∈ required_assumptions step \/ step_id step ∈ required_by a \/
  (exists g, g ∈ gates_at plan state (step_id step) /\ assumption_id a ∈ gate_assumptions g) \/
  (committing_at (step_id step) = true /\ severe (assumption_severity a) = true) \/
  (exists c, c ∈ active_checkpoints plan state /\ assumption_id a ∈ assumptions_to_revalidate c).
Definition demanded (step : PlanStep) (i : PlanInvariant) : Prop :=
  invariant_id i ∈ required_invariants step \/
  (exists g, g ∈ gates_at plan state (step_id step) /\ invariant_id i ∈ gate_invariants g) \/
  (exists c, c ∈ active_checkpoints plan state /\ invariant_id i ∈ invariants_to_verify c).

Lemma elem_of_union_map {A} (f : A -> list string) (l : list A) x :
  x ∈ ⋃ ((list_to_set ∘ f <$> l) : list (gset string)) <-> exists a, a ∈ l /\ x ∈ f a.
Proof.
  rewrite elem_of_union_list. setoid_rewrite list_elem_of_fmap. split.
  - intros (X & (a & -> & Ha) & Hx). exists a. split; [done|]. by apply elem_of_list_to_set in Hx.
  - intros (a & Ha & Hx). eexists. split; [by exists a|]. by apply elem_of_list_to_set.
Qed.
Lemma ids_filter_unique {A} (key : A -> string) (f : A -> bool) (l : list A) a : NoDup (key <$> l) -> a ∈ l ->
  key a ∈ ids key (List.filter f l) <-> f a = true.
Proof.
  intros Hn Ha. rewrite elem_of_ids, list_elem_of_fmap. split.
  - intros (b & Hk & [Hb Hl]%elem_of_list_filter_bool). by rewrite (key_inj key l Hn a b Ha Hl Hk).
  - intros Hf. exists a. split; [done|]. by apply elem_of_list_filter_bool.
Qed.

Lemma needed_spec index step a : plan_wf plan -> index_correct plan index -> step ∈ steps plan ->
  exists required, required_assumption_ids plan index (step_id step) (gates_at plan state (step_id step))
    (committing_at (step_id step)) (active_checkpoints plan state) = Ret required /\
  (a ∈ assumptions plan -> assumption_id a ∈ required <-> needed step a).
Proof.
  intros Hwf Hi Hs. unfold required_assumption_ids. rewrite (ic_assumptions _ _ Hi step Hs). cbn.
  eexists. split; [done|]. intros Ha. unfold needed.
  rewrite !elem_of_union, !elem_of_union_map, elem_of_list_to_set, elem_of_btree_set.
  unfold step_assumptions. rewrite elem_of_union, elem_of_list_to_set.
  rewrite (ids_filter_unique assumption_id _ _ a (wf_assumption_ids _ Hwf) Ha), bool_decide_eq_true.
  assert (assumption_id a ∈ (if committing_at (step_id step)
      then ids assumption_id (List.filter (fun a => severe (assumption_severity a)) (assumptions plan)) else ∅) <->
    committing_at (step_id step) = true /\ severe (assumption_severity a) = true) as ->; [|tauto].
  destruct (committing_at _); [|set_solver].
  rewrite (ids_filter_unique assumption_id _ _ a (wf_assumption_ids _ Hwf) Ha). tauto.
Qed.
Lemma demanded_spec step i :
  invariant_id i ∈ required_invariant_ids step (gates_at plan state (step_id step)) (active_checkpoints plan state) <->
  demanded step i.
Proof.
  unfold required_invariant_ids, demanded.
  rewrite !elem_of_union, !elem_of_union_map, elem_of_list_to_set. tauto.
Qed.

(** The assumptions and invariants the report assesses. *)
Definition assessed_assumptions (required : gset string) : list PlanAssumption :=
  List.filter (fun a => bool_decide (assumption_id a ∈ required)) (assumptions plan).
Definition assessed_invariants (required : gset string) : list PlanInvariant :=
  List.filter (fun i => bool_decide (invariant_id i ∈ required) || plan_invariant_active i state) (invariants plan).

Lemma foldl_appends {A B} (f : PlanValidityAssessment -> A -> PlanValidityAssessment)
    (p : PlanValidityAssessment -> list B) (g : A -> B) l r :
  (forall r x, p (f r x) = p r ++ [g x]) -> p (foldl f r l) = p r ++ (g <$> l).
Proof.
  intros Hf. revert r. induction l as [|x l IH]; intros r; cbn [foldl fmap list_fmap]; [by rewrite app_nil_r|].
  by rewrite IH, Hf, <- app_assoc.
Qed.
Lemma foldl_status index committing active l r :
  as_status (foldl (assess_assumption plan state now index committing active) r l) =
  if existsb (warns committing active) l then PlanValidityStatus.ValidWithWarnings else as_status r.
Proof.
  revert r. induction l as [|a l IH]; intros r; cbn [foldl existsb]; [done|].
  rewrite IH, assess_assumption_status. by destruct (warns _ _ a), (existsb _ l).
Qed.
Lemma foldl_continue index committing active l r :
  Continue ∈ recommendations (foldl (assess_assumption plan state now index committing active) r l) <->
  Continue ∈ recommendations r.
Proof.
  revert r. induction l as [|a l IH]; intros r; cbn [foldl]; [done|]. by rewrite IH, assess_assumption_continue.
Qed.

Lemma bind_nil {A B} (f : A -> list B) (l : list A) : l ≫= f = [] <-> forall x, x ∈ l -> f x = [].
Proof.
  induction l as [|x l IH]; cbn [mbind list_bind]; [split; [by intros _ ? ?%not_elem_of_nil|done]|].
  setoid_rewrite elem_of_cons. split.
  - intros [Hx Hl]%app_eq_nil y [->|Hy]; [done|]. by apply IH.
  - intros Hl. rewrite (Hl x (or_introl eq_refl)). apply IH. auto.
Qed.
Lemma when_nil b x : when b x = [] <-> b = false.
Proof. by destruct b. Qed.

(** Before a commitment, nothing that was assessed is left unsupported without a blocker. *)
Lemma committing_supported active demands A I r :
  aa_validity <$> as_assumptions r = assumption_validity plan state now true <$> A ->
  satisfied <$> as_invariants r = (fun i => (invariant_satisfied plan state now true i).2) <$> I ->
  A ≫= assumption_blockers true active = [] -> I ≫= invariant_blockers true demands = [] -> all_supported r.
Proof.
  intros Ha Hi HA HI. rewrite bind_nil in HA. rewrite bind_nil in HI. split.
  - intros a Hin. assert (aa_validity a ∈ assumption_validity plan state now true <$> A) as (b & -> & Hb)%list_elem_of_fmap
      by (rewrite <- Ha; by apply list_elem_of_fmap_2).
    apply HA in Hb. unfold assumption_blockers, assumption_critical in Hb. rewrite when_nil, orb_true_r, andb_true_r in Hb.
    by apply negb_false_iff, bool_decide_eq_true in Hb.
  - intros i Hin. assert (satisfied i ∈ (fun i => (invariant_satisfied plan state now true i).2) <$> I)
      as (b & -> & Hb)%list_elem_of_fmap by (rewrite <- Hi; by apply list_elem_of_fmap_2).
    apply HI in Hb. unfold invariant_blockers in Hb.
    destruct (invariant_satisfied plan state now true b).2 as [[]|]; [done..|]. by rewrite when_nil, orb_true_r in Hb.
Qed.

(** Each loop of the evaluation. *)
Lemma loop_assumptions index committing active l r :
  let r' := foldl (assess_assumption plan state now index committing active) r l in
  blockers r' = blockers r ++ (l ≫= assumption_blockers committing active) /\
  aa_validity <$> as_assumptions r' =
    (aa_validity <$> as_assumptions r) ++ (assumption_validity plan state now committing <$> l) /\
  as_status r' = (if existsb (warns committing active) l then PlanValidityStatus.ValidWithWarnings else as_status r) /\
  (Continue ∈ recommendations r' <-> Continue ∈ recommendations r) /\
  as_invariants r' = as_invariants r /\ next_step r' = next_step r.
Proof.
  cbn zeta. split_and!; [|apply (foldl_appends _ (fun r => aa_validity <$> as_assumptions r))| | | |].
  - apply foldl_blockers, assess_assumption_blockers.
  - apply assess_assumption_assumptions.
  - apply foldl_status.
  - apply foldl_continue.
  - apply foldl_keeps. intros. apply assess_assumption_others.
  - apply foldl_keeps. intros. apply assess_assumption_others.
Qed.
Lemma loop_invariants committing required l r :
  let r' := foldl (assess_invariant plan state now committing required) r l in
  blockers r' = blockers r ++ (l ≫= invariant_blockers committing required) /\
  satisfied <$> as_invariants r' =
    (satisfied <$> as_invariants r) ++ ((fun i => (invariant_satisfied plan state now committing i).2) <$> l) /\
  as_status r' = as_status r /\ as_assumptions r' = as_assumptions r /\
  recommendations r' = recommendations r /\ next_step r' = next_step r.
Proof.
  cbn zeta. split_and!; [|apply (foldl_appends _ (fun r => satisfied <$> as_invariants r)), assess_invariant_invariants|..].
  - apply foldl_blockers, assess_invariant_blockers.
  - apply foldl_keeps. intros. apply assess_invariant_others.
  - apply foldl_keeps. intros. apply assess_invariant_others.
  - apply foldl_keeps. intros. apply assess_invariant_others.
  - apply foldl_keeps. intros. apply assess_invariant_others.
Qed.
Lemma loop_checkpoints l r :
  let r' := foldl (assess_checkpoint plan state now) r l in
  blockers r' = blockers r ++ (l ≫= checkpoint_blockers) /\
  as_status r' = as_status r /\ as_assumptions r' = as_assumptions r /\ as_invariants r' = as_invariants r /\
  recommendations r' = recommendations r /\ next_step r' = next_step r.
Proof.
  cbn zeta. split_and!; [apply foldl_blockers, assess_checkpoint_blockers|..];
    apply foldl_keeps; intros; apply assess_checkpoint_others.
Qed.
Lemma loop_gates l r : (l <> [] -> blockers r = [] -> all_supported r) ->
  let r' := foldl (assess_gate inputs) r l in
  blockers r' = blockers r ++ (l ≫= gate_blockers) /\
  as_status r' = as_status r /\ recommendations r' = recommendations r /\ next_step r' = next_step r.
Proof.
  intros Hr. cbn zeta. split_and!; [|apply foldl_keeps; intros; apply assess_gate_others..].
  destruct l as [|g l]; [cbn; by rewrite app_nil_r|]. by apply foldl_gates, Hr.
Qed.
Lemma loop_points l r :
  let r' := foldl (assess_point inputs) r l in
  blockers r' = blockers r ++ (l ≫= point_blockers) /\
  as_status r' = as_status r /\ recommendations r' = recommendations r /\ next_step r' = next_step r.
Proof.
  cbn zeta. split_and!; [apply foldl_blockers, assess_point_blockers|..];
    apply foldl_keeps; intros; apply assess_point_others.
Qed.

(** The report before the verdict. *)
Lemma report_on_shape context index step next r0 : blockers r0 = [] -> as_assumptions r0 = [] -> as_invariants r0 = [] ->
  forall required, required_assumption_ids plan index next (gates_at plan state next) (committing_at next)
    (active_checkpoints plan state) = Ret required ->
  let active := active_checkpoints plan state in
  let committing := committing_at next in
  let demands := required_invariant_ids step (gates_at plan state next) active in
  exists r, report_on inputs plan state context now index step next r0 = Ret (Ok (conclude state r)) /\
  next_step r = next_step r0 /\
  as_status r = (if existsb (warns committing active) (assessed_assumptions required)
                 then PlanValidityStatus.ValidWithWarnings else as_status r0) /\
  (Continue ∈ recommendations r <-> Continue ∈ recommendations r0) /\
  blockers r = order_blockers step next ++
    (assessed_assumptions required ≫= assumption_blockers committing active) ++
    (assessed_invariants demands ≫= invariant_blockers committing demands) ++
    (active ≫= checkpoint_blockers) ++ (gates_at plan state next ≫= gate_blockers) ++
    (List.filter (fun p => bool_decide (point_id p ∈ crossed_commitment_points state)) (commitment_points plan)
      ≫= point_blockers) ++
    step_blockers context step next.
Proof.
  intros Hb0 Ha0 Hi0 required Hreq. cbn zeta. unfold report_on. fold (committing_at next). rewrite Hreq. cbn [mbind run_bind].
  fold (assessed_assumptions required).
  set (active := active_checkpoints plan state). set (demands := required_invariant_ids _ _ _).
  fold (assessed_invariants demands). set (committing := committing_at next) in *.
  set (b1 := _ || _). set (r1 := block_if b1 _ r0).
  assert (blockers r1 = order_blockers step next /\ as_assumptions r1 = [] /\ as_invariants r1 = [] /\
    as_status r1 = as_status r0 /\ next_step r1 = next_step r0 /\ recommendations r1 = recommendations r0)
    as (Hb1 & Ha1 & Hi1 & Hs1 & Hn1 & Hc1).
  { split; [unfold r1; by rewrite blockers_block_if, Hb0|]. unfold r1, block_if. by destruct b1. }
  destruct (loop_assumptions index committing active (assessed_assumptions required) r1)
    as (Hb2 & Ha2 & Hs2 & Hc2 & Hi2 & Hn2). set (r2 := foldl _ r1 _) in *.
  destruct (loop_invariants committing demands (assessed_invariants demands) r2)
    as (Hb3 & Hi3 & Hs3 & Ha3 & Hc3 & Hn3). set (r3 := foldl _ r2 _) in *.
  destruct (loop_checkpoints active r3) as (Hb4 & Hs4 & Ha4 & Hi4 & Hc4 & Hn4). set (r4 := foldl _ r3 _) in *.
  destruct (loop_gates (gates_at plan state next) r4) as (Hb5 & Hs5 & Hc5 & Hn5).
  { intros Hg Hnil. rewrite Hb4, Hb3, Hb2 in Hnil.
    apply app_eq_nil in Hnil as [[[_ HA]%app_eq_nil HI]%app_eq_nil _].
    assert (committing = true) as Hct.
    { unfold committing, committing_at. rewrite bool_decide_eq_false_2; [done|]. by intros ?%nil_length_inv. }
    clearbody committing. subst committing. apply (committing_supported active demands (assessed_assumptions required)
      (assessed_invariants demands)); [rewrite Ha4, Ha3, Ha2, Ha1|rewrite Hi4, Hi3, Hi2, Hi1|..]; done. }
  set (r5 := foldl _ r4 _) in *.
  destruct (loop_points (List.filter (fun p => bool_decide (point_id p ∈ crossed_commitment_points state))
    (commitment_points plan)) r5) as (Hb6 & Hs6 & Hc6 & Hn6). set (r6 := foldl _ r5 _) in *.
  destruct (assess_step_others context step next r6) as (Hs7 & Hc7 & Hn7).
  eexists. split_and!; [done| | | |].
  - congruence.
  - by rewrite Hs7, Hs6, Hs5, Hs4, Hs3, Hs2, Hs1.
  - by rewrite Hc7, Hc6, Hc5, Hc4, Hc3, Hc2, Hc1.
  - rewrite assess_step_blockers, Hb6, Hb5, Hb4, Hb3, Hb2, Hb1. by rewrite <- !app_assoc.
Qed.
End decision.
