(* ===== verification/PlanAdmission.v ===== *)
(** The contract of plan evaluation: it always answers, and it lets the next step
    continue exactly when the step is admissible. *)
From S2P Require Import Prelude Worklist Semver Scope Hierarchy EconomicsModel EffectModel CapabilityModel PlanModel PlanValidity PlanWellFormed PlanPredicates PlanDecision.

Lemma elem_of_when x b y : x ∈ when b y <-> b = true /\ x = y.
Proof. destruct b; cbn; [rewrite list_elem_of_singleton; naive_solver|]. split; [by intros ?%not_elem_of_nil|by intros []]. Qed.

(** The blocker of the hypothesis is none of those that its source raises. *)
Ltac no_blocker H :=
  first [ apply not_elem_of_nil in H; done
        | apply list_elem_of_singleton in H; done
        | apply elem_of_when in H as [_ H]; done ].

Section admission.
Context `{SerdeJson}.
Context (inputs : PlanEvaluationInputs) (plan : ExecutionPlan) (state : PlanState) (now : Z).
Implicit Types (r : PlanValidityAssessment) (step : PlanStep) (context : RuntimeDecisionContext).

#[local] Abbreviation committing := (committing_at inputs plan state).
#[local] Abbreviation needed := (needed inputs plan state).
#[local] Abbreviation demanded := (demanded plan state).
#[local] Abbreviation validity := (assumption_validity plan state now).

(** An assumption without which the step must not be taken. *)
Definition critical step (a : PlanAssumption) : Prop :=
  severe (assumption_severity a) = true \/ committing (step_id step) = true \/
  exists c, c ∈ active_checkpoints plan state /\ assumption_id a ∈ assumptions_to_revalidate c.
(** What the claims say about an invariant. *)
Definition invariant_validity step (i : PlanInvariant) : AssumptionValidity.t :=
  assess_predicate (condition i) NoRequirement state now
    (if committing (step_id step) then commitment_point_max_age (freshness_policy plan)
     else critical_max_age (freshness_policy plan)).

Record admissible context step : Prop := {
  (** The step is not done, and everything it depends on is. *)
  ad_pending : step_id step ∉ completed_steps state;
  ad_dependencies : step_dependencies step ⊆ completed_steps state;
  (** Critical assumptions it needs are supported. *)
  ad_assumptions : forall a, a ∈ assumptions plan -> needed step a -> critical step a ->
    validity (committing (step_id step)) a = AssumptionValidity.Supported;
  (** No invariant in force is contradicted; the ones demanded or critical are supported. *)
  ad_not_violated : forall i, i ∈ invariants plan -> demanded step i \/ plan_invariant_active i state = true ->
    invariant_validity step i <> AssumptionValidity.Contradicted;
  ad_invariants : forall i, i ∈ invariants plan -> demanded step i \/ plan_invariant_active i state = true ->
    severe (invariant_severity i) = true \/ committing (step_id step) = true \/ demanded step i ->
    invariant_validity step i = AssumptionValidity.Supported;
  (** Checkpoints in reach have their observations. *)
  ad_checkpoints : forall c o, c ∈ active_checkpoints plan state -> o ∈ required_observations c ->
    assess_predicate (ob_condition o) (ob_freshness o) state now (critical_max_age (freshness_policy plan)) =
      AssumptionValidity.Supported;
  (** Gates of commitment points not crossed yet. *)
  ad_recoveries : forall g x, g ∈ gates_at plan state (step_id step) -> x ∈ required_recoveries g ->
    x ∈ available_recoveries inputs;
  ad_approvals : forall g x, g ∈ gates_at plan state (step_id step) -> x ∈ required_approvals g ->
    ap_id x ∈ valid_approvals inputs;
  ad_diversity : forall g, g ∈ gates_at plan state (step_id step) -> commitment_point g ∉ low_diversity inputs;
  (** Recoveries that crossed commitment points demand. *)
  ad_crossed : forall p x, p ∈ commitment_points plan -> point_id p ∈ crossed_commitment_points state ->
    x ∈ new_recovery_requirements p -> x ∈ available_recoveries inputs;
  (** The step itself. *)
  ad_capabilities : forall x, x ∈ required_capabilities step -> x ∈ available_capabilities context;
  ad_knowledge : step_id step ∉ changed_knowledge inputs;
  ad_components : step_id step ∉ invalid_components inputs;
  ad_nested : nested_blockers inputs !! step_id step = None;
  ad_approval_step : forall requirement, step_kind step = StepApproval requirement ->
    ap_id requirement ∈ valid_approvals inputs;
  ad_supported_kind : forall kind, step_kind step <> StepCustom kind;
  ad_conflicts : forall k, operational_knowledge context = Some k -> unresolved_conflicts k = [];
}.

(** * Blockers and their reasons *)

Lemma any_missing_spec l (s : gset string) : any_missing l s = false <-> forall x, x ∈ l -> x ∈ s.
Proof.
  unfold any_missing. rewrite <- not_true_iff_false, existsb_exists. setoid_rewrite <- list_elem_of_In.
  setoid_rewrite negb_true_iff. setoid_rewrite bool_decide_eq_false. split; [|naive_solver].
  intros Hl x Hx. destruct (decide (x ∈ s)); naive_solver.
Qed.

Lemma order_nil step : order_blockers state step (step_id step) = [] <->
  step_id step ∉ completed_steps state /\ step_dependencies step ⊆ completed_steps state.
Proof.
  unfold order_blockers. rewrite when_nil, orb_false_iff, bool_decide_eq_false, negb_false_iff.
  unfold dependencies_completed. rewrite forallb_forall. setoid_rewrite <- list_elem_of_In.
  by setoid_rewrite bool_decide_eq_true.
Qed.

Lemma critical_spec step a :
  assumption_critical (committing (step_id step)) (active_checkpoints plan state) a = true <-> critical step a.
Proof.
  unfold assumption_critical, critical. rewrite !orb_true_iff, existsb_exists.
  setoid_rewrite <- list_elem_of_In. setoid_rewrite bool_decide_eq_true. tauto.
Qed.
Lemma assumption_nil step a :
  assumption_blockers plan state now (committing (step_id step)) (active_checkpoints plan state) a = [] <->
  (critical step a -> validity (committing (step_id step)) a = AssumptionValidity.Supported).
Proof.
  unfold assumption_blockers. rewrite when_nil, <- critical_spec, andb_false_iff, negb_false_iff, bool_decide_eq_true.
  destruct (assumption_critical _ _ a); naive_solver.
Qed.

Lemma invariant_satisfied_spec step i : (invariant_satisfied plan state now (committing (step_id step)) i).2 =
  match invariant_validity step i with
  | AssumptionValidity.Supported => Some true
  | AssumptionValidity.Contradicted => Some false
  | _ => None
  end.
Proof. done. Qed.
Lemma invariant_nil step demands i : (invariant_id i ∈ demands <-> demanded step i) ->
  invariant_blockers plan state now (committing (step_id step)) demands i = [] <->
  invariant_validity step i <> AssumptionValidity.Contradicted /\
  (severe (invariant_severity i) = true \/ committing (step_id step) = true \/ demanded step i ->
   invariant_validity step i = AssumptionValidity.Supported).
Proof.
  intros Hd. unfold invariant_blockers. rewrite invariant_satisfied_spec, <- Hd.
  destruct (invariant_validity step i).
  1: by split.
  1: by split; [|intros []].
  all: rewrite when_nil, !orb_false_iff, bool_decide_eq_false, <- !not_true_iff_false; split; [intros [[??]?]|intros [_ Hn]].
  all: try (split; [done|]; intros [?|[?|?]]; by exfalso).
  all: split_and!; intros Hx; pose proof (Hn ltac:(tauto)); done.
Qed.

Lemma observation_fold max_age l acc :
  let r := foldl (observation_step state now max_age) acc l in
  (r.1 = [] <-> acc.1 = [] /\ forall o, o ∈ l ->
    assess_predicate (ob_condition o) (ob_freshness o) state now max_age = AssumptionValidity.Supported) /\
  (r.1 = [] -> r.2 = acc.2).
Proof.
  revert acc. induction l as [|o l IH]; intros acc; cbn [foldl].
  { split; [|done]. split; [intros ?; split; [done|by intros ? ?%not_elem_of_nil]|by intros []]. }
  destruct (IH (observation_step state now max_age acc o)) as [H1 H2].
  assert ((observation_step state now max_age acc o).1 = [] <-> acc.1 = [] /\
    assess_predicate (ob_condition o) (ob_freshness o) state now max_age = AssumptionValidity.Supported) as Ho.
  { unfold observation_step. destruct (assess_predicate _ _ _ _ _); cbn; [tauto|..];
      (split; [intros [_ ?]%app_eq_nil; done|by intros [_ ?]]). }
  split.
  - rewrite H1, Ho. setoid_rewrite elem_of_cons. naive_solver.
  - intros Hr. rewrite (H2 Hr). apply H1 in Hr as [[_ Hs]%Ho _]. unfold observation_step. by rewrite Hs.
Qed.
Lemma checkpoint_nil c : checkpoint_blockers plan state now c = [] <-> forall o, o ∈ required_observations c ->
  assess_predicate (ob_condition o) (ob_freshness o) state now (critical_max_age (freshness_policy plan)) =
    AssumptionValidity.Supported.
Proof.
  unfold checkpoint_blockers, evaluate_checkpoint.
  destruct (observation_fold (critical_max_age (freshness_policy plan)) (required_observations c) ([], false)) as [H1 H2].
  destruct (foldl _ _ _) as [missing failed]. cbn [fst snd ce_status] in *.
  destruct failed; cbn [ce_status].
  - split; [done|]. intros Hs. enough (true = false) by done. apply H2, H1. done.
  - case_bool_decide as Hm; cbn; split; try done; [intros _; by apply H1|]. intros Hs. destruct Hm. by apply H1.
Qed.

Lemma gate_nil g : gate_blockers inputs g = [] <->
  (forall x, x ∈ required_recoveries g -> x ∈ available_recoveries inputs) /\
  (forall x, x ∈ required_approvals g -> ap_id x ∈ valid_approvals inputs) /\
  commitment_point g ∉ low_diversity inputs.
Proof.
  unfold gate_blockers. split.
  - intros [Hr [Ha Hd]%app_eq_nil]%app_eq_nil. 
    apply when_nil in Hr. apply when_nil in Ha. apply when_nil in Hd. rewrite any_missing_spec in Hr. rewrite any_missing_spec in Ha.
    apply bool_decide_eq_false in Hd. split_and!; [done| |done]. intros x Hx. apply Ha. by apply list_elem_of_fmap_2.
  - intros (Hr & Ha & Hd). apply any_missing_spec in Hr. rewrite Hr, bool_decide_eq_false_2 by done.
    assert (any_missing (ap_id <$> required_approvals g) (valid_approvals inputs) = false) as ->; [|done].
    apply any_missing_spec. intros x (y & -> & Hy)%list_elem_of_fmap. by apply Ha.
Qed.

Lemma step_nil context step : step_blockers inputs context step (step_id step) = [] <->
  (forall x, x ∈ required_capabilities step -> x ∈ available_capabilities context) /\
  step_id step ∉ changed_knowledge inputs /\ step_id step ∉ invalid_components inputs /\
  nested_blockers inputs !! step_id step = None /\
  (forall requirement, step_kind step = StepApproval requirement -> ap_id requirement ∈ valid_approvals inputs) /\
  (forall kind, step_kind step <> StepCustom kind) /\
  (forall k, operational_knowledge context = Some k -> unresolved_conflicts k = []).
Proof.
  unfold step_blockers.
  assert (forall A (l l' : list A), l ++ l' = [] <-> l = [] /\ l' = []) as Happ.
  { intros A [] []; cbn; naive_solver. }
  rewrite !Happ, !when_nil, !bool_decide_eq_false.
  assert (existsb (fun c => negb (bool_decide (c ∈ available_capabilities context))) (required_capabilities step) = false <->
    forall x, x ∈ required_capabilities step -> x ∈ available_capabilities context) as ->.
  { rewrite <- not_true_iff_false, existsb_exists. setoid_rewrite <- list_elem_of_In.
    setoid_rewrite negb_true_iff. setoid_rewrite bool_decide_eq_false. split; [|naive_solver].
    intros Hl x Hx. destruct (decide (x ∈ available_capabilities context)); naive_solver. }
  assert (match nested_blockers inputs !! step_id step with
    | Some _ => [PlanValidityBlocker.KnowledgeConflict] | None => [] end = [] <->
    nested_blockers inputs !! step_id step = None) as -> by (destruct (nested_blockers inputs !! _); naive_solver).
  assert (match operational_knowledge context with Some k => negb (bool_decide (unresolved_conflicts k = [])) | None => false end = false <->
    forall k, operational_knowledge context = Some k -> unresolved_conflicts k = []) as ->.
  { destruct (operational_knowledge context) as [k|]; [|naive_solver].
    rewrite negb_false_iff, bool_decide_eq_true. naive_solver. }
  destruct (step_kind step); rewrite ?when_nil, ?negb_false_iff, ?bool_decide_eq_true; naive_solver.
Qed.

(** * The report and the verdict *)

(** The blockers of the whole report, [required] being the ids of the assumptions needed. *)
Definition all_blockers context step (required : gset string) : list PlanValidityBlocker.t :=
  let active := active_checkpoints plan state in
  let demands := required_invariant_ids step (gates_at plan state (step_id step)) active in
  order_blockers state step (step_id step) ++
  (assessed_assumptions plan required ≫= assumption_blockers plan state now (committing (step_id step)) active) ++
  (assessed_invariants plan state demands ≫= invariant_blockers plan state now (committing (step_id step)) demands) ++
  (active ≫= checkpoint_blockers plan state now) ++ (gates_at plan state (step_id step) ≫= gate_blockers inputs) ++
  (List.filter (fun p => bool_decide (point_id p ∈ crossed_commitment_points state)) (commitment_points plan)
    ≫= point_blockers inputs) ++
  step_blockers inputs context step (step_id step).

Lemma app_nil_iff {A} (l l' : list A) : l ++ l' = [] <-> l = [] /\ l' = [].
Proof. destruct l, l'; cbn; naive_solver. Qed.

Lemma elem_of_assessed step required : (forall a, a ∈ assumptions plan -> assumption_id a ∈ required <-> needed step a) ->
  forall a, a ∈ assessed_assumptions plan required <-> a ∈ assumptions plan /\ needed step a.
Proof.
  intros Hreq a. unfold assessed_assumptions. rewrite elem_of_list_filter_bool, bool_decide_eq_true.
  split; intros [? ?]; split; try done; by apply Hreq.
Qed.
Lemma elem_of_assessed_invariants step i :
  i ∈ assessed_invariants plan state
    (required_invariant_ids step (gates_at plan state (step_id step)) (active_checkpoints plan state)) <->
  i ∈ invariants plan /\ (demanded step i \/ plan_invariant_active i state = true).
Proof.
  unfold assessed_invariants. rewrite elem_of_list_filter_bool, orb_true_iff, bool_decide_eq_true, demanded_spec. tauto.
Qed.
Lemma elem_of_crossed p :
  p ∈ List.filter (fun p => bool_decide (point_id p ∈ crossed_commitment_points state)) (commitment_points plan) <->
  p ∈ commitment_points plan /\ point_id p ∈ crossed_commitment_points state.
Proof. rewrite elem_of_list_filter_bool, bool_decide_eq_true. tauto. Qed.

Lemma all_blockers_nil context step required :
  (forall a, a ∈ assumptions plan -> assumption_id a ∈ required <-> needed step a) ->
  all_blockers context step required = [] <-> admissible context step.
Proof.
  intros Hreq. unfold all_blockers. cbn zeta. rewrite !app_nil_iff, !bind_nil, order_nil, step_nil.
  setoid_rewrite (elem_of_assessed step required Hreq).
  setoid_rewrite elem_of_assessed_invariants. setoid_rewrite elem_of_crossed. setoid_rewrite assumption_nil.
  setoid_rewrite (fun i => invariant_nil step _ i (demanded_spec plan state step i)).
  setoid_rewrite checkpoint_nil. setoid_rewrite gate_nil.
  assert (forall p, point_blockers inputs p = [] <->
    forall x, x ∈ new_recovery_requirements p -> x ∈ available_recoveries inputs) as Hp.
  { intros p. unfold point_blockers. by rewrite when_nil, any_missing_spec. }
  setoid_rewrite Hp. split.
  - intros ([? ?] & Ha & Hi & Hc & Hg & Hx & ? & ? & ? & ? & ? & ? & ?). split; try done.
    + intros a Hin Hn. exact (Ha a (conj Hin Hn)).
    + intros i Hin Hd. exact (proj1 (Hi i (conj Hin Hd))).
    + intros i Hin Hd. exact (proj2 (Hi i (conj Hin Hd))).
    + intros c o Hin. exact (Hc c Hin o).
    + intros g x Hin. exact (proj1 (Hg g Hin) x).
    + intros g x Hin. exact (proj1 (proj2 (Hg g Hin)) x).
    + intros g Hin. exact (proj2 (proj2 (Hg g Hin))).
    + intros p x Hin Hcr. exact (Hx p (conj Hin Hcr) x).
  - intros []. split_and!; try done.
    + intros a [Hin Hn]. by apply ad_assumptions0.
    + intros i [Hin Hd]. split; auto.
    + intros c Hin o. exact (ad_checkpoints0 c o Hin).
    + intros g Hin. split_and!; [intros x; exact (ad_recoveries0 g x Hin)|intros x; exact (ad_approvals0 g x Hin)|auto].
    + intros p [Hin Hcr] x. exact (ad_crossed0 p x Hin Hcr).
Qed.

(** A needed assumption that is not supported, though the step may go without it. *)
Definition warned step : Prop :=
  exists a, a ∈ assumptions plan /\ needed step a /\ ~ critical step a /\
    validity (committing (step_id step)) a <> AssumptionValidity.Supported.
Lemma warned_spec step required : (forall a, a ∈ assumptions plan -> assumption_id a ∈ required <-> needed step a) ->
  existsb (warns plan state now (committing (step_id step)) (active_checkpoints plan state))
    (assessed_assumptions plan required) = true <-> warned step.
Proof.
  intros Hreq. rewrite existsb_exists. unfold warned, warns. setoid_rewrite <- list_elem_of_In.
  setoid_rewrite (elem_of_assessed step required Hreq).
  setoid_rewrite andb_true_iff. setoid_rewrite negb_true_iff. setoid_rewrite bool_decide_eq_false.
  setoid_rewrite <- not_true_iff_false. setoid_rewrite critical_spec. naive_solver.
Qed.

(** Where each blocker that decides the verdict comes from. *)
Lemma elem_of_bind {A B} (f : A -> list B) (l : list A) y : y ∈ l ≫= f <-> exists x, x ∈ l /\ y ∈ f x.
Proof. rewrite list_elem_of_bind. naive_solver. Qed.

Lemma verdict_sources context step required b : b ∈ all_blockers context step required ->
  (b ∈ order_blockers state step (step_id step) \/ b ∈ step_blockers inputs context step (step_id step)) \/
  abstains b = false.
Proof.
  unfold all_blockers. cbn zeta. rewrite !elem_of_app, !elem_of_bind.
  intros [?|[(a & _ & Ha)|[(i & _ & Hi)|[(c & _ & Hc)|[(g & _ & Hg)|[(p & _ & Hp)|?]]]]]]; try tauto; right.
  - unfold assumption_blockers, assumption_blocker in Ha. apply elem_of_when in Ha as [_ ->].
    by destruct (assumption_validity _ _ _ _ _).
  - unfold invariant_blockers in Hi. destruct (invariant_satisfied _ _ _ _ _).2 as [[]|].
    + by apply not_elem_of_nil in Hi.
    + by apply list_elem_of_singleton in Hi as ->.
    + by apply elem_of_when in Hi as [_ ->].
  - unfold checkpoint_blockers in Hc. destruct (ce_status _); try by apply list_elem_of_singleton in Hc as ->.
    by apply not_elem_of_nil in Hc.
  - unfold gate_blockers in Hg. rewrite !elem_of_app, !elem_of_when in Hg. naive_solver.
  - unfold point_blockers in Hp. by apply elem_of_when in Hp as [_ ->].
Qed.

(** Why a step is refused for good: its place in the plan, its kind or a capability. *)
Definition refused context step : Prop :=
  step_id step ∈ completed_steps state \/ ~ step_dependencies step ⊆ completed_steps state \/
  (exists kind, step_kind step = StepCustom kind) \/
  exists x, x ∈ required_capabilities step /\ x ∉ available_capabilities context.

Lemma refused_spec context step required :
  existsb abstains (all_blockers context step required) = true <-> refused context step.
Proof.
  rewrite existsb_exists. setoid_rewrite <- list_elem_of_In. split.
  - intros (b & Hb & Ha). destruct (verdict_sources _ _ _ _ Hb) as [[Ho|Hs]|]; [| |congruence].
    + assert (order_blockers state step (step_id step) <> []) as Hn by (intros Hn; rewrite Hn in Ho; by apply not_elem_of_nil in Ho).
      rewrite order_nil in Hn. unfold refused. destruct (decide (step_id step ∈ completed_steps state)); [by left|]. tauto.
    + unfold step_blockers in Hs. rewrite !elem_of_app, !elem_of_when in Hs. unfold refused.
      destruct Hs as [[He _]|[[_ ->]|[[_ ->]|[Hs|[Hs|[_ ->]]]]]]; try done.
      * apply existsb_exists in He as (x & Hx%list_elem_of_In & Hn%negb_true_iff%bool_decide_eq_false). eauto 6.
      * destruct (nested_blockers inputs !! _); [apply list_elem_of_singleton in Hs as ->; done|by apply not_elem_of_nil in Hs].
      * destruct (step_kind step); try by apply not_elem_of_nil in Hs.
        -- by apply elem_of_when in Hs as [_ ->].
        -- eauto 6.
  - intros Hr. unfold all_blockers. cbn zeta. setoid_rewrite elem_of_app.
    assert ((order_blockers state step (step_id step) <> []) \/ (exists kind, step_kind step = StepCustom kind) \/
      exists x, x ∈ required_capabilities step /\ x ∉ available_capabilities context) as [Ho|[[kind Hk]|(x & Hx & Hn)]].
    { unfold refused in Hr. rewrite order_nil. tauto. }
    + exists PlanValidityBlocker.MissingDependency. split; [|done]. left. unfold order_blockers in *.
      destruct (_ || _); [by left|done].
    + exists PlanValidityBlocker.UnsupportedStep. split; [|done]. do 6 (right; try rewrite elem_of_app).
      unfold step_blockers. rewrite !elem_of_app, Hk. do 4 right. left. by left.
    + exists PlanValidityBlocker.MissingCapability. split; [|done]. do 6 (right; try rewrite elem_of_app).
      unfold step_blockers. rewrite !elem_of_app, elem_of_when. left. split; [|done].
      apply existsb_exists. exists x. rewrite <- list_elem_of_In. split; [done|].
      by rewrite bool_decide_eq_false_2.
Qed.

(** An invariant in force, or demanded before the step, that the claims contradict. *)
Definition violated step : Prop := exists i, i ∈ invariants plan /\
  (demanded step i \/ plan_invariant_active i state = true) /\
  invariant_validity step i = AssumptionValidity.Contradicted.

Lemma violated_spec context step required :
  PlanValidityBlocker.ViolatedInvariant ∈ all_blockers context step required <-> violated step.
Proof.
  unfold all_blockers. cbn zeta. rewrite !elem_of_app, !elem_of_bind. split.
  - intros [Ho|[(a & _ & Ha)|[(i & Hin & Hi)|[(c & _ & Hc)|[(g & _ & Hg)|[(p & _ & Hp)|Hs]]]]]].
    + unfold order_blockers in Ho. no_blocker Ho.
    + unfold assumption_blockers, assumption_blocker in Ha. destruct (assumption_validity _ _ _ _ _); no_blocker Ha.
    + apply elem_of_assessed_invariants in Hin as [Hin Hd]. exists i. split_and!; [done|done|].
      unfold invariant_blockers in Hi. rewrite invariant_satisfied_spec in Hi.
      destruct (invariant_validity step i); [no_blocker Hi|done|no_blocker Hi..].
    + unfold checkpoint_blockers in Hc. destruct (ce_status _); no_blocker Hc.
    + unfold gate_blockers in Hg. rewrite !elem_of_app, !elem_of_when in Hg. naive_solver.
    + unfold point_blockers in Hp. no_blocker Hp.
    + unfold step_blockers in Hs. rewrite !elem_of_app in Hs.
      destruct Hs as [Hs|[Hs|[Hs|[Hs|[Hs|Hs]]]]]; try no_blocker Hs.
      * destruct (nested_blockers inputs !! _); no_blocker Hs.
      * destruct (step_kind step); no_blocker Hs.
  - intros (i & Hin & Hd & Hv). right. right. left. exists i.
    split; [by apply elem_of_assessed_invariants|].
    unfold invariant_blockers. rewrite invariant_satisfied_spec, Hv. by left.
Qed.

Lemma conclude_blockers r : blockers (conclude state r) = blockers r /\ next_step (conclude state r) = next_step r.
Proof. unfold conclude. repeat case_match; done. Qed.
Lemma conclude_status r : as_status (conclude state r) =
  if existsb abstains (blockers r) then PlanValidityStatus.Invalid
  else if bool_decide (PlanValidityBlocker.ViolatedInvariant ∈ blockers r) &&
    negb (bool_decide (crossed_commitment_points state = [])) then PlanValidityStatus.RecoveryRequired
  else if existsb replans (blockers r) then PlanValidityStatus.ReplanRequired
  else if negb (bool_decide (blockers r = [])) then PlanValidityStatus.VerificationRequired
  else as_status r.
Proof. unfold conclude. repeat case_match; done. Qed.
Lemma conclude_continue r : Continue ∉ recommendations r ->
  Continue ∈ recommendations (conclude state r) <-> blockers r = [].
Proof.
  intros Hc. unfold conclude. destruct (existsb abstains _) eqn:Ha.
  { cbn. rewrite elem_of_app, list_elem_of_singleton. split; [naive_solver|]. intros Hb. by rewrite Hb in Ha. }
  case_bool_decide as Hv; cbn [andb].
  { assert (blockers r <> []) as Hn by (intros Hn; rewrite Hn in Hv; by apply not_elem_of_nil in Hv).
    repeat (case_match; cbn); try (rewrite elem_of_app, list_elem_of_singleton); try naive_solver.
    by case_bool_decide. }
  destruct (existsb replans _) eqn:Hr.
  { cbn. rewrite elem_of_app, list_elem_of_singleton. split; [naive_solver|]. intros Hb. by rewrite Hb in Hr. }
  case_bool_decide as Hb; cbn [negb]; [cbn; rewrite elem_of_app, list_elem_of_singleton; naive_solver|].
  case_bool_decide; cbn; rewrite ?elem_of_app, ?list_elem_of_singleton; naive_solver.
Qed.
Lemma conclude_open r : (blockers r = [] -> as_status (conclude state r) = as_status r) /\
  (blockers r <> [] -> as_status (conclude state r) <> PlanValidityStatus.Valid /\
    as_status (conclude state r) <> PlanValidityStatus.ValidWithWarnings).
Proof.
  rewrite conclude_status. split; [intros ->|intros Hb].
  - cbn. by rewrite bool_decide_eq_false_2 by (by intros ?%not_elem_of_nil).
  - rewrite (bool_decide_eq_false_2 (blockers r = [])) by done. cbn. repeat case_match; done.
Qed.
End admission.

(** * Evaluation *)

Section evaluate.
Context `{SerdeJson} (composition_hash : PlanState -> result string).
Context (inputs : PlanEvaluationInputs) (assessment_id : string) (clock : Z) (plan : ExecutionPlan)
  (state : PlanState) (context : RuntimeDecisionContext).
#[local] Abbreviation now := (default clock (in_now inputs)).
#[local] Abbreviation evaluated := (evaluate composition_hash inputs assessment_id clock plan state context).

(** The state is one of the plan's revision. *)
Record state_matches : Prop := {
  sm_plan : st_plan state = plan_id plan;
  sm_revision : st_revision state = revision plan;
  sm_completed : completed_steps state ⊆ step_id <$> steps plan;
  sm_once : NoDup (completed_steps state);
}.
Lemma state_mismatch_spec : state_mismatch plan state = false <-> state_matches.
Proof.
  unfold state_mismatch. rewrite !orb_false_iff, !negb_false_iff, !bool_decide_eq_true.
  unfold step_ids. rewrite any_missing_false, duplicated_false, list_fmap_id. split.
  - intros [[[??]?]?]. by split.
  - by intros [].
Qed.

Lemma find_step_Some n step : find_step plan n = Some step -> step ∈ steps plan /\ step_id step = n.
Proof. unfold find_step. intros [Hs%list_elem_of_In Hn%bool_decide_eq_true]%List.find_some. done. Qed.
Lemma find_step_None n : find_step plan n = None <-> n ∉ step_id <$> steps plan.
Proof.
  unfold find_step. split.
  - intros Hf (s & -> & Hs)%list_elem_of_fmap.
    pose proof (List.find_none _ _ Hf s (proj1 (list_elem_of_In _ _) Hs)) as Hn. cbn in Hn.
    by rewrite bool_decide_eq_true_2 in Hn.
  - intros Hn. destruct (List.find _ _) as [s|] eqn:Hf; [|done].
    apply List.find_some in Hf as [Hs%list_elem_of_In He%bool_decide_eq_true]. destruct Hn. rewrite <- He.
    by apply list_elem_of_fmap_2.
Qed.
Lemma next_ready_spec completed n : next_ready plan completed = Some n ->
  exists s, s ∈ steps plan /\ step_id s = n /\ n ∉ completed /\ step_dependencies s ⊆ completed.
Proof.
  unfold next_ready. destruct (List.find _ _) as [s|] eqn:Hf; [|done]. intros [= <-].
  apply List.find_some in Hf as [Hs%list_elem_of_In [Hn%negb_true_iff%bool_decide_eq_false Hd]%andb_true_iff].
  exists s. split_and!; [done..|]. unfold dependencies_completed in Hd. rewrite forallb_forall in Hd.
  intros d Hin%list_elem_of_In. apply Hd in Hin. by apply bool_decide_eq_true in Hin.
Qed.

(** What is needed for an answer. *)
Definition answerable : Prop :=
  plan_wf plan /\ state_matches /\ is_ok (plan_state_hash composition_hash state) = true /\
  forall n, current_step state = Some n -> n ∈ step_id <$> steps plan.

(** The report, before the verdict. *)
Definition reported (r : PlanValidityAssessment) : Prop :=
  match next_of plan state with
  | None => blockers r = [] /\ as_status r = PlanValidityStatus.Valid /\ recommendations r = [] /\ next_step r = None
  | Some next => exists step r0 required, step ∈ steps plan /\ step_id step = next /\ r = conclude state r0 /\
      next_step r0 = Some next /\ Continue ∉ recommendations r0 /\
      (forall a, a ∈ assumptions plan -> assumption_id a ∈ required <-> needed inputs plan state step a) /\
      as_status r0 = (if existsb (warns plan state now (committing_at inputs plan state next) (active_checkpoints plan state))
          (assessed_assumptions plan required)
        then PlanValidityStatus.ValidWithWarnings else PlanValidityStatus.Valid) /\
      blockers r0 = all_blockers inputs plan state now context step required
  end.

Lemma evaluate_cases :
  (answerable /\ exists r, evaluated = Ret (Ok r) /\ reported r) \/
  (~ answerable /\ exists e, evaluated = Ret (Err e)).
Proof.
  unfold evaluate, answerable. destruct (validate_plan_spec plan) as [(Hwf & index & -> & Hi)|(Hwf & message & ->)];
    [|right; split; [tauto|by eexists]]. cbn [and_then].
  destruct (state_mismatch plan state) eqn:Hm.
  { right. split; [|by eexists]. intros (_ & Hs & _). apply state_mismatch_spec in Hs. congruence. }
  apply state_mismatch_spec in Hm. unfold reported.
  destruct (plan_state_hash composition_hash state) as [hash|e]; cbn [and_then];
    [|right; split; [by intros (_ & _ & ? & _)|by eexists]].
  destruct (next_of plan state) as [next|] eqn:Hnext.
  - destruct (find_step plan next) as [step|] eqn:Hf; cbn [ok_or and_then].
    + left. apply find_step_Some in Hf as [Hs He]. split.
      { split_and!; [done|done|done|]. intros n Hc. unfold next_of in Hnext. rewrite Hc in Hnext.
        injection Hnext as <-. rewrite <- He. by apply list_elem_of_fmap_2. }
      subst next. destruct (needed_spec inputs plan state index step (* any *)
        (mkAssumption EmptyString EmptyString (EvaluatorCheck EmptyString EmptyString) AssumptionSource.Derived []
          AssumptionValidity.Unknown (mkAssumptionFreshness 0 NoRequirement FreshnessStatus.Unknown) Severity.Low [])
        Hwf Hi Hs) as (required & Hreq & _).
      destruct (report_on_shape inputs plan state now context index step (step_id step)
        (empty_report assessment_id plan (Some (step_id step)) hash now) eq_refl eq_refl eq_refl required Hreq)
        as (r0 & -> & Hn & Hst & Hc & Hb).
      eexists. split; [done|]. exists step, r0, required. split_and!; try done.
      * rewrite Hc. cbn. apply not_elem_of_nil.
      * intros a Ha. destruct (needed_spec inputs plan state index step a Hwf Hi Hs) as (required' & Hreq' & Hn').
        rewrite Hreq in Hreq'. injection Hreq' as <-. by apply Hn'.
    + right. apply find_step_None in Hf. split; [|by eexists]. intros (_ & _ & _ & Hc).
      unfold next_of in Hnext. destruct (current_step state) as [n|]; [injection Hnext as ->; by apply Hf, Hc|].
      apply next_ready_spec in Hnext as (s & Hs & <- & _). by apply Hf, list_elem_of_fmap_2.
  - left. split; [|eexists; split; [done|done]]. split_and!; [done|done|done|]. intros n Hc.
    unfold next_of in Hnext. by rewrite Hc in Hnext.
Qed.

Lemma evaluated_reported r : evaluated = Ret (Ok r) -> answerable /\ reported r.
Proof. destruct evaluate_cases as [(Ha & r' & -> & Hr)|(_ & e & ->)]; [|done]. intros [= ->]. done. Qed.

(** Evaluating a plan always answers, without panicking or looping: with an
    assessment exactly when the plan is well-formed, the state is one of its
    revision (with steps of the plan completed at most once), the state can be
    hashed and its current step is a step of the plan, and otherwise with an error. *)
Theorem evaluate_total :
  (answerable <-> exists r, evaluated = Ret (Ok r)) /\ (~ answerable <-> exists e, evaluated = Ret (Err e)).
Proof.
  destruct evaluate_cases as [(Ha & r & -> & _)|(Ha & e & ->)]; split; split; try done; try eauto;
    try by intros [? ?].
Qed.

(** When the next step is admissible. *)
Lemma continue_exact r next : evaluated = Ret (Ok r) -> next_of plan state = Some next ->
  next_step r = Some next /\
  exists step, step ∈ steps plan /\ step_id step = next /\
  (Continue ∈ recommendations r <-> admissible inputs plan state now context step) /\
  (as_status r = PlanValidityStatus.Valid <->
    admissible inputs plan state now context step /\ ~ warned inputs plan state now step) /\
  (as_status r = PlanValidityStatus.ValidWithWarnings <->
    admissible inputs plan state now context step /\ warned inputs plan state now step).
Proof.
  intros [_ Hr]%evaluated_reported Hnext. unfold reported in Hr. rewrite Hnext in Hr.
  destruct Hr as (step & r0 & required & Hs & <- & -> & Hn & Hc & Hreq & Hst & Hb).
  destruct (conclude_blockers state r0) as [_ ->]. split; [done|]. exists step.
  pose proof (all_blockers_nil inputs plan state now context step required Hreq) as Hnil. rewrite <- Hb in Hnil.
  pose proof (warned_spec inputs plan state now step required Hreq) as Hw.
  rewrite conclude_continue by done. destruct (conclude_open state r0) as [Hopen Hclosed]. rewrite Hst in Hopen.
  split_and!; [done|done|done|..]; rewrite <- Hnil, <- Hw; destruct (decide (blockers r0 = [])) as [He|He].
  - rewrite (Hopen He). destruct (existsb _ _); naive_solver.
  - split; [by intros ?%(proj1 (Hclosed He))|by intros []].
  - rewrite (Hopen He). destruct (existsb _ _); naive_solver.
  - split; [by intros ?%(proj2 (Hclosed He))|by intros []].
Qed.

(** C8. An assessment recommends to continue exactly when the next step is admissible:
    it is not done and its dependencies are; every critical assumption it needs is
    supported; no invariant in force is contradicted and the critical ones are
    supported; the checkpoints in reach have their observations; every gate of an
    uncrossed commitment point has its recoveries, approvals and diversity; and the
    step's capabilities, knowledge and components are in order. The status is then
    Valid, or ValidWithWarnings when some needed assumption that is not critical is
    not supported, and the status is one of these two only then. *)
Theorem evaluate_continue_exact r next : evaluated = Ret (Ok r) -> next_of plan state = Some next ->
  next_step r = Some next /\
  exists step, step ∈ steps plan /\ step_id step = next /\
  (Continue ∈ recommendations r <-> admissible inputs plan state now context step) /\
  (as_status r = PlanValidityStatus.Valid <->
    admissible inputs plan state now context step /\ ~ warned inputs plan state now step) /\
  (as_status r = PlanValidityStatus.ValidWithWarnings <->
    admissible inputs plan state now context step /\ warned inputs plan state now step).
Proof. apply continue_exact. Qed.

(** Whatever the claims say, a step is declared Invalid exactly when it is done, or
    depends on a step that is not, or is a custom step, or needs a capability that is
    not available; and recovery is required exactly when it is not Invalid, a
    commitment point has been crossed and an invariant in force or demanded is
    contradicted. *)
Theorem evaluate_verdict_exact r next : evaluated = Ret (Ok r) -> next_of plan state = Some next ->
  exists step, step ∈ steps plan /\ step_id step = next /\
  (as_status r = PlanValidityStatus.Invalid <-> refused state context step) /\
  (as_status r = PlanValidityStatus.RecoveryRequired <->
    ~ refused state context step /\ violated inputs plan state now step /\ crossed_commitment_points state <> []) /\
  as_status r <> PlanValidityStatus.Unknown.
Proof.
  intros [_ Hr]%evaluated_reported Hnext. unfold reported in Hr. rewrite Hnext in Hr.
  destruct Hr as (step & r0 & required & Hs & <- & -> & Hn & Hc & Hreq & Hst & Hb). exists step.
  split; [done|]. split; [done|]. rewrite conclude_status, Hst, Hb.
  rewrite <- (refused_spec inputs plan state now context step required).
  rewrite <- (violated_spec inputs plan state now context step required).
  destruct (existsb abstains _); [naive_solver|]. case_bool_decide as Hv; cbn [andb].
  - case_bool_decide as Hx; cbn [negb]; [|naive_solver]. repeat case_match; naive_solver.
  - repeat case_match; naive_solver.
Qed.
End evaluate.
