(* ===== verification/PlanRevalidation.v ===== *)
(** Validation, revalidation and drift: the theorems about whole calls. *)
From S2P Require Import Prelude Worklist Semver Scope Hierarchy EconomicsModel EffectModel CapabilityModel PlanModel PlanValidity PlanWellFormed PlanPredicates.

Section revalidation.
Context `{SerdeJson}.
Implicit Types (plan : ExecutionPlan) (state : PlanState).

(** C26. Validation always returns. It accepts exactly the plans that are well-formed:
    bounded, with positive ordered freshness limits and distinct ids, no dangling
    reference, dependencies without a cycle, one gate for every commitment point,
    and invariant scopes whose start precedes their end. The index it then returns
    holds what each step needs, on its own account or because an assumption names it,
    and for each assumption its steps in plan order. *)
Theorem validate_plan_exact plan :
  (plan_wf plan /\ exists index, validate_plan plan = Ret (Ok index) /\ index_correct plan index) \/
  (~ plan_wf plan /\ exists message, validate_plan plan = Ret (Err (InvalidInput message))).
Proof. apply validate_plan_spec. Qed.

(** C27. An assessment of a state predicate is Supported (Contradicted) exactly when,
    among the trusted claims on its key that are fresh, those of the highest trust
    agree on a value of which the condition holds (fails); it is Stale exactly when
    there are trusted claims and none is fresh. *)
Theorem assess_predicate_exact condition requirement state now max_age key : predicate_key condition = Some key ->
  let fresh := fresh_claims key requirement state now max_age in
  let r := assess_predicate condition requirement state now max_age in
  (r = AssumptionValidity.Supported <-> exists v, agree fresh v /\ condition_on condition key v = Some true) /\
  (r = AssumptionValidity.Contradicted <-> exists v, agree fresh v /\ condition_on condition key v = Some false) /\
  (r = AssumptionValidity.Stale <-> trusted_claims key state <> [] /\ fresh = []).
Proof. apply assess_predicate_spec. Qed.

(** A predicate that a key is absent is never assessed as Supported, and one that it
    is present never as Contradicted: a plan whose critical assumption is an absence
    can never be continued. *)
Theorem absence_never_supported path value requirement state now max_age :
  assess_predicate (StatePredicate path PredicateOperator.NotExists value) requirement state now max_age <>
    AssumptionValidity.Supported /\
  assess_predicate (StatePredicate path PredicateOperator.Exists value) requirement state now max_age <>
    AssumptionValidity.Contradicted.
Proof. apply absence_undecided. Qed.

(** * Revalidation *)

(** A step that is not completed and needs the assumption itself. *)
Definition directly_affected plan state (a s : string) : Prop :=
  exists step, step ∈ steps plan /\ step_id step = s /\ a ∈ step_assumptions plan step /\ s ∉ completed_steps state.
(** A step that is not completed depends on [x]. *)
Definition pending_after plan state (x y : string) : Prop := needs plan x y /\ y ∉ completed_steps state.

Lemma affected_spec plan state index changed s : index_correct plan index ->
  s ∈ affected index state changed <-> exists a, a ∈ changed /\ directly_affected plan state a s.
Proof.
  intros Hi. unfold affected. rewrite elem_of_union_list. setoid_rewrite list_elem_of_fmap. split.
  - intros (X & (a & -> & Ha) & Hs). exists a. split; [done|].
    apply elem_of_list_to_set, elem_of_list_filter_bool in Hs as [Hn%negb_true_iff%bool_decide_eq_false Hs].
    rewrite (ic_steps _ _ Hi) in Hs. apply list_elem_of_fmap in Hs as (step & -> & Hs).
    apply elem_of_list_filter_bool in Hs as [Hb%bool_decide_eq_true Hin]. by exists step.
  - intros (a & Ha & step & Hin & <- & Hb & Hn). eexists. split; [by exists a|].
    apply elem_of_list_to_set, elem_of_list_filter_bool. split.
    + unfold incomplete. by rewrite bool_decide_eq_false_2.
    + rewrite (ic_steps _ _ Hi). apply list_elem_of_fmap_2, elem_of_list_filter_bool.
      by rewrite bool_decide_eq_true.
Qed.

Lemma revalidates_spec state set step : revalidates state set step = true <->
  step_id step ∉ completed_steps state /\ exists d, d ∈ step_dependencies step /\ d ∈ set.
Proof.
  unfold revalidates, incomplete. rewrite andb_true_iff, negb_true_iff, bool_decide_eq_false, existsb_exists.
  setoid_rewrite <- list_elem_of_In. by setoid_rewrite bool_decide_eq_true.
Qed.

(** The steps to validate again after assumptions changed are exactly the steps not
    completed that need a changed assumption or come after such a step, through
    steps that are not completed; the invariants are exactly those that these steps
    require. The computation always returns, and fails only for an ill-formed plan. *)
Theorem revalidation_set_exact plan state changed : plan_wf plan ->
  exists r, revalidation_set plan state changed = Ret (Ok r) /\
  rv_assumptions r = changed /\ NoDup (rv_steps r) /\
  (forall s, s ∈ rv_steps r <-> exists a s0, a ∈ changed /\ directly_affected plan state a s0 /\
    rtc (pending_after plan state) s0 s) /\
  (forall i, i ∈ rv_invariants r <-> exists step, step ∈ steps plan /\ step_id step ∈ rv_steps r /\
    i ∈ required_invariants step).
Proof.
  intros Hwf. destruct (validate_plan_spec plan) as [(_ & index & Hv & Hi)|[]]; [|done].
  unfold revalidation_set. rewrite Hv. cbn [and_then].
  assert (forall (s s' : gset string) step, s ⊆ s' -> revalidates state s step = true -> revalidates state s' step = true)
    as Hmono by (intros ???; rewrite !revalidates_spec; set_solver).
  destruct (grow_loop_spec step_id (revalidates state) (steps plan) Hmono (S (length (steps plan)))
    (affected index state changed) (step_ids plan)) as (set & Hg & Hsub & Hgrown & _).
  { intros s (a & _ & step & Hs & <- & _)%(affected_spec plan state index changed); [|done].
    apply elem_of_ids. by apply list_elem_of_fmap_2. }
  { intros step Hs. apply elem_of_ids. by apply list_elem_of_fmap_2. }
  { pose proof (size_ids_le (step_id <$> steps plan)) as Hle. rewrite length_fmap in Hle.
    unfold step_ids, ids. lia. }
  assert (forall s, s ∈ set -> s ∈ step_id <$> steps plan) as Hids.
  { eapply (grow_loop_ind step_id (revalidates state) (steps plan)); [| |exact Hg].
    - intros _ step _ Hs _. by apply list_elem_of_fmap_2.
    - intros s (a & _ & step & Hs & <- & _)%(affected_spec plan state index changed); [|done].
      by apply list_elem_of_fmap_2. }
  rewrite Hg. cbn. eexists. split; [done|]. cbn [rv_assumptions rv_steps rv_invariants].
  split_and!; [done|apply NoDup_btree_set| |].
  - intros s. rewrite elem_of_btree_set. split.
    + revert s. eapply (grow_loop_ind step_id (revalidates state) (steps plan)); [| |exact Hg].
      * intros t step Ht Hs (Hn & d & Hd & Hdt)%revalidates_spec. destruct (Ht d Hdt) as (a & s0 & Ha & Hda & Hr).
        exists a, s0. split_and!; [done|done|]. eapply rtc_r; [done|]. split; [by exists step|done].
      * intros s (a & Ha & Hd)%(affected_spec plan state index changed); [|done]. exists a, s.
        split_and!; [done|done|apply rtc_refl].
    + intros (a & s0 & Ha & Hd & Hr). assert (s0 ∈ set) as Hs0 by (apply Hsub, (affected_spec plan); eauto).
      clear Hd. induction Hr as [|x y z [(step & Hs & <- & Hin) Hn] _ IH]; [done|]. apply IH, Hgrown; [done|].
      apply revalidates_spec. eauto.
  - intros i. rewrite elem_of_btree_set. unfold invariants_of. rewrite elem_of_union_list.
    setoid_rewrite list_elem_of_fmap. split.
    + intros (X & (s & -> & Hs) & Hx). apply elem_of_list_to_set in Hx.
      assert (s ∈ step_id <$> steps plan) as (step & -> & Hin)%list_elem_of_fmap
        by (by apply Hids, elem_of_btree_set).
      rewrite (ic_invariants _ _ Hi step Hin) in Hx. by exists step.
    + intros (step & Hin & Hs & Hx). eexists. split; [by exists (step_id step)|].
      apply elem_of_list_to_set. by rewrite (ic_invariants _ _ Hi step Hin).
Qed.
End revalidation.
