(* ===== verification/PlanExample.v ===== *)
(** A concrete plan: inspect a branch, deploy it behind a commitment gate, verify
    the deployment. The properties of plans are applied to it. *)
From S2P Require Import Prelude Worklist Semver Scope Hierarchy EconomicsModel EffectModel CapabilityModel PlanModel PlanValidity PlanWellFormed PlanPredicates PlanDecision PlanAdmission PlanRevalidation.

Module PlanExamples.
#[local] Existing Instance Sample.json.

Definition seconds (n : Z) : Z := (n * 10 ^ 9)%Z.

Definition on_branch : BehavioralCondition := StatePredicate "branch" PredicateOperator.Equals "main".
Definition no_incident : BehavioralCondition := StatePredicate "incident" PredicateOperator.Equals "none".
Definition assumption (id : string) (p : BehavioralCondition) (sev : Severity.t) : PlanAssumption :=
  mkAssumption id id p AssumptionSource.InitialObservation [] AssumptionValidity.Unknown
    (mkAssumptionFreshness 0 NoRequirement FreshnessStatus.Unknown) sev [].
Definition step (id : string) (kind : PlanStepKind) (deps needs invariants : list string) : PlanStep :=
  mkStep None None id kind deps needs invariants [] PlanStepStatus.Pending Severity.Medium [].

Definition release : ApprovalRequirement := mkApproval "release" ["deploy-effect"] (Some (seconds 600)).
Definition plan : ExecutionPlan :=
  mkPlan "plan-1" (mkGoal "Deploy the release" None) 1
    [step "inspect" (StepObserve (mkObservation "branch" on_branch NoRequirement)) [] ["on-branch"] [];
     step "deploy" (StepEffect "effects-1") ["inspect"] ["on-branch"] ["calm"];
     step "verify" (StepTool "smoke-test") ["deploy"] ["tests-known"] []]
    [assumption "on-branch" on_branch Severity.High; assumption "tests-known" on_branch Severity.Low]
    [mkInvariant "calm" no_incident (Between "inspect" "verify") Severity.High []]
    [] [mkPoint "released" "deploy" [mkConsequence "deploy-effect" "the release is public"] [] ["rollback"] []]
    [mkGate "released" ["on-branch"] ["calm"] [release] ["rollback"] None None]
    [] default_freshness_policy ∅ PlanStatus.Proposed 0.

Definition claim (key value : string) (source : StateClaimSource.t) (at_ : Z) : StateClaim :=
  mkClaim key (SString value) source (mkFreshness at_ None None None).
(** The branch was inspected; an agent also reports another branch, which counts less. *)
Definition claims : list StateClaim :=
  [claim "branch" "main" StateClaimSource.RuntimeObservation (seconds 100);
   claim "branch" "feature" StateClaimSource.StepOutput (seconds 110);
   claim "incident" "none" StateClaimSource.ToolAttestation (seconds 90)].
Definition state (observed : list StateClaim) : PlanState :=
  mkState "plan-1" 1 ["inspect"] (Some "deploy") observed ∅ ∅ [] [] ∅ 0 ∅ [] [] ∅.

Definition granted : PlanEvaluationInputs :=
  mkInputs (Some (seconds 120)) {["release"]} {["rollback"]} ∅ ∅ ∅ ∅ ∅.
Definition context : RuntimeDecisionContext := mkRuntimeContext [] None.
Definition hash (s : PlanState) : result string := Ok (st_plan s).

Definition evaluated (inputs : PlanEvaluationInputs) (observed : list StateClaim) : run (result PlanValidityAssessment) :=
  evaluate hash inputs "assessment-1" 0 plan (state observed) context.
Definition report (inputs : PlanEvaluationInputs) (observed : list StateClaim) : PlanValidityAssessment :=
  match evaluated inputs observed with
  | Ret (Ok r) => r
  | _ => empty_report EmptyString plan None EmptyString 0
  end.

Lemma plan_is_wf : plan_wf plan.
Proof.
  destruct (validate_plan_spec plan) as [[Hw _]|(_ & message & Hv)]; [done|].
  assert (is_ok (match validate_plan plan with Ret r => r | _ => Err (InvalidInput EmptyString) end) = true) as Hok
    by (vm_compute; reflexivity).
  by rewrite Hv in Hok.
Qed.
Example plan_has_cycle :
  check_acyclic (mkPlan "p" (mkGoal "g" None) 1
    [step "a" (StepCustom "x") ["b"] [] []; step "b" (StepCustom "x") ["a"] [] []] [] [] [] [] [] []
    default_freshness_policy ∅ PlanStatus.Proposed 0) = Err (InvalidInput "Plan dependency cycle").
Proof. vm_compute. reflexivity. Qed.

(** With approval, recovery and fresh claims the deployment may continue. *)
Example deploy_continues :
  as_status (report granted claims) = PlanValidityStatus.Valid /\ recommendations (report granted claims) = [Continue].
Proof. vm_compute. done. Qed.
(** Not with claims too old for a commitment. *)
Example deploy_needs_fresh_claims :
  as_status (report granted [claim "branch" "main" StateClaimSource.RuntimeObservation (seconds 50)]) =
    PlanValidityStatus.VerificationRequired.
Proof. vm_compute. done. Qed.
(** Nor without the approval. *)
Example deploy_needs_approval :
  as_gates (report (mkInputs (Some (seconds 120)) ∅ {["rollback"]} ∅ ∅ ∅ ∅ ∅) claims) =
  [mkGateEvaluation "released" CommitmentGateStatus.ApprovalRequired ["Fresh, effect-bound external approval required"]].
Proof. vm_compute. done. Qed.

Lemma assess_predicate_exact_witness :
  let s := state claims in
  assess_predicate on_branch NoRequirement s (seconds 120) None = AssumptionValidity.Supported <->
  exists v, agree (fresh_claims "branch" NoRequirement s (seconds 120) None) v /\
    condition_on on_branch "branch" v = Some true.
Proof. exact (proj1 (assess_predicate_exact on_branch NoRequirement (state claims) (seconds 120) None "branch" eq_refl)). Defined.

Lemma evaluate_continue_exact_witness :
  next_step (report granted claims) = Some "deploy" /\
  exists s, s ∈ steps plan /\ step_id s = "deploy" /\
  (Continue ∈ recommendations (report granted claims) <->
    admissible granted plan (state claims) (seconds 120) context s).
Proof.
  destruct (evaluate_continue_exact hash granted "assessment-1" 0 plan (state claims) context
    (report granted claims) "deploy") as (Hn & s & Hs & Hid & Hc & _).
  - vm_compute. reflexivity.
  - reflexivity.
  - split; [exact Hn|]. exists s. split; [exact Hs|]. split; [exact Hid|exact Hc].
Defined.

Lemma evaluate_verdict_exact_witness :
  exists s, s ∈ steps plan /\ step_id s = "deploy" /\
  (as_status (report granted claims) = PlanValidityStatus.Invalid <-> refused (state claims) context s).
Proof.
  destruct (evaluate_verdict_exact hash granted "assessment-1" 0 plan (state claims) context
    (report granted claims) "deploy") as (s & Hs & Hid & Hi & _).
  - vm_compute. reflexivity.
  - reflexivity.
  - exists s. split; [exact Hs|]. split; [exact Hid|exact Hi].
Defined.

(** When the branch changes after the deployment was planned, both steps left are affected. *)
Example branch_change : option_map rv_steps
  (match revalidation_set plan (state claims) ["on-branch"] with Ret (Ok r) => Some r | _ => None end) =
  Some ["deploy"; "verify"].
Proof. vm_compute. reflexivity. Qed.
Lemma revalidation_set_exact_witness :
  exists r, revalidation_set plan (state claims) ["on-branch"] = Ret (Ok r) /\
  (forall s, s ∈ rv_steps r <-> exists a s0, a ∈ ["on-branch"] /\ directly_affected plan (state claims) a s0 /\
    rtc (pending_after plan (state claims)) s0 s).
Proof.
  destruct (revalidation_set_exact plan (state claims) ["on-branch"] plan_is_wf) as (r & Hr & _ & _ & Hs & _).
  exists r. split; [exact Hr|exact Hs].
Defined.
End PlanExamples.
