(* ===== verification/PlanStore.v ===== *)
(** The store of plans, first half: the tables of migrations/025_plan.sql as finite
    maps, plans and their revisions, and the start of a run (src/store/plan.rs). The
    rest of the system (components, attestations, receipts, experiments, decisions,
    recoveries, trajectories) is read through the class [PlanHost]. *)
From S2P Require Import Prelude Worklist StateError Semver Scope Hierarchy EconomicsModel EffectModel CapabilityModel PlanModel PlanValidity.

(** * What other subsystems report *)

(** The fields of an [ExecutionAttestation] that complete a step. *)
Record StepAttestation := mkAttestation {
  at_tool : string;
  tool_manifest_hash : string;
  input_hashes : list string;
  at_success : bool;
  at_started_at : Z;
  at_completed_at : Z;
}.
(** The fields of a [CompositionEvidence]. *)
Record NestedEvidence := mkNestedEvidence {
  ne_id : string;
  ne_revision : Z;
  ne_pass : bool;
  ne_controlled : bool;
  ne_created_at : Z;
}.
(** The fields of an [Experience]: when its actions started, when it was recorded. *)
Record StepExperience := mkStepExperience { action_starts : list Z; xp_created_at : Z }.
(** A pinned revision of a composition: its commit points with their irreversible
    effects, its assumptions, its invariants over the entire composition, its
    effects. *)
Record NestedComposition := mkNested {
  nc_commit_points : list (string * list string);
  nc_effects : list string;
}.
(** The fields of a [CommitAuthorization]; [auth_valid] is its [validate]. *)
Record AuthorizationView := mkAuthorizationView {
  auth_granted_at : Z;
  auth_valid : list string -> Z -> bool;
}.

Section runs.
Context `{SerdeJson}.

Record NestedContract := mkNestedContract {
  nested : NestedComposition;
  nested_assumptions : list (string * BehavioralCondition);
  nested_invariants : list (string * BehavioralCondition);
}.
(** An experiment: its request, whether it completed, and of its result whether it
    was controlled and the experiences of its candidates. *)
Record ExperimentRecord := mkExperimentRecord {
  ex_request : Value;
  ex_completed : bool;
  ex_result : option (bool * list string);
}.
(** The plan of a decision's context. *)
Record PlanRuntimeContext := mkPlanContext {
  pc_run : string;
  pc_plan : string;
  pc_revision : Z;
  pc_next_step : string;
}.
Record StepDecision := mkStepDecision {
  is_act : bool;
  dec_plan : option PlanRuntimeContext;
  dec_context : RuntimeDecisionContext;
  dec_created_at : Z;
}.

Record PlanCheckpointSnapshot := mkPlanSnapshot {
  ps_id : string;
  ps_checkpoint : string;
  ps_plan_revision : Z;
  state_claims : list StateClaim;
  knowledge_snapshot : option string;
  effect_state : list string;
  ps_state : PlanState;
  ps_captured_at : Z;
}.

Class PlanHost (X : Type) := {
  host_pin_component : X -> ContractSubject -> result ComponentRevision;
  host_composition : X -> string -> result (Z * string * bool);
  host_composition_revision : X -> string -> Z -> result NestedContract;
  host_skill_input : X -> string -> string -> result (string * Value);
  host_attestation : X -> string -> result StepAttestation;
  host_manifest_hash : X -> string -> result string;
  host_effect : X -> string -> result unit;
  host_effect_plan : X -> string -> result (list string);
  host_receipt_for_effect : X -> string -> result (option string);
  host_receipt : X -> string -> result string;
  host_composition_evidence : X -> string -> result (list NestedEvidence);
  host_experiment : X -> string -> result ExperimentRecord;
  host_experience : X -> string -> result StepExperience;
  host_decision : X -> string -> result StepDecision;
  host_team_binding : X -> StepDecision -> PlanStep -> result unit;
  host_team_unchanged : X -> StepDecision -> result bool;
  host_knowledge_nodes : X -> result (list KnowledgeHierarchyNode);
  host_recoveries : X -> result (list (string * bool));
  host_authorization : X -> string -> result (option AuthorizationView);
  host_diversity : X -> string -> option DiversityClass.t;
  host_start_trajectory : X -> string -> result (string * X);
  host_append_trajectory : X -> string -> nat -> Z -> result X;
}.
(** [composition_hash] of the values it is applied to. *)
Class PlanHashes := {
  hash_plan : ExecutionPlan -> result string;
  hash_pin : PlanComponentRevision -> result string;
  hash_component : ComponentRevision -> result string;
  hash_step : option PlanStep -> result string;
  hash_point : option PlanCommitmentPoint -> result string;
  hash_value : Value -> result string;
  hash_state : PlanState -> result string;
}.
(** The clock and the source of fresh ids. *)
Class PlanEnv := { plan_clock : nat -> Z; plan_fresh : nat -> string }.

Context {X : Type} `{!PlanHost X} `{!PlanHashes} `{!PlanEnv}.

(** * The tables *)

(** Of an event its payload, which no operation here reads back, is left out. *)
Record PlanEvent := mkPlanEvent { pe_plan : string; pe_run : option string; pe_kind : string }.

Record PlanWorld := mkPlanWorld {
  pw_plans : gmap string ExecutionPlan;
  pw_revisions : gmap (string * Z) (string * ExecutionPlan);
  pw_runs : gmap string PlanRun;
  pw_observations : gmap string (string * PlanObservation);
  pw_assessments : gmap string (string * PlanValidityAssessment);
  pw_step_runs : gmap (string * string) PlanStepRun;
  pw_snapshots : gmap string (string * PlanCheckpointSnapshot);
  pw_events : list PlanEvent;
  pw_system : X;
  pw_ticks : nat;
}.
Definition with_plan_rows (m : gmap string ExecutionPlan) (w : PlanWorld) : PlanWorld :=
  mkPlanWorld m (pw_revisions w) (pw_runs w) (pw_observations w) (pw_assessments w) (pw_step_runs w)
    (pw_snapshots w) (pw_events w) (pw_system w) (pw_ticks w).
Definition with_revisions (m : gmap (string * Z) (string * ExecutionPlan)) (w : PlanWorld) : PlanWorld :=
  mkPlanWorld (pw_plans w) m (pw_runs w) (pw_observations w) (pw_assessments w) (pw_step_runs w)
    (pw_snapshots w) (pw_events w) (pw_system w) (pw_ticks w).
Definition with_runs (m : gmap string PlanRun) (w : PlanWorld) : PlanWorld :=
  mkPlanWorld (pw_plans w) (pw_revisions w) m (pw_observations w) (pw_assessments w) (pw_step_runs w)
    (pw_snapshots w) (pw_events w) (pw_system w) (pw_ticks w).
Definition with_observation_rows (m : gmap string (string * PlanObservation)) (w : PlanWorld) : PlanWorld :=
  mkPlanWorld (pw_plans w) (pw_revisions w) (pw_runs w) m (pw_assessments w) (pw_step_runs w)
    (pw_snapshots w) (pw_events w) (pw_system w) (pw_ticks w).
Definition with_assessments (m : gmap string (string * PlanValidityAssessment)) (w : PlanWorld) : PlanWorld :=
  mkPlanWorld (pw_plans w) (pw_revisions w) (pw_runs w) (pw_observations w) m (pw_step_runs w)
    (pw_snapshots w) (pw_events w) (pw_system w) (pw_ticks w).
Definition with_step_runs (m : gmap (string * string) PlanStepRun) (w : PlanWorld) : PlanWorld :=
  mkPlanWorld (pw_plans w) (pw_revisions w) (pw_runs w) (pw_observations w) (pw_assessments w) m
    (pw_snapshots w) (pw_events w) (pw_system w) (pw_ticks w).
Definition with_snapshot_rows (m : gmap string (string * PlanCheckpointSnapshot)) (w : PlanWorld) : PlanWorld :=
  mkPlanWorld (pw_plans w) (pw_revisions w) (pw_runs w) (pw_observations w) (pw_assessments w) (pw_step_runs w)
    m (pw_events w) (pw_system w) (pw_ticks w).
Definition with_plan_events (l : list PlanEvent) (w : PlanWorld) : PlanWorld :=
  mkPlanWorld (pw_plans w) (pw_revisions w) (pw_runs w) (pw_observations w) (pw_assessments w) (pw_step_runs w)
    (pw_snapshots w) l (pw_system w) (pw_ticks w).
Definition with_system (x : X) (w : PlanWorld) : PlanWorld :=
  mkPlanWorld (pw_plans w) (pw_revisions w) (pw_runs w) (pw_observations w) (pw_assessments w) (pw_step_runs w)
    (pw_snapshots w) (pw_events w) x (pw_ticks w).
Definition with_plan_ticks (n : nat) (w : PlanWorld) : PlanWorld :=
  mkPlanWorld (pw_plans w) (pw_revisions w) (pw_runs w) (pw_observations w) (pw_assessments w) (pw_step_runs w)
    (pw_snapshots w) (pw_events w) (pw_system w) n.

#[local] Abbreviation eff := (eff PlanWorld).

(** A transaction that fails leaves the tables as they were; draws are not undone. *)
Definition plan_transaction {A} (m : eff A) : eff A := fun w =>
  match m w with
  | (Ok a, w') => (Ok a, w')
  | (Err e, w') => (Err e, with_plan_ticks (pw_ticks w') w)
  end.
Definition plan_now : eff Z := fun w => (Ok (plan_clock (pw_ticks w)), with_plan_ticks (S (pw_ticks w)) w).
Definition plan_new_id (prefix : string) : eff string := fun w =>
  (Ok (prefix +:+ plan_fresh (pw_ticks w)), with_plan_ticks (S (pw_ticks w)) w).
Definition system {A} (f : X -> result A) : eff A := fetch (fun w => f (pw_system w)).
(** INSERT of a row under a key. *)
Definition insert_row {K V} `{Countable K} (m : gmap K V) (k : K) (v : V) : result (gmap K V) :=
  match m !! k with
  | Some _ => Err (Sqlite "UNIQUE constraint failed")
  | None => Ok (<[k := v]> m)
  end.
Definition no_rows : Error := Sqlite "Query returned no rows".
(** A panic would unwind through the transaction like an error; validation and
    evaluation never panic. *)
Definition settled {A} (r : run (result A)) : result A :=
  match r with Ret x => x | _ => Err (Io "panicked") end.
Definition result_ok {A} (r : result A) : option A := match r with Ok a => Some a | Err _ => None end.
Definition refuse {A} (message : string) : eff A := fail (Intervention message).
Definition invalid {A} (message : string) : eff A := fail (InvalidInput message).

(** * Plans and revisions *)

(** [i64::try_from] of a u64. *)
Definition try_i64 (n : Z) : option Z := if bool_decide (n <= I64_MAX)%Z then Some n else None.
Definition revision_i64 (n : Z) : result Z := ok_or (try_i64 n) (InvalidInput "Plan revision overflow").
Definition checked_add_i64 (a b : Z) : option Z := try_i64 (a + b).

Definition plan_event (plan : string) (run : option string) (kind : string) : eff unit :=
  modify (fun w => with_plan_events (pw_events w ++ [mkPlanEvent plan run kind]) w).

(** The pin of a step that runs a component. *)
Definition pin_step (s : PlanStep) : eff (option PlanComponentRevision) :=
  let executable subject :=
    r ← system (fun x => host_pin_component x subject); mret (Some (PinExecutable r)) in
  match step_kind s with
  | StepSkill id => executable (SubjectSkill id)
  | StepTool id => executable (SubjectTool id)
  | StepEffect id => executable (SubjectEffectPlan id)
  | StepComposition id =>
      c ← system (fun x => host_composition x id);
      let '(rev, hash, _) := c in mret (Some (PinComposition id rev hash))
  | _ => mret None
  end.
Definition set_pins (pins : gmap string PlanComponentRevision) (p : ExecutionPlan) : ExecutionPlan :=
  mkPlan (plan_id p) (goal p) (revision p) (steps p) (assumptions p) (invariants p) (checkpoints p)
    (commitment_points p) (commitment_gates p) (knowledge_dependencies p) (freshness_policy p) pins
    (plan_status p) (plan_created_at p).
Fixpoint pin_steps (l : list PlanStep) (pins : gmap string PlanComponentRevision) :
    eff (gmap string PlanComponentRevision) :=
  match l with
  | [] => mret pins
  | s :: l' =>
      pin ← pin_step s;
      match pin with
      | None => pin_steps l' pins
      | Some pin =>
          if match pins !! step_id s with
             | Some old => negb (bool_decide (result_ok (hash_pin old) = result_ok (hash_pin pin)))
             | None => false
             end
          then refuse "Plan component pin changed; explicitly revise before use"
          else pin_steps l' (<[step_id s := pin]> pins)
      end
  end.

Definition save_execution_plan (input : ExecutionPlan) (reason : PlanRevisionReason.t) : eff ExecutionPlan :=
  lift (settled (validate_plan input)) ≫= fun _ =>
  if negb (bool_decide (plan_status input = PlanStatus.Proposed)) ||
     existsb (fun s => negb (bool_decide (step_status s = PlanStepStatus.Pending))) (steps input)
  then invalid "Imported plan definitions begin Proposed with Pending steps"
  else plan_transaction (
    pins ← pin_steps (steps input) (component_revisions input);
    let plan := set_pins pins input in
    previous ← ask (fun w => revision <$> pw_plans w !! plan_id plan);
    if match previous with
       | None => negb (bool_decide (revision plan = 1%Z))
       | Some r => negb (bool_decide (checked_add_i64 r 1 = try_i64 (revision plan)))
       end
    then invalid "Plan revisions must advance exactly once from revision 1"
    else
      rev ← lift (revision_i64 (revision plan));
      modify (fun w => with_plan_rows (<[plan_id plan := plan]> (pw_plans w)) w) ≫= fun _ =>
      hash ← lift (hash_plan plan);
      m ← fetch (fun w => insert_row (pw_revisions w) (plan_id plan, rev) (hash, plan));
      modify (with_revisions m) ≫= fun _ =>
      plan_event (plan_id plan) None (match previous with Some _ => "plan_revised" | None => "plan_created" end) ≫= fun _ =>
      mret plan).

Definition execution_plan (id : string) : eff ExecutionPlan :=
  fetch (fun w => ok_or (pw_plans w !! id) no_rows).
Definition plan_revision (id : string) (rev : Z) : eff ExecutionPlan :=
  rev' ← lift (revision_i64 rev);
  row ← fetch (fun w => ok_or (pw_revisions w !! (id, rev')) no_rows);
  hash ← lift (hash_plan row.2);
  if bool_decide (hash = row.1) then mret row.2 else invalid "Plan revision integrity mismatch".

Definition plan_run (id : string) : eff PlanRun := fetch (fun w => ok_or (pw_runs w !! id) no_rows).
Definition insert_run (r : PlanRun) : eff unit :=
  m ← fetch (fun w => insert_row (pw_runs w) (run_id r) r); modify (with_runs m).
(** UPDATE plan_runs SET data=?2 WHERE id=?1. *)
Definition update_plan_run (r : PlanRun) : eff unit :=
  modify (fun w => with_runs (alter (fun _ => r) (run_id r) (pw_runs w)) w).

Definition start_plan_run (id : string) : eff PlanRun :=
  plan ← execution_plan id;
  started ← system (fun x => host_start_trajectory x (plan_id plan));
  modify (with_system started.2) ≫= fun _ =>
  plan_transaction (
    rid ← plan_new_id "plan-run-";
    at_ ← plan_now;
    let r := mkRun (Some started.1) rid (mkRevisionRef id (revision plan)) (initial plan) at_ None None in
    insert_run r ≫= fun _ =>
    plan_event id (Some rid) "plan_started" ≫= fun _ =>
    mret r).

(** Field updates of a run and its state. *)
Definition set_state (s : PlanState) (r : PlanRun) : PlanRun :=
  mkRun (trajectory r) (run_id r) (run_plan r) s (started_at r) (finished_at r) (outcome r).
Definition set_observed (observed : list StateClaim) (epochs : gmap string Z) (versions : gmap string string)
    (s : PlanState) : PlanState :=
  mkState (st_plan s) (st_revision s) (completed_steps s) (current_step s) observed (assumption_states s)
    (invariant_states s) (crossed_commitment_points s) (committed_effects s) versions (mutation_epoch s)
    epochs (reached_checkpoints s) (authorizations s) (nested_commitments s).
End runs.
