(* ===== verification/PlanRun.v ===== *)
(** The store of plans, second half: what a run observes, how it is assessed, what
    completes a step, and how it continues after a change or a failure
    (src/store/plan.rs). *)
From S2P Require Import Prelude Worklist StateError Semver Scope Hierarchy EconomicsModel EffectModel CapabilityModel PlanModel PlanValidity PlanStore.

Section operations.
Context `{SerdeJson} {X : Type} `{!PlanHost X} `{!PlanHashes} `{!PlanEnv}.
#[local] Abbreviation eff := (eff (PlanWorld (X := X))).

(** * Observations *)

Definition trust_le (a b : ContextValueSource.t) : bool := bool_decide (ord_le a b).

(** One claim of an observation, into the state of the run. *)
Definition record_claim (o : PlanObservation) (s : PlanState) (c : StateClaim) : result PlanState :=
  if negb (trust_le (trust_of c) (StateClaimSource.trust (po_source o))) ||
     bool_decide (captured_at o < observed_at (claim_freshness c))%Z
  then Err (InvalidInput "Observation cannot elevate claim provenance or use future facts")
  else if existsb (fun old => bool_decide (claim_key old = claim_key c) && trust_le (trust_of c) (trust_of old) &&
      bool_decide (observed_at (claim_freshness c) < observed_at (claim_freshness old))%Z) (observations s)
  then Err (InvalidInput "Observation cannot replace newer authoritative state")
  else
    let kept := List.filter (fun old => negb (bool_decide (claim_key old = claim_key c)) ||
      negb (trust_le (trust_of old) (trust_of c))) (observations s) in
    let observed := kept ++ [c] in
    if trusted c && negb (existsb (fun old => bool_decide (claim_key old = claim_key c) &&
        negb (trust_le (trust_of old) (trust_of c))) observed)
    then Ok (set_observed observed (<[claim_key c := mutation_epoch s]> (observation_epochs s))
      match external_version (claim_freshness c) with
      | Some v => <[ev_resource v := ev_version v]> (external_versions s)
      | None => external_versions s
      end s)
    else Ok (set_observed observed (observation_epochs s) (external_versions s) s).

Definition run_terminal (r : PlanRun) : bool := bool_decide (is_Some (finished_at r)).
Definition plan_of (r : PlanRun) : eff ExecutionPlan := plan_revision (ref_plan (run_plan r)) (ref_revision (run_plan r)).

(** The transaction, and then the run's trajectory. *)
Definition observe_run (id : string) (o : PlanObservation) : eff (PlanRun * list AssumptionDrift) := plan_transaction (
  r ← plan_run id;
  if run_terminal r then refuse "Plan run is terminal"
  else
    s ← lift (result_foldl (record_claim o) (run_state r) (po_claims o));
    plan ← plan_of r;
    now ← plan_now;
    let drifts := detect_assumption_drift plan (run_state r) s now in
    m ← fetch (fun w => insert_row (pw_observations w) (po_id o) (id, o));
    modify (with_observation_rows m) ≫= fun _ =>
    update_plan_run (set_state s r) ≫= fun _ =>
    plan_event (plan_id plan) (Some id) "plan_assumption_observed" ≫= fun _ =>
    eff_iter (fun _ => plan_event (plan_id plan) (Some id) "plan_assumption_drift") drifts ≫= fun _ =>
    mret (set_state s r, drifts)).
Definition append_trajectory (r : PlanRun) (drifts : list AssumptionDrift) : eff unit :=
  match trajectory r with
  | Some t =>
      x ← system (fun x => host_append_trajectory x t (length drifts) (mutation_epoch (run_state r)));
      modify (with_system x)
  | None => mret tt
  end.
Definition record_plan_observation (id : string) (o : PlanObservation) : eff (list AssumptionDrift) :=
  now0 ← plan_now;
  if bool_decide (po_claims o = []) || duplicated claim_key (po_claims o) || (1000 <? length (po_claims o)) ||
     bool_decide (now0 < captured_at o)%Z
  then invalid "Plan observation must contain bounded current claims"
  else match po_source o with
  | StateClaimSource.ToolAttestation =>
      attestation ← lift (ok_or (po_attestation o) (InvalidInput "Tool observation requires an attestation"));
      system (fun x => host_attestation x attestation) ≫= fun _ =>
      invalid "Attestation observations require an adapter that binds claims to verified output artifacts"
  | _ =>
      done ← observe_run id o;
      append_trajectory done.1 done.2 ≫= fun _ => mret done.2
  end.

(** * The inputs of an evaluation *)

(** Field updates. *)
Definition add_invalid (l : list string) (i : PlanEvaluationInputs) : PlanEvaluationInputs :=
  mkInputs (in_now i) (valid_approvals i) (available_recoveries i) (changed_knowledge i)
    (list_to_set l ∪ invalid_components i) (low_diversity i) (nested_blockers i) (nested_commitment_steps i).
Definition add_nested (step message : string) (i : PlanEvaluationInputs) : PlanEvaluationInputs :=
  mkInputs (in_now i) (valid_approvals i) (available_recoveries i) (changed_knowledge i) (invalid_components i)
    (low_diversity i) (<[step := default [] (nested_blockers i !! step) ++ [message]]> (nested_blockers i))
    (nested_commitment_steps i).
Definition add_nested_commitment (step : string) (i : PlanEvaluationInputs) : PlanEvaluationInputs :=
  mkInputs (in_now i) (valid_approvals i) (available_recoveries i) (changed_knowledge i) (invalid_components i)
    (low_diversity i) (nested_blockers i) ({[step]} ∪ nested_commitment_steps i).
Definition add_changed (l : list string) (i : PlanEvaluationInputs) : PlanEvaluationInputs :=
  mkInputs (in_now i) (valid_approvals i) (available_recoveries i) (list_to_set l ∪ changed_knowledge i)
    (invalid_components i) (low_diversity i) (nested_blockers i) (nested_commitment_steps i).
Definition add_recovery (id : string) (i : PlanEvaluationInputs) : PlanEvaluationInputs :=
  mkInputs (in_now i) (valid_approvals i) ({[id]} ∪ available_recoveries i) (changed_knowledge i)
    (invalid_components i) (low_diversity i) (nested_blockers i) (nested_commitment_steps i).
Definition add_approval (id : string) (i : PlanEvaluationInputs) : PlanEvaluationInputs :=
  mkInputs (in_now i) ({[id]} ∪ valid_approvals i) (available_recoveries i) (changed_knowledge i)
    (invalid_components i) (low_diversity i) (nested_blockers i) (nested_commitment_steps i).
Definition add_low (point : string) (i : PlanEvaluationInputs) : PlanEvaluationInputs :=
  mkInputs (in_now i) (valid_approvals i) (available_recoveries i) (changed_knowledge i) (invalid_components i)
    ({[point]} ∪ low_diversity i) (nested_blockers i) (nested_commitment_steps i).
Definition no_inputs (now : Z) : PlanEvaluationInputs := mkInputs (Some now) ∅ ∅ ∅ ∅ ∅ ∅ ∅.

(** [for x in l { .. }] over the inputs. *)
Fixpoint eff_foldl {A S} (f : S -> A -> eff S) (s : S) (l : list A) : eff S :=
  match l with
  | [] => mret s
  | x :: l' => s' ← f s x; eff_foldl f s' l'
  end.

Definition pin_valid (x : X) (pin : PlanComponentRevision) : bool :=
  match pin with
  | PinExecutable rev =>
      match host_pin_component x (cr_component rev) with
      | Ok p => bool_decide (result_ok (hash_component p) = result_ok (hash_component rev))
      | Err _ => false
      end
  | PinComposition id rev hash =>
      match host_composition x id with
      | Ok (rev', hash', healthy) => bool_decide (rev' = rev) && bool_decide (hash' = hash) && healthy
      | Err _ => false
      end
  end.

(** A nested condition that is not supported blocks the step. *)
Definition check_nested (state : PlanState) (age : option Z) (step before_ after_ : string)
    (i : PlanEvaluationInputs) (named : string * BehavioralCondition) : eff PlanEvaluationInputs :=
  now ← plan_now;
  if bool_decide (assess_predicate named.2 NoRequirement state now age = AssumptionValidity.Supported)
  then mret i else mret (add_nested step (before_ +:+ named.1 +:+ after_) i).
Definition check_pin (plan : ExecutionPlan) (state : PlanState) (i : PlanEvaluationInputs)
    (entry : string * PlanComponentRevision) : eff PlanEvaluationInputs :=
  let '(step, pin) := entry in
  valid ← ask (fun w => pin_valid (pw_system w) pin);
  let i := if (valid : bool) then i else add_invalid [step] i in
  match pin with
  | PinComposition id rev _ =>
      if bool_decide (current_step state = Some step) then
        c ← system (fun x => host_composition_revision x id rev);
        let quiet := bool_decide (nc_commit_points (nested c) = []) in
        let age := if quiet then critical_max_age (freshness_policy plan)
                   else commitment_point_max_age (freshness_policy plan) in
        let i := if quiet then i else add_nested_commitment step i in
        i ← eff_foldl (check_nested state age step "Nested composition assumption " " requires revalidation") i
          (nested_assumptions c);
        eff_foldl (check_nested state age step "Nested invariant " " is not supported") i (nested_invariants c)
      else mret i
  | _ => mret i
  end.

Definition knowledge_valid (nodes : list KnowledgeHierarchyNode) (d : PlanKnowledgeDependency) : bool :=
  existsb (fun n => bool_decide (node_artifact n = kd_artifact d) &&
    bool_decide (artifact_revision (node_artifact n) = kd_revision d) &&
    bool_decide (node_activation n = KnowledgeActivationState.Active) &&
    bool_decide (node_freshness n = FreshnessStatus.Fresh)) nodes.
Definition recovery_lost (plan : ExecutionPlan) (state : PlanState) (id : string) : bool :=
  existsb (fun p => bool_decide (point_id p ∈ crossed_commitment_points state) &&
    bool_decide (id ∈ recoveries_lost p)) (commitment_points plan).

(** The approvals of gates, then those of approval steps. *)
Definition approval_requirements (plan : ExecutionPlan) : list ApprovalRequirement :=
  (commitment_gates plan ≫= required_approvals) ++
  omap (fun s => match step_kind s with StepApproval a => Some a | _ => None end) (steps plan).
Definition check_authorization (requirement : ApprovalRequirement) (i : PlanEvaluationInputs) (id : string) :
    eff PlanEvaluationInputs :=
  auth ← system (fun x => host_authorization x id);
  match auth with
  | None => mret i
  | Some a =>
      now1 ← plan_now; now2 ← plan_now; now3 ← plan_now;
      if negb (bool_decide (ap_effects requirement = [])) && bool_decide (auth_granted_at a <= now1)%Z &&
         auth_valid a (ap_effects requirement) now2 &&
         match ap_max_age requirement with
         | None => true
         | Some age => bool_decide (0 <= now3 - auth_granted_at a <= age)%Z
         end
      then mret (add_approval (ap_id requirement) i) else mret i
  end.
Definition check_approval (state : PlanState) (i : PlanEvaluationInputs) (requirement : ApprovalRequirement) :
    eff PlanEvaluationInputs :=
  eff_map (fun e => system (fun x => host_effect x e)) (ap_effects requirement) ≫= fun _ =>
  eff_foldl (check_authorization requirement) i (authorizations state).

Definition diversity_rank (d : DiversityClass.t) : Z :=
  match d with
  | DiversityClass.Unknown => 0 | DiversityClass.Low => 1 | DiversityClass.Moderate => 2 | DiversityClass.High => 3
  end%Z.
Definition too_uniform (x : X) (g : CommitmentGate) : bool :=
  match minimum_diversity g with
  | None => false
  | Some minimum =>
      negb match diversity_claim g ≫= host_diversity x with
           | Some class => bool_decide (diversity_rank minimum <= diversity_rank class)%Z
           | None => false
           end
  end.

Definition plan_evaluation_inputs (plan : ExecutionPlan) (state : PlanState) : eff PlanEvaluationInputs :=
  now ← plan_now;
  current ← execution_plan (plan_id plan);
  let i := no_inputs now in
  let i := if bool_decide (revision current = revision plan) then i else add_invalid (step_id <$> steps plan) i in
  i ← eff_foldl (check_pin plan state) i (btree_map (component_revisions plan));
  nodes ← system host_knowledge_nodes;
  let i := foldl (fun i d => if knowledge_valid nodes d then i else add_changed (dependent_steps d) i) i
    (knowledge_dependencies plan) in
  recoveries ← system host_recoveries;
  let i := foldl (fun i (r : string * bool) => if r.2 && negb (recovery_lost plan state r.1) then add_recovery r.1 i else i) i
    recoveries in
  i ← eff_foldl (check_approval state) i (approval_requirements plan);
  x ← ask pw_system;
  mret (foldl (fun i g => if too_uniform x g then add_low (commitment_point g) i else i) i (commitment_gates plan)).

(** * Assessing a run *)

Definition set_caches (a : PlanValidityAssessment) (s : PlanState) : PlanState :=
  mkState (st_plan s) (st_revision s) (completed_steps s) (current_step s) (observations s)
    (list_to_map (reverse ((fun x => (aa_assumption x, aa_validity x)) <$> as_assumptions a)))
    (list_to_map (reverse ((fun x => (ie_invariant x, x)) <$> as_invariants a)))
    (crossed_commitment_points s) (committed_effects s) (external_versions s) (mutation_epoch s)
    (observation_epochs s) (reached_checkpoints s) (authorizations s) (nested_commitments s).
Definition after_failure (a : PlanValidityAssessment) : PlanValidityAssessment :=
  push_reasons ["Reconciled failure requires recovery or an explicit revised plan"]
    (mkAssessment (as_id a) (as_plan a) (as_revision a) PlanValidityStatus.RecoveryRequired (as_assumptions a)
      (as_invariants a) (as_checkpoints a) (as_gates a) (next_step a) (blockers a) [Abstain] (reasons a)
      (state_hash a) (assessed_at a)).

Definition assess_loaded (id : string) (context : RuntimeDecisionContext) : eff (PlanRun * ExecutionPlan * PlanValidityAssessment) :=
  r ← plan_run id;
  plan ← plan_of r;
  inputs ← plan_evaluation_inputs plan (run_state r);
  assessment_id ← plan_new_id "plan-assessment-";
  a ← lift (settled (evaluate hash_state inputs assessment_id 0 plan (run_state r) context));
  mret (r, plan, if bool_decide (outcome r = Some PlanRunOutcome.Failure) then after_failure a else a).
Definition persist_assessment (id : string) (r : PlanRun) (plan : ExecutionPlan) (a : PlanValidityAssessment) : eff unit :=
  m ← fetch (fun w => insert_row (pw_assessments w) (as_id a) (id, a));
  modify (with_assessments m) ≫= fun _ =>
  update_plan_run (set_state (set_caches a (run_state r)) r) ≫= fun _ =>
  plan_event (plan_id plan) (Some id) "plan_validity_changed".
Definition assess_plan_run (id : string) (context : RuntimeDecisionContext) (persist : bool) : eff PlanValidityAssessment :=
  if persist then
    plan_transaction (
      done ← assess_loaded id context;
      persist_assessment id done.1.1 done.1.2 done.2 ≫= fun _ => mret done.2)
  else (done ← assess_loaded id context; mret done.2).
Definition open_status (a : PlanValidityAssessment) : bool :=
  bool_decide (as_status a = PlanValidityStatus.Valid) || bool_decide (as_status a = PlanValidityStatus.ValidWithWarnings).

(** * Completing a step *)

(** [attach_plan_identity]: the checks; the observations it attaches are not read by an evaluation. *)
Definition attach_plan_identity (d : StepDecision) : eff unit :=
  match dec_plan d with
  | None => mret tt
  | Some p =>
      r ← plan_run (pc_run p);
      if negb (bool_decide (ref_plan (run_plan r) = pc_plan p)) ||
         negb (bool_decide (ref_revision (run_plan r) = pc_revision p)) ||
         negb (bool_decide (current_step (run_state r) = Some (pc_next_step p)))
      then refuse "Plan runtime identity differs from the recorded next step"
      else
        definition ← plan_of r;
        step ← lift (ok_or (find_step definition (pc_next_step p)) (InvalidInput "Plan next step is missing"));
        if bool_decide (is_Some (responsible_role step)) || bool_decide (is_Some (executing_member step))
        then system (fun x => host_team_binding x d step) else mret tt
  end.

(** An identifier already used by another completed step. *)
Definition evidence_used (record : PlanStepRun) (w : PlanWorld (X := X)) : bool :=
  bool_decide (map_Exists (fun _ row => decision row = decision record \/
    (is_Some (composition_evidence record) /\ composition_evidence row = composition_evidence record) \/
    (is_Some (sr_experiment record) /\ sr_experiment row = sr_experiment record)) (pw_step_runs w)).
Definition attestation_used (id : string) (w : PlanWorld (X := X)) : bool :=
  bool_decide (map_Exists (fun _ row => sr_attestation row = Some id) (pw_step_runs w)).

(** [plan_step_tool]: the tool of an executable step, and the input its procedure binds. *)
Definition plan_step_tool (plan : ExecutionPlan) (step : PlanStep) : eff (string * option Value) :=
  match step_kind step with
  | StepTool id | StepSkill id =>
      let subject := match step_kind step with StepTool _ => SubjectTool id | _ => SubjectSkill id end in
      pinned ← system (fun x => host_pin_component x subject);
      same ← match component_revisions plan !! step_id step with
        | Some (PinExecutable rev) =>
            a ← lift (hash_component rev); b ← lift (hash_component pinned); mret (bool_decide (a = b))
        | _ => mret false
        end;
      if negb (same : bool) then refuse "Plan executable revision changed"
      else match subject with
      | SubjectTool id => mret (id, None)
      | _ =>
          input ← system (fun x => host_skill_input x id (cr_revision pinned));
          mret (input.1, Some input.2)
      end
  | _ => invalid "Step is not a Tool or shell Skill"
  end.

Definition attestation_evidence (plan : ExecutionPlan) (step : PlanStep) (record : PlanStepRun) (d : StepDecision) : eff unit :=
  called ← plan_step_tool plan step;
  id ← lift (ok_or (sr_attestation record) (InvalidInput "Executable step requires attestation"));
  a ← system (fun x => host_attestation x id);
  bound ← match called.2 with
    | None => mret true
    | Some input => h ← lift (hash_value input); mret (bool_decide (h ∈ input_hashes a))
    end;
  if negb (bound : bool) then refuse "Skill attestation does not bind its pinned procedure input"
  else
    used ← ask (attestation_used id);
    if (used : bool) then refuse "Step attestation did not succeed"
    else
      manifest ← system (fun x => host_manifest_hash x called.1);
      now ← plan_now;
      if negb (bool_decide (tool_manifest_hash a = manifest)) || negb (at_success a) ||
         negb (bool_decide (at_tool a = called.1)) || bool_decide (at_started_at a < dec_created_at d)%Z ||
         bool_decide (completed_at record < at_completed_at a)%Z || bool_decide (now < completed_at record)%Z
      then refuse "Step attestation did not succeed" else mret tt.

Definition receipt_evidence (record : PlanStepRun) (effect : string) : eff unit :=
  receipt ← system (fun x => host_receipt_for_effect x effect);
  match receipt with
  | None => refuse "Effect step requires real receipts"
  | Some receipt =>
      if bool_decide (receipt ∈ sr_receipts record) then mret tt
      else invalid "Effect receipt absent from step record"
  end.

Definition composition_evidence_of (plan : ExecutionPlan) (step : PlanStep) (id : string) (record : PlanStepRun)
    (d : StepDecision) : eff unit :=
  evidence_id ← lift (ok_or (composition_evidence record)
    (InvalidInput "Nested step requires recorded composition evidence"));
  rows ← system (fun x => host_composition_evidence x id);
  e ← lift (ok_or (List.find (fun e => bool_decide (ne_id e = evidence_id)) rows) (NotFound "Composition evidence missing"));
  rev ← match component_revisions plan !! step_id step with
    | Some (PinComposition _ rev _) => mret rev
    | _ => invalid "Nested composition pin missing"
    end;
  if negb (bool_decide (ne_revision e = rev)) || negb (ne_pass e) || bool_decide (ne_created_at e < dec_created_at d)%Z ||
     bool_decide (completed_at record < ne_created_at e)%Z || negb (ne_controlled e)
  then refuse "Nested composition needs a current controlled passing execution" else mret tt.

Definition experience_evidence (record : PlanStepRun) (d : StepDecision) (id : string) : eff unit :=
  e ← system (fun x => host_experience x id);
  if bool_decide (action_starts e = []) || existsb (fun t => bool_decide (t < dec_created_at d)%Z) (action_starts e) ||
     bool_decide (completed_at record < xp_created_at e)%Z
  then refuse "Experiment execution must follow the recorded step decision" else mret tt.
Definition experiment_evidence (request : option Value) (record : PlanStepRun) (d : StepDecision) : eff unit :=
  id ← lift (ok_or (sr_experiment record) (InvalidInput "Experiment step requires a recorded experiment"));
  e ← system (fun x => host_experiment x id);
  request ← lift (ok_or request (InvalidInput "Experiment template must bind a concrete request"));
  h1 ← lift (hash_value (ex_request e)); h2 ← lift (hash_value request);
  match ex_result e with
  | Some (true, candidates) =>
      if negb (bool_decide (h1 = h2)) || negb (ex_completed e)
      then refuse "Experiment result does not bind this step's controlled request"
      else eff_iter (experience_evidence record d) candidates
  | _ => refuse "Experiment result does not bind this step's controlled request"
  end.

(** What shows that the step was executed, by its kind. *)
Definition step_evidence (plan : ExecutionPlan) (step : PlanStep) (s : PlanState) (record : PlanStepRun)
    (d : StepDecision) : eff unit :=
  match step_kind step with
  | StepTool _ | StepSkill _ => attestation_evidence plan step record d
  | StepObserve spec =>
      now ← plan_now;
      if bool_decide (assess_predicate (ob_condition spec) (ob_freshness spec) s now
          (critical_max_age (freshness_policy plan)) = AssumptionValidity.Supported)
      then mret tt else refuse "Observation step is not satisfied"
  | StepEffect id =>
      members ← system (fun x => host_effect_plan x id);
      eff_iter (receipt_evidence record) members
  | StepApproval _ => mret tt
  | StepComposition id => composition_evidence_of plan step id record d
  | StepExperiment _ request => experiment_evidence request record d
  | StepCustom _ => refuse "Nested executions require their explicit engine result reconciliation"
  end.

(** Field updates. *)
Definition add_effect (e : string) (s : PlanState) : PlanState :=
  if bool_decide (e ∈ committed_effects s) then s
  else mkState (st_plan s) (st_revision s) (completed_steps s) (current_step s) (observations s) (assumption_states s)
    (invariant_states s) (crossed_commitment_points s) (committed_effects s ++ [e]) (external_versions s)
    (mutation_epoch s) (observation_epochs s) (reached_checkpoints s) (authorizations s) (nested_commitments s).
Definition mutates (step : PlanStep) : bool :=
  match step_kind step with StepObserve _ | StepApproval _ => false | _ => true end.
Definition add_completed (step : PlanStep) (s : PlanState) : PlanState :=
  mkState (st_plan s) (st_revision s) (completed_steps s ++ [step_id step]) (current_step s) (observations s)
    (assumption_states s) (invariant_states s) (crossed_commitment_points s) (committed_effects s) (external_versions s)
    (if mutates step then mutation_epoch s + 1 else mutation_epoch s)%Z
    (observation_epochs s) (reached_checkpoints s) (authorizations s) (nested_commitments s).
Definition add_crossed (p : PlanCommitmentPoint) (s : PlanState) : PlanState :=
  mkState (st_plan s) (st_revision s) (completed_steps s) (current_step s) (observations s) (assumption_states s)
    (invariant_states s) (crossed_commitment_points s ++ [point_id p]) (committed_effects s) (external_versions s)
    (mutation_epoch s) (observation_epochs s) (reached_checkpoints s) (authorizations s) (nested_commitments s).
Definition set_current (c : option string) (s : PlanState) : PlanState :=
  mkState (st_plan s) (st_revision s) (completed_steps s) c (observations s) (assumption_states s)
    (invariant_states s) (crossed_commitment_points s) (committed_effects s) (external_versions s)
    (mutation_epoch s) (observation_epochs s) (reached_checkpoints s) (authorizations s) (nested_commitments s).

(** A commitment forgets what was observed of the assumptions it invalidates. *)
Definition forget (key : string) (s : PlanState) : PlanState :=
  set_observed (List.filter (fun c => negb (bool_decide (claim_key c = key))) (observations s))
    (delete key (observation_epochs s)) (external_versions s) s.
Definition invalidate (plan : ExecutionPlan) (p : PlanCommitmentPoint) (s : PlanState) : PlanState :=
  foldl (fun s a => match predicate_key (predicate a) with Some key => forget key s | None => s end) s
    (List.filter (fun a => bool_decide (assumption_id a ∈ assumptions_invalidated p)) (assumptions plan)).

Definition consequence_evidence (record : PlanStepRun) (c : CommittedConsequence) : eff unit :=
  receipt ← system (fun x => host_receipt_for_effect x (consequence_effect c));
  match receipt with
  | None => refuse "Commitment cannot be inferred without a receipt"
  | Some receipt =>
      if bool_decide (receipt ∈ sr_receipts record) then mret tt else invalid "Commitment receipt missing"
  end.
Definition cross_point (plan : ExecutionPlan) (record : PlanStepRun) (s : PlanState) (p : PlanCommitmentPoint) : eff PlanState :=
  eff_iter (consequence_evidence record) (consequences p) ≫= fun _ =>
  plan_event (plan_id plan) (Some (sr_run record)) "plan_commitment_crossed" ≫= fun _ =>
  mret (add_crossed p (invalidate plan p s)).
Definition add_receipt (s : PlanState) (id : string) : eff PlanState :=
  e ← system (fun x => host_receipt x id); mret (add_effect e s).
Definition points_after (plan : ExecutionPlan) (step : PlanStep) : list PlanCommitmentPoint :=
  List.filter (fun p => bool_decide (after_step p = step_id step)) (commitment_points plan).

(** The run moves on; it ends when every step is completed. *)
Definition close_run (plan : ExecutionPlan) (s : PlanState) (r : PlanRun) : eff PlanRun :=
  if length (completed_steps s) =? length (steps plan) then
    now ← plan_now;
    mret (mkRun (trajectory r) (run_id r) (run_plan r) s (started_at r) (Some now) (Some PlanRunOutcome.Success))
  else mret (set_state s r).

Definition complete_plan_step (record : PlanStepRun) : eff PlanRun := plan_transaction (
  r ← plan_run (sr_run record);
  if run_terminal r || negb (bool_decide (current_step (run_state r) = Some (sr_step record)))
  then refuse "Plan step is not current"
  else
  now ← plan_now;
  if bool_decide (now < completed_at record)%Z then invalid "Step completion cannot be in the future"
  else
  used ← ask (evidence_used record);
  if (used : bool) then refuse "Plan execution evidence cannot complete multiple steps"
  else
  d ← system (fun x => host_decision x (decision record));
  if negb (is_act d) || negb match dec_plan d with
      | Some p => bool_decide (pc_run p = sr_run record) && bool_decide (pc_next_step p = sr_step record)
      | None => false
      end
  then refuse "Plan step needs its recorded ACT decision"
  else
  attach_plan_identity d ≫= fun _ =>
  unchanged ← system (fun x => host_team_unchanged x d);
  if negb (unchanged : bool)
  then refuse "Team authority changed before step completion; reconcile the outcome explicitly"
  else
  a ← assess_plan_run (sr_run record) (dec_context d) false;
  if negb (open_status a) then refuse "Plan changed before step completion; reconcile the outcome explicitly"
  else
  plan ← plan_of r;
  step ← lift (ok_or (find_step plan (sr_step record)) (Io "panicked"));
  step_evidence plan step (run_state r) record d ≫= fun _ =>
  s ← eff_foldl add_receipt (run_state r) (sr_receipts record);
  s ← eff_foldl (cross_point plan record) (add_completed step s) (points_after plan step);
  let s := set_current (next_ready plan (completed_steps s)) s in
  r' ← close_run plan s r;
  m ← fetch (fun w => insert_row (pw_step_runs w) (sr_run record, sr_step record) record);
  modify (with_step_runs m) ≫= fun _ =>
  update_plan_run r' ≫= fun _ =>
  plan_event (plan_id plan) (Some (run_id r')) "plan_step_completed" ≫= fun _ =>
  mret r').
End operations.
