(* ===== verification/PlanRecovery.v ===== *)
(** The store of plans, last part: a run continues under a new revision, records a
    failure, captures a checkpoint and resumes from it (src/store/plan.rs). *)
From S2P Require Import Prelude Worklist StateError Semver Scope Hierarchy EconomicsModel EffectModel CapabilityModel PlanModel PlanValidity PlanStore PlanRun.

Section recovery.
Context `{SerdeJson} {X : Type} `{!PlanHost X} `{!PlanHashes} `{!PlanEnv}.
#[local] Abbreviation eff := (eff (PlanWorld (X := X))).

(** Field updates. *)
Definition set_recovered (effects : list string) (commits : gmap string CompositionCommitState) (s : PlanState) : PlanState :=
  mkState (st_plan s) (st_revision s) (completed_steps s) (current_step s) (observations s) (assumption_states s)
    (invariant_states s) (crossed_commitment_points s) effects (external_versions s)
    (mutation_epoch s) (observation_epochs s) (reached_checkpoints s) (authorizations s) commits.
Definition add_reached (c : string) (s : PlanState) : PlanState :=
  mkState (st_plan s) (st_revision s) (completed_steps s) (current_step s) (observations s) (assumption_states s)
    (invariant_states s) (crossed_commitment_points s) (committed_effects s) (external_versions s)
    (mutation_epoch s) (observation_epochs s) (reached_checkpoints s ++ [c]) (authorizations s) (nested_commitments s).
Definition add_authorization (a : string) (s : PlanState) : PlanState :=
  if bool_decide (a ∈ authorizations s) then s
  else mkState (st_plan s) (st_revision s) (completed_steps s) (current_step s) (observations s) (assumption_states s)
    (invariant_states s) (crossed_commitment_points s) (committed_effects s) (external_versions s)
    (mutation_epoch s) (observation_epochs s) (reached_checkpoints s) (authorizations s ++ [a]) (nested_commitments s).
Definition set_outcome (finished : option Z) (o : option PlanRunOutcome.t) (r : PlanRun) : PlanRun :=
  mkRun (trajectory r) (run_id r) (run_plan r) (run_state r) (started_at r) finished o.

(** * What was committed *)

Definition committed (effect : string) : eff bool :=
  receipt ← system (fun x => host_receipt_for_effect x effect); mret (bool_decide (is_Some receipt)).
Definition add_committed (acc : gset string) (effect : string) : eff (gset string) :=
  yes ← committed effect; mret (if (yes : bool) then {[effect]} ∪ acc else acc).
Definition add_step_effects (acc : gset string) (step : PlanStep) : eff (gset string) :=
  match step_kind step with
  | StepEffect id => members ← system (fun x => host_effect_plan x id); eff_foldl add_committed acc members
  | _ => mret acc
  end.

Definition push_unique (x : string) (l : list string) : list string := if bool_decide (x ∈ l) then l else l ++ [x].
(** A nested effect that is committed. *)
Definition nested_effect (acc : CompositionCommitState * gset string) (effect : string) :
    eff (CompositionCommitState * gset string) :=
  yes ← committed effect;
  mret (if (yes : bool)
    then (mkCommitState (reached acc.1) (push_unique effect (cs_committed_effects acc.1)) (cs_compensated_effects acc.1),
          {[effect]} ∪ acc.2)
    else acc).
(** A commit point with a committed irreversible effect is reached. *)
Definition nested_point (c : CompositionCommitState) (point : string * list string) : CompositionCommitState :=
  if existsb (fun e => bool_decide (e ∈ cs_committed_effects c)) point.2
  then mkCommitState (push_unique point.1 (reached c)) (cs_committed_effects c) (cs_compensated_effects c)
  else c.
Definition recover_pin (acc : gmap string CompositionCommitState * gset string) (pin : PlanComponentRevision) :
    eff (gmap string CompositionCommitState * gset string) :=
  match pin with
  | PinComposition id rev _ =>
      c ← system (fun x => host_composition_revision x id rev);
      found ← eff_foldl nested_effect (default (mkCommitState [] [] []) (acc.1 !! id), acc.2) (nc_effects (nested c));
      mret (<[id := foldl nested_point found.1 (nc_commit_points (nested c))]> acc.1, found.2)
  | _ => mret acc
  end.

Definition plan_recovery_context (id : string) : eff PlanRecoveryContext :=
  r ← plan_run id;
  plan ← plan_of r;
  let s := run_state r in
  effects ← eff_foldl add_committed ∅ (committed_effects s);
  effects ← eff_foldl add_step_effects effects (steps plan);
  found ← eff_foldl recover_pin (nested_commitments s, effects) (snd <$> btree_map (component_revisions plan));
  effects ← eff_foldl add_committed found.2
    (consequence_effect <$> (commitment_points plan ≫= consequences));
  mret (mkRecoveryContext (set_recovered (committed_effects s) found.1 s) (current_step s) (btree_set effects)
    (crossed_commitment_points s)).

(** * Replanning *)

Definition find_point (plan : ExecutionPlan) (id : string) : option PlanCommitmentPoint :=
  List.find (fun p => bool_decide (point_id p = id)) (commitment_points plan).
Definition keep_step (old next : ExecutionPlan) (id : string) : eff unit :=
  if bool_decide (is_Some (step_id <$> find_step next id)) then
    a ← lift (hash_step (find_step old id)); b ← lift (hash_step (find_step next id));
    if bool_decide (a = b) then mret tt else refuse "Replan cannot rewrite completed steps"
  else refuse "Replan cannot rewrite completed steps".
Definition keep_point (old next : ExecutionPlan) (id : string) : eff unit :=
  if bool_decide (is_Some (point_id <$> find_point next id)) then
    a ← lift (hash_point (find_point old id)); b ← lift (hash_point (find_point next id));
    if bool_decide (a = b) then mret tt else refuse "Replan must preserve crossed commitments"
  else refuse "Replan must preserve crossed commitments".

(** The state under the new revision: what was done stays, what was assessed goes. *)
Definition replanned (next : ExecutionPlan) (s : PlanState) : PlanState :=
  mkState (st_plan s) (revision next) (completed_steps s) (next_ready next (completed_steps s)) (observations s) ∅ ∅
    (crossed_commitment_points s) (committed_effects s) (external_versions s) (mutation_epoch s)
    (observation_epochs s) [] [] (nested_commitments s).

Definition replan_run (id : string) (reason : PlanRevisionReason.t) : eff PlanRun := plan_transaction (
  previous ← plan_run id;
  if run_terminal previous then refuse "Plan run is terminal"
  else
  old ← plan_of previous;
  next ← execution_plan (ref_plan (run_plan previous));
  if bool_decide (revision next <= revision old)%Z then invalid "Replanning requires an explicit newer revision"
  else
  eff_iter (keep_step old next) (completed_steps (run_state previous)) ≫= fun _ =>
  eff_iter (keep_point old next) (crossed_commitment_points (run_state previous)) ≫= fun _ =>
  recovery ← plan_recovery_context id;
  let s := set_recovered (rc_committed_effects recovery) (nested_commitments (rc_state recovery)) (run_state previous) in
  rid ← plan_new_id "plan-run-";
  at_ ← plan_now;
  let r := mkRun (trajectory previous) rid (mkRevisionRef (ref_plan (run_plan previous)) (revision next))
    (replanned next s) at_ None None in
  let closed := set_outcome (Some at_)
    (if bool_decide (outcome previous = Some PlanRunOutcome.Failure) then outcome previous
     else Some PlanRunOutcome.Inconclusive) (set_state s previous) in
  insert_run r ≫= fun _ =>
  update_plan_run closed ≫= fun _ =>
  plan_event (ref_plan (run_plan r)) (Some rid) "plan_replanned" ≫= fun _ =>
  mret r).

(** * Failure *)

(** Points whose consequences were committed although their step was not completed. *)
Definition reconcile_point (plan : ExecutionPlan) (s : PlanState) (p : PlanCommitmentPoint) : eff PlanState :=
  yes ← eff_map (fun c => committed (consequence_effect c)) (consequences p);
  mret (if existsb id yes && negb (bool_decide (point_id p ∈ crossed_commitment_points s))
        then invalidate plan p (add_crossed p s) else s).
Definition reconcile_plan_failure (id reason : string) : eff PlanRecoveryContext :=
  if blank reason then invalid "Failure needs a reason"
  else plan_transaction (
    r ← plan_run id;
    if run_terminal r then refuse "Plan run is terminal"
    else
    plan ← plan_of r;
    s ← eff_foldl (reconcile_point plan) (run_state r) (commitment_points plan);
    let r := set_outcome (finished_at r) (Some PlanRunOutcome.Failure) (set_state s r) in
    update_plan_run r ≫= fun _ =>
    recovery ← plan_recovery_context id;
    update_plan_run (set_state (set_recovered (rc_committed_effects recovery)
      (nested_commitments (rc_state recovery)) s) r) ≫= fun _ =>
    plan_event (plan_id plan) (Some id) "plan_failure_reconciled" ≫= fun _ =>
    mret recovery).

(** * Checkpoints *)

Definition capture_plan_checkpoint (id checkpoint : string) (context : RuntimeDecisionContext) :
    eff PlanCheckpointSnapshot := plan_transaction (
  r ← plan_run id;
  plan ← plan_of r;
  c ← lift (ok_or (List.find (fun c => bool_decide (checkpoint_id c = checkpoint)) (checkpoints plan))
    (InvalidInput "Unknown plan checkpoint"));
  if run_terminal r || match cp_after_step c with
      | Some s => negb (bool_decide (s ∈ completed_steps (run_state r)))
      | None => false
      end
  then refuse "Checkpoint boundary has not been reached"
  else
  a ← assess_plan_run id context false;
  if negb (open_status a) || negb (existsb (fun e => bool_decide (ce_checkpoint e = checkpoint) &&
      bool_decide (ce_status e = CheckpointStatus.Satisfied)) (as_checkpoints a))
  then refuse "Checkpoint requires current verified evidence"
  else
  recovery ← plan_recovery_context id;
  let s := set_recovered (rc_committed_effects recovery) (nested_commitments (rc_state recovery))
    (add_reached checkpoint (run_state r)) in
  sid ← plan_new_id "plan-checkpoint-snapshot-";
  at_ ← plan_now;
  let snapshot := mkPlanSnapshot sid checkpoint (revision plan) (observations (run_state r))
    (snapshot_id <$> operational_knowledge context) (rc_committed_effects recovery) s at_ in
  m ← fetch (fun w => insert_row (pw_snapshots w) sid (id, snapshot));
  modify (with_snapshot_rows m) ≫= fun _ =>
  update_plan_run (set_state s r) ≫= fun _ =>
  plan_event (plan_id plan) (Some id) "plan_checkpoint" ≫= fun _ =>
  mret snapshot).

Definition resume_plan_checkpoint (id snapshot : string) (context : RuntimeDecisionContext) : eff PlanValidityAssessment :=
  row ← fetch (fun w => ok_or (pw_snapshots w !! snapshot) no_rows);
  r ← plan_run id;
  if negb (bool_decide (row.1 = id)) || negb (bool_decide (st_plan (ps_state row.2) = ref_plan (run_plan r))) ||
     negb (bool_decide (ps_plan_revision row.2 = ref_revision (run_plan r))) || run_terminal r
  then refuse "Checkpoint does not belong to this active run revision"
  else
  a ← assess_plan_run id context true;
  plan_event (ref_plan (run_plan r)) (Some id) "plan_resume_assessed" ≫= fun _ =>
  mret a.

Definition bind_plan_authorization (id authorization : string) : eff unit := plan_transaction (
  r ← plan_run id;
  if run_terminal r then refuse "Plan run is terminal"
  else
  known ← system (fun x => host_authorization x authorization);
  if bool_decide (is_Some (auth_granted_at <$> known)) then
    update_plan_run (set_state (add_authorization authorization (run_state r)) r) ≫= fun _ =>
    plan_event (ref_plan (run_plan r)) (Some id) "plan_authorization_bound" ≫= fun _ =>
    mret tt
  else invalid "Unknown external authorization").
End recovery.
