(* ===== verification/PlanRunFacts.v ===== *)
(** The invariant of the plan store, operation by operation: what an operation leaves
    alone, what a call that returned went through, that every run follows its revision
    of its plan, and that it only moves forward. *)
From S2P Require Import Prelude Worklist Semver Scope Hierarchy EconomicsModel StateError EffectModel.
From S2P Require Import CapabilityModel PlanModel PlanValidity PlanWellFormed PlanPredicates PlanDecision.
From S2P Require Import PlanAdmission PlanStore PlanRun PlanRecovery.

Create HintDb calm.

Section logic.
Context `{SerdeJson} {X : Type} `{!PlanHost X} `{!PlanHashes} `{!PlanEnv}.
#[local] Abbreviation World := (PlanWorld (X := X)).
#[local] Abbreviation eff := (eff World).

(** The plans, revisions, runs and completed steps, and the rest of the system. *)
Definition view (w : World) := (pw_plans w, pw_revisions w, pw_runs w, pw_step_runs w, pw_system w).

(** A computation that leaves the view alone, whether it returns or fails. *)
Definition calm {A} (m : eff A) : Prop := forall w, view (m w).2 = view w.

Lemma calm_ret {A} (a : A) : calm (mret a).
Proof. done. Qed.
Lemma calm_bind {A B} (m : eff A) (f : A -> eff B) : calm m -> (forall a, calm (f a)) -> calm (m ≫= f).
Proof.
  intros Hm Hf w. unfold mbind, eff_bind. specialize (Hm w). destruct (m w) as [[a|e] w1]; [|done].
  by rewrite Hf.
Qed.
Lemma calm_fail {A} e : calm (A := A) (fail e).
Proof. done. Qed.
Lemma calm_refuse {A} e : calm (A := A) (refuse e).
Proof. done. Qed.
Lemma calm_invalid {A} e : calm (A := A) (invalid e).
Proof. done. Qed.
Lemma calm_lift {A} (r : result A) : calm (lift r).
Proof. done. Qed.
Lemma calm_ask {A} (f : World -> A) : calm (ask f).
Proof. done. Qed.
Lemma calm_fetch {A} (f : World -> result A) : calm (fetch f).
Proof. done. Qed.
Lemma calm_system {A} (f : X -> result A) : calm (system f).
Proof. done. Qed.
Lemma calm_now : calm plan_now.
Proof. done. Qed.
Lemma calm_new_id p : calm (plan_new_id p).
Proof. done. Qed.
Lemma calm_event p r k : calm (plan_event p r k).
Proof. done. Qed.
Lemma calm_observation_rows m : calm (modify (with_observation_rows m)).
Proof. done. Qed.
Lemma calm_assessments m : calm (modify (with_assessments m)).
Proof. done. Qed.
Lemma calm_snapshot_rows m : calm (modify (with_snapshot_rows m)).
Proof. done. Qed.
Lemma calm_iter {A} (f : A -> eff unit) l : (forall x, calm (f x)) -> calm (eff_iter f l).
Proof. intros Hf. induction l as [|x l IH]; cbn [eff_iter]; [apply calm_ret|by apply calm_bind]. Qed.
Lemma calm_map {A B} (f : A -> eff B) l : (forall x, calm (f x)) -> calm (eff_map f l).
Proof.
  intros Hf. induction l as [|x l IH]; cbn [eff_map]; [apply calm_ret|].
  apply calm_bind; [done|]. intros y. apply calm_bind; [done|]. intros ys. apply calm_ret.
Qed.
Lemma calm_foldl {A S} (f : S -> A -> eff S) s l : (forall s x, calm (f s x)) -> calm (eff_foldl f s l).
Proof. intros Hf. revert s. induction l as [|x l IH]; intros s; cbn [eff_foldl]; [apply calm_ret|by apply calm_bind]. Qed.
Lemma calm_transaction {A} (m : eff A) : calm m -> calm (plan_transaction m).
Proof. intros Hm w. unfold plan_transaction. specialize (Hm w). by destruct (m w) as [[a|e] w1]. Qed.
End logic.

#[export] Hint Resolve calm_ret calm_fail calm_refuse calm_invalid calm_lift calm_ask calm_fetch calm_system calm_now
  calm_new_id calm_event calm_observation_rows calm_assessments calm_snapshot_rows : calm.
(** Walk through a computation made of calm parts. *)
Ltac calm_parts :=
  intros; cbn zeta beta;
  lazymatch goal with
  | |- calm (mbind _ _) => apply calm_bind; [calm_parts|calm_parts]
  | |- calm (eff_iter _ _) => apply calm_iter; calm_parts
  | |- calm (eff_map _ _) => apply calm_map; calm_parts
  | |- calm (eff_foldl _ _ _) => apply calm_foldl; calm_parts
  | |- calm (plan_transaction _) => apply calm_transaction; calm_parts
  | |- calm (if ?b then _ else _) => destruct b; calm_parts
  | |- calm (match ?x with _ => _ end) => destruct x; calm_parts
  | |- calm _ => solve [auto with calm | eassumption]
  | |- _ => idtac
  end.

Section calm.
Context `{SerdeJson} {X : Type} `{!PlanHost X} `{!PlanHashes} `{!PlanEnv}.
#[local] Abbreviation World := (PlanWorld (X := X)).

Lemma calm_plan_revision id rev : calm (X := X) (plan_revision id rev).
Proof. unfold plan_revision. calm_parts. Qed.
Lemma calm_plan_of r : calm (X := X) (plan_of r).
Proof. apply calm_plan_revision. Qed.
Lemma calm_plan_run id : calm (X := X) (plan_run id).
Proof. unfold plan_run. calm_parts. Qed.
Lemma calm_execution_plan id : calm (X := X) (execution_plan id).
Proof. unfold execution_plan. calm_parts. Qed.
#[local] Hint Resolve calm_plan_revision calm_plan_of calm_plan_run calm_execution_plan : calm.

Lemma calm_check_nested s age st b a i nm : calm (X := X) (check_nested s age st b a i nm).
Proof. unfold check_nested. calm_parts. Qed.
Lemma calm_check_pin p s i e : calm (X := X) (check_pin p s i e).
Proof. unfold check_pin. pose proof (@calm_check_nested). calm_parts. Qed.
Lemma calm_check_authorization q i id : calm (X := X) (check_authorization q i id).
Proof. unfold check_authorization. calm_parts. Qed.
Lemma calm_check_approval s i q : calm (X := X) (check_approval s i q).
Proof. unfold check_approval. pose proof calm_check_authorization. calm_parts. Qed.
#[local] Hint Resolve calm_check_nested calm_check_pin calm_check_authorization calm_check_approval : calm.
Lemma calm_plan_evaluation_inputs p s : calm (X := X) (plan_evaluation_inputs p s).
Proof. unfold plan_evaluation_inputs. calm_parts. Qed.
#[local] Hint Resolve calm_plan_evaluation_inputs : calm.
Lemma calm_assess_loaded id c : calm (X := X) (assess_loaded id c).
Proof. unfold assess_loaded. calm_parts. Qed.
#[local] Hint Resolve calm_assess_loaded : calm.
Lemma calm_assess id c : calm (X := X) (assess_plan_run id c false).
Proof. unfold assess_plan_run. calm_parts. Qed.

Lemma calm_attach d : calm (X := X) (attach_plan_identity d).
Proof. unfold attach_plan_identity. calm_parts. Qed.
Lemma calm_plan_step_tool p st : calm (X := X) (plan_step_tool p st).
Proof. unfold plan_step_tool. calm_parts. Qed.
#[local] Hint Resolve calm_plan_step_tool : calm.
Lemma calm_attestation_evidence p st rec d : calm (X := X) (attestation_evidence p st rec d).
Proof. unfold attestation_evidence. calm_parts. Qed.
Lemma calm_receipt_evidence rec e : calm (X := X) (receipt_evidence rec e).
Proof. unfold receipt_evidence. calm_parts. Qed.
Lemma calm_composition_evidence p st id rec d : calm (X := X) (composition_evidence_of p st id rec d).
Proof. unfold composition_evidence_of. calm_parts. Qed.
Lemma calm_experience_evidence rec d id : calm (X := X) (experience_evidence rec d id).
Proof. unfold experience_evidence. calm_parts. Qed.
#[local] Hint Resolve calm_attestation_evidence calm_receipt_evidence calm_composition_evidence calm_experience_evidence : calm.
Lemma calm_experiment_evidence q rec d : calm (X := X) (experiment_evidence q rec d).
Proof. unfold experiment_evidence. calm_parts. Qed.
#[local] Hint Resolve calm_experiment_evidence : calm.
Lemma calm_step_evidence p st s rec d : calm (X := X) (step_evidence p st s rec d).
Proof. unfold step_evidence. calm_parts. Qed.
Lemma calm_consequence_evidence rec c : calm (X := X) (consequence_evidence rec c).
Proof. unfold consequence_evidence. calm_parts. Qed.
#[local] Hint Resolve calm_consequence_evidence : calm.
Lemma calm_cross_point p rec s q : calm (X := X) (cross_point p rec s q).
Proof. unfold cross_point. calm_parts. Qed.
Lemma calm_add_receipt s id : calm (X := X) (add_receipt s id).
Proof. unfold add_receipt. calm_parts. Qed.
Lemma calm_close_run p s r : calm (X := X) (close_run p s r).
Proof. unfold close_run. calm_parts. Qed.

Lemma calm_committed e : calm (X := X) (committed e).
Proof. unfold committed. calm_parts. Qed.
#[local] Hint Resolve calm_committed : calm.
Lemma calm_add_committed s e : calm (X := X) (add_committed s e).
Proof. unfold add_committed. calm_parts. Qed.
#[local] Hint Resolve calm_add_committed : calm.
Lemma calm_add_step_effects s st : calm (X := X) (add_step_effects s st).
Proof. unfold add_step_effects. calm_parts. Qed.
Lemma calm_nested_effect s e : calm (X := X) (nested_effect s e).
Proof. unfold nested_effect. calm_parts. Qed.
#[local] Hint Resolve calm_add_step_effects calm_nested_effect : calm.
Lemma calm_recover_pin s pin : calm (X := X) (recover_pin s pin).
Proof. unfold recover_pin. calm_parts. Qed.
#[local] Hint Resolve calm_recover_pin : calm.
Lemma calm_recovery_context id : calm (X := X) (plan_recovery_context id).
Proof. unfold plan_recovery_context. calm_parts. Qed.
Lemma calm_keep_step o n id : calm (X := X) (keep_step o n id).
Proof. unfold keep_step. calm_parts. Qed.
Lemma calm_keep_point o n id : calm (X := X) (keep_point o n id).
Proof. unfold keep_point. calm_parts. Qed.
Lemma calm_reconcile_point p s q : calm (X := X) (reconcile_point p s q).
Proof. unfold reconcile_point. calm_parts. Qed.
Lemma calm_pin_step s : calm (X := X) (pin_step s).
Proof. unfold pin_step. calm_parts. Qed.
#[local] Hint Resolve calm_pin_step : calm.
Lemma calm_pin_steps l pins : calm (X := X) (pin_steps l pins).
Proof. revert pins. induction l as [|s l IH]; intros pins; cbn [pin_steps]; calm_parts. Qed.
End calm.
#[export] Hint Resolve calm_plan_revision calm_plan_of calm_plan_run calm_execution_plan calm_plan_evaluation_inputs
  calm_assess_loaded calm_assess calm_attach calm_step_evidence calm_cross_point calm_add_receipt calm_close_run
  calm_recovery_context calm_keep_step calm_keep_point calm_reconcile_point calm_pin_steps calm_committed : calm.

(** * The invariant *)

Section invariant.
Context `{SerdeJson} {X : Type} `{!PlanHost X} `{!PlanHashes} `{!PlanEnv}.
#[local] Abbreviation World := (PlanWorld (X := X)).
Implicit Types (w : World) (r : PlanRun) (s : PlanState) (plan : ExecutionPlan).

(** The state of a run of the plan: completed steps are steps of the plan, once each
    and after all they need; the current step is the first that is ready; a step
    advances the mutation epoch by at most one. *)
Record run_follows plan s : Prop := {
  rf_plan : st_plan s = plan_id plan;
  rf_revision : st_revision s = revision plan;
  rf_completed : completed_steps s ⊆ step_id <$> steps plan;
  rf_once : NoDup (completed_steps s);
  rf_ordered : forall d x, needs plan d x -> x ∈ completed_steps s -> earlier (completed_steps s) d x;
  rf_current : current_step s = next_ready plan (completed_steps s);
  rf_crossed : crossed_commitment_points s ⊆ point_id <$> commitment_points plan;
  rf_epoch : (0 <= mutation_epoch s <= Z.of_nat (length (completed_steps s)))%Z;
}.
Definition revision_key r : string * Z := (ref_plan (run_plan r), ref_revision (run_plan r)).
Definition run_ok (revisions : gmap (string * Z) (string * ExecutionPlan)) r : Prop :=
  exists hash plan, revisions !! revision_key r = Some (hash, plan) /\ run_follows plan (run_state r) /\
  (outcome r = Some PlanRunOutcome.Success ->
    is_Some (finished_at r) /\ length (completed_steps (run_state r)) = length (steps plan)).

(** Completions that rest on the same evidence. *)
Definition shares (row row' : PlanStepRun) : Prop :=
  decision row = decision row' \/
  (is_Some (composition_evidence row) /\ composition_evidence row = composition_evidence row') \/
  (is_Some (sr_experiment row) /\ sr_experiment row = sr_experiment row').

Record store_wf w : Prop := {
  sw_revisions : forall id rev hash plan, pw_revisions w !! (id, rev) = Some (hash, plan) ->
    plan_wf plan /\ plan_id plan = id /\ revision plan = rev /\ hash_plan plan = Ok hash;
  sw_plans : forall id plan, pw_plans w !! id = Some plan ->
    exists hash, pw_revisions w !! (id, revision plan) = Some (hash, plan);
  sw_runs : forall id r, pw_runs w !! id = Some r -> run_id r = id /\ run_ok (pw_revisions w) r;
  sw_step_runs : forall run step row, pw_step_runs w !! (run, step) = Some row ->
    sr_run row = run /\ sr_step row = step /\
    exists r, pw_runs w !! run = Some r /\ step ∈ completed_steps (run_state r);
  sw_evidence : forall k k' row row', pw_step_runs w !! k = Some row -> pw_step_runs w !! k' = Some row' ->
    shares row row' -> k = k';
}.

(** How a run moves: its revision is fixed, what is done stays done, a failed run
    completes no more steps, success comes with a completed step, and a run that is
    over stays as it is (but for the assessments displayed with it). *)
Record run_advances r r' : Prop := {
  ra_plan : run_plan r' = run_plan r;
  ra_completed : completed_steps (run_state r) `prefix_of` completed_steps (run_state r');
  ra_crossed : crossed_commitment_points (run_state r) `prefix_of` crossed_commitment_points (run_state r');
  ra_failed : outcome r = Some PlanRunOutcome.Failure ->
    outcome r' = Some PlanRunOutcome.Failure /\ completed_steps (run_state r') = completed_steps (run_state r);
  ra_success : outcome r' = Some PlanRunOutcome.Success -> outcome r = Some PlanRunOutcome.Success \/
    length (completed_steps (run_state r)) < length (completed_steps (run_state r'));
  ra_over : is_Some (finished_at r) -> finished_at r' = finished_at r /\ outcome r' = outcome r /\
    completed_steps (run_state r') = completed_steps (run_state r) /\
    crossed_commitment_points (run_state r') = crossed_commitment_points (run_state r) /\
    observations (run_state r') = observations (run_state r);
}.
#[export] Instance run_advances_refl : Reflexive run_advances.
Proof. intros r; split; try done. by left. Qed.
#[export] Instance run_advances_trans : Transitive run_advances.
Proof.
  intros r1 r2 r3 [A1 A2 A3 A4 A6 A5] [B1 B2 B3 B4 B6 B5]. split; [congruence|by etrans..| | |].
  - intros Hf. destruct (A4 Hf) as [E1 E2]. destruct (B4 E1) as [F1 F2]. split; congruence.
  - apply prefix_length in A2, B2. intros [[Hs|Hs]%A6|Hs]%B6; [by left|right; lia..].
  - intros Hf. destruct (A5 Hf) as (E1 & E2 & E3 & E4 & E5). rewrite <- E1 in Hf.
    destruct (B5 Hf) as (F1 & F2 & F3 & F4 & F5). split_and!; congruence.
Qed.

Record advances w w' : Prop := {
  av_revisions : pw_revisions w ⊆ pw_revisions w';
  av_runs : forall id r, pw_runs w !! id = Some r -> exists r', pw_runs w' !! id = Some r' /\ run_advances r r';
  av_steps : pw_step_runs w ⊆ pw_step_runs w';
}.
#[export] Instance advances_refl : Reflexive advances.
Proof. intros w. split; [done|intros id r Hr; by exists r|done]. Qed.
#[export] Instance advances_trans : Transitive advances.
Proof.
  intros w1 w2 w3 [A1 A2 A3] [B1 B2 B3]. split; [by etrans| |by etrans].
  intros id r (r2 & Hr2 & Ha)%A2. destruct (B2 id r2 Hr2) as (r3 & Hr3 & Ha'). exists r3. split; [done|by etrans].
Qed.

(** A step of the store. *)
Definition sound w w' : Prop := store_wf w -> store_wf w' /\ advances w w'.
#[export] Instance sound_refl : Reflexive sound.
Proof. by intros w Hw. Qed.
#[export] Instance sound_trans : Transitive sound.
Proof.
  intros w1 w2 w3 S1 S2 Hw. destruct (S1 Hw) as [Hw2 Ha]. destruct (S2 Hw2) as [Hw3 Ha']. split; [done|by etrans].
Qed.

Lemma sound_tables w w' : pw_plans w' = pw_plans w -> pw_revisions w' = pw_revisions w -> pw_runs w' = pw_runs w ->
  pw_step_runs w' = pw_step_runs w -> sound w w'.
Proof.
  intros E1 E2 E3 E4 [Hr Hp Hs Hc He]. split.
  - split; [by rewrite E2|by rewrite E1, E2|by rewrite E3, E2|by rewrite E3, E4|by rewrite E4].
  - split; [by rewrite E2| |by rewrite E4]. intros id r Hid. exists r. by rewrite E3.
Qed.
Lemma sound_view w w' : view w' = view w -> sound w w'.
Proof. intros [= E1 E2 E3 E4 _]. by apply sound_tables. Qed.

(** The run is replaced by one that follows its plan and is further. *)
Lemma sound_update w r r' : pw_runs w !! run_id r' = Some r -> run_ok (pw_revisions w) r' -> run_advances r r' ->
  sound w (with_runs (alter (fun _ => r') (run_id r') (pw_runs w)) w).
Proof.
  intros Hr Hok Ha [Hrev Hp Hs Hc He].
  assert (advances w (with_runs (alter (fun _ => r') (run_id r') (pw_runs w)) w)) as Hadv.
  { split; [done| |done]. cbn. intros id r0 Hr0. destruct (decide (id = run_id r')) as [->|Hne].
    + rewrite lookup_alter_eq, Hr0. exists r'. split; [done|]. congruence.
    + rewrite lookup_alter_ne by done. by exists r0. }
  split; [|done]. split; [done|done| | |done].
  - cbn. intros id r0. destruct (decide (id = run_id r')) as [->|Hne].
    + rewrite lookup_alter_eq, Hr. by intros [= <-].
    + rewrite lookup_alter_ne by done. apply Hs.
  - intros run step row (Hrun & Hstep & r0 & Hr0 & Hin)%Hc. split_and!; [done..|].
    destruct (av_runs _ _ Hadv run r0 Hr0) as (r1 & Hr1 & Ha1). exists r1. split; [done|].
    destruct (ra_completed _ _ Ha1) as [l ->]. rewrite elem_of_app. by left.
Qed.
(** A new run. *)
Lemma sound_insert w r : pw_runs w !! run_id r = None -> run_ok (pw_revisions w) r ->
  sound w (with_runs (<[run_id r := r]> (pw_runs w)) w).
Proof.
  intros Hr Hok [Hrev Hp Hs Hc He].
  assert (forall id r0, pw_runs w !! id = Some r0 -> <[run_id r := r]> (pw_runs w) !! id = Some r0) as Hkeep
    by (intros id r0 Hid; rewrite lookup_insert_ne; [done|congruence]).
  split; [split; [done|done| | |done]|split; [done| |done]]; cbn.
  - intros id r0. destruct (decide (id = run_id r)) as [->|Hne].
    + rewrite lookup_insert_eq. by intros [= <-].
    + rewrite lookup_insert_ne by done. apply Hs.
  - intros run step row (Hrun & Hstep & r0 & Hr0 & Hin)%Hc. split_and!; [done..|]. exists r0. split; [by apply Hkeep|done].
  - intros id r0 Hid. exists r0. split; [by apply Hkeep|done].
Qed.
(** A new revision of a plan, which becomes the current one. *)
Lemma sound_revision w plan hash : plan_wf plan -> hash_plan plan = Ok hash ->
  pw_revisions w !! (plan_id plan, revision plan) = None ->
  sound w (with_revisions (<[(plan_id plan, revision plan) := (hash, plan)]> (pw_revisions w))
    (with_plan_rows (<[plan_id plan := plan]> (pw_plans w)) w)).
Proof.
  intros Hwf Hh Hn [Hrev Hp Hs Hc He].
  assert (pw_revisions w ⊆ <[(plan_id plan, revision plan) := (hash, plan)]> (pw_revisions w)) as Hsub
    by (by apply insert_subseteq).
  split; split; cbn; try done.
  - intros id rev hash' plan'. destruct (decide ((id, rev) = (plan_id plan, revision plan))) as [[= -> ->]|Hne].
    + rewrite lookup_insert_eq. by intros [= <- <-].
    + rewrite lookup_insert_ne by done. apply Hrev.
  - intros id plan'. destruct (decide (id = plan_id plan)) as [->|Hne].
    + rewrite lookup_insert_eq. intros [= <-]. exists hash. by rewrite lookup_insert_eq.
    + rewrite lookup_insert_ne by done. intros (hash' & Hp')%Hp. exists hash'.
      by apply (lookup_weaken _ _ _ _ Hp').
  - intros id r Hr. destruct (Hs id r Hr) as (Hid & hash' & plan' & Hk & Hf & Ho). split; [done|].
    exists hash', plan'. split_and!; [by apply (lookup_weaken _ _ _ _ Hk)|done|done].
  - intros id r Hr. by exists r.
Qed.
(** The record of a completed step. *)
Lemma sound_step_run w row : pw_step_runs w !! (sr_run row, sr_step row) = None ->
  (exists r, pw_runs w !! sr_run row = Some r /\ sr_step row ∈ completed_steps (run_state r)) ->
  (forall k row', pw_step_runs w !! k = Some row' -> ~ shares row' row) ->
  sound w (with_step_runs (<[(sr_run row, sr_step row) := row]> (pw_step_runs w)) w).
Proof.
  intros Hk Hr Hfresh [Hrev Hp Hs Hc He].
  split; [split; [done..| |]|split; [done|intros id r Hid; by exists r|by apply insert_subseteq]]; cbn.
  - intros run step row'. destruct (decide ((run, step) = (sr_run row, sr_step row))) as [[= -> ->]|Hne].
    + rewrite lookup_insert_eq. by intros [= <-].
    + rewrite lookup_insert_ne by done. apply Hc.
  - assert (forall a b, shares a b -> shares b a) as Hsym.
    { intros a b [E|[[? E]|[? E]]]; [by left| |]; [right; left|right; right]; (split; [congruence|done]). }
    intros k k' row1 row2. rewrite !lookup_insert_Some. intros [[<- <-]|[Hn1 Hl1]] [[<- <-]|[Hn2 Hl2]] Hsh; [done| | |].
    + by destruct (Hfresh _ _ Hl2 (Hsym _ _ Hsh)).
    + by destruct (Hfresh _ _ Hl1 Hsh).
    + by eapply He.
Qed.
End invariant.

(** * Inversion *)

Section inversion.
Context `{SerdeJson} {X : Type} `{!PlanHost X} `{!PlanHashes} `{!PlanEnv}.
#[local] Abbreviation World := (PlanWorld (X := X)).
#[local] Abbreviation eff := (eff World).
Implicit Types (w : World).

Lemma calm_view {A} (m : eff A) w r w' : calm m -> m w = (r, w') -> view w' = view w.
Proof. intros Hm E. specialize (Hm w). by rewrite E in Hm. Qed.
Lemma view_system w w' : view w' = view w -> pw_system w' = pw_system w.
Proof. by intros [=]. Qed.

Lemma plan_run_Ok id w r w' : plan_run id w = (Ok r, w') -> pw_runs w !! id = Some r.
Proof. unfold plan_run, fetch. destruct (pw_runs w !! id); cbn; [by intros [= ->]|done]. Qed.
Lemma execution_plan_Ok id w p w' : execution_plan id w = (Ok p, w') -> pw_plans w !! id = Some p.
Proof. unfold execution_plan, fetch. destruct (pw_plans w !! id); cbn; [by intros [= ->]|done]. Qed.
Lemma revision_i64_Ok n m : revision_i64 n = Ok m -> m = n.
Proof. unfold revision_i64, try_i64. by case_bool_decide; cbn; [intros [= <-]|]. Qed.
Lemma plan_of_Ok r w p w' : plan_of r w = (Ok p, w') -> exists hash,
  pw_revisions w !! revision_key r = Some (hash, p).
Proof.
  unfold plan_of, plan_revision. intros (rev & w1 & [= Hrev <-] & E)%bind_Ok. apply revision_i64_Ok in Hrev as ->.
  apply bind_Ok in E as ([hash p'] & w2 & [Hrow ->]%fetch_Ok & E). apply ok_or_Ok in Hrow.
  apply bind_Ok in E as (h & w3 & [= _ <-] & E). cbn [fst snd] in E. case_bool_decide; [|done].
  injection E as <- _. by exists hash.
Qed.
Lemma system_Ok {A} (f : X -> result A) w a w' : system f w = (Ok a, w') -> f (pw_system w) = Ok a.
Proof. unfold system, fetch. by intros [= -> _]. Qed.
Lemma plan_transaction_Ok {A} (m : eff A) w a w' : plan_transaction m w = (Ok a, w') -> m w = (Ok a, w').
Proof. unfold plan_transaction. destruct (m w) as [[b|e] w1]; [done|by intros [=]]. Qed.
(** A transaction is sound when its returns are. *)
Lemma transaction_sound {A} (m : eff A) w :
  (forall a w', m w = (Ok a, w') -> sound w w') -> sound w (plan_transaction m w).2.
Proof.
  intros Hm. unfold plan_transaction. destruct (m w) as [[a|e] w'] eqn:E; cbn; [by apply (Hm a)|by apply sound_tables].
Qed.
Lemma failed_transaction_sound {A} (m : eff A) w e w' : plan_transaction m w = (Err e, w') -> sound w w'.
Proof. unfold plan_transaction. destruct (m w) as [[a|e'] w1]; [done|]. intros [= _ <-]. by apply sound_tables. Qed.
Lemma insert_row_Ok {K V} `{Countable K} (m m' : gmap K V) k v : insert_row m k v = Ok m' ->
  m !! k = None /\ m' = <[k := v]> m.
Proof. unfold insert_row. destruct (m !! k); [done|]. by intros [= <-]. Qed.
End inversion.

(** Peel one calm statement off a computation that returned. *)
Ltac peel E a w1 Ea V :=
  apply bind_Ok in E as (a & w1 & Ea & E);
  pose proof (fun Hc => calm_view _ _ _ _ Hc Ea) as V;
  lazymatch type of V with ?P -> _ =>
    let Hc := fresh in assert (Hc : P) by (first [solve [auto with calm] | solve [calm_parts]]);
    specialize (V Hc); clear Hc
  end;
  try match type of V with view _ = view ?w => match goal with V0 : view w = view _ |- _ => rewrite V0 in V end end.
(** Pass a guard. *)
Ltac pass E C :=
  match type of E with (if ?b then _ else _) _ = _ => destruct b eqn:C; [discriminate E|] end.

(** * Runs that keep their course *)

Section course.
Context `{SerdeJson} {X : Type} `{!PlanHost X} `{!PlanHashes} `{!PlanEnv}.
Implicit Types (w : PlanWorld (X := X)) (r : PlanRun) (s : PlanState) (plan : ExecutionPlan).

Definition core s := (st_plan s, st_revision s, completed_steps s, current_step s, mutation_epoch s).

Lemma view_tables w w' : view w' = view w -> pw_plans w' = pw_plans w /\ pw_revisions w' = pw_revisions w /\
  pw_runs w' = pw_runs w /\ pw_step_runs w' = pw_step_runs w /\ pw_system w' = pw_system w.
Proof. by intros [= -> -> -> -> ->]. Qed.

Lemma run_follows_core plan s s' : core s' = core s -> crossed_commitment_points s' ⊆ point_id <$> commitment_points plan ->
  run_follows plan s -> run_follows plan s'.
Proof. intros [= E1 E2 E3 E4 E5] Hc []. split; rewrite ?E1, ?E2, ?E3, ?E4, ?E5; done. Qed.

(** A run that is not over crosses commitment points, or fails. *)
Lemma sound_course w id r r' hash plan : pw_runs w !! id = Some r -> pw_revisions w !! revision_key r = Some (hash, plan) ->
  run_id r' = run_id r -> run_plan r' = run_plan r -> core (run_state r') = core (run_state r) ->
  finished_at r = None -> finished_at r' = None ->
  outcome r' = outcome r \/ outcome r' = Some PlanRunOutcome.Failure ->
  crossed_commitment_points (run_state r) `prefix_of` crossed_commitment_points (run_state r') ->
  (crossed_commitment_points (run_state r) ⊆ point_id <$> commitment_points plan ->
   crossed_commitment_points (run_state r') ⊆ point_id <$> commitment_points plan) ->
  sound w (with_runs (alter (fun _ => r') (run_id r') (pw_runs w)) w).
Proof.
  intros Hr Hp Hid Hplan Hcore Hf Hf' Ho Hcr Hsub Hw. pose proof (proj1 (sw_runs _ Hw _ _ Hr)) as <-.
  apply (sound_update w r); [by rewrite Hid| |..|done].
  - destruct (sw_runs _ Hw _ _ Hr) as (_ & hash' & plan' & Hrev & Hfol & Hsucc). rewrite Hp in Hrev. injection Hrev as <- <-.
    exists hash, plan. unfold revision_key. rewrite Hplan. split_and!; [done| |].
    + apply (run_follows_core _ (run_state r)); [done|by apply Hsub, rf_crossed|done].
    + destruct Ho as [-> | ->]; [|done]. intros Hs. apply Hsucc in Hs as [[? ?] _]. congruence.
  - injection Hcore as _ _ Hc _ _. split; [done|by rewrite Hc|done| | |].
    + intros Hfail. split; [|done]. destruct Ho; congruence.
    + destruct Ho as [->| ->]; [by left|done].
    + intros [? ?]. congruence.
Qed.
(** Nothing that matters to the plan changes; of a run that is over, not its observations. *)
Lemma sound_touch w id r s : pw_runs w !! id = Some r -> core s = core (run_state r) ->
  crossed_commitment_points s = crossed_commitment_points (run_state r) ->
  (is_Some (finished_at r) -> observations s = observations (run_state r)) ->
  sound w (with_runs (alter (fun _ => set_state s r) (run_id r) (pw_runs w)) w).
Proof.
  intros Hr Hcore Hcr Hobs Hw. pose proof (proj1 (sw_runs _ Hw _ _ Hr)) as <-. apply (sound_update w r (set_state s r)); [done| |..|done].
  - destruct (sw_runs _ Hw _ _ Hr) as (_ & hash & plan & Hrev & Hfol & Hsucc). exists hash, plan. split_and!; [done| |].
    + apply (run_follows_core _ (run_state r)); [done|cbn; rewrite Hcr; by apply rf_crossed|done].
    + cbn. injection Hcore as _ _ -> _ _. done.
  - injection Hcore as _ _ Hc _ _. split; cbn; rewrite ?Hc, ?Hcr; try done; [by left|]. intros Hf. split_and!; auto.
Qed.
End course.
