(* ===== verification/PlanRunSound.v ===== *)
(** The operations of the plan store that keep runs on their course: saving a plan,
    starting and observing a run, assessing it, checkpoints and authorizations keep
    the invariant and only move runs forward. *)
From S2P Require Import Prelude Worklist StateError Semver Scope Hierarchy EconomicsModel EffectModel CapabilityModel PlanModel PlanValidity PlanWellFormed PlanPredicates PlanDecision PlanAdmission PlanStore PlanRun PlanRecovery PlanRunFacts.

Section operations.
Context `{SerdeJson} {X : Type} `{!PlanHost X} `{!PlanHashes} `{!PlanEnv}.
#[local] Abbreviation World := (PlanWorld (X := X)).
#[local] Abbreviation eff := (eff World).
Implicit Types (w : World) (r : PlanRun) (s : PlanState) (plan : ExecutionPlan).

(** Calm statements first. *)
Lemma sound_bind {A B} (m : eff A) (f : A -> eff B) w : calm m ->
  (forall a w1, m w = (Ok a, w1) -> view w1 = view w -> sound w1 (f a w1).2) -> sound w ((m ≫= f) w).2.
Proof.
  intros Hm Hf. unfold mbind, eff_bind. specialize (Hm w). destruct (m w) as [[a|e] w1]; cbn in Hm.
  - etrans; [by apply sound_view|by apply Hf].
  - by apply sound_view.
Qed.
Lemma sound_modify {B} (g : World -> World) (f : unit -> eff B) w :
  sound w (g w) -> sound (g w) (f tt (g w)).2 -> sound w ((modify g ≫= f) w).2.
Proof. intros Hg Hf. by etrans. Qed.
Lemma sound_events l w w' : sound w w' -> sound w (with_plan_events l w').
Proof. intros Hs. etrans; [exact Hs|]. by apply sound_tables. Qed.
Lemma sound_calm {A} (m : eff A) w : calm m -> sound w (m w).2.
Proof. intros Hm. apply sound_view, Hm. Qed.

Lemma sound_then {A B} (m : eff A) (f : A -> eff B) w : sound w (m w).2 -> (forall a w1, sound w1 (f a w1).2) ->
  sound w ((m ≫= f) w).2.
Proof.
  intros Hm Hf. unfold mbind, eff_bind. destruct (m w) as [[a|e] w1]; [|done]. etrans; [exact Hm|apply Hf].
Qed.
Lemma sound_transaction {A} (m : eff A) w : sound w (m w).2 -> sound w (plan_transaction m w).2.
Proof. intros Hm. apply transaction_sound. intros a w' E. by rewrite E in Hm. Qed.
Lemma sound_update_run {B} r (f : unit -> eff B) w :
  sound w (with_runs (alter (fun _ => r) (run_id r) (pw_runs w)) w) -> calm (f tt) ->
  sound w ((update_plan_run r ≫= f) w).2.
Proof. intros Hr Hf. apply sound_modify; [done|]. by apply sound_calm. Qed.
#[local] Ltac decline :=
  match goal with |- sound _ ((if ?b then _ else _) _).2 =>
    destruct b; [by first [apply sound_calm, calm_refuse | apply sound_calm, calm_invalid]|] end.
#[local] Ltac advance a w1 Ea V :=
  apply sound_bind; [first [solve [auto with calm] | solve [calm_parts]]|];
  intros a w1 Ea V;
  try match type of V with view _ = view ?w => match goal with V0 : view w = view _ |- _ => rewrite V0 in V end end.

(** * Plans and revisions *)

Lemma set_pins_wf pins plan : plan_wf plan -> plan_wf (set_pins pins plan).
Proof. intros []. split; done. Qed.
Lemma settled_validate plan index : settled (validate_plan plan) = Ok index -> plan_wf plan.
Proof. destruct (validate_plan_spec plan) as [[Hw _]|(_ & message & ->)]; done. Qed.

Lemma save_sound plan reason w : sound w (save_execution_plan plan reason w).2.
Proof.
  unfold save_execution_plan. apply sound_bind; [apply calm_lift|]. intros index w1 [= Hv <-] _.
  apply settled_validate in Hv. decline.
  apply transaction_sound. intros p w2 E. peel E pins w3 Ep V. peel E previous w4 Epr V2.
  pass E Hnext. peel E revn w5 Er V3. injection Er as Er <-. apply revision_i64_Ok in Er as ->.
  apply bind_Ok in E as ([] & w6 & [= <-] & E). peel E hash w7 Eh V4. injection Eh as Eh <-.
  apply bind_Ok in E as (m & w8 & [Em ->]%fetch_Ok & E). apply insert_row_Ok in Em as [Hn ->].
  injection E as _ <-. etrans; [apply sound_view; exact V2|].
  apply sound_events. by apply (sound_revision w4 (set_pins pins plan) hash); [apply set_pins_wf| |].
Qed.

(** * Runs *)

Lemma initial_next_ready plan : current_step (initial plan) = next_ready plan [].
Proof.
  unfold initial, next_ready. cbn. f_equal. induction (steps plan) as [|x l IH]; [done|]. cbn.
  unfold dependencies_completed. destruct (step_dependencies x) as [|d l']; cbn; [done|]. apply IH.
Qed.
Lemma initial_follows plan : run_follows plan (initial plan).
Proof.
  split; cbn; [done|done|apply list_subseteq_nil|apply NoDup_nil_2| |apply initial_next_ready|apply list_subseteq_nil|lia].
  intros d x _ Hx. by apply not_elem_of_nil in Hx.
Qed.

Lemma start_sound id w : sound w (start_plan_run id w).2.
Proof.
  unfold start_plan_run. apply sound_bind; [auto with calm|]. intros plan w1 Hp%execution_plan_Ok V.
  apply sound_bind; [auto with calm|]. intros started w2 _ V2.
  apply sound_modify; [by apply sound_tables|].
  apply transaction_sound. intros r w3 E. peel E rid w4 E4 V4. peel E at_ w5 E5 V5.
  apply bind_Ok in E as ([] & w6 & Ei & E). injection E as _ <-.
  unfold insert_run in Ei. apply bind_Ok in Ei as (m & w7 & [Em ->]%fetch_Ok & E). apply insert_row_Ok in Em as [Hn ->].
  injection E as <-. etrans; [apply sound_view; exact V5|].
  apply sound_events. intros Hw. apply (sound_insert w5); [done| |done].
  assert (pw_plans w5 = pw_plans w) as Epl.
  { apply view_tables in V5 as (-> & _). cbn. apply view_tables in V2 as (-> & _). by apply view_tables in V as (-> & _). }
  rewrite <- Epl in Hp. destruct (sw_plans _ Hw _ _ Hp) as (hash & Hrev). exists hash, plan. cbn.
  split_and!; [done|apply initial_follows|done].
Qed.

(** * Observations *)

Lemma record_claim_core o s c s' : record_claim o s c = Ok s' ->
  core s' = core s /\ crossed_commitment_points s' = crossed_commitment_points s.
Proof.
  unfold record_claim. destruct (_ || _); [done|]. destruct (existsb _ _); [done|].
  destruct (_ && _); by intros [= <-].
Qed.
Lemma record_claims_core o l s s' : result_foldl (record_claim o) s l = Ok s' ->
  core s' = core s /\ crossed_commitment_points s' = crossed_commitment_points s.
Proof.
  revert s. induction l as [|c l IH]; intros s; cbn; [by intros [= <-]|].
  destruct (record_claim o s c) as [s1|e] eqn:Hc; cbn; [|done].
  intros [-> ->]%IH. by apply (record_claim_core o s c).
Qed.
Lemma run_terminal_false r : run_terminal r = false <-> finished_at r = None.
Proof. unfold run_terminal. rewrite bool_decide_eq_false. by destruct (finished_at r); naive_solver. Qed.

Lemma append_trajectory_sound r l w : sound w (append_trajectory r l w).2.
Proof.
  unfold append_trajectory. destruct (trajectory r) as [t|]; [|done].
  apply sound_bind; [auto with calm|]. intros x w1 _ _. by apply sound_tables.
Qed.
Lemma observe_sound id o w : sound w (record_plan_observation id o w).2.
Proof.
  unfold record_plan_observation. apply sound_bind; [auto with calm|]. intros now0 w0 _ _.
  decline.
  destruct (decide (po_source o = StateClaimSource.ToolAttestation)) as [->|Hne]; [apply sound_calm; calm_parts|].
  assert (sound w0 ((done ← observe_run id o; append_trajectory done.1 done.2 ≫= fun _ => mret done.2) w0).2) as Hs;
    [|by destruct (po_source o)].
  apply sound_then.
  - unfold observe_run. apply sound_transaction. advance r w1 Hr V. apply plan_run_Ok in Hr.
    destruct (run_terminal r) eqn:Ht; [by apply sound_calm, calm_refuse|]. apply run_terminal_false in Ht.
    advance s w2 Hs V2. injection Hs as Hs <-. apply record_claims_core in Hs as [Hcore Hcr].
    advance p w3 Hplan V3. advance t w4 Hnow V4. advance m w5 Hm V5.
    apply sound_modify; [by apply sound_tables|]. apply sound_update_run; [|calm_parts].
    apply (sound_touch _ id r s); [|done|done|by intros [? ?]; congruence]. cbn.
    by apply view_tables in V5 as (_ & _ & -> & _).
  - intros done' w1. apply sound_then; [apply append_trajectory_sound|]. done.
Qed.

(** * Assessments *)

Lemma assess_loaded_Ok id c w done_ w' : assess_loaded id c w = (Ok done_, w') -> view w' = view w /\
  pw_runs w !! id = Some done_.1.1 /\
  exists hash inputs a aid w1 w2, pw_revisions w !! revision_key done_.1.1 = Some (hash, done_.1.2) /\
    view w1 = view w /\ plan_evaluation_inputs done_.1.2 (run_state done_.1.1) w1 = (Ok inputs, w2) /\
    evaluate hash_state inputs aid 0 done_.1.2 (run_state done_.1.1) c = Ret (Ok a) /\
    done_.2 = (if bool_decide (outcome done_.1.1 = Some PlanRunOutcome.Failure) then after_failure a else a).
Proof.
  intros E. split; [exact (calm_view _ _ _ _ (calm_assess_loaded id c) E)|].
  unfold assess_loaded in E. peel E r w1 Er V. pose proof (plan_run_Ok _ _ _ _ Er) as Hr.
  peel E plan w2 Ep V2. pose proof (plan_of_Ok _ _ _ _ Ep) as [hash Hrev].
  pose proof (view_tables _ _ V) as (_ & Erev & _). rewrite Erev in Hrev.
  peel E inputs w3 Ei V3. peel E aid w4 Eaid V4. peel E a w5 Ea V5. injection E as <- <-. cbn.
  split; [done|]. exists hash, inputs, a, aid, w2, w3. split_and!; [done..| |done].
  injection Ea as Ea _. unfold settled in Ea. by destruct (evaluate _ _ _ _ _ _ _) as [[?|?]| |] eqn:He;
    inversion Ea; subst.
Qed.
Lemma assess_sound id c persist w : sound w (assess_plan_run id c persist w).2.
Proof.
  destruct persist; [|apply sound_calm, calm_assess]. unfold assess_plan_run. apply sound_transaction.
  advance d w1 Ed V. apply assess_loaded_Ok in Ed as (_ & Hr & _). apply view_tables in V as (_ & _ & Eruns & _).
  rewrite <- Eruns in Hr. apply sound_then; [|done]. unfold persist_assessment. advance m w2 Em V2.
  apply sound_modify; [by apply sound_tables|]. apply sound_update_run; [|apply calm_event].
  apply (sound_touch _ id d.1.1); [|done..]. cbn. by apply view_tables in V2 as (_ & _ & -> & _).
Qed.

(** * Checkpoints and authorizations *)

Lemma capture_sound id cp c w : sound w (capture_plan_checkpoint id cp c w).2.
Proof.
  unfold capture_plan_checkpoint. apply sound_transaction. advance r w1 Hr V. apply plan_run_Ok in Hr.
  advance p w2 Hp V2. advance k w3 Hk V3. decline.
  advance a w4 Ha V4. decline.
  advance rc w5 Hrc V5. advance sid w6 Hsid V6. advance t w7 Ht V7. advance m w8 Hm V8.
  apply sound_modify; [by apply sound_tables|]. apply sound_update_run; [|calm_parts].
  apply (sound_touch _ id r); [|done..]. cbn. by apply view_tables in V8 as (_ & _ & -> & _).
Qed.
Lemma resume_sound id snapshot c w : sound w (resume_plan_checkpoint id snapshot c w).2.
Proof.
  unfold resume_plan_checkpoint. advance row w1 Hrow V. advance r w2 Hr V2.
  decline. apply sound_then; [apply assess_sound|].
  intros a w3. apply sound_calm. calm_parts.
Qed.
Lemma bind_sound id authorization w : sound w (bind_plan_authorization id authorization w).2.
Proof.
  unfold bind_plan_authorization. apply sound_transaction. advance r w1 Hr V. apply plan_run_Ok in Hr.
  decline. advance known w2 Hk V2.
  case_bool_decide; [|by apply sound_calm, calm_invalid]. apply sound_update_run; [|calm_parts].
  apply (sound_touch _ id r); [by apply view_tables in V2 as (_ & _ & -> & _)|..];
    unfold add_authorization; case_bool_decide; done.
Qed.

(** * Failure *)

Lemma invalidate_core plan p s : core (invalidate plan p s) = core s /\
  crossed_commitment_points (invalidate plan p s) = crossed_commitment_points s /\
  committed_effects (invalidate plan p s) = committed_effects s.
Proof.
  unfold invalidate. generalize (List.filter (fun a => bool_decide (assumption_id a ∈ assumptions_invalidated p)) (assumptions plan)).
  intros l. revert s. induction l as [|a l IH]; intros s; [done|]. cbn.
  destruct (IH (match predicate_key (predicate a) with Some key => forget key s | None => s end)) as (-> & -> & ->).
  by destruct (predicate_key _).
Qed.
Lemma reconcile_points plan l s w s' w' : (forall p, p ∈ l -> p ∈ commitment_points plan) ->
  eff_foldl (reconcile_point (X := X) plan) s l w = (Ok s', w') ->
  core s' = core s /\ crossed_commitment_points s `prefix_of` crossed_commitment_points s' /\
  (crossed_commitment_points s ⊆ point_id <$> commitment_points plan ->
   crossed_commitment_points s' ⊆ point_id <$> commitment_points plan).
Proof.
  revert s w. induction l as [|p l IH]; intros s w Hl; cbn [eff_foldl]; [by intros [= <- _]|]. intros E.
  peel E s1 w1 E1 V. apply IH in E as (-> & Hpre & Hsub); [|set_solver].
  unfold reconcile_point in E1. peel E1 yes w2 Ey V2. injection E1 as <- _.
  destruct (_ && _); [|done]. destruct (invalidate_core plan p (add_crossed p s)) as (-> & Ec & _).
  rewrite Ec in Hpre, Hsub. cbn in Hpre, Hsub. split; [done|]. split.
  - etrans; [|exact Hpre]. by apply prefix_app_r.
  - intros Hs. apply Hsub. intros x. rewrite elem_of_app, list_elem_of_singleton. intros [?| ->]; [by apply Hs|].
    apply list_elem_of_fmap_2, Hl. by left.
Qed.
Lemma reconcile_sound id reason w : sound w (reconcile_plan_failure id reason w).2.
Proof.
  unfold reconcile_plan_failure. destruct (blank reason); [by apply sound_calm, calm_invalid|]. apply sound_transaction.
  advance r w1 Hr V. apply plan_run_Ok in Hr. destruct (run_terminal r) eqn:Ht; [by apply sound_calm, calm_refuse|].
  apply run_terminal_false in Ht. advance p w2 Hp V2. apply plan_of_Ok in Hp as [hash Hrev].
  advance s w3 Hs V3. apply reconcile_points in Hs as (Hcore & Hpre & Hsub); [|done].
  apply view_tables in V as (_ & Er1 & _). apply view_tables in V3 as (_ & Er3 & Eruns & _).
  apply sound_modify.
  - apply (sound_course _ id r _ hash p); cbn; try done; [by rewrite Eruns|by rewrite Er3, <- Er1|by right].
  - advance rc w4 Hrc V4. apply sound_update_run; [|calm_parts].
    apply view_tables in V4 as (_ & _ & Eruns4 & _). cbn in Eruns4. intros Hw.
    apply (sound_touch _ (run_id r) (set_outcome (finished_at r) (Some PlanRunOutcome.Failure) (set_state s r)));
      [|done..|exact Hw]. rewrite Eruns4. destruct (decide (id = run_id r)) as [->|Hne].
    + by rewrite lookup_alter_eq, Eruns, Hr.
    + exfalso. apply Hne. symmetry. apply (sw_runs _ Hw id r). rewrite Eruns4, lookup_alter_ne by done. by rewrite Eruns.
Qed.
End operations.
