(* ===== verification/PlanRunSteps.v ===== *)
(** Completing a step and replanning: what a call that returned went through, and
    that the runs stay on their course. *)
From S2P Require Import Prelude Worklist StateError Semver Scope Hierarchy EconomicsModel EffectModel CapabilityModel PlanModel PlanValidity PlanWellFormed PlanPredicates PlanDecision PlanAdmission PlanStore PlanRun PlanRecovery PlanRunFacts PlanRunSound.

(** The hashes of different steps, and of different commitment points, differ. *)
Class PlanHashLaws `{SerdeJson} `{!PlanHashes} : Prop := {
  hash_step_inj : forall a b h, hash_step a = Ok h -> hash_step b = Ok h -> a = b;
  hash_point_inj : forall a b h, hash_point a = Ok h -> hash_point b = Ok h -> a = b;
}.

Section completion.
Context `{SerdeJson} {X : Type} `{!PlanHost X} `{!PlanHashes} `{!PlanEnv}.
#[local] Abbreviation World := (PlanWorld (X := X)).
Implicit Types (w : World) (r : PlanRun) (s : PlanState) (plan : ExecutionPlan).

(** * Completing a step *)

Lemma receipts_core l s w s' w' : eff_foldl (add_receipt (X := X)) s l w = (Ok s', w') ->
  core s' = core s /\ crossed_commitment_points s' = crossed_commitment_points s.
Proof.
  revert s w. induction l as [|x l IH]; intros s w; cbn [eff_foldl]; [by intros [= <- _]|]. intros E.
  peel E s1 w1 E1 V. apply IH in E as [-> ->]. unfold add_receipt in E1. peel E1 e w2 Ee V2. injection E1 as <- _.
  unfold add_effect. by case_bool_decide.
Qed.
(** Every consequence of the points has its receipt in the record. *)
Definition receipted w (record : PlanStepRun) (p : PlanCommitmentPoint) : Prop :=
  forall c, c ∈ consequences p -> exists receipt,
    host_receipt_for_effect (pw_system w) (consequence_effect c) = Ok (Some receipt) /\ receipt ∈ sr_receipts record.
Lemma consequences_receipted record l w w' : eff_iter (consequence_evidence record) l w = (Ok tt, w') ->
  forall c, c ∈ l -> exists receipt,
    host_receipt_for_effect (pw_system w) (consequence_effect c) = Ok (Some receipt) /\ receipt ∈ sr_receipts record.
Proof.
  revert w. induction l as [|x l IH]; intros w; cbn [eff_iter]; [by intros _ c ?%not_elem_of_nil|]. intros E.
  pose proof (calm_consequence_evidence record x) as Hcalm.
  peel E u w1 E1 V. unfold consequence_evidence in E1. peel E1 receipt w2 Er V2. apply system_Ok in Er.
  destruct receipt as [receipt|]; [|discriminate E1]. case_bool_decide as Hin; [|discriminate E1].
  intros c [->|Hc]%elem_of_cons; [by exists receipt|]. rewrite <- (view_system _ _ V). by apply (IH w1).
Qed.
Lemma crossings_Ok plan record l s w s' w' : eff_foldl (cross_point plan record) s l w = (Ok s', w') ->
  core s' = core s /\ crossed_commitment_points s' = crossed_commitment_points s ++ (point_id <$> l) /\
  forall p, p ∈ l -> receipted w record p.
Proof.
  revert s w. induction l as [|p l IH]; intros s w; cbn [eff_foldl].
  { intros [= <- _]. split_and!; [done|by rewrite app_nil_r|by intros p ?%not_elem_of_nil]. }
  intros E. peel E s1 w1 E1 V. apply IH in E as (-> & -> & Hrest). unfold cross_point in E1.
  pose proof (calm_consequence_evidence record) as Hcalm. peel E1 u w2 Eu V2. destruct u.
  peel E1 u w3 Ev V3. injection E1 as <- _. destruct (invalidate_core plan p s) as (Hc & Hx & _). split_and!.
  - exact Hc.
  - cbn. rewrite Hx, <- app_assoc. done.
  - intros q [->|Hq]%elem_of_cons; [exact (consequences_receipted _ _ _ _ Eu)|].
    unfold receipted. rewrite <- (view_system _ _ V). by apply Hrest.
Qed.

(** The run after a step: what is completed, crossed, current, and whether it is over. *)
Record moved plan (record : PlanStepRun) (step : PlanStep) r r' : Prop := {
  mv_id : run_id r' = run_id r;
  mv_plan : run_plan r' = run_plan r;
  mv_identity : st_plan (run_state r') = st_plan (run_state r) /\ st_revision (run_state r') = st_revision (run_state r);
  mv_completed : completed_steps (run_state r') = completed_steps (run_state r) ++ [step_id step];
  mv_current : current_step (run_state r') = next_ready plan (completed_steps (run_state r'));
  mv_epoch : mutation_epoch (run_state r') =
    (if mutates step then mutation_epoch (run_state r) + 1 else mutation_epoch (run_state r))%Z;
  mv_crossed : crossed_commitment_points (run_state r') =
    crossed_commitment_points (run_state r) ++ (point_id <$> points_after plan step);
  mv_over : if length (completed_steps (run_state r')) =? length (steps plan)
    then is_Some (finished_at r') /\ outcome r' = Some PlanRunOutcome.Success
    else finished_at r' = finished_at r /\ outcome r' = outcome r;
}.
(** Why the step could be completed. *)
Record earned w (record : PlanStepRun) r plan (step : PlanStep) (d : StepDecision) : Prop := {
  er_open : finished_at r = None;
  er_current : current_step (run_state r) = Some (sr_step record);
  er_step : find_step plan (sr_step record) = Some step;
  er_fresh : evidence_used record w = false;
  er_decision : host_decision (pw_system w) (decision record) = Ok d /\ is_act d = true /\
    exists c, dec_plan d = Some c /\ pc_run c = sr_run record /\ pc_next_step c = sr_step record;
  er_team : host_team_unchanged (pw_system w) d = Ok true;
  er_assessed : exists done_ w1 w2, view w1 = view w /\ assess_loaded (sr_run record) (dec_context d) w1 = (Ok done_, w2) /\
    open_status done_.2 = true;
  er_evidence : exists w1 w2, view w1 = view w /\ step_evidence plan step (run_state r) record d w1 = (Ok tt, w2);
  er_receipts : forall p, p ∈ points_after plan step -> receipted w record p;
}.

Lemma close_run_Ok plan record step r s w r' w' : close_run plan s r w = (Ok r', w') ->
  st_plan s = st_plan (run_state r) /\ st_revision s = st_revision (run_state r) ->
  completed_steps s = completed_steps (run_state r) ++ [step_id step] ->
  current_step s = next_ready plan (completed_steps s) ->
  mutation_epoch s = (if mutates step then mutation_epoch (run_state r) + 1 else mutation_epoch (run_state r))%Z ->
  crossed_commitment_points s = crossed_commitment_points (run_state r) ++ (point_id <$> points_after plan step) ->
  moved plan record step r r'.
Proof.
  intros E Hid Hc Hn He Hx. unfold close_run in E. destruct (_ =? _) eqn:Hl.
  - peel E t w1 Et V. injection E as <- _. split; cbn; try done. rewrite Hl. split; [by eexists|done].
  - injection E as <- _. split; cbn; try done. by rewrite Hl.
Qed.

Lemma complete_Ok record w r' w' : complete_plan_step record w = (Ok r', w') ->
  exists r hash plan step d, pw_runs w !! sr_run record = Some r /\ pw_revisions w !! revision_key r = Some (hash, plan) /\
  earned w record r plan step d /\ moved plan record step r r' /\
  pw_step_runs w !! (sr_run record, sr_step record) = None /\
  pw_step_runs w' = <[(sr_run record, sr_step record) := record]> (pw_step_runs w) /\
  pw_runs w' = alter (fun _ => r') (run_id r') (pw_runs w) /\
  pw_plans w' = pw_plans w /\ pw_revisions w' = pw_revisions w /\ pw_system w' = pw_system w.
Proof.
  intros E%plan_transaction_Ok. peel E r w1 Er V1. apply plan_run_Ok in Er.
  match type of E with (if ?b then _ else _) _ = _ => destruct b eqn:Hcur; [discriminate E|] end.
  apply orb_false_iff in Hcur as [Hopen%run_terminal_false Hcur%negb_false_iff%bool_decide_eq_true].
  peel E t w2 Et V2. pass E Hfuture. peel E used w3 Eu V3. injection Eu as Eu Ew.
  destruct used; [discriminate E|]. peel E d w4 Ed V4. apply system_Ok in Ed. pass E Hact.
  apply orb_false_iff in Hact as [Hact%negb_false_iff Hdp%negb_false_iff].
  peel E u w5 Ea V5. peel E unchanged w6 Eun V6. pass E Hun. peel E a w7 Eas V7. pass E Hst. apply negb_false_iff in Hst.
  peel E plan w8 Ep V8. apply plan_of_Ok in Ep as [hash Hrev]. peel E step w9 Es V9. injection Es as Es _.
  peel E u' w10 Ev V10. destruct u'. peel E s w11 Erc V11. apply receipts_core in Erc as [Hc1 Hx1].
  peel E s2 w12 Ecr V12. apply crossings_Ok in Ecr as (Hc2 & Hx2 & Hrcp). cbn zeta in E.
  peel E r2 w13 Ecl V13. apply bind_Ok in E as (m & w14 & [Em ->]%fetch_Ok & E). apply insert_row_Ok in Em as [Hnone ->].
  apply bind_Ok in E as ([] & w15 & [= <-] & E). apply bind_Ok in E as ([] & w16 & [= <-] & E).
  injection E as <- <-. cbn.
  injection Hc1 as A1 A2 A3 A4 A5. injection Hc2 as B1 B2 B3 B4 B5. cbn in B1, B2, B3, B4, B5, Hx2.
  rewrite A1 in B1. rewrite A2 in B2. rewrite A3 in B3. rewrite A5 in B5. rewrite Hx1 in Hx2.
  apply (close_run_Ok _ record step) in Ecl; [|done..].
  apply view_tables in V13 as (-> & -> & -> & E13 & ->). rewrite E13 in *.
  apply view_tables in V7 as (_ & Erev & _ & _ & _). rewrite Erev in Hrev.
  exists r, hash, plan, step, d. split_and!; try done. split; try done.
  - by destruct (find_step plan (sr_step record)); inversion Es.
  - subst w3. unfold evidence_used in *. by apply view_tables in V2 as (_ & _ & _ & <- & _).
  - rewrite <- (view_system _ _ V3). split_and!; [done..|]. destruct (dec_plan d) as [c|]; [|done].
    apply andb_true_iff in Hdp as [Hrun%bool_decide_eq_true Hstep%bool_decide_eq_true]. by exists c.
  - apply system_Ok in Eun. rewrite (view_system _ _ V5) in Eun. by destruct unchanged.
  - unfold assess_plan_run in Eas. apply bind_Ok in Eas as (done_ & w17 & Eas & [= <- _]). by exists done_, w6, w17.
  - by exists w9, w10.
  - intros p Hp. unfold receipted. rewrite <- (view_system _ _ V11). by apply Hrcp.
Qed.

(** * Completing keeps the course *)

Lemma find_step_wf plan a : plan_wf plan -> a ∈ steps plan -> find_step plan (step_id a) = Some a.
Proof. intros Hwf Ha. apply (find_unique step_id); [by apply wf_step_ids|done]. Qed.
Lemma points_after_known plan step : point_id <$> points_after plan step ⊆ point_id <$> commitment_points plan.
Proof.
  intros x (p & -> & Hp)%list_elem_of_fmap. apply list_elem_of_fmap_2. unfold points_after in Hp.
  by apply elem_of_list_filter_bool in Hp as [_ ?].
Qed.
Lemma moved_follows plan record step r r' : plan_wf plan -> run_follows plan (run_state r) ->
  current_step (run_state r) = Some (sr_step record) -> find_step plan (sr_step record) = Some step ->
  moved plan record step r r' -> run_follows plan (run_state r').
Proof.
  intros Hwf Hf Hcur Hfind [_ _ [Hp Hr] Hc Hn He Hx _]. rewrite (rf_current _ _ Hf) in Hcur.
  apply next_ready_spec in Hcur as (a & Ha & Hid & Hnew & Hdeps).
  rewrite <- Hid, (find_step_wf _ _ Hwf Ha) in Hfind. injection Hfind as <-. rewrite <- Hid in Hnew. split.
  - rewrite Hp. apply Hf.
  - rewrite Hr. apply Hf.
  - rewrite Hc. intros x. rewrite elem_of_app, list_elem_of_singleton. intros [?| ->]; [by apply Hf|by apply list_elem_of_fmap_2].
  - rewrite Hc. apply NoDup_app. split_and!; [apply Hf| |apply NoDup_singleton].
    by intros x Hin ->%list_elem_of_singleton.
  - rewrite Hc. intros e x Hneed. rewrite elem_of_app, list_elem_of_singleton. intros [Hin| ->].
    + apply earlier_app. by apply Hf.
    + apply earlier_snoc, Hdeps. destruct Hneed as (b & Hb & Hbid & Hd).
      pose proof (find_step_wf _ _ Hwf Hb) as Hfb. rewrite Hbid, (find_step_wf _ _ Hwf Ha) in Hfb. by injection Hfb as <-.
  - done.
  - rewrite Hx. intros x [Hin|Hin]%elem_of_app; [by apply Hf|by eapply points_after_known].
  - rewrite Hc, length_app, He. cbn. pose proof (rf_epoch _ _ Hf). destruct (mutates a); lia.
Qed.
Lemma evidence_fresh w record : evidence_used record w = false ->
  forall k row, pw_step_runs w !! k = Some row -> ~ shares row record.
Proof.
  unfold evidence_used. intros Hn%bool_decide_eq_false k row Hk Hs. apply Hn, map_Exists_lookup.
  exists k, row. split; [done|]. destruct Hs as [Hs|[[Ha Hs]|[Ha Hs]]]; [by left|right; left|right; right];
    (split; [by rewrite <- Hs|done]).
Qed.
Lemma open_not_failed r a : open_status (if bool_decide (outcome r = Some PlanRunOutcome.Failure) then after_failure a else a) = true ->
  outcome r <> Some PlanRunOutcome.Failure.
Proof. intros Ho Hf. by rewrite bool_decide_eq_true_2 in Ho. Qed.
Lemma assessed_run id c w r hash plan done_ w1 w2 : pw_runs w !! id = Some r -> pw_revisions w !! revision_key r = Some (hash, plan) ->
  view w1 = view w -> assess_loaded id c w1 = (Ok done_, w2) -> done_.1 = (r, plan).
Proof.
  intros Hr Hrev (_ & E2 & E3 & _)%view_tables (_ & Hr' & hash' & ? & ? & ? & ? & ? & Hrev' & _)%assess_loaded_Ok.
  destruct done_ as [[r0 p0] a0]. cbn in *. rewrite E3, Hr in Hr'. injection Hr' as <-.
  rewrite E2, Hrev in Hrev'. by injection Hrev' as _ <-.
Qed.
Lemma earned_not_failed w record r hash plan step d : pw_runs w !! sr_run record = Some r ->
  pw_revisions w !! revision_key r = Some (hash, plan) -> earned w record r plan step d ->
  outcome r <> Some PlanRunOutcome.Failure.
Proof.
  intros Hr Hrev He. destruct (er_assessed _ _ _ _ _ _ He) as (done_ & w1 & w2 & V & Ha & Ho).
  pose proof (assessed_run _ _ _ _ _ _ _ _ _ Hr Hrev V Ha) as Hd.
  apply assess_loaded_Ok in Ha as (_ & _ & hash' & ? & a & ? & ? & ? & _ & _ & _ & _ & Ha). rewrite Ha, Hd in Ho.
  by eapply open_not_failed.
Qed.

Lemma complete_sound record w : sound w (complete_plan_step record w).2.
Proof.
  destruct (complete_plan_step record w) as [[r'|e] w'] eqn:E.
  2: by apply failed_transaction_sound in E.
  apply complete_Ok in E as (r & hash & plan & step & d & Hr & Hrev & He & Hm & Hnone & E1 & E2 & E3 & E4 & E5). intros Hw.
  destruct (sw_runs _ Hw _ _ Hr) as (Hid & hash' & plan' & Hrev' & Hf & Hsucc). rewrite Hrev in Hrev'. injection Hrev' as <- <-.
  destruct (revision_key r) as [pid pn] eqn:Hkey. destruct (sw_revisions _ Hw _ _ _ _ Hrev) as (Hwf & _).
  pose proof (moved_follows _ _ _ _ _ Hwf Hf (er_current _ _ _ _ _ _ He) (er_step _ _ _ _ _ _ He) Hm) as Hf'.
  pose proof (er_open _ _ _ _ _ _ He) as Hopen.
  set (w1 := with_runs (alter (fun _ => r') (run_id r') (pw_runs w)) w).
  assert (sound w w1) as S1.
  { apply (sound_update w r r'); [by rewrite (mv_id _ _ _ _ _ Hm), Hid| |].
    - exists hash, plan. unfold revision_key. rewrite (mv_plan _ _ _ _ _ Hm).
      change (pw_revisions w !! revision_key r = Some (hash, plan) /\ run_follows plan (run_state r') /\
        (outcome r' = Some PlanRunOutcome.Success -> is_Some (finished_at r') /\
          length (completed_steps (run_state r')) = length (steps plan))).
      rewrite Hkey. split_and!; [done..|]. intros Ho. pose proof (mv_over _ _ _ _ _ Hm) as Hov.
      destruct (_ =? _) eqn:Hl; [split; [apply Hov|by apply Nat.eqb_eq]|].
      destruct Hov as [_ Hov]. rewrite Hov in Ho. destruct (Hsucc Ho) as [[? ?] _]. congruence.
    - split; [apply Hm|rewrite (mv_completed _ _ _ _ _ Hm); by apply prefix_app_r|
        rewrite (mv_crossed _ _ _ _ _ Hm); by apply prefix_app_r| | |rewrite Hopen; by intros [? ?]].
      + rewrite <- Hkey in Hrev. intros Hfail. by destruct (earned_not_failed _ _ _ _ _ _ _ Hr Hrev He).
      + intros _. right. rewrite (mv_completed _ _ _ _ _ Hm), length_app. cbn. lia. }
  assert (sound w1 w') as S2; [|exact (sound_trans _ _ _ S1 S2 Hw)].
  etrans; [apply (sound_step_run w1 record)|by apply sound_tables; cbn]; cbn; [done| |].
  - exists r'. rewrite (mv_id _ _ _ _ _ Hm), Hid, lookup_alter_eq, Hr. split; [done|].
    rewrite (mv_completed _ _ _ _ _ Hm), elem_of_app, list_elem_of_singleton. right.
    pose proof (er_step _ _ _ _ _ _ He) as Hfs. by apply find_step_Some in Hfs as [_ <-].
  - apply evidence_fresh, (er_fresh _ _ _ _ _ _ He).
Qed.
End completion.

(** * Replanning *)

Section replanning.
Context `{SerdeJson} {X : Type} `{!PlanHost X} `{!PlanHashes} `{!PlanEnv} `{!PlanHashLaws}.
#[local] Abbreviation World := (PlanWorld (X := X)).
Implicit Types (w : World) (r : PlanRun) (s : PlanState) (plan old next : ExecutionPlan).

Lemma keep_steps_Ok old next l w w' : eff_iter (keep_step (X := X) old next) l w = (Ok tt, w') ->
  forall id, id ∈ l -> exists a, find_step next id = Some a /\ find_step old id = Some a.
Proof.
  revert w. induction l as [|x l IH]; intros w; cbn [eff_iter]; [by intros _ id ?%not_elem_of_nil|]. intros E.
  peel E u w1 E1 V. intros id [->|Hid]%elem_of_cons; [|by eapply IH].
  unfold keep_step in E1. case_bool_decide as Hs; [|discriminate E1].
  peel E1 a w2 Ea V2. peel E1 b w3 Eb V3. injection Ea as Ea _. injection Eb as Eb _.
  case_bool_decide as Hab; [subst b|discriminate E1]. pose proof (hash_step_inj _ _ _ Ea Eb) as ->.
  destruct Hs as [? Hs]. destruct (find_step next x) as [s|]; [by exists s|done].
Qed.
Lemma keep_points_Ok old next l w w' : eff_iter (keep_point (X := X) old next) l w = (Ok tt, w') ->
  forall id, id ∈ l -> exists p, find_point next id = Some p /\ find_point old id = Some p.
Proof.
  revert w. induction l as [|x l IH]; intros w; cbn [eff_iter]; [by intros _ id ?%not_elem_of_nil|]. intros E.
  peel E u w1 E1 V. intros id [->|Hid]%elem_of_cons; [|by eapply IH].
  unfold keep_point in E1. case_bool_decide as Hs; [|discriminate E1].
  peel E1 a w2 Ea V2. peel E1 b w3 Eb V3. injection Ea as Ea _. injection Eb as Eb _.
  case_bool_decide as Hab; [subst b|discriminate E1]. pose proof (hash_point_inj _ _ _ Ea Eb) as ->.
  destruct Hs as [? Hs]. destruct (find_point next x) as [s|]; [by exists s|done].
Qed.
Lemma find_point_Some plan id p : find_point plan id = Some p -> p ∈ commitment_points plan /\ point_id p = id.
Proof. unfold find_point. intros [Hs%list_elem_of_In Hn%bool_decide_eq_true]%List.find_some. done. Qed.

Lemma replanned_follows old next s : plan_wf next -> run_follows old s -> plan_id next = st_plan s ->
  (forall id, id ∈ completed_steps s -> exists a, find_step next id = Some a /\ find_step old id = Some a) ->
  (forall id, id ∈ crossed_commitment_points s -> exists p, find_point next id = Some p /\ find_point old id = Some p) ->
  run_follows next (replanned next s).
Proof.
  intros Hwf Hf Hid Hsteps Hpoints. split; cbn; [done|done| |apply Hf| |done| |apply Hf].
  - intros x (a & Ha & _)%Hsteps. apply find_step_Some in Ha as [Ha <-]. by apply list_elem_of_fmap_2.
  - intros e x (a & Ha & <- & He) Hx. apply (rf_ordered _ _ Hf); [|done].
    destruct (Hsteps _ Hx) as (b & Hb & Hb'). rewrite (find_step_wf _ _ Hwf Ha) in Hb. injection Hb as <-.
    apply find_step_Some in Hb' as [Hb' _]. by exists a.
  - intros x (a & Ha & _)%Hpoints. apply find_point_Some in Ha as [Ha <-]. by apply list_elem_of_fmap_2.
Qed.

(** A run is closed. *)
Lemma sound_over w id r s t o : pw_runs w !! id = Some r -> finished_at r = None -> core s = core (run_state r) ->
  crossed_commitment_points s = crossed_commitment_points (run_state r) -> o <> Some PlanRunOutcome.Success ->
  (outcome r = Some PlanRunOutcome.Failure -> o = Some PlanRunOutcome.Failure) ->
  sound w (with_runs (alter (fun _ => set_outcome (Some t) o (set_state s r)) (run_id r) (pw_runs w)) w).
Proof.
  intros Hr Hopen Hcore Hcr Ho Hfail Hw. destruct (sw_runs _ Hw _ _ Hr) as (<- & hash & plan & Hrev & Hf & Hsucc).
  apply (sound_update w r (set_outcome (Some t) o (set_state s r))); [done| | |done].
  - exists hash, plan. split_and!; [done| |done]. apply (run_follows_core _ (run_state r)); [done| |done].
    cbn. rewrite Hcr. by apply rf_crossed.
  - injection Hcore as _ _ Hc _ _. split; cbn; rewrite ?Hc, ?Hcr; try done; [by intros ?%Hfail|].
    rewrite Hopen. by intros [? ?].
Qed.

Lemma replan_run_Ok id reason w r' w' : replan_run id reason w = (Ok r', w') -> exists r old next hash recovery t w1 w2 o,
  pw_runs w !! id = Some r /\ finished_at r = None /\
  pw_revisions w !! revision_key r = Some (hash, old) /\ pw_plans w !! ref_plan (run_plan r) = Some next /\
  (revision old < revision next)%Z /\
  (forall x, x ∈ completed_steps (run_state r) -> exists a, find_step next x = Some a /\ find_step old x = Some a) /\
  (forall x, x ∈ crossed_commitment_points (run_state r) -> exists p, find_point next x = Some p /\ find_point old x = Some p) /\
  view w1 = view w /\ plan_recovery_context id w1 = (Ok recovery, w2) /\
  run_plan r' = mkRevisionRef (ref_plan (run_plan r)) (revision next) /\ finished_at r' = None /\ outcome r' = None /\
  trajectory r' = trajectory r /\
  run_state r' = replanned next (set_recovered (rc_committed_effects recovery) (nested_commitments (rc_state recovery)) (run_state r)) /\
  pw_runs w !! run_id r' = None /\
  o = (if bool_decide (outcome r = Some PlanRunOutcome.Failure) then outcome r else Some PlanRunOutcome.Inconclusive) /\
  pw_runs w' = alter (fun _ => set_outcome (Some t) o (set_state
      (set_recovered (rc_committed_effects recovery) (nested_commitments (rc_state recovery)) (run_state r)) r))
    (run_id r) (<[run_id r' := r']> (pw_runs w)) /\
  pw_plans w' = pw_plans w /\ pw_revisions w' = pw_revisions w /\ pw_step_runs w' = pw_step_runs w.
Proof.
  intros E%plan_transaction_Ok. peel E r w1 Er V1. apply plan_run_Ok in Er.
  destruct (run_terminal r) eqn:Hopen; [discriminate E|]. apply run_terminal_false in Hopen.
  peel E old w2 Eo V2. apply plan_of_Ok in Eo as [hash Hrev]. peel E next w3 En V3. apply execution_plan_Ok in En.
  case_bool_decide as Hnew; [discriminate E|]. peel E u w4 Eu V4. destruct u. peel E u w5 Ev V5. destruct u.
  peel E recovery w6 Erc V6. cbn zeta in E. peel E rid w7 Erid V7. peel E t w8 Et V8.
  apply bind_Ok in E as ([] & w9 & Ei & E).
  unfold insert_run in Ei. apply bind_Ok in Ei as (m & w10 & [Em ->]%fetch_Ok & Ei). apply insert_row_Ok in Em as [Hn ->].
  injection Ei as <-. apply bind_Ok in E as ([] & w11 & [= <-] & E). apply bind_Ok in E as ([] & w12 & [= <-] & E).
  injection E as <- <-. cbn. cbn in Hn. apply view_tables in V8 as (Ep8 & Er8 & Eruns8 & Es8 & _). rewrite Eruns8 in Hn.
  apply view_tables in V1 as (_ & Er1 & _). rewrite Er1 in Hrev. apply view_tables in V2 as (Ep2 & _). rewrite Ep2 in En.
  rewrite Ep8, Er8, Eruns8, Es8. exists r, old, next, hash, recovery, t, w5, w6. eexists.
  split_and!; try done; [lia|by eapply keep_steps_Ok|by eapply keep_points_Ok].
Qed.
Lemma replan_sound id reason w : sound w (replan_run id reason w).2.
Proof.
  destruct (replan_run id reason w) as [[r'|e] w'] eqn:E; [|by apply failed_transaction_sound in E].
  apply replan_run_Ok in E as (r & old & next & hash & recovery & t & w1 & w2 & o & Hr & Hopen & Hrev & Hnext & Hlt & Hsteps &
    Hpoints & _ & _ & Hplan & Hf' & Ho' & _ & Hstate & Hnew & Ho & Eruns & Ep & Erev & Es). intros Hw.
  destruct (sw_runs _ Hw _ _ Hr) as (Hid & hash' & plan' & Hrev' & Hf & Hsucc). rewrite Hrev in Hrev'. injection Hrev' as <- <-.
  set (w3 := with_runs (<[run_id r' := r']> (pw_runs w)) w).
  assert (sound w w3) as S1.
  { apply sound_insert; [done|]. destruct (sw_plans _ Hw _ _ Hnext) as [hash' Hn].
    destruct (sw_revisions _ Hw _ _ _ _ Hn) as (Hwf & Hpid & _). exists hash', next. unfold revision_key.
    rewrite Hplan. cbn. rewrite Hstate, Ho'. split_and!; [done| |done].
    apply (replanned_follows old); [done|apply (run_follows_core _ (run_state r)); [done|apply Hf|done]| |done|done].
    cbn. rewrite (rf_plan _ _ Hf). unfold revision_key in Hrev. by destruct (sw_revisions _ Hw _ _ _ _ Hrev) as (_ & -> & _). }
  assert (sound w3 w') as S2; [|exact (sound_trans _ _ _ S1 S2 Hw)].
  etrans; [apply (sound_over w3 id r (set_recovered (rc_committed_effects recovery)
    (nested_commitments (rc_state recovery)) (run_state r)) t o); try done|by apply sound_tables].
  - cbn. rewrite lookup_insert_ne; [done|congruence].
  - rewrite Ho. case_bool_decide; congruence.
  - rewrite Ho. intros Hfail. by rewrite bool_decide_eq_true_2.
Qed.
End replanning.
