(* ===== verification/PlanRunSafety.v ===== *)
(** Runs of plans over every sequence of calls: the books stay right, a step is only
    completed when it was earned, and a run that is not over has a next step until
    every step is completed. *)
From S2P Require Import Prelude Worklist StateError Semver Scope Hierarchy EconomicsModel EffectModel CapabilityModel PlanModel PlanValidity PlanWellFormed PlanPredicates PlanDecision PlanAdmission PlanStore PlanRun PlanRecovery PlanRunFacts PlanRunSound PlanRunSteps.

(** * What shows that a step was executed *)

Section evidence.
Context `{SerdeJson} {X : Type} `{!PlanHost X} `{!PlanHashes} `{!PlanEnv}.
#[local] Abbreviation World := (PlanWorld (X := X)).
Implicit Types (w : World) (r : PlanRun) (s : PlanState) (plan : ExecutionPlan) (x : X).

(** The component a step runs is the one the plan pinned. *)
Definition pin_kept x plan (step : PlanStep) (subject : ContractSubject) (pinned : ComponentRevision) : Prop :=
  host_pin_component x subject = Ok pinned /\
  exists rev h, component_revisions plan !! step_id step = Some (PinExecutable rev) /\
    hash_component rev = Ok h /\ hash_component pinned = Ok h.
(** A successful attestation of the tool, made between the decision and the
    completion, that completed no other step. *)
Definition attested w (tool : string) (input : option Value) (record : PlanStepRun) (d : StepDecision) : Prop :=
  exists id a, sr_attestation record = Some id /\ host_attestation (pw_system w) id = Ok a /\
  at_tool a = tool /\ at_success a = true /\ host_manifest_hash (pw_system w) tool = Ok (tool_manifest_hash a) /\
  (dec_created_at d <= at_started_at a)%Z /\ (at_completed_at a <= completed_at record)%Z /\
  (forall value, input = Some value -> exists h, hash_value value = Ok h /\ h ∈ input_hashes a) /\
  (forall k row, pw_step_runs w !! k = Some row -> sr_attestation row <> Some id).
(** By the kind of the step. Nothing is asked of the time of a commit receipt, nor that
    it completes one step only. *)
Definition executed w plan (step : PlanStep) s (record : PlanStepRun) (d : StepDecision) : Prop :=
  match step_kind step with
  | StepTool id => (exists pinned, pin_kept (pw_system w) plan step (SubjectTool id) pinned) /\ attested w id None record d
  | StepSkill id => exists pinned tool value, pin_kept (pw_system w) plan step (SubjectSkill id) pinned /\
      host_skill_input (pw_system w) id (cr_revision pinned) = Ok (tool, value) /\ attested w tool (Some value) record d
  | StepObserve spec => exists n, assess_predicate (ob_condition spec) (ob_freshness spec) s (plan_clock n)
      (critical_max_age (freshness_policy plan)) = AssumptionValidity.Supported
  | StepEffect id => exists members, host_effect_plan (pw_system w) id = Ok members /\
      forall e, e ∈ members -> exists receipt, host_receipt_for_effect (pw_system w) e = Ok (Some receipt) /\
        receipt ∈ sr_receipts record
  | StepApproval _ => True
  | StepComposition id => exists rows e pid rev hash, host_composition_evidence (pw_system w) id = Ok rows /\ e ∈ rows /\
      composition_evidence record = Some (ne_id e) /\
      component_revisions plan !! step_id step = Some (PinComposition pid rev hash) /\
      ne_revision e = rev /\ ne_pass e = true /\ ne_controlled e = true /\
      (dec_created_at d <= ne_created_at e <= completed_at record)%Z
  | StepExperiment _ request => exists id e value h candidates, sr_experiment record = Some id /\ request = Some value /\
      host_experiment (pw_system w) id = Ok e /\ ex_completed e = true /\ ex_result e = Some (true, candidates) /\
      hash_value (ex_request e) = Ok h /\ hash_value value = Ok h /\
      forall c, c ∈ candidates -> exists xp, host_experience (pw_system w) c = Ok xp /\ action_starts xp <> [] /\
        (forall t, t ∈ action_starts xp -> (dec_created_at d <= t)%Z) /\ (xp_created_at xp <= completed_at record)%Z
  | StepCustom _ => False
  end.

Lemma plan_step_tool_Ok plan step w tool input w' : plan_step_tool plan step w = (Ok (tool, input), w') ->
  match step_kind step with
  | StepTool id => tool = id /\ input = None /\ exists pinned, pin_kept (pw_system w) plan step (SubjectTool id) pinned
  | StepSkill id => exists pinned value, pin_kept (pw_system w) plan step (SubjectSkill id) pinned /\
      input = Some value /\ host_skill_input (pw_system w) id (cr_revision pinned) = Ok (tool, value)
  | _ => False
  end.
Proof.
  intros E. unfold plan_step_tool in E.
  assert (forall subject pinned w1, system (fun x => host_pin_component x subject) w = (Ok pinned, w1) -> forall same w2,
    (match component_revisions plan !! step_id step with
     | Some (PinExecutable rev) =>
         a ← lift (hash_component rev); b ← lift (hash_component pinned); mret (bool_decide (a = b))
     | _ => mret false
     end : eff World bool) w1 = (Ok same, w2) -> negb same = false -> pin_kept (pw_system w) plan step subject pinned) as Hpin.
  { intros subject pinned w1 Ep%system_Ok same w2 Es Hs. split; [done|].
    destruct (component_revisions plan !! step_id step) as [[rev|]|]; [|by injection Es as <- _..].
    apply bind_Ok in Es as (a & w3 & [= Ea <-] & Es). apply bind_Ok in Es as (b & w4 & [= Eb <-] & Es).
    injection Es as <- _. exists rev, a. split_and!; [done..|]. case_bool_decide; [by subst b|done]. }
  destruct (step_kind step) as [sid|cid|tid|eid|spec|tpl request|req|kind] eqn:Hk; try discriminate E; cbn zeta in E.
  - apply bind_Ok in E as (pinned & w1 & Ep & E). apply bind_Ok in E as (same & w2 & Es & E). pass E Hs.
    peel E input' w3 Ei V. injection E as <- <- _. exists pinned, input'.2.
    split_and!; [by apply (Hpin _ _ _ Ep _ _ Es)|done|]. apply system_Ok in Ei.
    assert (view w2 = view w1) as V2 by (refine (calm_view _ _ _ _ _ Es); calm_parts).
    apply fetch_Ok in Ep as [_ ->]. rewrite (view_system _ _ V2) in Ei. by destruct input'.
  - apply bind_Ok in E as (pinned & w1 & Ep & E). apply bind_Ok in E as (same & w2 & Es & E). pass E Hs.
    injection E as <- <- _. split_and!; [done..|]. exists pinned. by apply (Hpin _ _ _ Ep _ _ Es).
Qed.

Lemma attestation_Ok plan step record d w w' : attestation_evidence plan step record d w = (Ok tt, w') ->
  exists tool input w1, plan_step_tool plan step w = (Ok (tool, input), w1) /\ attested w tool input record d.
Proof.
  unfold attestation_evidence. intros E. pose proof (calm_plan_step_tool plan step) as Hcalm.
  peel E called w1 Ec V. destruct called as [tool input]. exists tool, input, w1. split; [done|].
  peel E aid w2 Eid V2. peel E a w3 Ea V3. peel E bound w4 Eb V4. pass E Hb. peel E used w5 Eu V5. injection Eu as Hu Hw5.
  destruct used; [discriminate E|]. peel E manifest w6 Em V6. peel E t w7 Et V7.
  cbn [fst snd] in *. destruct (_ || _) eqn:Hg in E; [discriminate E|].
  rewrite !orb_false_iff, !negb_false_iff, !bool_decide_eq_true, !bool_decide_eq_false, !Z.nlt_ge in Hg.
  destruct Hg as [[[[[Hman Hsucc] Htool] Hstart] Hend] _].
  injection Eid as Eid _. apply system_Ok in Ea, Em. rewrite (view_system _ _ V2) in Ea. rewrite (view_system _ _ V5), <- Hman in Em.
  exists aid, a. split_and!; try done.
  - by destruct (sr_attestation record); inversion Eid.
  - intros value ->. apply bind_Ok in Eb as (h & w8 & [= Hh <-] & Eb). injection Eb as <- _.
    exists h. by apply negb_false_iff, bool_decide_eq_true in Hb.
  - intros k row Hk Hsame. apply bool_decide_eq_false in Hu. apply Hu, map_Exists_lookup. exists k, row.
    by apply view_tables in V4 as (_ & _ & _ & -> & _).
Qed.
Lemma receipts_Ok record l w w' : eff_iter (receipt_evidence record) l w = (Ok tt, w') -> forall e, e ∈ l ->
  exists receipt, host_receipt_for_effect (pw_system w) e = Ok (Some receipt) /\ receipt ∈ sr_receipts record.
Proof.
  revert w. induction l as [|x l IH]; intros w; cbn [eff_iter]; [by intros _ e ?%not_elem_of_nil|]. intros E.
  pose proof (calm_receipt_evidence record x) as Hcalm. peel E u w1 E1 V.
  unfold receipt_evidence in E1. peel E1 receipt w2 Er V2. apply system_Ok in Er.
  destruct receipt as [receipt|]; [|discriminate E1]. case_bool_decide as Hin; [|discriminate E1].
  intros e [->|He]%elem_of_cons; [by exists receipt|]. rewrite <- (view_system _ _ V). by apply (IH w1).
Qed.
Lemma experiences_Ok record d l w w' : eff_iter (experience_evidence record d) l w = (Ok tt, w') -> forall c, c ∈ l ->
  exists xp, host_experience (pw_system w) c = Ok xp /\ action_starts xp <> [] /\
    (forall t, t ∈ action_starts xp -> (dec_created_at d <= t)%Z) /\ (xp_created_at xp <= completed_at record)%Z.
Proof.
  revert w. induction l as [|x l IH]; intros w; cbn [eff_iter]; [by intros _ e ?%not_elem_of_nil|]. intros E.
  pose proof (calm_experience_evidence record d x) as Hcalm. peel E u w1 E1 V.
  unfold experience_evidence in E1. peel E1 xp w2 Ex V2. apply system_Ok in Ex.
  destruct (_ || _) eqn:Hg in E1; [discriminate E1|]. rewrite !orb_false_iff, !bool_decide_eq_false, Z.nlt_ge in Hg.
  destruct Hg as [[Hne Hs] Hc]. intros e [->|He]%elem_of_cons; [|rewrite <- (view_system _ _ V); by apply (IH w1)].
  exists xp. split_and!; [done..| |done]. intros t Ht. apply Z.nlt_ge. intros Hlt.
  assert (existsb (fun t => bool_decide (t < dec_created_at d)%Z) (action_starts xp) = true) as Hex; [|congruence].
  apply existsb_exists. exists t. split; [by apply list_elem_of_In|by apply bool_decide_eq_true].
Qed.

Lemma step_evidence_Ok plan step s record d w w' : step_evidence plan step s record d w = (Ok tt, w') ->
  executed w plan step s record d.
Proof.
  unfold step_evidence, executed. destruct (step_kind step) as [sid|cid|tid|eid|spec|tpl request|ap|kind] eqn:Hk; intros E.
  - apply attestation_Ok in E as (tool & input & w1 & Et & Ha). apply plan_step_tool_Ok in Et. rewrite Hk in Et.
    destruct Et as (pinned & value & Hp & -> & Hi). by exists pinned, tool, value.
  - unfold composition_evidence_of in E. peel E eid w1 Ee V. peel E rows w2 Er V2. peel E e w3 Ef V3. peel E rv w4 Ep V4.
    destruct (_ || _) eqn:Hg in E; [discriminate E|].
    rewrite !orb_false_iff, !negb_false_iff, !bool_decide_eq_true, !bool_decide_eq_false, !Z.nlt_ge in Hg.
    destruct Hg as [[[[Hrev Hpass] Hc1] Hc2] Hctl]. injection Ee as Ee _. injection Ef as Ef _. apply system_Ok in Er.
    destruct (List.find _ rows) as [e'|] eqn:Hf; [|done]. injection Ef as <-.
    apply List.find_some in Hf as [Hin%list_elem_of_In Hid%bool_decide_eq_true].
    destruct (component_revisions plan !! step_id step) as [[?|pid rv' hash]|] eqn:Hpin; try discriminate Ep.
    injection Ep as -> _. exists rows, e', pid, rv, hash. rewrite (view_system _ _ V) in Er. split_and!; try done.
    rewrite Hid. by destruct (composition_evidence record); inversion Ee.
  - apply attestation_Ok in E as (tool & input & w1 & Et & Ha). apply plan_step_tool_Ok in Et. rewrite Hk in Et.
    destruct Et as (-> & -> & Hp). done.
  - peel E members w1 Em V. apply system_Ok in Em. exists members. split; [done|].
    rewrite <- (view_system _ _ V). by eapply receipts_Ok.
  - peel E t w1 Et V. injection Et as <- _. case_bool_decide as Hs; [|discriminate E]. by eexists.
  - unfold experiment_evidence in E. peel E xid w1 Eid V. peel E e w2 Ee V2. peel E req w3 Ev V3. peel E h1 w4 Eh1 V4.
    peel E h2 w5 Eh2 V5. destruct (ex_result e) as [[[] candidates]|] eqn:Hres; [|discriminate E..].
    destruct (_ || _) eqn:Hg in E; [discriminate E|]. rewrite !orb_false_iff, !negb_false_iff, bool_decide_eq_true in Hg.
    destruct Hg as [<- Hcomp]. injection Eid as Eid _. injection Ev as Ev _. injection Eh1 as Eh1 _. injection Eh2 as Eh2 _.
    apply system_Ok in Ee. rewrite (view_system _ _ V) in Ee. exists xid, e, req, h1, candidates. split_and!; try done.
    + by destruct (sr_experiment record); inversion Eid.
    + by destruct request; inversion Ev.
    + rewrite <- (view_system _ _ V5). by eapply experiences_Ok.
  - done.
  - discriminate E.
Qed.
End evidence.

(** * Every sequence of calls *)

Section runs.
Context `{SerdeJson} {X : Type} `{!PlanHost X} `{!PlanHashes} `{!PlanEnv}.
#[local] Abbreviation World := (PlanWorld (X := X)).
Implicit Types (w : World) (r : PlanRun) (s : PlanState) (plan : ExecutionPlan) (x : X).

Inductive PlanCall :=
  | CallSave (plan : ExecutionPlan) (reason : PlanRevisionReason.t)
  | CallStart (plan : string)
  | CallObserve (run : string) (o : PlanObservation)
  | CallAssess (run : string) (context : RuntimeDecisionContext) (persist : bool)
  | CallComplete (record : PlanStepRun)
  | CallReplan (run : string) (reason : PlanRevisionReason.t)
  | CallReconcile (run reason : string)
  | CallCapture (run checkpoint : string) (context : RuntimeDecisionContext)
  | CallResume (run snapshot : string) (context : RuntimeDecisionContext)
  | CallBind (run authorization : string).
Definition perform (c : PlanCall) (w : World) : World :=
  match c with
  | CallSave plan reason => (save_execution_plan plan reason w).2
  | CallStart plan => (start_plan_run plan w).2
  | CallObserve run o => (record_plan_observation run o w).2
  | CallAssess run context persist => (assess_plan_run run context persist w).2
  | CallComplete record => (complete_plan_step record w).2
  | CallReplan run reason => (replan_run run reason w).2
  | CallReconcile run reason => (reconcile_plan_failure run reason w).2
  | CallCapture run checkpoint context => (capture_plan_checkpoint run checkpoint context w).2
  | CallResume run snapshot context => (resume_plan_checkpoint run snapshot context w).2
  | CallBind run authorization => (bind_plan_authorization run authorization w).2
  end.
(** A call on the store of plans, or any change of the rest of the system. *)
Inductive plan_move w : World -> Prop :=
  | move_call c : plan_move w (perform c w)
  | move_system x ticks : plan_move w (with_system x (with_plan_ticks ticks w)).
Definition empty_plans (x : X) : World := mkPlanWorld ∅ ∅ ∅ ∅ ∅ ∅ ∅ [] x 0.
Definition reachable_plans w : Prop := exists x, rtc plan_move (empty_plans x) w.

Lemma empty_plans_wf x : store_wf (empty_plans x).
Proof. split; cbn; setoid_rewrite lookup_empty; done. Qed.
Section laws.
Context `{!PlanHashLaws}.
Lemma perform_sound c w : sound w (perform c w).
Proof.
  destruct c; cbn; [apply save_sound|apply start_sound|apply observe_sound|apply assess_sound|apply complete_sound|
    apply replan_sound|apply reconcile_sound|apply capture_sound|apply resume_sound|apply bind_sound].
Qed.
Lemma moves_sound w w' : rtc plan_move w w' -> sound w w'.
Proof.
  induction 1 as [w|w w1 w2 Hm _ IH]; [done|]. etrans; [|exact IH].
  destruct Hm as [c|x t]; [apply perform_sound|by apply sound_tables].
Qed.
Lemma reachable_wf w : reachable_plans w -> store_wf w.
Proof. intros [x Hr]. by apply (moves_sound _ _ Hr), empty_plans_wf. Qed.

(** C7. Whatever calls are made, in whatever order, the books of plans stay right (when
    the hashes of different steps differ):
    every stored revision is a well-formed plan and hashes to what was recorded with
    it; every run follows a stored revision (steps completed once, after all they
    need, the current step the first that is ready, one mutation per step at most);
    every completion recorded belongs to a run that completed it; and no two
    completions rest on the same decision, composition execution or experiment. From
    then on revisions and completions are never rewritten, runs only complete and
    cross more, a failed run completes nothing more, and a run that is over is not
    touched. *)
Theorem plan_books w : reachable_plans w ->
  store_wf w /\ forall w', rtc plan_move w w' -> advances w w'.
Proof. intros Hw%reachable_wf. split; [done|]. intros w' Hm. by apply (moves_sound _ _ Hm). Qed.

(** * Progress *)

Lemma next_ready_None plan completed : next_ready plan completed = None -> forall a, a ∈ steps plan ->
  step_id a ∈ completed \/ exists d, d ∈ step_dependencies a /\ d ∉ completed.
Proof.
  unfold next_ready. destruct (List.find _ _) as [b|] eqn:Hf; [done|]. intros _ a Ha.
  pose proof (List.find_none _ _ Hf a (proj1 (list_elem_of_In _ _) Ha)) as Hn. cbn in Hn.
  destruct (decide (step_id a ∈ completed)) as [|Hni]; [by left|right]. rewrite bool_decide_eq_false_2 in Hn by done.
  cbn in Hn. unfold dependencies_completed in Hn. apply not_true_iff_false in Hn. rewrite forallb_forall in Hn.
  destruct (decide (Exists (fun d => d ∉ completed) (step_dependencies a))) as [(d & Hd & Hn')%list.Exists_exists|Hnone].
  { by exists d. }
  exfalso. apply Hn. intros d Hd%list_elem_of_In. apply bool_decide_eq_true.
  destruct (decide (d ∈ completed)); [done|]. destruct Hnone. apply list.Exists_exists. by exists d.
Qed.
Lemma next_ready_all plan completed : plan_wf plan -> next_ready plan completed = None ->
  step_id <$> steps plan ⊆ completed.
Proof.
  intros Hwf Hn x Hx. destruct (decide (x ∈ completed)) as [|Hni]; [done|exfalso].
  set (left_ := list_to_set (filter (fun y => y ∉ completed) (step_id <$> steps plan)) : gset string).
  assert (forall y, y ∈ left_ <-> y ∉ completed /\ y ∈ step_id <$> steps plan) as Hl
    by (intros y; unfold left_; by rewrite elem_of_list_to_set, list_elem_of_filter).
  destruct (blocked_set_cycle (tc (needs plan)) left_) as [y Hy].
  - intros He. assert (x ∈ left_) as Hx' by (by apply Hl). rewrite He in Hx'. by apply not_elem_of_empty in Hx'.
  - intros y [Hy (a & -> & Ha)%list_elem_of_fmap]%Hl. destruct (next_ready_None _ _ Hn a Ha) as [|(d & Hd & Hdn)]; [done|].
    exists d. split; [apply Hl; split; [done|]; by apply (wf_steps _ Hwf a Ha)|]. apply tc_once. by exists a.
  - by apply (wf_acyclic _ Hwf y).
Qed.
Lemma run_known w id r : store_wf w -> pw_runs w !! id = Some r -> exists hash plan,
  pw_revisions w !! revision_key r = Some (hash, plan) /\ plan_wf plan /\ run_follows plan (run_state r).
Proof.
  intros Hw Hr. destruct (sw_runs _ Hw _ _ Hr) as (_ & hash & plan & Hrev & Hf & _). exists hash, plan.
  unfold revision_key in *. by destruct (sw_revisions _ Hw _ _ _ _ Hrev) as (? & _).
Qed.

(** C28. A run never gets stuck for want of a step: it has a current step until all
    steps of its plan are completed, and the current step is a step of the plan that
    is not completed while all it depends on is. *)
Theorem run_has_next_step w id r hash plan : reachable_plans w -> pw_runs w !! id = Some r ->
  pw_revisions w !! revision_key r = Some (hash, plan) ->
  (current_step (run_state r) = None <-> completed_steps (run_state r) ≡ₚ step_id <$> steps plan) /\
  forall n, current_step (run_state r) = Some n -> exists a, a ∈ steps plan /\ step_id a = n /\
    n ∉ completed_steps (run_state r) /\ step_dependencies a ⊆ completed_steps (run_state r).
Proof.
  intros Hw%reachable_wf Hr Hrev. destruct (run_known _ _ _ Hw Hr) as (hash' & plan' & Hrev' & Hwf & Hf).
  rewrite Hrev in Hrev'. injection Hrev' as <- <-. rewrite (rf_current _ _ Hf). split; [|intros n; apply next_ready_spec].
  split.
  - intros Hn%next_ready_all; [|done]. apply NoDup_Permutation; [apply Hf|by apply wf_step_ids|].
    intros x. split; [apply Hf|apply Hn].
  - intros Hp. destruct (next_ready _ _) as [n|] eqn:Hn; [|done].
    apply next_ready_spec in Hn as (a & Ha & <- & Hni & _). destruct Hni. rewrite Hp. by apply list_elem_of_fmap_2.
Qed.

(** * Completing *)

Lemma assessed_admissible w id c r hash plan step done_ w1 w2 : pw_runs w !! id = Some r ->
  pw_revisions w !! revision_key r = Some (hash, plan) -> find_step plan (step_id step) = Some step ->
  current_step (run_state r) = Some (step_id step) -> view w1 = view w ->
  assess_loaded id c w1 = (Ok done_, w2) -> open_status done_.2 = true ->
  exists inputs w3 w4, view w3 = view w /\ plan_evaluation_inputs plan (run_state r) w3 = (Ok inputs, w4) /\
    admissible inputs plan (run_state r) (default 0%Z (in_now inputs)) c step.
Proof.
  intros Hr Hrev Hfind Hcur V Ha Ho. pose proof (assessed_run _ _ _ _ _ _ _ _ _ Hr Hrev V Ha) as Hd.
  apply assess_loaded_Ok in Ha as (_ & _ & hash' & inputs & a & aid & w3 & w4 & _ & V3 & Hi & He & Hlast).
  rewrite Hd in Hi, He, Hlast. cbn in Hi, He, Hlast. rewrite Hlast in Ho.
  rewrite (bool_decide_eq_false_2 _ (open_not_failed _ _ Ho)) in Ho.
  exists inputs, w3, w4. split; [by rewrite V3|]. split; [done|].
  destruct (continue_exact hash_state inputs aid 0 plan (run_state r) c a (step_id step) He) as (_ & b & Hb & Hid & _ & Hv & Hvw).
  { unfold next_of. by rewrite Hcur. }
  assert (b = step) as ->.
  { pose proof (proj1 (proj1 (evaluated_reported _ _ _ _ _ _ _ _ He))) as Hwf.
    rewrite <- Hid, (find_step_wf _ _ Hwf Hb) in Hfind. by injection Hfind. }
  unfold open_status in Ho. apply orb_true_iff in Ho as [Ho%bool_decide_eq_true|Ho%bool_decide_eq_true];
    [by apply Hv in Ho as []|by apply Hvw in Ho as []].
Qed.

(** C6. A step is only completed when it was earned. The run was open and not failed
    and the step was its current one; a recorded decision to act named this run and
    step, completes no other step, and its team authority still holds; judged by the
    inputs the system gives now, the step is admissible. What shows that it was
    executed depends on its kind. A Tool or a Skill has a successful attestation, from
    after the decision and before the completion, that completed no other step. A
    composition has controlled, passing evidence and an experiment a controlled result
    on this request, both from after the decision and neither used for another
    completion. An observation is supported by the observations of the run, at a
    reading of the clock. An effect has the commit receipt of every member of its plan
    in the record: these receipts may be older than the decision and may already have
    completed another step. An approval needs no more than its admissibility, and a
    custom step is never completed. The consequences of every commitment point that
    the step crosses have their receipts in the record. The run then has this step
    added, its commitment points crossed, at most one mutation more and the next ready
    step, and it is over exactly when all its steps are completed; the record is
    stored, and nothing else changes. *)
Theorem complete_step_earned record w r' w' : reachable_plans w -> complete_plan_step record w = (Ok r', w') ->
  exists r hash plan step d, pw_runs w !! sr_run record = Some r /\ finished_at r = None /\
  outcome r <> Some PlanRunOutcome.Failure /\
  pw_revisions w !! revision_key r = Some (hash, plan) /\ step ∈ steps plan /\ step_id step = sr_step record /\
  current_step (run_state r) = Some (sr_step record) /\
  (host_decision (pw_system w) (decision record) = Ok d /\ is_act d = true /\
    exists c, dec_plan d = Some c /\ pc_run c = sr_run record /\ pc_next_step c = sr_step record) /\
  host_team_unchanged (pw_system w) d = Ok true /\
  (exists inputs w1 w2, view w1 = view w /\ plan_evaluation_inputs plan (run_state r) w1 = (Ok inputs, w2) /\
    admissible inputs plan (run_state r) (default 0%Z (in_now inputs)) (dec_context d) step) /\
  executed w plan step (run_state r) record d /\
  (forall k row, pw_step_runs w !! k = Some row -> ~ shares row record) /\
  (forall p, p ∈ points_after plan step -> receipted w record p) /\
  moved plan record step r r' /\
  pw_runs w' = <[sr_run record := r']> (pw_runs w) /\
  pw_step_runs w' = <[(sr_run record, sr_step record) := record]> (pw_step_runs w) /\
  pw_plans w' = pw_plans w /\ pw_revisions w' = pw_revisions w /\ pw_system w' = pw_system w.
Proof.
  intros Hw%reachable_wf (r & hash & plan & step & d & Hr & Hrev & He & Hm & Hnone & E1 & E2 & E3 & E4 & E5)%complete_Ok.
  exists r, hash, plan, step, d. pose proof (er_step _ _ _ _ _ _ He) as Hfind. pose proof (find_step_Some _ _ _ Hfind) as [Hs Hid].
  destruct (er_evidence _ _ _ _ _ _ He) as (w1 & w2 & V & Hev). destruct (er_assessed _ _ _ _ _ _ He) as (dn & w3 & w4 & V3 & Ha & Ho).
  split_and!; try done; try apply He.
  - by eapply earned_not_failed.
  - rewrite <- Hid in Hfind. apply (assessed_admissible w (sr_run record) (dec_context d) r hash plan step dn w3 w4); try done.
    rewrite Hid. apply He.
  - apply step_evidence_Ok in Hev. unfold executed, attested in *. apply view_tables in V as (_ & _ & _ & <- & <-). exact Hev.
  - by apply evidence_fresh, (er_fresh _ _ _ _ _ _ He).
  - rewrite E2, (mv_id _ _ _ _ _ Hm), (proj1 (sw_runs _ Hw _ _ Hr)). apply map_eq. intros i.
    destruct (decide (i = sr_run record)) as [->|Hne]; [by rewrite lookup_alter_eq, lookup_insert_eq, Hr|].
    by rewrite lookup_alter_ne, lookup_insert_ne.
Qed.

(** * A run replanned onto completed work *)

(** A run that completed all steps of its revision has no current step, however it
    moves on. *)
Lemma completed_run w w' id r hash plan : store_wf w -> sound w w' -> pw_runs w !! id = Some r ->
  pw_revisions w !! revision_key r = Some (hash, plan) -> step_id <$> steps plan ⊆ completed_steps (run_state r) ->
  exists r', pw_runs w' !! id = Some r' /\ run_advances r r' /\ current_step (run_state r') = None /\
    length (completed_steps (run_state r')) = length (steps plan).
Proof.
  intros Hw Hs Hr Hrev Hall. destruct (Hs Hw) as [Hw' Ha]. destruct (av_runs _ _ Ha _ _ Hr) as (r' & Hr' & Hra).
  exists r'. split; [done|]. split; [done|]. destruct (run_known _ _ _ Hw' Hr') as (hash' & plan' & Hrev' & Hwf & Hf).
  pose proof (lookup_weaken _ _ _ _ Hrev (av_revisions _ _ Ha)) as Hrev2.
  assert (revision_key r' = revision_key r) as Hkey by (unfold revision_key; by rewrite (ra_plan _ _ Hra)).
  rewrite Hkey, Hrev2 in Hrev'. injection Hrev' as <- <-.
  assert (step_id <$> steps plan ⊆ completed_steps (run_state r')) as Hall'.
  { destruct (ra_completed _ _ Hra) as [l ->]. intros x Hx. rewrite elem_of_app. left. by apply Hall. }
  split.
  - rewrite (rf_current _ _ Hf). destruct (next_ready _ _) as [n|] eqn:Hn; [|done].
    apply next_ready_spec in Hn as (a & Hin & <- & Hni & _). destruct Hni. by apply Hall', list_elem_of_fmap_2.
  - rewrite <- (length_fmap step_id (steps plan)). apply Permutation_length, NoDup_Permutation;
      [apply Hf|by apply wf_step_ids|]. intros x. split; [apply Hf|apply Hall'].
Qed.

(** C30. Replanning onto a revision all of whose steps the run has completed leaves a run
    that is open and has no current step, and that no later call can bring to
    success: every attempt to complete a step of it is refused. *)
Theorem replan_strands id reason w r' w' next : reachable_plans w -> replan_run id reason w = (Ok r', w') ->
  pw_plans w !! ref_plan (run_plan r') = Some next -> step_id <$> steps next ⊆ completed_steps (run_state r') ->
  finished_at r' = None /\ outcome r' = None /\ current_step (run_state r') = None /\
  forall w'', rtc plan_move w' w'' ->
    (forall record, sr_run record = run_id r' -> exists e, (complete_plan_step record w'').1 = Err e) /\
    (forall r'', pw_runs w'' !! run_id r' = Some r'' -> outcome r'' <> Some PlanRunOutcome.Success).
Proof.
  intros Hw%reachable_wf E Hnext Hall. pose proof (replan_sound id reason w) as Hs. rewrite E in Hs. cbn in Hs.
  destruct (Hs Hw) as [Hw' _].
  apply replan_run_Ok in E as (r & old & next' & hash & recovery & t & w1 & w2 & o & Hr & Hopen & Hrev & Hn & Hlt & Hsteps &
    Hpoints & _ & _ & Hplan & Hf' & Ho' & _ & Hstate & Hnew & Ho & Eruns & Ep & Erev & Es).
  assert (pw_runs w' !! run_id r' = Some r') as Hr'.
  { rewrite Eruns, lookup_alter_ne; [apply lookup_insert_eq|]. intros He. rewrite <- He in Hnew.
    rewrite (proj1 (sw_runs _ Hw _ _ Hr)) in Hnew. congruence. }
  rewrite Hplan in Hnext. cbn in Hnext. rewrite Hn in Hnext. injection Hnext as ->.
  destruct (sw_plans _ Hw _ _ Hn) as [hash' Hrev']. rewrite <- Erev in Hrev'.
  assert (pw_revisions w' !! revision_key r' = Some (hash', next)) as Hkey
    by (unfold revision_key; by rewrite Hplan).
  assert (forall w'', sound w' w'' -> exists r'', pw_runs w'' !! run_id r' = Some r'' /\ run_advances r' r'' /\
    current_step (run_state r'') = None /\ length (completed_steps (run_state r'')) = length (steps next)) as Hlater
    by (intros w'' Hs'; by apply (completed_run w' w'' (run_id r') r' hash' next)).
  destruct (Hlater w' (reflexivity _)) as (r1 & Hr1 & _ & Hcur & Hlen). rewrite Hr' in Hr1. injection Hr1 as <-.
  split_and!; [done..|]. intros w'' Hm%moves_sound. destruct (Hlater w'' Hm) as (r2 & Hr2 & Hadv & Hcur2 & Hlen2). split.
  - intros record Hrun. destruct (complete_plan_step record w'') as [[r3|e] w3] eqn:Hc; [|by exists e].
    apply complete_Ok in Hc as (r4 & ? & ? & ? & ? & Hr4 & _ & He & _). rewrite Hrun, Hr2 in Hr4. injection Hr4 as <-.
    rewrite (er_current _ _ _ _ _ _ He) in Hcur2. discriminate Hcur2.
  - intros r3. rewrite Hr2. intros [= <-] Hsuc. destruct (ra_success _ _ Hadv Hsuc); [congruence|lia].
Qed.
End laws.
End runs.
