(* ===== verification/PlanRunOutcome.v ===== *)
(** What observing a run, recovering and replanning achieve: which claims an
    observation displaces, which effects count as committed, and what a replanned
    run keeps. *)
From S2P Require Import Prelude Worklist StateError Semver Scope Hierarchy EconomicsModel EffectModel CapabilityModel PlanModel PlanValidity PlanWellFormed PlanPredicates PlanDecision PlanAdmission PlanStore PlanRun PlanRecovery PlanRunFacts PlanRunSound PlanRunSteps PlanRunSafety.

(** * Observations *)

Section observing.
Context `{SerdeJson} {X : Type} `{!PlanHost X} `{!PlanHashes} `{!PlanEnv}.
#[local] Abbreviation World := (PlanWorld (X := X)).
Implicit Types (w : World) (r : PlanRun) (s : PlanState) (plan : ExecutionPlan) (c new : StateClaim).

Definition trust_rank c : Z := ContextValueSource.discriminant (trust_of c).
Definition at_time c : Z := observed_at (claim_freshness c).
Lemma trust_le_spec a b : trust_le a b = true <-> (ContextValueSource.discriminant a <= ContextValueSource.discriminant b)%Z.
Proof. unfold trust_le. rewrite bool_decide_eq_true. done. Qed.

(** [new] displaces [c]: more trusted, or as trusted and not older. *)
Definition displaces new c : Prop := claim_key new = claim_key c /\
  ((trust_rank c < trust_rank new)%Z \/ (trust_rank c = trust_rank new /\ (at_time c <= at_time new)%Z)).
(** Nothing as trusted about the same is newer. *)
Definition record_claim_spec o s new s' : Prop :=
  (trust_rank new <= ContextValueSource.discriminant (StateClaimSource.trust (po_source o)))%Z /\
  (at_time new <= captured_at o)%Z /\
  (forall c, c ∈ observations s -> claim_key c = claim_key new -> (trust_rank new <= trust_rank c)%Z -> (at_time c <= at_time new)%Z) /\
  new ∈ observations s' /\
  (forall c, c ∈ observations s -> c ∈ observations s' \/ displaces new c) /\
  (forall c, c ∈ observations s' -> c = new \/ c ∈ observations s).

Lemma record_claim_Ok o s new s' : record_claim o s new = Ok s' -> record_claim_spec o s new s'.
Proof.
  unfold record_claim. destruct (_ || _) eqn:Hg; [done|].
  apply orb_false_iff in Hg as [Ht%negb_false_iff%trust_le_spec Hcap%bool_decide_eq_false%Z.nlt_ge].
  destruct (existsb _ _) eqn:Hex; [done|]. intros E.
  assert (observations s' = List.filter (fun old => negb (bool_decide (claim_key old = claim_key new)) ||
      negb (trust_le (trust_of old) (trust_of new))) (observations s) ++ [new]) as Hobs
    by (destruct (_ && _); by injection E as <-).
  assert (forall c, c ∈ observations s -> claim_key c = claim_key new -> (trust_rank new <= trust_rank c)%Z ->
    (at_time c <= at_time new)%Z) as Hnewer.
  { intros c Hc Hk Htr. apply Z.nlt_ge. intros Hlt. apply not_true_iff_false in Hex. apply Hex, existsb_exists.
    exists c. split; [by apply list_elem_of_In|]. rewrite (bool_decide_eq_true_2 _ Hk), (proj2 (trust_le_spec _ _) Htr).
    by apply bool_decide_eq_true. }
  unfold record_claim_spec. rewrite Hobs. split_and!; [done..|apply elem_of_app; right; by apply list_elem_of_singleton| |].
  - intros c Hc. destruct (decide (claim_key c = claim_key new)) as [Hk|Hk].
    + destruct (decide (trust_rank c <= trust_rank new)%Z) as [Hle|Hgt].
      * right. split; [done|]. destruct (decide (trust_rank c = trust_rank new)) as [He|]; [right|left; lia].
        split; [done|]. apply Hnewer; [done..|lia].
      * left. apply elem_of_app. left. apply elem_of_list_filter_bool. split; [|done].
        apply orb_true_iff. right. apply negb_true_iff, not_true_iff_false. intros Hx%trust_le_spec. done.
    + left. apply elem_of_app. left. apply elem_of_list_filter_bool. by rewrite bool_decide_eq_false_2.
  - intros c. rewrite elem_of_app, list_elem_of_singleton. intros [[_ Hc]%elem_of_list_filter_bool| ->]; [by right|by left].
Qed.
Lemma record_claims_Ok o l s s' : result_foldl (record_claim o) s l = Ok s' -> NoDup (claim_key <$> l) ->
  (forall new, new ∈ l -> new ∈ observations s' /\
    (trust_rank new <= ContextValueSource.discriminant (StateClaimSource.trust (po_source o)))%Z /\ (at_time new <= captured_at o)%Z /\
    (forall c, c ∈ observations s -> claim_key c = claim_key new -> (trust_rank new <= trust_rank c)%Z -> (at_time c <= at_time new)%Z)) /\
  (forall c, c ∈ observations s -> c ∈ observations s' \/ exists new, new ∈ l /\ displaces new c) /\
  (forall c, c ∈ observations s' -> c ∈ l \/ c ∈ observations s).
Proof.
  revert s. induction l as [|x l IH]; intros s; cbn.
  { intros [= <-] _. split_and!; [by intros ? ?%not_elem_of_nil|by left|by right]. }
  destruct (record_claim o s x) as [s1|e] eqn:Hx; cbn; [|done]. intros Hrest [Hni Hn]%NoDup_cons.
  apply record_claim_Ok in Hx as (Ht & Hcap & Hnewer & Hin & Hkeep & Honly). destruct (IH s1 Hrest Hn) as (Hnew & Hold & Hsub).
  split_and!.
  - intros new [->|Hl]%elem_of_cons.
    + split_and!; [|done..]. destruct (Hold x Hin) as [?|(y & Hy & [Hk _])]; [done|].
      destruct Hni. rewrite <- Hk. by apply list_elem_of_fmap_2.
    + destruct (Hnew new Hl) as (? & ? & ? & Hn'). split_and!; [done..|]. intros c Hc Hk Htr.
      destruct (Hkeep c Hc) as [Hc'|[Hkx _]]; [by apply Hn'|]. destruct Hni. rewrite Hkx, Hk. by apply list_elem_of_fmap_2.
  - intros c Hc. destruct (Hkeep c Hc) as [Hc'|Hd]; [|right; exists x; split; [by left|done]].
    destruct (Hold c Hc') as [?|(y & Hy & Hd)]; [by left|right; exists y; split; [by right|done]].
  - intros c [Hl|Hc]%Hsub; [left; by right|]. destruct (Honly c Hc) as [->|?]; [left; by left|by right].
Qed.

Lemma observe_run_Ok id o w done_ w' : observe_run id o w = (Ok done_, w') -> exists r hash plan s t,
  pw_runs w !! id = Some r /\ finished_at r = None /\ pw_revisions w !! revision_key r = Some (hash, plan) /\
  result_foldl (record_claim o) (run_state r) (po_claims o) = Ok s /\ done_ = (set_state s r, detect_assumption_drift plan (run_state r) s t) /\
  pw_runs w' = alter (fun _ => set_state s r) (run_id r) (pw_runs w).
Proof.
  intros E%plan_transaction_Ok. peel E r w1 Er V. apply plan_run_Ok in Er. pass E Hopen. apply run_terminal_false in Hopen.
  peel E s w2 Es V2. injection Es as Es _. peel E p w3 Ep V3. apply plan_of_Ok in Ep as [hash Hrev].
  peel E t w4 Et V4. peel E m w5 Em V5. apply bind_Ok in E as ([] & w6 & [= <-] & E).
  apply bind_Ok in E as ([] & w7 & [= <-] & E). peel E u w8 Eu V6. peel E v w9 Ev V7. injection E as <- <-.
  apply view_tables in V2 as (_ & Erev & _). rewrite Erev in Hrev. apply view_tables in V7 as (_ & _ & -> & _). cbn.
  apply view_tables in V5 as (_ & _ & -> & _). by exists r, hash, p, s, t.
Qed.
Lemma append_trajectory_runs r l w u w' : append_trajectory r l w = (Ok u, w') -> pw_runs w' = pw_runs w.
Proof.
  unfold append_trajectory. destruct (trajectory r); [|by intros [= _ <-]]. intros E. peel E x w1 Ex V.
  injection E as _ <-. cbn. by apply view_tables in V as (_ & _ & -> & _).
Qed.

(** An observation speaks with the authority of its source: every claim recorded is
    trusted at most as much as the source, not from the future of the observation, and
    not older than what the run knew of the same with at least as much trust; all
    claims are recorded; a claim the run had before is displaced only by a recorded
    claim about the same that is more trusted, or as trusted and not older; nothing else
    is added; and what is returned is the drift of the assumptions this caused. *)
Theorem observation_authority `{!PlanHashLaws} id o w drifts w' : reachable_plans w ->
  record_plan_observation id o w = (Ok drifts, w') ->
  exists r r' hash plan t, pw_runs w !! id = Some r /\ finished_at r = None /\ pw_runs w' !! id = Some r' /\
  pw_revisions w !! revision_key r = Some (hash, plan) /\
  drifts = detect_assumption_drift plan (run_state r) (run_state r') t /\
  (forall new, new ∈ po_claims o -> new ∈ observations (run_state r') /\
    (trust_rank new <= ContextValueSource.discriminant (StateClaimSource.trust (po_source o)))%Z /\ (at_time new <= captured_at o)%Z /\
    (forall c, c ∈ observations (run_state r) -> claim_key c = claim_key new -> (trust_rank new <= trust_rank c)%Z ->
      (at_time c <= at_time new)%Z)) /\
  (forall c, c ∈ observations (run_state r) ->
    c ∈ observations (run_state r') \/ exists new, new ∈ po_claims o /\ displaces new c) /\
  (forall c, c ∈ observations (run_state r') -> c ∈ po_claims o \/ c ∈ observations (run_state r)).
Proof.
  intros Hw%reachable_wf. unfold record_plan_observation. intros E. peel E now0 w1 E0 V. destruct (_ || _) eqn:Hg in E; [discriminate E|].
  rewrite !orb_false_iff in Hg. destruct Hg as [[[_ Hdup%duplicated_false] _] _].
  destruct (decide (po_source o = StateClaimSource.ToolAttestation)) as [Ht|Ht].
  { rewrite Ht in E. peel E x w2 Ex V2. peel E u w3 Eu V3. discriminate E. }
  assert ((done ← observe_run id o; append_trajectory done.1 done.2 ≫= fun _ => mret done.2) w1 = (Ok drifts, w')) as E'
    by (by destruct (po_source o)). clear E.
  apply bind_Ok in E' as (dn & w2 & Eo & E). apply bind_Ok in E as (u & w3 & Ea & [= Hd <-]).
  apply append_trajectory_runs in Ea. apply observe_run_Ok in Eo as (r & hash & plan & s & t & Hr & Hopen & Hrev & Hs & -> & Eruns).
  apply view_tables in V as (_ & Erev1 & Eruns1 & _). rewrite Eruns1 in Hr, Eruns. rewrite Erev1 in Hrev.
  exists r, (set_state s r), hash, plan, t. pose proof (record_claims_Ok _ _ _ _ Hs Hdup) as (Hnew & Hold & Hsub).
  split_and!; try done. rewrite Ea, Eruns, (proj1 (sw_runs _ Hw _ _ Hr)), lookup_alter_eq, Hr. done.
Qed.
End observing.

(** * Recovery *)

Section recovering.
Context `{SerdeJson} {X : Type} `{!PlanHost X} `{!PlanHashes} `{!PlanEnv}.
#[local] Abbreviation World := (PlanWorld (X := X)).
#[local] Abbreviation eff := (eff World).
Implicit Types (w : World) (r : PlanRun) (s : PlanState) (plan : ExecutionPlan) (x : X).

(** The effect has a receipt. *)
Definition receipt_known x (e : string) : Prop := exists receipt, host_receipt_for_effect x e = Ok (Some receipt).
(** The effects of a pinned composition. *)
Definition pinned_effect x (pin : PlanComponentRevision) (e : string) : Prop :=
  match pin with
  | PinComposition id rev _ => exists c, host_composition_revision x id rev = Ok c /\ e ∈ nc_effects (nested c)
  | PinExecutable _ => False
  end.
(** The effects a run may have caused. *)
Definition possible_effect x plan s (e : string) : Prop :=
  e ∈ committed_effects s \/
  (exists step id members, step ∈ steps plan /\ step_kind step = StepEffect id /\ host_effect_plan x id = Ok members /\ e ∈ members) \/
  (exists step pin, component_revisions plan !! step = Some pin /\ pinned_effect x pin e) \/
  (exists p c, p ∈ commitment_points plan /\ c ∈ consequences p /\ consequence_effect c = e).

Lemma committed_Ok e w b w' : committed e w = (Ok b, w') -> b = true <-> receipt_known (pw_system w) e.
Proof.
  unfold committed. intros E. peel E receipt w1 Er V. injection E as <- _. apply system_Ok in Er.
  rewrite bool_decide_eq_true. unfold receipt_known. rewrite Er. split; [intros [x ->]; by exists x|intros [x [= ->]]; by exists x].
Qed.
Lemma add_committed_Ok l acc w acc' w' : eff_foldl (add_committed (X := X)) acc l w = (Ok acc', w') ->
  forall e, e ∈ acc' <-> e ∈ acc \/ (e ∈ l /\ receipt_known (pw_system w) e).
Proof.
  revert acc w. induction l as [|y l IH]; intros acc w; cbn [eff_foldl].
  { intros [= <- _] e. split; [by left|]. intros [?|[?%not_elem_of_nil _]]; done. }
  intros E. pose proof (calm_add_committed (X := X)) as Hcalm. peel E acc1 w1 E1 V. pose proof (IH _ _ E) as Hrest. rewrite (view_system _ _ V) in Hrest.
  unfold add_committed in E1. apply bind_Ok in E1 as (b & w2 & Eb & E1). apply committed_Ok in Eb. injection E1 as E1 _.
  intros e. rewrite Hrest, <- E1, elem_of_cons. destruct b.
  - rewrite elem_of_union, elem_of_singleton. pose proof (proj1 Eb eq_refl). naive_solver.
  - assert (~ receipt_known (pw_system w) y) by (intros Hk%Eb; done). naive_solver.
Qed.
Lemma add_step_effects_Ok l acc w acc' w' : eff_foldl (add_step_effects (X := X)) acc l w = (Ok acc', w') ->
  forall e, e ∈ acc' <-> e ∈ acc \/ ((exists step id members, step ∈ l /\ step_kind step = StepEffect id /\
    host_effect_plan (pw_system w) id = Ok members /\ e ∈ members) /\ receipt_known (pw_system w) e).
Proof.
  revert acc w. induction l as [|y l IH]; intros acc w; cbn [eff_foldl].
  { intros [= <- _] e. split; [by left|]. intros [?|[(? & ? & ? & ?%not_elem_of_nil & _) _]]; done. }
  intros E. pose proof (calm_add_step_effects (X := X)) as Hcalm. peel E acc1 w1 E1 V.
  pose proof (IH _ _ E) as Hrest. rewrite (view_system _ _ V) in Hrest. intros e. rewrite Hrest. clear Hrest.
  assert (e ∈ acc1 <-> e ∈ acc \/ ((exists id members, step_kind y = StepEffect id /\
    host_effect_plan (pw_system w) id = Ok members /\ e ∈ members) /\ receipt_known (pw_system w) e)) as ->.
  { unfold add_step_effects in E1. destruct (step_kind y) as [?|?|?|eid|?|? ?|?|?] eqn:Hk;
      try (injection E1 as <- _; naive_solver).
    peel E1 members w2 Em V2. apply system_Ok in Em. rewrite (add_committed_Ok _ _ _ _ _ E1 e), (view_system _ _ V2).
    split; [intros [?|[? ?]]; [by left|right; split; [by exists eid, members|done]]|].
    intros [?|[(id & ms & [= <-] & Hms & Hin) ?]]; [by left|right]. rewrite Hms in Em. injection Em as <-. done. }
  split.
  - intros [[?|[(id & ms & Hk & Hms & Hin) Hr]]|[(st & id & ms & Hst & Hrest) Hr]]; [by left|right..]; (split; [|done]).
    + exists y, id, ms. split_and!; [by left|done..].
    + exists st, id, ms. split_and!; [by right|apply Hrest..].
  - intros [?|[(st & id & ms & [->|Hst]%elem_of_cons & Hk & Hms & Hin) Hr]]; [by left; left| |].
    + left. right. split; [by exists id, ms|done].
    + right. split; [by exists st, id, ms|done].
Qed.
Lemma nested_effects_Ok l acc w acc' w' : eff_foldl (nested_effect (X := X)) acc l w = (Ok acc', w') ->
  forall e, e ∈ acc'.2 <-> e ∈ acc.2 \/ (e ∈ l /\ receipt_known (pw_system w) e).
Proof.
  revert acc w. induction l as [|y l IH]; intros acc w; cbn [eff_foldl].
  { intros [= <- _] e. split; [by left|]. intros [?|[?%not_elem_of_nil _]]; done. }
  intros E. pose proof (calm_nested_effect (X := X)) as Hcalm. peel E acc1 w1 E1 V.
  pose proof (IH _ _ E) as Hrest. rewrite (view_system _ _ V) in Hrest.
  unfold nested_effect in E1. apply bind_Ok in E1 as (b & w2 & Eb & E1). apply committed_Ok in Eb. injection E1 as E1 _.
  intros e. rewrite Hrest, <- E1, elem_of_cons. destruct b; cbn [snd].
  - rewrite elem_of_union, elem_of_singleton. pose proof (proj1 Eb eq_refl). naive_solver.
  - assert (~ receipt_known (pw_system w) y) by (intros Hk%Eb; done). naive_solver.
Qed.
Lemma recover_pins_Ok l acc w acc' w' : eff_foldl (recover_pin (X := X)) acc l w = (Ok acc', w') ->
  forall e, e ∈ acc'.2 <-> e ∈ acc.2 \/ ((exists pin, pin ∈ l /\ pinned_effect (pw_system w) pin e) /\ receipt_known (pw_system w) e).
Proof.
  revert acc w. induction l as [|y l IH]; intros acc w; cbn [eff_foldl].
  { intros [= <- _] e. split; [by left|]. intros [?|[(? & ?%not_elem_of_nil & _) _]]; done. }
  intros E. pose proof (calm_recover_pin (X := X)) as Hcalm. peel E acc1 w1 E1 V.
  pose proof (IH _ _ E) as Hrest. rewrite (view_system _ _ V) in Hrest. intros e. rewrite Hrest. clear Hrest.
  assert (e ∈ acc1.2 <-> e ∈ acc.2 \/ (pinned_effect (pw_system w) y e /\ receipt_known (pw_system w) e)) as ->.
  { unfold recover_pin in E1. destruct y as [rv|id rv hash]; cbn [pinned_effect]; [injection E1 as <- _; naive_solver|].
    peel E1 c w2 Ec V2. apply system_Ok in Ec. pose proof (calm_nested_effect (X := X)) as Hcalm2.
    peel E1 found w3 Ef V3. injection E1 as <- _. cbn [snd]. rewrite (nested_effects_Ok _ _ _ _ _ Ef e), (view_system _ _ V2). cbn [snd].
    split; [intros [?|[? ?]]; [by left|right; split; [by exists c|done]]|].
    intros [?|[(c' & Hc' & Hin) ?]]; [by left|right]. rewrite Hc' in Ec. by injection Ec as <-. }
  split.
  - intros [[?|[Hp ?]]|[(p & Hp & Hin) ?]]; [by left|right..]; (split; [|done]); [exists y|exists p];
      (split; [|done]); [by left|by right].
  - intros [?|[(p & [->|Hp]%elem_of_cons & Hin) ?]]; [by left; left|left; right; done|right]. split; [by exists p|done].
Qed.

Lemma recovery_context_Ok id w rc w' : plan_recovery_context id w = (Ok rc, w') -> exists r hash plan,
  pw_runs w !! id = Some r /\ pw_revisions w !! revision_key r = Some (hash, plan) /\
  failure_step rc = current_step (run_state r) /\ crossed_commitments rc = crossed_commitment_points (run_state r) /\
  StronglySorted ord_le (rc_committed_effects rc) /\ NoDup (rc_committed_effects rc) /\
  forall e, e ∈ rc_committed_effects rc <-> possible_effect (pw_system w) plan (run_state r) e /\ receipt_known (pw_system w) e.
Proof.
  intros E. unfold plan_recovery_context in E. peel E r w1 Er V. apply plan_run_Ok in Er.
  peel E p w2 Ep V2. apply plan_of_Ok in Ep as [hash Hrev].
  apply view_tables in V as (_ & Erev & _). rewrite Erev in Hrev.
  pose proof (calm_add_committed (X := X)) as C1. pose proof (calm_add_step_effects (X := X)) as C2.
  pose proof (calm_recover_pin (X := X)) as C3. cbn zeta in E.
  peel E e1 w3 E1 V3. peel E e2 w4 E2 V4. peel E found w5 E3 V5. peel E e4 w6 E4 V6. injection E as <- <-. cbn.
  exists r, hash, p. split_and!; [done..|apply btree_set_sorted|apply NoDup_btree_set|]. intros e.
  rewrite elem_of_btree_set, (add_committed_Ok _ _ _ _ _ E4 e), (recover_pins_Ok _ _ _ _ _ E3 e), (add_step_effects_Ok _ _ _ _ _ E2 e),
    (add_committed_Ok _ _ _ _ _ E1 e). cbn [snd].
  rewrite (view_system _ _ V2), (view_system _ _ V3), (view_system _ _ V4), (view_system _ _ V5).
  assert (e ∉ (∅ : gset string)) as Hempty by apply not_elem_of_empty.
  assert ((exists pin, pin ∈ (btree_map (component_revisions p)).*2 /\ pinned_effect (pw_system w) pin e) <->
    exists step pin, component_revisions p !! step = Some pin /\ pinned_effect (pw_system w) pin e) as ->.
  { split.
    - intros (pin & ([k v] & -> & Hin%elem_of_btree_map)%list_elem_of_fmap & Hp). by exists k, v.
    - intros (k & pin & Hin & Hp). exists pin. split; [|done]. apply elem_of_btree_map in Hin.
      exact (list_elem_of_fmap_2 snd _ _ Hin). }
  assert (e ∈ consequence_effect <$> (commitment_points p ≫= consequences) <->
    exists q c, q ∈ commitment_points p /\ c ∈ consequences q /\ consequence_effect c = e) as ->.
  { rewrite list_elem_of_fmap. setoid_rewrite elem_of_bind. naive_solver. }
  unfold possible_effect. tauto.
Qed.

(** What recovery counts as committed is exactly what the system holds a receipt of:
    among the effects the run recorded, those of the effect plans of its steps, those of
    the compositions it pinned and the consequences of its commitment points, every one
    with a receipt is reported, once and in order, and none without. *)
Theorem recovery_exact id w rc w' : plan_recovery_context id w = (Ok rc, w') -> exists r hash plan,
  pw_runs w !! id = Some r /\ pw_revisions w !! revision_key r = Some (hash, plan) /\
  failure_step rc = current_step (run_state r) /\ crossed_commitments rc = crossed_commitment_points (run_state r) /\
  StronglySorted ord_le (rc_committed_effects rc) /\ NoDup (rc_committed_effects rc) /\
  forall e, e ∈ rc_committed_effects rc <-> possible_effect (pw_system w) plan (run_state r) e /\ receipt_known (pw_system w) e.
Proof. apply recovery_context_Ok. Qed.

(** * Replanning *)

(** C29. Replanning loses no work: the new run is open under the newer current revision of
    the plan, every step completed before is completed in it and is the same step in both
    revisions, every commitment point crossed before likewise, its next step is the first
    ready under the new revision, and its committed effects are exactly those of the
    recovery; the old run is over, failed if it had failed and inconclusive otherwise. *)
Theorem replan_preserves_work `{!PlanHashLaws} id reason w r' w' : reachable_plans w ->
  replan_run id reason w = (Ok r', w') ->
  exists r old next hash hash' r0, pw_runs w !! id = Some r /\ pw_revisions w !! revision_key r = Some (hash, old) /\
  pw_revisions w !! revision_key r' = Some (hash', next) /\ plan_wf next /\
  ref_plan (run_plan r') = ref_plan (run_plan r) /\ (revision old < revision next)%Z /\
  pw_runs w' !! run_id r' = Some r' /\ finished_at r' = None /\ outcome r' = None /\
  completed_steps (run_state r') = completed_steps (run_state r) /\
  (forall n, n ∈ completed_steps (run_state r) -> exists a, find_step next n = Some a /\ find_step old n = Some a) /\
  crossed_commitment_points (run_state r') = crossed_commitment_points (run_state r) /\
  (forall n, n ∈ crossed_commitment_points (run_state r) -> exists p, find_point next n = Some p /\ find_point old n = Some p) /\
  current_step (run_state r') = next_ready next (completed_steps (run_state r)) /\
  (forall e, e ∈ committed_effects (run_state r') <->
    possible_effect (pw_system w) old (run_state r) e /\ receipt_known (pw_system w) e) /\
  pw_runs w' !! id = Some r0 /\ is_Some (finished_at r0) /\
  outcome r0 = Some (if decide (outcome r = Some PlanRunOutcome.Failure) then PlanRunOutcome.Failure else PlanRunOutcome.Inconclusive).
Proof.
  intros Hw%reachable_wf E.
  apply replan_run_Ok in E as (r & old & next & hash & recovery & t & w1 & w2 & o & Hr & Hopen & Hrev & Hn & Hlt & Hsteps &
    Hpoints & V & Hrc & Hplan & Hf' & Ho' & _ & Hstate & Hnew & Ho & Eruns & Ep & Erev & Es).
  pose proof (proj1 (sw_runs _ Hw _ _ Hr)) as Hid. destruct (sw_plans _ Hw _ _ Hn) as [hash' Hrev'].
  apply recovery_context_Ok in Hrc as (r1 & hash1 & old1 & Hr1 & Hrev1 & _ & _ & _ & _ & Heff).
  apply view_tables in V as (_ & Ev & Er & _ & Ey). rewrite Er, Hr in Hr1. injection Hr1 as <-.
  rewrite Ev, Hrev in Hrev1. injection Hrev1 as <- <-. rewrite Ey in Heff.
  exists r, old, next, hash, hash', (set_outcome (Some t) o (set_state
    (set_recovered (rc_committed_effects recovery) (nested_commitments (rc_state recovery)) (run_state r)) r)).
  rewrite Hplan, Hstate, Eruns, Hid. unfold revision_key in *. rewrite Hplan. split_and!; cbn; try done.
  - by destruct (sw_revisions _ Hw _ _ _ _ Hrev').
  - rewrite lookup_alter_ne; [apply lookup_insert_eq|congruence].
  - rewrite lookup_alter_eq, lookup_insert_ne; [by rewrite Hr|congruence].
  - rewrite Ho. case_bool_decide; case_decide; congruence.
Qed.
End recovering.
