(* ===== verification/PlanRunExample.v ===== *)
(** A run of the plan of PlanExample: saved, started, observed, its first step
    completed, then replanned. The properties of runs are applied to it. *)
From S2P Require Import Prelude Worklist StateError Semver Scope Hierarchy EconomicsModel EffectModel CapabilityModel PlanModel PlanValidity PlanWellFormed PlanPredicates PlanDecision PlanAdmission PlanExample PlanStore PlanRun PlanRecovery PlanRunFacts PlanRunSound PlanRunSteps PlanRunSafety PlanRunOutcome.
From stdpp Require Import pretty.

Module PlanRunExamples.
Import PlanExamples.
#[local] Existing Instance Sample.json.

#[local] Instance freshness_requirement_eq_dec : EqDecision StateFreshnessRequirement.
Proof. solve_decision. Defined.
#[local] Instance effect_predicate_eq_dec : EqDecision EffectPredicate.
Proof. solve_decision. Defined.
#[local] Instance capability_predicate_eq_dec : EqDecision CapabilityPredicate.
Proof. solve_decision. Defined.
#[local] Instance condition_eq_dec : EqDecision BehavioralCondition.
Proof. solve_decision. Defined.
#[local] Instance observation_spec_eq_dec : EqDecision ObservationSpec.
Proof. solve_decision. Defined.
#[local] Instance approval_eq_dec : EqDecision ApprovalRequirement.
Proof. solve_decision. Defined.
#[local] Instance step_kind_eq_dec : EqDecision PlanStepKind.
Proof. solve_decision. Defined.
#[local] Instance step_eq_dec : EqDecision PlanStep.
Proof. intros x y. destruct x, y. unfold Decision. decide equality; apply (decide (_ = _)). Defined.
#[local] Instance consequence_eq_dec : EqDecision CommittedConsequence.
Proof. solve_decision. Defined.
#[local] Instance point_eq_dec : EqDecision PlanCommitmentPoint.
Proof. solve_decision. Defined.

(** * A concrete system *)

Definition manifest (subject : ContractSubject) : ComponentRevision := mkComponentRevision subject "1" "content".
Definition approved_step (id : string) : StepDecision :=
  mkStepDecision true (Some (mkPlanContext "plan-run-0" "plan-1" 1 id)) context (seconds 90).
Definition unknown {A} : result A := Err (NotFound "unknown").

#[local] Instance host : PlanHost unit := {
  host_pin_component _ subject := Ok (manifest subject);
  host_composition _ _ := unknown;
  host_composition_revision _ _ _ := unknown;
  host_skill_input _ _ _ := unknown;
  host_attestation _ _ := unknown;
  host_manifest_hash _ _ := unknown;
  host_effect _ _ := Ok tt;
  host_effect_plan _ _ := Ok ["deploy-effect"];
  host_receipt_for_effect _ _ := Ok None;
  host_receipt _ _ := unknown;
  host_composition_evidence _ _ := unknown;
  host_experiment _ _ := unknown;
  host_experience _ _ := unknown;
  host_decision _ id := if decide (id = "decide-inspect") then Ok (approved_step "inspect") else unknown;
  host_team_binding _ _ _ := Ok tt;
  host_team_unchanged _ _ := Ok true;
  host_knowledge_nodes _ := Ok [];
  host_recoveries _ := Ok [("rollback", true)];
  host_authorization _ _ := Ok None;
  host_diversity _ _ := None;
  host_start_trajectory _ _ := Ok ("trajectory-1", tt);
  host_append_trajectory _ _ _ _ := Ok tt;
}.

(** Each value of a table hashes to its name. *)
Definition name_in {A} `{EqDecision A} (table : list (string * A)) (a : A) : result string :=
  match List.find (fun entry => bool_decide (entry.2 = a)) table with Some entry => Ok entry.1 | None => unknown end.
Lemma name_in_inj {A} `{EqDecision A} (table : list (string * A)) a b h : NoDup table.*1 ->
  name_in table a = Ok h -> name_in table b = Ok h -> a = b.
Proof.
  intros Hn. unfold name_in.
  destruct (List.find (fun e => bool_decide (e.2 = a)) table) as [x|] eqn:Hx; [|done].
  destruct (List.find (fun e => bool_decide (e.2 = b)) table) as [y|] eqn:Hy; [|done].
  apply List.find_some in Hx as [Hx%list_elem_of_In <-%bool_decide_eq_true].
  apply List.find_some in Hy as [Hy%list_elem_of_In <-%bool_decide_eq_true].
  intros [= <-] [= Hxy]. destruct x as [n x], y as [m y]. cbn in Hxy. subst m.
  by injection (key_inj fst table Hn (n, x) (n, y) Hx Hy eq_refl).
Qed.
Definition step_names : list (string * option PlanStep) :=
  [("none", None); ("inspect", find_step plan "inspect"); ("deploy", find_step plan "deploy"); ("verify", find_step plan "verify")].
Definition point_names : list (string * option PlanCommitmentPoint) :=
  [("none", None); ("released", find_point plan "released")].
#[local] Instance hashes : PlanHashes := {
  hash_plan p := Ok (plan_id p);
  hash_pin _ := Ok "pin";
  hash_component c := Ok (cr_content_hash c);
  hash_step := name_in step_names;
  hash_point := name_in point_names;
  hash_value _ := Ok "value";
  hash_state s := Ok (st_plan s);
}.
#[local] Instance hash_laws : PlanHashLaws.
Proof.
  split; intros a b h; apply name_in_inj; apply (bool_decide_unpack _); vm_compute; exact I.
Qed.
#[local] Instance env : PlanEnv := { plan_clock n := (seconds 100 + Z.of_nat n)%Z; plan_fresh := pretty }.

(** * The run *)

Abbreviation World := (PlanWorld (X := unit)).
Definition observation : PlanObservation :=
  mkPlanObservation "observation-1" StateClaimSource.RuntimeObservation
    [claim "branch" "main" StateClaimSource.RuntimeObservation (seconds 99)] (seconds 100) None.
Definition inspected : PlanStepRun :=
  mkStepRun None None "plan-run-0" "inspect" "decide-inspect" None [] (seconds 100).
(** The plan with only the step that was completed. *)
Definition shortened : ExecutionPlan :=
  mkPlan "plan-1" (goal plan) 2 [step "inspect" (StepObserve (mkObservation "branch" on_branch NoRequirement)) [] ["on-branch"] []]
    (assumptions plan) [] [] [] [] [] default_freshness_policy ∅ PlanStatus.Proposed 0.

Definition begun : World :=
  perform (CallStart "plan-1") (perform (CallSave plan PlanRevisionReason.UserChange) (empty_plans tt)).
Definition started : World := perform (CallObserve "plan-run-0" observation) begun.
Definition first_step : World := perform (CallComplete inspected) started.
Definition revised : World := perform (CallSave shortened PlanRevisionReason.UserChange) first_step.
Definition replanned_ : result PlanRun * World := replan_run "plan-run-0" PlanRevisionReason.UserChange revised.

Definition run_of (w : World) (id : string) : option PlanRun := pw_runs w !! id.
(** The observed run completes its first step and turns to the deployment. *)
Example inspect_completes : option_map (fun r => (completed_steps (run_state r), current_step (run_state r), mutation_epoch (run_state r), outcome r))
  (run_of first_step "plan-run-0") = Some (["inspect"], Some "deploy", 0%Z, None).
Proof. vm_compute. reflexivity. Qed.
(** The same evidence does not complete the next one. *)
Example evidence_used_once :
  (complete_plan_step (mkStepRun None None "plan-run-0" "deploy" "decide-inspect" None [] (seconds 100)) first_step).1 =
  Err (Intervention "Plan execution evidence cannot complete multiple steps").
Proof. vm_compute. reflexivity. Qed.

Lemma begun_reachable : reachable_plans begun.
Proof. exists tt. eapply rtc_l; [apply move_call|]. apply rtc_once. exact (move_call _ (CallStart "plan-1")). Qed.
Lemma started_reachable : reachable_plans started.
Proof.
  destruct begun_reachable as [x Hr]. exists x. eapply rtc_r; [exact Hr|].
  exact (move_call begun (CallObserve "plan-run-0" observation)).
Qed.
Lemma revised_reachable : reachable_plans revised.
Proof.
  destruct started_reachable as [x Hr]. exists x. eapply rtc_r; [eapply rtc_r; [exact Hr|exact (move_call started (CallComplete inspected))]|
    exact (move_call first_step (CallSave shortened PlanRevisionReason.UserChange))].
Qed.

Lemma plan_books_witness : store_wf started /\ advances started first_step.
Proof.
  destruct (plan_books started started_reachable) as [Hw Ha]. split; [exact Hw|].
  apply Ha, rtc_once. exact (move_call started (CallComplete inspected)).
Defined.
Lemma complete_step_earned_witness : exists r plan step d inputs,
  pw_runs started !! "plan-run-0" = Some r /\ executed started plan step (run_state r) inspected d /\
  admissible inputs plan (run_state r) (default 0%Z (in_now inputs)) (dec_context d) step.
Proof.
  assert (is_ok (complete_plan_step inspected started).1 = true) as Hok by (vm_compute; reflexivity).
  destruct (complete_plan_step inspected started) as [[r'|e] w'] eqn:E; [|discriminate Hok].
  destruct (complete_step_earned inspected started r' w' started_reachable E) as
    (r & hash & p & st & d & Hr & _ & _ & _ & _ & _ & _ & _ & _ & (inputs & _ & _ & _ & _ & Ha) & He & _).
  exists r, p, st, d, inputs. split; [exact Hr|]. split; [exact He|exact Ha].
Defined.
Lemma run_has_next_step_witness : exists r, pw_runs started !! "plan-run-0" = Some r /\
  (current_step (run_state r) = None <-> completed_steps (run_state r) ≡ₚ step_id <$> steps plan).
Proof.
  assert (bool_decide (revision_key <$> pw_runs started !! "plan-run-0" = Some ("plan-1", 1%Z)) &&
    bool_decide ((fun row => step_id <$> steps row.2) <$> pw_revisions started !! ("plan-1", 1%Z) = Some (step_id <$> steps plan)) = true)
    as [Hk%bool_decide_eq_true Hs%bool_decide_eq_true]%andb_true_iff by (vm_compute; reflexivity).
  destruct (pw_runs started !! "plan-run-0") as [r|] eqn:Hr; [|discriminate Hk].
  destruct (pw_revisions started !! ("plan-1", 1%Z)) as [[hash p]|] eqn:Hrev; [|discriminate Hs].
  apply (inj Some) in Hk, Hs. rewrite <- Hk in Hrev. exists r. split; [reflexivity|].
  change (step_id <$> steps p = step_id <$> steps plan) in Hs. rewrite <- Hs.
  exact (proj1 (run_has_next_step started "plan-run-0" r hash p started_reachable Hr Hrev)).
Defined.
Lemma observation_authority_witness : exists r', pw_runs started !! "plan-run-0" = Some r' /\
  forall new, new ∈ po_claims observation -> new ∈ observations (run_state r').
Proof.
  assert (is_ok (record_plan_observation "plan-run-0" observation begun).1 = true) as Hok by (vm_compute; reflexivity).
  destruct (record_plan_observation "plan-run-0" observation begun) as [[drifts|e] w'] eqn:E; [|discriminate Hok].
  destruct (observation_authority "plan-run-0" observation begun drifts w' begun_reachable E) as
    (r & r' & hash & p & t & _ & _ & Hr' & _ & _ & Hnew & _).
  exists r'. split; [change started with (record_plan_observation "plan-run-0" observation begun).2; rewrite E; exact Hr'|].
  intros new Hin. exact (proj1 (Hnew new Hin)).
Defined.
Lemma recovery_exact_witness : exists rc r hash p, plan_recovery_context "plan-run-0" started = (Ok rc, started) /\
  pw_runs started !! "plan-run-0" = Some r /\ pw_revisions started !! revision_key r = Some (hash, p) /\
  forall e, e ∈ rc_committed_effects rc <-> possible_effect tt p (run_state r) e /\ receipt_known tt e.
Proof.
  assert (is_ok (plan_recovery_context "plan-run-0" started).1 = true) as Hok by (vm_compute; reflexivity).
  destruct (plan_recovery_context "plan-run-0" started) as [[rc|e] w'] eqn:E; [|discriminate Hok].
  assert (w' = started) as ->.
  { change w' with (@Ok _ rc, w').2. rewrite <- E. vm_compute. reflexivity. }
  destruct (recovery_exact "plan-run-0" started rc started E) as (r & hash & p & Hr & Hrev & _ & _ & _ & _ & Heff).
  exists rc, r, hash, p. split; [reflexivity|]. split; [exact Hr|]. split; [exact Hrev|exact Heff].
Defined.
Lemma replan_preserves_work_witness : exists r r', replanned_.1 = Ok r' /\ pw_runs revised !! "plan-run-0" = Some r /\
  completed_steps (run_state r') = completed_steps (run_state r).
Proof.
  assert (is_ok replanned_.1 = true) as Hok by (vm_compute; reflexivity).
  destruct replanned_ as [[r'|e] w'] eqn:E; [|discriminate Hok]. unfold replanned_ in E.
  destruct (replan_preserves_work "plan-run-0" PlanRevisionReason.UserChange revised r' w' revised_reachable E) as
    (r & old & next & hash & hash' & r0 & Hr & _ & _ & _ & _ & _ & _ & _ & _ & Hc & _).
  exists r, r'. split; [reflexivity|]. split; [exact Hr|exact Hc].
Defined.
Lemma replan_strands_witness : exists r', replanned_.1 = Ok r' /\ current_step (run_state r') = None /\ finished_at r' = None.
Proof.
  assert (match replanned_.1 with
    | Ok r' => bool_decide (ref_plan (run_plan r') = "plan-1") && bool_decide (completed_steps (run_state r') = ["inspect"])
    | Err _ => false
    end && bool_decide ((fun p => step_id <$> steps p) <$> pw_plans revised !! "plan-1" = Some ["inspect"]) = true)
    as [Hok Hs%bool_decide_eq_true]%andb_true_iff by (vm_compute; reflexivity).
  destruct replanned_ as [[r'|e] w'] eqn:E; [|discriminate Hok]. cbn [fst] in Hok.
  apply andb_true_iff in Hok as [Hp%bool_decide_eq_true Hc%bool_decide_eq_true].
  exists r'. split; [reflexivity|]. unfold replanned_ in E.
  destruct (pw_plans revised !! "plan-1") as [next|] eqn:Hn; [|discriminate Hs]. apply (inj Some) in Hs. rewrite <- Hp in Hn.
  assert (step_id <$> steps next ⊆ completed_steps (run_state r')) as Hall by (rewrite Hs, Hc; done).
  destruct (replan_strands "plan-run-0" PlanRevisionReason.UserChange revised r' w' next revised_reachable E Hn Hall)
    as (Hf & _ & Hcur & _). split; [exact Hcur|exact Hf].
Defined.
End PlanRunExamples.
