(* ===== verification/RuntimeModel.v ===== *)
(** Data of the runtime guidance: src/runtime/model.rs, with the records it takes
    from assurance/model.rs, bridge/protocol.rs, causal/model.rs,
    epistemic/model.rs, knowledge_runtime/model.rs, lesson.rs, predictive/model.rs,
    team/mod.rs and plan/model.rs. Of those records, and of the decision context,
    the fields the policy does not read are left out. An id is its text. A [f64] is
    only carried and displayed. *)
From S2P Require Import Prelude Semver Scope Hierarchy EconomicsModel EffectModel CapabilityModel PlanModel.

(** * Enums *)

(** A derived [Ord] orders the constructors as they are declared. *)
Module EnvelopePosition.
Inductive t := KnownSafe | KnownDegraded | KnownFailure | Unknown.
#[global] Instance eq_dec : EqDecision t.
Proof. solve_decision. Defined.
End EnvelopePosition.

Module KnowledgeState.
Inductive t := KnownSupported | KnownContradicted | KnownStale | Unknown | OutOfScope.
#[global] Instance eq_dec : EqDecision t.
Proof. solve_decision. Defined.
(** [{:?}] *)
Definition debug (x : t) : string :=
  match x with
  | KnownSupported => "KnownSupported" | KnownContradicted => "KnownContradicted"
  | KnownStale => "KnownStale" | Unknown => "Unknown" | OutOfScope => "OutOfScope"
  end.
End KnowledgeState.

Module AssuranceRuntimeStatus.
Inductive t := Current | ReviewRecommended | Expired | Invalidated | OutOfScope | Missing | Inconclusive.
#[global] Instance eq_dec : EqDecision t.
Proof. solve_decision. Defined.
(** [{:?}] *)
Definition debug (x : t) : string :=
  match x with
  | Current => "Current" | ReviewRecommended => "ReviewRecommended" | Expired => "Expired"
  | Invalidated => "Invalidated" | OutOfScope => "OutOfScope" | Missing => "Missing"
  | Inconclusive => "Inconclusive"
  end.
End AssuranceRuntimeStatus.

(** src/assurance/model.rs *)
Module AssuranceGapKind.
Inductive t := UntestedCondition | InsufficientEvidence | StaleEvidence | UnsupportedIsolation |
  UnsupportedEffect | ContractInconclusive | ContradictoryEvidence.
#[global] Instance eq_dec : EqDecision t.
Proof. solve_decision. Defined.
End AssuranceGapKind.

Module UncertaintyLevel.
Inductive t := Low | Medium | High | Unknown.
#[global] Instance eq_dec : EqDecision t.
Proof. solve_decision. Defined.
End UncertaintyLevel.

Module ExperimentMode.
Inductive t := Off | Suggest | Automatic.
#[global] Instance eq_dec : EqDecision t.
Proof. solve_decision. Defined.
(** [{:?}] *)
Definition debug (x : t) : string :=
  match x with Off => "Off" | Suggest => "Suggest" | Automatic => "Automatic" end.
End ExperimentMode.

Module AbstentionReason.
Inductive t := CriticalUnknown | UnsupportedEffect | InsufficientIsolation | NoCommitAuthority |
  UnresolvedContradiction | NoValidatedRecovery | InconclusiveAssurance | BudgetExhausted |
  UnsafeToExperiment | ExternalPolicyProhibition | InsufficientEvidenceDiversity.
#[global] Instance eq_dec : EqDecision t.
Proof. solve_decision. Defined.
End AbstentionReason.

Module RuntimeDecisionKind.
Inductive t := Act | Experiment | Replan | Recover | RequireApproval | Abstain.
#[global] Instance eq_dec : EqDecision t.
Proof. solve_decision. Defined.
End RuntimeDecisionKind.

Module GovernanceDisposition.
Inductive t := RuntimeRecommendation | ApprovalOverride | SecurityBlocked.
#[global] Instance eq_dec : EqDecision t.
Proof. solve_decision. Defined.
End GovernanceDisposition.

Module RuntimePolicyProfile.
Inductive t := Developer | Balanced | Conservative.
#[global] Instance eq_dec : EqDecision t.
Proof. solve_decision. Defined.
(** [{:?}] *)
Definition debug (x : t) : string :=
  match x with Developer => "Developer" | Balanced => "Balanced" | Conservative => "Conservative" end.
End RuntimePolicyProfile.

Module RuntimeAutonomy.
Inductive t := Observe | Advise | Adaptive | Governed.
#[global] Instance eq_dec : EqDecision t.
Proof. solve_decision. Defined.
(** [{:?}] *)
Definition debug (x : t) : string :=
  match x with Observe => "Observe" | Advise => "Advise" | Adaptive => "Adaptive" | Governed => "Governed" end.
End RuntimeAutonomy.

Module ForecastRuntimeMode.
Inductive t := Off | Observe | Advise | Prevent.
#[global] Instance eq_dec : EqDecision t.
Proof. solve_decision. Defined.
(** [{:?}] *)
Definition debug (x : t) : string :=
  match x with Off => "Off" | Observe => "Observe" | Advise => "Advise" | Prevent => "Prevent" end.
End ForecastRuntimeMode.

Module ExpectedLearningValue.
Inductive t := Low | Medium | High.
#[global] Instance eq_dec : EqDecision t.
Proof. solve_decision. Defined.
End ExpectedLearningValue.

(** src/predictive/model.rs *)
Module ForecastPolicyProfile.
Inductive t := PredictiveObserve | PredictiveBalanced | PredictiveConservative.
#[global] Instance eq_dec : EqDecision t.
Proof. solve_decision. Defined.
(** [{:?}] *)
Definition debug (x : t) : string :=
  match x with
  | PredictiveObserve => "PredictiveObserve" | PredictiveBalanced => "PredictiveBalanced"
  | PredictiveConservative => "PredictiveConservative"
  end.
End ForecastPolicyProfile.

Module PredictiveOrigin.
Inductive t := Local_ | FederatedAdvisory.
#[global] Instance eq_dec : EqDecision t.
Proof. solve_decision. Defined.
End PredictiveOrigin.

Module ForecastStrength.
Inductive t := InsufficientEvidence | Weak | Moderate | Strong.
#[global] Instance eq_dec : EqDecision t.
Proof. solve_decision. Defined.
Definition discriminant (x : t) : Z :=
  match x with InsufficientEvidence => 0 | Weak => 1 | Moderate => 2 | Strong => 3 end%Z.
#[global] Instance ord : Ord t := key_ord discriminant.
#[global] Instance ord_laws : OrdLaws t.
Proof. apply key_ord_laws. by intros [] []. Qed.
End ForecastStrength.

Module ForecastStatus.
Inductive t := Watch | Elevated | Actionable | Imminent | Cleared | Materialized | FalsePositive |
  Active | ResolvedFailureOccurred | ResolvedAvoided | ResolvedFalseAlarm | Expired | Inconclusive.
#[global] Instance eq_dec : EqDecision t.
Proof. solve_decision. Defined.
Definition discriminant (x : t) : Z :=
  match x with
  | Watch => 0 | Elevated => 1 | Actionable => 2 | Imminent => 3 | Cleared => 4 | Materialized => 5
  | FalsePositive => 6 | Active => 7 | ResolvedFailureOccurred => 8 | ResolvedAvoided => 9
  | ResolvedFalseAlarm => 10 | Expired => 11 | Inconclusive => 12
  end%Z.
#[global] Instance ord : Ord t := key_ord discriminant.
#[global] Instance ord_laws : OrdLaws t.
Proof. apply key_ord_laws. by intros [] []. Qed.
Definition is_active (x : t) : bool :=
  match x with Watch | Elevated | Actionable | Imminent | Active => true | _ => false end.
Definition is_actionable (x : t) : bool :=
  match x with Actionable | Imminent | Active => true | _ => false end.
(** [{:?}] *)
Definition debug (x : t) : string :=
  match x with
  | Watch => "Watch" | Elevated => "Elevated" | Actionable => "Actionable" | Imminent => "Imminent"
  | Cleared => "Cleared" | Materialized => "Materialized" | FalsePositive => "FalsePositive"
  | Active => "Active" | ResolvedFailureOccurred => "ResolvedFailureOccurred"
  | ResolvedAvoided => "ResolvedAvoided" | ResolvedFalseAlarm => "ResolvedFalseAlarm"
  | Expired => "Expired" | Inconclusive => "Inconclusive"
  end.
End ForecastStatus.

Module InterventionDisruption.
Inductive t := Minimal | Moderate | High.
#[global] Instance eq_dec : EqDecision t.
Proof. solve_decision. Defined.
Definition discriminant (x : t) : Z :=
  match x with Minimal => 0 | Moderate => 1 | High => 2 end%Z.
#[global] Instance ord : Ord t := key_ord discriminant.
#[global] Instance ord_laws : OrdLaws t.
Proof. apply key_ord_laws. by intros [] []. Qed.
End InterventionDisruption.

Module InterventionCost.
Inductive t := Negligible | Low | Medium | High.
#[global] Instance eq_dec : EqDecision t.
Proof. solve_decision. Defined.
Definition discriminant (x : t) : Z :=
  match x with Negligible => 0 | Low => 1 | Medium => 2 | High => 3 end%Z.
#[global] Instance ord : Ord t := key_ord discriminant.
#[global] Instance ord_laws : OrdLaws t.
Proof. apply key_ord_laws. by intros [] []. Qed.
End InterventionCost.

Module PreventiveInterventionStatus.
Inductive t := Candidate | Supported | Validated | Contradicted | Retired.
#[global] Instance eq_dec : EqDecision t.
Proof. solve_decision. Defined.
End PreventiveInterventionStatus.

(** src/epistemic/model.rs *)
Module EvidenceSourceKind.
Inductive t := Agent | Experiment | Chaos | RecoveryTrial | Federation | StaticCheck | HumanObservation.
#[global] Instance eq_dec : EqDecision t.
Proof. solve_decision. Defined.
End EvidenceSourceKind.

(** The derived order of [DiversityClass] and its [{:?}]. *)
Definition diversity_discriminant (d : DiversityClass.t) : Z :=
  match d with
  | DiversityClass.Unknown => 0 | DiversityClass.Low => 1 | DiversityClass.Moderate => 2
  | DiversityClass.High => 3
  end%Z.
Definition debug_diversity (d : DiversityClass.t) : string :=
  match d with
  | DiversityClass.Unknown => "Unknown" | DiversityClass.Low => "Low"
  | DiversityClass.Moderate => "Moderate" | DiversityClass.High => "High"
  end.
(** [DiversityClass::satisfies]. *)
Definition satisfies (d minimum : DiversityClass.t) : bool :=
  (diversity_discriminant minimum <=? diversity_discriminant d)%Z.

(** * Records without foreign values *)

#[export] Instance failure_signature_eq_dec : EqDecision FailureSignatureRef.
Proof. solve_decision. Defined.

Record TaskDescriptor := mkTask { task_description : string; family : option string; task_tags : list string }.
Record SkillRef := mkSkillRef { skill_id : string; skill_revision : Z; skill_name : string }.
Record LessonRef := mkLessonRef { lesson_id : string; lesson_version : Z }.
Record ReflexRef := mkReflexRef { reflex_id : string; reflex_version : Z }.
Record OperatingEnvelopeRef := mkEnvelope {
  envelope_id : string;
  envelope_version : Z;
  position : EnvelopePosition.t;
}.
Record KnowledgeSignals := mkSignals {
  local_supported : bool;
  local_contradicted : bool;
  evidence_stale : bool;
  context_in_scope : bool;
  validated_skill : bool;
  applicable_lesson : bool;
  known_failure_precursor : bool;
  remote_advisory_only : bool;
  known_gap_matches : bool;
}.

Record AssuranceProfileRef := mkProfile { profile_id : string; profile_version : string }.
Record AssuranceGap := mkGap {
  gap_kind : AssuranceGapKind.t;
  gap_description : string;
  gap_severity : option Severity.t;
}.
Record AssuranceSummary := mkSummary {
  assurance_status : AssuranceRuntimeStatus.t;
  certification : option string;
  assurance_profile : option AssuranceProfileRef;
  assurance_reasons : list string;
}.
Record AssuranceApplicability := mkAssuranceApplicability {
  assurance_applicable : bool;
  applicability_reasons : list string;
}.
Record AssuranceContext := mkAssurance {
  summary : AssuranceSummary;
  assurance_applicability : AssuranceApplicability;
  gaps : list AssuranceGap;
}.

Record GovernanceContext := mkGovernance {
  hard_policy_blocked : bool;
  block_reason : option string;
  approval_required : bool;
  approval_reason : option string;
}.
Record RuntimeRiskAssessment := mkRisk {
  risk_severity : Severity.t;
  risk_reversibility : ReversibilityClass.t;
  risk_externality : ExternalityClass.t;
  assurance_requirement : option AssuranceProfileRef;
  effect_risk : option EffectRisk.t;
  rationale : list string;
}.
Record ToolCandidate := mkTool {
  tool_name : string;
  satisfies_task : bool;
  current_assurance : bool;
  capability_width : Z;
}.
Record ExperimentCapabilitySummary := mkExperiments {
  experiment_mode : ExperimentMode.t;
  safe_reality_available : bool;
  effect_safe : bool;
  experiment_budget : ExperienceBudget;
  budget_remaining : bool;
  experiment_requirements : RealityRequirements;
}.

(** [ExperimentCapabilitySummary::can_experiment]. *)
Definition can_experiment (e : ExperimentCapabilitySummary) : bool :=
  negb (bool_decide (experiment_mode e = ExperimentMode.Off)) && safe_reality_available e &&
  effect_safe e && budget_remaining e && (0 <? max_realities (experiment_budget e))%Z.

(** src/lesson.rs *)
Inductive ActionPattern :=
  | ShellCommand (pattern : string)
  | FileOperation (pattern : string)
  | CustomPattern (kind value : string).
#[export] Instance action_pattern_eq_dec : EqDecision ActionPattern.
Proof. solve_decision. Defined.

Record RuntimeDiversityRequirement := mkDiversityRequirement {
  requirement_pattern : ActionPattern;
  requirement_minimum : DiversityClass.t;
}.
Record EvidenceRequirement := mkEvidenceRequirement {
  requirement_claim : string;
  required_diversity : option DiversityClass.t;
  preferred_sources : list EvidenceSourceKind.t;
}.
Record RuntimeEpistemicSummary := mkEpistemic {
  epistemic_claim : string;
  epistemic_diversity : DiversityClass.t;
}.

(** src/team/mod.rs *)
Record TeamAuthorityAssessment := mkTeamAssessment { allowed : bool; team_reasons : list string }.
Record TeamRuntimeContext := mkTeamContext {
  team_id : string;
  team_revision : Z;
  team_member : string;
  team_assignment : string;
  team_delegation : option string;
  team_assessment : option TeamAuthorityAssessment;
}.

(** src/composition/model.rs *)
Record CompositionNextStepAssessment := mkCompositionAssessment {
  assessed_composition : string;
  composition_revision : Z;
  composition_step : string;
  findings : list string;
  composition_unknown : list string;
}.

(** src/predictive/model.rs *)
Inductive ForecastHorizon :=
  | NextAction
  | Actions (n : Z)
  | NextNEvents (n : Z)
  | BeforeEffectCommit
  | BeforeTaskCompletion
  | DurationHorizon (nanoseconds : Z)
  | BeforeMilestone (name : string)
  | UnknownHorizon.
Inductive InterventionAction :=
  | ObserveAction
  | Warn (message : string)
  | RefreshAuthoritativeState
  | RefreshCredential
  | ReplanAction
  | ReprepareEffect
  | ReconcileEffect
  | ReduceCapability
  | DelayAction
  | AbortPreparedEffect
  | ApplyRecoveryEarly (recovery : string)
  | RunExperimentAction (name : string)
  | SwitchTool (name : string)
  | CustomAction (name : string).
Record FailureForecast := mkForecast {
  forecast_id : string;
  forecast_failure : FailureSignatureRef;
  horizon : ForecastHorizon;
  forecast_signature : string;
  strength : ForecastStrength.t;
  forecast_status : ForecastStatus.t;
  advisory : bool;
}.
Record PreventiveIntervention := mkPreventive {
  preventive_id : string;
  preventive_signature : string;
  action : InterventionAction;
  target_failure : FailureSignatureRef;
  preventive_status : PreventiveInterventionStatus.t;
  disruption : InterventionDisruption.t;
  cost : InterventionCost.t;
  requires_commit_authority : bool;
  preventive_origin : PredictiveOrigin.t;
}.

(** * The configuration *)

Record RuntimeForecastConfig := mkForecastConfig {
  forecast_mode : ForecastRuntimeMode.t;
  forecast_policy : ForecastPolicyProfile.t;
}.
Record ExternalExperienceRuntimePolicy := mkExternal {
  advisory_can_warn : bool;
  advisory_can_trigger_experiment : bool;
  advisory_can_trigger_replan : bool;
  advisory_can_authorize_act : bool;
}.
Record RuntimePolicyConfig := mkConfig {
  profile : RuntimePolicyProfile.t;
  autonomy : RuntimeAutonomy.t;
  config_experiment_mode : ExperimentMode.t;
  external_experience : ExternalExperienceRuntimePolicy;
  forecast : RuntimeForecastConfig;
  version : string;
}.
#[export] Instance forecast_config_eq_dec : EqDecision RuntimeForecastConfig.
Proof. solve_decision. Defined.
#[export] Instance external_eq_dec : EqDecision ExternalExperienceRuntimePolicy.
Proof. solve_decision. Defined.
#[export] Instance config_eq_dec : EqDecision RuntimePolicyConfig.
Proof. solve_decision. Defined.

Definition RUNTIME_POLICY_VERSION : string := "hardknock.runtime-policy.v1".

(** The [Default] values. *)
Definition default_config : RuntimePolicyConfig :=
  mkConfig RuntimePolicyProfile.Balanced RuntimeAutonomy.Advise ExperimentMode.Suggest
    (mkExternal true true false false)
    (mkForecastConfig ForecastRuntimeMode.Advise ForecastPolicyProfile.PredictiveObserve)
    RUNTIME_POLICY_VERSION.

(** * Records with foreign values *)

(** src/bridge/protocol.rs *)
Inductive NormalizedAction `{SerdeJson} :=
  | Shell (command cwd : string)
  | FileRead (path : string)
  | FileWrite (path : string)
  | FileDelete (path : string)
  | ToolCall (tool : string) (arguments : Value)
  | Network (method target : string)
  | CustomNormalized (kind : string) (payload : Value).

(** The texts the guidance shows: the [Display] of an [f64], the derived [Debug]
    of values that carry data, the JSON of an action and the hexadecimal digits of
    a blake3 hash. *)
Class RuntimeTexts `{SerdeJson} := {
  F64 : Type;
  f64_text : F64 -> string;
  debug_capability : ExecutionCapability -> string;
  debug_operation : EffectOperation -> string;
  debug_horizon : ForecastHorizon -> string;
  debug_intervention : InterventionAction -> string;
  action_json : NormalizedAction -> option string;
  blake3_hex : string -> string;
}.

Section guidance.
Context `{RuntimeTexts}.

Record CapabilityContext := mkCapabilityContext {
  missing_capabilities : list ExecutionCapability;
  required_available : bool;
  commit_authority : bool;
  effect_adapter_available : bool;
  isolation_sufficient : bool;
  governance : GovernanceContext;
}.
Record StrategyCandidate := mkStrategy {
  strategy_name : string;
  strategy_description : string;
  strategy_action : option NormalizedAction;
}.
Record RuntimeUncertainty := mkUncertainty {
  uncertainty_level : UncertaintyLevel.t;
  candidate_strategies : list StrategyCandidate;
}.
Record RecoveryRef := mkRecovery {
  recovery_id : string;
  recovery_version : Z;
  recovery_signature : string;
  confidence : F64;
  fresh : bool;
  scope_matches : bool;
}.

(** src/knowledge_runtime/model.rs *)
Record ResolvedKnowledgeRef := mkResolvedRef {
  resolved_artifact : KnowledgeArtifactRef;
  resolved_node : string;
  resolved_role : AppliedKnowledgeRole.t;
  resolved_lineage : list string;
  statement : string;
}.
Record ResolvedRecovery := mkResolvedRecovery {
  recovery_knowledge : ResolvedKnowledgeRef;
  executable : option RecoveryRef;
}.
Record RuntimeKnowledgeResolution := mkResolutionView {
  effective : EffectiveKnowledge;
  constraints : list ResolvedKnowledgeRef;
  antipatterns : list ResolvedKnowledgeRef;
  recoveries : list ResolvedRecovery;
  knowledge_conflicts : list KnowledgeConflict;
  knowledge_snapshot : string;
}.

(** src/causal/model.rs *)
Inductive VariableValue :=
  | Boolean (b : bool)
  | Integer (z : Z)
  | Float (f : F64)
  | Text (s : string).
(** [VariableValue::literal]. *)
Definition literal (v : VariableValue) : string :=
  match v with
  | Boolean b => if b then "true" else "false"
  | Integer z => pretty z
  | Float f => f64_text f
  | Text s => s
  end.
Record Intervention := mkIntervention {
  intervention_id : string;
  variable : string;
  to : VariableValue;
  intervention_rationale : string;
}.
Record InterventionRecommendation := mkRecommendation {
  hypothesis : string;
  intervention : Intervention;
  recommended_recovery : option string;
}.
Record CausalRuntimeGuidance := mkCausal {
  supported_interventions : list InterventionRecommendation;
  causal_gaps : list string;
}.

(** src/plan/model.rs *)
Record PlanRuntimeContext := mkPlanContext {
  plan_run_id : string;
  context_plan : string;
  plan_revision : Z;
  plan_next_step : string;
  plan_validity : option PlanValidityAssessment;
}.

(** The lessons of the relevant experience are their references. *)
Record RuntimeDecisionContext := mkDecisionContext {
  team : option TeamRuntimeContext;
  plan : option PlanRuntimeContext;
  composition_assessment : option CompositionNextStepAssessment;
  operational_knowledge : option RuntimeKnowledgeResolution;
  causal : CausalRuntimeGuidance;
  active_forecasts : list FailureForecast;
  preventive_interventions : list PreventiveIntervention;
  task : TaskDescriptor;
  proposed_action : option NormalizedAction;
  proposed_effect : option (EffectRequest Value);
  relevant_lessons : list LessonRef;
  assurance : AssuranceContext;
  operating_envelope : option OperatingEnvelopeRef;
  capability_context : CapabilityContext;
  risk : RuntimeRiskAssessment;
  uncertainty : RuntimeUncertainty;
  available_recovery : list RecoveryRef;
  available_experiments : ExperimentCapabilitySummary;
  knowledge_signals : KnowledgeSignals;
  applicable_skills : list SkillRef;
  matched_reflexes : list ReflexRef;
  advisory_reflexes : list ReflexRef;
  failure_signature : option FailureSignatureRef;
  externally_supported : bool;
  tool_candidates : list ToolCandidate;
  epistemic : option RuntimeEpistemicSummary;
  diversity_requirements : list RuntimeDiversityRequirement;
}.

(** * Decisions *)

Inductive EvidenceRef :=
  | SkillEvidence (r : SkillRef)
  | LessonEvidence (r : LessonRef)
  | ReflexEvidence (r : ReflexRef)
  | RecoveryEvidence (id : string) (version : Z)
  | CertificationEvidence (id : string)
  | OperatingEnvelopeEvidence (id : string) (version : Z)
  | ExternalAdvisory (text : string)
  | ExperienceEvidence (id : string)
  | CustomEvidence (text : string).

Inductive DecisionReason :=
  | ForecastedFailure (forecast failure : string)
  | ValidatedPreventiveIntervention (id : string)
  | ForecastUncertain (id : string)
  | ForecastFalsePositiveHistory (id : string)
  | CausalMechanismSupported (hypothesis intervention : string)
  | UnresolvedFailureMechanism
  | ValidatedSkillApplicable
  | InsideOperatingEnvelope
  | RelevantLessonMatched
  | ReflexMatched
  | RecoveryAvailable
  | EvidenceInsufficient
  | EvidenceContradicted
  | EvidenceStale
  | OutsideOperatingEnvelope
  | UnknownOperatingRegion
  | AssuranceCurrent
  | AssuranceExpired
  | CriticalInvariantRisk
  | SafeExperimentAvailable
  | ExperimentBudgetUnavailable
  | CapabilityUnavailable
  | CommitAuthorityRequired
  | HighRiskEffect
  | ExternalEvidenceAdvisoryOnly
  | EvidenceDiversityInsufficient
  | HardPolicyPrecedence
  | CustomReason (text : string).

Inductive DecisionBlocker :=
  | HardPolicyProhibition (text : string)
  | MissingCapability (text : string)
  | MissingCommitAuthority
  | InsufficientIsolation
  | CriticalAssuranceGap (text : string)
  | UnresolvedContradiction
  | UnsafeExperiment
  | ExhaustedBudget
  | UnsupportedEffectAdapter
  | InsufficientEvidenceDiversity (current required : DiversityClass.t).

Inductive RequestedAuthority :=
  | CommitEffect
  | ExecuteCapability (text : string)
  | UserApproval
  | ExternalPolicy (text : string).

Record RuntimeAlternative := mkAlternative { alternative_name : string; alternative_description : string }.

Record ActDecision := mkAct {
  recommended_action : option NormalizedAction;
  act_skills : list SkillRef;
  act_lessons : list LessonRef;
  act_assurance : AssuranceSummary;
  act_evidence : list EvidenceRef;
  recommended_tool : option string;
  warning : option string;
}.
Record ExperimentDecision := mkExperiment {
  experiment_reason : string;
  question : string;
  candidates : list StrategyCandidate;
  decision_budget : ExperienceBudget;
  requirements : RealityRequirements;
  automatic : bool;
  evidence_requirement : option EvidenceRequirement;
}.
Record ReplanDecision := mkReplan {
  replan_reason : string;
  replan_reflexes : list ReflexRef;
  replan_lessons : list LessonRef;
  excluded_actions : list ActionPattern;
}.
Record RecoverDecision := mkRecover {
  recovery : RecoveryRef;
  recover_signature : FailureSignatureRef;
  recover_confidence : F64;
  recover_evidence : list EvidenceRef;
}.
Record ApprovalDecision := mkApproval {
  approval_text : string;
  requested_authority : RequestedAuthority;
  evidence_summary : string;
  approval_risk : RuntimeRiskAssessment;
  approval_alternatives : list RuntimeAlternative;
}.
Record AbstentionDecision := mkAbstention {
  abstention_reason : AbstentionReason.t;
  missing_evidence : list AssuranceGap;
  unresolved_risks : list DecisionBlocker;
  possible_next_steps : list RuntimeAlternative;
}.

Inductive RuntimeDecision :=
  | Act (d : ActDecision)
  | Experiment (d : ExperimentDecision)
  | Replan (d : ReplanDecision)
  | Recover (d : RecoverDecision)
  | RequireApproval (d : ApprovalDecision)
  | Abstain (d : AbstentionDecision).

(** [RuntimeDecision::kind]. *)
Definition decision_kind (d : RuntimeDecision) : RuntimeDecisionKind.t :=
  match d with
  | Act _ => RuntimeDecisionKind.Act
  | Experiment _ => RuntimeDecisionKind.Experiment
  | Replan _ => RuntimeDecisionKind.Replan
  | Recover _ => RuntimeDecisionKind.Recover
  | RequireApproval _ => RuntimeDecisionKind.RequireApproval
  | Abstain _ => RuntimeDecisionKind.Abstain
  end.

Record RuntimeDecisionEvaluation := mkEvaluation {
  decision : RuntimeDecision;
  evaluation_reasons : list DecisionReason;
  evaluation_evidence : list EvidenceRef;
  evaluation_blockers : list DecisionBlocker;
  knowledge : KnowledgeState.t;
  policy_version : string;
  disposition : GovernanceDisposition.t;
}.

(** The context with the knowledge signals replaced. *)
Definition with_signals (s : KnowledgeSignals) (c : RuntimeDecisionContext) : RuntimeDecisionContext :=
  mkDecisionContext (team c) (plan c) (composition_assessment c) (operational_knowledge c) (causal c)
    (active_forecasts c) (preventive_interventions c) (task c) (proposed_action c) (proposed_effect c)
    (relevant_lessons c) (assurance c) (operating_envelope c) (capability_context c) (risk c)
    (uncertainty c) (available_recovery c) (available_experiments c) s (applicable_skills c)
    (matched_reflexes c) (advisory_reflexes c) (failure_signature c) (externally_supported c)
    (tool_candidates c) (epistemic c) (diversity_requirements c).
End guidance.
