(* ===== verification/RuntimePolicy.v ===== *)
(** The deterministic runtime policy of src/runtime/policy.rs: which of the six
    decisions (act, experiment, replan, recover, require approval, abstain) follows
    from a decision context. [evaluate] goes through its stages in order; a stage
    may return the evaluation, and otherwise leaves reasons and blockers behind. *)
From S2P Require Import Prelude Semver Scope Hierarchy EconomicsModel EffectModel CapabilityModel PlanModel.
From S2P Require Import PlanValidity RuntimeModel.

(** * Text and order *)

(** [str::trim]: [trim_start] drops the leading characters with the White_Space
    property, [trim_end] the trailing ones. *)
Fixpoint trim_start (s : string) : string :=
  match s with
  | EmptyString => EmptyString
  | String a rest =>
      let n := Ascii.nat_of_ascii a in
      if (9 <=? n) && (n <=? 13) || (n =? 32) then trim_start rest
      else match rest with
      | String b rest' =>
          let m := Ascii.nat_of_ascii b in
          if n =? 194 then if (m =? 133) || (m =? 160) then trim_start rest' else s
          else match rest' with
          | String c rest'' =>
              if blank (String a (String b (String c EmptyString))) then trim_start rest'' else s
          | EmptyString => s
          end
      | EmptyString => s
      end
  end.
Fixpoint trim_end (s : string) : string :=
  match s with
  | EmptyString => EmptyString
  | String a rest => if blank s then EmptyString else String a (trim_end rest)
  end.
Definition trim (s : string) : string := trim_end (trim_start s).

(** [Iterator::min_by_key]: the first of the least elements. *)
Definition min_by_key {A K} `{Ord K} (f : A -> K) (l : list A) : option A :=
  match l with
  | [] => None
  | x :: l' => Some (foldl (fun x y => match ord_cmp (f y) (f x) with Lt => y | _ => x end) x l')
  end.

(** [!is_empty()] *)
Definition nonempty {A} (l : list A) : bool := match l with [] => false | _ :: _ => true end.

(** [severity >= Medium] and [severity <= Low]; [severe] is [severity >= High]. *)
Definition at_least_medium (s : Severity.t) : bool := bool_decide (ord_le Severity.Medium s).
Definition at_most_low (s : Severity.t) : bool := bool_decide (ord_le s Severity.Low).

Section policy.
Context `{RuntimeTexts}.
Implicit Types (c : RuntimeDecisionContext) (cfg : RuntimePolicyConfig).

(** * Assessments of the context *)

Definition expected_learning_value c : ExpectedLearningValue.t :=
  let reusable := bool_decide (is_Some (family (task c))) in
  let material_gap :=
    nonempty (gaps (assurance c)) || local_contradicted (knowledge_signals c) ||
    evidence_stale (knowledge_signals c) || negb (local_supported (knowledge_signals c)) in
  let expensive :=
    match max_duration_ms (experiment_budget (available_experiments c)) with
    | Some duration => (300000 <? duration)%Z
    | None => false
    end || (3 <? max_realities (experiment_budget (available_experiments c)))%Z in
  match uncertainty_level (uncertainty c), at_least_medium (risk_severity (risk c)), reusable, material_gap, expensive with
  | (UncertaintyLevel.High | UncertaintyLevel.Unknown), true, true, true, false => ExpectedLearningValue.High
  | _, _, _, false, _ | UncertaintyLevel.Low, false, false, _, _ => ExpectedLearningValue.Low
  | _, _, _, _, _ => ExpectedLearningValue.Medium
  end.

Definition classify c : KnowledgeState.t :=
  let s := knowledge_signals c in
  if negb (context_in_scope s) then KnowledgeState.OutOfScope
  else if local_supported s && local_contradicted s then KnowledgeState.KnownContradicted
  else if local_supported s && evidence_stale s then KnowledgeState.KnownStale
  else if (local_supported s || validated_skill s || applicable_lesson s) &&
    negb (remote_advisory_only s) && negb (known_gap_matches s) then KnowledgeState.KnownSupported
  else KnowledgeState.Unknown.

Definition debug_kind (k : EffectKind.t) : string :=
  match k with
  | EffectKind.Filesystem => "Filesystem" | EffectKind.Process => "Process"
  | EffectKind.Database => "Database" | EffectKind.HttpApi => "HttpApi"
  | EffectKind.CloudResource => "CloudResource" | EffectKind.Message => "Message"
  | EffectKind.Deployment => "Deployment" | EffectKind.Custom => "Custom"
  end.

Definition kind_exposure (k : EffectKind.t) : ExternalityClass.t * ReversibilityClass.t :=
  match k with
  | EffectKind.Message => (ExternalityClass.HumanVisible, ReversibilityClass.Irreversible)
  | EffectKind.Deployment | EffectKind.CloudResource | EffectKind.HttpApi =>
      (ExternalityClass.ExternalSystem, ReversibilityClass.Compensatable)
  | EffectKind.Database => (ExternalityClass.ExternalSystem, ReversibilityClass.Compensatable)
  | EffectKind.Filesystem | EffectKind.Process =>
      (ExternalityClass.HostLocal, ReversibilityClass.NaturallyReversible)
  | EffectKind.Custom => (ExternalityClass.Unknown, ReversibilityClass.Unknown)
  end.
Definition operation_risk (o : EffectOperation) : EffectRisk.t :=
  match o with
  | Read => EffectRisk.ReadOnly
  | Create | Update | Post => EffectRisk.Medium
  | Delete | Dispatch | Promote => EffectRisk.High
  | Custom _ => EffectRisk.Critical
  end.
Definition risk_severity_of (r : EffectRisk.t) : Severity.t :=
  match r with
  | EffectRisk.ReadOnly => Severity.Low
  | EffectRisk.Low => Severity.Low
  | EffectRisk.Medium => Severity.Medium
  | EffectRisk.High => Severity.High
  | EffectRisk.Critical => Severity.Critical
  end.
Definition assess c : RuntimeRiskAssessment :=
  match proposed_effect c with
  | None => risk c
  | Some effect =>
      let '(externality, reversibility) := kind_exposure (req_kind effect) in
      let er := operation_risk (req_operation effect) in
      mkRisk (risk_severity_of er) reversibility externality (assurance_requirement (risk c)) (Some er)
        ["Structured " +:+ debug_kind (req_kind effect) +:+ " " +:+ debug_operation (req_operation effect) +:+
         " effect targets " +:+ uri (req_target effect)]
  end.

(** * The configuration *)

Definition bool_text (b : bool) : string := if b then "true" else "false".
Definition config_material cfg : string :=
  RuntimePolicyProfile.debug (profile cfg) +:+ "|" +:+ RuntimeAutonomy.debug (autonomy cfg) +:+ "|" +:+
  ExperimentMode.debug (config_experiment_mode cfg) +:+ "|" +:+
  bool_text (advisory_can_warn (external_experience cfg)) +:+ "|" +:+
  bool_text (advisory_can_trigger_experiment (external_experience cfg)) +:+ "|" +:+
  bool_text (advisory_can_trigger_replan (external_experience cfg)) +:+ "|" +:+
  bool_text (advisory_can_authorize_act (external_experience cfg)) +:+ "|" +:+
  ForecastRuntimeMode.debug (forecast_mode (forecast cfg)) +:+ "|" +:+
  ForecastPolicyProfile.debug (forecast_policy (forecast cfg)).
Definition refresh_version cfg : RuntimePolicyConfig :=
  mkConfig (profile cfg) (autonomy cfg) (config_experiment_mode cfg) (external_experience cfg) (forecast cfg)
    (RUNTIME_POLICY_VERSION +:+ ":" +:+ String.substring 0 16 (blake3_hex (config_material cfg))).
Definition validate_config cfg : result unit :=
  if blank (version cfg) || bool_decide (128 < String.length (version cfg))
  then Err (InvalidInput "Runtime policy version must be bounded and nonempty") else Ok tt.
(** [DeterministicRuntimeController::with_config]: the configuration of its policy. *)
Definition with_config cfg : result RuntimePolicyConfig :=
  _ ← validate_config (refresh_version cfg); Ok (refresh_version cfg).

Inductive MatrixDisposition := MatrixAct | ActWithWarning | MatrixExperiment | ApprovalOrExperiment | MatrixAbstain.

Definition matrix (p : RuntimePolicyProfile.t) (k : KnowledgeState.t) (s : Severity.t) : MatrixDisposition :=
  match p, k, s with
  | _, KnowledgeState.KnownSupported, (Severity.Informational | Severity.Low | Severity.Medium) => MatrixAct
  | _, KnowledgeState.KnownSupported, (Severity.High | Severity.Critical) => ApprovalOrExperiment

  | RuntimePolicyProfile.Developer, (KnowledgeState.Unknown | KnowledgeState.KnownStale | KnowledgeState.OutOfScope),
      (Severity.Informational | Severity.Low | Severity.Medium) => ActWithWarning
  | RuntimePolicyProfile.Developer, (KnowledgeState.Unknown | KnowledgeState.KnownStale | KnowledgeState.OutOfScope),
      Severity.High => MatrixExperiment
  | RuntimePolicyProfile.Developer, (KnowledgeState.Unknown | KnowledgeState.KnownStale | KnowledgeState.OutOfScope),
      Severity.Critical => ApprovalOrExperiment

  | RuntimePolicyProfile.Balanced, KnowledgeState.Unknown, (Severity.Informational | Severity.Low) => ActWithWarning
  | RuntimePolicyProfile.Balanced, (KnowledgeState.Unknown | KnowledgeState.KnownStale | KnowledgeState.OutOfScope),
      Severity.Medium => MatrixExperiment
  | RuntimePolicyProfile.Balanced, (KnowledgeState.Unknown | KnowledgeState.KnownStale | KnowledgeState.OutOfScope),
      (Severity.High | Severity.Critical) => ApprovalOrExperiment
  | RuntimePolicyProfile.Balanced, (KnowledgeState.KnownStale | KnowledgeState.OutOfScope),
      (Severity.Informational | Severity.Low) => ActWithWarning

  | RuntimePolicyProfile.Conservative, (KnowledgeState.Unknown | KnowledgeState.KnownStale | KnowledgeState.OutOfScope),
      (Severity.Informational | Severity.Low) => ActWithWarning
  | RuntimePolicyProfile.Conservative, (KnowledgeState.Unknown | KnowledgeState.KnownStale | KnowledgeState.OutOfScope),
      Severity.Medium => MatrixExperiment
  | RuntimePolicyProfile.Conservative, (KnowledgeState.Unknown | KnowledgeState.KnownStale | KnowledgeState.OutOfScope),
      (Severity.High | Severity.Critical) => MatrixAbstain

  | _, KnowledgeState.KnownContradicted, (Severity.Informational | Severity.Low | Severity.Medium) => MatrixExperiment
  | _, KnowledgeState.KnownContradicted, (Severity.High | Severity.Critical) => MatrixAbstain
  end.

(** * The parts of a decision *)

Definition evidence c : list EvidenceRef :=
  (SkillEvidence <$> applicable_skills c) ++ (LessonEvidence <$> relevant_lessons c) ++
  (ReflexEvidence <$> matched_reflexes c) ++ (ReflexEvidence <$> advisory_reflexes c) ++
  match certification (summary (assurance c)) with
  | Some id => [CertificationEvidence id]
  | None => []
  end ++
  match operating_envelope c with
  | Some envelope => [OperatingEnvelopeEvidence (envelope_id envelope) (envelope_version envelope)]
  | None => []
  end ++
  if externally_supported c
  then [ExternalAdvisory "compatible remote evidence remains locally unvalidated"] else [].

Definition alternatives : list RuntimeAlternative :=
  [mkAlternative "inspect" "Inspect the evidence, risk dimensions, and requested authority";
   mkAlternative "experiment" "Use a disposable Reality if the effect can be virtualized safely";
   mkAlternative "narrow" "Choose a reversible action with less authority"].

Definition proposed_action_patterns c : list ActionPattern :=
  match proposed_action c with
  | Some (Shell command _) => [ShellCommand (trim command)]
  | Some (FileWrite path) | Some (FileDelete path) => [FileOperation path]
  | Some a => [CustomPattern "normalized_action" (default "unavailable" (action_json a))]
  | None => []
  end.

Definition matching_diversity_requirement c : option RuntimeDiversityRequirement :=
  List.find (fun r => bool_decide (requirement_pattern r ∈ proposed_action_patterns c)) (diversity_requirements c).

Definition with_max_realities (n : Z) (b : ExperienceBudget) : ExperienceBudget :=
  mkBudget n (max_agent_runs b) (max_duration_ms b) (max_commands_per_reality b) (max_curriculum_trials b)
    (max_parallel_trials b) (max_human_approvals b) (allowed_effect_risk b).

Definition desired_realities c : Z :=
  match uncertainty_level (uncertainty c), risk_severity (risk c), bool_decide (is_Some (family (task c))) with
  | (UncertaintyLevel.High | UncertaintyLevel.Unknown), Severity.High, true => 3
  | UncertaintyLevel.Low, _, _ => 1
  | _, _, _ => 2
  end%Z.

Definition experiment c (reason : string) : RuntimeDecision :=
  let budget := experiment_budget (available_experiments c) in
  Experiment (mkExperiment reason ("Which bounded strategy best resolves: " +:+ reason +:+ "?")
    (take 3 (candidate_strategies (uncertainty c)))
    (with_max_realities (Z.min (max_realities budget) (desired_realities c)) budget)
    (experiment_requirements (available_experiments c))
    (bool_decide (experiment_mode (available_experiments c) = ExperimentMode.Automatic))
    match epistemic c with
    | Some e =>
        (fun r => mkEvidenceRequirement (epistemic_claim e) (Some (requirement_minimum r))
          [EvidenceSourceKind.Experiment; EvidenceSourceKind.StaticCheck]) <$> matching_diversity_requirement c
    | None => None
    end).

Definition abstain c (reason : AbstentionReason.t) (b : list DecisionBlocker) : RuntimeDecision :=
  Abstain (mkAbstention reason (gaps (assurance c)) b alternatives).

Definition approval c (reason : string) : RuntimeDecision :=
  RequireApproval (mkApproval reason
    match proposed_effect c with Some _ => CommitEffect | None => UserApproval end
    ("knowledge=" +:+ KnowledgeState.debug (classify c) +:+ "; assurance=" +:+
      AssuranceRuntimeStatus.debug (assurance_status (summary (assurance c))) +:+ "; local evidence items=" +:+
      pretty (length (relevant_lessons c) + length (applicable_skills c))%nat)
    (risk c) alternatives).

Definition tool_key (t : ToolCandidate) : Z * Z * string :=
  ((if current_assurance t then 0 else 1)%Z, capability_width t, tool_name t).
Definition act c (warning : option string) : RuntimeDecision :=
  Act (mkAct (proposed_action c) (applicable_skills c) (relevant_lessons c) (summary (assurance c)) (evidence c)
    (tool_name <$> min_by_key tool_key (List.filter satisfies_task (tool_candidates c))) warning).

(** A [ReplanDecision] that only gives its reason, and one on the proposed action. *)
Definition replan_for (reason : string) : RuntimeDecision := Replan (mkReplan reason [] [] []).
Definition replan_away c (reason : string) (reflexes : list ReflexRef) : RuntimeDecision :=
  Replan (mkReplan reason reflexes (relevant_lessons c) (proposed_action_patterns c)).

Definition knowledge_reason (k : KnowledgeState.t) : string :=
  match k with
  | KnowledgeState.KnownSupported => "supported evidence needs a bounded high-risk check"
  | KnowledgeState.KnownContradicted => "compatible evidence materially contradicts itself"
  | KnowledgeState.KnownStale => "applicable evidence is stale in the current environment"
  | KnowledgeState.Unknown => "applicable empirical evidence is insufficient"
  | KnowledgeState.OutOfScope => "current context is outside the evidence or certification scope"
  end.

Definition critical_gap (g : AssuranceGap) : bool :=
  match gap_severity g with Some s => severe s | None => false end ||
  match gap_kind g with
  | AssuranceGapKind.ContractInconclusive | AssuranceGapKind.ContradictoryEvidence
  | AssuranceGapKind.UnsupportedEffect | AssuranceGapKind.UnsupportedIsolation => true
  | _ => false
  end.
Definition critical_assurance_blockers c : list DecisionBlocker :=
  match gaps (assurance c) with
  | [] => [CriticalAssuranceGap "No current applicable assurance supports this consequential action"]
  | l => (fun g => CriticalAssuranceGap (gap_description g)) <$> List.filter critical_gap l
  end.
End policy.
