(* ===== verification/RuntimeGuide.v ===== *)
(** [DeterministicRuntimeDecisionPolicy::evaluate] of src/runtime/policy.rs, one
    definition per stage. The reasons and blockers collected so far are the
    state of the evaluation; [stop] is an early [return]. *)
From S2P Require Import Prelude Semver Scope Hierarchy EconomicsModel EffectModel CapabilityModel PlanModel.
From S2P Require Import PlanValidity RuntimeModel RuntimePolicy.

Section guide.
Context `{RuntimeTexts}.
Implicit Types (c : RuntimeDecisionContext) (cfg : RuntimePolicyConfig).

Record Trace := mkTrace { trace_reasons : list DecisionReason; trace_blockers : list DecisionBlocker }.

Definition guide (A : Type) : Type := Trace -> RuntimeDecisionEvaluation + A * Trace.
#[global] Instance guide_ret : MRet guide := fun A a t => inr (a, t).
#[global] Instance guide_bind : MBind guide := fun A B f m t =>
  match m t with inl e => inl e | inr (a, t') => f a t' end.

Definition push_reason (r : DecisionReason) : guide unit := fun t =>
  inr (tt, mkTrace (trace_reasons t ++ [r]) (trace_blockers t)).
Definition extend_blockers (l : list DecisionBlocker) : guide unit := fun t =>
  inr (tt, mkTrace (trace_reasons t) (trace_blockers t ++ l)).
Definition push_blocker (b : DecisionBlocker) : guide unit := extend_blockers [b].
(** The blockers of one decision in place of the collected ones. *)
Definition set_blockers (l : list DecisionBlocker) : guide unit := fun t =>
  inr (tt, mkTrace (trace_reasons t) l).

Definition finish cfg (d : RuntimeDecision) (k : KnowledgeState.t) (reasons : list DecisionReason)
    (evidence : list EvidenceRef) (blockers : list DecisionBlocker) (g : GovernanceDisposition.t) :
    RuntimeDecisionEvaluation :=
  mkEvaluation d reasons evidence blockers k (version cfg) g.

(** [return Ok(self.finish(..))] with what was collected; a decision may carry the
    blockers. *)
Definition stop_as {A} (k : KnowledgeState.t) cfg c (d : list DecisionBlocker -> RuntimeDecision)
    (g : GovernanceDisposition.t) : guide A := fun t =>
  inl (finish cfg (d (trace_blockers t)) k (trace_reasons t) (evidence c) (trace_blockers t) g).
Definition stop {A} cfg c : (list DecisionBlocker -> RuntimeDecision) -> GovernanceDisposition.t -> guide A :=
  stop_as (classify c) cfg c.

Definition high_risk c : bool := severe (risk_severity (risk c)).
Definition gov c : GovernanceContext := governance (capability_context c).
Definition recommend : GovernanceDisposition.t := GovernanceDisposition.RuntimeRecommendation.
(** The disposition of the stages that may turn their decision into an approval. *)
Definition approval_disposition c : GovernanceDisposition.t :=
  if approval_required (gov c) then GovernanceDisposition.ApprovalOverride else recommend.

(** * Security *)

Definition hard_policy_stage cfg c : guide unit :=
  if hard_policy_blocked (gov c) then
    let reason := default "External hard policy prohibits the action" (block_reason (gov c)) in
    push_reason HardPolicyPrecedence;;
    push_blocker (HardPolicyProhibition reason);;
    stop cfg c (abstain c AbstentionReason.ExternalPolicyProhibition) GovernanceDisposition.SecurityBlocked
  else mret tt.

Definition capability_stage cfg c : guide unit :=
  if negb (required_available (capability_context c)) ||
     nonempty (missing_capabilities (capability_context c)) then
    push_reason CapabilityUnavailable;;
    extend_blockers ((fun k => MissingCapability (debug_capability k)) <$> missing_capabilities (capability_context c));;
    stop cfg c (abstain c AbstentionReason.InsufficientIsolation) GovernanceDisposition.SecurityBlocked
  else mret tt.

Definition isolation_stage cfg c : guide unit :=
  if negb (isolation_sufficient (capability_context c)) && high_risk c then
    push_reason CapabilityUnavailable;;
    push_blocker InsufficientIsolation;;
    stop cfg c (abstain c AbstentionReason.InsufficientIsolation) GovernanceDisposition.SecurityBlocked
  else mret tt.

Definition has_effect c : bool := match proposed_effect c with Some _ => true | None => false end.
Definition adapter_stage cfg c : guide unit :=
  if has_effect c && negb (effect_adapter_available (capability_context c)) then
    push_reason CapabilityUnavailable;;
    push_blocker UnsupportedEffectAdapter;;
    if high_risk c then
      stop cfg c (abstain c AbstentionReason.UnsupportedEffect) GovernanceDisposition.SecurityBlocked
    else mret tt
  else mret tt.

Definition team_allowed (t : TeamRuntimeContext) : bool :=
  match team_assessment t with Some a => allowed a | None => false end.
Definition team_stage cfg c : guide unit :=
  match team c with
  | Some t =>
      if negb (team_allowed t) then
        push_reason CapabilityUnavailable;;
        push_blocker (MissingCapability "Team role or delegation authority is not established");;
        stop cfg c (abstain c AbstentionReason.CriticalUnknown) GovernanceDisposition.SecurityBlocked
      else mret tt
  | None => mret tt
  end.

(** * Plans, compositions and operational knowledge *)

Definition plan_valid (p : PlanRuntimeContext) : bool :=
  match plan_validity p with
  | Some a => match as_status a with
              | PlanValidityStatus.Valid | PlanValidityStatus.ValidWithWarnings => true
              | _ => false
              end
  | None => false
  end.
Definition plan_asks_approval (p : PlanRuntimeContext) : bool :=
  match plan_validity p with
  | Some a => bool_decide (PlanValidityBlocker.ApprovalRequired ∈ blockers a)
  | None => false
  end.
Definition plan_asks_replan (p : PlanRuntimeContext) : bool :=
  match plan_validity p with
  | Some a => bool_decide (as_status a = PlanValidityStatus.ReplanRequired)
  | None => false
  end.
Definition plan_stage cfg c : guide unit :=
  match plan c with
  | Some p =>
      if negb (plan_valid p) then
        stop cfg c (fun b =>
          if approval_required (gov c) || plan_asks_approval p
          then approval c "Plan commitment requires current external approval"
          else if plan_asks_replan p
          then replan_for "Plan dependencies changed; revise the remaining plan"
          else abstain c AbstentionReason.CriticalUnknown b) recommend
      else mret tt
  | None => mret tt
  end.

Definition composition_stage cfg c : guide unit :=
  match composition_assessment c with
  | Some a =>
      if nonempty (findings a) || nonempty (composition_unknown a) then
        stop cfg c (fun _ =>
          if approval_required (gov c) then approval c "External approval required for composition step"
          else replan_for ("Composition step requires review: " +:+
            String.concat "; " (findings a ++ composition_unknown a))) (approval_disposition c)
      else mret tt
  | None => mret tt
  end.

(** The executable recovery of the first item that is fresh, in scope and for this
    failure. *)
Definition usable_recovery (failure : FailureSignatureRef) (r : ResolvedRecovery) : option RecoveryRef :=
  match executable r with
  | Some e => if fresh e && scope_matches e && bool_decide (recovery_signature e = signature failure)
              then Some e else None
  | None => None
  end.
Fixpoint find_map {A B} (f : A -> option B) (l : list A) : option B :=
  match l with
  | [] => None
  | x :: l' => match f x with Some y => Some y | None => find_map f l' end
  end.

Definition recovery_guidance (failure : FailureSignatureRef) (k : RuntimeKnowledgeResolution) : option RuntimeDecision :=
  match find_map (usable_recovery failure) (recoveries k) with
  | Some r => Some (Recover (mkRecover r failure (confidence r) []))
  | None =>
      match recoveries k with
      | r :: _ => Some (replan_for ("Recovery guidance requires a concrete procedure: " +:+ statement (recovery_knowledge r)))
      | [] => None
      end
  end.

Definition conflict_decision c : RuntimeDecision :=
  if can_experiment (available_experiments c) && negb (high_risk c) then
    Experiment (mkExperiment "Resolve conflicting operational knowledge"
      "Which scoped guidance survives controlled comparison?" (candidate_strategies (uncertainty c))
      (experiment_budget (available_experiments c)) (experiment_requirements (available_experiments c)) false None)
  else approval c "Unresolved operational knowledge conflict requires review".

Definition guidance_decision (k : RuntimeKnowledgeResolution) : option RuntimeDecision :=
  if nonempty (constraints k) || nonempty (antipatterns k)
  then Some (replan_for ("Applicable operational guidance: " +:+
         String.concat "; " (statement <$> constraints k ++ antipatterns k)))
  else None.

Definition knowledge_decision c (k : RuntimeKnowledgeResolution) : option RuntimeDecision :=
  if approval_required (gov c) then
    Some (approval c "External governance requires approval; learned evidence does not grant authority")
  else if nonempty (knowledge_conflicts k) then Some (conflict_decision c)
  else
    match failure_signature c, recoveries k with
    | Some failure, _ :: _ => recovery_guidance failure k
    | _, _ => guidance_decision k
    end.

Definition knowledge_stage cfg c : guide unit :=
  match operational_knowledge c with
  | Some k =>
      push_reason (CustomReason ("Knowledge snapshot " +:+ knowledge_snapshot k +:+ "; " +:+
        pretty (length (eff_applied (effective k))) +:+ " applied, " +:+
        pretty (length (eff_suppressed (effective k))) +:+ " suppressed, " +:+
        pretty (length (eff_unknown (effective k))) +:+ " unknown"));;
      match knowledge_decision c k with
      | Some d => stop cfg c (fun _ => d) (approval_disposition c)
      | None => mret tt
      end
  | None => mret tt
  end.

(** * Forecasts *)

Definition forecast_enabled cfg : bool :=
  match forecast_mode (forecast cfg) with
  | ForecastRuntimeMode.Advise | ForecastRuntimeMode.Prevent => true
  | _ => false
  end.
Definition forecast_key (f : FailureForecast) : ForecastStatus.t * ForecastStrength.t :=
  (forecast_status f, strength f).
Definition leading_forecast c : option FailureForecast :=
  max_by_key forecast_key (List.filter (fun f => ForecastStatus.is_active (forecast_status f)) (active_forecasts c)).

Definition prevents (f : FailureForecast) (i : PreventiveIntervention) : bool :=
  ForecastStatus.is_actionable (forecast_status f) && negb (advisory f) &&
  bool_decide (preventive_signature i = forecast_signature f) &&
  bool_decide (target_failure i = forecast_failure f) &&
  bool_decide (preventive_status i = PreventiveInterventionStatus.Validated) &&
  bool_decide (preventive_origin i = PredictiveOrigin.Local_).
Definition preventive_key (i : PreventiveIntervention) : InterventionDisruption.t * InterventionCost.t * string :=
  (disruption i, cost i, preventive_id i).
Definition preventive_for c (f : FailureForecast) : option PreventiveIntervention :=
  min_by_key preventive_key (List.filter (prevents f) (preventive_interventions c)).

Definition warning_text (f : FailureForecast) : string :=
  "Early warning " +:+ ForecastStatus.debug (forecast_status f) +:+ " for " +:+ signature (forecast_failure f).
Definition advise_stage cfg c (f : FailureForecast) : guide unit :=
  match preventive_for c f with
  | Some i =>
      push_reason (ValidatedPreventiveIntervention (preventive_id i));;
      stop cfg c (fun _ => act c (Some (warning_text f +:+ "; consider preventive action " +:+
        debug_intervention (action i)))) recommend
  | None =>
      push_reason (ForecastUncertain (forecast_id f));;
      stop cfg c (fun _ => act c (Some (warning_text f +:+ "; continue only with forecast monitoring"))) recommend
  end.

Definition adaptive cfg : bool :=
  match autonomy cfg with RuntimeAutonomy.Adaptive | RuntimeAutonomy.Governed => true | _ => false end.
Definition overreaction c (i : PreventiveIntervention) : bool :=
  at_most_low (risk_severity (risk c)) && bool_decide (ord_le InterventionDisruption.High (disruption i)).
Definition prevent_stage cfg c (f : FailureForecast) (i : PreventiveIntervention) : guide unit :=
  push_reason (ValidatedPreventiveIntervention (preventive_id i));;
  if requires_commit_authority i && negb (commit_authority (capability_context c)) then
    push_reason CommitAuthorityRequired;;
    push_blocker MissingCommitAuthority;;
    stop cfg c (fun _ => approval c ("Forecast " +:+ forecast_id f +:+ " is valid, but preventive action " +:+
      debug_intervention (action i) +:+ " requires external commit authority")) GovernanceDisposition.ApprovalOverride
  else if negb (overreaction c i) && bool_decide (ord_le ForecastStrength.Moderate (strength f)) && adaptive cfg then
    stop cfg c (fun _ => replan_away c ("Forecast " +:+ forecast_id f +:+ " anticipates " +:+
      signature (forecast_failure f) +:+ " within " +:+ debug_horizon (horizon f) +:+
      "; use validated preventive action " +:+ debug_intervention (action i)) []) recommend
  else mret tt.

Definition imminent_stage cfg c (f : FailureForecast) : guide unit :=
  push_reason (ForecastUncertain (forecast_id f));;
  if negb (advisory f) && bool_decide (forecast_status f = ForecastStatus.Imminent) && high_risk c then
    set_blockers [UnsafeExperiment];;
    stop cfg c (abstain c AbstentionReason.CriticalUnknown) recommend
  else mret tt.

Definition forecast_stage cfg c : guide unit :=
  if forecast_enabled cfg then
    match leading_forecast c with
    | Some f =>
        push_reason (ForecastedFailure (forecast_id f) (signature (forecast_failure f)));;
        if bool_decide (forecast_mode (forecast cfg) = ForecastRuntimeMode.Advise) then advise_stage cfg c f
        else match preventive_for c f with
             | Some i => prevent_stage cfg c f i
             | None => imminent_stage cfg c f
             end
    | None => mret tt
    end
  else mret tt.

(** * Failures *)

Definition recover_with (failure : FailureSignatureRef) (r : RecoveryRef) : RuntimeDecision :=
  Recover (mkRecover r failure (confidence r) [RecoveryEvidence (recovery_id r) (recovery_version r)]).

Definition guided_recovery c (failure : FailureSignatureRef) (g : InterventionRecommendation) : option RecoveryRef :=
  List.find (fun r => bool_decide (recommended_recovery g = Some (recovery_id r)) && fresh r && scope_matches r &&
    bool_decide (recovery_signature r = signature failure)) (available_recovery c).
Definition mechanism_decision c (failure : FailureSignatureRef) (g : InterventionRecommendation) : RuntimeDecision :=
  match guided_recovery c failure g with
  | Some r => recover_with failure r
  | None =>
      replan_away c ("Supported scoped mechanism " +:+ hypothesis g +:+ ": " +:+
        intervention_rationale (intervention g) +:+ " (set " +:+ variable (intervention g) +:+ " to " +:+
        literal (to (intervention g)) +:+ ")") []
  end.
Definition causal_stage cfg c : guide unit :=
  match failure_signature c with
  | Some failure =>
      match supported_interventions (causal c) with
      | g :: _ =>
          push_reason (CausalMechanismSupported (hypothesis g) (intervention_id (intervention g)));;
          stop cfg c (fun _ => mechanism_decision c failure g) recommend
      | [] =>
          if nonempty (causal_gaps (causal c)) && high_risk c then
            push_reason UnresolvedFailureMechanism;;
            stop cfg c (fun b =>
              if can_experiment (available_experiments c)
              then experiment c "Discriminate unresolved failure mechanisms before applying speculative Recovery"
              else abstain c AbstentionReason.NoValidatedRecovery b) recommend
          else mret tt
      end
  | None => mret tt
  end.

Definition matching_recovery c (failure : FailureSignatureRef) : option RecoveryRef :=
  List.find (fun r => bool_decide (recovery_signature r = signature failure) && scope_matches r) (available_recovery c).
Definition recovery_stage cfg c : guide unit :=
  match failure_signature c with
  | Some failure =>
      match matching_recovery c failure with
      | Some r =>
          push_reason RecoveryAvailable;;
          if fresh r then stop cfg c (fun _ => recover_with failure r) recommend
          else
            push_reason EvidenceStale;;
            if can_experiment (available_experiments c) then
              push_reason SafeExperimentAvailable;;
              stop_as KnowledgeState.KnownStale cfg c
                (fun _ => experiment c "the matching Recovery evidence is stale") recommend
            else mret tt
      | None => mret tt
      end
  | None => mret tt
  end.

(** * Precursors and the operating envelope *)

Definition reflex_stage cfg c : guide unit :=
  if nonempty (matched_reflexes c) then
    push_reason ReflexMatched;;
    stop cfg c (fun _ => replan_away c "A supported or active failure precursor matches the proposed action"
      (matched_reflexes c)) recommend
  else mret tt.
Definition precursor_stage cfg c : guide unit :=
  if known_failure_precursor (knowledge_signals c) then
    push_reason RelevantLessonMatched;;
    stop cfg c (fun _ => replan_away c
      "A current, locally supported Lesson identifies the proposed action as a failure precursor" []) recommend
  else mret tt.

Definition envelope_position c : EnvelopePosition.t :=
  match operating_envelope c with Some e => position e | None => EnvelopePosition.Unknown end.
Definition envelope_stage cfg c : guide unit :=
  match envelope_position c with
  | EnvelopePosition.KnownSafe => push_reason InsideOperatingEnvelope
  | EnvelopePosition.KnownDegraded =>
      push_reason OutsideOperatingEnvelope;;
      if at_least_medium (risk_severity (risk c)) then
        stop cfg c (fun _ => replan_away c "Current conditions are in a tested degraded region" []) recommend
      else mret tt
  | EnvelopePosition.KnownFailure =>
      push_reason OutsideOperatingEnvelope;;
      push_blocker (CriticalAssuranceGap "Current conditions match a tested failure region");;
      if high_risk c then stop cfg c (abstain c AbstentionReason.NoValidatedRecovery) recommend
      else stop cfg c (fun _ => replan_away c "Do not continue into a tested failure region" []) recommend
  | EnvelopePosition.Unknown => push_reason UnknownOperatingRegion
  end.

(** * Evidence *)

Definition knowledge_notes (k : KnowledgeState.t) : guide unit :=
  match k with
  | KnowledgeState.KnownSupported => push_reason ValidatedSkillApplicable
  | KnowledgeState.KnownContradicted => push_reason EvidenceContradicted;; push_blocker UnresolvedContradiction
  | KnowledgeState.KnownStale => push_reason EvidenceStale
  | KnowledgeState.Unknown => push_reason EvidenceInsufficient
  | KnowledgeState.OutOfScope => push_reason OutsideOperatingEnvelope
  end.
Definition note_if (b : bool) (r : DecisionReason) : guide unit := if b then push_reason r else mret tt.
Definition assurance_notes c : guide unit :=
  match assurance_status (summary (assurance c)) with
  | AssuranceRuntimeStatus.Current => push_reason AssuranceCurrent
  | AssuranceRuntimeStatus.Expired | AssuranceRuntimeStatus.Invalidated
  | AssuranceRuntimeStatus.ReviewRecommended => push_reason AssuranceExpired
  | _ => mret tt
  end.
Definition experiment_notes c : guide unit :=
  if can_experiment (available_experiments c) then push_reason SafeExperimentAvailable
  else if negb (budget_remaining (available_experiments c)) then
    push_reason ExperimentBudgetUnavailable;; push_blocker ExhaustedBudget
  else if negb (effect_safe (available_experiments c)) then push_blocker UnsafeExperiment
  else mret tt.
Definition evidence_stage c : guide unit :=
  knowledge_notes (classify c);;
  note_if (externally_supported c || remote_advisory_only (knowledge_signals c)) ExternalEvidenceAdvisoryOnly;;
  assurance_notes c;;
  note_if (high_risk c) HighRiskEffect;;
  experiment_notes c.

Definition current_diversity c : DiversityClass.t :=
  match epistemic c with Some e => epistemic_diversity e | None => DiversityClass.Unknown end.
Definition unmet_diversity c : option RuntimeDiversityRequirement :=
  if bool_decide (classify c = KnowledgeState.KnownSupported) then
    match matching_diversity_requirement c with
    | Some r => if satisfies (current_diversity c) (requirement_minimum r) then None else Some r
    | None => None
    end
  else None.
Definition diversity_decision c (reason : string) (b : list DecisionBlocker) : RuntimeDecision :=
  if can_experiment (available_experiments c) then experiment c reason
  else if has_effect c && effect_adapter_available (capability_context c)
  then approval c (reason +:+ "; correlated support cannot authorize commit")
  else abstain c AbstentionReason.InsufficientEvidenceDiversity b.
(** [ApprovalOverride] exactly when the decision is an approval. *)
Definition diversity_disposition c : GovernanceDisposition.t :=
  match decision_kind (diversity_decision c "" []) with
  | RuntimeDecisionKind.RequireApproval => GovernanceDisposition.ApprovalOverride
  | _ => recommend
  end.
Definition diversity_stage cfg c : guide unit :=
  match unmet_diversity c with
  | Some r =>
      push_reason EvidenceDiversityInsufficient;;
      push_blocker (InsufficientEvidenceDiversity (current_diversity c) (requirement_minimum r));;
      stop cfg c (diversity_decision c ("Known support has " +:+ debug_diversity (current_diversity c) +:+
        " evidence diversity; this action requires " +:+ debug_diversity (requirement_minimum r)))
        (diversity_disposition c)
  | None => mret tt
  end.

(** * The matrix *)

Definition assurance_sufficient c : bool :=
  bool_decide (assurance_status (summary (assurance c)) = AssuranceRuntimeStatus.Current) &&
  assurance_applicable (assurance_applicability (assurance c)).
Definition no_commit_authority c : bool := has_effect c && negb (commit_authority (capability_context c)).

(** An unknown operating region, at medium risk or above, without support. *)
Definition uncharted c : bool :=
  match operating_envelope c with
  | Some e => bool_decide (position e = EnvelopePosition.Unknown)
  | None => false
  end && at_least_medium (risk_severity (risk c)) && negb (bool_decide (classify c = KnowledgeState.KnownSupported)).
Definition matrix_disposition cfg c : MatrixDisposition :=
  if uncharted c then MatrixExperiment else matrix (profile cfg) (classify c) (risk_severity (risk c)).

Definition ask_commit cfg c (reason : string) : guide RuntimeDecisionEvaluation :=
  push_reason CommitAuthorityRequired;;
  push_blocker MissingCommitAuthority;;
  stop cfg c (fun _ => approval c reason) GovernanceDisposition.ApprovalOverride.
(** The reason to abstain without a way to act. *)
Definition unknown_or_contradicted c : AbstentionReason.t :=
  if bool_decide (classify c = KnowledgeState.KnownContradicted) then AbstentionReason.UnresolvedContradiction
  else AbstentionReason.CriticalUnknown.

Definition conclude_stage cfg c : guide RuntimeDecisionEvaluation :=
  let e := available_experiments c in
  match matrix_disposition cfg c with
  | MatrixAct =>
      if high_risk c && negb (assurance_sufficient c) then
        extend_blockers (critical_assurance_blockers c);;
        if can_experiment e
        then stop cfg c (fun _ => experiment c "high-risk action lacks current applicable assurance") recommend
        else stop cfg c (abstain c AbstentionReason.InconclusiveAssurance) recommend
      else if no_commit_authority c || approval_required (gov c) then
        ask_commit cfg c (default
          "Empirical support is sufficient to prepare, but commit authority is external" (approval_reason (gov c)))
      else stop cfg c (fun _ => act c None) recommend
  | ActWithWarning =>
      stop cfg c (fun _ => act c (Some
        "Proceed only as a low-risk reversible action; applicable evidence is incomplete")) recommend
  | MatrixExperiment =>
      if can_experiment e then stop cfg c (fun _ => experiment c (knowledge_reason (classify c))) recommend
      else stop cfg c (abstain c (if negb (budget_remaining e) then AbstentionReason.BudgetExhausted
                                  else AbstentionReason.UnsafeToExperiment)) recommend
  | ApprovalOrExperiment =>
      if negb (bool_decide (classify c = KnowledgeState.KnownSupported)) && can_experiment e
      then stop cfg c (fun _ => experiment c (knowledge_reason (classify c))) recommend
      else if assurance_sufficient c && effect_adapter_available (capability_context c) &&
              (no_commit_authority c || approval_required (gov c)) then
        ask_commit cfg c "Strong applicable evidence supports preparation; external authority must approve commit"
      else if assurance_sufficient c && negb (no_commit_authority c)
      then stop cfg c (fun _ => act c None) recommend
      else
        extend_blockers (critical_assurance_blockers c);;
        stop cfg c (abstain c (unknown_or_contradicted c)) recommend
  | MatrixAbstain =>
      if assurance_sufficient c && effect_adapter_available (capability_context c) && no_commit_authority c &&
         negb (bool_decide (classify c = KnowledgeState.KnownContradicted)) then
        ask_commit cfg c "The action is prepared and supported, but commit authority remains external"
      else stop cfg c (abstain c (unknown_or_contradicted c)) recommend
  end.

(** * The evaluation *)

(** The context as the policy sees it: operational knowledge decides whether local
    support exists. *)
Definition resolve_signals c : RuntimeDecisionContext :=
  match operational_knowledge c with
  | Some k =>
      let s := knowledge_signals c in
      with_signals (mkSignals (nonempty (eff_applied (effective k))) (local_contradicted s) (evidence_stale s) true
        (validated_skill s) (applicable_lesson s) (known_failure_precursor s) (remote_advisory_only s)
        (known_gap_matches s)) c
  | None => c
  end.

Definition stages cfg c : guide RuntimeDecisionEvaluation :=
  hard_policy_stage cfg c;;
  capability_stage cfg c;;
  isolation_stage cfg c;;
  adapter_stage cfg c;;
  team_stage cfg c;;
  plan_stage cfg c;;
  composition_stage cfg c;;
  knowledge_stage cfg c;;
  forecast_stage cfg c;;
  causal_stage cfg c;;
  recovery_stage cfg c;;
  reflex_stage cfg c;;
  precursor_stage cfg c;;
  envelope_stage cfg c;;
  evidence_stage c;;
  diversity_stage cfg c;;
  conclude_stage cfg c.

Definition evaluate cfg c : result RuntimeDecisionEvaluation :=
  _ ← validate_config cfg;
  match stages cfg (resolve_signals c) (mkTrace [] []) with
  | inl e => Ok e
  | inr (e, _) => Ok e
  end.

(** [RuntimeController::decide]. *)
Definition decide_ cfg c : result RuntimeDecision := e ← evaluate cfg c; Ok (decision e).
End guide.
