(* ===== verification/RuntimeVerdict.v ===== *)
(** A reference for the runtime policy: an ordered list of rules, the first of which
    that applies gives the kind of the decision and its disposition. [evaluate]
    decides what the list says ([evaluate_verdict]). *)
From S2P Require Import Prelude Semver Scope Hierarchy EconomicsModel EffectModel CapabilityModel PlanModel.
From S2P Require Import PlanValidity RuntimeModel RuntimePolicy RuntimeGuide.

Section verdict.
Context `{RuntimeTexts}.
Implicit Types (c : RuntimeDecisionContext) (cfg : RuntimePolicyConfig).

Definition verdict_type : Type := RuntimeDecisionKind.t * GovernanceDisposition.t.
Definition rule : Type := option verdict_type.
Definition recommended (k : RuntimeDecisionKind.t) : rule := Some (k, GovernanceDisposition.RuntimeRecommendation).
Definition overridden : rule := Some (RuntimeDecisionKind.RequireApproval, GovernanceDisposition.ApprovalOverride).
Definition denied : rule := Some (RuntimeDecisionKind.Abstain, GovernanceDisposition.SecurityBlocked).
(** The first rule, or else the second. *)
Definition or_rule (r r' : rule) : rule := match r with Some v => Some v | None => r' end.
Definition when (b : bool) (r : rule) : rule := if b then r else None.

(** * The rules *)

Definition missing_capability c : bool :=
  negb (required_available (capability_context c)) || nonempty (missing_capabilities (capability_context c)).
Definition unisolated c : bool := negb (isolation_sufficient (capability_context c)) && high_risk c.
Definition unsupported_effect c : bool :=
  has_effect c && negb (effect_adapter_available (capability_context c)) && high_risk c.
Definition team_refuses c : bool := match team c with Some t => negb (team_allowed t) | None => false end.
Definition security_blocked c : bool :=
  hard_policy_blocked (gov c) || missing_capability c || unisolated c || unsupported_effect c || team_refuses c.
Definition security_rule c : rule :=
  when (security_blocked c) denied.

Definition plan_rule c : rule :=
  match plan c with
  | Some p =>
      when (negb (plan_valid p))
        (recommended (if approval_required (gov c) || plan_asks_approval p then RuntimeDecisionKind.RequireApproval
         else if plan_asks_replan p then RuntimeDecisionKind.Replan else RuntimeDecisionKind.Abstain))
  | None => None
  end.
Definition composition_open c : bool :=
  match composition_assessment c with
  | Some a => nonempty (findings a) || nonempty (composition_unknown a)
  | None => false
  end.
Definition composition_rule c : rule :=
  when (composition_open c)
    (if approval_required (gov c) then overridden else recommended RuntimeDecisionKind.Replan).

Definition has_usable (failure : FailureSignatureRef) (k : RuntimeKnowledgeResolution) : bool :=
  existsb (fun r => match usable_recovery failure r with Some _ => true | None => false end) (recoveries k).
Definition knowledge_rule c : rule :=
  match operational_knowledge c with
  | Some k =>
      if approval_required (gov c) then overridden
      else if nonempty (knowledge_conflicts k) then
        recommended (if can_experiment (available_experiments c) && negb (high_risk c)
                     then RuntimeDecisionKind.Experiment else RuntimeDecisionKind.RequireApproval)
      else match failure_signature c with
           | Some failure =>
               if nonempty (recoveries k) then
                 recommended (if has_usable failure k then RuntimeDecisionKind.Recover else RuntimeDecisionKind.Replan)
               else when (nonempty (constraints k) || nonempty (antipatterns k)) (recommended RuntimeDecisionKind.Replan)
           | None => when (nonempty (constraints k) || nonempty (antipatterns k)) (recommended RuntimeDecisionKind.Replan)
           end
  | None => None
  end.

(** The leading forecast when the mode shows forecasts. *)
Definition shown_forecast cfg c : option FailureForecast :=
  if forecast_enabled cfg then leading_forecast c else None.
Definition advises cfg : bool := bool_decide (forecast_mode (forecast cfg) = ForecastRuntimeMode.Advise).
Definition forecast_rule cfg c : rule :=
  match shown_forecast cfg c with
  | Some f =>
      if advises cfg then recommended RuntimeDecisionKind.Act
      else match preventive_for c f with
           | Some i =>
               if requires_commit_authority i && negb (commit_authority (capability_context c)) then overridden
               else when (negb (overreaction c i) && bool_decide (ord_le ForecastStrength.Moderate (strength f)) &&
                 adaptive cfg) (recommended RuntimeDecisionKind.Replan)
           | None =>
               when (negb (advisory f) && bool_decide (forecast_status f = ForecastStatus.Imminent) && high_risk c)
                 (recommended RuntimeDecisionKind.Abstain)
           end
  | None => None
  end.

(** A supported mechanism of the failure is met with its recovery or a change of
    plan; an unresolved one, at high risk, with an experiment or abstention. *)
Definition causal_rule c : rule :=
  match failure_signature c with
  | Some failure =>
      match supported_interventions (causal c) with
      | g :: _ =>
          recommended match guided_recovery c failure g with
                      | Some _ => RuntimeDecisionKind.Recover
                      | None => RuntimeDecisionKind.Replan
                      end
      | [] =>
          when (nonempty (causal_gaps (causal c)) && high_risk c)
            (recommended (if can_experiment (available_experiments c) then RuntimeDecisionKind.Experiment
                          else RuntimeDecisionKind.Abstain))
      end
  | None => None
  end.
(** The recovery of a failure is used when fresh and else tried in an experiment. *)
Definition recovery_rule c : rule :=
  match failure_signature c with
  | Some failure =>
      match matching_recovery c failure with
      | Some r =>
          if fresh r then recommended RuntimeDecisionKind.Recover
          else when (can_experiment (available_experiments c)) (recommended RuntimeDecisionKind.Experiment)
      | None => None
      end
  | None => None
  end.

Definition known_precursor c : bool :=
  nonempty (matched_reflexes c) || known_failure_precursor (knowledge_signals c).
Definition precursor_rule c : rule := when (known_precursor c) (recommended RuntimeDecisionKind.Replan).
Definition envelope_rule c : rule :=
  match envelope_position c with
  | EnvelopePosition.KnownDegraded =>
      when (at_least_medium (risk_severity (risk c))) (recommended RuntimeDecisionKind.Replan)
  | EnvelopePosition.KnownFailure =>
      recommended (if high_risk c then RuntimeDecisionKind.Abstain else RuntimeDecisionKind.Replan)
  | _ => None
  end.
Definition diversity_rule c : rule :=
  match unmet_diversity c with
  | Some _ =>
      if can_experiment (available_experiments c) then recommended RuntimeDecisionKind.Experiment
      else if has_effect c && effect_adapter_available (capability_context c) then overridden
      else recommended RuntimeDecisionKind.Abstain
  | None => None
  end.

Definition supported c : bool := bool_decide (classify c = KnowledgeState.KnownSupported).
Definition contradicted c : bool := bool_decide (classify c = KnowledgeState.KnownContradicted).
(** The action needs an authority it does not have. *)
Definition needs_authority c : bool := no_commit_authority c || approval_required (gov c).
Definition matrix_rule cfg c : rule :=
  match matrix_disposition cfg c with
  | MatrixAct => if needs_authority c then overridden else recommended RuntimeDecisionKind.Act
  | ActWithWarning => recommended RuntimeDecisionKind.Act
  | MatrixExperiment =>
      recommended (if can_experiment (available_experiments c) then RuntimeDecisionKind.Experiment
                   else RuntimeDecisionKind.Abstain)
  | ApprovalOrExperiment =>
      if negb (supported c) && can_experiment (available_experiments c)
      then recommended RuntimeDecisionKind.Experiment
      else if assurance_sufficient c && effect_adapter_available (capability_context c) && needs_authority c
      then overridden
      else if assurance_sufficient c && negb (no_commit_authority c) then recommended RuntimeDecisionKind.Act
      else recommended RuntimeDecisionKind.Abstain
  | MatrixAbstain =>
      if assurance_sufficient c && effect_adapter_available (capability_context c) && no_commit_authority c &&
         negb (contradicted c)
      then overridden else recommended RuntimeDecisionKind.Abstain
  end.

Definition verdict cfg c : rule :=
  or_rule (security_rule c) (or_rule (plan_rule c) (or_rule (composition_rule c) (or_rule (knowledge_rule c)
  (or_rule (forecast_rule cfg c) (or_rule (causal_rule c) (or_rule (recovery_rule c) (or_rule (precursor_rule c)
  (or_rule (envelope_rule c) (or_rule (diversity_rule c) (matrix_rule cfg c)))))))))).

(** * The stages follow the rules *)

Definition verdict_of (e : RuntimeDecisionEvaluation) : verdict_type := (decision_kind (decision e), disposition e).
(** A stage returns exactly when its rule applies, and then with its verdict. *)
Definition follows {A} (m : guide A) (r : rule) : Prop :=
  forall t, match m t with inl e => r = Some (verdict_of e) | inr _ => r = None end.

Lemma follows_bind {A B} (m : guide A) (k : A -> guide B) r r' :
  follows m r -> (forall a, follows (k a) r') -> follows (m ≫= k) (or_rule r r').
Proof.
  intros Hm Hk t. specialize (Hm t). unfold mbind, guide_bind.
  destruct (m t) as [e|[a t']]; rewrite Hm; [done|apply Hk].
Qed.
Lemma follows_silent {A B} (m : guide A) (k : A -> guide B) r :
  follows m None -> (forall a, follows (k a) r) -> follows (m ≫= k) r.
Proof. apply (follows_bind m k None r). Qed.
Lemma follows_stop {A} k cfg c d g r :
  (forall b, r = Some (decision_kind (d b), g)) -> follows (stop_as (A := A) k cfg c d g) r.
Proof. intros Hr t. apply Hr. Qed.

Lemma follows_ret {A} (a : A) : follows (mret a) None.
Proof. done. Qed.
Lemma follows_reason r : follows (push_reason r) None.
Proof. done. Qed.
Lemma follows_extend l : follows (extend_blockers l) None.
Proof. done. Qed.
Lemma follows_set l : follows (set_blockers l) None.
Proof. done. Qed.
End verdict.
Create HintDb guide.
#[export] Hint Resolve follows_ret follows_reason follows_extend follows_set : guide.

(** Follow a stage: split its conditions, skip what it notes, compare what it
    returns. *)
Ltac follow_step :=
  match goal with
  | |- context [match ?x with _ => _ end] =>
      lazymatch x with
      | context [match _ with _ => _ end] => fail
      | _ => first [is_var x; destruct x | let E := fresh "E" in destruct x eqn:E]
      end
  end.
Ltac follow :=
  repeat first
    [ progress cbn [or_rule nonempty existsb find_map]
    | solve [eauto with guide]
    | apply follows_stop; intros; reflexivity
    | apply follows_silent; [solve [eauto with guide]|intros ?]
    | follow_step ].
(** Stage by stage, rule by rule. *)
Ltac follow_seq :=
  lazymatch goal with
  | |- follows (_ ≫= _) (or_rule _ _) => apply follows_bind; [|intros []; follow_seq]
  | _ => idtac
  end.

Section evaluation.
Context `{RuntimeTexts}.
Implicit Types (c : RuntimeDecisionContext) (cfg : RuntimePolicyConfig).

Lemma or_rule_when b b' v r : or_rule (when b v) (or_rule (when b' v) r) = or_rule (when (b || b') v) r.
Proof. by destruct b, b', v. Qed.
Lemma or_rule_assoc r1 r2 r3 : or_rule (or_rule r1 r2) r3 = or_rule r1 (or_rule r2 r3).
Proof. by destruct r1. Qed.

Lemma hard_policy_follows cfg c : follows (hard_policy_stage cfg c) (when (hard_policy_blocked (gov c)) denied).
Proof. unfold hard_policy_stage, when, stop. follow. Qed.
Lemma capability_follows cfg c : follows (capability_stage cfg c) (when (missing_capability c) denied).
Proof. unfold capability_stage, missing_capability, when, stop. follow. Qed.
Lemma isolation_follows cfg c : follows (isolation_stage cfg c) (when (unisolated c) denied).
Proof. unfold isolation_stage, unisolated, when, stop. follow. Qed.
Lemma adapter_follows cfg c : follows (adapter_stage cfg c) (when (unsupported_effect c) denied).
Proof. unfold adapter_stage, unsupported_effect, when, stop. follow. Qed.
Lemma team_follows cfg c : follows (team_stage cfg c) (when (team_refuses c) denied).
Proof. unfold team_stage, team_refuses, when, stop. follow. Qed.
Lemma plan_follows cfg c : follows (plan_stage cfg c) (plan_rule c).
Proof. unfold plan_stage, plan_rule, when, recommended, stop. follow. Qed.
Lemma composition_follows cfg c : follows (composition_stage cfg c) (composition_rule c).
Proof. unfold composition_stage, composition_rule, composition_open, approval_disposition, when, stop. follow. Qed.
Lemma forecast_follows cfg c : follows (forecast_stage cfg c) (forecast_rule cfg c).
Proof.
  unfold forecast_stage, forecast_rule, shown_forecast, advises, advise_stage, prevent_stage, imminent_stage, when, stop.
  follow.
Qed.
Lemma envelope_follows cfg c : follows (envelope_stage cfg c) (envelope_rule c).
Proof. unfold envelope_stage, envelope_rule, when, stop. follow. Qed.
Lemma diversity_follows cfg c : follows (diversity_stage cfg c) (diversity_rule c).
Proof. unfold diversity_stage, diversity_rule, diversity_disposition, diversity_decision, stop. follow. Qed.
Lemma evidence_follows c : follows (evidence_stage c) None.
Proof.
  unfold evidence_stage. repeat (apply follows_silent; [|intros ?]).
  - unfold knowledge_notes. follow.
  - unfold note_if. follow.
  - unfold assurance_notes. follow.
  - unfold note_if. follow.
  - unfold experiment_notes. follow.
Qed.

Lemma security_follows {A} cfg c (m : guide A) r :
  follows m r ->
  follows (hard_policy_stage cfg c;; capability_stage cfg c;; isolation_stage cfg c;; adapter_stage cfg c;;
    team_stage cfg c;; m) (or_rule (security_rule c) r).
Proof.
  intros Hm.
  assert (Hs : security_rule c = or_rule (when (hard_policy_blocked (gov c)) denied) (or_rule (when (missing_capability c) denied)
    (or_rule (when (unisolated c) denied) (or_rule (when (unsupported_effect c) denied) (when (team_refuses c) denied))))).
  { unfold security_rule, security_blocked, when.
    by destruct (hard_policy_blocked _), (missing_capability c), (unisolated c), (unsupported_effect c), (team_refuses c). }
  rewrite Hs, !or_rule_assoc. follow_seq; [..|apply team_follows|done].
  - unfold hard_policy_stage, when, stop. follow.
  - unfold capability_stage, missing_capability, when, stop. follow.
  - unfold isolation_stage, unisolated, when, stop. follow.
  - unfold adapter_stage, unsupported_effect, when, stop. follow.
Qed.

Lemma has_usable_spec failure k :
  match find_map (usable_recovery failure) (recoveries k) with
  | Some _ => has_usable failure k = true
  | None => has_usable failure k = false
  end.
Proof.
  unfold has_usable. induction (recoveries k) as [|r l IH]; [done|]; cbn.
  by destruct (usable_recovery failure r).
Qed.
Lemma knowledge_follows cfg c : follows (knowledge_stage cfg c) (knowledge_rule c).
Proof.
  unfold knowledge_stage, knowledge_rule, stop. destruct (operational_knowledge c) as [k|]; [|follow].
  apply follows_silent; [auto with guide|intros []].
  unfold knowledge_decision, guidance_decision, recovery_guidance, conflict_decision, approval_disposition, recommend,
    recommended, overridden.
  destruct (approval_required (gov c)); [follow|]. destruct (nonempty (knowledge_conflicts k)); [follow|].
  destruct (failure_signature c) as [failure|]; [|unfold when; follow].
  pose proof (has_usable_spec failure k) as Hu.
  destruct (recoveries k) as [|r l] eqn:Hr; [unfold when; follow|].
  destruct (find_map _ _); rewrite Hu; follow.
Qed.

Lemma causal_follows cfg c : follows (causal_stage cfg c) (causal_rule c).
Proof. unfold causal_stage, causal_rule, mechanism_decision, when, stop. follow. Qed.
Lemma recovery_follows cfg c : follows (recovery_stage cfg c) (recovery_rule c).
Proof. unfold recovery_stage, recovery_rule, when, stop. follow. Qed.
Lemma precursor_follows {A} cfg c (m : guide A) r :
  follows m r -> follows (reflex_stage cfg c;; precursor_stage cfg c;; m) (or_rule (precursor_rule c) r).
Proof.
  intros Hm. unfold precursor_rule, known_precursor. rewrite <- or_rule_when.
  follow_seq; [| |done]; unfold reflex_stage, precursor_stage, when, stop; follow.
Qed.

(** The matrix never reaches its check of the assurance of a supported high-risk
    action: that combination asks for approval or an experiment. *)
Lemma matrix_act_low cfg c : matrix_disposition cfg c = MatrixAct -> high_risk c = false.
Proof.
  unfold matrix_disposition, high_risk, severe. destruct (uncharted c); [done|].
  by destruct (profile cfg), (classify c), (risk_severity (risk c)).
Qed.
Lemma conclude_follows cfg c : follows (conclude_stage cfg c) (matrix_rule cfg c).
Proof.
  unfold conclude_stage, matrix_rule, ask_commit, supported, contradicted, needs_authority, stop.
  destruct (matrix_disposition cfg c) eqn:Hm; try (rewrite (matrix_act_low _ _ Hm); cbn [andb]); follow.
Qed.
Lemma stages_follow cfg c : follows (stages cfg c) (verdict cfg c).
Proof.
  unfold stages, verdict. apply security_follows.
  apply follows_bind; [apply plan_follows|intros []]. apply follows_bind; [apply composition_follows|intros []].
  apply follows_bind; [apply knowledge_follows|intros []]. apply follows_bind; [apply forecast_follows|intros []].
  apply follows_bind; [apply causal_follows|intros []]. apply follows_bind; [apply recovery_follows|intros []].
  apply precursor_follows. apply follows_bind; [apply envelope_follows|intros []].
  apply follows_silent; [apply evidence_follows|intros []]. apply follows_bind; [apply diversity_follows|intros []].
  apply conclude_follows.
Qed.

(** The list always reaches a verdict. *)
Lemma matrix_total cfg c : is_Some (matrix_rule cfg c).
Proof. unfold matrix_rule, overridden, recommended. repeat case_match; eauto. Qed.
Lemma or_rule_total r r' : is_Some r' -> is_Some (or_rule r r').
Proof. destruct r; cbn; eauto. Qed.
Lemma verdict_total cfg c : is_Some (verdict cfg c).
Proof. unfold verdict. do 10 apply or_rule_total. apply matrix_total. Qed.
End evaluation.
