(* ===== verification/RuntimeSound.v ===== *)
(** What an evaluation carries besides its kind: experiments stay within what is
    available, recoveries are fresh and for this failure, an abstention accounts for
    its blockers, a recommended tool is the best of those that serve the task. *)
From S2P Require Import Prelude Semver Scope Hierarchy EconomicsModel EffectModel CapabilityModel PlanModel.
From S2P Require Import PlanValidity RuntimeModel RuntimePolicy RuntimeGuide.

(** * Least elements *)

Section least.
Context {A K : Type} `{OrdLaws K} (f : A -> K).

Lemma min_fold_spec l x : let m := foldl (fun x y => match ord_cmp (f y) (f x) with Lt => y | _ => x end) x l in
  m ∈ x :: l /\ forall y, y ∈ x :: l -> ord_le (f m) (f y).
Proof.
  revert x. induction l as [|y l IH]; intros x; cbn [foldl].
  { split; [by left|]. intros y ->%list_elem_of_singleton. done. }
  destruct (ord_cmp (f y) (f x)) eqn:Hc; [destruct (IH x) as [Hm Hle]|destruct (IH y) as [Hm Hle]|destruct (IH x) as [Hm Hle]];
    (split; [set_solver|]); intros z [->|[->|Hz]%elem_of_cons]%elem_of_cons;
    try (apply Hle; (by left) || by right); (etrans; [apply Hle; by left|]).
  - apply ord_eq in Hc. by rewrite Hc.
  - unfold ord_le. by rewrite Hc.
  - unfold ord_le. rewrite (ord_flip (f y) (f x)), Hc. done.
Qed.
Lemma min_by_key_Some l m : min_by_key f l = Some m -> m ∈ l /\ forall y, y ∈ l -> ord_le (f m) (f y).
Proof. destruct l as [|x l]; [done|]. intros [= <-]. apply min_fold_spec. Qed.
Lemma min_by_key_None l : min_by_key f l = None <-> l = [].
Proof. by destruct l. Qed.
End least.

Section sound.
Context `{RuntimeTexts}.
Implicit Types (c : RuntimeDecisionContext) (cfg : RuntimePolicyConfig).

(** A recovery that may be used against a failure. *)
Definition usable (failure : FailureSignatureRef) (r : RecoveryRef) : Prop :=
  fresh r = true /\ scope_matches r = true /\ recovery_signature r = signature failure.
(** The recoveries the context offers. *)
Definition offered c (r : RecoveryRef) : Prop :=
  r ∈ available_recovery c \/
  exists k i, operational_knowledge c = Some k /\ i ∈ recoveries k /\ executable i = Some r.
(** The best of the tools that serve the task: with current assurance if there is
    one, then the narrowest, then the first by name. *)
Definition best_tool (l : list ToolCandidate) (tool : option string) : Prop :=
  match tool with
  | Some name => exists t, t ∈ l /\ satisfies_task t = true /\ tool_name t = name /\
      forall t', t' ∈ l -> satisfies_task t' = true -> ord_le (tool_key t) (tool_key t')
  | None => forall t, t ∈ l -> satisfies_task t = false
  end.
(** An experiment stays within the budget and the mode that are available. *)
Record bounded_experiment (e : ExperimentCapabilitySummary) (d : ExperimentDecision) : Prop := {
  be_available : can_experiment e = true;
  be_realities : (0 < max_realities (decision_budget d) <= max_realities (experiment_budget e))%Z;
  be_budget : decision_budget d = with_max_realities (max_realities (decision_budget d)) (experiment_budget e);
  be_requirements : requirements d = experiment_requirements e;
  be_automatic : automatic d = true -> experiment_mode e = ExperimentMode.Automatic;
}.

Definition decision_sound c (b : list DecisionBlocker) (d : RuntimeDecision) : Prop :=
  match d with
  | Act a => recommended_action a = proposed_action c /\ act_assurance a = summary (assurance c) /\
      best_tool (tool_candidates c) (recommended_tool a)
  | Experiment e => bounded_experiment (available_experiments c) e
  | Replan r => (forall a, a ∈ excluded_actions r -> a ∈ proposed_action_patterns c) /\
      (forall x, x ∈ replan_reflexes r -> x ∈ matched_reflexes c)
  | Recover r => exists failure, failure_signature c = Some failure /\ recover_signature r = failure /\
      usable failure (recovery r) /\ offered c (recovery r) /\ recover_confidence r = confidence (recovery r)
  | RequireApproval a => (requested_authority a = CommitEffect <-> is_Some (proposed_effect c)) /\ approval_risk a = risk c
  | Abstain a => unresolved_risks a = b /\ missing_evidence a = gaps (assurance c)
  end.
Record evaluation_sound cfg c (e : RuntimeDecisionEvaluation) : Prop := {
  es_decision : decision_sound c (evaluation_blockers e) (decision e);
  es_evidence : evaluation_evidence e = evidence c;
  es_version : policy_version e = version cfg;
  es_knowledge : knowledge e = classify c \/
    knowledge e = KnowledgeState.KnownStale /\ exists d, decision e = Experiment d;
}.

(** * The parts of a decision *)

Lemma experiment_sound c b reason :
  can_experiment (available_experiments c) = true -> decision_sound c b (experiment c reason).
Proof.
  intros Hc. split; cbn; [done| |done|done|by intros ?%bool_decide_eq_true].
  assert (Hd : (1 <= desired_realities c)%Z) by (unfold desired_realities; repeat case_match; lia).
  unfold can_experiment in Hc. apply andb_true_iff in Hc as [_ Hm]. lia.
Qed.
Lemma act_sound c b w : decision_sound c b (act c w).
Proof.
  split; [done|]. split; [done|]. cbn. destruct (min_by_key _ _) as [t|] eqn:Hm; cbn.
  - apply min_by_key_Some in Hm as [Ht Hle]. apply list_elem_of_In, filter_In in Ht as [Ht Hs].
    exists t. split; [by apply list_elem_of_In|]. do 2 (split; [done|]). intros t' Ht' Hs'. apply Hle.
    apply list_elem_of_In, filter_In. split; [by apply list_elem_of_In|done].
  - apply min_by_key_None in Hm. intros t Ht. destruct (satisfies_task t) eqn:Hs; [|done].
    assert (Hin : In t (List.filter satisfies_task (tool_candidates c))).
    { apply filter_In. split; [by apply list_elem_of_In|done]. }
    by rewrite Hm in Hin.
Qed.
Lemma approval_sound c b reason : decision_sound c b (approval c reason).
Proof. split; [|done]. cbn. destruct (proposed_effect c); split; [done|done|done|by intros []]. Qed.
Lemma abstain_sound c b reason : decision_sound c b (abstain c reason b).
Proof. done. Qed.
Lemma replan_for_sound c b reason : decision_sound c b (replan_for reason).
Proof. split; cbn; set_solver. Qed.
Lemma replan_away_sound c b reason l :
  (forall x, x ∈ l -> x ∈ matched_reflexes c) -> decision_sound c b (replan_away c reason l).
Proof. done. Qed.
Lemma recover_sound c b failure r l :
  failure_signature c = Some failure -> usable failure r -> offered c r ->
  decision_sound c b (Recover (mkRecover r failure (confidence r) l)).
Proof. intros Hf Hu Ho. by exists failure. Qed.
Lemma conflict_sound c b : decision_sound c b (conflict_decision c).
Proof.
  unfold conflict_decision. case_match eqn:Hb; [|apply approval_sound].
  apply andb_true_iff in Hb as [Hc _]. split; cbn; [done| |by destruct (experiment_budget _)|done|done].
  unfold can_experiment in Hc. apply andb_true_iff in Hc as [_ Hm]. lia.
Qed.
Lemma find_map_Some {A B} (f : A -> option B) l y : find_map f l = Some y -> exists x, x ∈ l /\ f x = Some y.
Proof.
  induction l as [|x l IH]; [done|]. cbn. destruct (f x) eqn:Hx.
  - intros [= <-]. exists x. split; [by left|done].
  - intros (z & ? & ?)%IH. exists z. split; [by right|done].
Qed.
Lemma usable_recovery_Some failure i r :
  usable_recovery failure i = Some r -> executable i = Some r /\ usable failure r.
Proof.
  unfold usable_recovery, usable. destruct (executable i) as [e|]; [|done]. case_match eqn:Hb; [|done].
  intros [= <-]. apply andb_true_iff in Hb as [[Hf Hs]%andb_true_iff Hg%bool_decide_eq_true]. done.
Qed.
Lemma recovery_guidance_sound c b failure k d :
  operational_knowledge c = Some k -> failure_signature c = Some failure ->
  recovery_guidance failure k = Some d -> decision_sound c b d.
Proof.
  intros Hk Hf. unfold recovery_guidance. destruct (find_map _ _) as [r|] eqn:Hm.
  - intros [= <-]. apply find_map_Some in Hm as (i & Hi & [He Hu]%usable_recovery_Some).
    apply recover_sound; [done..|]. right. by exists k, i.
  - destruct (recoveries k); [done|]. intros [= <-]. apply replan_for_sound.
Qed.
Lemma guidance_decision_sound c b k d : guidance_decision k = Some d -> decision_sound c b d.
Proof. unfold guidance_decision. case_match; [|done]. intros [= <-]. apply replan_for_sound. Qed.
Lemma knowledge_decision_sound c b k d :
  operational_knowledge c = Some k -> knowledge_decision c k = Some d -> decision_sound c b d.
Proof.
  intros Hk. unfold knowledge_decision. destruct (approval_required _).
  { intros [= <-]. apply approval_sound. }
  destruct (nonempty _). { intros [= <-]. apply conflict_sound. }
  destruct (failure_signature c) as [failure|] eqn:Hf; [|apply guidance_decision_sound].
  destruct (recoveries k); [apply guidance_decision_sound|]. by apply recovery_guidance_sound.
Qed.

(** * The stages *)

(** What a stage returns satisfies [Q]. *)
Definition returns {A} (m : guide A) (Q : RuntimeDecisionEvaluation -> Prop) : Prop :=
  forall t e, m t = inl e -> Q e.

Lemma returns_bind {A B} (m : guide A) (k : A -> guide B) Q :
  returns m Q -> (forall a, returns (k a) Q) -> returns (m ≫= k) Q.
Proof.
  intros Hm Hk t e. unfold mbind, guide_bind. destruct (m t) as [e'|[a t']] eqn:Hr.
  - intros [= <-]. by apply (Hm t).
  - apply Hk.
Qed.
Lemma returns_ret {A} (a : A) Q : returns (mret a) Q.
Proof. done. Qed.
Lemma returns_reason r Q : returns (push_reason r) Q.
Proof. done. Qed.
Lemma returns_extend l Q : returns (extend_blockers l) Q.
Proof. done. Qed.
Lemma returns_set l Q : returns (set_blockers l) Q.
Proof. done. Qed.
Lemma returns_stop {A} cfg c d g :
  (forall b, decision_sound c b (d b)) -> returns (stop (A := A) cfg c d g) (evaluation_sound cfg c).
Proof. intros Hd t e [= <-]. split; [apply Hd|done|done|by left]. Qed.
Lemma returns_experiment {A} cfg c reason g :
  can_experiment (available_experiments c) = true ->
  returns (stop_as (A := A) KnowledgeState.KnownStale cfg c (fun _ => experiment c reason) g) (evaluation_sound cfg c).
Proof. intros Hc t e [= <-]. split; [by apply experiment_sound|done|done|]. right. split; [done|by eexists]. Qed.
Lemma sound_if (b : bool) c l d d' :
  (b = true -> decision_sound c l d) -> (b = false -> decision_sound c l d') -> decision_sound c l (if b then d else d').
Proof. destruct b; auto. Qed.

Lemma guided_recovery_usable c failure g r :
  guided_recovery c failure g = Some r -> usable failure r /\ offered c r.
Proof.
  intros [Hr Hb]%List.find_some. repeat (apply andb_true_iff in Hb as [Hb ?]).
  split; [|left; by apply list_elem_of_In]. split; [done|]. split; [done|]. by eapply bool_decide_eq_true.
Qed.
Lemma matching_recovery_usable c failure r :
  matching_recovery c failure = Some r -> fresh r = true -> usable failure r /\ offered c r.
Proof.
  intros [Hr [Hs Hm]%andb_true_iff]%List.find_some Hf.
  split; [|left; by apply list_elem_of_In]. do 2 (split; [done|]). by eapply bool_decide_eq_true.
Qed.
Lemma mechanism_sound c b failure g :
  failure_signature c = Some failure -> decision_sound c b (mechanism_decision c failure g).
Proof.
  intros Hf. unfold mechanism_decision. destruct (guided_recovery c failure g) as [r|] eqn:Hr.
  - apply guided_recovery_usable in Hr as [Hu Ho]. by apply recover_sound.
  - apply replan_away_sound. set_solver.
Qed.
Lemma diversity_sound c reason b : decision_sound c b (diversity_decision c reason b).
Proof.
  unfold diversity_decision. apply sound_if; intros Hc; [by apply experiment_sound|].
  apply sound_if; intros ?; [apply approval_sound|apply abstain_sound].
Qed.
End sound.

Create HintDb guidance.
#[export] Hint Resolve returns_ret returns_reason returns_extend returns_set returns_experiment
  experiment_sound act_sound approval_sound abstain_sound replan_for_sound replan_away_sound
  mechanism_sound diversity_sound knowledge_decision_sound : guidance.

(** Walk through a stage; every place where it returns has a sound decision. *)
Ltac walk :=
  repeat first
    [ solve [eauto with guidance]
    | match goal with E : _ && _ = true |- _ => apply andb_true_iff in E as [? ?] end
    | apply returns_bind; [|intros ?]
    | apply returns_stop; intros ?
    | apply sound_if; intros ?
    | match goal with
      | |- returns (match ?x with _ => _ end) _ => let E := fresh "E" in destruct x eqn:E
      end ].

Section stages.
Context `{RuntimeTexts}.
Implicit Types (c : RuntimeDecisionContext) (cfg : RuntimePolicyConfig).

Lemma security_returns cfg c (m : guide RuntimeDecisionEvaluation) :
  returns m (evaluation_sound cfg c) ->
  returns (hard_policy_stage cfg c;; capability_stage cfg c;; isolation_stage cfg c;; adapter_stage cfg c;;
    team_stage cfg c;; m) (evaluation_sound cfg c).
Proof. intros Hm. unfold hard_policy_stage, capability_stage, isolation_stage, adapter_stage, team_stage. walk. Qed.
Lemma planning_returns cfg c (m : guide RuntimeDecisionEvaluation) :
  returns m (evaluation_sound cfg c) ->
  returns (plan_stage cfg c;; composition_stage cfg c;; knowledge_stage cfg c;; m) (evaluation_sound cfg c).
Proof. intros Hm. unfold plan_stage, composition_stage, knowledge_stage. walk. Qed.
Lemma forecast_returns cfg c : returns (forecast_stage cfg c) (evaluation_sound cfg c).
Proof.
  unfold forecast_stage, advise_stage, prevent_stage, imminent_stage. walk.
  all: apply replan_away_sound; set_solver.
Qed.
Lemma failure_returns cfg c (m : guide RuntimeDecisionEvaluation) :
  returns m (evaluation_sound cfg c) ->
  returns (causal_stage cfg c;; recovery_stage cfg c;; m) (evaluation_sound cfg c).
Proof.
  intros Hm. unfold causal_stage, recovery_stage. walk.
  edestruct matching_recovery_usable; [done..|]. by apply recover_sound.
Qed.
Lemma region_returns cfg c (m : guide RuntimeDecisionEvaluation) :
  returns m (evaluation_sound cfg c) ->
  returns (reflex_stage cfg c;; precursor_stage cfg c;; envelope_stage cfg c;; m) (evaluation_sound cfg c).
Proof.
  intros Hm. unfold reflex_stage, precursor_stage, envelope_stage. walk.
  all: apply replan_away_sound; set_solver.
Qed.
Lemma evidence_returns c Q : returns (evidence_stage c) Q.
Proof. unfold evidence_stage, knowledge_notes, note_if, assurance_notes, experiment_notes. walk. Qed.
Lemma conclude_returns cfg c : returns (conclude_stage cfg c) (evaluation_sound cfg c).
Proof. unfold conclude_stage, ask_commit. walk. Qed.
Lemma stages_return cfg c : returns (stages cfg c) (evaluation_sound cfg c).
Proof.
  unfold stages. apply security_returns, planning_returns.
  apply returns_bind; [apply forecast_returns|intros []]. apply failure_returns, region_returns.
  apply returns_bind; [apply evidence_returns|intros []].
  unfold diversity_stage. apply returns_bind; [walk|intros []]. apply conclude_returns.
Qed.
End stages.
