(* ===== verification/RuntimeSafety.v ===== *)
(** When the runtime policy lets an agent act, and what blocks it: theorems on
    [evaluate], proved from its rules (RuntimeVerdict.v) and from what its decisions
    carry (RuntimeSound.v). *)
From S2P Require Import Prelude Semver Scope Hierarchy EconomicsModel EffectModel CapabilityModel PlanModel.
From S2P Require Import PlanValidity RuntimeModel RuntimePolicy RuntimeGuide RuntimeVerdict RuntimeSound.

Section safety.
Context `{RuntimeTexts}.
Implicit Types (c : RuntimeDecisionContext) (cfg : RuntimePolicyConfig) (r : rule).

(** * Evaluations and verdicts *)

Lemma evaluation_cases cfg c :
  match evaluate cfg c with
  | Ok e => validate_config cfg = Ok tt /\ verdict cfg (resolve_signals c) = Some (verdict_of e) /\
            evaluation_sound cfg (resolve_signals c) e
  | Err err => validate_config cfg = Err err
  end.
Proof.
  unfold evaluate. destruct (validate_config cfg) as [[]|err] eqn:Hv; [|done]. cbn.
  pose proof (stages_follow cfg (resolve_signals c) (mkTrace [] [])) as Hf.
  destruct (stages _ _ _) as [e|[e t]] eqn:Hs.
  - split; [done|]. split; [done|]. by apply stages_return in Hs.
  - destruct (verdict_total cfg (resolve_signals c)) as [v Hv']. congruence.
Qed.
Lemma evaluate_Ok cfg c e :
  evaluate cfg c = Ok e ->
  verdict cfg (resolve_signals c) = Some (verdict_of e) /\ evaluation_sound cfg (resolve_signals c) e.
Proof. intros He. pose proof (evaluation_cases cfg c) as Hc. rewrite He in Hc. naive_solver. Qed.

(** * Rules that act *)

Definition acts r : Prop := exists g, r = Some (RuntimeDecisionKind.Act, g).

Lemma or_rule_acts r r' : ~ acts r -> (acts (or_rule r r') <-> r = None /\ acts r').
Proof. intros Hr. destruct r as [v|]; cbn; [|naive_solver]. split; [done|]. by intros []. Qed.
Lemma when_None b r : is_Some r -> (when b r = None <-> b = false).
Proof. intros [v ->]. by destruct b. Qed.
Lemma nonempty_false {A} (l : list A) : nonempty l = false <-> l = [].
Proof. by destruct l. Qed.

Ltac no_act := intros [g Hg]; revert Hg; unfold recommended, overridden, when; repeat case_match; done.

Lemma security_no_act c : ~ acts (security_rule c).
Proof. unfold security_rule. no_act. Qed.
Lemma plan_no_act c : ~ acts (plan_rule c).
Proof. unfold plan_rule. no_act. Qed.
Lemma composition_no_act c : ~ acts (composition_rule c).
Proof. unfold composition_rule. no_act. Qed.
Lemma knowledge_no_act c : ~ acts (knowledge_rule c).
Proof. unfold knowledge_rule. no_act. Qed.
Lemma causal_no_act c : ~ acts (causal_rule c).
Proof. unfold causal_rule. no_act. Qed.
Lemma recovery_no_act c : ~ acts (recovery_rule c).
Proof. unfold recovery_rule. no_act. Qed.
Lemma precursor_no_act c : ~ acts (precursor_rule c).
Proof. unfold precursor_rule. no_act. Qed.
Lemma envelope_no_act c : ~ acts (envelope_rule c).
Proof. unfold envelope_rule. no_act. Qed.
Lemma diversity_no_act c : ~ acts (diversity_rule c).
Proof. unfold diversity_rule. no_act. Qed.

(** Nothing that comes before the forecasts objects. *)
Record cleared c : Prop := {
  cl_security : security_blocked c = false;
  cl_plan : forall p, plan c = Some p -> plan_valid p = true;
  cl_composition : composition_open c = false;
  cl_knowledge : forall k, operational_knowledge c = Some k ->
    approval_required (gov c) = false /\ knowledge_conflicts k = [] /\ constraints k = [] /\ antipatterns k = [] /\
    (is_Some (failure_signature c) -> recoveries k = []);
}.
(** A forecast is shown as advice. *)
Definition advised cfg c : Prop := advises cfg = true /\ is_Some (leading_forecast c).
(** Neither a forecast nor a failure, a precursor, the operating envelope or the
    diversity of the evidence objects. *)
Record undisturbed cfg c : Prop := {
  un_forecast : forall f, shown_forecast cfg c = Some f ->
    advises cfg = false /\
    match preventive_for c f with
    | Some i => (requires_commit_authority i = true -> commit_authority (capability_context c) = true) /\
        (overreaction c i = true \/ ~ ord_le ForecastStrength.Moderate (strength f) \/ adaptive cfg = false)
    | None => advisory f = true \/ forecast_status f <> ForecastStatus.Imminent \/ high_risk c = false
    end;
  un_failure : forall failure, failure_signature c = Some failure ->
    supported_interventions (causal c) = [] /\ (high_risk c = true -> causal_gaps (causal c) = []) /\
    forall x, matching_recovery c failure = Some x ->
      fresh x = false /\ can_experiment (available_experiments c) = false;
  un_precursor : matched_reflexes c = [] /\ known_failure_precursor (knowledge_signals c) = false;
  un_envelope : match envelope_position c with
                | EnvelopePosition.KnownFailure => False
                | EnvelopePosition.KnownDegraded => at_least_medium (risk_severity (risk c)) = false
                | _ => True
                end;
  un_diversity : unmet_diversity c = None;
}.
(** What the matrix lets pass. *)
Definition permitted cfg c : Prop :=
  match matrix_disposition cfg c with
  | MatrixAct => no_commit_authority c = false /\ approval_required (gov c) = false
  | ActWithWarning => True
  | ApprovalOrExperiment =>
      (supported c = true \/ can_experiment (available_experiments c) = false) /\
      assurance_sufficient c = true /\ no_commit_authority c = false /\
      (effect_adapter_available (capability_context c) = true -> approval_required (gov c) = false)
  | _ => False
  end.

Lemma plan_rule_None c : plan_rule c = None <-> forall p, plan c = Some p -> plan_valid p = true.
Proof.
  unfold plan_rule, when, recommended. destruct (plan c) as [p|]; [|naive_solver].
  destruct (plan_valid p) eqn:Hv; cbn.
  - split; [by intros _ ? [= <-]|done].
  - split; [done|]. intros Hp. specialize (Hp p eq_refl). congruence.
Qed.
Lemma composition_rule_None c : composition_rule c = None <-> composition_open c = false.
Proof. unfold composition_rule. rewrite when_None; [done|]. destruct (approval_required _); by eexists. Qed.
Lemma knowledge_rule_None c :
  knowledge_rule c = None <-> forall k, operational_knowledge c = Some k ->
    approval_required (gov c) = false /\ knowledge_conflicts k = [] /\ constraints k = [] /\ antipatterns k = [] /\
    (is_Some (failure_signature c) -> recoveries k = []).
Proof.
  unfold knowledge_rule. destruct (operational_knowledge c) as [k|]; [|naive_solver].
  destruct (approval_required (gov c)); [split; [done|naive_solver]|].
  assert (Hk : forall P : Prop, (P <-> knowledge_conflicts k = [] /\ constraints k = [] /\ antipatterns k = [] /\
    (is_Some (failure_signature c) -> recoveries k = [])) -> P <-> forall k', Some k = Some k' -> false = false /\
    knowledge_conflicts k' = [] /\ constraints k' = [] /\ antipatterns k' = [] /\
    (is_Some (failure_signature c) -> recoveries k' = [])) by naive_solver.
  apply Hk. clear Hk. unfold recommended. rewrite <- !nonempty_false.
  destruct (nonempty (knowledge_conflicts k)); [naive_solver|].
  destruct (failure_signature c) as [f|]; [destruct (nonempty (recoveries k)) eqn:Hr|];
    destruct (nonempty (constraints k)), (nonempty (antipatterns k)); cbn; naive_solver.
Qed.
Lemma cleared_rules c :
  cleared c <-> security_rule c = None /\ plan_rule c = None /\ composition_rule c = None /\ knowledge_rule c = None.
Proof.
  rewrite plan_rule_None, composition_rule_None, knowledge_rule_None. unfold security_rule. rewrite when_None by done.
  split; [intros []; auto|]. intros (? & ? & ? & ?). by split.
Qed.

Lemma when_rule_None b r : when b r = None <-> b = false \/ r = None.
Proof. destruct b; cbn; naive_solver. Qed.
Lemma recommended_None k : recommended k = None <-> False.
Proof. done. Qed.
Lemma overridden_None : overridden = None <-> False.
Proof. done. Qed.

Lemma some_forall {A} (x : A) (P : A -> Prop) : (forall y, Some x = Some y -> P y) <-> P x.
Proof. naive_solver. Qed.

Lemma forecast_rule_None cfg c :
  forecast_rule cfg c = None <-> forall f, shown_forecast cfg c = Some f ->
    advises cfg = false /\
    match preventive_for c f with
    | Some i => (requires_commit_authority i = true -> commit_authority (capability_context c) = true) /\
        (overreaction c i = true \/ ~ ord_le ForecastStrength.Moderate (strength f) \/ adaptive cfg = false)
    | None => advisory f = true \/ forecast_status f <> ForecastStatus.Imminent \/ high_risk c = false
    end.
Proof.
  unfold forecast_rule. destruct (shown_forecast cfg c) as [f|]; [|naive_solver].
  rewrite some_forall. destruct (advises cfg); [rewrite recommended_None; naive_solver|].
  destruct (preventive_for c f) as [i|].
  - destruct (requires_commit_authority i), (commit_authority _); cbn; rewrite ?overridden_None, ?when_rule_None,
      ?recommended_None, ?andb_false_iff, ?negb_false_iff, ?bool_decide_eq_false; naive_solver.
  - rewrite when_rule_None, recommended_None, !andb_false_iff, negb_false_iff, bool_decide_eq_false. naive_solver.
Qed.
Lemma causal_rule_None c :
  causal_rule c = None <-> forall failure, failure_signature c = Some failure ->
    supported_interventions (causal c) = [] /\ (high_risk c = true -> causal_gaps (causal c) = []).
Proof.
  unfold causal_rule. destruct (failure_signature c) as [f|]; [|naive_solver].
  rewrite some_forall. destruct (supported_interventions (causal c)) as [|i l].
  - rewrite when_rule_None, recommended_None, andb_false_iff, nonempty_false. destruct (high_risk c); naive_solver.
  - rewrite recommended_None. naive_solver.
Qed.
Lemma recovery_rule_None c :
  recovery_rule c = None <-> forall failure, failure_signature c = Some failure ->
    forall x, matching_recovery c failure = Some x -> fresh x = false /\ can_experiment (available_experiments c) = false.
Proof.
  unfold recovery_rule. destruct (failure_signature c) as [f|]; [|naive_solver].
  rewrite some_forall. destruct (matching_recovery c f) as [x|]; [|naive_solver]. rewrite some_forall.
  destruct (fresh x); rewrite ?when_rule_None, ?recommended_None; naive_solver.
Qed.
Lemma precursor_rule_None c :
  precursor_rule c = None <-> matched_reflexes c = [] /\ known_failure_precursor (knowledge_signals c) = false.
Proof.
  unfold precursor_rule, known_precursor. rewrite when_rule_None, recommended_None, orb_false_iff, nonempty_false.
  naive_solver.
Qed.
Lemma envelope_rule_None c :
  envelope_rule c = None <-> match envelope_position c with
                             | EnvelopePosition.KnownFailure => False
                             | EnvelopePosition.KnownDegraded => at_least_medium (risk_severity (risk c)) = false
                             | _ => True
                             end.
Proof.
  unfold envelope_rule. destruct (envelope_position c); rewrite ?when_rule_None, ?recommended_None; naive_solver.
Qed.
Lemma diversity_rule_None c : diversity_rule c = None <-> unmet_diversity c = None.
Proof. unfold diversity_rule, recommended, overridden. destruct (unmet_diversity c); [|done]. by repeat case_match. Qed.

Lemma undisturbed_rules cfg c :
  undisturbed cfg c <-> forecast_rule cfg c = None /\ causal_rule c = None /\ recovery_rule c = None /\
    precursor_rule c = None /\ envelope_rule c = None /\ diversity_rule c = None.
Proof.
  rewrite forecast_rule_None, causal_rule_None, recovery_rule_None, precursor_rule_None, envelope_rule_None,
    diversity_rule_None.
  split; [intros []; naive_solver|]. intros (? & Hc & Hr & ? & ? & ?). split; [done| |done..].
  intros f Hf. destruct (Hc f Hf). split; [done|]. split; [done|]. by apply Hr.
Qed.

Lemma forecast_acts cfg c : acts (forecast_rule cfg c) <-> advised cfg c.
Proof.
  unfold acts, forecast_rule, advised, shown_forecast, forecast_enabled, advises.
  destruct (forecast_mode (forecast cfg)); cbn; try by split; [intros []|intros []].
  all: destruct (leading_forecast c) as [f|]; [|by split; [intros []|intros [? []]]].
  - split; [by eauto|]. intros _. by eexists.
  - split; [|by intros []]. intros [g Hg]. revert Hg. unfold overridden, recommended, when. by repeat case_match.
Qed.
Lemma matrix_acts cfg c : acts (matrix_rule cfg c) <-> permitted cfg c.
Proof.
  unfold acts, matrix_rule, permitted, needs_authority, recommended, overridden.
  destruct (matrix_disposition cfg c).
  - destruct (no_commit_authority c), (approval_required (gov c)); cbn; naive_solver.
  - naive_solver.
  - destruct (can_experiment _); naive_solver.
  - destruct (supported c), (can_experiment _), (assurance_sufficient c), (effect_adapter_available _),
      (no_commit_authority c), (approval_required (gov c)); cbn; naive_solver.
  - case_match; naive_solver.
Qed.

Lemma verdict_acts cfg c : acts (verdict cfg c) <-> cleared c /\ (advised cfg c \/ undisturbed cfg c /\ permitted cfg c).
Proof.
  unfold verdict.
  rewrite or_rule_acts by apply security_no_act. rewrite or_rule_acts by apply plan_no_act.
  rewrite or_rule_acts by apply composition_no_act. rewrite or_rule_acts by apply knowledge_no_act.
  rewrite cleared_rules, undisturbed_rules, <- forecast_acts, <- matrix_acts.
  set (late := or_rule (causal_rule c) _).
  assert (Hlate : acts late <-> (causal_rule c = None /\ recovery_rule c = None /\ precursor_rule c = None /\
    envelope_rule c = None /\ diversity_rule c = None) /\ acts (matrix_rule cfg c)).
  { unfold late. rewrite or_rule_acts by apply causal_no_act. rewrite or_rule_acts by apply recovery_no_act.
    rewrite or_rule_acts by apply precursor_no_act. rewrite or_rule_acts by apply envelope_no_act.
    rewrite or_rule_acts by apply diversity_no_act. naive_solver. }
  destruct (forecast_rule cfg c) as [v|] eqn:Hf; cbn [or_rule]; [naive_solver|].
  rewrite Hlate. split; [naive_solver|].
  intros [? [Ha|Hu]]; [|naive_solver]. by destruct Ha.
Qed.
Lemma decides_act cfg c e :
  evaluate cfg c = Ok e ->
  decision_kind (decision e) = RuntimeDecisionKind.Act <-> acts (verdict cfg (resolve_signals c)).
Proof.
  intros [Hv _]%evaluate_Ok. rewrite Hv. unfold acts, verdict_of.
  split; [intros ->; by eexists|naive_solver].
Qed.

(** * Security *)

Definition security_reason c : AbstentionReason.t :=
  if hard_policy_blocked (gov c) then AbstentionReason.ExternalPolicyProhibition
  else if missing_capability c || unisolated c then AbstentionReason.InsufficientIsolation
  else if unsupported_effect c then AbstentionReason.UnsupportedEffect
  else AbstentionReason.CriticalUnknown.

(** After a stage its rule is known not to apply. *)
Lemma returns_next {A B} (m : guide A) (k : A -> guide B) r Q :
  follows m r -> returns m Q -> (r = None -> forall a, returns (k a) Q) -> returns (m ≫= k) Q.
Proof.
  intros Hf Hm Hk t e. unfold mbind, guide_bind. specialize (Hf t). destruct (m t) as [e'|[a t']] eqn:Hr.
  - intros [= <-]. by apply (Hm t).
  - by apply Hk.
Qed.
Definition abstained c (e : RuntimeDecisionEvaluation) : Prop :=
  disposition e = GovernanceDisposition.SecurityBlocked /\ exists b, decision e = abstain c (security_reason c) b.
Lemma returns_abstained {A} cfg c reason :
  reason = security_reason c ->
  returns (stop (A := A) cfg c (abstain c reason) GovernanceDisposition.SecurityBlocked) (abstained c).
Proof. intros -> t e [= <-]. split; [done|]. by eexists. Qed.
Lemma denied_None b : when b denied = None <-> b = false.
Proof. by destruct b. Qed.

Lemma security_abstains cfg c : security_blocked c = true -> returns (stages cfg c) (abstained c).
Proof.
  unfold security_blocked. intros Hb.
  eapply returns_next; [apply hard_policy_follows| |intros Hh%denied_None []].
  { unfold hard_policy_stage. walk. apply returns_abstained. unfold security_reason. by rewrite E. }
  eapply returns_next; [apply capability_follows| |intros Hm%denied_None []].
  { unfold capability_stage. fold (missing_capability c). walk. apply returns_abstained. unfold security_reason. by rewrite Hh, E. }
  eapply returns_next; [apply isolation_follows| |intros Hi%denied_None []].
  { unfold isolation_stage. fold (unisolated c). destruct (unisolated c) eqn:E; walk. apply returns_abstained.
    unfold security_reason. by rewrite Hh, Hm, E. }
  eapply returns_next; [apply adapter_follows| |intros Ha%denied_None []].
  { unfold adapter_stage. destruct (has_effect c && _) eqn:E; [|walk]. destruct (high_risk c) eqn:E'; [|walk].
    assert (Hu : unsupported_effect c = true) by (unfold unsupported_effect; by rewrite E, E').
    walk. apply returns_abstained. unfold security_reason. by rewrite Hh, Hm, Hi, Hu. }
  rewrite Hh, Hm, Hi, Ha in Hb. cbn in Hb.
  eapply returns_next; [apply team_follows| |by intros Ht%denied_None; congruence].
  unfold team_stage. walk. apply returns_abstained. unfold security_reason. by rewrite Hh, Hm, Hi, Ha.
Qed.

Lemma later_not_blocked cfg c k g :
  security_rule c = None -> verdict cfg c = Some (k, g) -> g <> GovernanceDisposition.SecurityBlocked.
Proof.
  unfold verdict. intros ->. cbn [or_rule].
  assert (Hn : forall r r' : rule, (r = Some (k, g) -> g <> GovernanceDisposition.SecurityBlocked) ->
    (r' = Some (k, g) -> g <> GovernanceDisposition.SecurityBlocked) ->
    or_rule r r' = Some (k, g) -> g <> GovernanceDisposition.SecurityBlocked) by (intros [] ?; cbn; auto).
  repeat apply Hn; unfold plan_rule, composition_rule, knowledge_rule, forecast_rule, causal_rule, recovery_rule,
    precursor_rule, envelope_rule, diversity_rule, matrix_rule, recommended, overridden, when;
    clear Hn; repeat case_match; congruence.
Qed.

(** * Profiles *)

Definition with_profile (p : RuntimePolicyProfile.t) cfg : RuntimePolicyConfig :=
  mkConfig p (autonomy cfg) (config_experiment_mode cfg) (external_experience cfg) (forecast cfg) (version cfg).

Lemma conservative_permits p cfg c :
  permitted (with_profile RuntimePolicyProfile.Conservative cfg) c -> permitted (with_profile p cfg) c.
Proof.
  unfold permitted, matrix_disposition. cbn [profile with_profile]. destruct (uncharted c); [done|].
  destruct p, (classify c), (risk_severity (risk c)); cbn; tauto.
Qed.

(** * Versions *)

(** Two configurations with the same settings. *)
Definition same_settings cfg cfg' : Prop :=
  profile cfg = profile cfg' /\ autonomy cfg = autonomy cfg' /\ config_experiment_mode cfg = config_experiment_mode cfg' /\
  external_experience cfg = external_experience cfg' /\ forecast cfg = forecast cfg'.

Fixpoint no_bar (s : string) : bool :=
  match s with EmptyString => true | String a s' => negb (Ascii.eqb a (Ascii.ascii_of_nat 124)) && no_bar s' end.
Lemma bar_inj (w w' r r' : string) :
  no_bar w = true -> no_bar w' = true -> w +:+ "|" +:+ r = w' +:+ "|" +:+ r' -> w = w' /\ r = r'.
Proof.
  revert w'. induction w as [|a w IH]; intros [|a' w'] Hw Hw'; cbn in *.
  - intros [= Hr]. split; [done|exact Hr].
  - by intros [= <- _].
  - by intros [= -> _].
  - apply andb_true_iff in Hw as [_ Hw], Hw' as [_ Hw']. intros [= -> Hr].
    by destruct (IH w' Hw Hw' Hr) as [-> ->].
Qed.
Lemma bool_text_inj b b' : bool_text b = bool_text b' -> b = b'.
Proof. by destruct b, b'. Qed.
Lemma bool_text_no_bar b : no_bar (bool_text b) = true.
Proof. by destruct b. Qed.
Lemma profile_no_bar p : no_bar (RuntimePolicyProfile.debug p) = true.
Proof. by destruct p. Qed.
Lemma autonomy_no_bar a : no_bar (RuntimeAutonomy.debug a) = true.
Proof. by destruct a. Qed.
Lemma experiment_no_bar m : no_bar (ExperimentMode.debug m) = true.
Proof. by destruct m. Qed.
Lemma forecast_no_bar m : no_bar (ForecastRuntimeMode.debug m) = true.
Proof. by destruct m. Qed.

Lemma config_material_inj cfg cfg' : config_material cfg = config_material cfg' -> same_settings cfg cfg'.
Proof.
  unfold config_material, same_settings. intros Hm.
  apply bar_inj in Hm as [Hp Hm]; [|apply profile_no_bar..].
  apply bar_inj in Hm as [Ha Hm]; [|apply autonomy_no_bar..].
  apply bar_inj in Hm as [He Hm]; [|apply experiment_no_bar..].
  do 4 (apply bar_inj in Hm as [?%bool_text_inj Hm]; [|apply bool_text_no_bar..]).
  apply bar_inj in Hm as [Hf Hm]; [|apply forecast_no_bar..].
  destruct cfg as [p a e [] [f q] v], cfg' as [p' a' e' [] [f' q'] v']. cbn in *. subst.
  assert (p = p') as -> by by destruct p, p'. assert (a = a') as -> by by destruct a, a'.
  assert (e = e') as -> by by destruct e, e'. assert (f = f') as -> by by destruct f, f'.
  assert (q = q') as -> by by destruct q, q'. done.
Qed.
Lemma same_settings_material cfg cfg' : same_settings cfg cfg' -> config_material cfg = config_material cfg'.
Proof. unfold config_material. by intros (-> & -> & -> & -> & ->). Qed.
Lemma string_app_inj (p s s' : string) : p +:+ s = p +:+ s' -> s = s'.
Proof. induction p as [|a p IH]; intros Hs; [exact Hs|]. injection Hs as Hs. by apply IH. Qed.

(** * The theorems *)

(** C32. Evaluating is deciding by the rules: it fails exactly on a configuration whose version is blank or too
    long, and otherwise the kind and the disposition of the decision are those of the first rule that applies. *)
Theorem evaluate_verdict cfg c :
  match evaluate cfg c with
  | Ok e => validate_config cfg = Ok tt /\ verdict cfg (resolve_signals c) = Some (verdict_of e)
  | Err err => validate_config cfg = Err err
  end.
Proof. pose proof (evaluation_cases cfg c) as Hc. destruct (evaluate cfg c); naive_solver. Qed.

(** C31. What an evaluation carries: an experiment is available and within its budget and mode, a recovery is fresh,
    in scope, for the observed failure and offered by the context, an abstention accounts for exactly its blockers
    and gaps, a recommended tool serves the task and is the best such tool, an approval names the authority the
    effect needs, and a change of plan excludes only the proposed action. *)
Theorem evaluate_sound cfg c e : evaluate cfg c = Ok e -> evaluation_sound cfg (resolve_signals c) e.
Proof. intros [_ Hs]%evaluate_Ok. done. Qed.

(** Nothing learned outranks security: an evaluation is security-blocked exactly when the hard policy, a missing
    capability, insufficient isolation at high risk, an unsupported effect at high risk or the team objects, and then
    the decision is to abstain for the first of these. *)
Theorem security_blocked_exact cfg c e :
  evaluate cfg c = Ok e ->
  (disposition e = GovernanceDisposition.SecurityBlocked <-> security_blocked c = true) /\
  (security_blocked c = true -> exists b, decision e = abstain c (security_reason c) b).
Proof.
  intros He. assert (Hs : security_blocked (resolve_signals c) = security_blocked c /\
    security_reason (resolve_signals c) = security_reason c /\
    forall b, abstain (resolve_signals c) (security_reason c) b = abstain c (security_reason c) b).
  { unfold resolve_signals. by destruct (operational_knowledge c). }
  destruct Hs as (Hs & Hr & Ha). rewrite <- Hs. pose proof He as [Hv _]%evaluate_Ok.
  assert (Hb : security_blocked (resolve_signals c) = true ->
    (exists b, decision e = abstain c (security_reason c) b) /\ disposition e = GovernanceDisposition.SecurityBlocked).
  { intros Hb. unfold evaluate in He. destruct (validate_config cfg); [|done]. cbn in He.
    destruct (stages _ _ _) as [e'|[e' t]] eqn:Hst.
    - apply (security_abstains _ _ Hb) in Hst as [Hg [b Hd]]. simplify_eq. rewrite Hd, Hr, Ha. eauto.
    - pose proof (stages_follow cfg (resolve_signals c) (mkTrace [] [])) as Hf. rewrite Hst in Hf. congruence. }
  split; [|naive_solver]. split; [|naive_solver]. intros Hg. destruct (security_blocked _) eqn:Hn; [done|].
  unfold verdict_of in Hv. eapply later_not_blocked in Hv; [done|]. unfold security_rule. by rewrite Hn.
Qed.

(** C9. When the agent may act: exactly when security, plan, composition and operational knowledge are clear and
    either a forecast is shown as advice, or no forecast, failure, precursor, operating region or diversity
    requirement objects and the matrix lets the action pass. *)
Theorem act_exact cfg c e :
  evaluate cfg c = Ok e ->
  decision_kind (decision e) = RuntimeDecisionKind.Act <->
  cleared (resolve_signals c) /\
  (advised cfg (resolve_signals c) \/ undisturbed cfg (resolve_signals c) /\ permitted cfg (resolve_signals c)).
Proof. intros He. rewrite (decides_act _ _ _ He). apply verdict_acts. Qed.

(** C10. A high-risk action proceeds only with sufficient isolation, with an adapter and commit authority for its
    effect, and on current applicable assurance, unless all that happens is that a forecast is shown as advice. *)
Theorem high_risk_act_assured cfg c e :
  evaluate cfg c = Ok e -> decision_kind (decision e) = RuntimeDecisionKind.Act -> high_risk c = true ->
  isolation_sufficient (capability_context c) = true /\
  (has_effect c = true -> effect_adapter_available (capability_context c) = true) /\
  (advised cfg c \/ assurance_sufficient c = true /\
    (has_effect c = true -> commit_authority (capability_context c) = true)).
Proof.
  intros He Ha Hh. apply (decides_act _ _ _ He), verdict_acts in Ha as [[Hs _ _ _] Ha].
  assert (Hsame : forall s, let c' := with_signals s c in security_blocked c' = security_blocked c /\
    assurance_sufficient c' = assurance_sufficient c /\ no_commit_authority c' = no_commit_authority c /\
    high_risk c' = high_risk c /\ (advised cfg c' <-> advised cfg c)) by done.
  assert (Hrs : resolve_signals c = c \/ exists s, resolve_signals c = with_signals s c).
  { unfold resolve_signals. destruct (operational_knowledge c); eauto. }
  assert (Hp : forall c', high_risk c' = true -> permitted cfg c' ->
    assurance_sufficient c' = true /\ no_commit_authority c' = false).
  { intros c' Hh' Hp. unfold permitted in Hp. destruct (matrix_disposition cfg c') eqn:Hm; try done; [| |naive_solver].
    - apply matrix_act_low in Hm. congruence.
    - exfalso. unfold matrix_disposition in Hm. unfold high_risk, severe in Hh'. destruct (uncharted c'); [done|].
      by destruct (profile cfg), (classify c'), (risk_severity (risk c')). }
  assert (Hfacts : security_blocked c = false /\ (advised cfg c \/ assurance_sufficient c = true /\ no_commit_authority c = false)).
  { destruct Hrs as [Hrs|[s Hrs]]; rewrite Hrs in *; [|destruct (Hsame s) as (E1 & E2 & E3 & E4 & E5)]; naive_solver. }
  destruct Hfacts as [Hsec Hfin]. unfold security_blocked, unisolated, unsupported_effect in Hsec. rewrite Hh in Hsec.
  unfold no_commit_authority in Hfin.
  destruct (isolation_sufficient _), (has_effect c), (effect_adapter_available _); cbn in *;
    rewrite ?orb_true_r in Hsec; try done; (split; [done|]); (split; [done|]);
    (destruct Hfin as [?|[? Hc]]; [by left|right]); destruct (commit_authority _); done.
Qed.

(** Required approval is not always asked for: with it, the agent still acts exactly when a forecast is shown as
    advice, when the action is one the matrix only warns about, or when a consequential action has current assurance
    and no effect adapter is available. *)
Theorem approval_act_exact cfg c e :
  evaluate cfg c = Ok e -> approval_required (gov c) = true ->
  decision_kind (decision e) = RuntimeDecisionKind.Act <->
  cleared c /\
  (advised cfg c \/ undisturbed cfg c /\
    (matrix_disposition cfg c = ActWithWarning \/
     matrix_disposition cfg c = ApprovalOrExperiment /\
     (supported c = true \/ can_experiment (available_experiments c) = false) /\
     assurance_sufficient c = true /\ has_effect c = false /\ effect_adapter_available (capability_context c) = false)).
Proof.
  intros He Ha. rewrite (decides_act _ _ _ He), verdict_acts.
  destruct (operational_knowledge c) as [k|] eqn:Hk.
  { assert (Hn : forall c', gov c' = gov c -> operational_knowledge c' = Some k -> ~ cleared c').
    { intros c' Hg Hk' [_ _ _ Hcl]. destruct (Hcl k Hk'). congruence. }
    split; intros [Hc _]; exfalso; [eapply Hn; [..|exact Hc]|by eapply Hn].
    - unfold resolve_signals. by rewrite Hk.
    - unfold resolve_signals. by rewrite Hk. }
  assert (Hr : resolve_signals c = c) by (unfold resolve_signals; by rewrite Hk). rewrite Hr.
  assert (Hp : cleared c -> permitted cfg c <-> matrix_disposition cfg c = ActWithWarning \/
     matrix_disposition cfg c = ApprovalOrExperiment /\
     (supported c = true \/ can_experiment (available_experiments c) = false) /\
     assurance_sufficient c = true /\ has_effect c = false /\ effect_adapter_available (capability_context c) = false).
  { intros [Hs _ _ _]. unfold permitted, no_commit_authority. rewrite Ha.
    destruct (matrix_disposition cfg c) eqn:Hm; try naive_solver.
    assert (Hh : high_risk c = true).
    { revert Hm. unfold matrix_disposition, high_risk, severe. destruct (uncharted c); [done|].
      by destruct (profile cfg), (classify c), (risk_severity (risk c)). }
    unfold security_blocked, unsupported_effect in Hs. rewrite Hh in Hs.
    destruct (has_effect c), (effect_adapter_available _); cbn in *; rewrite ?orb_true_r in Hs; naive_solver. }
  naive_solver.
Qed.

(** The conservative profile acts least: what it lets an agent do, every profile does. *)
Theorem conservative_acts_least p cfg c e :
  evaluate (with_profile RuntimePolicyProfile.Conservative cfg) c = Ok e ->
  decision_kind (decision e) = RuntimeDecisionKind.Act ->
  exists e', evaluate (with_profile p cfg) c = Ok e' /\ decision_kind (decision e') = RuntimeDecisionKind.Act.
Proof.
  intros He Ha. apply (decides_act _ _ _ He), verdict_acts in Ha as [Hc Ha].
  pose proof (evaluation_cases (with_profile p cfg) c) as Hp. pose proof (evaluation_cases (with_profile
    RuntimePolicyProfile.Conservative cfg) c) as Hcons. rewrite He in Hcons. destruct Hcons as [Hv _].
  destruct (evaluate (with_profile p cfg) c) as [e'|err] eqn:He'.
  - exists e'. split; [done|]. apply (decides_act _ _ _ He'), verdict_acts. split; [done|].
    destruct Ha as [Ha|[Hu Hperm]]; [by left|right]. split; [|by apply conservative_permits].
    destruct Hu. by split.
  - unfold validate_config in Hv, Hp. cbn in Hv, Hp. congruence.
Qed.

(** A policy version names its settings: refreshed configurations have the same version exactly when all their
    settings agree, as long as the hashes of the two do not collide in their first 16 digits. *)
Theorem version_names_settings cfg cfg' :
  (String.substring 0 16 (blake3_hex (config_material cfg)) = String.substring 0 16 (blake3_hex (config_material cfg')) ->
   config_material cfg = config_material cfg') ->
  version (refresh_version cfg) = version (refresh_version cfg') <-> same_settings cfg cfg'.
Proof.
  intros Hh. unfold refresh_version. cbn [version]. split.
  - intros Hv%string_app_inj%string_app_inj. by apply config_material_inj, Hh.
  - by intros ->%same_settings_material.
Qed.
End safety.
