(* ===== verification/RuntimeContext.v ===== *)
(** How a decision context is put together from the store: the retrieval of lessons
    (src/retrieval.rs), the selection of skills, reflexes, recoveries and
    certifications (src/runtime/context.rs) and the quarantine applied before a
    decision is recorded (src/store/runtime.rs). What the rest of the store answers
    to one request, its configuration and freshness bases loaded, is a [StoreView];
    the clock stands still during a request. The
    relevance of a lesson, a [f64], is its position in the order of [f64::total_cmp]. *)
From S2P Require Import Prelude Semver Scope Hierarchy Paths EconomicsModel EffectModel CapabilityModel PlanModel.
From S2P Require Import PlanValidity RuntimeModel RuntimePolicy.

(** * Data *)

(** src/lesson.rs *)
Module LessonStatus.
Inductive t := Candidate | CounterfactuallySupported | Validated | Contradicted | Retired.
#[global] Instance eq_dec : EqDecision t.
Proof. solve_decision. Defined.
End LessonStatus.

Module EvidenceRelationship.
Inductive t := Supports | Contradicts | Origin | Inconclusive | Narrows.
#[global] Instance eq_dec : EqDecision t.
Proof. solve_decision. Defined.
End EvidenceRelationship.

(** src/resilience/models.rs *)
Module SkillStatus.
Inductive t := Candidate | Supported | Validated | Retired.
#[global] Instance eq_dec : EqDecision t.
Proof. solve_decision. Defined.
End SkillStatus.

Module ReflexStatus.
Inductive t := Candidate | Supported | Active | Disabled | Retired.
#[global] Instance eq_dec : EqDecision t.
Proof. solve_decision. Defined.
End ReflexStatus.

Module RecoveryStatus.
Inductive t := Candidate | Supported | Validated | Contradicted | Retired.
#[global] Instance eq_dec : EqDecision t.
Proof. solve_decision. Defined.
End RecoveryStatus.

(** src/curriculum/model.rs *)
Module SkillMaturity.
Inductive t := Observed | Supported | Validated | Hardened | Degraded | Retired.
#[global] Instance eq_dec : EqDecision t.
Proof. solve_decision. Defined.
End SkillMaturity.

(** src/assurance/model.rs *)
Module CertificationStatus.
Inductive t := Candidate | Satisfied | Certified | Expired | Invalidated | Superseded.
#[global] Instance eq_dec : EqDecision t.
Proof. solve_decision. Defined.
End CertificationStatus.

Module CertificationFreshness.
Inductive t := Current | ReviewRecommended | Expired | Invalidated.
#[global] Instance eq_dec : EqDecision t.
Proof. solve_decision. Defined.
End CertificationFreshness.

(** src/epistemic/model.rs *)
Module ExperienceActivationState.
Inductive t := Active | Advisory | Quarantined | Disabled.
#[global] Instance eq_dec : EqDecision t.
Proof. solve_decision. Defined.
End ExperienceActivationState.

Record ExperienceContext := mkExperienceContext {
  repository_path : string;
  context_markers : list string;
  context_tags : list string;
  context_os : string;
  context_arch : string;
}.
Record ContextSelector := mkSelector {
  selector_repository : option string;
  required_markers : list string;
  selector_tags : list string;
  selector_os : option string;
  selector_arch : option string;
}.
Definition none_or {A} (f : A -> bool) (o : option A) : bool := match o with Some a => f a | None => true end.
(** [ContextSelector::matches]. *)
Definition selector_matches (s : ContextSelector) (x : ExperienceContext) : bool :=
  none_or (fun p => path_eq p (repository_path x)) (selector_repository s) &&
  forallb (fun m => bool_decide (m ∈ context_markers x)) (required_markers s) &&
  forallb (fun t => bool_decide (t ∈ context_tags x)) (selector_tags s) &&
  none_or (fun o => bool_decide (o = context_os x)) (selector_os s) &&
  none_or (fun a => bool_decide (a = context_arch x)) (selector_arch s).

(** Of its evidence a lesson keeps the relationships. *)
Record Lesson := mkLesson {
  les_id : string;
  les_version : Z;
  les_status : LessonStatus.t;
  les_context : ContextSelector;
  avoid : option ActionPattern;
  prefer : option ActionPattern;
  les_evidence : list EvidenceRelationship.t;
}.
Record Skill := mkSkill {
  sk_id : string;
  sk_name : string;
  sk_context : ContextSelector;
  procedure : list ActionPattern;
  sk_status : SkillStatus.t;
  sk_maturity : SkillMaturity.t;
  sk_envelope : option string;
}.
Record TriggerPattern := mkTrigger {
  trigger_context : ContextSelector;
  trigger_action : ActionPattern;
  repeated_failures : option Z;
  trigger_no_state_change : bool;
  trigger_config_changed : bool;
}.
Record Reflex := mkReflex {
  ref_id : string;
  ref_version : Z;
  trigger : TriggerPattern;
  ref_status : ReflexStatus.t;
}.
Record SkillCertification := mkCertification {
  cert_id : string;
  cert_revision : Z;
  cert_profile : AssuranceProfileRef;
  cert_status : CertificationStatus.t;
  issued_at : Z;
  expires_at : option Z;
  cert_contract_revision : Z;
  tool_artifact_hashes : gset string;
  runtime_digests : gset string;
}.
(** [CurrentAssuranceContext] and [DeterministicFreshnessPolicy] of src/assurance: what
    [skill assurance] reports of a certification, by the revisions and hashes of the
    day. *)
Record CurrentAssuranceContext := mkCurrentAssurance {
  ca_now : Z;
  ca_skill_revision : Z;
  ca_contract_revision : Z;
  ca_tool_artifact_hashes : gset string;
  ca_runtime_digests : gset string;
  ca_invalidated : bool;
}.
Definition freshness_status (c : SkillCertification) (x : CurrentAssuranceContext) : CertificationFreshness.t :=
  if ca_invalidated x || negb (bool_decide (ca_skill_revision x = cert_revision c))
     || negb (bool_decide (ca_contract_revision x = cert_contract_revision c))
  then CertificationFreshness.Invalidated
  else if match expires_at c with Some t => (t <=? ca_now x)%Z | None => false end
  then CertificationFreshness.Expired
  else if negb (bool_decide (ca_tool_artifact_hashes x = tool_artifact_hashes c))
     || negb (bool_decide (ca_runtime_digests x = runtime_digests c))
  then CertificationFreshness.ReviewRecommended
  else CertificationFreshness.Current.
#[export] Instance profile_ref_eq_dec : EqDecision AssuranceProfileRef.
Proof. solve_decision. Defined.

Section context.
Context `{RuntimeTexts}.

Record Recovery := mkRecoveryItem {
  rcv_id : string;
  rcv_version : Z;
  rcv_signature : string;
  rcv_context : ContextSelector;
  rcv_status : RecoveryStatus.t;
  rcv_confidence : F64;
  rcv_updated_at : Z;
}.

Record RuntimeContextRequest := mkRequest {
  rq_task : TaskDescriptor;
  rq_context : ExperienceContext;
  rq_action : option NormalizedAction;
  rq_effect : option (EffectRequest Value);
  rq_risk : option RuntimeRiskAssessment;
  rq_capability : CapabilityContext;
  rq_failure : option FailureSignatureRef;
  consecutive_failures : Z;
  no_state_change : bool;
  config_changed : bool;
  rq_candidates : list StrategyCandidate;
  rq_experiments : ExperimentCapabilitySummary;
  known_unknowns : list string;
  rq_externally_supported : bool;
  rq_envelope_position : option EnvelopePosition.t;
}.

(** What the store and the other subsystems answer to one request. *)
Record StoreView := mkView {
  view_now : Z;
  stale_after_days : Z;
  view_lessons : result (list Lesson);
  (** [lesson_activation_state], and whether an artifact is causally quarantined. *)
  view_activation : Lesson -> result ExperienceActivationState.t;
  view_quarantined : string -> result bool;
  (** [freshness_score], and whether [assess_freshness] finds the lesson stale. *)
  view_relevance : Lesson -> Z;
  view_minimum : Z;
  view_stale : Lesson -> bool;
  view_skills : result (list Skill);
  view_revisions : string -> result (list Z);
  view_reflexes : result (list Reflex);
  view_recoveries : result (list Recovery);
  view_certifications : string -> result (list SkillCertification);
  view_revoked : string -> result bool;
  (** [envelope(id).ok()]: its id and version. *)
  view_envelope : string -> option (string * Z);
  view_causal : option string -> result CausalRuntimeGuidance;
  (** Whether an abstraction is selected for the context. *)
  view_abstraction : RuntimeDecisionContext -> result bool;
  (** The summary of the claim in scope that states the task, if there is one. *)
  view_claim : string -> result (option RuntimeEpistemicSummary);
}.

(** * Retrieval *)

Definition eligible (l : Lesson) : bool :=
  match les_status l with
  | LessonStatus.CounterfactuallySupported | LessonStatus.Validated => true
  | _ => false
  end.
(** [DeterministicRetriever::retrieve], with [include_candidates] off, of one lesson. *)
Definition retrieves (v : StoreView) (x : ExperienceContext) (l : Lesson) : result bool :=
  quarantined ← view_quarantined v (les_id l);
  state ← (if (quarantined : bool) then Ok ExperienceActivationState.Quarantined else view_activation v l);
  Ok (match state with
      | ExperienceActivationState.Quarantined | ExperienceActivationState.Disabled => false
      | _ => true
      end && eligible l && selector_matches (les_context l) x && (view_minimum v <=? view_relevance v l)%Z).
Fixpoint result_filter {A} (f : A -> result bool) (l : list A) : result (list A) :=
  match l with
  | [] => Ok []
  | a :: l' => b ← f a; rest ← result_filter f l'; Ok (if (b : bool) then a :: rest else rest)
  end.
Definition relevance_key (v : StoreView) (l : Lesson) : Z * string := ((- view_relevance v l)%Z, les_id l).
Definition retrieve (v : StoreView) (x : ExperienceContext) : result (list Lesson) :=
  lessons ← view_lessons v;
  kept ← result_filter (retrieves v x) lessons;
  Ok (sort_by_key (relevance_key v) kept).

(** * Lessons *)

Definition normalized_action_pattern (a : NormalizedAction) : option ActionPattern :=
  match a with
  | Shell command _ => Some (ShellCommand (trim command))
  | FileWrite path | FileDelete path => Some (FileOperation path)
  | FileRead _ => None
  | a => CustomPattern "normalized_action" <$> action_json a
  end.
Definition action_pattern (rq : RuntimeContextRequest) : option ActionPattern :=
  match rq_action rq with Some a => normalized_action_pattern a | None => None end.

Definition scoped_lessons (rq : RuntimeContextRequest) (lessons : list Lesson) : list Lesson :=
  List.filter (fun l => selector_matches (les_context l) (rq_context rq) &&
    none_or (fun a => bool_decide (avoid l = Some a) || bool_decide (prefer l = Some a)) (action_pattern rq)) lessons.
Definition lesson_contradicted (l : Lesson) : bool :=
  bool_decide (les_status l = LessonStatus.Contradicted) ||
  bool_decide (EvidenceRelationship.Contradicts ∈ les_evidence l).
Definition precursor (rq : RuntimeContextRequest) (matches : list Lesson) : bool :=
  match action_pattern rq with
  | Some a => existsb (fun l => bool_decide (avoid l = Some a) &&
                negb (bool_decide (les_status l = LessonStatus.Contradicted))) matches
  | None => false
  end.

(** * Skills, reflexes and recoveries *)

Definition skill_applies (rq : RuntimeContextRequest) (s : Skill) : bool :=
  selector_matches (sk_context s) (rq_context rq) &&
  none_or (fun a => bool_decide (a ∈ procedure s)) (action_pattern rq) &&
  match sk_status s with SkillStatus.Validated | SkillStatus.Supported => true | _ => false end &&
  match sk_maturity s with SkillMaturity.Validated | SkillMaturity.Hardened => true | _ => false end.
Fixpoint select_skills (v : StoreView) (rq : RuntimeContextRequest) (l : list Skill) : result (list (Skill * SkillRef)) :=
  match l with
  | [] => Ok []
  | s :: l' =>
      if skill_applies rq s then
        revisions ← view_revisions v (sk_id s);
        rest ← select_skills v rq l';
        Ok ((s, mkSkillRef (sk_id s) (default 1%Z (last revisions)) (sk_name s)) :: rest)
      else select_skills v rq l'
  end.

Definition reflex_matches (rq : RuntimeContextRequest) (r : Reflex) : bool :=
  match ref_status r with ReflexStatus.Active | ReflexStatus.Supported => true | _ => false end &&
  selector_matches (trigger_context (trigger r)) (rq_context rq) &&
  bool_decide (action_pattern rq = Some (trigger_action (trigger r))) &&
  none_or (fun n => (n <=? consecutive_failures rq)%Z) (repeated_failures (trigger r)) &&
  (negb (trigger_no_state_change (trigger r)) || no_state_change rq) &&
  (negb (trigger_config_changed (trigger r)) || config_changed rq).
(** Whether an artifact that matches may be used: it is not causally quarantined. *)
Definition usable_artifact (v : StoreView) (id : string) (b : bool) : result bool :=
  q ← view_quarantined v id; Ok (negb q && b).
Definition select_reflexes (v : StoreView) (rq : RuntimeContextRequest) (l : list Reflex) : result (list ReflexRef) :=
  kept ← result_filter (fun r => usable_artifact v (ref_id r) (reflex_matches rq r)) l;
  Ok (map (fun r => mkReflexRef (ref_id r) (ref_version r)) kept).

Definition recovery_applies (rq : RuntimeContextRequest) (r : Recovery) : bool :=
  match rcv_status r with RecoveryStatus.Supported | RecoveryStatus.Validated => true | _ => false end &&
  selector_matches (rcv_context r) (rq_context rq) &&
  none_or (fun f => bool_decide (signature f = rcv_signature r)) (rq_failure rq).
Definition day : Z := 86400 * 10 ^ 9.
Definition recovery_ref (v : StoreView) (r : Recovery) : RecoveryRef :=
  mkRecovery (rcv_id r) (rcv_version r) (rcv_signature r) (rcv_confidence r)
    (view_now v - rcv_updated_at r <=? stale_after_days v * day)%Z true.
Definition select_recoveries (v : StoreView) (rq : RuntimeContextRequest) (l : list Recovery) : result (list RecoveryRef) :=
  kept ← result_filter (fun r => usable_artifact v (rcv_id r) (recovery_applies rq r)) l;
  Ok (map (recovery_ref v) kept).

(** * Assurance *)

Definition assurance_rank (s : AssuranceRuntimeStatus.t) : Z :=
  match s with
  | AssuranceRuntimeStatus.Current => 6
  | AssuranceRuntimeStatus.ReviewRecommended => 5
  | AssuranceRuntimeStatus.Expired => 4
  | AssuranceRuntimeStatus.OutOfScope => 3
  | AssuranceRuntimeStatus.Inconclusive => 2
  | AssuranceRuntimeStatus.Invalidated => 1
  | AssuranceRuntimeStatus.Missing => 0
  end%Z.

Definition Graded : Type := SkillCertification * AssuranceRuntimeStatus.t * list string.
(** The status of a certification for a skill revision; a later objection replaces
    the status, not the reasons. *)
Definition revoke_status (b : bool) (s : AssuranceRuntimeStatus.t) (reason : string)
    (g : AssuranceRuntimeStatus.t * list string) : AssuranceRuntimeStatus.t * list string :=
  if b then (s, g.2 ++ [reason]) else g.
Definition grade (v : StoreView) (required : option AssuranceProfileRef) (revision : Z) (c : SkillCertification) :
    result Graded :=
  let current := bool_decide (cert_revision c = revision) && bool_decide (cert_status c = CertificationStatus.Certified) in
  let g := revoke_status (negb current) AssuranceRuntimeStatus.Invalidated
             "Certification does not match the current Skill revision" (AssuranceRuntimeStatus.Current, []) in
  let g := revoke_status match expires_at c with Some t => (t <=? view_now v)%Z | None => false end
             AssuranceRuntimeStatus.Expired "Certification has expired" g in
  revoked ← view_revoked v (cert_id c);
  let g := revoke_status revoked AssuranceRuntimeStatus.Invalidated "Certification was explicitly revoked" g in
  let g := revoke_status match required with Some p => negb (bool_decide (p = cert_profile c)) | None => false end
             AssuranceRuntimeStatus.OutOfScope "Certification profile is outside the action requirement" g in
  Ok (c, g.1, g.2).
Definition replaces (g : Graded) (selected : option Graded) : bool :=
  match selected with
  | None => true
  | Some s =>
      (assurance_rank s.1.2 <? assurance_rank g.1.2)%Z ||
      (assurance_rank g.1.2 =? assurance_rank s.1.2)%Z && (issued_at s.1.1 <? issued_at g.1.1)%Z
  end.
Definition consider (v : StoreView) (required : option AssuranceProfileRef) (revision : Z) (selected : option Graded)
    (c : SkillCertification) : result (option Graded) :=
  g ← grade v required revision c; Ok (if replaces g selected then Some g else selected).
Definition consider_skill (v : StoreView) (required : option AssuranceProfileRef) (selected : option Graded)
    (s : SkillRef) : result (option Graded) :=
  certifications ← view_certifications v (skill_id s);
  result_foldl (consider v required (skill_revision s)) selected certifications.

Definition assurance_of (risk : option RuntimeRiskAssessment) (selected : option Graded) : AssuranceContext :=
  match selected with
  | Some (c, s, reasons) =>
      let current := bool_decide (s = AssuranceRuntimeStatus.Current) in
      mkAssurance (mkSummary s (Some (cert_id c)) (Some (cert_profile c)) reasons)
        (mkAssuranceApplicability current
          [if current then "Skill revision, profile, scope, and validity are current"
           else "Certification is not current and applicable"])
        (if current then []
         else [mkGap AssuranceGapKind.StaleEvidence "Applicable current certification is unavailable"
                 (risk_severity <$> risk)])
  | None =>
      mkAssurance (mkSummary AssuranceRuntimeStatus.Missing None None ["No applicable local certification was found"])
        (mkAssuranceApplicability false [])
        [mkGap AssuranceGapKind.InsufficientEvidence "No applicable local certification was found"
           (risk_severity <$> risk)]
  end.
Fixpoint first_envelope (v : StoreView) (position : option EnvelopePosition.t) (l : list Skill) :
    option OperatingEnvelopeRef :=
  match l with
  | [] => None
  | s :: l' =>
      match sk_envelope s ≫= view_envelope v with
      | Some (id, n) => Some (mkEnvelope id n (default EnvelopePosition.Unknown position))
      | None => first_envelope v position l'
      end
  end.
Definition assurance_and_envelope (v : StoreView) (skills : list Skill) (refs : list SkillRef)
    (position : option EnvelopePosition.t) (risk : option RuntimeRiskAssessment) :
    result (AssuranceContext * option OperatingEnvelopeRef) :=
  let required := match risk with Some r => assurance_requirement r | None => None end in
  selected ← result_foldl (consider_skill v required) None refs;
  Ok (assurance_of risk selected, first_envelope v position skills).

(** * The context *)

Definition default_risk : RuntimeRiskAssessment :=
  mkRisk Severity.Low ReversibilityClass.NaturallyReversible ExternalityClass.RealityLocal None None
    ["No consequential external effect was identified"].

Definition with_risk (x : RuntimeRiskAssessment) (c : RuntimeDecisionContext) : RuntimeDecisionContext :=
  mkDecisionContext (team c) (plan c) (composition_assessment c) (operational_knowledge c) (causal c)
    (active_forecasts c) (preventive_interventions c) (task c) (proposed_action c) (proposed_effect c)
    (relevant_lessons c) (assurance c) (operating_envelope c) (capability_context c) x
    (uncertainty c) (available_recovery c) (available_experiments c) (knowledge_signals c) (applicable_skills c)
    (matched_reflexes c) (advisory_reflexes c) (failure_signature c) (externally_supported c)
    (tool_candidates c) (epistemic c) (diversity_requirements c).
Definition with_epistemic (x : option RuntimeEpistemicSummary) (l : list RuntimeDiversityRequirement)
    (c : RuntimeDecisionContext) : RuntimeDecisionContext :=
  mkDecisionContext (team c) (plan c) (composition_assessment c) (operational_knowledge c) (causal c)
    (active_forecasts c) (preventive_interventions c) (task c) (proposed_action c) (proposed_effect c)
    (relevant_lessons c) (assurance c) (operating_envelope c) (capability_context c) (risk c)
    (uncertainty c) (available_recovery c) (available_experiments c) (knowledge_signals c) (applicable_skills c)
    (matched_reflexes c) (advisory_reflexes c) (failure_signature c) (externally_supported c)
    (tool_candidates c) x l.

Definition uncertainty_of (rq : RuntimeContextRequest) (certain : bool) : RuntimeUncertainty :=
  mkUncertainty (if negb certain then UncertaintyLevel.High
                 else if 1 <? length (rq_candidates rq) then UncertaintyLevel.Medium else UncertaintyLevel.Low)
    (rq_candidates rq).

(** The knowledge signals of a request: the retrieved lessons, all lessons in scope and
    the applicable skills. *)
Definition signals_of (v : StoreView) (rq : RuntimeContextRequest) (matches lessons : list Lesson)
    (skills : list SkillRef) : KnowledgeSignals :=
  let scoped := scoped_lessons rq lessons in
  let contradicted := existsb lesson_contradicted scoped in
  let stale := existsb (view_stale v) scoped in
  let supported := nonempty matches || nonempty skills in
  mkSignals supported contradicted stale true (nonempty skills) (nonempty scoped)
    (precursor rq matches && negb stale && negb contradicted)
    (rq_externally_supported rq && negb supported) (nonempty (known_unknowns rq)).

(** An abstraction selected for the context counts as local support. *)
Definition resolve_abstractions (v : StoreView) (c : RuntimeDecisionContext) : result RuntimeDecisionContext :=
  selected ← view_abstraction v c;
  let s := knowledge_signals c in
  Ok (if (selected : bool) then
        with_signals (mkSignals true (local_contradicted s) (evidence_stale s) (context_in_scope s) (validated_skill s)
          (applicable_lesson s) (known_failure_precursor s) (remote_advisory_only s) (known_gap_matches s)) c
      else c).
(** A claim that states the task asks a high-risk action for diverse evidence. *)
Definition resolve_claim (v : StoreView) (rq : RuntimeContextRequest) (c : RuntimeDecisionContext) :
    result RuntimeDecisionContext :=
  claim ← view_claim v (task_description (task c));
  Ok (match claim with
      | Some e =>
          with_epistemic (Some e)
            match action_pattern rq with
            | Some a => if severe (risk_severity (risk c))
                        then diversity_requirements c ++ [mkDiversityRequirement a DiversityClass.Moderate]
                        else diversity_requirements c
            | None => diversity_requirements c
            end c
      | None => c
      end).
Definition resolve_risk (c : RuntimeDecisionContext) : RuntimeDecisionContext :=
  match proposed_effect c, effect_risk (risk c) with
  | Some _, None => with_risk (assess c) c
  | _, _ => c
  end.

(** [RuntimeContextSynthesizer::synthesize]. *)
Definition synthesize (v : StoreView) (rq : RuntimeContextRequest) : result RuntimeDecisionContext :=
  matches ← retrieve v (rq_context rq);
  lessons ← view_lessons v;
  skills ← view_skills v;
  selected ← select_skills v rq skills;
  reflexes ← view_reflexes v;
  matched ← select_reflexes v rq reflexes;
  recoveries ← view_recoveries v;
  available ← select_recoveries v rq recoveries;
  assured ← assurance_and_envelope v (map fst selected) (map snd selected) (rq_envelope_position rq) (rq_risk rq);
  guidance ← view_causal v (signature <$> rq_failure rq);
  let s := signals_of v rq matches lessons (map snd selected) in
  let c := mkDecisionContext None None None None guidance [] [] (rq_task rq) (rq_action rq) (rq_effect rq)
    (map (fun l => mkLessonRef (les_id l) (les_version l)) matches) assured.1 assured.2 (rq_capability rq)
    (default default_risk (rq_risk rq))
    (uncertainty_of rq (negb (local_contradicted s) && negb (evidence_stale s) && negb (known_gap_matches s) &&
      local_supported s)) available (rq_experiments rq) s (map snd selected) matched [] (rq_failure rq)
    (rq_externally_supported rq) [] None [] in
  c ← resolve_abstractions v c;
  c ← resolve_claim v rq c;
  Ok (resolve_risk c).

(** * Before a decision is recorded *)

Definition retain_unblocked (blocked : list string) (c : RuntimeDecisionContext) : RuntimeDecisionContext :=
  let free (id : string) := negb (bool_decide (id ∈ blocked)) in
  let s := knowledge_signals c in
  mkDecisionContext (team c) (plan c) (composition_assessment c) (operational_knowledge c) (causal c)
    (active_forecasts c) (preventive_interventions c) (task c) (proposed_action c) (proposed_effect c)
    (List.filter (fun l => free (lesson_id l)) (relevant_lessons c)) (assurance c) (operating_envelope c)
    (capability_context c) (risk c) (uncertainty c)
    (List.filter (fun r => free (recovery_id r)) (available_recovery c)) (available_experiments c)
    (if nonempty blocked then
       mkSignals false true (evidence_stale s) (context_in_scope s) (validated_skill s) (applicable_lesson s)
         (known_failure_precursor s) (remote_advisory_only s) (known_gap_matches s)
     else s) (applicable_skills c)
    (List.filter (fun r => free (reflex_id r)) (matched_reflexes c)) (advisory_reflexes c) (failure_signature c)
    (externally_supported c) (tool_candidates c) (epistemic c) (diversity_requirements c).
Definition artifact_ids (c : RuntimeDecisionContext) : list string :=
  map recovery_id (available_recovery c) ++ map reflex_id (matched_reflexes c) ++ map lesson_id (relevant_lessons c).
(** The quarantine of [prepare_runtime_decision_from_context]: quarantined recoveries,
    reflexes and lessons are dropped, and local support is withdrawn. *)
Definition quarantine (v : StoreView) (c : RuntimeDecisionContext) : result RuntimeDecisionContext :=
  blocked ← result_filter (view_quarantined v) (artifact_ids c);
  Ok (retain_unblocked blocked c).
End context.
