(* ===== verification/RuntimeSynthesis.v ===== *)
(** From the store to a decision: what a synthesized context says of the store
    (RuntimeContext.v), and what the policy then decides (RuntimeSafety.v). *)
From S2P Require Import Prelude Semver Scope Hierarchy Paths EconomicsModel EffectModel CapabilityModel PlanModel.
From S2P Require Import PlanValidity RuntimeModel RuntimePolicy RuntimeGuide RuntimeVerdict RuntimeSound RuntimeSafety.
From S2P Require Import RuntimeContext.

(** * Loops that may fail *)

Section loops.
Context {A S : Type}.

Lemma result_filter_Ok (f : A -> result bool) l k :
  result_filter f l = Ok k -> forall x, x ∈ k <-> x ∈ l /\ f x = Ok true.
Proof.
  revert k. induction l as [|a l IH]; cbn; intros k.
  { intros [= <-] x. set_solver. }
  intros (b & Hb & (rest & Hr & [= <-])%result_bind_Ok)%result_bind_Ok x. specialize (IH _ Hr x).
  destruct b; rewrite ?elem_of_cons, IH; [naive_solver|].
  split; [naive_solver|]. intros [[->|?] ?]; [congruence|done].
Qed.
Lemma result_filter_all (f : A -> result bool) l k :
  result_filter f l = Ok k -> forall x, x ∈ l -> exists b, f x = Ok b.
Proof.
  revert k. induction l as [|a l IH]; cbn; intros k; [set_solver|].
  intros (b & Hb & (rest & Hr & _)%result_bind_Ok)%result_bind_Ok x [->|Hx]%elem_of_cons; eauto.
Qed.
End loops.

Section synthesis.
Context `{RuntimeTexts}.
Implicit Types (v : StoreView) (rq : RuntimeContextRequest) (c : RuntimeDecisionContext).

(** * The parts of a synthesized context *)

(** What a synthesis read and selected. *)
Record synthesis v rq c : Type := {
  sy_lessons : list Lesson;
  sy_matches : list Lesson;
  sy_skills : list Skill;
  sy_selected : list (Skill * SkillRef);
  sy_reflexes : list Reflex;
  sy_recoveries : list Recovery;
  sy_abstraction : bool;
}.
Arguments sy_lessons {v rq c}.
Arguments sy_matches {v rq c}.
Arguments sy_skills {v rq c}.
Arguments sy_selected {v rq c}.
Arguments sy_reflexes {v rq c}.
Arguments sy_recoveries {v rq c}.
Arguments sy_abstraction {v rq c}.

Record synthesized v rq c (y : synthesis v rq c) : Prop := {
  so_matches : retrieve v (rq_context rq) = Ok (sy_matches y);
  so_lessons : view_lessons v = Ok (sy_lessons y);
  so_skills : view_skills v = Ok (sy_skills y);
  so_selected : select_skills v rq (sy_skills y) = Ok (sy_selected y);
  so_reflexes : view_reflexes v = Ok (sy_reflexes y);
  so_matched : select_reflexes v rq (sy_reflexes y) = Ok (matched_reflexes c);
  so_recoveries : view_recoveries v = Ok (sy_recoveries y);
  so_available : select_recoveries v rq (sy_recoveries y) = Ok (available_recovery c);
  so_assured : assurance_and_envelope v (map fst (sy_selected y)) (map snd (sy_selected y)) (rq_envelope_position rq)
    (rq_risk rq) = Ok (assurance c, operating_envelope c);
  so_signals : let s := signals_of v rq (sy_matches y) (sy_lessons y) (map snd (sy_selected y)) in
    knowledge_signals c = mkSignals (sy_abstraction y || local_supported s) (local_contradicted s) (evidence_stale s) true
      (validated_skill s) (applicable_lesson s) (known_failure_precursor s) (remote_advisory_only s) (known_gap_matches s);
  so_abstraction : exists c', view_abstraction v c' = Ok (sy_abstraction y);
  so_request : failure_signature c = rq_failure rq /\ proposed_action c = rq_action rq /\ proposed_effect c = rq_effect rq /\
    capability_context c = rq_capability rq /\ applicable_skills c = map snd (sy_selected y);
  so_empty : operational_knowledge c = None /\ active_forecasts c = [] /\ team c = None /\ plan c = None;
}.

(** The last steps of a synthesis leave everything else alone. *)
Definition same_parts c c' : Prop :=
  matched_reflexes c' = matched_reflexes c /\ available_recovery c' = available_recovery c /\
  assurance c' = assurance c /\ operating_envelope c' = operating_envelope c /\
  failure_signature c' = failure_signature c /\ proposed_action c' = proposed_action c /\
  proposed_effect c' = proposed_effect c /\ capability_context c' = capability_context c /\
  applicable_skills c' = applicable_skills c /\ operational_knowledge c' = operational_knowledge c /\
  active_forecasts c' = active_forecasts c /\ team c' = team c /\ plan c' = plan c.
Lemma resolve_claim_parts v rq c c' :
  resolve_claim v rq c = Ok c' -> same_parts c c' /\ knowledge_signals c' = knowledge_signals c.
Proof. intros (e & _ & [= <-])%result_bind_Ok. by destruct e. Qed.
Lemma resolve_risk_parts c : same_parts c (resolve_risk c) /\ knowledge_signals (resolve_risk c) = knowledge_signals c.
Proof. unfold resolve_risk. by destruct (proposed_effect c), (effect_risk (risk c)). Qed.
Lemma resolve_abstractions_parts v c c' :
  resolve_abstractions v c = Ok c' -> exists b : bool, view_abstraction v c = Ok b /\ same_parts c c' /\ let s := knowledge_signals c in
    knowledge_signals c' = mkSignals (b || local_supported s) (local_contradicted s) (evidence_stale s)
      (context_in_scope s) (validated_skill s) (applicable_lesson s) (known_failure_precursor s)
      (remote_advisory_only s) (known_gap_matches s).
Proof.
  intros (b & Hb & [= <-])%result_bind_Ok. exists b. split; [done|]. destruct b; [done|]. split; [done|].
  by destruct (knowledge_signals c).
Qed.

Lemma synthesize_Ok v rq c : synthesize v rq = Ok c -> exists y, synthesized v rq c y.
Proof.
  unfold synthesize. intros Hs.
  repeat (apply result_bind_Ok in Hs as (? & ? & Hs)). injection Hs as <-.
  match goal with E : resolve_abstractions _ _ = Ok _ |- _ => apply resolve_abstractions_parts in E as (b & Ha & Hp & Hb) end.
  match goal with E : resolve_claim _ _ _ = Ok _ |- _ => apply resolve_claim_parts in E as [Hp' Hs'] end.
  match goal with |- context [resolve_risk ?c] => destruct (resolve_risk_parts c) as [Hp'' Hs''] end.
  unfold same_parts in *. cbn in Hp, Hb. destruct_and!.
  match goal with E : assurance_and_envelope _ _ _ _ _ = Ok ?p |- _ => destruct p as [assured envelope] end.
  cbn [fst snd] in *.
  eexists (Build_synthesis _ _ _ _ _ _ _ _ _ b).
  split; cbn [sy_lessons sy_matches sy_skills sy_selected sy_reflexes sy_recoveries sy_abstraction];
    try eassumption; first [congruence|by eexists|split_and!; congruence|rewrite Hs'', Hs'; exact Hb].
Qed.

Lemma synthesized_resolves v rq c y : synthesized v rq c y -> resolve_signals c = c.
Proof. intros Hy. unfold resolve_signals. by rewrite (proj1 (so_empty _ _ _ _ Hy)). Qed.
Lemma synthesized_unadvised v rq c y cfg : synthesized v rq c y -> ~ advised cfg c.
Proof.
  intros Hy [_ [f Hf]]. destruct (so_empty _ _ _ _ Hy) as (_ & He & _). unfold leading_forecast in Hf. by rewrite He in Hf.
Qed.

(** * Reflexes and recoveries *)

Lemma usable_artifact_true v id b : usable_artifact v id b = Ok true <-> view_quarantined v id = Ok false /\ b = true.
Proof.
  unfold usable_artifact. destruct (view_quarantined v id) as [[]|]; cbn; [|destruct b|];
    split; intros; destruct_and?; simplify_eq; auto; by destruct b.
Qed.
Lemma select_reflexes_Ok v rq l refs :
  select_reflexes v rq l = Ok refs -> forall x, x ∈ refs <->
    exists r, r ∈ l /\ view_quarantined v (ref_id r) = Ok false /\ reflex_matches rq r = true /\
      x = mkReflexRef (ref_id r) (ref_version r).
Proof.
  intros (kept & Hk & [= <-])%result_bind_Ok x. rewrite list_elem_of_fmap. pose proof (result_filter_Ok _ _ _ Hk) as Hf.
  split; [intros (r & -> & [Hr [? ?]%usable_artifact_true]%Hf); eauto 6|].
  intros (r & ? & ? & ? & ->). exists r. split; [done|]. apply Hf. by rewrite usable_artifact_true.
Qed.
Lemma select_recoveries_Ok v rq l refs :
  select_recoveries v rq l = Ok refs -> forall x, x ∈ refs <->
    exists r, r ∈ l /\ view_quarantined v (rcv_id r) = Ok false /\ recovery_applies rq r = true /\ x = recovery_ref v r.
Proof.
  intros (kept & Hk & [= <-])%result_bind_Ok x. rewrite list_elem_of_fmap. pose proof (result_filter_Ok _ _ _ Hk) as Hf.
  split; [intros (r & -> & [Hr [? ?]%usable_artifact_true]%Hf); eauto 6|].
  intros (r & ? & ? & ? & ->). exists r. split; [done|]. apply Hf. by rewrite usable_artifact_true.
Qed.

(** * Certifications *)

(** A certification of this revision, in force and of the required profile. *)
Definition current_for v (required : option AssuranceProfileRef) (revision : Z) (k : SkillCertification) : Prop :=
  cert_revision k = revision /\ cert_status k = CertificationStatus.Certified /\
  (forall t, expires_at k = Some t -> (view_now v < t)%Z) /\ view_revoked v (cert_id k) = Ok false /\
  (forall p, required = Some p -> cert_profile k = p).
Definition chosen_current (s : option Graded) : Prop := exists g, s = Some g /\ g.1.2 = AssuranceRuntimeStatus.Current.

Lemma grade_current v required revision k g :
  grade v required revision k = Ok g -> g.1.1 = k /\ (g.1.2 = AssuranceRuntimeStatus.Current <-> current_for v required revision k).
Proof.
  intros (b & Hb & [= <-])%result_bind_Ok. split; [done|]. cbn. unfold current_for, revoke_status. rewrite Hb.
  destruct required as [p|]; [destruct (bool_decide_reflect (p = cert_profile k)) as [Hp|Hp]|]; cbn;
    (destruct b; cbn; [split; [done|naive_solver]|]);
    (destruct (expires_at k) as [t|]; [destruct (Z.leb_spec t (view_now v)) as [Ht|Ht]|]; cbn;
      [split; [done|intros (_ & _ & Hx & _); specialize (Hx t eq_refl); lia]|..]);
    destruct (bool_decide_reflect (cert_revision k = revision)), (bool_decide_reflect (cert_status k = CertificationStatus.Certified));
    cbn; naive_solver.
Qed.

(** What the freshness policy is told of a skill revision that is not revoked. *)
Definition present v (revision : Z) (x : CurrentAssuranceContext) : Prop :=
  ca_now x = view_now v /\ ca_skill_revision x = revision /\ ca_invalidated x = false.
(** The contract and the tools and runtimes a certification was given for. *)
Definition same_contract (k : SkillCertification) (x : CurrentAssuranceContext) : Prop :=
  ca_contract_revision x = cert_contract_revision k.
Definition same_artifacts (k : SkillCertification) (x : CurrentAssuranceContext) : Prop :=
  ca_tool_artifact_hashes x = tool_artifact_hashes k /\ ca_runtime_digests x = runtime_digests k.

(** A certification the runtime counts as current is fresh by the policy as well,
    unless the contract, the tools or the runtimes have changed. *)
Lemma current_freshness v required revision k x : current_for v required revision k -> present v revision x ->
  match freshness_status k x with
  | CertificationFreshness.Current => same_contract k x /\ same_artifacts k x
  | CertificationFreshness.ReviewRecommended => same_contract k x /\ ~ same_artifacts k x
  | CertificationFreshness.Invalidated => ~ same_contract k x
  | CertificationFreshness.Expired => False
  end.
Proof.
  intros (<- & _ & Hx & _) (Hn & Hr & Hi). unfold freshness_status, same_contract, same_artifacts. rewrite Hi, Hr, Hn.
  rewrite (bool_decide_eq_true_2 _ eq_refl). cbn. case_bool_decide as Hc; cbn; [|done].
  destruct (expires_at k) as [t|]; [specialize (Hx t eq_refl); destruct (Z.leb_spec t (view_now v)) as [?|_]; [lia|]|];
    repeat case_bool_decide; cbn; naive_solver.
Qed.
Lemma fresh_current v required revision k x : present v revision x ->
  freshness_status k x = CertificationFreshness.Current -> cert_status k = CertificationStatus.Certified ->
  view_revoked v (cert_id k) = Ok false -> (forall p, required = Some p -> cert_profile k = p) ->
  current_for v required revision k.
Proof.
  intros (Hn & Hr & Hi) Hf Hs Hv Hp. unfold freshness_status in Hf. rewrite Hi, Hr, Hn in Hf.
  case_bool_decide as Hrev; [|done]. case_bool_decide; [|done]. cbn in Hf. split_and!; try done.
  intros t Ht. rewrite Ht in Hf. destruct (Z.leb_spec t (view_now v)); [done|lia].
Qed.

Lemma rank_current s : (assurance_rank s <= 6)%Z /\ (assurance_rank s = 6%Z <-> s = AssuranceRuntimeStatus.Current).
Proof. by destruct s. Qed.
Lemma replaces_current g s :
  chosen_current (if replaces g s then Some g else s) <-> g.1.2 = AssuranceRuntimeStatus.Current \/ chosen_current s.
Proof.
  unfold chosen_current, replaces. destruct s as [s|]; [|naive_solver].
  destruct (rank_current g.1.2) as [Hg Eg], (rank_current s.1.2) as [Hs Es].
  destruct (Z.ltb_spec (assurance_rank s.1.2) (assurance_rank g.1.2)) as [Hl|Hl]; cbn [orb].
  { split; [naive_solver|]. intros [?|(x & [= <-] & Hx)]; [by eauto|]. apply Es in Hx. lia. }
  destruct (Z.eqb_spec (assurance_rank g.1.2) (assurance_rank s.1.2)) as [He|He]; cbn [andb].
  - rewrite He in Eg. assert (Heq : g.1.2 = AssuranceRuntimeStatus.Current <-> s.1.2 = AssuranceRuntimeStatus.Current) by tauto.
    destruct (_ <? _)%Z; naive_solver.
  - split; [naive_solver|]. intros [Hx|?]; [|done]. apply Eg in Hx. lia.
Qed.

(** A choice comes from the certifications considered. *)
Definition from_store v required (refs : list SkillRef) (s : option Graded) : Prop :=
  forall g, s = Some g -> exists r certs, r ∈ refs /\ view_certifications v (skill_id r) = Ok certs /\ g.1.1 ∈ certs /\
    (g.1.2 = AssuranceRuntimeStatus.Current <-> current_for v required (skill_revision r) g.1.1).

Lemma consider_Ok v required r certs refs s s' :
  r ∈ refs -> view_certifications v (skill_id r) = Ok certs -> from_store v required refs s ->
  result_foldl (consider v required (skill_revision r)) s certs = Ok s' ->
  from_store v required refs s' /\
  (chosen_current s' <-> chosen_current s \/ exists k, k ∈ certs /\ current_for v required (skill_revision r) k).
Proof.
  intros Hr Hc Hs Hf.
  apply (result_foldl_prefix (fun seen s' => from_store v required refs s' /\
    (chosen_current s' <-> chosen_current s \/ exists k, k ∈ seen /\ current_for v required (skill_revision r) k)))
    with (s := s) (f := consider v required (skill_revision r)); [|by split; [|set_solver]|done].
  clear Hs Hf s'. intros seen k rest s1 s2 Hl [Hs1 Hcur] (g & [Hk Hg]%grade_current & [= <-])%result_bind_Ok. split.
  - destruct (replaces g s1); [|done]. intros g' [= <-]. exists r, certs. rewrite Hk. split_and!; [done..| |done].
    rewrite Hl. set_solver.
  - rewrite replaces_current, Hcur, Hg. set_solver.
Qed.
Lemma consider_skills_Ok v required refs s :
  result_foldl (consider_skill v required) None refs = Ok s ->
  from_store v required refs s /\
  (chosen_current s <-> exists r certs k, r ∈ refs /\ view_certifications v (skill_id r) = Ok certs /\ k ∈ certs /\
    current_for v required (skill_revision r) k).
Proof.
  intros Hf.
  apply (result_foldl_prefix (fun seen s => from_store v required refs s /\
    (chosen_current s <-> exists r certs k, r ∈ seen /\ view_certifications v (skill_id r) = Ok certs /\ k ∈ certs /\
      current_for v required (skill_revision r) k))) with (s := None) (f := consider_skill v required); [| |done].
  - clear Hf s. intros seen r rest s1 s2 Hl [Hs1 Hcur] (certs & Hc & Hf)%result_bind_Ok.
    apply (consider_Ok _ _ r certs refs) in Hf as [Hs2 Hcur2]; [|rewrite Hl; set_solver|done..].
    split; [done|]. rewrite Hcur2, Hcur. split.
    + intros [(r' & certs' & k & ? & ? & ? & ?)|(k & ? & ?)]; [exists r', certs', k|exists r, certs, k]; set_solver.
    + intros (r' & certs' & k & [?| ->%list_elem_of_singleton]%elem_of_app & ? & ? & ?); [left; by exists r', certs', k|right].
      assert (certs' = certs) as -> by congruence. by exists k.
  - split; [done|]. split; [intros (g & ? & _); done|set_solver].
Qed.

(** * The classification *)

Definition direct_support {v rq c} (y : synthesis v rq c) : bool := nonempty (sy_matches y) || nonempty (sy_selected y).
Definition in_scope {v rq c} (y : synthesis v rq c) : list Lesson := scoped_lessons rq (sy_lessons y).

Lemma nonempty_map {A B} (f : A -> B) l : nonempty (map f l) = nonempty l.
Proof. by destruct l. Qed.
Lemma supported_signals v rq c y :
  synthesized v rq c y ->
  classify c = KnowledgeState.KnownSupported <->
  known_unknowns rq = [] /\
  (if sy_abstraction y || direct_support y
   then existsb lesson_contradicted (in_scope y) = false /\ existsb (view_stale v) (in_scope y) = false /\
        (rq_externally_supported rq = true -> direct_support y = true)
   else in_scope y <> [] /\ rq_externally_supported rq = false).
Proof.
  intros Hy. unfold classify. rewrite (so_signals _ _ _ _ Hy). cbn. rewrite !nonempty_map. fold (direct_support y).
  fold (in_scope y).
  assert (Hi : in_scope y <> [] <-> nonempty (in_scope y) = true) by by destruct (in_scope y).
  assert (Hu : known_unknowns rq = [] <-> nonempty (known_unknowns rq) = false) by by destruct (known_unknowns rq).
  assert (Hsk : direct_support y = false -> nonempty (sy_selected y) = false).
  { unfold direct_support. by intros [_ ?]%orb_false_iff. }
  rewrite Hu. destruct (sy_abstraction y), (direct_support y); cbn [orb]; rewrite ?Hi;
    destruct (existsb lesson_contradicted _), (existsb (view_stale v) _),
    (nonempty (in_scope y)), (rq_externally_supported rq), (nonempty (known_unknowns rq));
    cbn; rewrite ?orb_true_r, ?orb_false_r, ?Hsk by done; cbn; intuition congruence.
Qed.

(** * Quarantine *)

Lemma filter_free {A} (f : A -> string) (blocked : list string) l :
  map f (List.filter (fun x => negb (bool_decide (f x ∈ blocked))) l) =
  List.filter (fun id => negb (bool_decide (id ∈ blocked))) (map f l).
Proof. induction l as [|x l IH]; [done|]. cbn. destruct (bool_decide (f x ∈ blocked)); cbn; by rewrite IH. Qed.
Lemma quarantine_Ok v c c' :
  quarantine v c = Ok c' -> exists blocked, c' = retain_unblocked blocked c /\
    (forall id, id ∈ blocked <-> id ∈ artifact_ids c /\ view_quarantined v id = Ok true).
Proof.
  intros (blocked & Hb & [= <-])%result_bind_Ok. exists blocked. split; [done|]. by apply result_filter_Ok.
Qed.
Lemma retained_ids (blocked : list string) c :
  artifact_ids (retain_unblocked blocked c) = List.filter (fun id => negb (bool_decide (id ∈ blocked))) (artifact_ids c).
Proof. unfold artifact_ids. cbn. by rewrite !List.filter_app, !filter_free. Qed.
(** Quarantining anything leaves the two flags that are not withdrawn to decide. *)
Lemma quarantined_classify (blocked : list string) c :
  blocked <> [] ->
  let s := knowledge_signals c in
  classify (retain_unblocked blocked c) =
    (if negb (context_in_scope s) then KnowledgeState.OutOfScope
     else if (validated_skill s || applicable_lesson s) && negb (remote_advisory_only s) && negb (known_gap_matches s)
     then KnowledgeState.KnownSupported else KnowledgeState.Unknown).
Proof. by destruct blocked. Qed.

(** * The theorems *)

(** What makes the policy treat a request as known: with direct or abstract support, no lesson in scope is
    contradicted or stale; without any support, it is enough that some lesson is in scope and nothing is external. *)
Theorem synthesized_support v rq c :
  synthesize v rq = Ok c ->
  exists y, synthesized v rq c y /\
    (classify c = KnowledgeState.KnownSupported <->
     known_unknowns rq = [] /\
     if sy_abstraction y || direct_support y
     then existsb lesson_contradicted (in_scope y) = false /\ existsb (view_stale v) (in_scope y) = false /\
          (rq_externally_supported rq = true -> direct_support y = true)
     else in_scope y <> [] /\ rq_externally_supported rq = false).
Proof. intros [y Hy]%synthesize_Ok. exists y. split; [done|]. by apply supported_signals. Qed.

(** C35. Unproven lessons count as support: when nothing in the store supports a request and every lesson is a mere
    candidate, contradicted or retired, one such lesson in scope still makes the request known and supported. *)
Theorem unproven_lesson_supports v rq c lessons :
  synthesize v rq = Ok c -> view_lessons v = Ok lessons ->
  Forall (fun l => eligible l = false) lessons -> view_skills v = Ok [] ->
  (forall c', view_abstraction v c' = Ok false) -> known_unknowns rq = [] -> rq_externally_supported rq = false ->
  scoped_lessons rq lessons <> [] ->
  classify c = KnowledgeState.KnownSupported /\ local_supported (knowledge_signals c) = false /\
  local_contradicted (knowledge_signals c) = existsb lesson_contradicted (scoped_lessons rq lessons).
Proof.
  intros Hs Hl He Hk Ha Hu Hx Hsc. apply synthesize_Ok in Hs as [y Hy].
  assert (Hle : sy_lessons y = lessons) by (pose proof (so_lessons _ _ _ _ Hy); congruence).
  assert (Hm : sy_matches y = []).
  { pose proof (so_matches _ _ _ _ Hy) as Hr. unfold retrieve in Hr. rewrite Hl in Hr. cbn in Hr.
    apply result_bind_Ok in Hr as (kept & Hkept & [= <-]). pose proof (result_filter_Ok _ _ _ Hkept) as Hf.
    assert (Hn : kept = []).
    { apply elem_of_nil_inv. intros l [Hin (q & _ & (st & _ & [= Hb])%result_bind_Ok)%result_bind_Ok]%Hf.
      rewrite Forall_forall in He. rewrite (He l Hin), andb_false_r in Hb. done. }
    by rewrite Hn. }
  assert (Hse : sy_selected y = []).
  { pose proof (so_selected _ _ _ _ Hy) as Hr. pose proof (so_skills _ _ _ _ Hy) as Hk'.
    assert (sy_skills y = []) as Hn by congruence. rewrite Hn in Hr. by injection Hr. }
  assert (Hab : sy_abstraction y = false).
  { destruct (so_abstraction _ _ _ _ Hy) as [c' Hc']. rewrite Ha in Hc'. by injection Hc'. }
  split; [|by rewrite (so_signals _ _ _ _ Hy), Hab, Hm, Hse, Hle].
  apply (supported_signals _ _ _ _ Hy). split; [done|]. unfold direct_support, in_scope. by rewrite Hab, Hm, Hse, Hle.
Qed.

(** C36. The quarantine before a decision drops exactly the quarantined recoveries, reflexes and lessons and, when it
    drops one, withdraws local support; but support is then claimed again whenever a validated skill or a lesson in
    scope was noted before. *)
Theorem quarantine_exact v c c' :
  quarantine v c = Ok c' ->
  (forall id, id ∈ artifact_ids c' <-> id ∈ artifact_ids c /\ view_quarantined v id = Ok false) /\
  ((forall id, id ∈ artifact_ids c -> view_quarantined v id = Ok false) -> classify c' = classify c) /\
  (forall id, id ∈ artifact_ids c -> view_quarantined v id = Ok true ->
    local_supported (knowledge_signals c') = false /\ local_contradicted (knowledge_signals c') = true /\
    (classify c' = KnowledgeState.KnownSupported <->
     let s := knowledge_signals c in
     context_in_scope s = true /\ (validated_skill s = true \/ applicable_lesson s = true) /\
     remote_advisory_only s = false /\ known_gap_matches s = false)).
Proof.
  intros Hq. assert (Hall : forall id, id ∈ artifact_ids c -> exists b, view_quarantined v id = Ok b).
  { apply result_bind_Ok in Hq as (blocked & Hb & _). by eapply result_filter_all. }
  apply quarantine_Ok in Hq as (blocked & -> & Hb). split; [|split].
  - intros id. rewrite retained_ids, list_elem_of_In, filter_In, <- list_elem_of_In, negb_true_iff, bool_decide_eq_false, Hb.
    split; [|intros [? Hf]; split; [done|]; rewrite Hf; by intros [_ ?]].
    intros [Hid Hn]. split; [done|]. destruct (Hall id Hid) as [[] Hv]; [by destruct Hn|done].
  - intros Hf. assert (blocked = []) as ->; [|done]. apply elem_of_nil_inv. intros id [Hid Ht]%Hb.
    specialize (Hf id Hid). congruence.
  - intros id Hid Ht. assert (Hne : blocked <> []).
    { intros ->. pose proof (proj2 (Hb id) (conj Hid Ht)) as Hn. by apply elem_of_nil in Hn. }
    split; [by destruct blocked|]. split; [by destruct blocked|]. rewrite (quarantined_classify _ _ Hne). cbn.
    destruct (context_in_scope _), (validated_skill _), (applicable_lesson _), (remote_advisory_only _), (known_gap_matches _);
      cbn; intuition congruence.
Qed.

(** C33. When the runtime reports assurance as current, and what that does not say. It is current exactly when a
    certification of a selected skill's revision is certified, unexpired, unrevoked and of the required profile, and then
    the assurance names such a certification. The revision of the contract, the artifacts of the tools and the digests of
    the runtimes are not looked at: where the freshness policy of src/assurance, which does compare them, calls a
    certification current, so does the runtime; but a certification that is current here is, by that policy, invalidated
    exactly when the contract has another revision, and to be reviewed exactly when only tools or runtimes changed. *)
Theorem assurance_current_exact v skills refs position risk a envelope :
  assurance_and_envelope v skills refs position risk = Ok (a, envelope) ->
  let required := match risk with Some r => assurance_requirement r | None => None end in
  let stored r k := exists certs, view_certifications v (skill_id r) = Ok certs /\ k ∈ certs in
  let certified r k := stored r k /\ current_for v required (skill_revision r) k in
  (assurance_applicable (assurance_applicability a) = true <-> assurance_status (summary a) = AssuranceRuntimeStatus.Current) /\
  (assurance_status (summary a) = AssuranceRuntimeStatus.Current <-> exists r k, r ∈ refs /\ certified r k) /\
  (assurance_status (summary a) = AssuranceRuntimeStatus.Current ->
    gaps a = [] /\ exists r k, r ∈ refs /\ certified r k /\ certification (summary a) = Some (cert_id k)) /\
  (forall r k x, r ∈ refs -> stored r k -> present v (skill_revision r) x ->
    (freshness_status k x = CertificationFreshness.Current -> cert_status k = CertificationStatus.Certified ->
     view_revoked v (cert_id k) = Ok false -> (forall p, required = Some p -> cert_profile k = p) ->
     assurance_status (summary a) = AssuranceRuntimeStatus.Current) /\
    (certified r k ->
     match freshness_status k x with
     | CertificationFreshness.Current => same_contract k x /\ same_artifacts k x
     | CertificationFreshness.ReviewRecommended => same_contract k x /\ ~ same_artifacts k x
     | CertificationFreshness.Invalidated => ~ same_contract k x
     | CertificationFreshness.Expired => False
     end)).
Proof.
  intros (selected & [Hfrom Hcur]%consider_skills_Ok & [= <- _])%result_bind_Ok. cbn zeta.
  set (required := match risk with Some r => assurance_requirement r | None => None end) in *.
  assert (Hst : assurance_status (summary (assurance_of risk selected)) = AssuranceRuntimeStatus.Current <-> chosen_current selected).
  { unfold chosen_current. destruct selected as [[[k st] reasons]|]; cbn; [|naive_solver].
    split; [intros ->; eauto|]. by intros (? & [= <-] & ?). }
  assert (Hex : assurance_status (summary (assurance_of risk selected)) = AssuranceRuntimeStatus.Current <->
    exists r k, r ∈ refs /\ (exists certs, view_certifications v (skill_id r) = Ok certs /\ k ∈ certs) /\
      current_for v required (skill_revision r) k).
  { rewrite Hst, Hcur. split; [intros (r & certs & k & ?)|intros (r & k & ? & (certs & ?) & ?)]; naive_solver. }
  split; [|split; [done|split]].
  - destruct selected as [[[k st] reasons]|]; cbn; [apply bool_decide_eq_true|done].
  - intros Hc%Hst. pose proof Hc as (g & Hg & Hg2). destruct (Hfrom g Hg) as (r & certs & Hr & Hv & Hin & Hk).
    rewrite Hg. destruct g as [[k st] reasons]. cbn in *. subst st. split; [done|].
    exists r, k. split; [done|]. split; [|done]. split; [by exists certs|]. by apply Hk.
  - intros r k x Hr Hk Hp. split; [|intros [_ Hc]; by eapply current_freshness].
    intros ????. apply Hex. exists r, k. split; [done|]. split; [done|]. by eapply fresh_current.
Qed.

(** C34. From the store to a recovery: a recovery the policy decides on is one of the store, supported or validated, not
    quarantined, in scope, for the observed failure, and no older than the configured age. *)
Theorem recover_from_store v rq cfg c e d :
  synthesize v rq = Ok c -> evaluate cfg c = Ok e -> decision e = Recover d ->
  exists recoveries r failure, view_recoveries v = Ok recoveries /\ r ∈ recoveries /\ rq_failure rq = Some failure /\
    recovery d = recovery_ref v r /\ rcv_signature r = signature failure /\
    (rcv_status r = RecoveryStatus.Supported \/ rcv_status r = RecoveryStatus.Validated) /\
    selector_matches (rcv_context r) (rq_context rq) = true /\ view_quarantined v (rcv_id r) = Ok false /\
    (view_now v - rcv_updated_at r <= stale_after_days v * day)%Z.
Proof.
  intros [y Hy]%synthesize_Ok [_ Hs]%evaluate_Ok Hd. rewrite (synthesized_resolves _ _ _ _ Hy) in Hs.
  destruct Hs as [Hs _ _ _]. rewrite Hd in Hs. destruct Hs as (failure & Hf & _ & (Hfresh & _ & Hsig) & Ho & _).
  destruct Ho as [Ho|(k & i & Hk & _)]; [|destruct (so_empty _ _ _ _ Hy); congruence].
  apply (select_recoveries_Ok _ _ _ _ (so_available _ _ _ _ Hy)) in Ho as (r & Hr & Hq & Ha & Hd').
  exists (sy_recoveries y), r, failure. rewrite Hd' in Hfresh, Hsig. unfold recovery_applies in Ha.
  apply andb_true_iff in Ha as [[Hstat Hsel]%andb_true_iff _].
  split_and!; [apply (so_recoveries _ _ _ _ Hy)|done| |done|done| |done|done|by apply Z.leb_le].
  - rewrite <- Hf. symmetry. apply (so_request _ _ _ _ Hy).
  - destruct (rcv_status r); auto; done.
Qed.

(** A reflex whose trigger matches the proposed action keeps the agent from acting on it, whether it is active or
    merely supported. *)
Theorem reflex_blocks_act v rq cfg c e reflexes r :
  synthesize v rq = Ok c -> evaluate cfg c = Ok e -> view_reflexes v = Ok reflexes -> r ∈ reflexes ->
  view_quarantined v (ref_id r) = Ok false -> reflex_matches rq r = true ->
  decision_kind (decision e) <> RuntimeDecisionKind.Act.
Proof.
  intros [y Hy]%synthesize_Ok He Hrs Hr Hq Hm Ha.
  apply (decides_act _ _ _ He), verdict_acts in Ha. rewrite (synthesized_resolves _ _ _ _ Hy) in Ha.
  destruct Ha as [_ [Ha|[[_ _ [Hn _] _ _] _]]]; [by eapply synthesized_unadvised|].
  assert (Hin : mkReflexRef (ref_id r) (ref_version r) ∈ matched_reflexes c).
  { apply (select_reflexes_Ok _ _ _ _ (so_matched _ _ _ _ Hy)). exists r. split_and!; [|done..].
    pose proof (so_reflexes _ _ _ _ Hy). congruence. }
  rewrite Hn in Hin. by apply elem_of_nil in Hin.
Qed.
End synthesis.
