(* ===== verification/RuntimeExample.v ===== *)
(** The runtime guidance on concrete requests. The properties of decisions, of the
    contexts synthesized from a store and of the quarantine are applied to them. *)
From S2P Require Import Prelude Semver Scope Hierarchy Paths EconomicsModel EffectModel CapabilityModel PlanModel.
From S2P Require Import PlanValidity RuntimeModel RuntimePolicy RuntimeGuide RuntimeVerdict RuntimeSound RuntimeSafety.
From S2P Require Import RuntimeContext RuntimeSynthesis.

Module RuntimeExamples.
#[local] Existing Instance Sample.json.

(** The hash is the text itself, the shown texts are constant. *)
#[local] Instance texts : RuntimeTexts := {|
  F64 := Z;
  f64_text z := "0.5";
  debug_capability k := "Capability";
  debug_operation o := "Operation";
  debug_horizon h := "NextAction";
  debug_intervention i := "Observe";
  action_json a := Some "{}";
  blake3_hex s := s;
|}.

(** * Decisions *)

Definition no_approval : GovernanceContext := mkGovernance false None false None.
Definition must_approve : GovernanceContext := mkGovernance false None true None.
Definition capable (adapter : bool) (g : GovernanceContext) : CapabilityContext :=
  mkCapabilityContext [] true true adapter true g.
Definition current_assurance_of_skill : AssuranceContext :=
  mkAssurance (mkSummary AssuranceRuntimeStatus.Current (Some "cert-1") None []) (mkAssuranceApplicability true []) [].
Definition no_assurance : AssuranceContext :=
  mkAssurance (mkSummary AssuranceRuntimeStatus.Missing None None []) (mkAssuranceApplicability false [])
    [mkGap AssuranceGapKind.InsufficientEvidence "No applicable local certification was found" None].
Definition risk_of (s : Severity.t) : RuntimeRiskAssessment :=
  mkRisk s ReversibilityClass.NaturallyReversible ExternalityClass.RealityLocal None None [].
Definition known : KnowledgeSignals := mkSignals true false false true true true false false false.
Definition unknown : KnowledgeSignals := mkSignals false false false true false false false false false.
Definition experiments (m : ExperimentMode.t) : ExperimentCapabilitySummary :=
  mkExperiments m true true (mkBudget 4 4 None None None None None EffectRisk.Low) true
    (mkRequirements IsolationLevel.None_ IsolationLevel.None_ IsolationLevel.None_ IsolationLevel.None_ false).
Definition tools : list ToolCandidate :=
  [mkTool "shell" true false 9; mkTool "editor" true true 3; mkTool "patch" true true 2; mkTool "mail" false true 1].
Definition build : NormalizedAction := Shell " cargo build " "/repo".
(** A context with the given capabilities, risk, assurance, knowledge and experiments. *)
Definition situation (cap : CapabilityContext) (s : Severity.t) (a : AssuranceContext) (k : KnowledgeSignals)
    (m : ExperimentMode.t) : RuntimeDecisionContext :=
  mkDecisionContext None None None None (mkCausal [] []) [] [] (mkTask "build the crate" (Some "build") [])
    (Some build) None [] a None cap (risk_of s) (mkUncertainty UncertaintyLevel.Low []) [] (experiments m) k [] [] []
    None false tools None [].

Definition balanced : RuntimePolicyConfig := default_config.
(** What an evaluation decides, and whether it is security-blocked. *)
Definition outcome (r : result RuntimeDecisionEvaluation) : option (RuntimeDecisionKind.t * bool) :=
  match r with
  | Ok e => Some (decision_kind (decision e), bool_decide (disposition e = GovernanceDisposition.SecurityBlocked))
  | Err _ => None
  end.
Definition decides (cfg : RuntimePolicyConfig) (c : RuntimeDecisionContext) : option RuntimeDecisionKind.t :=
  fst <$> outcome (evaluate cfg c).

(** Known and low risk: act, with the narrowest assured tool. *)
Definition routine : RuntimeDecisionContext :=
  situation (capable false no_approval) Severity.Low no_assurance known ExperimentMode.Suggest.
Example routine_acts :
  match evaluate balanced routine with
  | Ok e => match decision e with Act a => recommended_tool a = Some "patch" /\ warning a = None | _ => False end
  | Err _ => False
  end.
Proof. vm_compute. split; reflexivity. Qed.
(** Unknown and of medium risk: a bounded experiment, which is suggested only. *)
Definition novel : RuntimeDecisionContext :=
  situation (capable false no_approval) Severity.Medium no_assurance unknown ExperimentMode.Suggest.
Example novel_experiments :
  match evaluate balanced novel with
  | Ok e => match decision e with
            | Experiment d => max_realities (decision_budget d) = 1%Z /\ automatic d = false
            | _ => False
            end
  | Err _ => False
  end.
Proof. vm_compute. split; reflexivity. Qed.
(** Approval is lost when the risk of a supported action rises from medium to high. *)
Example approval_lost :
  decides balanced (situation (capable false must_approve) Severity.Medium current_assurance_of_skill known
    ExperimentMode.Suggest) = Some RuntimeDecisionKind.RequireApproval /\
  decides balanced (situation (capable false must_approve) Severity.High current_assurance_of_skill known
    ExperimentMode.Suggest) = Some RuntimeDecisionKind.Act.
Proof. split; vm_compute; reflexivity. Qed.
(** The developer profile abstains where the balanced one acts. *)
Definition with_developer : RuntimePolicyConfig := with_profile RuntimePolicyProfile.Developer balanced.
Example developer_is_not_laxer :
  let c := situation (capable false no_approval) Severity.High current_assurance_of_skill unknown ExperimentMode.Off in
  decides balanced c = Some RuntimeDecisionKind.Act /\ decides with_developer c = Some RuntimeDecisionKind.Abstain.
Proof. split; vm_compute; reflexivity. Qed.

Definition assured_change : RuntimeDecisionContext :=
  situation (capable true no_approval) Severity.High current_assurance_of_skill known ExperimentMode.Suggest.
Definition approved_only : RuntimeDecisionContext :=
  situation (capable false must_approve) Severity.High current_assurance_of_skill known ExperimentMode.Suggest.
Definition forbidden : RuntimeDecisionContext :=
  situation (capable true (mkGovernance true (Some "frozen") false None)) Severity.Low no_assurance known
    ExperimentMode.Suggest.

Lemma evaluate_sound_witness :
  match evaluate balanced novel with
  | Ok e => evaluation_sound balanced (resolve_signals novel) e /\ decision_kind (decision e) = RuntimeDecisionKind.Experiment
  | Err _ => False
  end.
Proof.
  destruct (evaluate balanced novel) as [e|err] eqn:He; [|vm_compute in He; discriminate].
  split; [by apply evaluate_sound|]. vm_compute in He. by injection He as <-.
Defined.
Lemma security_blocked_exact_witness :
  match evaluate balanced forbidden with
  | Ok e => disposition e = GovernanceDisposition.SecurityBlocked /\
            exists b, decision e = abstain forbidden AbstentionReason.ExternalPolicyProhibition b
  | Err _ => False
  end.
Proof.
  destruct (evaluate balanced forbidden) as [e|err] eqn:He; [|vm_compute in He; discriminate].
  destruct (security_blocked_exact _ _ _ He) as [Hi Hb]. split; [by apply Hi|by apply Hb].
Defined.
Lemma act_exact_witness :
  match evaluate balanced routine with
  | Ok e => cleared (resolve_signals routine) /\
            (advised balanced (resolve_signals routine) \/
             undisturbed balanced (resolve_signals routine) /\ permitted balanced (resolve_signals routine))
  | Err _ => False
  end.
Proof.
  destruct (evaluate balanced routine) as [e|err] eqn:He; [|vm_compute in He; discriminate].
  apply (act_exact _ _ _ He). vm_compute in He. by injection He as <-.
Defined.
Lemma high_risk_act_assured_witness :
  high_risk assured_change = true /\ isolation_sufficient (capability_context assured_change) = true /\
  (has_effect assured_change = true -> effect_adapter_available (capability_context assured_change) = true) /\
  (advised balanced assured_change \/ assurance_sufficient assured_change = true /\
    (has_effect assured_change = true -> commit_authority (capability_context assured_change) = true)).
Proof.
  split; [reflexivity|].
  destruct (evaluate balanced assured_change) as [e|err] eqn:He; [|vm_compute in He; discriminate].
  apply (high_risk_act_assured _ _ _ He); [|reflexivity]. vm_compute in He. by injection He as <-.
Defined.
Lemma approval_act_exact_witness :
  approval_required (gov approved_only) = true /\
  match evaluate balanced approved_only with
  | Ok e => cleared approved_only /\
      (advised balanced approved_only \/ undisturbed balanced approved_only /\
        (matrix_disposition balanced approved_only = ActWithWarning \/
         matrix_disposition balanced approved_only = ApprovalOrExperiment /\
         (supported approved_only = true \/ can_experiment (available_experiments approved_only) = false) /\
         assurance_sufficient approved_only = true /\ has_effect approved_only = false /\
         effect_adapter_available (capability_context approved_only) = false))
  | Err _ => False
  end.
Proof.
  split; [reflexivity|].
  destruct (evaluate balanced approved_only) as [e|err] eqn:He; [|vm_compute in He; discriminate].
  apply (approval_act_exact _ _ _ He); [reflexivity|]. vm_compute in He. by injection He as <-.
Defined.
Lemma conservative_acts_least_witness :
  exists e, evaluate with_developer routine = Ok e /\ decision_kind (decision e) = RuntimeDecisionKind.Act.
Proof.
  destruct (evaluate (with_profile RuntimePolicyProfile.Conservative balanced) routine) as [e|err] eqn:He;
    [|vm_compute in He; discriminate].
  apply (conservative_acts_least _ _ _ _ He). vm_compute in He. by injection He as <-.
Defined.

(** * Contexts from a store *)

Definition here : ExperienceContext := mkExperienceContext "/repo" ["Cargo.toml"] [] "linux" "x86_64".
Definition anywhere : ContextSelector := mkSelector None [] [] None None.
Definition cargo_build : ActionPattern := ShellCommand "cargo build".
(** A lesson about the proposed command that was contradicted and never supported. *)
Definition refuted_lesson : Lesson :=
  mkLesson "lesson-1" 2 LessonStatus.Contradicted anywhere None (Some cargo_build) [EvidenceRelationship.Contradicts].
Definition build_skill : Skill :=
  mkSkill "skill-1" "build" anywhere [cargo_build] SkillStatus.Validated SkillMaturity.Hardened (Some "envelope-1").
Definition supported_reflex : Reflex :=
  mkReflex "reflex-1" 1 (mkTrigger anywhere cargo_build (Some 1%Z) false false) ReflexStatus.Supported.
Definition linker_failure : FailureSignatureRef := mkSignature "linker".
Definition relink : Recovery :=
  mkRecoveryItem "recovery-1" 1 "linker" anywhere RecoveryStatus.Validated 1%Z (39 * day)%Z.
Definition quarantined_recovery : Recovery :=
  mkRecoveryItem "recovery-0" 1 "linker" anywhere RecoveryStatus.Validated 1%Z (39 * day)%Z.
Definition team_profile : AssuranceProfileRef := mkProfile "profile-1" "1".
Definition certificate (id : string) (revision : Z) (expiry : option Z) : SkillCertification :=
  mkCertification id revision team_profile CertificationStatus.Certified 0%Z expiry 3%Z {["H1"]} ∅.

(** A store with the given lessons, skills, reflexes and recoveries; on day 40, one
    certification of the first skill is expired, one is for an older revision and one
    is current. *)
Definition store (l : list Lesson) (k : list Skill) (r : list Reflex) (f : list Recovery) : StoreView := {|
  view_now := (40 * day)%Z;
  stale_after_days := 30%Z;
  view_lessons := Ok l;
  view_activation _ := Ok ExperienceActivationState.Active;
  view_quarantined id := Ok (bool_decide (id ∈ ["recovery-0"]));
  view_relevance _ := 0%Z;
  view_minimum := 0%Z;
  view_stale _ := false;
  view_skills := Ok k;
  view_revisions _ := Ok [1; 2]%Z;
  view_reflexes := Ok r;
  view_recoveries := Ok f;
  view_certifications _ := Ok [certificate "cert-expired" 2 (Some day); certificate "cert-old" 1 None;
    certificate "cert-current" 2 (Some (50 * day)%Z)];
  view_revoked _ := Ok false;
  view_envelope id := Some (id, 1%Z);
  view_causal _ := Ok (mkCausal [] []);
  view_abstraction _ := Ok false;
  view_claim _ := Ok None;
|}.
(** A request to build, after as many failures as given. *)
Definition request (failure : option FailureSignatureRef) (failures : Z) : RuntimeContextRequest :=
  mkRequest (mkTask "build the crate" (Some "build") []) here (Some build) None (Some (risk_of Severity.Medium))
    (capable false no_approval) failure failures false false [] (experiments ExperimentMode.Suggest) [] false None.

(** The decision on a request to a store. *)
Definition decides_from (v : StoreView) (rq : RuntimeContextRequest) : option RuntimeDecisionKind.t :=
  match synthesize v rq with Ok c => decides balanced c | Err _ => None end.

(** A contradicted lesson turns the experiment of an unknown request into an action. *)
Example contradicted_lesson_acts :
  decides_from (store [] [] [] []) (request None 0) = Some RuntimeDecisionKind.Experiment /\
  decides_from (store [refuted_lesson] [] [] []) (request None 0) = Some RuntimeDecisionKind.Act.
Proof. split; vm_compute; reflexivity. Qed.
Example reflex_replans :
  decides_from (store [] [build_skill] [supported_reflex] []) (request None 1) = Some RuntimeDecisionKind.Replan /\
  decides_from (store [] [build_skill] [supported_reflex] []) (request None 0) = Some RuntimeDecisionKind.Act.
Proof. split; vm_compute; reflexivity. Qed.

Lemma synthesized_support_witness :
  match synthesize (store [] [build_skill] [] []) (request None 0) with
  | Ok c => exists y, synthesized (store [] [build_skill] [] []) (request None 0) c y /\
      known_unknowns (request None 0) = [] /\
      if sy_abstraction _ _ _ y || direct_support y
      then existsb lesson_contradicted (in_scope y) = false /\
           existsb (view_stale (store [] [build_skill] [] [])) (in_scope y) = false /\
           (rq_externally_supported (request None 0) = true -> direct_support y = true)
      else in_scope y <> [] /\ rq_externally_supported (request None 0) = false
  | Err _ => False
  end.
Proof.
  destruct (synthesize (store [] [build_skill] [] []) (request None 0)) as [c|err] eqn:Hc; [|vm_compute in Hc; discriminate].
  destruct (synthesized_support _ _ _ Hc) as (y & Hy & Hi). exists y. split; [done|]. apply Hi.
  vm_compute in Hc. by injection Hc as <-.
Defined.
Lemma unproven_lesson_supports_witness :
  match synthesize (store [refuted_lesson] [] [] []) (request None 0) with
  | Ok c => classify c = KnowledgeState.KnownSupported /\ local_supported (knowledge_signals c) = false /\
            local_contradicted (knowledge_signals c) = true
  | Err _ => False
  end.
Proof.
  destruct (synthesize (store [refuted_lesson] [] [] []) (request None 0)) as [c|err] eqn:Hc; [|vm_compute in Hc; discriminate].
  apply (unproven_lesson_supports _ _ _ [refuted_lesson] Hc); try reflexivity; [by repeat constructor|].
  by vm_compute.
Defined.
Definition suspect : RuntimeDecisionContext :=
  mkDecisionContext None None None None (mkCausal [] []) [] [] (mkTask "build the crate" None []) (Some build) None []
    no_assurance None (capable false no_approval) (risk_of Severity.Medium) (mkUncertainty UncertaintyLevel.Low [])
    [mkRecovery "recovery-0" 1 "linker" 1%Z true true; mkRecovery "recovery-1" 1 "linker" 1%Z true true]
    (experiments ExperimentMode.Suggest) known [] [] [] None false [] None [].
Lemma quarantine_exact_witness :
  match quarantine (store [] [] [] []) suspect with
  | Ok c => local_supported (knowledge_signals c) = false /\ local_contradicted (knowledge_signals c) = true /\
            classify c = KnowledgeState.KnownSupported
  | Err _ => False
  end.
Proof.
  destruct (quarantine (store [] [] [] []) suspect) as [c|err] eqn:Hc; [|vm_compute in Hc; discriminate].
  destruct (quarantine_exact _ _ _ Hc) as (_ & _ & Hq).
  destruct (Hq "recovery-0") as (? & ? & Hi); [by left|reflexivity|]. split; [done|]. split; [done|].
  apply Hi. vm_compute. auto.
Defined.
(** The present of the first skill, with this revision of its contract and this tool. *)
Definition today (contract : Z) (tool : string) : CurrentAssuranceContext :=
  mkCurrentAssurance (40 * day)%Z 2 contract {[tool]} ∅ false.
(** [tests/assurance.rs]: another contract invalidates a certification, another tool
    calls for a review. *)
Example freshness_test :
  (fun x => freshness_status (certificate "cert-current" 2 (Some (50 * day)%Z)) x) <$>
    [today 3 "H1"; today 3 "H2"; today 4 "H1"] =
  [CertificationFreshness.Current; CertificationFreshness.ReviewRecommended; CertificationFreshness.Invalidated].
Proof. vm_compute. reflexivity. Qed.
(** The runtime reports it as current in all three cases. *)
Lemma assurance_current_exact_witness :
  let v := store [] [] [] [] in
  let r := mkSkillRef "skill-1" 2 "build" in
  match assurance_and_envelope v [build_skill] [r] None (Some (risk_of Severity.High)) with
  | Ok (a, _) => assurance_status (summary a) = AssuranceRuntimeStatus.Current /\
      (exists k, current_for v None 2 k /\ certification (summary a) = Some (cert_id k)) /\
      ~ same_contract (certificate "cert-current" 2 (Some (50 * day)%Z)) (today 4 "H1")
  | Err _ => False
  end.
Proof.
  cbv zeta. destruct (assurance_and_envelope _ _ _ _ _) as [[a envelope]|err] eqn:Ha; [|vm_compute in Ha; discriminate].
  pose proof (assurance_current_exact _ _ _ _ _ _ _ Ha) as (_ & _ & Hc & Hf).
  set (r := mkSkillRef "skill-1" 2 "build") in *. set (k := certificate "cert-current" 2 (Some (50 * day)%Z)).
  assert (Hs : exists certs, view_certifications (store [] [] [] []) (skill_id r) = Ok certs /\ k ∈ certs)
    by (eexists; split; [reflexivity|]; right; right; left).
  assert (Hin : r ∈ [r]) by by left.
  assert (Hk : current_for (store [] [] [] []) None 2 k) by (split_and!; [done..|intros t [= <-]; vm_compute; done|done|done]).
  split; [apply (proj1 (Hf r k (today 3 "H1") Hin Hs (conj eq_refl (conj eq_refl eq_refl)))); [vm_compute; reflexivity|done..]|].
  split.
  - destruct Hc as (_ & r' & k' & ->%list_elem_of_singleton & [_ Hk'] & Hid); [|by exists k'].
    apply (proj1 (Hf r k (today 3 "H1") Hin Hs (conj eq_refl (conj eq_refl eq_refl)))); [vm_compute; reflexivity|done..].
  - exact (proj2 (Hf r k (today 4 "H1") Hin Hs (conj eq_refl (conj eq_refl eq_refl))) (conj Hs Hk)).
Defined.
Lemma recover_from_store_witness :
  let v := store [] [] [] [quarantined_recovery; relink] in
  match c ← synthesize v (request (Some linker_failure) 1); evaluate balanced c with
  | Ok e => exists d recoveries r failure, decision e = Recover d /\ view_recoveries v = Ok recoveries /\ r ∈ recoveries /\
      rq_failure (request (Some linker_failure) 1) = Some failure /\ recovery d = recovery_ref v r /\
      rcv_signature r = signature failure /\ view_quarantined v (rcv_id r) = Ok false /\
      (view_now v - rcv_updated_at r <= stale_after_days v * day)%Z
  | Err _ => False
  end.
Proof.
  cbn zeta. set (v := store _ _ _ _).
  destruct (synthesize v (request (Some linker_failure) 1)) as [c|err] eqn:Hc; [|vm_compute in Hc; discriminate].
  cbn. destruct (evaluate balanced c) as [e|err] eqn:He; [|vm_compute in Hc; injection Hc as <-; vm_compute in He; discriminate].
  destruct (decision e) as [| | |d| |] eqn:Hd;
    try (vm_compute in Hc; injection Hc as <-; vm_compute in He; injection He as <-; discriminate).
  pose proof (recover_from_store _ _ _ _ _ _ Hc He Hd) as (l & r & f & Hl & ?). exists d, l, r, f.
  split; [done|]. split; [exact Hl|]. tauto.
Defined.
Lemma reflex_blocks_act_witness :
  let v := store [] [build_skill] [supported_reflex] [] in
  match c ← synthesize v (request None 1); evaluate balanced c with
  | Ok e => decision_kind (decision e) <> RuntimeDecisionKind.Act
  | Err _ => False
  end.
Proof.
  cbn zeta. set (v := store _ _ _ _).
  destruct (synthesize v (request None 1)) as [c|err] eqn:Hc; [|vm_compute in Hc; discriminate].
  cbn. destruct (evaluate balanced c) as [e|err] eqn:He; [|vm_compute in Hc; injection Hc as <-; vm_compute in He; discriminate].
  apply (reflex_blocks_act _ _ _ _ _ [supported_reflex] supported_reflex Hc He); try reflexivity. by left.
Defined.
End RuntimeExamples.
