(* ===== verification/TeamAuthority.v ===== *)
(** Teams and who may do what in them: the data of src/team/{mod,governance}.rs with the
    capability patterns and envelopes of src/assurance/model.rs, the validation of
    teams, the authority of an assignment and of a delegation, and the authorization of
    a request (src/team/mod.rs). An id is its text, an instant a number of nanoseconds.
    Of a role its purpose, responsibilities and knowledge policy, of the governance the
    profiles and budgets that no operation reads back, are left out. A delegation is
    followed to its ancestors; looking one up with [all[parent]] may panic. *)
From S2P Require Import Prelude Semver Scope ScopeRelation Hierarchy EconomicsModel EffectModel CapabilityModel.
From S2P Require Import PlanModel RuntimeModel.

Module RoleActionClass.
Inductive t := Observe | Propose | Challenge | Recommend | Experiment | Prepare | Execute | Commit | Recover.
#[global] Instance eq_dec : EqDecision t.
Proof. solve_decision. Defined.
#[global] Instance countable : Countable t.
Proof.
  refine (inj_countable
    (fun x => match x with
      | Observe => 0 | Propose => 1 | Challenge => 2 | Recommend => 3 | Experiment => 4 | Prepare => 5
      | Execute => 6 | Commit => 7 | Recover => 8 end)
    (fun n => match n with
      | 0 => Some Observe | 1 => Some Propose | 2 => Some Challenge | 3 => Some Recommend | 4 => Some Experiment
      | 5 => Some Prepare | 6 => Some Execute | 7 => Some Commit | 8 => Some Recover | _ => None end) _).
  by intros [].
Defined.
End RoleActionClass.

Abbreviation RoleAuthority := (gset RoleActionClass.t).

Module BuiltInAgentRole.
Inductive t := Planner | Investigator | Reviewer | Executor | Recovery.
End BuiltInAgentRole.

Record AgentIdentity := mkIdentity {
  agent_kind : string;
  agent_executable : string;
  agent_version : option string;
  agent_model : option string;
}.
#[export] Instance identity_eq_dec : EqDecision AgentIdentity.
Proof. solve_decision. Defined.
#[export] Instance revision_ref_eq_dec : EqDecision PlanRevisionRef.
Proof. solve_decision. Defined.

Record AgentTeamMember := mkMember {
  member_id : string;
  member_agent : AgentIdentity;
  session : string;
}.

Section team.
Context `{SerdeJson}.

(** * Capabilities *)

Inductive ExecutionCapabilityPattern :=
  | AnyNetwork
  | NetworkEndpoint (endpoint : NetworkEndpointPattern)
  | AnyCredential
  | AnyEffectCommit
  | AnyFilesystemWrite (root : option string)
  | Exact (capability : ExecutionCapability).
#[export] Instance pattern_eq_dec : EqDecision ExecutionCapabilityPattern.
Proof. solve_decision. Defined.

(** [ExecutionCapabilityPattern::matches]. *)
Definition pattern_matches (p : ExecutionCapabilityPattern) (k : ExecutionCapability) : bool :=
  match p, k with
  | AnyNetwork, NetworkConnect _ | AnyCredential, CredentialUse _ | AnyEffectCommit, EffectCommit _ => true
  | NetworkEndpoint expected, NetworkConnect actual => bool_decide (expected = actual)
  | AnyFilesystemWrite None, FilesystemWrite _ => true
  | AnyFilesystemWrite (Some expected), FilesystemWrite actual => bool_decide (fs_root actual = expected)
  | Exact expected, actual => bool_decide (expected = actual)
  | _, _ => false
  end.

Record CapabilityEnvelope := mkCapabilityEnvelope {
  allowed_patterns : list ExecutionCapabilityPattern;
  deny_ambient_credentials : bool;
  deny_effect_commit : bool;
}.
Definition default_envelope : CapabilityEnvelope := mkCapabilityEnvelope [] false false.
(** [CapabilityEnvelope::permits]. *)
Definition permits (e : CapabilityEnvelope) (k : ExecutionCapability) : bool :=
  existsb (fun p => pattern_matches p k) (allowed_patterns e).

(** * Teams *)

Record AgentRole := mkRole {
  role_id : string;
  role_name : string;
  allowed_actions : RoleAuthority;
  prohibited_actions : RoleAuthority;
  required_envelope : CapabilityEnvelope;
}.
Record RoleAssignment := mkAssignment {
  assignment_id : string;
  assigned_member : string;
  assigned_role : string;
  assignment_scope : KnowledgeScope;
  valid_from : Z;
  valid_until : Z;
}.
Record AgentTeam := mkTeam {
  at_id : string;
  at_revision : Z;
  members : list AgentTeamMember;
  roles : list AgentRole;
  role_assignments : list RoleAssignment;
  team_authority : RoleAuthority;
  max_delegation_depth : Z;
}.
Record Delegation := mkDelegation {
  delegation_plan : option PlanRevisionRef;
  delegation_id : string;
  delegation_team : string;
  delegation_revision : Z;
  delegator : string;
  delegate : string;
  source_assignment : string;
  parent : option string;
  delegation_role : string;
  task_scope : KnowledgeScope;
  delegation_authority : RoleAuthority;
  delegated_at : Z;
  delegation_expires : Z;
}.
Record TeamAuthorityRequest := mkAuthorityRequest {
  request_action : RoleActionClass.t;
  request_context : KnowledgeContext;
  runtime_grant : RoleAuthority;
  external_grant : RoleAuthority;
  request_now : Z;
}.

(** [AgentRole::builtin], under a fresh id. *)
Definition builtin (id : string) (k : BuiltInAgentRole.t) : AgentRole :=
  let '(name, actions) :=
    match k with
    | BuiltInAgentRole.Planner => ("Planner", [RoleActionClass.Observe; RoleActionClass.Propose])
    | BuiltInAgentRole.Investigator =>
        ("Investigator", [RoleActionClass.Observe; RoleActionClass.Experiment; RoleActionClass.Prepare])
    | BuiltInAgentRole.Reviewer =>
        ("Reviewer", [RoleActionClass.Observe; RoleActionClass.Challenge; RoleActionClass.Recommend])
    | BuiltInAgentRole.Executor =>
        ("Executor", [RoleActionClass.Observe; RoleActionClass.Execute; RoleActionClass.Prepare; RoleActionClass.Commit])
    | BuiltInAgentRole.Recovery => ("Recovery", [RoleActionClass.Observe; RoleActionClass.Recover])
    end in
  mkRole id name (list_to_set actions) ∅ default_envelope.

(** * Governance *)

Record TeamMemberProfile := mkMemberProfile { experience_profile : string; profile_capabilities : CapabilityEnvelope }.
(** Of the knowledge policy of a role, the artifacts it hides. *)
Record TeamGovernance := mkTeamGovernance {
  governed_team : string;
  governed_revision : Z;
  member_profiles : gmap string TeamMemberProfile;
  role_capabilities : gmap string CapabilityEnvelope;
  role_knowledge : gmap string (gset string);
  distinct_from : Severity.t;
  max_agent_runs : Z;
  max_tokens : Z;
  max_latency_ms : Z;
}.
Record RoleReassignment := mkReassignment {
  reassignment_id : string;
  reassigned_team : string;
  reassigned_revision : Z;
  reassigned_assignment : string;
  from_member : string;
  to_member : string;
  reassignment_evidence : gset string;
  snapshot_id : string;
  snapshot_fingerprint : string;
}.
End team.

Section authority.
Context `{SemverCrate} `{PredicateJson}.
Implicit Types (t : AgentTeam) (d : Delegation).

(** [AgentRole::authority]. *)
Definition authority (r : AgentRole) : RoleAuthority := allowed_actions r ∖ prohibited_actions r.

Definition refused {A} (message : string) : result A := Err (InvalidInput message).
Definition narrows (a b : KnowledgeScope) : bool :=
  match compare a b with ScopeRelation.Equal | ScopeRelation.Narrower => true | _ => false end.

(** * Teams *)

Definition TEAM_BOUNDS : string :=
  "Team requires 1..32 members/roles, at most 128 assignments and delegation depth <= 2".
Definition out_of_bounds t : bool :=
  bool_decide (at_revision t = 0%Z) || bool_decide (length (members t) = 0) || bool_decide (32 < length (members t)) ||
  bool_decide (length (roles t) = 0) || bool_decide (32 < length (roles t)) ||
  bool_decide (128 < length (role_assignments t)) || (2 <? max_delegation_depth t)%Z.

Definition check_member (seen : gset string * gset string) (m : AgentTeamMember) : result (gset string * gset string) :=
  if bool_decide (member_id m ∈ seen.1) || bool_decide (session m ∈ seen.2)
  then refused "Duplicate member or authenticated session"
  else Ok ({[member_id m]} ∪ seen.1, {[session m]} ∪ seen.2).
Definition check_role (seen : gset string) (r : AgentRole) : result (gset string) :=
  if bool_decide (role_id r ∈ seen) || blank (role_name r) then refused "Duplicate or unnamed role"
  else Ok ({[role_id r]} ∪ seen).
Definition check_assignment (ms rs : gset string) (seen : gset string) (a : RoleAssignment) : result (gset string) :=
  if bool_decide (assignment_id a ∈ seen) || negb (bool_decide (assigned_member a ∈ ms)) ||
     negb (bool_decide (assigned_role a ∈ rs)) || (valid_until a <=? valid_from a)%Z
  then refused "Invalid role assignment identity or validity window"
  else if negb (narrows (assignment_scope a) (assignment_scope a))
  then refused "Role scope cannot be evaluated deterministically"
  else Ok ({[assignment_id a]} ∪ seen).
(** [AgentTeam::validate]. *)
Definition validate t : result unit :=
  if out_of_bounds t then refused TEAM_BOUNDS
  else
    ms ← result_foldl check_member (∅, ∅) (members t);
    rs ← result_foldl check_role ∅ (roles t);
    _ ← result_foldl (check_assignment ms.1 rs) ∅ (role_assignments t);
    Ok tt.

Definition find_assignment t (id : string) : option RoleAssignment :=
  List.find (fun a => bool_decide (assignment_id a = id)) (role_assignments t).
Definition find_role t (id : string) : option AgentRole :=
  List.find (fun r => bool_decide (role_id r = id)) (roles t).

(** [AgentTeam::assignment_authority]. *)
Definition assignment_authority t (id : string) (now : Z) : result RoleAuthority :=
  _ ← validate t;
  a ← ok_or (find_assignment t id) (InvalidInput "Unknown role assignment");
  if (now <? valid_from a)%Z || (valid_until a <=? now)%Z
  then refused "Role assignment expired or not yet valid"
  else
    r ← ok_or (find_role t (assigned_role a)) (InvalidInput "Unknown role");
    Ok (authority r ∩ team_authority t).

(** * Delegations *)

Definition delegation_mismatch t (now : Z) (id : string) d : bool :=
  negb (bool_decide (delegation_id d = id)) || negb (bool_decide (delegation_team d = at_id t)) ||
  negb (bool_decide (delegation_revision d = at_revision t)) || (now <? delegated_at d)%Z ||
  (delegation_expires d <=? now)%Z || (delegation_expires d <=? delegated_at d)%Z ||
  bool_decide (delegator d = delegate d) ||
  negb (existsb (fun m => bool_decide (member_id m = delegate d)) (members t)).
(** A delegation by a delegate that goes beyond its parent. *)
Definition expands_parent d (p : Delegation) : bool :=
  bool_decide (is_Some (delegation_plan p)) && negb (bool_decide (delegation_plan p = delegation_plan d)) ||
  negb (bool_decide (delegate p = delegator d)) || negb (bool_decide (source_assignment p = source_assignment d)) ||
  (delegation_expires p <? delegation_expires d)%Z || (delegated_at d <? delegated_at p)%Z ||
  negb (narrows (task_scope d) (task_scope p)).
(** A delegation by a member that goes beyond its assignment. *)
Definition expands_assignment d (a : RoleAssignment) : bool :=
  negb (bool_decide (assigned_member a = delegator d)) || (valid_until a <? delegation_expires d)%Z ||
  (delegated_at d <? valid_from a)%Z || negb (narrows (task_scope d) (assignment_scope a)).
Definition invents t d (source target : RoleAuthority) : bool :=
  negb (bool_decide (delegation_authority d ⊆ source)) || negb (bool_decide (delegation_authority d ⊆ target)) ||
  negb (bool_decide (delegation_authority d ⊆ team_authority t)).
(** What a delegation grants when its source is established. *)
Definition granted_from t d (source : RoleAuthority) : result RoleAuthority :=
  r ← ok_or (find_role t (delegation_role d)) (InvalidInput "Unknown delegated role");
  if invents t d source (authority r) then refused "Delegation cannot invent authority" else Ok (delegation_authority d).

(** [delegated_inner]; the fuel bounds the length of the chain. *)
Fixpoint delegated_inner (fuel : nat) t (all : gmap string Delegation) (revoked : gset string) (now : Z)
    (id : string) (seen : gset string) : run (result RoleAuthority) :=
  match fuel with
  | O => OutOfFuel
  | S fuel =>
      let seen' := {[id]} ∪ seen in
      if bool_decide (id ∈ seen) || (max_delegation_depth t <? Z.of_nat (size seen'))%Z || bool_decide (id ∈ revoked)
      then Ret (refused "Delegation revoked, cyclic, or too deep")
      else match all !! id with
      | None => Ret (refused "Unknown delegation")
      | Some d =>
          if delegation_mismatch t now id d then Ret (refused "Delegation identity, revision, or validity mismatch")
          else match find_assignment t (source_assignment d) with
          | None => Ret (refused "Unknown source assignment")
          | Some a =>
              and_then
                match parent d with
                | Some q =>
                    and_then (delegated_inner fuel t all revoked now q seen') (fun rights =>
                      p ← index_or_panic (all !! q);
                      Ret (if expands_parent d p then refused "Child delegation expands parent scope or lifetime"
                           else Ok rights))
                | None =>
                    Ret (if expands_assignment d a then refused "Delegation expands source assignment"
                         else assignment_authority t (assignment_id a) now)
                end (fun source => Ret (granted_from t d source))
          end
      end
  end.
Definition delegation_fuel t : nat := S (Z.to_nat (max_delegation_depth t)).
(** [AgentTeam::delegated_authority]. *)
Definition delegated_authority t (id : string) (all : gmap string Delegation) (revoked : gset string) (now : Z) :
    run (result RoleAuthority) :=
  and_then (Ret (validate t)) (fun _ => delegated_inner (delegation_fuel t) t all revoked now id ∅).

(** * Requests *)

Definition intersect_request (rights : RoleAuthority) (q : TeamAuthorityRequest) : result RoleAuthority :=
  let effective := rights ∩ runtime_grant q ∩ external_grant q in
  if bool_decide (request_action q ∈ effective) then Ok effective
  else refused "Action not granted by every authority boundary".

Definition scope_established (s : KnowledgeScope) (ctx : KnowledgeContext) : bool :=
  bool_decide (status (evaluate s ctx) = ApplicabilityStatus.Applicable).
(** [AgentTeam::authorize_assignment]. *)
Definition authorize_assignment t (id member sess : string) (q : TeamAuthorityRequest) : result RoleAuthority :=
  rights ← assignment_authority t id (request_now q);
  a ← ok_or (find_assignment t id) (InvalidInput "Unknown assignment");
  if negb (bool_decide (assigned_member a = member)) ||
     negb (existsb (fun m => bool_decide (member_id m = member) && bool_decide (session m = sess)) (members t))
  then refused "Authenticated member mismatch"
  else if negb (scope_established (assignment_scope a) (request_context q)) then refused "Role scope not established"
  else intersect_request rights q.
End authority.
