(* ===== verification/TeamStore.v ===== *)
(** The store of teams: the tables of migrations/026_team.sql and
    029_team_governance.sql as finite maps, with the operations of src/store/team.rs
    and, of src/store/team_governance.rs, the governance documents, the capability
    check, the separation rule and the reassignment of roles. An operation that
    changes the tables is a transaction: it returns the new tables or leaves them.
    The rest of the system answers through the class [TeamHost]; an instant is read
    before the call, and where a call reads the clock several times [now] gives the
    readings. Of an event its payload, which no operation reads back, is left out, and of
    an assessment the action and the review it was made for. *)
From S2P Require Import Prelude Semver Scope ScopeRelation Hierarchy EconomicsModel EffectModel CapabilityModel PlanModel.
From S2P Require Import PlanValidity StateError PlanStore RuntimeModel RuntimeGuide TeamAuthority.

Section store.
Context `{SemverCrate} `{PredicateJson} `{!RuntimeTexts}.
Abbreviation DecisionContext := RuntimeModel.RuntimeDecisionContext.
Implicit Types (t : AgentTeam) (d : Delegation) (g : TeamGovernance).

(** A decision context with the fields that only the team governance reads: the
    session, the agent, the review of its team binding, the available capabilities. *)
Record TeamRequest := mkTeamRequest {
  tr_context : DecisionContext;
  tr_session : string;
  tr_agent : AgentIdentity;
  tr_review : option string;
  tr_available : list ExecutionCapability;
}.

(** The revision of an execution plan, [team_scope_context], [team_recovery_action],
    whether [assess_team_review] is satisfied, [team_action_has_review], the
    fingerprint of a knowledge snapshot, an evidence path, and the sizes of the
    serialized documents. *)
Class TeamHost (X : Type) := {
  host_plan_head : X -> string -> result Z;
  host_scope_context : X -> TeamRequest -> result KnowledgeContext;
  host_recovery_action : X -> TeamRequest -> result bool;
  host_review_satisfied : X -> string -> TeamRequest -> result bool;
  host_under_review : X -> string -> TeamRequest -> result bool;
  host_snapshot : X -> string -> result string;
  host_evidence_path : X -> string -> result unit;
  host_governance_bytes : X -> TeamGovernance -> result Z;
  host_reassignment_bytes : X -> RoleReassignment -> result Z;
}.
Context {X : Type} `{!TeamHost X}.

Record TeamWorld := mkTeamWorld {
  tw_teams : gmap string AgentTeam;
  tw_revisions : gmap (string * Z) AgentTeam;
  tw_delegations : gmap string Delegation;
  tw_revocations : gmap string string;
  tw_governance : gmap (string * Z) TeamGovernance;
  tw_records : gmap (string * string) string;
  tw_events : list (string * string);
  tw_system : X;
}.
Implicit Types (w : TeamWorld) (q : TeamRequest).

Definition i64_revision (n : Z) : result Z := ok_or (try_i64 n) (InvalidInput "Team revision overflow").

(** * Teams *)

Definition agent_team (id : string) w : result AgentTeam := ok_or (tw_teams w !! id) no_rows.
Definition team_events_of t (previous : option Z) : list (string * string) :=
  match previous with
  | None => (at_id t, "team_created") :: map (fun _ => (at_id t, "role_assigned")) (role_assignments t)
  | Some _ => [(at_id t, "team_revision_recorded")]
  end.
Definition save_agent_team t w : result TeamWorld :=
  _ ← validate t;
  revision ← i64_revision (at_revision t);
  let previous := at_revision <$> tw_teams w !! at_id t in
  if negb (bool_decide (checked_add_i64 (default 0%Z previous) 1 = Some revision))
  then refused "Team revisions must advance exactly once"
  else
    rows ← insert_row (tw_revisions w) (at_id t, revision) t;
    Ok (mkTeamWorld (<[at_id t := t]> (tw_teams w)) rows (tw_delegations w) (tw_revocations w) (tw_governance w)
          (tw_records w) (tw_events w ++ team_events_of t previous) (tw_system w)).

(** * Delegations *)

Definition team_delegations (team : string) w : gmap string Delegation :=
  filter (fun kv => delegation_team kv.2 = team) (tw_delegations w).
Definition revoked_delegations w : gset string := dom (tw_revocations w).
Definition validate_delegation_plan w d : result unit :=
  match delegation_plan d with
  | Some pin =>
      head ← host_plan_head (tw_system w) (ref_plan pin);
      if bool_decide (head = ref_revision pin) then Ok tt else refused "Delegation plan revision is stale"
  | None => Ok tt
  end.
Definition insert_delegation d w : result TeamWorld :=
  _ ← validate_delegation_plan w d;
  rows ← insert_row (tw_delegations w) (delegation_id d) d;
  Ok (mkTeamWorld (tw_teams w) (tw_revisions w) rows (tw_revocations w) (tw_governance w) (tw_records w)
        (tw_events w ++ [(delegation_team d, "delegation_recorded")]) (tw_system w)).
Definition record_delegation d (now : Z) w : run (result TeamWorld) :=
  and_then (Ret (agent_team (delegation_team d) w)) (fun t =>
    let all := team_delegations (at_id t) w in
    if bool_decide (is_Some (all !! delegation_id d)) then Ret (refused "Delegation already exists")
    else
      and_then (delegated_authority t (delegation_id d) (<[delegation_id d := d]> all) (revoked_delegations w) now)
        (fun _ => Ret (insert_delegation d w))).
Definition validate_delegation (team id : string) (now : Z) w : run (result RoleAuthority) :=
  let all := team_delegations team w in
  and_then (Ret (agent_team team w)) (fun t =>
    and_then (delegated_authority t id all (revoked_delegations w) now) (fun rights =>
      d ← index_or_panic (all !! id);
      Ret (_ ← validate_delegation_plan w d; Ok rights))).
Definition revoke_delegation (id reason : string) w : result TeamWorld :=
  if blank reason then refused "Revocation requires a reason"
  else
    d ← ok_or (tw_delegations w !! id) no_rows;
    rows ← insert_row (tw_revocations w) id reason;
    Ok (mkTeamWorld (tw_teams w) (tw_revisions w) (tw_delegations w) rows (tw_governance w) (tw_records w)
          (tw_events w ++ [(delegation_team d, "delegation_revoked")]) (tw_system w)).

(** * Governance *)

Definition covers_team g t : bool :=
  bool_decide (size (member_profiles g) = length (members t)) &&
  bool_decide (size (role_capabilities g) = length (roles t)) &&
  bool_decide (size (role_knowledge g) = length (roles t)) &&
  forallb (fun m => bool_decide (is_Some (member_profiles g !! member_id m))) (members t) &&
  forallb (fun r => bool_decide (is_Some (role_capabilities g !! role_id r)) &&
                    bool_decide (is_Some (role_knowledge g !! role_id r))) (roles t).
Definition governance_fits g t : bool :=
  bool_decide (at_revision t = governed_revision g) && (max_agent_runs g <=? 32)%Z && (max_tokens g <=? 10000000)%Z &&
  (max_latency_ms g <=? 86400000)%Z && bool_decide (ord_le (distinct_from g) Severity.High) && covers_team g t.
Definition unnamed_profile (p : TeamMemberProfile) : bool :=
  bool_decide (experience_profile p = "") || bool_decide (256 < String.length (experience_profile p)).
Definition excessive_policy (hidden : gset string) : bool :=
  bool_decide (128 < size hidden) || existsb (fun s => bool_decide (256 < String.length s)) (elements hidden).
Definition save_team_governance g w : result TeamWorld :=
  t ← agent_team (governed_team g) w;
  if negb (governance_fits g t)
  then refused "Governance requires complete current role/member coverage and bounded budgets"
  else if existsb (fun kv => unnamed_profile kv.2) (map_to_list (member_profiles g))
  then refused "Member profile must be bounded and named"
  else if existsb (fun kv => excessive_policy kv.2) (map_to_list (role_knowledge g))
  then refused "Knowledge policy exceeds bounds"
  else
    bytes ← host_governance_bytes (tw_system w) g;
    if (262144 <? bytes)%Z then refused "Governance exceeds 256 KiB"
    else
      revision ← i64_revision (governed_revision g);
      rows ← insert_row (tw_governance w) (governed_team g, revision) g;
      Ok (mkTeamWorld (tw_teams w) (tw_revisions w) (tw_delegations w) (tw_revocations w) rows (tw_records w)
            (tw_events w ++ [(governed_team g, "team_governance_recorded")]) (tw_system w)).
Definition team_governance (id : string) (revision : Z) w : result (option TeamGovernance) :=
  revision ← i64_revision revision; Ok (tw_governance w !! (id, revision)).

(** A capability outside the envelope of the role, of the member or of the role's
    definition. *)
Definition outside (role member : CapabilityEnvelope) (r : AgentRole) (k : ExecutionCapability) : bool :=
  negb (permits role k) || negb (permits member k) ||
  (match allowed_patterns (required_envelope r) with [] => false | _ :: _ => true end && negb (permits (required_envelope r) k)).
Definition validate_team_capabilities q w : run (result unit) :=
  match team (tr_context q) with
  | None => Ret (refused "Missing team context")
  | Some b =>
      and_then (Ret (agent_team (team_id b) w)) (fun t =>
        match List.find (fun a => bool_decide (assignment_id a = team_assignment b) &&
                                  bool_decide (assigned_member a = team_member b)) (role_assignments t) with
        | None => Ret (refused "Unknown assignment")
        | Some a =>
            and_then (Ret (team_governance (team_id b) (team_revision b) w)) (fun governance =>
              match governance with
              | Some g =>
                  role ← index_or_panic (role_capabilities g !! assigned_role a);
                  match find_role t (assigned_role a) with
                  | None => Ret (refused "Unknown role definition")
                  | Some r =>
                      member ← index_or_panic (member_profiles g !! team_member b);
                      Ret (if existsb (outside role (profile_capabilities member) r) (tr_available q)
                           then refused "Capability outside role/member envelope" else Ok tt)
                  end
              | None =>
                  Ret (if existsb (fun kv => bool_decide (kv.1.1 = team_id b)) (map_to_list (tw_governance w))
                       then refused "New team revision requires governance revalidation" else Ok tt)
              end)
        end)
  end.
Definition team_requires_separation (id : string) (revision : Z) (s : Severity.t) w : result bool :=
  g ← team_governance id revision w;
  Ok (bool_decide (ord_le (match g with Some g => distinct_from g | None => Severity.High end) s)).

(** [iter_mut().find(..)], then [a.member = to]. *)
Definition reassignable (r : RoleReassignment) (now : Z) (a : RoleAssignment) : bool :=
  bool_decide (assignment_id a = reassigned_assignment r) && bool_decide (assigned_member a = from_member r) &&
  (now <? valid_until a)%Z.
Fixpoint give_first (f : RoleAssignment -> bool) (to : string) (l : list RoleAssignment) : list RoleAssignment :=
  match l with
  | [] => []
  | a :: l' =>
      if f a
      then mkAssignment (assignment_id a) to (assigned_role a) (assignment_scope a) (valid_from a) (valid_until a) :: l'
      else a :: give_first f to l'
  end.
Definition reassigned t (r : RoleReassignment) (now : Z) : AgentTeam :=
  mkTeam (at_id t) (at_revision t + 1) (members t) (roles t)
    (give_first (reassignable r now) (to_member r) (role_assignments t)) (team_authority t) (max_delegation_depth t).
Definition advance_governance g (revision : Z) : TeamGovernance :=
  mkTeamGovernance (governed_team g) revision (member_profiles g) (role_capabilities g) (role_knowledge g)
    (distinct_from g) (max_agent_runs g) (max_tokens g) (max_latency_ms g).
Definition write_reassignment (r : RoleReassignment) (t' : AgentTeam) g w : result TeamWorld :=
  _ ← validate t';
  new ← i64_revision (at_revision t');
  old ← i64_revision (reassigned_revision r);
  revisions ← insert_row (tw_revisions w) (at_id t', new) t';
  if negb (bool_decide (at_revision <$> tw_teams w !! at_id t' = Some old))
  then Err (Prelude.Intervention "Team changed during reassignment")
  else
    governance ← insert_row (tw_governance w) (at_id t', new) g;
    bytes ← host_reassignment_bytes (tw_system w) r;
    if (1048576 <? bytes)%Z then refused "Team record exceeds 1 MiB"
    else
      records ← insert_row (tw_records w) ("role_reassigned", reassignment_id r) (reassigned_team r);
      Ok (mkTeamWorld (<[at_id t' := t']> (tw_teams w)) revisions (tw_delegations w) (tw_revocations w) governance records
            (tw_events w ++ [(reassigned_team r, "role_reassigned")]) (tw_system w)).
Definition reassign_team_role (r : RoleReassignment) (now : Z) w : run (result (AgentTeam * TeamWorld)) :=
  and_then (Ret (agent_team (reassigned_team r) w)) (fun t =>
    if negb (bool_decide (at_revision t = reassigned_revision r)) || bool_decide (from_member r = to_member r) ||
       bool_decide (reassignment_evidence r = ∅) || bool_decide (128 < size (reassignment_evidence r)) ||
       negb (existsb (fun m => bool_decide (member_id m = to_member r)) (members t))
    then Ret (refused "Reassignment needs current revision, distinct member and evidence")
    else
      and_then (Ret (g ← team_governance (at_id t) (at_revision t) w;
                     ok_or g (InvalidInput "Reassignment requires explicit capability profiles"))) (fun g =>
      and_then (Ret (host_snapshot (tw_system w) (snapshot_id r))) (fun fingerprint =>
        if negb (bool_decide (fingerprint = snapshot_fingerprint r)) then Ret (refused "Reassignment snapshot mismatch")
        else
          and_then (Ret (result_foldl (fun _ id => host_evidence_path (tw_system w) id) tt
                           (sort_by_key (fun s => s) (elements (reassignment_evidence r))))) (fun _ =>
            match List.find (reassignable r now) (role_assignments t) with
            | None => Ret (refused "Reassignment source mismatch")
            | Some a =>
                target ← index_or_panic (member_profiles g !! to_member r);
                role ← index_or_panic (role_capabilities g !! assigned_role a);
                Ret (if existsb (fun p => negb (bool_decide (p ∈ allowed_patterns (profile_capabilities target))))
                          (allowed_patterns role)
                     then refused "Replacement member lacks role capability envelope"
                     else
                       let t' := reassigned t r now in
                       w' ← write_reassignment r t' (advance_governance g (at_revision t')) w; Ok (t', w'))
            end)))).

(** * The authority of a decision *)

Definition action_class (c : DecisionContext) : RoleActionClass.t :=
  match proposed_action c, proposed_effect c with
  | Some (CustomNormalized "recovery" _), _ => RoleActionClass.Recover
  | _, Some _ => RoleActionClass.Commit
  | Some (FileRead _), None => RoleActionClass.Observe
  | _, None => RoleActionClass.Execute
  end.
Definition plan_matches (c : DecisionContext) (pin : PlanRevisionRef) : bool :=
  match plan c with
  | Some p => bool_decide (context_plan p = ref_plan pin) && bool_decide (plan_revision p = ref_revision pin)
  | None => false
  end.
(** The rights of a binding: those of the assignment, narrowed by the delegation. *)
Definition delegated_rights (c : DecisionContext) (b : TeamRuntimeContext) t (a : RoleAssignment) (ctx : KnowledgeContext)
    (now : nat -> Z) (id : string) w : run (result RoleAuthority) :=
  let all := team_delegations (at_id t) w in
  and_then (delegated_authority t id all (revoked_delegations w) (now 0)) (fun rights =>
    d ← index_or_panic (all !! id);
    Ret (_ ← validate_delegation_plan w d;
         if match delegation_plan d with Some pin => negb (plan_matches c pin) | None => false end
         then refused "Delegation is bound to another plan revision"
         else if negb (bool_decide (delegate d = team_member b)) || negb (bool_decide (assigned_member a = team_member b)) ||
                 negb (bool_decide (delegation_role d = assigned_role a))
         then refused "Delegation receiver or role mismatch"
         else if negb (scope_established (task_scope d) ctx) then refused "Delegated scope not established"
         else own ← assignment_authority t (team_assignment b) (now 1); Ok (rights ∩ own))).
Definition binding_rights (c : DecisionContext) (b : TeamRuntimeContext) t (a : RoleAssignment) (ctx : KnowledgeContext)
    (now : nat -> Z) w : run (result RoleAuthority) :=
  match team_delegation b with
  | Some id => delegated_rights c b t a ctx now id w
  | None => Ret (assignment_authority t (team_assignment b) (now 0))
  end.
(** What the runtime grants at most. *)
Definition outer_grant (c : DecisionContext) (rights : RoleAuthority) : RoleAuthority :=
  if negb (required_available (capability_context c)) || hard_policy_blocked (gov c) then ∅
  else if commit_authority (capability_context c) then rights else rights ∖ {[RoleActionClass.Commit]}.
Definition check_review q (b : TeamRuntimeContext) t (x : RoleActionClass.t) w : result unit :=
  match tr_review q with
  | Some id =>
      satisfied ← host_review_satisfied (tw_system w) id q;
      if (satisfied : bool) then Ok tt else refused "Team review gate is not satisfied"
  | None =>
      reviewed ← host_under_review (tw_system w) (at_id t) q;
      needed ← (if (reviewed : bool) then Ok true
                else separated ← team_requires_separation (at_id t) (at_revision t) (risk_severity (risk (tr_context q))) w;
                     Ok (separated && negb (bool_decide (x = RoleActionClass.Observe))));
      if (needed : bool) then refused "This team action requires an evidence-backed review" else Ok tt
  end.
Definition authorize_rights q (b : TeamRuntimeContext) t (ctx : KnowledgeContext) (now : nat -> Z) (rights : RoleAuthority)
    w : result unit :=
  let c := tr_context q in
  let x := action_class c in
  let outer := outer_grant c rights in
  let request := mkAuthorityRequest x ctx outer outer (now 2) in
  _ ← authorize_assignment t (team_assignment b) (team_member b) (tr_session q) request;
  _ ← intersect_request rights request;
  _ ← (if bool_decide (x = RoleActionClass.Recover) then
         recovers ← host_recovery_action (tw_system w) q;
         if (recovers : bool) then Ok tt else refused "Recovery action requires an explicit current recovery handoff"
       else Ok tt);
  check_review q b t x w.
(** The closure of [attach_team_authority]. *)
Definition team_allows q (b : TeamRuntimeContext) (now : nat -> Z) w : run (result unit) :=
  and_then (Ret (agent_team (team_id b) w)) (fun t =>
  and_then (validate_team_capabilities q w) (fun _ =>
    if negb (bool_decide (at_revision t = team_revision b)) then Ret (refused "Stale team revision")
    else if negb (existsb (fun m => bool_decide (member_id m = team_member b) && bool_decide (session m = tr_session q) &&
                                    bool_decide (member_agent m = tr_agent q)) (members t))
    then Ret (refused "Runtime identity does not match team member")
    else
      and_then (Ret (host_scope_context (tw_system w) q)) (fun ctx =>
        match find_assignment t (team_assignment b) with
        | None => Ret (refused "Unknown role assignment")
        | Some a =>
            and_then (binding_rights (tr_context q) b t a ctx now w) (fun rights =>
              Ret (authorize_rights q b t ctx now rights w))
        end))).
Definition set_team (b : TeamRuntimeContext) (c : DecisionContext) : DecisionContext :=
  mkDecisionContext (Some b) (plan c) (composition_assessment c) (operational_knowledge c) (causal c)
    (active_forecasts c) (preventive_interventions c) (task c) (proposed_action c) (proposed_effect c)
    (relevant_lessons c) (assurance c) (operating_envelope c) (capability_context c) (risk c)
    (uncertainty c) (available_recovery c) (available_experiments c) (knowledge_signals c) (applicable_skills c)
    (matched_reflexes c) (advisory_reflexes c) (failure_signature c) (externally_supported c)
    (tool_candidates c) (epistemic c) (diversity_requirements c).
Definition assess_binding (b : TeamRuntimeContext) (r : result unit) : TeamRuntimeContext :=
  mkTeamContext (team_id b) (team_revision b) (team_member b) (team_assignment b) (team_delegation b)
    (Some match r with
          | Ok _ => mkTeamAssessment true []
          | Err e => mkTeamAssessment false [error_text e]
          end).
Definition attach_team_authority q (now : nat -> Z) w : run (result DecisionContext) :=
  match team (tr_context q) with
  | None =>
      Ret (if existsb (fun kv => existsb (fun m => bool_decide (session m = tr_session q)) (members kv.2))
                (map_to_list (tw_teams w))
           then refused "Registered team session requires explicit role binding" else Ok (tr_context q))
  | Some b => r ← team_allows q b now w; Ret (Ok (set_team (assess_binding b r) (tr_context q)))
  end.
End store.
