(* ===== verification/TeamFacts.v ===== *)
(** Facts on teams. What a delegation is worth: the chains of delegations that hold, and
    that following one always ends and never panics. And what a valid team is. *)
From S2P Require Import Prelude Semver Scope ScopeRelation ScopeSoundness Hierarchy EconomicsModel StateError.
From S2P Require Import EffectModel CapabilityModel PlanModel PlanValidity PlanStore RuntimeModel RuntimeGuide.
From S2P Require Import TeamAuthority TeamStore.

Section chains.
Context `{SemverCrate} `{PredicateJson}.
Context (t : AgentTeam) (all : gmap string Delegation) (revoked : gset string) (now : Z).
Implicit Types (id q : string) (d p : Delegation) (rights : RoleAuthority).

(** What every delegation of a chain satisfies on its own. *)
Record stands id d (a : RoleAssignment) (r : AgentRole) : Prop := {
  st_recorded : all !! id = Some d;
  st_unrevoked : id ∉ revoked;
  st_current : delegation_mismatch t now id d = false;
  st_source : find_assignment t (source_assignment d) = Some a;
  st_role : find_role t (delegation_role d) = Some r;
  st_bounded : delegation_authority d ⊆ authority r ∩ team_authority t;
}.
(** A chain of that many delegations down to the given one grants the rights: it
    starts from an assignment of the first delegator, and none goes beyond the one it
    comes from. *)
Inductive holds : nat -> string -> RoleAuthority -> Prop :=
  | holds_member id d a r rights :
      stands id d a r -> parent d = None -> expands_assignment d a = false ->
      assignment_authority t (assignment_id a) now = Ok rights -> delegation_authority d ⊆ rights ->
      holds 1 id (delegation_authority d)
  | holds_delegate id d a r q p n rights :
      stands id d a r -> parent d = Some q -> all !! q = Some p -> expands_parent d p = false ->
      holds n q rights -> delegation_authority d ⊆ rights ->
      holds (S n) id (delegation_authority d).

Lemma holds_recorded n id rights : holds n id rights -> exists d, all !! id = Some d /\ rights = delegation_authority d.
Proof. intros []; eauto using st_recorded. Qed.
Lemma holds_unique n id rights : holds n id rights -> forall m rights', holds m id rights' -> m = n.
Proof.
  induction 1 as [id d a r rights [Hd _ _ _ _ _] Hp|id d a r q p n rights [Hd _ _ _ _ _] Hp Hq He Hh IH Hs]; intros m rights';
    inversion 1 as [? d' ? ? ? [Hd' _ _ _ _ _] Hp'|? d' ? ? q' ? m' ? [Hd' _ _ _ _ _] Hp' _ _ Hh']; subst; try congruence.
  f_equal. assert (q' = q) as -> by congruence. by eapply IH.
Qed.
Lemma holds_pos n id rights : holds n id rights -> 1 <= n.
Proof. destruct 1; lia. Qed.

Lemma granted_from_Ok d source rights :
  granted_from t d source = Ok rights <->
  rights = delegation_authority d /\ delegation_authority d ⊆ source /\
  exists r, find_role t (delegation_role d) = Some r /\ delegation_authority d ⊆ authority r ∩ team_authority t.
Proof.
  unfold granted_from. destruct (find_role t (delegation_role d)) as [r|]; cbn; [|naive_solver].
  assert (Hi : invents t d source (authority r) = false <->
    delegation_authority d ⊆ source /\ delegation_authority d ⊆ authority r ∩ team_authority t).
  { unfold invents. rewrite !orb_false_iff, !negb_false_iff, !bool_decide_eq_true. set_solver. }
  destruct (invents t d source (authority r)).
  - split; [done|]. intros (_ & Hs & r' & [= <-] & Hr). specialize (proj2 Hi (conj Hs Hr)). done.
  - destruct (proj1 Hi eq_refl). split; [intros [= <-]; eauto|by intros [-> _]].
Qed.

Local Abbreviation follow fuel id seen := (delegated_inner fuel t all revoked now id seen).
(** One more delegation does not exceed the depth. *)
Definition fits (n : nat) (seen : gset string) : Prop := (Z.of_nat (n + size seen) <= max_delegation_depth t)%Z.

Lemma size_insert id (seen : gset string) : id ∉ seen -> size ({[id]} ∪ seen) = S (size seen).
Proof. intros Hn. rewrite size_union by set_solver. by rewrite size_singleton. Qed.

Lemma follow_Ok fuel id seen rights :
  follow fuel id seen = Ret (Ok rights) -> exists n, holds n id rights /\ fits n seen.
Proof.
  revert id seen rights. induction fuel as [|fuel IH]; intros id seen rights; cbn [delegated_inner]; [done|].
  destruct (bool_decide_reflect (id ∈ seen)) as [|Hid]; [done|]. cbn [orb]. rewrite size_insert by done.
  destruct (Z.ltb_spec (max_delegation_depth t) (Z.of_nat (S (size seen)))) as [|Hmax]; [done|]. cbn [orb].
  destruct (bool_decide_reflect (id ∈ revoked)) as [|Hrev]; [done|].
  destruct (all !! id) as [d|] eqn:Hd; [|done].
  destruct (delegation_mismatch t now id d) eqn:Hm; [done|].
  destruct (find_assignment t (source_assignment d)) as [a|] eqn:Ha; [|done].
  intros (source & Hs & [= (-> & Hsub & r & Hr & Hb)%granted_from_Ok])%and_then_Ok.
  assert (Hst : stands id d a r) by done.
  destruct (parent d) as [q|] eqn:Hp.
  - apply and_then_Ok in Hs as (rights & (n & Hn & Hfit)%IH & Hs).
    destruct (all !! q) as [p|] eqn:Hq; [|done]. cbn in Hs. destruct (expands_parent d p) eqn:He; [done|].
    injection Hs as ->. exists (S n). split; [by eapply holds_delegate|].
    unfold fits in *. rewrite size_insert in Hfit by done. lia.
  - destruct (expands_assignment d a) eqn:He; [done|]. injection Hs as Hs. exists 1.
    split; [by eapply holds_member|]. unfold fits. lia.
Qed.
Lemma follow_holds fuel n id seen rights :
  holds n id rights -> fits n seen -> n <= fuel -> (forall m q rights', holds m q rights' -> m <= n -> q ∉ seen) ->
  follow fuel id seen = Ret (Ok rights).
Proof.
  intros Hh. revert fuel seen. induction Hh as [id d a r rights Hst Hp He Ha Hs|id d a r q p n rights Hst Hp Hq He Hh IH Hs];
    intros [|fuel] seen Hfit Hfuel Hfresh; try lia; cbn [delegated_inner];
    (assert (Hid : id ∉ seen) by (eapply Hfresh; [by econstructor|done]));
    rewrite bool_decide_eq_false_2 by done; cbn [orb]; rewrite size_insert by done; unfold fits in *;
    (destruct (Z.ltb_spec (max_delegation_depth t) (Z.of_nat (S (size seen)))); [lia|]); cbn [orb]; destruct Hst as [Hd Hrev Hm Hsrc Hr Hb];
    rewrite bool_decide_eq_false_2 by done; rewrite Hd, Hm, Hsrc, Hp.
  - rewrite He, Ha. cbn. f_equal. apply granted_from_Ok. eauto.
  - rewrite (IH fuel).
    + cbn. rewrite Hq. cbn. rewrite He. cbn. f_equal. apply granted_from_Ok. eauto.
    + unfold fits. rewrite size_insert by done. lia.
    + lia.
    + intros m q' rights' Hm' Hle. apply not_elem_of_union. split; [|apply (Hfresh m q' rights'); [done|lia]].
      intros ->%elem_of_singleton. pose proof (holds_unique (S n) id _ ltac:(by eapply holds_delegate) _ _ Hm'). lia.
Qed.
(** Following a delegation ends within the fuel, and looks up no missing parent. *)
Lemma follow_returns fuel id seen :
  0 < fuel -> (max_delegation_depth t < Z.of_nat (fuel + size seen))%Z -> exists x, follow fuel id seen = Ret x.
Proof.
  revert id seen. induction fuel as [|fuel IH]; intros id seen Hpos Hf; [lia|]. cbn [delegated_inner].
  destruct (bool_decide_reflect (id ∈ seen)) as [|Hid]; [by eexists|]. cbn [orb]. rewrite size_insert by done.
  destruct (Z.ltb_spec (max_delegation_depth t) (Z.of_nat (S (size seen)))) as [|Hmax]; [by eexists|]. cbn [orb].
  destruct (bool_decide (id ∈ revoked)); [by eexists|].
  destruct (all !! id) as [d|]; [|by eexists].
  destruct (delegation_mismatch t now id d); [by eexists|].
  destruct (find_assignment t (source_assignment d)) as [a|]; [|by eexists].
  destruct (parent d) as [q|].
  - destruct (IH q ({[id]} ∪ seen)) as [x Hx]; [lia|rewrite size_insert by done; lia|]. rewrite Hx.
    destruct x as [rights|e]; cbn; [|by eexists].
    apply follow_Ok in Hx as (n & (p & Hp & _)%holds_recorded & _). rewrite Hp. cbn.
    destruct (expands_parent d p); by eexists.
  - destruct (expands_assignment d a); cbn; [by eexists|]. destruct (assignment_authority _ _ _); by eexists.
Qed.

Lemma delegated_returns id : exists x, delegated_authority t id all revoked now = Ret x.
Proof.
  unfold delegated_authority. destruct (validate t); cbn [and_then]; [|by eexists].
  apply follow_returns; unfold delegation_fuel; [lia|]. rewrite size_empty. lia.
Qed.
Lemma delegated_Ok id rights :
  delegated_authority t id all revoked now = Ret (Ok rights) <->
  validate t = Ok tt /\ exists n, (Z.of_nat n <= max_delegation_depth t)%Z /\ holds n id rights.
Proof.
  unfold delegated_authority. destruct (validate t) as [[]|]; cbn [and_then]; [|naive_solver].
  assert (Hf : forall n, fits n ∅ <-> (Z.of_nat n <= max_delegation_depth t)%Z).
  { intros n. unfold fits. rewrite size_empty. split; lia. }
  split.
  - intros (n & Hn & Hfit)%follow_Ok. split; [done|]. exists n. split; [by apply Hf|done].
  - intros (_ & n & Hn & Hh). apply (follow_holds _ n); [done|by apply Hf|unfold delegation_fuel; lia|set_solver].
Qed.

(** * Ancestors *)

Definition parent_of id q : Prop := exists d, all !! id = Some d /\ parent d = Some q.
(** The delegations a delegation comes from, itself included. *)
Definition ancestor : string -> string -> Prop := rtc parent_of.

Lemma holds_ancestor n id rights q :
  holds n id rights -> ancestor id q -> exists m rights', holds m q rights' /\ rights ⊆ rights' /\ m <= n.
Proof.
  intros Hh Ha. revert n rights Hh. induction Ha as [id|id q' q (d & Hd & Hp) Ha IH]; intros n rights Hh; [by eauto|].
  destruct Hh as [id d' a r rights [Hd' _ _ _ _ _] Hp' _ _ _|id d' a r q2 p n rights [Hd' _ _ _ _ _] Hp' Hq He Hh Hs]; [congruence|].
  assert (q2 = q') as -> by congruence. destruct (IH _ _ Hh) as (m & rights' & Hm & Hsub & Hle).
  exists m, rights'. split; [done|]. split; [set_solver|lia].
Qed.
End chains.

(** * Valid teams *)

Section validation.
Context `{SemverCrate} `{PredicateJson}.
Implicit Types (t : AgentTeam) (d : Delegation).

Lemma find_Some {A} (f : A -> bool) l x : List.find f l = Some x -> x ∈ l /\ f x = true.
Proof. intros [Hin Hf]%find_some. split; [by apply list_elem_of_In|done]. Qed.
Lemma existsb_True {A} (f : A -> bool) l : existsb f l = true <-> exists x, x ∈ l /\ f x = true.
Proof. rewrite existsb_exists. setoid_rewrite list_elem_of_In. done. Qed.
Lemma find_assignment_Some t id a : find_assignment t id = Some a -> a ∈ role_assignments t /\ assignment_id a = id.
Proof. intros [? ?%bool_decide_eq_true]%find_Some. done. Qed.
Lemma find_role_Some t id r : find_role t id = Some r -> r ∈ roles t /\ role_id r = id.
Proof. intros [? ?%bool_decide_eq_true]%find_Some. done. Qed.
Lemma find_assignment_self t id a : find_assignment t id = Some a -> find_assignment t (assignment_id a) = Some a.
Proof. intros Hf. by rewrite (proj2 (find_assignment_Some _ _ _ Hf)). Qed.

(** What [validate] leaves of a team: bounded, without duplicates, and its assignments
    are for its members and roles. *)
Record valid_team t : Prop := {
  vt_revision : at_revision t <> 0%Z;
  vt_depth : (max_delegation_depth t <= 2)%Z;
  vt_members : NoDup (map member_id (members t));
  vt_sessions : NoDup (map session (members t));
  vt_roles : NoDup (map role_id (roles t));
  vt_assignments : NoDup (map assignment_id (role_assignments t));
  vt_assigned : forall a, a ∈ role_assignments t ->
    (exists m, m ∈ members t /\ member_id m = assigned_member a) /\
    (exists r, r ∈ roles t /\ role_id r = assigned_role a) /\ (valid_from a < valid_until a)%Z /\
    narrows (assignment_scope a) (assignment_scope a) = true;
}.

Lemma check_members l s :
  result_foldl check_member (∅, ∅) l = Ok s ->
  NoDup (map member_id l) /\ NoDup (map session l) /\ s = (list_to_set (map member_id l), list_to_set (map session l)).
Proof.
  intros Hf. apply (result_foldl_prefix (fun l s => NoDup (map member_id l) /\ NoDup (map session l) /\
    s = (list_to_set (map member_id l), list_to_set (map session l))) check_member (∅, ∅) s l); [|by repeat constructor|done].
  clear. intros l1 x l2 s1 s2 _ (Hm & Hs & ->). unfold check_member. cbn [fst snd].
  destruct (bool_decide_reflect (member_id x ∈ (list_to_set (map member_id l1) : gset string))) as [|Hx]; [done|].
  destruct (bool_decide_reflect (session x ∈ (list_to_set (map session l1) : gset string))) as [|Hx']; [done|].
  intros [= <-]. rewrite !map_app. cbn. rewrite !list_to_set_app_L. cbn. rewrite !NoDup_app. split_and!.
  all: try done; try apply NoDup_singleton; try (intros y Hy ->%list_elem_of_singleton; set_solver).
  f_equal; set_solver.
Qed.
Lemma check_roles l s :
  result_foldl check_role ∅ l = Ok s -> NoDup (map role_id l) /\ s = list_to_set (map role_id l).
Proof.
  intros Hf. apply (result_foldl_prefix (fun l s => NoDup (map role_id l) /\ s = list_to_set (map role_id l))
    check_role ∅ s l); [|by repeat constructor|done].
  clear. intros l1 x l2 s1 s2 _ (Hm & ->). unfold check_role.
  destruct (bool_decide_reflect (role_id x ∈ (list_to_set (map role_id l1) : gset string))) as [|Hx]; [done|]. cbn [orb].
  destruct (blank (role_name x)); [done|]. intros [= <-]. rewrite map_app. cbn. rewrite list_to_set_app_L. cbn.
  rewrite NoDup_app. split_and!; [done| |apply NoDup_singleton|set_solver].
  intros y Hy ->%list_elem_of_singleton. set_solver.
Qed.
Lemma check_assignments ms rs l s :
  result_foldl (check_assignment ms rs) ∅ l = Ok s ->
  NoDup (map assignment_id l) /\ s = list_to_set (map assignment_id l) /\
  forall a, a ∈ l -> assigned_member a ∈ ms /\ assigned_role a ∈ rs /\ (valid_from a < valid_until a)%Z /\
    narrows (assignment_scope a) (assignment_scope a) = true.
Proof.
  intros Hf. apply (result_foldl_prefix (fun l s => NoDup (map assignment_id l) /\ s = list_to_set (map assignment_id l) /\
    forall a, a ∈ l -> assigned_member a ∈ ms /\ assigned_role a ∈ rs /\ (valid_from a < valid_until a)%Z /\
      narrows (assignment_scope a) (assignment_scope a) = true) (check_assignment ms rs) ∅ s l);
    [|split; [constructor|split; [done|set_solver]]|done].
  clear. intros l1 x l2 s1 s2 _ (Hm & -> & Ha). unfold check_assignment.
  destruct (bool_decide_reflect (assignment_id x ∈ (list_to_set (map assignment_id l1) : gset string))) as [|Hx]; [done|].
  destruct (bool_decide_reflect (assigned_member x ∈ ms)); [|done].
  destruct (bool_decide_reflect (assigned_role x ∈ rs)); [|done].
  destruct (Z.leb_spec (valid_until x) (valid_from x)); [done|]. cbn [orb negb].
  destruct (narrows _ _) eqn:Hn; [|done]. intros [= <-]. rewrite map_app. cbn. rewrite list_to_set_app_L. cbn.
  rewrite NoDup_app. split_and!; [done| |apply NoDup_singleton|set_solver|].
  - intros y Hy ->%list_elem_of_singleton. set_solver.
  - intros a [?| ->%list_elem_of_singleton]%elem_of_app; auto.
Qed.
Lemma validate_valid t : validate t = Ok tt -> valid_team t.
Proof.
  unfold validate. destruct (out_of_bounds t) eqn:Hb; [done|].
  intros (p & Hp & Hrest)%result_bind_Ok. apply check_members in Hp as (Hm & Hs & ->).
  apply result_bind_Ok in Hrest as (rs & (Hr & ->)%check_roles & Hrest).
  apply result_bind_Ok in Hrest as (s & (Ha & _ & Hin)%check_assignments & _).
  unfold out_of_bounds in Hb. rewrite !orb_false_iff, !bool_decide_eq_false, Z.ltb_ge in Hb. split; try tauto.
  intros a (Hma & Hra & Hw & Hn)%Hin. cbn in Hma.
  apply elem_of_list_to_set, list_elem_of_fmap in Hma as (m & Em & ?), Hra as (r & Er & ?). eauto 10.
Qed.
Lemma find_role_assigned t a : valid_team t -> a ∈ role_assignments t -> is_Some (find_role t (assigned_role a)).
Proof.
  intros Hv Ha. destruct (vt_assigned t Hv a Ha) as (_ & (r & Hr & Hid) & _). unfold find_role.
  destruct (List.find _ _) eqn:Hf; [by eexists|]. exfalso. apply list_elem_of_In in Hr.
  pose proof (find_none _ _ Hf r Hr) as Hn. by apply bool_decide_eq_false in Hn.
Qed.

Lemma assignment_authority_Ok t id now rights :
  assignment_authority t id now = Ok rights ->
  validate t = Ok tt /\ exists a r, find_assignment t id = Some a /\ (valid_from a <= now < valid_until a)%Z /\
    find_role t (assigned_role a) = Some r /\ rights = authority r ∩ team_authority t.
Proof.
  intros ([] & Hv & (a & Ha%ok_or_Ok & Hrest)%result_bind_Ok)%result_bind_Ok. split; [done|].
  destruct (Z.ltb_spec now (valid_from a)), (Z.leb_spec (valid_until a) now); try done. cbn in Hrest.
  apply result_bind_Ok in Hrest as (r & Hr%ok_or_Ok & [= <-]). exists a, r. split_and!; [done|lia..|done|done].
Qed.
End validation.
