(* ===== verification/TeamSystem.v ===== *)
(** The store of teams as a transition system: the invariant of its tables, how they
    grow, and that every call keeps the one and is the other. *)
From S2P Require Import Prelude Semver Scope ScopeRelation Hierarchy EconomicsModel EffectModel CapabilityModel PlanModel.
From S2P Require Import PlanValidity StateError PlanStore PlanRunFacts RuntimeModel RuntimeGuide TeamAuthority.
From S2P Require Import TeamFacts TeamStore.

Section system.
Context `{SemverCrate} `{PredicateJson} `{!RuntimeTexts} {X : Type} `{!TeamHost X}.
#[local] Abbreviation World := (TeamWorld (X := X)).
Implicit Types (w : World) (t : AgentTeam) (g : TeamGovernance).

(** The revisions of a team are numbered from 1 without gaps, its head is the last of
    them, each is valid; governance covers the revision it is for; only recorded
    delegations are revoked. *)
Record team_wf w : Prop := {
  tf_heads : forall id t, tw_teams w !! id = Some t -> at_id t = id /\ tw_revisions w !! (id, at_revision t) = Some t;
  tf_revisions : forall id r t, tw_revisions w !! (id, r) = Some t ->
    at_id t = id /\ at_revision t = r /\ validate t = Ok tt /\ (1 <= r)%Z /\
    exists head, tw_teams w !! id = Some head /\ (r <= at_revision head)%Z;
  tf_complete : forall id t r, tw_teams w !! id = Some t -> (1 <= r <= at_revision t)%Z -> is_Some (tw_revisions w !! (id, r));
  tf_delegations : forall id d, tw_delegations w !! id = Some d ->
    delegation_id d = id /\ is_Some (tw_teams w !! delegation_team d);
  tf_revocations : forall id, is_Some (tw_revocations w !! id) -> is_Some (tw_delegations w !! id);
  tf_governance : forall id r g, tw_governance w !! (id, r) = Some g ->
    governed_team g = id /\ governed_revision g = r /\ ord_le (distinct_from g) Severity.High /\
    exists t, tw_revisions w !! (id, r) = Some t /\ covers_team g t = true;
}.
(** Rows are added, never changed or removed; heads only move forward. *)
Record team_grows w w' : Prop := {
  tg_heads : forall id t, tw_teams w !! id = Some t ->
    exists t', tw_teams w' !! id = Some t' /\ (at_revision t <= at_revision t')%Z;
  tg_revisions : tw_revisions w ⊆ tw_revisions w';
  tg_delegations : tw_delegations w ⊆ tw_delegations w';
  tg_revocations : tw_revocations w ⊆ tw_revocations w';
  tg_governance : tw_governance w ⊆ tw_governance w';
  tg_records : tw_records w ⊆ tw_records w';
  tg_events : exists l, tw_events w' = tw_events w ++ l;
}.

(** A successful call, or any change of the rest of the system. *)
Inductive team_step : World -> World -> Prop :=
  | step_save t w w' : save_agent_team t w = Ok w' -> team_step w w'
  | step_delegate d now w w' : record_delegation d now w = Ret (Ok w') -> team_step w w'
  | step_revoke id reason w w' : revoke_delegation id reason w = Ok w' -> team_step w w'
  | step_govern g w w' : save_team_governance g w = Ok w' -> team_step w w'
  | step_reassign r now t w w' : reassign_team_role r now w = Ret (Ok (t, w')) -> team_step w w'
  | step_elsewhere x w : team_step w (mkTeamWorld (tw_teams w) (tw_revisions w) (tw_delegations w) (tw_revocations w)
      (tw_governance w) (tw_records w) (tw_events w) x).

Definition sound_step w w' : Prop := team_wf w -> team_wf w' /\ team_grows w w'.

Lemma team_grows_refl w : team_grows w w.
Proof. split; try done; [by eauto with lia|]. exists []. by rewrite app_nil_r. Qed.
Lemma team_grows_trans w1 w2 w3 : team_grows w1 w2 -> team_grows w2 w3 -> team_grows w1 w3.
Proof.
  intros [A1 R1 D1 V1 G1 C1 [l1 E1]] [A2 R2 D2 V2 G2 C2 [l2 E2]]. split; try (by etrans).
  - intros id t (t1 & (t2 & ? & ?)%A2 & ?)%A1. exists t2. split; [done|lia].
  - exists (l1 ++ l2). by rewrite E2, E1, app_assoc.
Qed.

(** * Teams *)

Lemma i64_revision_Ok n r : i64_revision n = Ok r -> r = n /\ (n <= I64_MAX)%Z.
Proof. unfold i64_revision, try_i64. destruct (bool_decide_reflect (n <= I64_MAX)%Z); [|done]. by intros [= ->]. Qed.
Lemma checked_add_Some a r : checked_add_i64 a 1 = Some r -> r = (a + 1)%Z.
Proof. unfold checked_add_i64, try_i64. destruct (bool_decide _); [|done]. by intros [= ->]. Qed.

(** Adding the next revision of a team, and a governance for it. *)
Lemma sound_advance w t (extra : option TeamGovernance) records events :
  validate t = Ok tt -> at_revision t = (default 0 (at_revision <$> tw_teams w !! at_id t) + 1)%Z ->
  (forall g, extra = Some g -> governed_team g = at_id t /\ governed_revision g = at_revision t /\
    ord_le (distinct_from g) Severity.High /\ covers_team g t = true /\ tw_governance w !! (at_id t, at_revision t) = None) ->
  tw_records w ⊆ records ->
  sound_step w (mkTeamWorld (<[at_id t := t]> (tw_teams w)) (<[(at_id t, at_revision t) := t]> (tw_revisions w))
    (tw_delegations w) (tw_revocations w)
    match extra with Some g => <[(at_id t, at_revision t) := g]> (tw_governance w) | None => tw_governance w end
    records (tw_events w ++ events) (tw_system w)).
Proof.
  intros Hv Hr Hg Hrec Hw.
  assert (Hpos : (1 <= at_revision t)%Z).
  { rewrite Hr. destruct (tw_teams w !! at_id t) as [t0|] eqn:Ht; cbn; [|lia].
    destruct (tf_heads w Hw _ _ Ht) as [_ (_ & _ & _ & ? & _)%(tf_revisions w Hw)]. lia. }
  assert (Hhead : forall t0, tw_teams w !! at_id t = Some t0 -> at_revision t = (at_revision t0 + 1)%Z).
  { intros t0 Ht. by rewrite Hr, Ht. }
  assert (Hnew : tw_revisions w !! (at_id t, at_revision t) = None).
  { destruct (tw_revisions w !! _) as [t1|] eqn:Ht; [|done].
    destruct (tf_revisions w Hw _ _ _ Ht) as (_ & _ & _ & _ & head & Hh & ?). specialize (Hhead head Hh). lia. }
  split.
  - split; cbn [tw_teams tw_revisions tw_delegations tw_revocations tw_governance].
    + intros id t0 [[<- <-]|[Hid Ht]]%lookup_insert_Some; [by rewrite lookup_insert_eq|].
      destruct (tf_heads w Hw _ _ Ht) as [? ?]. split; [done|]. rewrite lookup_insert_ne; [done|congruence].
    + intros id r t0 [[[= <- <-] <-]|[Hid Ht]]%lookup_insert_Some.
      { split_and!; try done. exists t. rewrite lookup_insert_eq. split; [done|lia]. }
      destruct (tf_revisions w Hw _ _ _ Ht) as (? & ? & ? & ? & head & Hh & ?). split_and!; try done.
      destruct (decide (at_id t = id)) as [<-|Hne]; [|exists head; by rewrite lookup_insert_ne].
      exists t. rewrite lookup_insert_eq. split; [done|]. specialize (Hhead head Hh). lia.
    + intros id t0 r [[<- <-]|[Hid Ht]]%lookup_insert_Some Hle.
      2: { rewrite lookup_insert_ne by congruence. by eapply tf_complete. }
      destruct (decide (r = at_revision t)) as [->|Hne]; [rewrite lookup_insert_eq; by eexists|].
      rewrite lookup_insert_ne by congruence. destruct (tw_teams w !! at_id t) as [t1|] eqn:Ht.
      * eapply (tf_complete w Hw); [done|]. specialize (Hhead t1 eq_refl). lia.
      * exfalso. cbn in Hr. lia.
    + intros id d Hd. destruct (tf_delegations w Hw _ _ Hd) as [? [t0 Ht]]. split; [done|].
      destruct (decide (at_id t = delegation_team d)) as [->|]; [rewrite lookup_insert_eq|rewrite lookup_insert_ne by done]; by eexists.
    + apply (tf_revocations w Hw).
    + intros id r g Hin.
      assert (Hold : tw_governance w !! (id, r) = Some g -> governed_team g = id /\ governed_revision g = r /\
        ord_le (distinct_from g) Severity.High /\
        exists t0, <[(at_id t, at_revision t) := t]> (tw_revisions w) !! (id, r) = Some t0 /\ covers_team g t0 = true).
      { intros Hgv. destruct (tf_governance w Hw _ _ _ Hgv) as (? & ? & ? & t0 & Ht0 & ?). split_and!; try done.
        exists t0. split; [|done]. rewrite lookup_insert_ne; [done|]. intros [= <- <-]. congruence. }
      destruct extra as [g0|]; [|by apply Hold].
      apply lookup_insert_Some in Hin as [[[= <- <-] <-]|[_ Hin]]; [|by apply Hold].
      destruct (Hg g0 eq_refl) as (? & ? & ? & ? & _). split_and!; try done. exists t. by rewrite lookup_insert_eq.
  - split; cbn [tw_teams tw_revisions tw_delegations tw_revocations tw_governance tw_records tw_events]; try done.
    + intros id t0 Ht. destruct (decide (at_id t = id)) as [<-|Hne].
      * exists t. rewrite lookup_insert_eq. split; [done|]. specialize (Hhead t0 Ht). lia.
      * exists t0. rewrite lookup_insert_ne by done. split; [done|lia].
    + by apply insert_subseteq.
    + destruct extra as [g0|]; [|done]. destruct (Hg g0 eq_refl) as (_ & _ & _ & _ & Hn). by apply insert_subseteq.
    + by eexists.
Qed.

Lemma sound_save t w w' : save_agent_team t w = Ok w' -> sound_step w w'.
Proof.
  unfold save_agent_team. intros ([] & Hv & (r & [-> _]%i64_revision_Ok & Hrest)%result_bind_Ok)%result_bind_Ok.
  destruct (bool_decide_reflect (checked_add_i64 (default 0%Z (at_revision <$> tw_teams w !! at_id t)) 1 = Some (at_revision t)))
    as [Hn%checked_add_Some|]; [|done]. cbn [negb] in Hrest.
  apply result_bind_Ok in Hrest as (rows & [_ ->]%insert_row_Ok & [= <-]).
  by apply (sound_advance w t None).
Qed.

(** * Delegations and governance *)

Lemma agent_team_Ok id w t : agent_team id w = Ok t -> tw_teams w !! id = Some t.
Proof. apply ok_or_Ok. Qed.
Lemma record_delegation_Ok d now w w' :
  record_delegation d now w = Ret (Ok w') ->
  is_Some (tw_teams w !! delegation_team d) /\ tw_delegations w !! delegation_id d = None /\
  w' = mkTeamWorld (tw_teams w) (tw_revisions w) (<[delegation_id d := d]> (tw_delegations w)) (tw_revocations w)
         (tw_governance w) (tw_records w) (tw_events w ++ [(delegation_team d, "delegation_recorded")]) (tw_system w).
Proof.
  unfold record_delegation. intros (t & [= Ht%agent_team_Ok] & Hrest)%and_then_Ok.
  destruct (bool_decide _); [done|]. apply and_then_Ok in Hrest as (rights & _ & [= Hi]).
  apply result_bind_Ok in Hi as ([] & _ & (rows & [Hn ->]%insert_row_Ok & [= <-])%result_bind_Ok). eauto.
Qed.
Lemma revoke_delegation_Ok id reason w w' :
  revoke_delegation id reason w = Ok w' ->
  exists d, tw_delegations w !! id = Some d /\ tw_revocations w !! id = None /\
  w' = mkTeamWorld (tw_teams w) (tw_revisions w) (tw_delegations w) (<[id := reason]> (tw_revocations w))
         (tw_governance w) (tw_records w) (tw_events w ++ [(delegation_team d, "delegation_revoked")]) (tw_system w).
Proof.
  unfold revoke_delegation. destruct (blank reason); [done|].
  intros (d & Hd%ok_or_Ok & (rows & [Hn ->]%insert_row_Ok & [= <-])%result_bind_Ok)%result_bind_Ok. eauto.
Qed.
Lemma governance_fits_covers g t :
  governance_fits g t = true -> at_revision t = governed_revision g /\ ord_le (distinct_from g) Severity.High /\ covers_team g t = true.
Proof.
  unfold governance_fits. rewrite !andb_true_iff, !bool_decide_eq_true. tauto.
Qed.
Lemma save_team_governance_Ok g w w' :
  save_team_governance g w = Ok w' ->
  exists t, tw_teams w !! governed_team g = Some t /\ governance_fits g t = true /\
    tw_governance w !! (governed_team g, governed_revision g) = None /\
    w' = mkTeamWorld (tw_teams w) (tw_revisions w) (tw_delegations w) (tw_revocations w)
           (<[(governed_team g, governed_revision g) := g]> (tw_governance w)) (tw_records w)
           (tw_events w ++ [(governed_team g, "team_governance_recorded")]) (tw_system w).
Proof.
  intros (t & Ht%agent_team_Ok & Hrest)%result_bind_Ok. exists t. split; [done|].
  destruct (governance_fits g t); [|done]. destruct (existsb _ _); [done|]. destruct (existsb _ _); [done|]. cbn [negb] in Hrest.
  apply result_bind_Ok in Hrest as (bytes & _ & Hrest). destruct (_ <? bytes)%Z; [done|].
  apply result_bind_Ok in Hrest as (r & [-> _]%i64_revision_Ok & (rows & [Hn ->]%insert_row_Ok & [= <-])%result_bind_Ok).
  done.
Qed.

(** The tables other than those of a call are as they were. *)
Ltac untouched := split; cbn [tw_teams tw_revisions tw_delegations tw_revocations tw_governance tw_records tw_events];
  try done; try (by eexists); try (by apply insert_subseteq); try (by eauto with lia).

Lemma sound_record d now w w' : record_delegation d now w = Ret (Ok w') -> sound_step w w'.
Proof.
  intros ([t Ht] & Hn & ->)%record_delegation_Ok Hw. split; [|untouched]. destruct Hw. untouched.
  - intros id d' [[<- <-]|[_ Hd]]%lookup_insert_Some; [|by eauto]. split; [done|by eexists].
  - intros id Hr%tf_revocations0. destruct (decide (delegation_id d = id)) as [<-|Hne]; [rewrite lookup_insert_eq; by eexists|].
    by rewrite lookup_insert_ne.
Qed.
Lemma sound_revoke id reason w w' : revoke_delegation id reason w = Ok w' -> sound_step w w'.
Proof.
  intros (d & Hd & Hn & ->)%revoke_delegation_Ok Hw. split; [|untouched]. destruct Hw. untouched.
  intros id' [r [[<- _]|[_ Hr]]%lookup_insert_Some]; [by eexists|]. apply tf_revocations0. by eexists.
Qed.
Lemma sound_govern g w w' : save_team_governance g w = Ok w' -> sound_step w w'.
Proof.
  intros (t & Ht & (Hr & Hs & Hc)%governance_fits_covers & Hn & ->)%save_team_governance_Ok Hw. split; [|untouched].
  destruct (tf_heads w Hw _ _ Ht) as [Hid Hrow]. rewrite Hr in Hrow. destruct Hw. untouched.
  intros id r g' [[[= <- <-] <-]|[_ Hg]]%lookup_insert_Some; [|by eauto]. split_and!; eauto.
Qed.

(** * Reassignment *)

Lemma give_first_roles f to l : map assigned_role (give_first f to l) = map assigned_role l.
Proof. induction l as [|a l IH]; [done|]. cbn. destruct (f a); cbn; by rewrite ?IH. Qed.
Lemma covers_reassigned g t r now n : covers_team (advance_governance g n) (reassigned t r now) = covers_team g t.
Proof. done. Qed.

Lemma reassign_team_role_Ok r now t' w w' :
  reassign_team_role r now w = Ret (Ok (t', w')) ->
  exists t g a target role, tw_teams w !! reassigned_team r = Some t /\ at_revision t = reassigned_revision r /\
    tw_governance w !! (at_id t, at_revision t) = Some g /\
    List.find (reassignable r now) (role_assignments t) = Some a /\
    member_profiles g !! to_member r = Some target /\ role_capabilities g !! assigned_role a = Some role /\
    (forall p, p ∈ allowed_patterns role -> p ∈ allowed_patterns (profile_capabilities target)) /\
    t' = reassigned t r now /\ write_reassignment r t' (advance_governance g (at_revision t')) w = Ok w'.
Proof.
  unfold reassign_team_role. intros (t & [= Ht%agent_team_Ok] & Hrest)%and_then_Ok.
  destruct (bool_decide_reflect (at_revision t = reassigned_revision r)) as [Hr|]; [|done]. cbn [negb orb] in Hrest.
  destruct (_ || _); [done|].
  apply and_then_Ok in Hrest as (g & [= (g' & (n & [-> _]%i64_revision_Ok & [= <-])%result_bind_Ok & Hg%ok_or_Ok)%result_bind_Ok] & Hrest).
  apply and_then_Ok in Hrest as (fingerprint & _ & Hrest). destruct (negb _); [done|].
  apply and_then_Ok in Hrest as ([] & _ & Hrest). destruct (List.find _ _) as [a|] eqn:Ha; [|done].
  destruct (member_profiles g !! to_member r) as [target|] eqn:Hm; [|done].
  destruct (role_capabilities g !! assigned_role a) as [role|] eqn:Hro; [|done]. cbn in Hrest.
  destruct (existsb _ _) eqn:He; [done|]. injection Hrest as (w1 & Hw1 & [= <- <-])%result_bind_Ok.
  exists t, g, a, target, role. split_and!; try done. intros p Hp. destruct (decide (p ∈ allowed_patterns (profile_capabilities target))) as [|Hn]; [done|].
  enough (existsb (fun p => negb (bool_decide (p ∈ allowed_patterns (profile_capabilities target)))) (allowed_patterns role) = true) by congruence.
  apply existsb_True. exists p. split; [done|]. by rewrite bool_decide_eq_false_2.
Qed.
Lemma write_reassignment_Ok r t g w w' :
  write_reassignment r t g w = Ok w' ->
  validate t = Ok tt /\ tw_governance w !! (at_id t, at_revision t) = None /\
  exists records, tw_records w ⊆ records /\
  w' = mkTeamWorld (<[at_id t := t]> (tw_teams w)) (<[(at_id t, at_revision t) := t]> (tw_revisions w)) (tw_delegations w)
         (tw_revocations w) (<[(at_id t, at_revision t) := g]> (tw_governance w)) records
         (tw_events w ++ [(reassigned_team r, "role_reassigned")]) (tw_system w).
Proof.
  intros ([] & Hv & (n & [-> _]%i64_revision_Ok & (old & _ & (rows & [_ ->]%insert_row_Ok & Hrest)%result_bind_Ok)%result_bind_Ok)%result_bind_Ok)%result_bind_Ok.
  destruct (negb _); [done|].
  apply result_bind_Ok in Hrest as (rows & [Hn ->]%insert_row_Ok & (bytes & _ & Hrest)%result_bind_Ok).
  destruct (_ <? bytes)%Z; [done|]. apply result_bind_Ok in Hrest as (records & [Hrec ->]%insert_row_Ok & [= <-]).
  split; [done|]. split; [done|]. eexists. split; [|done]. by apply insert_subseteq.
Qed.
Lemma sound_reassign r now t' w w' : reassign_team_role r now w = Ret (Ok (t', w')) -> sound_step w w'.
Proof.
  intros (t & g & a & target & role & Ht & _ & Hg & _ & _ & _ & _ & -> & (Hv & Hn & records & Hrec & ->)%write_reassignment_Ok)%reassign_team_role_Ok Hw.
  destruct (tf_heads w Hw _ _ Ht) as [Hid Hrow]. destruct (tf_governance w Hw _ _ _ Hg) as (Hgt & _ & Hs & t0 & Ht0 & Hc).
  rewrite <- Hid in Ht, Hrow. assert (t0 = t) as -> by congruence.
  apply (sound_advance w (reassigned t r now) (Some (advance_governance g (at_revision t + 1))) records); try done.
  - cbn. by rewrite Ht.
  - by intros ? [= <-].
Qed.

(** * Reachable states *)

Lemma sound_team_step w w' : team_step w w' -> sound_step w w'.
Proof.
  destruct 1; eauto using sound_save, sound_record, sound_revoke, sound_govern, sound_reassign.
  intros Hw. split; [by destruct Hw|]. untouched. exists []. by rewrite app_nil_r.
Qed.
Lemma sound_team_steps w w' : rtc team_step w w' -> sound_step w w'.
Proof.
  induction 1 as [w|w w1 w2 Hstep _ IH]; intros Hw; [split; [done|apply team_grows_refl]|].
  apply sound_team_step in Hstep. destruct (Hstep Hw) as [Hw1 ?]. destruct (IH Hw1). split; [done|by eapply team_grows_trans].
Qed.
Definition empty_teams (x : X) : World := mkTeamWorld ∅ ∅ ∅ ∅ ∅ ∅ [] x.
Lemma empty_teams_wf x : team_wf (empty_teams x).
Proof. split; cbn; intros *; rewrite lookup_empty; try done; by intros []. Qed.
End system.
