(* ===== verification/TeamSafety.v ===== *)
(** What the team governance guarantees: delegations amplify nothing and end for good,
    the store of teams keeps its books, and an agent bound to a team is told to act
    only within its role. *)
From S2P Require Import Prelude Semver Scope ScopeRelation ScopeSoundness Hierarchy EconomicsModel EffectModel.
From S2P Require Import CapabilityModel PlanModel PlanValidity StateError PlanStore PlanRunFacts RuntimeModel RuntimePolicy.
From S2P Require Import RuntimeGuide RuntimeVerdict RuntimeSound RuntimeSafety.
From S2P Require Import TeamAuthority TeamFacts TeamStore TeamSystem.

(** * Scopes and chains *)

Section chains.
Context `{SemverLaws} `{PredicateJson}.
Implicit Types (t : AgentTeam) (d p : Delegation).

Lemma narrows_applies a b ctx : narrows a b = true -> context_wf ctx -> applies a ctx -> applies b ctx.
Proof.
  unfold narrows. intros Hn Hctx. pose proof (compare_relation a b ctx Hctx) as Hr.
  destruct (compare a b); try done; cbn in Hr; tauto.
Qed.
Lemma expands_parent_false d p :
  expands_parent d p = false ->
  (is_Some (delegation_plan p) -> delegation_plan p = delegation_plan d) /\ delegate p = delegator d /\
  source_assignment p = source_assignment d /\ (delegation_expires d <= delegation_expires p)%Z /\
  (delegated_at p <= delegated_at d)%Z /\ narrows (task_scope d) (task_scope p) = true.
Proof.
  unfold expands_parent. rewrite !orb_false_iff, andb_false_iff, !negb_false_iff, !bool_decide_eq_true, bool_decide_eq_false, !Z.ltb_ge.
  tauto.
Qed.
Lemma expands_assignment_false d a :
  expands_assignment d a = false ->
  assigned_member a = delegator d /\ (delegation_expires d <= valid_until a)%Z /\ (valid_from a <= delegated_at d)%Z /\
  narrows (task_scope d) (assignment_scope a) = true.
Proof. unfold expands_assignment. rewrite !orb_false_iff, !negb_false_iff, bool_decide_eq_true, !Z.ltb_ge. tauto. Qed.
Lemma delegation_mismatch_false t now id d :
  delegation_mismatch t now id d = false ->
  delegation_id d = id /\ delegation_team d = at_id t /\ delegation_revision d = at_revision t /\
  (delegated_at d <= now < delegation_expires d)%Z /\ delegator d <> delegate d /\
  exists m, m ∈ members t /\ member_id m = delegate d.
Proof.
  unfold delegation_mismatch. rewrite !orb_false_iff, !negb_false_iff, !bool_decide_eq_true, bool_decide_eq_false, !Z.ltb_ge, !Z.leb_gt.
  intros (((((((? & ?) & ?) & ?) & ?) & ?) & ?) & (m & ? & ?%bool_decide_eq_true)%existsb_True). split_and!; eauto.
Qed.

(** A delegation is no wider than another: in authority, time and scope, on the same
    assignment. *)
Record no_wider d p : Prop := {
  nw_authority : delegation_authority d ⊆ delegation_authority p;
  nw_source : source_assignment d = source_assignment p;
  nw_time : (delegated_at p <= delegated_at d)%Z /\ (delegation_expires d <= delegation_expires p)%Z;
  nw_scope : forall ctx, context_wf ctx -> applies (task_scope d) ctx -> applies (task_scope p) ctx;
  nw_plan : is_Some (delegation_plan p) -> delegation_plan d = delegation_plan p;
}.
Lemma no_wider_refl d : no_wider d d.
Proof. by split. Qed.
Lemma no_wider_trans d1 d2 d3 : no_wider d1 d2 -> no_wider d2 d3 -> no_wider d1 d3.
Proof.
  intros [A1 S1 [T1 T1'] C1 P1] [A2 S2 [T2 T2'] C2 P2]. split; [set_solver|congruence|lia|eauto|].
  intros Hp. rewrite P1; [by apply P2|]. by rewrite P2.
Qed.

(** Down a chain that holds nothing widens, and its root is the assignment of the
    member that delegated first. *)
Lemma holds_bounded t all revoked now n id rights :
  holds t all revoked now n id rights -> exists d a,
    all !! id = Some d /\ find_assignment t (source_assignment d) = Some a /\
    (exists own, assignment_authority t (assignment_id a) now = Ok own /\ delegation_authority d ⊆ own) /\
    (valid_from a <= delegated_at d /\ delegation_expires d <= valid_until a)%Z /\
    (forall ctx, context_wf ctx -> applies (task_scope d) ctx -> applies (assignment_scope a) ctx) /\
    forall q, ancestor all id q -> exists p, all !! q = Some p /\ no_wider d p /\ q ∉ revoked /\
      delegation_revision p = at_revision t /\ delegation_team p = at_id t.
Proof.
  induction 1 as [id d a r rights Hst Hp (Hm & He & Hv & Hn)%expands_assignment_false Ha Hs
                 |id d a r q p n rights Hst Hp Hq (Hpl & Hd & Hsrc & He & Hi & Hn)%expands_parent_false Hh IH Hs];
    destruct Hst as [Hrec Hrev Hm' Ha' Hr Hb]; apply delegation_mismatch_false in Hm' as (Hid & Ht & Hrv & _).
  - exists d, a. split_and!; try done; [by eauto| |].
    + intros ctx Hc. by apply narrows_applies.
    + intros q Ha2. inversion Ha2 as [|? q' ? (d' & Hd' & Hp') _]; subst; [|congruence].
      exists d. by split_and!.
  - destruct IH as (p' & a' & Hp' & Ha2 & (own & Hown & Hsub) & [Hf Hu] & Hsc & Hanc).
    assert (p' = p) as -> by congruence. assert (a' = a) as -> by congruence.
    destruct (holds_recorded _ _ _ _ _ _ _ Hh) as (p' & Hp2 & ->). assert (p' = p) as -> by congruence.
    assert (Hw : no_wider d p).
    { split; try done; [by intros ctx ?; apply narrows_applies|]. intros Hx. by rewrite Hpl. }
    exists d, a. split_and!; try done; [exists own; split; [done|set_solver]|lia|lia| |].
    + intros ctx Hc Hap. apply Hsc; [done|]. by apply (nw_scope d p Hw).
    + intros q2 Ha3. inversion Ha3 as [|? q' ? (d' & Hd' & Hp3) Hrest]; subst.
      { exists d. by split_and!. }
      assert (q' = q) as -> by congruence. destruct (Hanc q2 Hrest) as (p2 & ? & Hw2 & ?).
      exists p2. split; [done|]. split; [|done]. by eapply no_wider_trans.
Qed.

(** C37. Delegated authority is exactly that of the chains that hold: following a delegation always returns, and it
    grants something precisely when the team is valid and a chain of recorded, current, unrevoked delegations, no longer
    than the allowed depth and none going beyond the one before, leads to an assignment of the first delegator. *)
Theorem delegated_authority_exact t id all revoked now :
  (exists x, delegated_authority t id all revoked now = Ret x) /\
  forall rights, delegated_authority t id all revoked now = Ret (Ok rights) <->
    validate t = Ok tt /\ exists n, (Z.of_nat n <= max_delegation_depth t)%Z /\ holds t all revoked now n id rights.
Proof. split; [apply delegated_returns|]. intros rights. apply delegated_Ok. Qed.

(** C12. Delegating amplifies nothing: what a delegation grants is within the present authority of the assignment it
    started from, its lifetime and its scope, and so for every delegation in between, none of which is revoked or of
    another revision of the team. *)
Theorem delegation_never_amplifies t id all revoked now rights :
  delegated_authority t id all revoked now = Ret (Ok rights) ->
  exists d a, all !! id = Some d /\ rights = delegation_authority d /\
    find_assignment t (source_assignment d) = Some a /\
    (exists own, assignment_authority t (assignment_id a) now = Ok own /\ rights ⊆ own) /\
    (valid_from a <= delegated_at d /\ delegation_expires d <= valid_until a)%Z /\
    (forall ctx, context_wf ctx -> applies (task_scope d) ctx -> applies (assignment_scope a) ctx) /\
    forall q, ancestor all id q -> exists p, all !! q = Some p /\ no_wider d p /\ q ∉ revoked /\
      delegation_revision p = at_revision t /\ delegation_team p = at_id t.
Proof.
  intros (_ & n & _ & Hh)%delegated_Ok. destruct (holds_recorded _ _ _ _ _ _ _ Hh) as (d' & Hd' & ->).
  destruct (holds_bounded _ _ _ _ _ _ _ Hh) as (d & a & Hd & Hrest). assert (d' = d) as -> by congruence.
  exists d, a. split; [done|]. split; [done|]. exact Hrest.
Qed.
End chains.

(** * The store *)

Section store.
Context `{SemverCrate} `{PredicateJson} `{!RuntimeTexts} {X : Type} `{!TeamHost X}.
#[local] Abbreviation World := (TeamWorld (X := X)).
Implicit Types (w : World) (t : AgentTeam) (q : TeamRequest).

Lemma team_delegations_lookup team w id d :
  team_delegations team w !! id = Some d <-> tw_delegations w !! id = Some d /\ delegation_team d = team.
Proof. unfold team_delegations. by rewrite map_lookup_filter_Some. Qed.
Lemma ancestor_mono (m m' : gmap string Delegation) (id p : string) : m ⊆ m' -> ancestor m id p -> ancestor m' id p.
Proof.
  intros Hm Ha. induction Ha as [id|id p' p (d & Hd & Hp) _ IH]; [done|].
  eapply rtc_l; [|exact IH]. exists d. split; [|done]. by eapply lookup_weaken.
Qed.
Lemma team_delegations_mono team w w' : team_grows w w' -> team_delegations team w ⊆ team_delegations team w'.
Proof.
  intros Hg. apply map_subseteq_spec. intros id d [Hd ?]%team_delegations_lookup. apply team_delegations_lookup.
  split; [|done]. by eapply lookup_weaken; [|apply tg_delegations].
Qed.

(** C38. The books of the store of teams: whatever calls are made, in any order, the revisions of a team are numbered
    without gaps and its head is the last of them, every revision is a valid team, governance covers the revision it is
    for, only recorded delegations are revoked, and no row is ever changed or removed. *)
Theorem team_books w w' : team_wf w -> rtc team_step w w' -> team_wf w' /\ team_grows w w'.
Proof. intros Hw Hs. by apply (sound_team_steps w w' Hs). Qed.

(** C39. A delegation ends for good: when it, or one it comes from, has been revoked, or the team has moved to a later
    revision, then whatever is called afterwards it is never valid again. *)
Theorem delegation_ends team id p d w w' now rights :
  team_wf w -> rtc team_step w w' -> ancestor (team_delegations team w) id p -> team_delegations team w !! p = Some d ->
  p ∈ revoked_delegations w \/ (exists t, tw_teams w !! team = Some t /\ (delegation_revision d < at_revision t)%Z) ->
  validate_delegation team id now w' <> Ret (Ok rights).
Proof.
  intros Hw Hs Ha Hp Hend Hv. destruct (sound_team_steps w w' Hs Hw) as [_ Hg].
  unfold validate_delegation in Hv. apply and_then_Ok in Hv as (t' & [= Ht'%agent_team_Ok] & Hv).
  apply and_then_Ok in Hv as (rights' & (_ & n & _ & Hh)%delegated_Ok & _).
  apply (ancestor_mono _ (team_delegations team w')) in Ha; [|by apply team_delegations_mono].
  destruct (holds_ancestor _ _ _ _ _ _ _ _ Hh Ha) as (m & r' & Hm & _ & _).
  assert (Hst : exists d' a r, stands t' (team_delegations team w') (revoked_delegations w') now p d' a r).
  { destruct Hm; eauto. }
  destruct Hst as (d' & a & r & [Hrec Hrev (_ & _ & Hr & _)%delegation_mismatch_false _ _ _]).
  assert (d' = d) as ->. { pose proof (lookup_weaken _ _ _ _ Hp (team_delegations_mono team _ _ Hg)). congruence. }
  destruct Hend as [Hin|(t & Ht & Hlt)].
  - apply Hrev. unfold revoked_delegations in *. apply elem_of_dom in Hin as [x Hx]. apply elem_of_dom. exists x.
    by eapply lookup_weaken; [|apply tg_revocations].
  - destruct (tg_heads _ _ Hg _ _ Ht) as (t2 & Ht2 & ?). assert (t2 = t') as -> by congruence. lia.
Qed.

(** * Decisions *)

(** The bound of an approval by role: whether the capability envelopes of the bound
    revision are missing something the current team needs. *)
Definition stale_gap q w : Prop :=
  exists b t a g, team (tr_context q) = Some b /\ tw_teams w !! team_id b = Some t /\
    a ∈ role_assignments t /\ assignment_id a = team_assignment b /\ assigned_member a = team_member b /\
    team_governance (team_id b) (team_revision b) w = Ok (Some g) /\
    (role_capabilities g !! assigned_role a = None \/ member_profiles g !! team_member b = None).

Lemma NoDup_map_eq {A B} (f : A -> B) l x y : NoDup (map f l) -> x ∈ l -> y ∈ l -> f x = f y -> x = y.
Proof.
  induction l as [|a l IH]; cbn; [set_solver|]. intros [Hn Hd]%NoDup_cons Hx Hy Hf.
  assert (Hout : forall z, z ∈ l -> f z <> f a) by (intros z Hz Hfz; apply Hn; rewrite <- Hfz; by apply list_elem_of_fmap_2).
  apply elem_of_cons in Hx as [->|Hx], Hy as [->|Hy]; auto; exfalso; [by apply (Hout y)|by apply (Hout x)].
Qed.

Lemma wf_head w id t : team_wf w -> tw_teams w !! id = Some t -> at_id t = id /\ valid_team t.
Proof.
  intros Hw Ht. destruct (tf_heads w Hw _ _ Ht) as [Hid (_ & _ & Hv & _)%(tf_revisions w Hw)].
  split; [done|by apply validate_valid].
Qed.

(** Every available capability is within the envelopes of the role and of the member
    at the bound revision, if the team was ever governed. *)
Definition enveloped q (b : TeamRuntimeContext) (a : RoleAssignment) w : Prop :=
  match tw_governance w !! (team_id b, team_revision b) with
  | Some g => exists role member, role_capabilities g !! assigned_role a = Some role /\
      member_profiles g !! team_member b = Some member /\
      forall k, k ∈ tr_available q -> permits role k = true /\ permits (profile_capabilities member) k = true
  | None => forall r, tw_governance w !! (team_id b, r) = None
  end.

Lemma bound_assignment t b a :
  List.find (fun a => bool_decide (assignment_id a = team_assignment b) && bool_decide (assigned_member a = team_member b))
    (role_assignments t) = Some a ->
  a ∈ role_assignments t /\ assignment_id a = team_assignment b /\ assigned_member a = team_member b.
Proof. intros [? [?%bool_decide_eq_true ?%bool_decide_eq_true]%andb_true_iff]%find_Some. done. Qed.
Lemma not_outside role member r k : outside role member r k = false -> permits role k = true /\ permits member k = true.
Proof. unfold outside. rewrite !orb_false_iff, !negb_false_iff. tauto. Qed.
Lemma existsb_False {A} (f : A -> bool) l : existsb f l = false -> forall x, x ∈ l -> f x = false.
Proof. intros Hf x Hx. destruct (f x) eqn:E; [|done]. enough (existsb f l = true) by congruence. apply existsb_True; eauto. Qed.

Lemma validate_team_capabilities_spec q w :
  team_wf w ->
  (validate_team_capabilities q w = Panicked <-> stale_gap q w) /\ validate_team_capabilities q w <> OutOfFuel /\
  (validate_team_capabilities q w = Ret (Ok tt) -> exists b t a, team (tr_context q) = Some b /\
    tw_teams w !! team_id b = Some t /\ a ∈ role_assignments t /\ assignment_id a = team_assignment b /\
    assigned_member a = team_member b /\ enveloped q b a w).
Proof.
  intros Hw. unfold validate_team_capabilities, stale_gap.
  destruct (team (tr_context q)) as [b|]; [|naive_solver]. unfold agent_team.
  destruct (tw_teams w !! team_id b) as [t|] eqn:Ht; cbn [ok_or and_then]; [|naive_solver].
  destruct (wf_head w _ _ Hw Ht) as [_ Hvalid].
  destruct (List.find _ (role_assignments t)) as [a|] eqn:Ha.
  2: { split; [|done]. split; [done|]. intros (b' & t' & a & g & [= <-] & Ht' & Hin & Hid & Hm & _). exfalso.
       assert (t' = t) as -> by congruence.
       apply list_elem_of_In in Hin. pose proof (find_none _ _ Ha a Hin) as Hn. cbn in Hn.
       by rewrite !bool_decide_eq_true_2 in Hn by done. }
  apply bound_assignment in Ha as (Hin & Hid & Hm).
  assert (Huniq : forall a', a' ∈ role_assignments t -> assignment_id a' = team_assignment b -> a' = a).
  { intros a' Hin' Hid'. eapply (NoDup_map_eq assignment_id); [by apply vt_assignments|done..|congruence]. }
  destruct (team_governance (team_id b) (team_revision b) w) as [[g|]|e] eqn:Hg; cbn [and_then].
  - assert (Hgap : forall P : Prop, (P <-> role_capabilities g !! assigned_role a = None \/ member_profiles g !! team_member b = None) ->
      P <-> exists b0 t0 a0 g0, Some b = Some b0 /\ tw_teams w !! team_id b0 = Some t0 /\ a0 ∈ role_assignments t0 /\
        assignment_id a0 = team_assignment b0 /\ assigned_member a0 = team_member b0 /\
        team_governance (team_id b0) (team_revision b0) w = Ok (Some g0) /\
        (role_capabilities g0 !! assigned_role a0 = None \/ member_profiles g0 !! team_member b0 = None)).
    { intros P HP. rewrite HP. split; [intros Hn; by exists b, t, a, g|].
      intros (b' & t' & a' & g' & [= <-] & Ht' & Hin' & Hid' & _ & Hg' & Hn). assert (t' = t) as -> by congruence.
      assert (g' = g) as -> by congruence. by rewrite (Huniq a' Hin' Hid') in Hn. }
    destruct (role_capabilities g !! assigned_role a) as [role|] eqn:Hro; cbn [index_or_panic].
    2: { split; [by apply Hgap; split; auto|done]. }
    destruct (find_role_assigned t a Hvalid Hin) as [r Hr]. cbn. rewrite Hr.
    destruct (member_profiles g !! team_member b) as [member|] eqn:Hme; cbn.
    2: { split; [by apply Hgap; split; auto|done]. }
    split; [apply Hgap; by split; [|intros []]|]. split; [done|].
    destruct (existsb _ _) eqn:Hex; [done|]. intros _. exists b, t, a. split_and!; try done.
    unfold team_governance in Hg. apply result_bind_Ok in Hg as (n & [-> _]%i64_revision_Ok & [= Hg]).
    unfold enveloped. rewrite Hg. exists role, member. split_and!; [done..|].
    intros k Hk. eapply not_outside. by apply (existsb_False _ _ Hex).
  - assert (Hno : ~ exists b0 t0 a0 g0, Some b = Some b0 /\ tw_teams w !! team_id b0 = Some t0 /\ a0 ∈ role_assignments t0 /\
        assignment_id a0 = team_assignment b0 /\ assigned_member a0 = team_member b0 /\
        team_governance (team_id b0) (team_revision b0) w = Ok (Some g0) /\
        (role_capabilities g0 !! assigned_role a0 = None \/ member_profiles g0 !! team_member b0 = None)).
    { intros (b' & t' & a' & g' & [= <-] & _ & _ & _ & _ & Hg' & _). congruence. }
    split; [by split; [|intros ?%Hno]|]. split; [done|]. destruct (existsb _ _) eqn:Hex; [done|]. intros _.
    exists b, t, a. split_and!; try done. unfold team_governance in Hg.
    apply result_bind_Ok in Hg as (n & [-> _]%i64_revision_Ok & [= Hg]). unfold enveloped. rewrite Hg.
    intros r. destruct (tw_governance w !! (team_id b, r)) as [g|] eqn:Hgr; [|done]. exfalso.
    pose proof (existsb_False _ _ Hex ((team_id b, r), g) (proj2 (elem_of_map_to_list _ _ _) Hgr)) as Hn.
    by apply bool_decide_eq_false in Hn.
  - split; [|done]. split; [done|]. intros (b' & t' & a' & g' & [= <-] & _ & _ & _ & _ & Hg' & _). congruence.
Qed.

Lemma binding_rights_returns c b t a ctx now w : exists x, binding_rights c b t a ctx now w = Ret x.
Proof.
  unfold binding_rights, delegated_rights. destruct (team_delegation b) as [id|]; [|by eexists].
  destruct (delegated_returns t (team_delegations (at_id t) w) (revoked_delegations w) (now 0) id) as [x Hx].
  rewrite Hx. destruct x as [rights|e]; cbn [and_then]; [|by eexists].
  apply delegated_Ok in Hx as (_ & n & _ & (d & Hd & _)%holds_recorded). rewrite Hd. cbn. by eexists.
Qed.
Lemma team_allows_outcome q b now w :
  team_wf w -> team (tr_context q) = Some b ->
  (team_allows q b now w = Panicked <-> stale_gap q w) /\ team_allows q b now w <> OutOfFuel.
Proof.
  intros Hw Hb. destruct (validate_team_capabilities_spec q w Hw) as (Hp & Hf & _). unfold team_allows.
  destruct (agent_team (team_id b) w) as [t|e] eqn:Ht; cbn [and_then].
  2: { split; [|done]. split; [done|]. intros (b' & t & a & g & Hb' & Ht' & _). unfold agent_team in Ht.
       assert (b' = b) as -> by congruence. by rewrite Ht' in Ht. }
  destruct (validate_team_capabilities q w) as [[[]|e]| |] eqn:Hv; cbn [and_then]; [| |tauto|done].
  2: { split; [|done]. by rewrite <- Hp. }
  assert (Hret : forall r : run (result unit), (exists x, r = Ret x) -> (r = Panicked <-> stale_gap q w) /\ r <> OutOfFuel).
  { intros r [x ->]. split; [|done]. by rewrite <- Hp. }
  apply Hret.
  destruct (negb _); [by eexists|]. destruct (negb _); [by eexists|].
  destruct (host_scope_context _ _) as [ctx|]; cbn [and_then]; [|by eexists].
  destruct (find_assignment t _) as [a|]; [|by eexists].
  destruct (binding_rights_returns (tr_context q) b t a ctx now w) as [x ->]. destruct x; by eexists.
Qed.

(** What a binding that is allowed is entitled to: to one member of the current team in
    its own session, acting in scope and within the authority of its assignment and of
    its delegation, under every outer limit. *)
Record entitlement q (b : TeamRuntimeContext) (now : nat -> Z) w t (a : RoleAssignment) : Prop := {
  en_team : tw_teams w !! team_id b = Some t /\ at_revision t = team_revision b;
  en_member : exists m, m ∈ members t /\ member_id m = team_member b /\ session m = tr_session q /\ member_agent m = tr_agent q;
  en_assignment : find_assignment t (team_assignment b) = Some a /\ assigned_member a = team_member b;
  en_role : exists own, assignment_authority t (team_assignment b) (now 2) = Ok own /\ action_class (tr_context q) ∈ own;
  en_scope : exists ctx, host_scope_context (tw_system w) q = Ok ctx /\ applies (assignment_scope a) ctx /\
    forall id, team_delegation b = Some id -> exists d rights,
      delegated_authority t id (team_delegations (team_id b) w) (revoked_delegations w) (now 0) = Ret (Ok rights) /\
      tw_delegations w !! id = Some d /\ action_class (tr_context q) ∈ rights /\ delegate d = team_member b /\
      delegation_role d = assigned_role a /\ applies (task_scope d) ctx;
  en_envelope : enveloped q b a w;
  en_limits : required_available (capability_context (tr_context q)) = true /\ hard_policy_blocked (gov (tr_context q)) = false;
  en_commit : action_class (tr_context q) = RoleActionClass.Commit ->
    commit_authority (capability_context (tr_context q)) = true;
  en_recover : action_class (tr_context q) = RoleActionClass.Recover -> host_recovery_action (tw_system w) q = Ok true;
  en_review : high_risk (tr_context q) = true -> action_class (tr_context q) <> RoleActionClass.Observe ->
    exists id, tr_review q = Some id /\ host_review_satisfied (tw_system w) id q = Ok true;
}.

Lemma intersect_request_Ok rights r x : intersect_request rights r = Ok x ->
  request_action r ∈ rights /\ request_action r ∈ runtime_grant r.
Proof. unfold intersect_request. destruct (bool_decide_reflect (request_action r ∈ rights ∩ runtime_grant r ∩ external_grant r)); [set_solver|done]. Qed.
Lemma outer_grant_elem c rights x : x ∈ outer_grant c rights ->
  x ∈ rights /\ required_available (capability_context c) = true /\ hard_policy_blocked (gov c) = false /\
  (x = RoleActionClass.Commit -> commit_authority (capability_context c) = true).
Proof.
  unfold outer_grant. destruct (required_available _), (hard_policy_blocked _), (commit_authority _); cbn; set_solver.
Qed.
Lemma authorize_assignment_Ok t id member sess r x :
  authorize_assignment t id member sess r = Ok x ->
  exists own a, assignment_authority t id (request_now r) = Ok own /\ find_assignment t id = Some a /\
    assigned_member a = member /\ applies (assignment_scope a) (request_context r) /\
    request_action r ∈ own /\ request_action r ∈ runtime_grant r.
Proof.
  intros (own & Hown & (a & Ha%ok_or_Ok & Hrest)%result_bind_Ok)%result_bind_Ok.
  destruct (bool_decide_reflect (assigned_member a = member)) as [Hm|]; [|done]. cbn [negb orb] in Hrest.
  destruct (negb _); [done|]. unfold scope_established in Hrest.
  destruct (bool_decide_reflect (status (Scope.evaluate (assignment_scope a) (request_context r)) = ApplicabilityStatus.Applicable)); [|done].
  apply intersect_request_Ok in Hrest as [? ?]. by exists own, a.
Qed.
Lemma check_review_Ok q b t x w :
  team_wf w -> tw_teams w !! team_id b = Some t -> check_review q b t x w = Ok tt -> high_risk (tr_context q) = true ->
  x <> RoleActionClass.Observe -> exists id, tr_review q = Some id /\ host_review_satisfied (tw_system w) id q = Ok true.
Proof.
  intros Hw Ht. unfold check_review. destruct (tr_review q) as [id|].
  { intros ([] & Hs & Hr)%result_bind_Ok _ _; [by exists id|done]. }
  intros ([] & _ & (needed & Hn & Hr)%result_bind_Ok)%result_bind_Ok Hh Hx; [by injection Hn as <-|].
  apply result_bind_Ok in Hn as (s & (g & (n & [-> _]%i64_revision_Ok & [= Hg])%result_bind_Ok & [= <-])%result_bind_Ok & [= <-]).
  exfalso. unfold high_risk, severe in Hh. apply bool_decide_eq_true in Hh.
  assert (Hle : ord_le match g with Some g => distinct_from g | None => Severity.High end (risk_severity (risk (tr_context q)))).
  { etrans; [|exact Hh]. destruct g as [g|]; [|done]. by destruct (tf_governance w Hw _ _ _ Hg) as (_ & _ & ? & _). }
  by rewrite (bool_decide_eq_true_2 _ Hle), (bool_decide_eq_false_2 _ Hx) in Hr.
Qed.

Lemma binding_rights_Ok c b t a ctx now w rights :
  binding_rights c b t a ctx now w = Ret (Ok rights) -> forall id, team_delegation b = Some id -> exists d granted,
    delegated_authority t id (team_delegations (at_id t) w) (revoked_delegations w) (now 0) = Ret (Ok granted) /\
    tw_delegations w !! id = Some d /\ rights ⊆ granted /\ delegate d = team_member b /\
    delegation_role d = assigned_role a /\ applies (task_scope d) ctx.
Proof.
  unfold binding_rights, delegated_rights. intros Hr id Hid. rewrite Hid in Hr.
  apply and_then_Ok in Hr as (granted & Hg & Hr). destruct (team_delegations (at_id t) w !! id) as [d|] eqn:Hd; [|done].
  cbn in Hr. injection Hr as ([] & _ & Hr)%result_bind_Ok. apply team_delegations_lookup in Hd as [Hd _].
  destruct (match delegation_plan d with Some pin => _ | None => _ end); [done|].
  destruct (bool_decide_reflect (delegate d = team_member b)); [|done].
  destruct (bool_decide_reflect (assigned_member a = team_member b)); [|done].
  destruct (bool_decide_reflect (delegation_role d = assigned_role a)); [|done]. cbn in Hr.
  unfold scope_established in Hr.
  destruct (bool_decide_reflect (status (Scope.evaluate (task_scope d) ctx) = ApplicabilityStatus.Applicable)); [|done].
  cbn in Hr. apply result_bind_Ok in Hr as (own & _ & [= <-]). exists d, granted. split_and!; try done. set_solver.
Qed.
Lemma team_allows_entitled q b now w :
  team_wf w -> team (tr_context q) = Some b -> team_allows q b now w = Ret (Ok tt) ->
  exists t a, entitlement q b now w t a.
Proof.
  intros Hw Hb. unfold team_allows. intros (t & [= Ht%agent_team_Ok] & ([] & Hcap & Hrest)%and_then_Ok)%and_then_Ok.
  destruct (bool_decide_reflect (at_revision t = team_revision b)) as [Hrev|]; [|done]. cbn [negb] in Hrest.
  destruct (existsb _ _) eqn:Hm; [|done]. cbn [negb] in Hrest. apply existsb_True in Hm as (m & Hin & Hm).
  rewrite !andb_true_iff, !bool_decide_eq_true in Hm.
  apply and_then_Ok in Hrest as (ctx & [= Hctx] & Hrest). destruct (find_assignment t (team_assignment b)) as [a|] eqn:Ha; [|done].
  apply and_then_Ok in Hrest as (rights & Hrights & [= Hauth]). pose proof (binding_rights_Ok _ _ _ _ _ _ _ _ Hrights) as Hdel.
  destruct (wf_head w _ _ Hw Ht) as [Hid Hvalid]. unfold authorize_rights in Hauth.
  apply result_bind_Ok in Hauth as (x & (own & a' & Hown & Ha' & Hma & Hsc & Hact & Hout)%authorize_assignment_Ok & Hauth).
  apply result_bind_Ok in Hauth as (y & _ & Hauth). apply result_bind_Ok in Hauth as ([] & Hrec & Hrev2).
  cbn [request_now request_context request_action runtime_grant] in *.
  assert (a' = a) as -> by congruence. apply outer_grant_elem in Hout as (Hr & Hav & Hpol & Hcom).
  apply validate_team_capabilities_spec in Hcap as (b' & t' & a' & Hb' & Ht' & Hin' & Hid' & Hma' & Henv); [|done].
  assert (b' = b) as -> by congruence. assert (t' = t) as -> by congruence.
  apply find_assignment_Some in Ha as [Hina Hida].
  assert (a' = a) as ->. { eapply (NoDup_map_eq assignment_id); [by apply vt_assignments|done..|congruence]. }
  exists t, a. split; try done; [by exists m; destruct_and!|by exists own| | |by eapply check_review_Ok].
  - exists ctx. split; [done|]. split; [done|]. intros id Hd. destruct (Hdel id Hd) as (d & granted & ? & ? & ? & ? & ? & ?).
    rewrite Hid in *. exists d, granted. split_and!; try done. set_solver.
  - intros Hx. rewrite Hx, bool_decide_eq_true_2 in Hrec by done.
    apply result_bind_Ok in Hrec as ([] & ? & ?); done.
Qed.

(** Governance covers every member and role of its own revision, so that only a binding
    to another revision can miss an envelope. *)
Lemma covered g t a : covers_team g t = true -> valid_team t -> a ∈ role_assignments t ->
  is_Some (role_capabilities g !! assigned_role a) /\ is_Some (member_profiles g !! assigned_member a).
Proof.
  unfold covers_team. rewrite !andb_true_iff, !forallb_forall. intros ((_ & Hm) & Hr) Hv Hin.
  destruct (vt_assigned t Hv a Hin) as (Hma & Hro & _). split.
  - destruct Hro as (r & Hr'%list_elem_of_In & <-). specialize (Hr r Hr').
    by apply andb_true_iff in Hr as [?%bool_decide_eq_true _].
  - destruct Hma as (m & Hm'%list_elem_of_In & <-). specialize (Hm m Hm'). by apply bool_decide_eq_true in Hm.
Qed.
Lemma stale_gap_stale q w b t :
  team_wf w -> stale_gap q w -> team (tr_context q) = Some b -> tw_teams w !! team_id b = Some t ->
  team_revision b <> at_revision t.
Proof.
  intros Hw (b' & t' & a & g & Hb' & Ht' & Hin & _ & Hm & Hg & Hgap) Hb Ht Hr.
  assert (b' = b) as -> by congruence. assert (t' = t) as -> by congruence.
  unfold team_governance in Hg. apply result_bind_Ok in Hg as (n & [-> _]%i64_revision_Ok & [= Hg]).
  destruct (tf_governance w Hw _ _ _ Hg) as (_ & _ & _ & t2 & Ht2 & Hc).
  destruct (tf_heads w Hw _ _ Ht) as [_ Hrow]. rewrite Hr in Ht2. assert (t2 = t) as -> by congruence.
  destruct (wf_head w _ _ Hw Ht) as [_ Hv].
  destruct (covered g t a Hc Hv Hin) as [[x Hx] [y Hy]]. rewrite Hm in Hy. naive_solver.
Qed.

(** C40. What attaching the authority of a team comes to: a bound context is always assessed, allowed or with the one
    reason why not, except that it panics exactly when the bound revision, which is then not the current one, was governed
    without the role or the member of the assignment; an unbound context passes unless its session is registered in
    some team, and then it fails. *)
Theorem attach_outcome q now w :
  team_wf w ->
  match team (tr_context q) with
  | Some b =>
      (attach_team_authority q now w = Panicked <-> stale_gap q w) /\
      (stale_gap q w -> forall t, tw_teams w !! team_id b = Some t -> team_revision b <> at_revision t) /\
      (~ stale_gap q w -> exists r, attach_team_authority q now w = Ret (Ok (set_team (assess_binding b r) (tr_context q))) /\
        team_allows q b now w = Ret r)
  | None =>
      (attach_team_authority q now w = Ret (Ok (tr_context q)) /\
        forall id t m, tw_teams w !! id = Some t -> m ∈ members t -> session m <> tr_session q) \/
      (exists e, attach_team_authority q now w = Ret (Err e)) /\
        exists id t m, tw_teams w !! id = Some t /\ m ∈ members t /\ session m = tr_session q
  end.
Proof.
  intros Hw. unfold attach_team_authority. destruct (team (tr_context q)) as [b|] eqn:Hb.
  - destruct (team_allows_outcome q b now w Hw Hb) as [Hp Hf]. rewrite <- Hp.
    split; [|split].
    + destruct (team_allows q b now w); cbn; [by split|tauto|done].
    + intros Hs t Ht. apply Hp in Hs. by eapply stale_gap_stale.
    + intros Hn. destruct (team_allows q b now w) as [r| |]; [by exists r|done|done].
  - destruct (existsb _ _) eqn:He; [right|left].
    + split; [by eexists|]. apply existsb_True in He as ([id t] & Hin%elem_of_map_to_list & (m & Hm & ?%bool_decide_eq_true)%existsb_True).
      by exists id, t, m.
    + split; [done|]. intros id t m Ht Hm Hs.
      pose proof (existsb_False _ _ He (id, t) (proj2 (elem_of_map_to_list _ _ _) Ht)) as Hn. cbn in Hn.
      pose proof (existsb_False _ _ Hn m Hm) as Hx. by apply bool_decide_eq_false in Hx.
Qed.

(** C11. An agent that is bound to a team is told to act only within its role: when the policy decides to act on a context
    whose team authority was attached, the agent is a member of the current team in its own session, its action is in scope
    and within the authority of its assignment and its delegation, its capabilities are within the envelopes of role and
    member, no outer limit is passed, and a high-risk action beyond observing has a satisfied review. *)
Theorem act_within_team cfg q b now w c e :
  team_wf w -> team (tr_context q) = Some b -> attach_team_authority q now w = Ret (Ok c) ->
  evaluate cfg c = Ok e -> decision_kind (decision e) = RuntimeDecisionKind.Act ->
  exists t a, entitlement q b now w t a.
Proof.
  intros Hw Hb Hc He [Hcl _]%(decides_act _ _ _ He)%verdict_acts. unfold attach_team_authority in Hc. rewrite Hb in Hc.
  destruct (team_allows q b now w) as [r| |] eqn:Hr; [|done..]. injection Hc as <-.
  assert (Hrefuses : team_refuses (set_team (assess_binding b r) (tr_context q)) = false).
  { apply cl_security in Hcl. unfold security_blocked in Hcl. rewrite !orb_false_iff in Hcl.
    destruct Hcl as [_ Hcl]. unfold team_refuses, resolve_signals in *. by destruct (operational_knowledge _). }
  destruct r as [[]|err]; [|done]. by eapply team_allows_entitled.
Qed.
End store.
