(* ===== verification/TeamExample.v ===== *)
(** The team governance on a concrete team: a lead delegates to a worker, who delegates
    further; a member joins at a later revision. The properties of delegations, of the
    store and of decisions are applied to it. *)
From S2P Require Import Prelude Semver Scope ScopeRelation ScopeSoundness Hierarchy EconomicsModel EffectModel CapabilityModel.
From S2P Require Import PlanModel PlanValidity StateError PlanStore RuntimeModel RuntimePolicy RuntimeGuide RuntimeExample.
From S2P Require Import TeamAuthority TeamFacts TeamStore TeamSystem TeamSafety.

Module TeamExamples.
Import Semver.Sample.
#[local] Existing Instance ScopeExamples.sample_json.
#[local] Existing Instance RuntimeExamples.texts.

Definition api : ScopePredicate := Equals "service" (SString "api").
Definition staging : ScopePredicate := Equals "stage" (SString "staging").
Definition around : KnowledgeContext := Scope.mkContext {[ "service" := SString "api"; "stage" := SString "staging" ]}.

(** The rest of the system: the context above, every review satisfied, no recovery. *)
#[local] Instance example_system : TeamHost unit := {|
  host_plan_head _ _ := Ok 1%Z;
  host_scope_context _ _ := Ok around;
  host_recovery_action _ _ := Ok false;
  host_review_satisfied _ _ _ := Ok true;
  host_under_review _ _ _ := Ok false;
  host_snapshot _ id := Ok id;
  host_evidence_path _ _ := Ok tt;
  host_governance_bytes _ _ := Ok 1000%Z;
  host_reassignment_bytes _ _ := Ok 1000%Z;
|}.
#[local] Abbreviation World := (TeamWorld (X := unit)).

(** * A team *)

Definition codex : AgentIdentity := mkIdentity "codex" "/usr/bin/codex" None None.
Definition member (id : string) : AgentTeamMember := mkMember id codex ("session-" +:+ id).
Definition envelope : CapabilityEnvelope := mkCapabilityEnvelope [AnyNetwork; AnyFilesystemWrite None] true false.
Definition executor : AgentRole := builtin "executor" BuiltInAgentRole.Executor.
Definition everything : RoleAuthority :=
  {[RoleActionClass.Observe; RoleActionClass.Execute; RoleActionClass.Prepare; RoleActionClass.Commit]}.
Definition assigned (id who : string) : RoleAssignment := mkAssignment id who "executor" (mkScope [api]) 0 1000.
Definition first_team : AgentTeam :=
  mkTeam "team" 1 [member "lead"; member "worker"] [executor] [assigned "as-lead" "lead"; assigned "as-worker" "worker"]
    everything 2.
Definition second_team : AgentTeam :=
  mkTeam "team" 2 [member "lead"; member "worker"; member "novice"] [executor]
    [assigned "as-lead" "lead"; assigned "as-worker" "worker"; assigned "as-novice" "novice"] everything 2.
Definition governed (t : AgentTeam) : TeamGovernance :=
  mkTeamGovernance "team" (at_revision t)
    (list_to_map (map (fun m => (member_id m, mkMemberProfile "default" envelope)) (members t)))
    {[ "executor" := envelope ]} {[ "executor" := ∅ ]} Severity.Medium 8 100000 60000.
(** The lead delegates to the worker, the worker back to the lead. *)
Definition given : Delegation :=
  mkDelegation None "del-1" "team" 1 "lead" "worker" "as-lead" None "executor" (mkScope [api; staging])
    {[RoleActionClass.Observe; RoleActionClass.Execute]} 10 900.
Definition passed_on : Delegation :=
  mkDelegation None "del-2" "team" 1 "worker" "lead" "as-lead" (Some "del-1") "executor" (mkScope [api; staging])
    {[RoleActionClass.Observe]} 20 800.

(** The store after some calls; [start] where one of them fails. *)
Definition start : World := empty_teams tt.
Definition kept (r : result World) : World := match r with Ok w => w | Err _ => start end.
Definition kept_run (r : run (result World)) : World := match r with Ret r => kept r | _ => start end.
Definition founded : World := kept (save_agent_team first_team start).
Definition ruled : World := kept (save_team_governance (governed first_team) founded).
Definition delegated_once : World := kept_run (record_delegation given 30 ruled).
Definition delegated_twice : World := kept_run (record_delegation passed_on 40 delegated_once).
Definition withdrawn : World := kept (revoke_delegation "del-1" "done" delegated_twice).
Definition grown : World := kept (save_agent_team second_team withdrawn).

Example delegations_hold :
  validate_delegation "team" "del-1" 50 delegated_twice = Ret (Ok {[RoleActionClass.Observe; RoleActionClass.Execute]}) /\
  validate_delegation "team" "del-2" 50 delegated_twice = Ret (Ok {[RoleActionClass.Observe]}) /\
  validate_delegation "team" "del-2" 800 delegated_twice = Ret (refused "Delegation identity, revision, or validity mismatch").
Proof. vm_compute. done. Qed.

Lemma to_delegated : rtc team_step start delegated_twice.
Proof.
  apply (rtc_l _ _ founded); [apply (step_save first_team); vm_compute; reflexivity|].
  apply (rtc_l _ _ ruled); [apply (step_govern (governed first_team)); vm_compute; reflexivity|].
  apply (rtc_l _ _ delegated_once); [apply (step_delegate given 30); vm_compute; reflexivity|].
  apply rtc_once. apply (step_delegate passed_on 40); vm_compute; reflexivity.
Qed.
Lemma to_grown : rtc team_step withdrawn grown.
Proof. apply rtc_once. apply (step_save second_team); vm_compute; reflexivity. Qed.
Lemma to_withdrawn : rtc team_step start withdrawn.
Proof.
  eapply rtc_r; [apply to_delegated|]. apply (step_revoke "del-1" "done"); vm_compute; reflexivity.
Qed.
Lemma delegated_wf : team_wf delegated_twice.
Proof. exact (proj1 (sound_team_steps _ _ to_delegated (empty_teams_wf tt))). Qed.
Lemma withdrawn_wf : team_wf withdrawn.
Proof. exact (proj1 (sound_team_steps _ _ to_withdrawn (empty_teams_wf tt))). Qed.
Lemma grown_wf : team_wf grown.
Proof. exact (proj1 (sound_team_steps _ _ to_grown withdrawn_wf)). Qed.

Lemma team_books_witness : team_wf grown /\ team_grows start grown.
Proof.
  apply (team_books start grown); [exact (empty_teams_wf tt)|]. etrans; [exact to_withdrawn|exact to_grown].
Defined.
Lemma delegation_never_amplifies_witness :
  exists own, assignment_authority first_team "as-lead" 50 = Ok own /\ ({[RoleActionClass.Observe]} : RoleAuthority) ⊆ own.
Proof.
  destruct (delegation_never_amplifies first_team "del-2" (team_delegations "team" delegated_twice)
    (revoked_delegations delegated_twice) 50 {[RoleActionClass.Observe]}) as (d & a & Hd & _ & Ha & Hown & _).
  { vm_compute. reflexivity. }
  vm_compute in Hd. injection Hd as <-. vm_compute in Ha. injection Ha as <-. exact Hown.
Defined.
Lemma delegation_ends_witness :
  validate_delegation "team" "del-2" 60 grown <> Ret (Ok {[RoleActionClass.Observe]}).
Proof.
  apply (delegation_ends "team" "del-2" "del-1" given withdrawn grown); [apply withdrawn_wf|apply to_grown| | |].
  - apply rtc_once. exists passed_on. split; vm_compute; reflexivity.
  - vm_compute. reflexivity.
  - left. apply elem_of_dom. exists "done". vm_compute. reflexivity.
Defined.

(** * Decisions *)

(** A request of a member bound to a revision of the team. *)
Definition asks (who : string) (revision : Z) (delegation : option string) (c : RuntimeDecisionContext) : TeamRequest :=
  mkTeamRequest (set_team (mkTeamContext "team" revision who ("as-" +:+ who) delegation None) c) ("session-" +:+ who) codex
    None [FilesystemWrite (mkFsScope "/repo" true)].
Definition at_50 : nat -> Z := fun _ => 50%Z.
Definition decided (q : TeamRequest) (w : World) : option (RuntimeDecisionKind.t) :=
  match attach_team_authority q at_50 w with
  | Ret (Ok c) => RuntimeExamples.decides RuntimeExamples.balanced c
  | _ => None
  end.

(** The worker acts on its assignment and on the delegation; the lead not on the one
    that is only for observing. A member of a later team who is bound to the revision
    before gets no decision. *)
Example decisions :
  decided (asks "worker" 1 None RuntimeExamples.routine) delegated_twice = Some RuntimeDecisionKind.Act /\
  decided (asks "worker" 1 (Some "del-1") RuntimeExamples.routine) delegated_twice = Some RuntimeDecisionKind.Act /\
  decided (asks "lead" 1 (Some "del-2") RuntimeExamples.routine) delegated_twice = Some RuntimeDecisionKind.Abstain /\
  decided (asks "worker" 1 (Some "del-1") RuntimeExamples.routine) withdrawn = Some RuntimeDecisionKind.Abstain /\
  decided (asks "novice" 1 None RuntimeExamples.routine) grown = None.
Proof. vm_compute. done. Qed.

Lemma attach_outcome_witness :
  attach_team_authority (asks "novice" 1 None RuntimeExamples.routine) at_50 grown = Panicked /\
  stale_gap (asks "novice" 1 None RuntimeExamples.routine) grown.
Proof.
  destruct (attach_outcome (asks "novice" 1 None RuntimeExamples.routine) at_50 grown grown_wf) as [Hp _].
  assert (Hs : attach_team_authority (asks "novice" 1 None RuntimeExamples.routine) at_50 grown = Panicked)
    by (vm_compute; reflexivity).
  split; [exact Hs|]. by apply Hp.
Defined.
Lemma act_within_team_witness :
  exists t a, entitlement (asks "worker" 1 (Some "del-1") RuntimeExamples.routine)
    (mkTeamContext "team" 1 "worker" "as-worker" (Some "del-1") None) at_50 delegated_twice t a.
Proof.
  set (q := asks "worker" 1 (Some "del-1") RuntimeExamples.routine).
  destruct (attach_team_authority q at_50 delegated_twice) as [[c|err]| |] eqn:Hc; try (vm_compute in Hc; discriminate).
  destruct (evaluate RuntimeExamples.balanced c) as [e|err] eqn:He;
    [|vm_compute in Hc; injection Hc as <-; vm_compute in He; discriminate].
  apply (act_within_team RuntimeExamples.balanced q _ at_50 delegated_twice c e delegated_wf eq_refl Hc He).
  vm_compute in Hc. injection Hc as <-. vm_compute in He. by injection He as <-.
Defined.
End TeamExamples.
